(* ===== verification/_CoqProject ===== *)
-Q . S2P
Prelude.v
Sock.v
LinuxC.v
Reno.v
CubicRoot.v
Cubic.v
Bic.v
Scalable.v
HighSpeed.v
Hybla.v
Vegas.v
Veno.v
Yeah.v
Westwood.v
Illinois.v
Htcp.v
Lp.v
Compound.v
Driver.v
Modules.v
Scoreboard.v
Sack.v
Send.v
Agent.v
Sink.v
Network.v
ParamList.v
Registry.v
Doubles.v
EventQueue.v
Heap.v
Splay.v
Calendar.v
CalendarOk.v
Schedulers.v
Timer.v
PacketQueue.v
DropTail.v
Drr.v
RoundRobin.v
DrrOk.v
Hop.v
BtPacket.v
BtLink.v
BtArq.v
BtProgress.v
BtFragment.v
Arq16.v
Arq16Ok.v
Arq16Sdu.v
Arq16Conn.v
Arq16Acks.v
