(* ===== verification/Prelude.v ===== *)
(** * Parts of ns-2: TCP-Linux, the event scheduler, queues, Bluetooth, WiMAX

    A model of five parts of ns-2.34, with the theorems that make them correct:
    - TCP-Linux, end to end (src/ns-2.34/tcp/linux/, tcp/tcp-linux.cc and .h,
      tcp/scoreboard1.cc and .h), and the receiver it talks to (tcp/tcp-sink.cc
      and .h);
    - the event scheduler and its four queues of events (common/scheduler.cc and
      .h, common/heap.h, common/splay-scheduler.cc), and timers over it
      (common/timer-handler.cc and .h);
    - packet queues (queue/queue.cc and .h, queue/drop-tail.cc, queue/drr.cc);
    - of Bluetooth (bluetooth/), hop selection, packets, and the link between a
      master and a slave: its queues, fragmentation, the 1-bit ARQ;
    - of WiMAX (wimax/), the ARQ of a connection (arqstatus.cc, the parts of
      mac802_16SS.cc that cut SDUs into blocks and make them again, and the part of
      scheduling/wimaxscheduler.cc that fills a PDU).

    ** The program

    TCP-Linux runs congestion control modules of the Linux kernel, almost
    verbatim, inside the simulator.  An acknowledgement reaches
    LinuxTcpAgent::recv.  The agent compares it with what it has sent, records its
    SACK blocks in the scoreboard, updates the round-trip estimators, tells the
    congestion module of the flow what happened through a table of callbacks
    (struct tcp_congestion_ops), lets it open the window, and cuts the window when
    the scoreboard or an ECN mark reports a loss.  The sending loop then puts out
    the segments the scoreboard gives for lost, and new ones, while the window
    allows.  A timeout marks everything lost and reduces the window to one
    segment; when nothing is outstanding it does nothing, or starts again from the
    initial window.  The receiver keeps a ring of the segments that arrived, hands them
    to the application in order, and answers with cumulative acknowledgements and
    SACK blocks, at once or after a delay.

    The scheduler is the loop of the simulator: it takes the earliest event from
    its queue, advances the clock, and calls the handler, which may schedule and
    cancel others.  The queue is a list, a heap, a splay tree or, by default, a
    calendar.  A timer is an object with one event of its own.

    A packet for a link goes through the enque of the queueing discipline; the
    queue hands out a packet when the link is free, and is told when it is free
    again.

    In a piconet the master transmits in even slots and polls a slave with every
    packet, which answers in the next slot; every slot has its channel, computed
    by the hop selection kernel from the clock and the address of the master.  A
    link has two buffers of two packets, one at each end.  A CRC packet is sent
    again until the other end acknowledges it; the receiver tells a new packet
    from a repeated one by a number of one bit.

    On an 802.16 connection with ARQ an SDU is cut into blocks with numbers of 11
    bits.  The sender keeps a copy of each until it is acknowledged, and a timer
    queues again those that are not in a queue; it sends none outside of its window,
    which moves with the acknowledgements.  The receiver keeps blocks that are
    ahead of the next one, acknowledges blocks one by one or up to a number, and
    hands up an SDU when its blocks are in order.

    ** The files

    - Prelude: the outcome monad, C integers, loops, record update, arrays.

    TCP-Linux:
    - Sock, LinuxC: the socket, the callback table, the globals
      (ns-linux-util.h, ns-linux-param.c); the kernel shims of ns-linux-c.c.
    - Reno, CubicRoot and Cubic, Bic, Scalable (with naive Reno), HighSpeed,
      Hybla, Vegas, Veno, Yeah, Westwood, Illinois, Htcp, Lp, Compound: one file
      for each congestion module of linux/src/, one definition for each callback.
      The record of a file is the private state (struct bictcp, ...), and the
      table of its callbacks is the [tcp_congestion_ops] at its end.
    - Driver: the agent (recv, timeout) over an abstract module; the class
      [CongModule] says what a module promises, the record [drv_sock] what the
      agent guarantees.  Modules: the instances of the class, for eleven of the
      modules.
    - Scoreboard: ScoreBoard1 and ScoreBoardNode1.  The linked list is a list of
      blocks that carry their addresses; a pointer to a block that is no longer
      in the list is a trap when it is followed.  Sack: what UpdateScoreBoard
      does with the blocks of an acknowledgement.
    - Send: the loop of send_much.  Agent: recv, timeout and send_much with the
      scoreboard.
    - Sink: Acker, Sacker, SackStack, TcpSink, DelAckSink.
    - Network: the two ends, and between them any network.
    - ParamList: the module parameters of a flow (ParamList, LinuxParamManager).
    - Registry: the list of the modules (tcp_cong.c, the list macros of
      ns-linux-util.h, CongestionControlManager).

    The event scheduler:
    - Doubles: finite IEEE doubles as multiples of 2^-1074.  EventQueue: what the
      simulator asks of a queue of events (the class [EventQueue] and its laws),
      ListScheduler, and schedule, dispatch, run, cancel over any queue.
    - Heap, Splay, Calendar and CalendarOk: the three other queues.  Schedulers:
      their instances, and what a run dispatches.
    - Timer: TimerHandler over the scheduler.

    Packet queues:
    - PacketQueue: the linked list of packets in memory.  DropTail: the
      discipline, and Queue::recv and resume with the link.
    - Drr: deficit round robin.  RoundRobin: the same as a step relation on
      lists.  DrrOk: what it promises of any run.

    Bluetooth:
    - Hop: BTChannelUseSet and Baseband::FH_kernel.
    - BtPacket: hdr_bt, the packet types.  BtLink: TxBuffer, the part of LMPLink
      that feeds it, L2CAPChannel::send.  BtArq: the two ends of a link and a
      channel that loses packets, as a transition system; BtProgress: what an
      exchange without losses does.  BtFragment: L2CAP::_reassemble against the
      fragments.

    WiMAX:
    - Arq16: class Arqstatus, sendDown, process_mac_pdu_witharqfragpack, and the two
      ends of a connection.  Arq16Ok: the blocks of SDUs, and the receiver.
      Arq16Sdu: reassembly.  Arq16Conn: the sender, and the connection.  Arq16Acks:
      connections whose acknowledgements arrive, and connections that stop.

    ** How the code is modelled

    A C function that changes state takes the state and returns
    [outcome state]: [Ok] or a [Trap] that says what goes wrong (division by
    zero, an access out of bounds, a shift by the width or more, a null or
    dangling pointer, a failed assertion, exit and abort, a loop that does not
    end).  Unsigned arithmetic wraps at the 32 or 64 bits of the code (the
    simulator is built for ILP32: [unsigned long] has 32 bits), with the operators
    [⊕], [⊖], [⊗] of the prelude.  Counters of type [int] are plain integers: in
    TCP and in PacketQueue hypotheses of the theorems keep them below 2^31, and the
    theorems on the disciplines, the link and Bluetooth are about runs whose counts
    stay below it.  Loops are [c_while] with
    [loop_fuel] = 2^40 iterations, and a theorem about a loop proves that it
    ends before ([c_while_rule] asks for a measure).  A callback that a module
    leaves NULL is [None].  In TCP-Linux the clock, a double in the simulator,
    enters as the integers the code converts it to; in the scheduler times are
    doubles with their rounding.  In the scheduler and the packet queues what a
    pointer refers to is found in a finite map from addresses; a packet of
    Bluetooth is sent as a copy, so it is a value.

    ** Bounds

    Windows, thresholds and the clamp are at most [window_max] = 2^24 segments,
    which keeps the products of the code in 32 bits; an acknowledgement covers at
    most [acked_max] = 2^20 segments; a sequence number at the receiver is below
    [seq_max] = 2^28, so that its ring never grows past 2^29 entries; a run has
    at most 2^31 events, the range of the counters of the modules.  These
    are hypotheses on events ([valid], [sb_valid], [full_valid], [sink_valid],
    [net_valid]); the code does not check them, and each theorem that has them
    has a witness.

    A run of the heap or the calendar has at most 2^30 insertions, one of the
    splay tree 2^31 - 1.  The calendar's days keep their order as long as its
    width is at least 2^10 units of 2^-1074 s and times are below 2^50 widths
    ([fine]).  For deficit round robin the number of flows times the largest packet
    and the length of a run are below 2^40, addresses are not negative and sizes are
    positive.  The bytes that enter a PacketQueue and the operations on it are below
    2^31.  A run of a Bluetooth link has fewer than 2^15 events: the count of
    transmissions of a packet has 16 bits, and with the default limit on
    retransmissions (9999999, which stands for infinity) is compared with what it
    can never reach.  The theorems on WiMAX are for connections that send at most
    2048 blocks less the window, with SDUs of a block or more, and fewer than 100
    blocks between two packets with acknowledgements: outside of this the code is
    wrong, as the examples at the end of Arq16Conn show.  That everything is
    delivered is shown for fewer blocks than the window has, or if no
    acknowledgement is lost: otherwise the code may stop ([wimax_arq_stops],
    [refused_head_stays]).

    ** What is shown

    - Connection (Network): [network_safe], no sequence of losses, duplications,
      delays and reorderings makes either end trap or loop, and what the sender
      believes acknowledged or sacked was received; [network_completes], the
      arrival of the last missing segment leads to an acknowledgement after
      which nothing is in flight.
    - Receiver (Sink): delivery in order, each byte once; acknowledgements
      and SACK blocks that are true of what arrived; the block of the latest
      arrival first; delayed acknowledgements that are sent in the end.
    - Sender (Agent, Driver, Modules): safety of every run, with timeouts at any
      time, for every module that meets the contract, and that eleven modules do,
      for round trips up to the bound of the contract (624 ms for Hybla, which
      shifts too far above it).  Before the first acknowledgement the module is not
      initialised: the contract asks that a timeout is harmless on blank private
      memory.  The scoreboard refines the abstract report of losses; one reduction
      per window of data.
    - Scoreboard (Scoreboard, Sack, Send): an invariant of the list and of its
      counts; exact marking by SACK blocks; the count of packets in flight; the
      marking of a timeout; retransmissions; the sending loop.
    - Modules (Cubic to Compound): what each computes, against the
      mathematical function it approximates, with the error or the range of
      inputs where it is exact.
    - Registry and parameters: the linked list against the list of its elements;
      flows that do not see each other's parameters; round trips.
    - Scheduler (Schedulers, EventQueue): the heap, the splay tree and the
      calendar dispatch what the list does; events come in the order of their
      times and, at one time, of their scheduling, and the clock is the time of the
      latest; every command, with its errors.
    - Timers (Timer): the status of a timer says whether its event is in the
      queue, in every run; every call, with its errors.
    - Queues (PacketQueue, DropTail, DrrOk): the linked list against a list of
      packets; a link is first in, first out, and its queue bounded; deficit round
      robin refines the step relation, in which an arrival drops packets of a
      longest flow just until the limit is kept, keeps the packets of a flow in order, loses
      none but those it drops, and two flows that always have packets get shares
      that differ by less than a quantum and two packets.
    - Hop selection (Hop): every hop is a channel of the map; adaptive hopping
      moves no hop that the map allows; a pager finds the scanner in exactly one
      slot; the hexadecimal form of a map is read back.  [spec_sample] is the sample
      sequence of the Bluetooth specification.
    - Packets (BtPacket): every type but HLO ends before its slots do.
    - Link (BtArq, BtProgress, BtFragment): whatever is lost, the data that enters
      the buffer of one end is passed up at the other end once and in order;
      an exchange without losses brings the packet that is being sent across, or two
      if the master has suspended the slave after four losses;
      fragments of a packet are put together into the packet.
    - WiMAX (Arq16Conn): whatever is lost, repeated or reordered, in both directions,
      the SDUs handed up are those sent, in order and each once, and a block that has
      not arrived stays with the sender; one round of retransmissions brings across
      what fits in the window.  What goes wrong when the numbers wrap.
    - WiMAX (Arq16Acks): if no acknowledgement is lost, rounds of retransmissions
      bring everything across; if those of a full window are, nothing is delivered
      any more.

    ** What is outside the contract of the agent

    YeAH's threshold wraps ([yeah_ssthresh_bounds]); Compound's window may pass
    the clamp or be zero; Westwood's window after a loss has no bound below the
    width of the type; naive Reno never leaves a window of zero.  The theorems
    on these modules are about their callbacks alone.

    ** What is not modelled

    Of TCP-Linux: the timers of the agent and their back-off, delayed sends
    ([overhead_]), tracing, the fall-back to TcpAgent when a flow has no module,
    time stamps in the receiver, quick start; D-SACK generation is a definition of
    Sink but the theorems on the receiver are for [generate_dsacks_] off, its
    default.  Of the scheduler: RealTimeScheduler, which waits for the clock of the
    host, and the Tcl scripts of at.  Of the queues: the averages of Queue, which
    influence no packet, and the other disciplines (RED and its variants draw
    random numbers and average in floating point).  Of Bluetooth: the state machine
    of the baseband (inquiry, paging), the link manager and its modes, L2CAP
    signalling, SDP, BNEP, scatternets, and the theorems on the link are for ACL
    links, without broadcasts and without the flush of a packet, which the default
    limit never reaches.  Of WiMAX: everything but ARQ (network entry, ranging,
    the allocation of bursts, and with it how many blocks fit in a PDU, the physical
    layer, handover), and ARQ without packing beyond its definitions.  The rest of ns-2: the other TCP agents, routing, SCTP, the other
    MACs and MannaSim.  The interpreters tcl, tk, otcl and tclcl are
    vendored. *)
From stdpp Require Export base numbers option list.
From Stdlib Require Export ZArith Lia Bool.

#[global] Open Scope Z_scope.

(** * Definitions *)

(** ** Undefined behaviour and total correctness *)

(** What can go wrong in the C code: the abstract machine traps, or a loop
    never ends (exhausts its fuel). *)
Inductive ub : Set :=
  | DivByZero | OutOfBounds | BadShift | NullDeref | NoFuel | UseAfterFree | AssertFail.

Inductive outcome (A : Type) : Type :=
  | Ok (a : A)
  | Trap (u : ub).
Arguments Ok {A} a.
Arguments Trap {A} u.

#[global] Instance outcome_ret : MRet outcome := fun A a => Ok a.
#[global] Instance outcome_bind : MBind outcome := fun A B f m =>
  match m with Ok a => f a | Trap u => Trap u end.

(** [returns m Q]: the computation [m] does not trap, terminates, and its
    result satisfies [Q]. *)
Definition returns {A} (m : outcome A) (Q : A -> Prop) : Prop :=
  match m with Ok a => Q a | Trap _ => False end.

(** ** Record update: [r <| f := v |>] *)

(** [Eta R] holds the eta-expansion of a record type; the setter of a field is
    computed from it by abstracting the projection out of the expansion. *)
Class Eta (R : Type) := eta_expand : R -> R.
Class FieldSetter {R T : Type} (f : R -> T) := set_field : T -> R -> R.

Ltac field_setter :=
  match goal with
  | |- @FieldSetter ?R ?T ?f =>
      let e := constr:(_ : Eta R) in
      let h := eval hnf in e in
      let t := constr:(fun (v : T) (r : R) =>
        ltac:(let b := eval cbv beta in (h r) in
              let p := eval pattern (f r) in b in
              match p with
              | ?F _ => let c := eval cbv beta in (F v) in exact c
              end)) in
      exact t
  end.
#[global] Hint Extern 1 (FieldSetter _) => field_setter : typeclass_instances.

Notation "r <| f := v |>" := (@set_field _ _ f _ v r)
  (at level 1, f at level 11, v at level 200, left associativity,
   format "r  <| f  :=  v |>") : Z_scope.
Arguments set_field {R T} f {FieldSetter} v r /.

(** ** C integers (ILP32) *)

(** Conversions to the integer types of the code.  The simulator is built for
    32-bit machines: [int] and [long] have 32 bits, [long long] has 64, so
    [__u32] ([unsigned long]) and [__u16] ([unsigned int], not a 16-bit type)
    both have 32 bits. *)
Definition u8 (z : Z) : Z := z mod 256.
Definition u16 (z : Z) : Z := z mod 4294967296.
Definition u32 (z : Z) : Z := z mod 4294967296.
Definition u64 (z : Z) : Z := z mod 18446744073709551616.
Definition s32 (z : Z) : Z := (z + 2147483648) mod 4294967296 - 2147483648.
Definition s64 (z : Z) : Z :=
  (z + 9223372036854775808) mod 18446744073709551616 - 9223372036854775808.

Abbreviation in_u8 z := (0 <= z < 256).
Abbreviation in_u32 z := (0 <= z < 4294967296).
Abbreviation in_u64 z := (0 <= z < 18446744073709551616).
Abbreviation in_s32 z := (-2147483648 <= z < 2147483648).
Abbreviation in_s64 z := (-9223372036854775808 <= z < 9223372036854775808).

(** Arithmetic modulo [2^32], as on [unsigned long] and [unsigned int]. *)
Declare Scope c_scope.
Notation "x ⊕ y" := (u32 (x + y)) (at level 50, left associativity) : c_scope.
Notation "x ⊖ y" := (u32 (x - y)) (at level 50, left associativity) : c_scope.
Notation "x ⊗ y" := (u32 (x * y)) (at level 40, left associativity) : c_scope.
#[global] Open Scope c_scope.

(** An integer as a condition. *)
Definition nz (z : Z) : bool := negb (z =? 0).

Definition udiv (x y : Z) : outcome Z :=
  if y =? 0 then Trap DivByZero else Ok (x / y).
Definition umod (x y : Z) : outcome Z :=
  if y =? 0 then Trap DivByZero else Ok (x mod y).

(** [x << n] on [int]: the count must be below the width of the type. *)
Definition shl_int (x n : Z) : outcome Z :=
  if (0 <=? n) && (n <? 32) then Ok (s32 (x ≪ n)) else Trap BadShift.

(** [l[i]] *)
Definition aread {A} (l : list A) (i : Z) : outcome A :=
  if i <? 0 then Trap OutOfBounds else
  match l !! Z.to_nat i with Some v => Ok v | None => Trap OutOfBounds end.

(** [l[i] = v] *)
Definition awrite {A} (l : list A) (i : Z) (v : A) : outcome (list A) :=
  if (0 <=? i) && (i <? Z.of_nat (length l)) then Ok (<[Z.to_nat i := v]> l)
  else Trap OutOfBounds.

(** ** Loops *)

(** At most [p] steps, [p] in binary: [inl] is "still running". *)
Fixpoint iter_pos {S R} (step : S -> S + R) (p : positive) (s : S) : S + R :=
  match p with
  | xH => step s
  | xO q => match iter_pos step q s with
            | inl s' => iter_pos step q s' | inr r => inr r end
  | xI q => match step s with
            | inl s1 => match iter_pos step q s1 with
                        | inl s2 => iter_pos step q s2 | inr r => inr r end
            | inr r => inr r
            end
  end.

Fixpoint iter_nat {S R} (step : S -> S + R) (n : nat) (s : S) : S + R :=
  match n with
  | O => inl s
  | Datatypes.S n' => match step s with
                      | inl s' => iter_nat step n' s' | inr r => inr r end
  end.

(** The bound on loop iterations, [2^40]: more than any loop of the code
    performs when it terminates, since the loops count 32-bit integers down. *)
Definition loop_fuel : positive := 1099511627776%positive.

Definition while_step {S} (cond : S -> bool) (body : S -> outcome S) (s : S)
  : S + outcome S :=
  if cond s then
    match body s with Ok s' => inl s' | Trap u => inr (Trap u) end
  else inr (Ok s).

(** [while (cond) body] *)
Definition c_while {S} (cond : S -> bool) (body : S -> outcome S) (s : S) : outcome S :=
  match iter_pos (while_step cond body) loop_fuel s with
  | inl _ => Trap NoFuel
  | inr r => r
  end.
Arguments c_while : simpl never.

(** [while (cond) body], the condition itself reading arrays or dividing *)
Definition whilem_step {S} (cond : S -> outcome bool) (body : S -> outcome S) (s : S)
  : S + outcome S :=
  match cond s with
  | Ok true => match body s with Ok s' => inl s' | Trap u => inr (Trap u) end
  | Ok false => inr (Ok s)
  | Trap u => inr (Trap u)
  end.

Definition c_whilem {S} (cond : S -> outcome bool) (body : S -> outcome S) (s : S)
  : outcome S :=
  match iter_pos (whilem_step cond body) loop_fuel s with
  | inl _ => Trap NoFuel
  | inr r => r
  end.
Arguments c_whilem : simpl never.

(** [do body while (cond)] *)
Definition c_do_while {S} (body : S -> outcome S) (cond : S -> bool) (s : S) : outcome S :=
  s' ← body s; c_while cond body s'.

(** [n] calls of the same handler in a row. *)
Fixpoint c_iter {S} (n : nat) (f : S -> outcome S) (s : S) : outcome S :=
  match n with
  | O => Ok s
  | Datatypes.S n' => s' ← f s; c_iter n' f s'
  end.

#[global] Instance ub_eq_dec : EqDecision ub.
Proof. solve_decision. Defined.

(** * Lemmas *)

(** ** Loops *)

Lemma iter_nat_add {S R} (step : S -> S + R) n m s :
  iter_nat step (n + m) s =
  match iter_nat step n s with inl s' => iter_nat step m s' | inr r => inr r end.
Proof.
  revert s; induction n as [|n IH]; intros s; cbn; [done|].
  destruct (step s); [apply IH | done].
Qed.

Lemma iter_pos_nat {S R} (step : S -> S + R) p s :
  iter_pos step p s = iter_nat step (Pos.to_nat p) s.
Proof.
  revert s; induction p as [p IH|p IH|]; intros s; cbn [iter_pos].
  - rewrite Pos2Nat.inj_xI. cbn [iter_nat].
    destruct (step s) as [s1|r]; [|done].
    replace (2 * Pos.to_nat p)%nat with (Pos.to_nat p + Pos.to_nat p)%nat by lia.
    rewrite iter_nat_add, <- IH. destruct (iter_pos step p s1); [apply IH|done].
  - rewrite Pos2Nat.inj_xO.
    replace (2 * Pos.to_nat p)%nat with (Pos.to_nat p + Pos.to_nat p)%nat by lia.
    rewrite iter_nat_add, <- IH. destruct (iter_pos step p s); [apply IH|done].
  - change (Pos.to_nat 1) with 1%nat. cbn. by destruct (step s).
Qed.

Lemma c_while_nat {S} (cond : S -> bool) body s :
  c_while cond body s =
  match iter_nat (while_step cond body) (Pos.to_nat loop_fuel) s with
  | inl _ => Trap NoFuel | inr r => r end.
Proof. unfold c_while. by rewrite iter_pos_nat. Qed.

Lemma loop_fuel_pos : exists n, Pos.to_nat loop_fuel = Datatypes.S n.
Proof. apply Pos2Nat.is_succ. Qed.

(** Total correctness: an invariant and a decreasing measure. *)
Lemma c_while_rule {S} (I : S -> Prop) (m : S -> Z) (cond : S -> bool) body s :
  (forall s, I s -> cond s = true ->
    returns (body s) (fun s' => I s' /\ 0 <= m s' < m s)) ->
  I s -> m s < 1099511627776 ->
  returns (c_while cond body s) (fun s' => I s' /\ cond s' = false).
Proof.
  intros Hstep HI Hm. rewrite c_while_nat.
  destruct loop_fuel_pos as [n0 Hn0].
  assert (Hf : m s < Z.of_nat (Pos.to_nat loop_fuel)) by (unfold loop_fuel; lia).
  rewrite Hn0 in *. clear Hn0 Hm.
  revert s HI Hf; induction n0 as [|n IH]; intros s HI Hf;
    cbn [iter_nat]; unfold while_step at 1; specialize (Hstep s HI) as Hs;
    (destruct (cond s) eqn:Hc; [|done]); specialize (Hs eq_refl);
    (destruct (body s) as [s'|u]; [|done]); destruct Hs as [HI' Hm'].
  - lia.
  - apply IH; [done|lia].
Qed.

Lemma c_whilem_rule {S} (I : S -> Prop) (m : S -> Z) (cond : S -> outcome bool) body s :
  (forall s, I s -> returns (cond s) (fun b => b = true ->
    returns (body s) (fun s' => I s' /\ 0 <= m s' < m s))) ->
  I s -> m s < 1099511627776 ->
  returns (c_whilem cond body s) (fun s' => I s' /\ cond s' = Ok false).
Proof.
  intros Hstep HI Hm. unfold c_whilem. rewrite iter_pos_nat.
  destruct loop_fuel_pos as [n0 Hn0].
  assert (Hf : m s < Z.of_nat (Pos.to_nat loop_fuel)) by (unfold loop_fuel; lia).
  rewrite Hn0 in *. clear Hn0 Hm.
  revert s HI Hf; induction n0 as [|n IH]; intros s HI Hf;
    cbn [iter_nat]; unfold whilem_step at 1; specialize (Hstep s HI) as Hs;
    (destruct (cond s) as [[]|] eqn:Hc; [|done|done]); specialize (Hs eq_refl);
    (destruct (body s) as [s'|u]; [|done]); destruct Hs as [HI' Hm'].
  - lia.
  - apply IH; [done|lia].
Qed.

(** Divergence: an invariant that keeps the condition true. *)
Lemma c_while_diverges {S} (I : S -> Prop) (cond : S -> bool) body s :
  (forall s, I s -> cond s = true /\ returns (body s) I) ->
  I s -> c_while cond body s = Trap NoFuel.
Proof.
  intros Hstep HI. rewrite c_while_nat.
  revert s HI; induction (Pos.to_nat loop_fuel) as [|n IH]; intros s HI; [done|].
  cbn [iter_nat]. unfold while_step at 1.
  destruct (Hstep s HI) as [-> Hb]. destruct (body s); [by apply IH|done].
Qed.

Lemma c_while_false {S} (cond : S -> bool) body s :
  cond s = false -> c_while cond body s = Ok s.
Proof.
  intros Hc. rewrite c_while_nat. destruct loop_fuel_pos as [n ->].
  cbn [iter_nat]. unfold while_step at 1. by rewrite Hc.
Qed.

Lemma c_iter_add {S} n m (f : S -> outcome S) s :
  c_iter (n + m) f s = s' ← c_iter n f s; c_iter m f s'.
Proof.
  revert s; induction n as [|n IH]; intros s; [done|].
  cbn [c_iter Nat.add]. destruct (f s); [apply IH|done].
Qed.

(** A handler that walks through a known sequence of states. *)
Lemma c_iter_count {S} (f : S -> outcome S) (st : nat -> S) n s :
  s = st O -> (forall i, (i < n)%nat -> f (st i) = Ok (st (Datatypes.S i))) ->
  c_iter n f s = Ok (st n).
Proof.
  intros -> Hf. induction n as [|n IH]; [done|].
  replace (Datatypes.S n) with (n + 1)%nat by lia. rewrite c_iter_add, IH by (intros; apply Hf; lia).
  cbn. rewrite Hf by lia. cbn. by rewrite Nat.add_1_r.
Qed.

(** ** The outcome monad *)

Lemma returns_Ok {A} (a : A) (Q : A -> Prop) : Q a -> returns (Ok a) Q.
Proof. done. Qed.

(** Rewriting with this equation, rather than computing the bind, keeps the
    kernel from comparing a result with a loop still to run. *)
Lemma bind_Ok {A B} (a : A) (f : A -> outcome B) : (Ok a ≫= f) = f a.
Proof. done. Qed.

Lemma returns_bind {A B} (m : outcome A) (f : A -> outcome B) (P : A -> Prop) Q :
  returns m P -> (forall a, P a -> returns (f a) Q) -> returns (m ≫= f) Q.
Proof. destruct m; cbn; [intros HP Hf; by apply Hf | done]. Qed.

Lemma returns_mono {A} (m : outcome A) (P Q : A -> Prop) :
  returns m P -> (forall a, P a -> Q a) -> returns m Q.
Proof. destruct m; cbn; auto. Qed.

Lemma returns_and {A} (m : outcome A) (P Q : A -> Prop) :
  returns m P -> returns m Q -> returns m (fun a => P a /\ Q a).
Proof. by destruct m. Qed.

Lemma returns_inv {A} (m : outcome A) (Q : A -> Prop) :
  returns m Q <-> exists a, m = Ok a /\ Q a.
Proof. destruct m; cbn; naive_solver. Qed.

Lemma udiv_ok x y : y <> 0 -> udiv x y = Ok (x / y).
Proof. intros Hy. unfold udiv. by destruct (Z.eqb_spec y 0). Qed.

Lemma udiv_zero x : udiv x 0 = Trap DivByZero.
Proof. done. Qed.

Lemma aread_ok {A} (l : list A) (i : Z) v :
  0 <= i -> l !! Z.to_nat i = Some v -> aread l i = Ok v.
Proof.
  intros Hi Hl. unfold aread. destruct (Z.ltb_spec i 0); [lia|]. by rewrite Hl.
Qed.

Lemma aread_in {A} (l : list A) (i : Z) :
  0 <= i < Z.of_nat (length l) -> exists v, aread l i = Ok v /\ l !! Z.to_nat i = Some v.
Proof.
  intros Hi. destruct (lookup_lt_is_Some_2 l (Z.to_nat i)) as [v Hv]; [lia|].
  exists v. split; [|done]. apply aread_ok; [lia|done].
Qed.

Lemma awrite_ok {A} (l : list A) (i : Z) v :
  0 <= i < Z.of_nat (length l) -> awrite l i v = Ok (<[Z.to_nat i := v]> l).
Proof.
  intros Hi. unfold awrite. destruct (Z.leb_spec 0 i); [|lia].
  by destruct (Z.ltb_spec i (Z.of_nat (length l))); [|lia].
Qed.

(** ** C integers *)

Lemma u32_id z : in_u32 z -> u32 z = z.
Proof. intros H. unfold u32. by rewrite Z.mod_small. Qed.
Lemma u64_id z : in_u64 z -> u64 z = z.
Proof. intros H. unfold u64. by rewrite Z.mod_small. Qed.
Lemma u8_id z : in_u8 z -> u8 z = z.
Proof. intros H. unfold u8. by rewrite Z.mod_small. Qed.
Lemma s32_id z : in_s32 z -> s32 z = z.
Proof. intros H. unfold s32. rewrite Z.mod_small; lia. Qed.
Lemma s64_id z : in_s64 z -> s64 z = z.
Proof. intros H. unfold s64. rewrite Z.mod_small; lia. Qed.

Lemma u32_range z : in_u32 (u32 z).
Proof. unfold u32. apply Z.mod_pos_bound. lia. Qed.
Lemma u64_range z : in_u64 (u64 z).
Proof. unfold u64. apply Z.mod_pos_bound. lia. Qed.
Lemma u8_range z : in_u8 (u8 z).
Proof. unfold u8. apply Z.mod_pos_bound. lia. Qed.
Lemma s32_range z : in_s32 (s32 z).
Proof. unfold s32. pose proof (Z.mod_pos_bound (z + 2147483648) 4294967296). lia. Qed.

Lemma u32_s32 z : u32 (s32 z) = u32 z.
Proof. unfold u32, s32. rewrite Zminus_mod_idemp_l. f_equal. lia. Qed.

Lemma u32_u32 z : u32 (u32 z) = u32 z.
Proof. apply u32_id, u32_range. Qed.

Lemma u32_sub_id x y : 0 <= y <= x -> x < 4294967296 -> x ⊖ y = x - y.
Proof. intros. apply u32_id. lia. Qed.

Lemma shr_range x n m : 0 <= x < m -> 0 <= x ≫ n < m \/ n < 0.
Proof.
  intros Hx. destruct (Z.lt_ge_cases n 0); [by right|left].
  rewrite Z.shiftr_div_pow2 by done.
  pose proof (Z.pow_pos_nonneg 2 n ltac:(lia) ltac:(lia)).
  split; [apply Z.div_pos; lia|]. apply Z.div_lt_upper_bound; nia.
Qed.

Lemma nz_true z : nz z = true <-> z <> 0.
Proof. unfold nz. destruct (Z.eqb_spec z 0); naive_solver. Qed.
Lemma nz_false z : nz z = false <-> z = 0.
Proof. unfold nz. destruct (Z.eqb_spec z 0); naive_solver. Qed.

(** ** Automation *)

(** Case analysis on the next innermost condition of the goal, or of a
    hypothesis. *)
Ltac case_cond :=
  match goal with
  | |- context [if ?b then _ else _] =>
      lazymatch b with
      | context [if _ then _ else _] => fail
      | _ => let H := fresh "Hc" in destruct b eqn:H
      end
  end.
Ltac case_cond_in H :=
  match type of H with
  | context [if ?b then _ else _] =>
      lazymatch b with
      | context [if _ then _ else _] => fail
      | _ => let H := fresh "Hc" in destruct b eqn:H
      end
  end.

(** Case analysis on the condition the computation starts with. *)
Ltac case_top H :=
  match goal with
  | |- returns (if ?b then _ else _) _ => destruct b eqn:H
  end.

(** Linear arithmetic with the wrap-arounds expanded. *)
Ltac c_unwrap := unfold u8, u16, u32, u64, s32, s64, nz in *.
Ltac c_lia := c_unwrap; Z.div_mod_to_equations; lia.

(** The continuation of a computation that has returned. *)
Ltac c_ret := rewrite ?bind_Ok; cbv beta iota.

(** One step of a total-correctness proof: a conditional, a bind, a result. *)
Ltac c_bind P := eapply (returns_bind _ _ P).

Create HintDb cint discriminated.
Create Rewrite HintDb cint.
#[export] Hint Resolve u32_range u64_range u8_range s32_range returns_Ok : cint.
#[export] Hint Rewrite u32_id u64_id u8_id s32_id s64_id using lia : cint.
