(* ===== verification/Sock.v ===== *)
(** The socket state the congestion modules share ([struct tcp_sock] and the
    enumerations of ns-linux-util.h), the global variables they read, and the
    table of callbacks a module registers ([struct tcp_congestion_ops]). *)
From stdpp Require Export strings.
From S2P Require Export Prelude.

(** * Definitions *)

Inductive tcp_ca_event : Set :=
  | CA_EVENT_TX_START | CA_EVENT_CWND_RESTART | CA_EVENT_COMPLETE_CWR
  | CA_EVENT_FRTO | CA_EVENT_LOSS | CA_EVENT_FAST_ACK | CA_EVENT_SLOW_ACK.

Inductive tcp_ca_state : Set :=
  | TCP_CA_Open | TCP_CA_Disorder | TCP_CA_CWR | TCP_CA_Recovery | TCP_CA_Loss.

#[global] Instance tcp_ca_state_eq_dec : EqDecision tcp_ca_state.
Proof. solve_decision. Defined.
#[global] Instance tcp_ca_event_eq_dec : EqDecision tcp_ca_event.
Proof. solve_decision. Defined.

Record tcp_options_received := mk_rx_opt {
  rcv_tsval : Z;              (* u32 *)
  rcv_tsecr : Z;              (* u32 *)
  saw_tstamp : bool;          (* 1-bit field *)
}.

Record tcp_sock := mk_tcp_sock {
  snd_nxt : Z;                (* u32 *)
  snd_una : Z;                (* u32 *)
  mss_cache : Z;              (* u32 *)
  srtt : Z;                   (* u32, << 3 *)
  rx_opt : tcp_options_received;
  snd_ssthresh : Z;           (* u32 *)
  snd_cwnd : Z;               (* u32 *)
  snd_cwnd_cnt : Z;           (* u16, that is unsigned int *)
  snd_cwnd_clamp : Z;         (* u16, that is unsigned int *)
  snd_cwnd_stamp : Z;         (* u32 *)
  bytes_acked : Z;            (* u32 *)
  icsk_ca_state : tcp_ca_state;
}.

#[global] Instance eta_tcp_sock : Eta tcp_sock := fun r =>
  mk_tcp_sock (snd_nxt r) (snd_una r) (mss_cache r) (srtt r) (rx_opt r)
    (snd_ssthresh r) (snd_cwnd r) (snd_cwnd_cnt r) (snd_cwnd_clamp r)
    (snd_cwnd_stamp r) (bytes_acked r) (icsk_ca_state r).

(** The globals: the clock in jiffies (1 ms) and in nanoseconds, and the
    parameters of ns-linux-param.c and tcp_cong.c. *)
Record env := mk_env {
  tcp_time_stamp : Z;         (* u32 *)
  ktime_get_real : Z;         (* s64 *)
  sysctl_tcp_abc : Z;         (* unsigned char *)
  sysctl_tcp_max_ssthresh : Z; (* int *)
}.

Definition HZ : Z := 1000.
Definition JIFFY_RATIO : Z := 1000.
Definition US_RATIO : Z := 1000000.
Definition MS_RATIO : Z := 1000.
Definition jiffies_to_usecs (x : Z) : Z := Z.quot US_RATIO JIFFY_RATIO * x.
Definition msecs_to_jiffies (x : Z) : Z := Z.quot JIFFY_RATIO MS_RATIO * x.
Definition TCP_CA_NAME_MAX : nat := 16.
Definition TCP_CONG_NON_RESTRICTED : Z := 1.
Definition TCP_CONG_RTT_STAMP : Z := 2.

(** [tcp_is_cwnd_limited], [after] and [between] of ns-linux-c.h. *)
Definition tcp_is_cwnd_limited (sk : tcp_sock) (in_flight : Z) : bool :=
  snd_cwnd sk <=? in_flight.
Definition after (seq1 seq2 : Z) : bool := seq2 <? seq1.
Definition between (seq1 seq2 seq3 : Z) : bool := seq1 ⊖ seq2 <=? seq3 ⊖ seq2.

(** The callbacks a module registers; [P] is the module's private structure,
    overlaid on [icsk_ca_priv].  Optional callbacks are [option]s. *)
Record tcp_congestion_ops (P : Type) := mk_ops {
  ops_name : string;
  ops_flags : Z;
  ops_init : option (env -> tcp_sock -> P -> outcome (tcp_sock * P));
  ops_ssthresh : env -> tcp_sock -> P -> outcome (Z * P);
  ops_cong_avoid : env -> tcp_sock -> P -> Z -> Z -> Z -> Z -> outcome (tcp_sock * P);
  ops_min_cwnd : option (env -> tcp_sock -> P -> outcome Z);
  ops_rtt_sample : option (env -> tcp_sock -> P -> Z -> outcome P);
  ops_set_state : option (env -> tcp_sock -> P -> tcp_ca_state -> outcome P);
  ops_cwnd_event : option (env -> tcp_sock -> P -> tcp_ca_event -> outcome (tcp_sock * P));
  ops_undo_cwnd : option (env -> tcp_sock -> P -> outcome (Z * P));
  ops_pkts_acked : option (env -> tcp_sock -> P -> Z -> Z -> outcome (tcp_sock * P));
}.
Arguments mk_ops {P}.
Arguments ops_name {P}. Arguments ops_flags {P}. Arguments ops_init {P}.
Arguments ops_ssthresh {P}. Arguments ops_cong_avoid {P}. Arguments ops_min_cwnd {P}.
Arguments ops_rtt_sample {P}. Arguments ops_set_state {P}. Arguments ops_cwnd_event {P}.
Arguments ops_undo_cwnd {P}. Arguments ops_pkts_acked {P}.

(** Every field of the socket holds a value of its C type. *)
Record wf_sock (sk : tcp_sock) : Prop := mk_wf_sock {
  wf_snd_nxt : in_u32 (snd_nxt sk);
  wf_snd_una : in_u32 (snd_una sk);
  wf_mss_cache : in_u32 (mss_cache sk);
  wf_srtt : in_u32 (srtt sk);
  wf_rcv_tsval : in_u32 (rcv_tsval (rx_opt sk));
  wf_rcv_tsecr : in_u32 (rcv_tsecr (rx_opt sk));
  wf_snd_ssthresh : in_u32 (snd_ssthresh sk);
  wf_snd_cwnd : in_u32 (snd_cwnd sk);
  wf_snd_cwnd_cnt : in_u32 (snd_cwnd_cnt sk);
  wf_snd_cwnd_clamp : in_u32 (snd_cwnd_clamp sk);
  wf_snd_cwnd_stamp : in_u32 (snd_cwnd_stamp sk);
  wf_bytes_acked : in_u32 (bytes_acked sk);
}.

Record wf_env (E : env) : Prop := mk_wf_env {
  wf_tcp_time_stamp : in_u32 (tcp_time_stamp E);
  wf_ktime_get_real : in_s64 (ktime_get_real E);
  wf_sysctl_tcp_abc : in_u8 (sysctl_tcp_abc E);
  wf_sysctl_tcp_max_ssthresh : in_s32 (sysctl_tcp_max_ssthresh E);
}.

(** A socket and globals to evaluate the definitions on. *)
Definition sk_ex : tcp_sock := {|
  snd_nxt := 20000; snd_una := 10000; mss_cache := 1000; srtt := 800;
  rx_opt := {| rcv_tsval := 5; rcv_tsecr := 7; saw_tstamp := true |};
  snd_ssthresh := 100; snd_cwnd := 10; snd_cwnd_cnt := 3; snd_cwnd_clamp := 1000;
  snd_cwnd_stamp := 0; bytes_acked := 1000; icsk_ca_state := TCP_CA_Open |}.

Definition env_ex : env := {|
  tcp_time_stamp := 100000; ktime_get_real := 100000000000;
  sysctl_tcp_abc := 0; sysctl_tcp_max_ssthresh := 0 |}.


(** * Lemmas *)

Lemma wf_sk_ex : wf_sock sk_ex.
Proof. constructor; cbn; lia. Qed.

Lemma wf_env_ex : wf_env env_ex.
Proof. constructor; cbn; lia. Qed.
