(* ===== verification/LinuxC.v ===== *)
(** The kernel shortcuts of ns-linux-c.c and ns-linux-c.h: bit scans, 64-bit
    division, [ktime_t], and the table of module parameters. *)
From stdpp Require Export strings.
From S2P Require Export Prelude.

(** * Definitions *)

(** ** fls, fls64 *)

(** [if (!(x & mask)) { x <<= k; r -= k; }] with [x] an [int]. *)
Definition fls_step (mask k : Z) (xr : Z * Z) : Z * Z :=
  let '(x, r) := xr in
  if nz (Z.land (u32 x) mask) then (x, r) else (s32 (x ≪ k), r - k).

Definition fls (x : Z) : Z :=
  let r := 32 in
  if negb (nz x) then 0
  else
    let '(x, r) := fls_step 0xffff0000 16 (x, r) in
    let '(x, r) := fls_step 0xff000000 8 (x, r) in
    let '(x, r) := fls_step 0xf0000000 4 (x, r) in
    let '(x, r) := fls_step 0xc0000000 2 (x, r) in
    let '(x, r) := fls_step 0x80000000 1 (x, r) in
    r.

Definition fls64 (x : Z) : Z :=
  let h := u32 (x ≫ 32) in
  if nz h then fls (s32 h) + 32 else fls (s32 x).

(** ** 64-bit division *)

(** [do_div(n, base)]: the new [n] and the remainder; [base] is cut to
    32 bits. *)
Definition do_div (n base : Z) : outcome (Z * Z) :=
  let __base := u32 base in
  __rem ← umod (u64 n) __base;
  n' ← udiv (u64 n) __base;
  Ok (n', u32 __rem).

Definition div64_64 (dividend divisor : Z) : outcome Z :=
  let high := u32 (divisor ≫ 32) in
  let '(dividend, d) :=
    if nz high then
      let shift := fls (s32 high) in
      (dividend ≫ shift, u32 (divisor ≫ shift))
    else (dividend, u32 divisor) in
  '(dividend, _) ← do_div dividend d;
  Ok dividend.

(** ** ktime_t: nanoseconds in a signed 64-bit integer *)

Definition net_invalid_timestamp : Z := 0.
Definition ktime_equal (cmp1 cmp2 : Z) : bool := cmp1 =? cmp2.
Definition ktime_to_us (kt : Z) : Z := Z.quot kt 1000.
Definition net_timedelta (ktime_get_real t : Z) : Z := s64 (ktime_get_real - t).

(** ** Module parameters *)

(** The address of a parameter's variable. *)
Definition ptr : Set := positive.

Record cc_param_list := mk_param {
  p_name : string;
  p_type : option string;
  p_description : option string;
  p_ptr : option ptr;
}.
#[global] Instance eta_cc_param_list : Eta cc_param_list := fun r =>
  mk_param (p_name r) (p_type r) (p_description r) (p_ptr r).

Record cc_list := mk_cc { proto : string; param_head : list cc_param_list }.
#[global] Instance eta_cc_list : Eta cc_list := fun r => mk_cc (proto r) (param_head r).

(** [while (p != NULL && strcmp(...) != 0) p = p->next;] with a new node in
    front when the search fails; the caller then writes through the pointer it
    gets, here [f], at the node found or created. *)
Fixpoint update_first {A} (match_ : A -> bool) (f : A -> A) (l : list A) : option (list A) :=
  match l with
  | [] => None
  | x :: l' => if match_ x then Some (f x :: l')
               else match update_first match_ f l' with
                    | Some l'' => Some (x :: l'') | None => None end
  end.

Definition find_cc_by_proto (prot : string) (f : cc_list -> cc_list)
  (cc_list_head : list cc_list) : list cc_list :=
  match update_first (fun p => String.eqb (proto p) prot) f cc_list_head with
  | Some l => l
  | None => f (mk_cc prot []) :: cc_list_head
  end.

Definition find_param_in_cc (name : string) (f : cc_param_list -> cc_param_list)
  (p : cc_list) : cc_list :=
  match update_first (fun q => String.eqb (p_name q) name) f (param_head p) with
  | Some l => p <| param_head := l |>
  | None => p <| param_head := f (mk_param name None None None) :: param_head p |>
  end.

Definition find_param_by_proto_name (prot name : string)
  (f : cc_param_list -> cc_param_list) (cc_list_head : list cc_list) : list cc_list :=
  find_cc_by_proto prot (find_param_in_cc name f) cc_list_head.

Definition record_linux_param (prot name type : string) (p : ptr) (l : list cc_list)
  : list cc_list :=
  find_param_by_proto_name prot name
    (fun q => q <| p_type := Some type |> <| p_ptr := Some p |>) l.

Definition record_linux_param_description (prot name exp : string) (l : list cc_list)
  : list cc_list :=
  find_param_by_proto_name prot name (fun q => q <| p_description := Some exp |>) l.

(** The parameter a reader of the table finds. *)
Definition lookup_param (prot name : string) (l : list cc_list) : option cc_param_list :=
  p ← List.find (fun p => String.eqb (proto p) prot) l;
  List.find (fun q => String.eqb (p_name q) name) (param_head p).

(** * Lemmas *)

(** ** fls *)

Lemma land_high_mask y k :
  in_u32 y -> 0 <= k < 32 ->
  Z.land y (2 ^ 32 - 2 ^ k) = 2 ^ k * (y / 2 ^ k).
Proof.
  intros Hy Hk.
  assert (Hp : 0 < 2 ^ k) by (apply Z.pow_pos_nonneg; lia).
  assert (Hd : y / 2 ^ k < 2 ^ (32 - k)).
  { apply Z.div_lt_upper_bound; [done|]. rewrite <- Z.pow_add_r by lia.
    replace (k + (32 - k)) with 32 by lia. lia. }
  replace (2 ^ 32 - 2 ^ k) with (Z.ones (32 - k) ≪ k).
  2:{ rewrite Z.ones_equiv, Z.shiftl_mul_pow2 by lia.
      replace (2 ^ 32) with (2 ^ (32 - k) * 2 ^ k) by (rewrite <- Z.pow_add_r by lia; f_equal; lia).
      lia. }
  rewrite <- (Z.shiftr_div_pow2 y) in * by lia.
  apply Z.bits_inj'. intros n Hn.
  rewrite Z.land_spec, Z.mul_comm, <- Z.shiftl_mul_pow2 by lia.
  rewrite !Z.shiftl_spec by done.
  destruct (Z.lt_ge_cases n k).
  - rewrite !(Z.testbit_neg_r _ (n - k)) by lia. apply andb_false_r.
  - rewrite Z.shiftr_spec by lia. replace (n - k + k) with n by lia.
    destruct (Z.lt_ge_cases (n - k) (32 - k)).
    + rewrite Z.ones_spec_low by lia. apply andb_true_r.
    + assert (Z.testbit y n = false) as ->; [|done].
      destruct (Z.eq_dec y 0) as [->|]; [apply Z.testbit_0_l|].
      apply Z.bits_above_log2; [lia|]. apply Z.log2_lt_pow2; [lia|].
      apply Z.lt_le_trans with (2 ^ 32); [lia|]. apply Z.pow_le_mono_r; lia.
Qed.

(** The loop-free scan: [y] is the bit pattern still to scan, shifted up by
    [32 - r]. *)
Lemma fls_step_spec mask k b x r :
  mask = 2 ^ 32 - 2 ^ (32 - k) -> 0 < k -> 0 <= b -> b + k <= 32 ->
  k <= 16 -> 32 - 2 * k <= b ->
  in_s32 x -> 2 ^ b <= u32 x ->
  exists x' r', fls_step mask k (x, r) = (x', r') /\ in_s32 x'
    /\ 2 ^ (32 - k) <= u32 x' /\ Z.log2 (u32 x') + r' = Z.log2 (u32 x) + r.
Proof.
  intros -> Hk Hb Hbk Hk16 Hb2 Hx Hy. unfold fls_step.
  pose proof (u32_range x) as Hr. rewrite land_high_mask by lia.
  assert (Hp : 0 < 2 ^ (32 - k)) by (apply Z.pow_pos_nonneg; lia).
  destruct (nz _) eqn:Hc.
  - apply nz_true in Hc. exists x, r. repeat split; try lia.
    apply Z.nlt_ge. intros Hlt. rewrite Z.div_small in Hc by lia. lia.
  - apply nz_false in Hc. apply Z.eq_mul_0_r in Hc; [|lia].
    assert (Hlt : u32 x < 2 ^ (32 - k)) by (apply Z.div_small_iff in Hc; lia).
    assert (Hpk : 0 < 2 ^ k) by (apply Z.pow_pos_nonneg; lia).
    assert (H32 : 2 ^ (32 - k) * 2 ^ k = 4294967296).
    { rewrite <- Z.pow_add_r by lia. replace (32 - k + k) with 32 by lia. done. }
    exists (s32 (x ≪ k)), (r - k).
    assert (Hu : u32 (s32 (x ≪ k)) = u32 x * 2 ^ k).
    { rewrite Z.shiftl_mul_pow2 by lia. unfold u32, s32 in *.
      rewrite <- (Z.mod_small (x mod 4294967296 * 2 ^ k) 4294967296) by nia.
      rewrite Zminus_mod_idemp_l. rewrite Z.mul_mod_idemp_l by lia.
      f_equal. lia. }
    split; [done|]. split; [apply s32_range|]. rewrite Hu.
    assert (0 < 2 ^ b) by (apply Z.pow_pos_nonneg; lia).
    split; [|rewrite Z.log2_mul_pow2 by lia; lia].
    apply Z.le_trans with (2 ^ b * 2 ^ k); [|nia].
    rewrite <- Z.pow_add_r by lia. apply Z.pow_le_mono_r; lia.
Qed.

Lemma fls_log2 x : in_s32 x -> fls x = if x =? 0 then 0 else Z.log2 (u32 x) + 1.
Proof.
  intros Hx. unfold fls, nz. destruct (Z.eqb_spec x 0) as [|Hx0]; [done|]. cbn [negb].
  assert (Hu : 2 ^ 0 <= u32 x).
  { cbn. pose proof (u32_range x). assert (u32 x <> 0); [|lia]. c_lia. }
  destruct (fls_step_spec 0xffff0000 16 0 x 32) as (x1 & r1 & -> & ? & ? & ?); [done|lia..|].
  destruct (fls_step_spec 0xff000000 8 16 x1 r1) as (x2 & r2 & -> & ? & ? & ?); [done|lia..|].
  destruct (fls_step_spec 0xf0000000 4 24 x2 r2) as (x3 & r3 & -> & ? & ? & ?); [done|lia..|].
  destruct (fls_step_spec 0xc0000000 2 28 x3 r3) as (x4 & r4 & -> & ? & ? & ?); [done|lia..|].
  destruct (fls_step_spec 0x80000000 1 30 x4 r4) as (x5 & r5 & -> & ? & ? & ?); [done|lia..|].
  pose proof (u32_range x5). assert (Z.log2 (u32 x5) = 31); [|lia].
  apply Z.log2_unique; cbn in *; lia.
Qed.

Lemma fls64_log2 x : in_u64 x -> fls64 x = if x =? 0 then 0 else Z.log2 x + 1.
Proof.
  intros Hx. unfold fls64. rewrite Z.shiftr_div_pow2 by lia. change (2 ^ 32) with 4294967296.
  assert (Hh : in_u32 (x / 4294967296)) by (Z.div_mod_to_equations; lia).
  rewrite u32_id by done. unfold nz.
  destruct (Z.eqb_spec (x / 4294967296) 0) as [H0|H0]; cbn [negb].
  - assert (in_u32 x) by (Z.div_mod_to_equations; lia).
    rewrite fls_log2 by apply s32_range. rewrite u32_s32, u32_id by done.
    destruct (Z.eqb_spec x 0) as [->|]; [done|].
    destruct (Z.eqb_spec (s32 x) 0) as [Hs|]; [|done]. apply (f_equal u32) in Hs.
    rewrite u32_s32, u32_id in Hs by done. done.
  - rewrite fls_log2 by apply s32_range. rewrite u32_s32, u32_id by done.
    destruct (Z.eqb_spec x 0) as [->|]; [done|].
    destruct (Z.eqb_spec (s32 (x / 4294967296)) 0) as [Hs|].
    { apply (f_equal u32) in Hs. rewrite u32_s32, u32_id in Hs by done. done. }
    assert (Hl : Z.log2 (x / 4294967296) = Z.log2 x - 32); [|lia].
    change 4294967296 with (2 ^ 32). rewrite <- Z.shiftr_div_pow2 by lia.
    rewrite Z.log2_shiftr by (Z.div_mod_to_equations; lia).
    assert (2 ^ 32 <= x) by (change (2 ^ 32) with 4294967296; Z.div_mod_to_equations; lia).
    assert (32 <= Z.log2 x) by (apply Z.log2_le_pow2; lia). lia.
Qed.

Lemma fls64_bounds x : in_u64 x -> x <> 0 ->
  1 <= fls64 x <= 64 /\ 2 ^ (fls64 x - 1) <= x < 2 ^ fls64 x.
Proof.
  intros Hx H0. rewrite fls64_log2 by done. destruct (Z.eqb_spec x 0); [done|].
  pose proof (Z.log2_spec x ltac:(lia)). pose proof (Z.log2_nonneg x).
  assert (Z.log2 x < 64) by (apply Z.log2_lt_pow2; lia).
  replace (Z.log2 x + 1 - 1) with (Z.log2 x) by lia. rewrite Z.add_1_r. lia.
Qed.

(** ** 64-bit division *)

Lemma do_div_ok n base :
  in_u64 n -> in_u32 base -> base <> 0 -> do_div n base = Ok (n / base, n mod base).
Proof.
  intros Hn Hb H0. unfold do_div, umod, udiv. rewrite (u32_id base), u64_id by done.
  destruct (Z.eqb_spec base 0); [done|]. cbn. do 2 f_equal. apply u32_id.
  pose proof (Z.mod_pos_bound n base). lia.
Qed.

(** Dividing both operands by the same power of two. *)
Lemma div_scaled_bounds n d s :
  0 <= n -> 0 < s -> 0 < d / s ->
  n / d <= n / s / (d / s) /\ (n / s / (d / s)) * (d / s) * s <= n.
Proof.
  intros Hn Hs Hd. set (e := d / s) in *.
  assert (He : e * s <= d < (e + 1) * s) by (subst e; Z.div_mod_to_equations; nia).
  rewrite Zdiv_Zdiv by lia. split.
  - apply Z.div_le_lower_bound; [nia|].
    pose proof (Z.mul_div_le n d ltac:(nia)). pose proof (Z.div_pos n d Hn ltac:(nia)). nia.
  - pose proof (Z.mul_div_le n (s * e) ltac:(nia)). nia.
Qed.

(** The quotient of [div64_64]: exact for 32-bit divisors; otherwise both
    operands lose their low bits and it is at most 2 above. *)
Lemma div64_64_bounds n d :
  in_u64 n -> in_u64 d -> d <> 0 ->
  returns (div64_64 n d) (fun q =>
    (d < 4294967296 -> q = n / d) /\ n / d <= q <= n / d + 2).
Proof.
  intros Hn Hd H0. unfold div64_64. rewrite (Z.shiftr_div_pow2 d 32) by lia.
  change (2 ^ 32) with 4294967296.
  assert (Hh : in_u32 (d / 4294967296)) by (Z.div_mod_to_equations; lia).
  rewrite (u32_id (d / _)) by done. unfold nz.
  destruct (Z.eqb_spec (d / 4294967296) 0) as [Hz|Hz]; cbn [negb].
  - assert (in_u32 d) by (Z.div_mod_to_equations; lia).
    rewrite u32_id, do_div_ok by lia. cbn. lia.
  - set (h := d / 4294967296) in *.
    assert (Hfls : fls (s32 h) = Z.log2 h + 1).
    { rewrite fls_log2, u32_s32, u32_id by (done || apply s32_range).
      destruct (Z.eqb_spec (s32 h) 0) as [E|]; [|done].
      apply (f_equal u32) in E. rewrite u32_s32, u32_id in E by done. done. }
    pose proof (Z.log2_spec h ltac:(lia)) as Hlog. pose proof (Z.log2_nonneg h).
    assert (Z.log2 h < 32) by (apply Z.log2_lt_pow2; lia).
    rewrite Hfls, !Z.shiftr_div_pow2 by lia. rewrite Z.add_1_r.
    assert (Hs : 2 ^ Z.succ (Z.log2 h) = 2 * 2 ^ Z.log2 h) by (apply Z.pow_succ_r; lia).
    assert (Hg : 0 < 2 ^ Z.log2 h) by (apply Z.pow_pos_nonneg; lia).
    revert Hs Hg Hlog. generalize (2 ^ Z.succ (Z.log2 h)) as s, (2 ^ Z.log2 h) as g.
    intros s g Hs Hg Hlog.
    assert (Hdh : h * 4294967296 <= d < (h + 1) * 4294967296) by (subst h; Z.div_mod_to_equations; lia).
    assert (He : 2147483648 <= d / s < 4294967296).
    { split; [apply Z.div_le_lower_bound|apply Z.div_lt_upper_bound]; nia. }
    rewrite u32_id by lia.
    assert (Hns : 0 <= n / s <= n).
    { split; [apply Z.div_pos; lia|]. apply Z.div_le_upper_bound; nia. }
    rewrite do_div_ok by lia. cbn.
    destruct (div_scaled_bounds n d s) as [Hlo Hhi]; [lia..|].
    set (q := n / s / (d / s)) in *. set (e := d / s) in *.
    assert (Hde : e * s <= d < (e + 1) * s) by (subst e; Z.div_mod_to_equations; nia).
    split; [lia|]. split; [done|].
    assert (Hq : q < 4294967296 * 2) by nia.
    assert (Hnd : (q - 2) * d <= n) by nia.
    assert (q - 2 <= n / d); [|lia]. apply Z.div_le_lower_bound; nia.
Qed.

(** ** Module parameters *)

Section UpdateFirst.
Context {A : Type} (match_ : A -> bool) (f : A -> A).
Hypothesis f_match : forall x, match_ (f x) = match_ x.

Lemma update_first_find l :
  match update_first match_ f l with
  | Some l' => exists x, List.find match_ l = Some x /\ List.find match_ l' = Some (f x)
  | None => List.find match_ l = None
  end.
Proof using f_match.
  induction l as [|x l IH]; cbn; [done|].
  destruct (match_ x) eqn:Hx; cbn.
  - rewrite f_match, Hx. by exists x.
  - destruct (update_first match_ f l); [|done]. cbn. by rewrite Hx.
Qed.

(** A search that the update does not change does not see it. *)
Lemma update_first_find_other (other : A -> bool) l l' :
  (forall x, match_ x = true -> other x = false) -> (forall x, other (f x) = other x) ->
  update_first match_ f l = Some l' -> List.find other l' = List.find other l.
Proof using Type.
  intros Hne Hf. revert l'; induction l as [|x l IH]; intros l'; cbn; [done|].
  destruct (match_ x) eqn:Hx; cbn.
  - intros [= <-]. cbn. by rewrite Hf, (Hne x Hx).
  - destruct (update_first match_ f l) as [l0|]; [|done].
    intros [= <-]. cbn. by rewrite (IH l0 eq_refl).
Qed.
End UpdateFirst.

(** The entry the search ends at: the first one found, or a new one. *)
Definition param_or_new (prot name : string) (l : list cc_list) : cc_param_list :=
  default (mk_param name None None None) (lookup_param prot name l).

Lemma lookup_find_param prot name f l :
  (forall q, p_name (f q) = p_name q) ->
  lookup_param prot name (find_param_by_proto_name prot name f l)
  = Some (f (param_or_new prot name l)).
Proof.
  intros Hf. unfold param_or_new, lookup_param, find_param_by_proto_name, find_cc_by_proto.
  set (g := find_param_in_cc name f).
  assert (Hg : forall p, proto (g p) = proto p).
  { intros p. unfold g, find_param_in_cc. by case_match. }
  assert (Hin : forall p, List.find (fun q => String.eqb (p_name q) name) (param_head (g p))
    = Some (f (default (mk_param name None None None)
        (List.find (fun q => String.eqb (p_name q) name) (param_head p))))).
  { intros p. unfold g, find_param_in_cc.
    pose proof (update_first_find (fun q => String.eqb (p_name q) name) f) as Hu.
    specialize (Hu ltac:(intros q; cbn; by rewrite Hf) (param_head p)).
    destruct (update_first _ f (param_head p)); cbn.
    - destruct Hu as (q & -> & ->). done.
    - rewrite Hf, String.eqb_refl, Hu. done. }
  clearbody g.
  pose proof (update_first_find (fun p => String.eqb (proto p) prot) g) as Hu.
  specialize (Hu ltac:(intros q; cbn; by rewrite Hg) l).
  destruct (update_first _ g l); cbn.
  - destruct Hu as (p & -> & ->). cbn. by rewrite Hin.
  - rewrite Hg. cbn. rewrite String.eqb_refl, Hu. cbn. by rewrite Hin.
Qed.

Lemma lookup_find_param_ne prot name prot' name' f l :
  (forall q, p_name (f q) = p_name q) -> prot <> prot' \/ name <> name' ->
  lookup_param prot' name' (find_param_by_proto_name prot name f l)
  = lookup_param prot' name' l.
Proof.
  intros Hf Hne. unfold lookup_param, find_param_by_proto_name, find_cc_by_proto.
  set (g := find_param_in_cc name f).
  assert (Hg : forall p, proto (g p) = proto p).
  { intros p. unfold g, find_param_in_cc. by case_match. }
  destruct (decide (prot = prot')) as [<-|Hp].
  - destruct Hne as [|Hn]; [done|].
    assert (Hin : forall p, List.find (fun q => String.eqb (p_name q) name') (param_head (g p))
      = List.find (fun q => String.eqb (p_name q) name') (param_head p)).
    { intros p. unfold g, find_param_in_cc. case_match eqn:Hu; cbn.
      - eapply update_first_find_other; [| |done].
        + intros q Hq%String.eqb_eq. apply String.eqb_neq. congruence.
        + intros q. cbn. by rewrite Hf.
      - rewrite Hf. cbn. by rewrite (proj2 (String.eqb_neq _ _) Hn). }
    clearbody g.
    pose proof (update_first_find (fun p => String.eqb (proto p) prot) g) as Hu.
    specialize (Hu ltac:(intros q; cbn; by rewrite Hg) l).
    destruct (update_first _ g l); cbn.
    + destruct Hu as (p & -> & ->). cbn. apply Hin.
    + rewrite Hg. cbn. rewrite String.eqb_refl, Hu. cbn. rewrite Hin. done.
  - clearbody g. destruct (update_first _ g l) eqn:Hu; cbn.
    + erewrite update_first_find_other; [done| | |exact Hu].
      * intros p Hq%String.eqb_eq. apply String.eqb_neq. congruence.
      * intros p. cbn. by rewrite Hg.
    + rewrite Hg. cbn. by rewrite (proj2 (String.eqb_neq _ _) Hp).
Qed.

(** * Properties *)

(** [fls] is the position of the highest set bit of its argument's 32-bit
    pattern, and [fls64] of its 64-bit argument; both are 0 for 0. *)
Theorem fls64_correct x :
  in_u64 x ->
  fls64 x = (if x =? 0 then 0 else Z.log2 x + 1)
  /\ (x <> 0 -> 2 ^ (fls64 x - 1) <= x < 2 ^ fls64 x).
Proof. intros Hx. split; [by apply fls64_log2|]. intros H0. by apply fls64_bounds. Qed.

Lemma fls64_correct_witness :
  fls64 1099511627776 = 41
  /\ (1099511627776 <> 0 -> 2 ^ 40 <= 1099511627776 < 2 ^ 41).
Proof. apply (fls64_correct 1099511627776). lia. Defined.

(** [div64_64] on a non-zero divisor never traps; it is exact when the
    divisor fits 32 bits and otherwise at most 2 above the true quotient. *)
Theorem div64_64_correct n d :
  in_u64 n -> in_u64 d -> d <> 0 ->
  exists q, div64_64 n d = Ok q /\ (d < 4294967296 -> q = n / d)
    /\ n / d <= q <= n / d + 2.
Proof. intros. apply returns_inv. by apply div64_64_bounds. Qed.

Lemma div64_64_correct_witness :
  exists q, div64_64 1000000000000 7 = Ok q /\ (7 < 4294967296 -> q = 1000000000000 / 7)
    /\ 1000000000000 / 7 <= q <= 1000000000000 / 7 + 2.
Proof. apply div64_64_correct; lia. Defined.

(** The parameter table is a map from (protocol, name) to parameters:
    recording a parameter and recording its description, in either order, meet
    in one entry that carries both, and no other entry changes. *)
Theorem record_linux_param_table prot name type p exp l :
  let l1 := record_linux_param_description prot name exp (record_linux_param prot name type p l) in
  let l2 := record_linux_param prot name type p (record_linux_param_description prot name exp l) in
  (forall l', l' = l1 \/ l' = l2 -> exists q, lookup_param prot name l' = Some q
     /\ p_type q = Some type /\ p_ptr q = Some p /\ p_description q = Some exp)
  /\ (forall prot' name' l', prot <> prot' \/ name <> name' -> l' = l1 \/ l' = l2 ->
     lookup_param prot' name' l' = lookup_param prot' name' l).
Proof.
  unfold record_linux_param, record_linux_param_description. split.
  - intros l' [->| ->]; rewrite lookup_find_param by done; unfold param_or_new;
      rewrite lookup_find_param by done; by eexists.
  - intros prot' name' l' Hne [->| ->]; by rewrite !lookup_find_param_ne.
Qed.
