(* ===== verification/Reno.v ===== *)
(** Slow start and NewReno (tcp_cong.c): the routines every other module
    builds on. *)
From S2P Require Export Sock.

(** * Definitions *)

(** ** tcp_slow_start *)

(** The increase in packets, [cnt]: one full window, or half of
    [sysctl_tcp_max_ssthresh] under limited slow start (RFC 3742), doubled
    when Appropriate Byte Counting sees two segments (RFC 3465). *)
Definition slow_start_cnt (E : env) (tp : tcp_sock) : Z :=
  let cnt :=
    if (0 <? sysctl_tcp_max_ssthresh E)
       && (u32 (sysctl_tcp_max_ssthresh E) <? snd_cwnd tp)
    then sysctl_tcp_max_ssthresh E ≫ 1
    else s32 (snd_cwnd tp) in
  if (1 <? sysctl_tcp_abc E) && (2 ⊗ mss_cache tp <=? bytes_acked tp)
  then s32 (cnt ≪ 1)
  else cnt.

Definition slow_start_cond (tp : tcp_sock) : bool := snd_cwnd tp <=? snd_cwnd_cnt tp.

Definition slow_start_body (tp : tcp_sock) : outcome tcp_sock :=
  let tp := tp <| snd_cwnd_cnt := snd_cwnd_cnt tp ⊖ snd_cwnd tp |> in
  Ok (if snd_cwnd tp <? snd_cwnd_clamp tp
      then tp <| snd_cwnd := snd_cwnd tp ⊕ 1 |> else tp).

Definition tcp_slow_start (E : env) (tp : tcp_sock) : outcome tcp_sock :=
  if nz (sysctl_tcp_abc E) && (bytes_acked tp <? mss_cache tp) then Ok tp
  else
    let cnt := slow_start_cnt E tp in
    let tp := tp <| bytes_acked := 0 |> in
    let tp := tp <| snd_cwnd_cnt := snd_cwnd_cnt tp ⊕ cnt |> in
    c_while slow_start_cond slow_start_body tp.

(** ** NewReno *)

(** [if (snd_cwnd_cnt >= w) { if (snd_cwnd < snd_cwnd_clamp) snd_cwnd++;
    snd_cwnd_cnt = 0; } else snd_cwnd_cnt++;] *)
Definition cwnd_ai (tp : tcp_sock) (w : Z) : tcp_sock :=
  if w <=? snd_cwnd_cnt tp then
    let tp := if snd_cwnd tp <? snd_cwnd_clamp tp
              then tp <| snd_cwnd := snd_cwnd tp ⊕ 1 |> else tp in
    tp <| snd_cwnd_cnt := 0 |>
  else tp <| snd_cwnd_cnt := snd_cwnd_cnt tp ⊕ 1 |>.

Definition tcp_reno_cong_avoid (E : env) (sk : tcp_sock) (ack rtt in_flight flag : Z)
  : outcome tcp_sock :=
  if negb (tcp_is_cwnd_limited sk in_flight) then Ok sk
  else if snd_cwnd sk <=? snd_ssthresh sk then tcp_slow_start E sk
  else if nz (sysctl_tcp_abc E) then
    Ok (if snd_cwnd sk ⊗ mss_cache sk <=? bytes_acked sk then
          let tp := sk <| bytes_acked := bytes_acked sk ⊖ snd_cwnd sk ⊗ mss_cache sk |> in
          if snd_cwnd tp <? snd_cwnd_clamp tp
          then tp <| snd_cwnd := snd_cwnd tp ⊕ 1 |> else tp
        else sk)
  else Ok (cwnd_ai sk (snd_cwnd sk)).

Definition tcp_reno_ssthresh (sk : tcp_sock) : Z := Z.max (snd_cwnd sk ≫ 1) 2.

Definition tcp_reno_min_cwnd (sk : tcp_sock) : Z := snd_ssthresh sk / 2.

(** The registered tables; Reno has no private state. *)
Definition tcp_reno : tcp_congestion_ops unit := {|
  ops_name := "reno";
  ops_flags := TCP_CONG_NON_RESTRICTED;
  ops_init := None;
  ops_ssthresh := fun _ sk ca => Ok (tcp_reno_ssthresh sk, ca);
  ops_cong_avoid := fun E sk ca ack rtt in_flight flag =>
    sk ← tcp_reno_cong_avoid E sk ack rtt in_flight flag; Ok (sk, ca);
  ops_min_cwnd := Some (fun _ sk _ => Ok (tcp_reno_min_cwnd sk));
  ops_rtt_sample := None; ops_set_state := None; ops_cwnd_event := None;
  ops_undo_cwnd := None; ops_pkts_acked := None;
|}.

Definition tcp_init_congestion_ops : tcp_congestion_ops unit := {|
  ops_name := "";
  ops_flags := 0;
  ops_init := None;
  ops_ssthresh := fun _ sk ca => Ok (tcp_reno_ssthresh sk, ca);
  ops_cong_avoid := fun E sk ca ack rtt in_flight flag =>
    sk ← tcp_reno_cong_avoid E sk ack rtt in_flight flag; Ok (sk, ca);
  ops_min_cwnd := Some (fun _ sk _ => Ok (tcp_reno_min_cwnd sk));
  ops_rtt_sample := None; ops_set_state := None; ops_cwnd_event := None;
  ops_undo_cwnd := None; ops_pkts_acked := None;
|}.

(** ** Specifications *)

(** [t] is [tp] with window [w] and counter [c], the state the loop reaches
    from counter [c0] after opening the window from [snd_cwnd tp] to [w] and
    paying [j] more windows at the clamp: each opening from [i] to [i+1] costs
    [i] credits, so [c0 = c + (w0 + (w0+1) + ... + (w-1)) + j * w]. *)
Definition slow_start_paid (tp : tcp_sock) (c0 w c j : Z) : Prop :=
  snd_cwnd tp <= w <= Z.max (snd_cwnd tp) (snd_cwnd_clamp tp)
  /\ in_u32 c /\ 0 <= j /\ (w < snd_cwnd_clamp tp -> j = 0)
  /\ 2 * c0 = 2 * c + (w * (w - 1) - snd_cwnd tp * (snd_cwnd tp - 1)) + 2 * (j * w).

Definition slow_start_reach (tp : tcp_sock) (t : tcp_sock) : Prop :=
  exists w c j, t = tp <| snd_cwnd_cnt := c |> <| snd_cwnd := w |>
    /\ slow_start_paid tp (snd_cwnd_cnt tp) w c j.

(** Nothing but the window, its counter and the byte count moves; the window
    only opens, and never past the clamp. *)
Definition cwnd_opened (sk sk' : tcp_sock) : Prop :=
  exists w c b, sk' = sk <| bytes_acked := b |> <| snd_cwnd_cnt := c |> <| snd_cwnd := w |>
    /\ snd_cwnd sk <= w <= Z.max (snd_cwnd sk) (snd_cwnd_clamp sk)
    /\ in_u32 c /\ in_u32 b.

(** What a congestion module may do to the socket when an acknowledgement
    arrives: only the window, its counter, the byte count, the threshold (to 2)
    and the time stamp may move, and the window stays between one segment and the
    clamp (or where it was, if that was above). *)
Definition window_step (sk sk' : tcp_sock) : Prop :=
  (exists w c b th st, sk' = sk <| bytes_acked := b |> <| snd_cwnd_cnt := c |>
     <| snd_cwnd := w |> <| snd_ssthresh := th |> <| snd_cwnd_stamp := st |>
     /\ (th = snd_ssthresh sk \/ th = 2))
  /\ wf_sock sk' /\ 1 <= snd_cwnd sk' <= Z.max (snd_cwnd sk) (snd_cwnd_clamp sk).

(** * The slow-start loop *)

Lemma slow_start_reach_step tp t :
  wf_sock tp -> snd_cwnd tp <> 0 \/ snd_cwnd_clamp tp <> 0 ->
  slow_start_reach tp t -> slow_start_cond t = true ->
  returns (slow_start_body t) (fun t' => slow_start_reach tp t' /\
    0 <= 2 * snd_cwnd_cnt t' + (if snd_cwnd t' =? 0 then 1 else 0)
      < 2 * snd_cwnd_cnt t + (if snd_cwnd t =? 0 then 1 else 0)).
Proof.
  intros [] Hnz (w & c & j & -> & Hw & Hc & Hj & Hcl & Hpay) Hcond.
  unfold slow_start_cond, slow_start_body in *. cbn in *.
  apply Z.leb_le in Hcond. rewrite (u32_id (c - w)) by lia.
  destruct (Z.ltb_spec w (snd_cwnd_clamp tp)) as [Hlt|Hge]; cbn.
  - rewrite u32_id by lia. split.
    + exists (w + 1), (c - w), 0. split; [done|].
      rewrite (Hcl Hlt) in *. unfold slow_start_paid. repeat split; lia.
    + destruct (Z.eqb_spec w 0), (Z.eqb_spec (w + 1) 0); lia.
  - split.
    + exists w, (c - w), (j + 1). split; [done|]. unfold slow_start_paid.
      repeat split; lia.
    + destruct (Z.eqb_spec w 0); lia.
Qed.

Lemma slow_start_loop tp :
  wf_sock tp -> snd_cwnd tp <> 0 \/ snd_cwnd_clamp tp <> 0 ->
  returns (c_while slow_start_cond slow_start_body tp) (fun t =>
    slow_start_reach tp t /\ snd_cwnd_cnt t < snd_cwnd t).
Proof.
  intros Hwf Hnz. eapply returns_mono.
  - apply (c_while_rule (slow_start_reach tp)
      (fun t => 2 * snd_cwnd_cnt t + (if snd_cwnd t =? 0 then 1 else 0))).
    + intros t Hr Hc. by apply slow_start_reach_step.
    + destruct Hwf. exists (snd_cwnd tp), (snd_cwnd_cnt tp), 0.
      split; [by destruct tp|]. unfold slow_start_paid. repeat split; lia.
    + destruct Hwf. destruct (_ =? 0); lia.
  - intros t [Hr Hc]. unfold slow_start_cond in Hc. split; [done|lia].
Qed.

(** * Slow start and congestion avoidance *)

Lemma cwnd_opened_wf sk sk' : wf_sock sk -> cwnd_opened sk sk' -> wf_sock sk'.
Proof. intros [] (w & c & b & -> & ? & ? & ?). constructor; cbn; lia. Qed.

Lemma cwnd_opened_refl sk : wf_sock sk -> cwnd_opened sk sk.
Proof.
  intros []. exists (snd_cwnd sk), (snd_cwnd_cnt sk), (bytes_acked sk).
  split; [by destruct sk|lia].
Qed.

Lemma cwnd_opened_step sk sk' :
  wf_sock sk -> 1 <= snd_cwnd sk -> cwnd_opened sk sk' -> window_step sk sk'.
Proof.
  intros Hwf Hw Ho. assert (Hwf' := cwnd_opened_wf _ _ Hwf Ho).
  destruct Ho as (w & c & b & -> & ? & ? & ?). split; [|cbn; split; [done|lia]].
  exists w, c, b, (snd_ssthresh sk), (snd_cwnd_stamp sk). auto.
Qed.

Lemma window_step_refl sk : wf_sock sk -> 1 <= snd_cwnd sk -> window_step sk sk.
Proof. intros. apply cwnd_opened_step; auto using cwnd_opened_refl. Qed.

(** An update of the window and its counter within the bounds. *)
Lemma window_step_to sk w c :
  wf_sock sk -> 1 <= w <= Z.max (snd_cwnd sk) (snd_cwnd_clamp sk) -> in_u32 c ->
  window_step sk (sk <| snd_cwnd_cnt := c |> <| snd_cwnd := w |>).
Proof.
  intros Hwf Hw Hc. split.
  - exists w, c, (bytes_acked sk), (snd_ssthresh sk), (snd_cwnd_stamp sk). auto.
  - cbn. split; [|lia]. destruct Hwf. constructor; cbn; lia.
Qed.

Lemma cwnd_ai_opens sk w : wf_sock sk -> cwnd_opened sk (cwnd_ai sk w).
Proof.
  intros []. unfold cwnd_ai. case_cond; [|].
  - destruct (Z.ltb_spec (snd_cwnd sk) (snd_cwnd_clamp sk)); cbn.
    + rewrite u32_id by lia. exists (snd_cwnd sk + 1), 0, (bytes_acked sk).
      split; [by destruct sk|lia].
    + exists (snd_cwnd sk), 0, (bytes_acked sk). split; [by destruct sk|lia].
  - exists (snd_cwnd sk), (u32 (snd_cwnd_cnt sk + 1)), (bytes_acked sk).
    split; [by destruct sk|]. pose proof (u32_range (snd_cwnd_cnt sk + 1)). lia.
Qed.

(** The exact effect of one call that is not held back by ABC. *)
Lemma tcp_slow_start_spec E tp :
  wf_sock tp -> snd_cwnd tp <> 0 \/ snd_cwnd_clamp tp <> 0 ->
  nz (sysctl_tcp_abc E) && (bytes_acked tp <? mss_cache tp) = false ->
  returns (tcp_slow_start E tp) (fun tp' => exists w c j,
    tp' = tp <| bytes_acked := 0 |> <| snd_cwnd_cnt := c |> <| snd_cwnd := w |>
    /\ c < w /\ slow_start_paid tp (snd_cwnd_cnt tp ⊕ slow_start_cnt E tp) w c j).
Proof.
  intros Hwf Hnz Habc. unfold tcp_slow_start. rewrite Habc.
  eapply returns_mono.
  - apply slow_start_loop; [|done]. destruct Hwf. constructor; cbn; eauto with cint; lia.
  - intros t [(w & c & j & -> & Hpaid) Hlt]. cbn in *. exists w, c, j. done.
Qed.

Lemma tcp_slow_start_opens E tp :
  wf_sock tp -> snd_cwnd tp <> 0 \/ snd_cwnd_clamp tp <> 0 ->
  returns (tcp_slow_start E tp) (cwnd_opened tp).
Proof.
  intros Hwf Hnz.
  destruct (nz (sysctl_tcp_abc E) && (bytes_acked tp <? mss_cache tp)) eqn:Habc.
  - unfold tcp_slow_start. rewrite Habc. by apply cwnd_opened_refl.
  - eapply returns_mono; [by apply tcp_slow_start_spec|].
    intros t (w & c & j & -> & Hlt & Hp). exists w, c, 0.
    unfold slow_start_paid in Hp. split; [done|lia].
Qed.

Lemma tcp_reno_cong_avoid_opens E sk ack rtt in_flight flag :
  wf_sock sk -> snd_cwnd sk <> 0 \/ snd_cwnd_clamp sk <> 0 ->
  returns (tcp_reno_cong_avoid E sk ack rtt in_flight flag) (cwnd_opened sk).
Proof.
  intros Hwf Hnz. unfold tcp_reno_cong_avoid. repeat case_cond; cbn [returns];
    auto using cwnd_opened_refl, tcp_slow_start_opens, cwnd_ai_opens.
  all: pose proof (u32_range (bytes_acked sk - snd_cwnd sk ⊗ mss_cache sk)); destruct Hwf.
  - exists (snd_cwnd sk + 1), (snd_cwnd_cnt sk), (bytes_acked sk ⊖ snd_cwnd sk ⊗ mss_cache sk).
    cbn in *. rewrite (u32_id (snd_cwnd sk + 1)) by lia. split; [by destruct sk|lia].
  - exists (snd_cwnd sk), (snd_cwnd_cnt sk), (bytes_acked sk ⊖ snd_cwnd sk ⊗ mss_cache sk).
    split; [by destruct sk|lia].
Qed.

Lemma tcp_slow_start_diverges E tp :
  wf_sock tp -> snd_cwnd tp = 0 -> snd_cwnd_clamp tp = 0 ->
  nz (sysctl_tcp_abc E) && (bytes_acked tp <? mss_cache tp) = false ->
  tcp_slow_start E tp = Trap NoFuel.
Proof.
  intros Hwf Hw Hcl Habc. unfold tcp_slow_start. rewrite Habc.
  apply (c_while_diverges (fun t => snd_cwnd t = 0 /\ snd_cwnd_clamp t = 0
                                    /\ in_u32 (snd_cwnd_cnt t))).
  - intros t (Ht & Hct & Hcnt). unfold slow_start_cond, slow_start_body. cbn.
    rewrite Ht, Hct. cbn. split; [apply Z.leb_le; lia|]. eauto with cint.
  - cbn. eauto with cint.
Qed.

(** The call that opens the window by one segment: no byte counting, no
    limited slow start, and a counter below the window. *)
Lemma tcp_slow_start_one E tp :
  wf_sock tp -> sysctl_tcp_abc E = 0 -> sysctl_tcp_max_ssthresh E <= 0 ->
  snd_cwnd_cnt tp < snd_cwnd tp < snd_cwnd_clamp tp -> snd_cwnd tp < 2147483648 ->
  tcp_slow_start E tp = Ok (tp <| bytes_acked := 0 |> <| snd_cwnd := snd_cwnd tp + 1 |>).
Proof.
  intros Hwf Habc Hlim Hcnt Hs.
  assert (Hcl : slow_start_cnt E tp = snd_cwnd tp).
  { unfold slow_start_cnt. rewrite Habc. destruct (Z.ltb_spec 0 (sysctl_tcp_max_ssthresh E)); [lia|].
    cbn. apply s32_id. destruct Hwf; lia. }
  assert (Hr := tcp_slow_start_spec E tp Hwf).
  rewrite Habc, Hcl in Hr. specialize (Hr ltac:(destruct Hwf; lia) eq_refl).
  destruct (tcp_slow_start E tp) as [t|]; [|done]. cbn in Hr.
  destruct Hr as (w & c & j & -> & Hlt & Hw & Hc & Hj & Hcl' & Hpay). f_equal.
  destruct Hwf. rewrite u32_id in Hpay by lia.
  assert (w = snd_cwnd tp + 1 /\ c = snd_cwnd_cnt tp) as [-> ->].
  { assert (w <> snd_cwnd tp) by (intros ->; rewrite Hcl' in Hpay by lia; nia).
    assert (~ snd_cwnd tp + 1 < w) by nia.
    assert (w = snd_cwnd tp + 1) as -> by lia. split; [done|].
    assert (j = 0) as -> by nia. nia. }
  by destruct tp.
Qed.

Lemma reno_slow_start_one E sk ack rtt flag :
  wf_sock sk -> sysctl_tcp_abc E = 0 -> sysctl_tcp_max_ssthresh E <= 0 ->
  snd_cwnd_cnt sk < snd_cwnd sk < snd_cwnd_clamp sk -> snd_cwnd sk < 2147483648 ->
  bytes_acked sk = 0 -> snd_cwnd sk <= snd_ssthresh sk ->
  tcp_reno_cong_avoid E sk ack rtt (snd_cwnd sk) flag =
  Ok (sk <| snd_cwnd := snd_cwnd sk + 1 |>).
Proof.
  intros Hwf Habc Hlim Hcnt Hs Hb Hth. unfold tcp_reno_cong_avoid, tcp_is_cwnd_limited.
  rewrite Z.leb_refl, (proj2 (Z.leb_le _ _) Hth). cbn [negb].
  rewrite tcp_slow_start_one by done. f_equal. destruct sk; cbn in *. by subst.
Qed.

Lemma reno_avoid_step E sk ack rtt in_flight flag :
  sysctl_tcp_abc E = 0 -> snd_cwnd sk <= in_flight -> snd_ssthresh sk < snd_cwnd sk ->
  tcp_reno_cong_avoid E sk ack rtt in_flight flag = Ok (cwnd_ai sk (snd_cwnd sk)).
Proof.
  intros Habc Hf Hth. unfold tcp_reno_cong_avoid, tcp_is_cwnd_limited.
  rewrite (proj2 (Z.leb_le _ _) Hf), Habc. cbn [negb].
  destruct (Z.leb_spec (snd_cwnd sk) (snd_ssthresh sk)); [lia|done].
Qed.

(** * Properties *)

(** A call of [tcp_slow_start] on a socket with a non-zero window or clamp
    terminates without trapping.  Held back by Appropriate Byte Counting it
    changes nothing; otherwise it clears [bytes_acked] and exchanges the
    credits [snd_cwnd_cnt + cnt] for window: opening from [i] to [i+1] costs
    exactly [i], no credit is lost, the window does not pass the clamp, and
    fewer credits than a window remain. *)
Theorem tcp_slow_start_correct E tp :
  wf_sock tp -> snd_cwnd tp <> 0 \/ snd_cwnd_clamp tp <> 0 ->
  if nz (sysctl_tcp_abc E) && (bytes_acked tp <? mss_cache tp)
  then tcp_slow_start E tp = Ok tp
  else exists w c j,
    tcp_slow_start E tp =
      Ok (tp <| bytes_acked := 0 |> <| snd_cwnd_cnt := c |> <| snd_cwnd := w |>)
    /\ c < w /\ slow_start_paid tp (snd_cwnd_cnt tp ⊕ slow_start_cnt E tp) w c j.
Proof.
  intros Hwf Hnz. destruct (_ && _) eqn:Habc.
  - unfold tcp_slow_start. by rewrite Habc.
  - assert (Hr := tcp_slow_start_spec E tp Hwf Hnz Habc). apply returns_inv in Hr.
    destruct Hr as (t & -> & w & c & j & -> & Hr). by exists w, c, j.
Qed.

Lemma tcp_slow_start_correct_witness :
  exists w c j, tcp_slow_start env_ex sk_ex =
      Ok (sk_ex <| bytes_acked := 0 |> <| snd_cwnd_cnt := c |> <| snd_cwnd := w |>)
    /\ c < w
    /\ slow_start_paid sk_ex (snd_cwnd_cnt sk_ex ⊕ slow_start_cnt env_ex sk_ex) w c j.
Proof.
  assert (Hnz : snd_cwnd sk_ex <> 0) by (cbn; lia).
  assert (H := tcp_slow_start_correct env_ex sk_ex wf_sk_ex (or_introl Hnz)).
  change (nz (sysctl_tcp_abc env_ex) && _) with false in H. exact H.
Defined.

(** C39: [tcp_slow_start] returns exactly when ABC holds it back or the window
    and the clamp are not both zero; with both zero its loop never ends. *)
Theorem tcp_slow_start_returns_iff E tp :
  wf_sock tp ->
  (exists tp', tcp_slow_start E tp = Ok tp') <->
  (nz (sysctl_tcp_abc E) && (bytes_acked tp <? mss_cache tp) = true
   \/ snd_cwnd tp <> 0 \/ snd_cwnd_clamp tp <> 0).
Proof.
  intros Hwf. destruct (_ && _) eqn:Habc.
  - unfold tcp_slow_start. rewrite Habc. naive_solver.
  - split.
    + intros [tp' Hr]. right.
      destruct (decide (snd_cwnd tp = 0)); [|by left].
      destruct (decide (snd_cwnd_clamp tp = 0)); [|by right].
      rewrite tcp_slow_start_diverges in Hr by done. done.
    + intros [?|Hnz]; [done|].
      assert (Hr := tcp_slow_start_opens E tp Hwf Hnz). apply returns_inv in Hr. naive_solver.
Qed.

Lemma tcp_slow_start_returns_iff_witness :
  (exists tp', tcp_slow_start env_ex sk_ex = Ok tp') <->
  (nz (sysctl_tcp_abc env_ex) && (bytes_acked sk_ex <? mss_cache sk_ex) = true
   \/ snd_cwnd sk_ex <> 0 \/ snd_cwnd_clamp sk_ex <> 0).
Proof. exact (tcp_slow_start_returns_iff env_ex sk_ex wf_sk_ex). Defined.

(** In slow start [n] acknowledgements open the window by [n] segments, so
    a window of acknowledgements doubles it: the counter is untouched as long
    as the threshold and the clamp are not reached. *)
Theorem reno_slow_start_exponential E n sk ack rtt flag :
  wf_sock sk -> sysctl_tcp_abc E = 0 -> sysctl_tcp_max_ssthresh E <= 0 ->
  snd_cwnd_cnt sk < snd_cwnd sk -> bytes_acked sk = 0 ->
  snd_cwnd sk + Z.of_nat n <= snd_ssthresh sk + 1 ->
  snd_cwnd sk + Z.of_nat n <= snd_cwnd_clamp sk < 2147483648 ->
  c_iter n (fun sk => tcp_reno_cong_avoid E sk ack rtt (snd_cwnd sk) flag) sk =
  Ok (sk <| snd_cwnd := snd_cwnd sk + Z.of_nat n |>).
Proof.
  intros Hwf Habc Hlim. revert sk Hwf.
  induction n as [|n IH]; intros sk Hwf Hcnt Hb Hth Hcl.
  - cbn. rewrite Z.add_0_r. by destruct sk.
  - cbn [c_iter]. rewrite reno_slow_start_one by (done || lia).
    cbn [mbind outcome_bind]. rewrite IH; cbn; try lia.
    + f_equal. destruct sk; cbn in *. f_equal; lia.
    + destruct Hwf. constructor; cbn; lia.
Qed.

Lemma reno_slow_start_exponential_witness :
  c_iter 10 (fun sk => tcp_reno_cong_avoid env_ex sk 0 0 (snd_cwnd sk) 0)
    (sk_ex <| bytes_acked := 0 |>) =
  Ok (sk_ex <| bytes_acked := 0 |> <| snd_cwnd := 20 |>).
Proof.
  rewrite reno_slow_start_exponential; [reflexivity|..]; cbn; try lia.
  constructor; cbn; lia.
Defined.

(** Without byte counting, above the threshold, [snd_cwnd + 1]
    acknowledgements open the window by exactly one segment: linear growth, at
    most one segment per round trip. *)
Theorem reno_linear_growth E sk ack rtt flag in_flight :
  wf_sock sk -> sysctl_tcp_abc E = 0 ->
  snd_ssthresh sk < snd_cwnd sk < snd_cwnd_clamp sk ->
  snd_cwnd_cnt sk = 0 -> snd_cwnd sk <= in_flight ->
  c_iter (Z.to_nat (snd_cwnd sk + 1))
    (fun sk => tcp_reno_cong_avoid E sk ack rtt in_flight flag) sk =
  Ok (sk <| snd_cwnd := snd_cwnd sk + 1 |>).
Proof.
  intros Hwf Habc Hw Hc0 Hf.
  assert (Hcount : forall k, 0 <= Z.of_nat k <= snd_cwnd sk ->
    c_iter k (fun sk => tcp_reno_cong_avoid E sk ack rtt in_flight flag) sk =
    Ok (sk <| snd_cwnd_cnt := Z.of_nat k |>)).
  { intros k Hk. rewrite (c_iter_count _ (fun i => sk <| snd_cwnd_cnt := Z.of_nat i |>) k).
    - done.
    - destruct sk; cbn in *. by subst.
    - intros i Hi. rewrite reno_avoid_step by (cbn; done || lia). cbn. unfold cwnd_ai. cbn.
      destruct (Z.leb_spec (snd_cwnd sk) (Z.of_nat i)); [lia|].
      destruct Hwf. rewrite u32_id by lia. do 2 f_equal. lia. }
  replace (Z.to_nat (snd_cwnd sk + 1)) with (Z.to_nat (snd_cwnd sk) + 1)%nat by (destruct Hwf; lia).
  rewrite c_iter_add, Hcount by (destruct Hwf; lia). cbn [mbind outcome_bind c_iter].
  rewrite reno_avoid_step by (cbn; done || lia). cbn.
  destruct Hwf. unfold cwnd_ai. cbn. rewrite Z2Nat.id, Z.leb_refl by lia. cbn.
  destruct (Z.ltb_spec (snd_cwnd sk) (snd_cwnd_clamp sk)); [|lia]. cbn.
  rewrite u32_id by lia. f_equal. destruct sk; cbn in *. by subst.
Qed.

Lemma reno_linear_growth_witness :
  let sk := sk_ex <| snd_cwnd := 200 |> <| snd_cwnd_cnt := 0 |> in
  c_iter (Z.to_nat (snd_cwnd sk + 1)) (fun sk => tcp_reno_cong_avoid env_ex sk 0 0 500 0) sk =
  Ok (sk <| snd_cwnd := 201 |>).
Proof.
  intros sk. rewrite reno_linear_growth; [reflexivity|..]; cbn; try lia.
  constructor; cbn; lia.
Defined.
