(* ===== verification/CubicRoot.v ===== *)
(** The integer cube root of CUBIC (tcp_cubic.c, [cubic_root]): a table lookup
    refined by one Newton-Raphson step, and a proof of its accuracy. *)
From stdpp Require Import list_numbers.
From S2P Require Import LinuxC.

(** * Definitions *)

Definition cubic_root_v : list Z := [
    0;   54;   54;   54;  118;  118;  118;  118;
  123;  129;  134;  138;  143;  147;  151;  156;
  157;  161;  164;  168;  170;  173;  176;  179;
  181;  185;  187;  190;  192;  194;  197;  199;
  200;  202;  204;  206;  209;  211;  213;  215;
  217;  219;  221;  222;  224;  225;  227;  229;
  231;  232;  234;  236;  237;  239;  240;  242;
  244;  245;  246;  248;  250;  251;  252;  254].

(** [x = (2 * x + a / x^2) / 3], with [x * (x - 1)] for [x^2] and
    [341 / 1024] for [1 / 3]. *)
Definition cubic_root_newton (a x : Z) : outcome Z :=
  q ← div64_64 a (u64 (x * (x ⊖ 1)));
  let x := 2 ⊗ x ⊕ u32 q in
  Ok ((x ⊗ 341) ≫ 10).

Definition cubic_root (a : Z) : outcome Z :=
  let b := u32 (fls64 a) in
  if b <? 7 then
    v ← aread cubic_root_v (u32 a);
    Ok (u32 (v + 35) ≫ 6)
  else
    let b := u32 (((b ⊗ 84) ≫ 8) - 1) in
    let shift := u32 (a ≫ (b ⊗ 3)) in
    v ← aread cubic_root_v shift;
    let x := u32 ((v ⊕ 10) ≪ b) ≫ 6 in
    cubic_root_newton a x.

(** ** What the table must satisfy *)

(** Every argument [a >= 64] falls in a cell: [a / 8^b = s], where [b] follows
    from the number of bits of [a].  The first guess and its square are
    constant on a cell, so the Newton step is linear in [a] there. *)
Definition cell_guess (b s : Z) : Z := (cubic_root_v !!! Z.to_nat s + 10) * 2 ^ b / 64.
Definition cell_lo (b s : Z) : Z := s * 8 ^ b.
Definition cell_hi (b s : Z) : Z := Z.min ((s + 1) * 8 ^ b - 1) 18446744073709551615.

(** [1024 * d * 500 * (r - 1)] is at most this for the result [r] at [a]. *)
Definition newton_hi (x d a : Z) : Z :=
  500 * 341 * (2 * x * d + a + (if d <? 4294967296 then 0 else 2) * d) - 500 * 1024 * d.
(** [1024 * d * 500 * (r + 1)] is at least this. *)
Definition newton_lo (x d a : Z) : Z := 500 * 341 * (2 * x * d + a - d).

(** No operation wraps; the upper bound holds at the ends of the cell, and the
    lower bound, with the cube replaced by its tangent at [t], does. *)
Definition cell_ok (b s : Z) : bool :=
  let x := cell_guess b s in
  let d := x * (x - 1) in
  let a0 := cell_lo b s in
  let a1 := cell_hi b s in
  let t := 499 * 1024 * ((2 * x * d + (a0 + a1) / 2) / 3) in
  let k := (1024 * d) ^ 3 in
  ((cubic_root_v !!! Z.to_nat s + 10) * 2 ^ b <? 4294967296)
  && (4 <=? x) && (341 * ((2 * x + 2) * d + a1) <? d * 4294967296)
  && (0 <=? newton_hi x d a0)
  && (newton_hi x d a0 ^ 3 <=? 501 ^ 3 * k * a0)
  && (newton_hi x d a1 ^ 3 <=? 501 ^ 3 * k * a1)
  && (0 <=? t)
  && (499 ^ 3 * k * a0 <=? 3 * t ^ 2 * newton_lo x d a0 - 2 * t ^ 3)
  && (499 ^ 3 * k * a1 <=? 3 * t ^ 2 * newton_lo x d a1 - 2 * t ^ 3).

(** [r] is the cube root of [a] up to 0.2% and one unit:
    [|r - cbrt a| <= cbrt a / 500 + 1]. *)
Definition is_cube_root (a r : Z) : Prop :=
  (500 * (r - 1)) ^ 3 <= 501 ^ 3 * a /\ 499 ^ 3 * a <= (500 * (r + 1)) ^ 3.

Definition small_ok (a : Z) : bool :=
  match cubic_root a with
  | Ok r => (0 <=? r) && ((500 * (r - 1)) ^ 3 <=? 501 ^ 3 * a)
            && (499 ^ 3 * a <=? (500 * (r + 1)) ^ 3)
  | Trap _ => false
  end.

(** The two cells where the tangent is too coarse are enumerated. *)
Definition cell_enum (b s : Z) : bool :=
  (b <=? 3) && forallb small_ok (seqZ (cell_lo b s) (8 ^ b)).

(** All the cells an argument of [n] bits can fall in. *)
Definition cells_ok (n : Z) : bool :=
  let b := n * 84 / 256 - 1 in
  (1 <=? b) && (3 * b <? n) && (n - 3 * b <=? 6) &&
  forallb (fun s => if cell_ok b s then true else cell_enum b s)
    (seqZ (2 ^ (n - 1 - 3 * b)) (2 ^ (n - 1 - 3 * b))).

(** * Lemmas *)

Lemma seqZ_forallb (P : Z -> bool) m n i :
  forallb P (seqZ m n) = true -> m <= i < m + n -> P i = true.
Proof.
  rewrite forallb_forall. intros HP Hi. apply HP, list_elem_of_In, elem_of_seqZ. lia.
Qed.

(** A linear function between two points where it is non-negative. *)
Lemma linear_between p q a0 a a1 :
  a0 <= a <= a1 -> 0 <= p * a0 + q -> 0 <= p * a1 + q -> 0 <= p * a + q.
Proof.
  intros Ha H0 H1. destruct (Z.eq_dec a0 a1); [by replace a with a0 by lia|].
  apply (Z.mul_le_mono_pos_l _ _ (a1 - a0)); [lia|].
  replace ((a1 - a0) * (p * a + q))
    with ((a1 - a) * (p * a0 + q) + (a - a0) * (p * a1 + q)) by ring.
  assert (0 <= (a1 - a) * (p * a0 + q)) by (apply Z.mul_nonneg_nonneg; lia).
  assert (0 <= (a - a0) * (p * a1 + q)) by (apply Z.mul_nonneg_nonneg; lia). lia.
Qed.

(** The cube of a non-negative linear function lies below its chord. *)
Lemma cube_chord f b k a0 a a1 :
  a0 <= a <= a1 -> 0 <= b -> 0 <= f + b * a0 ->
  (f + b * a0) ^ 3 <= k * a0 -> (f + b * a1) ^ 3 <= k * a1 -> (f + b * a) ^ 3 <= k * a.
Proof.
  intros Ha Hb H0 Hl Hr.
  set (u := f + b * a). set (p := a - a0). set (q := a1 - a).
  assert (Hp : 0 <= p) by lia. assert (Hq : 0 <= q) by lia.
  replace (f + b * a0) with (u - b * p) in * by (subst u p; ring).
  replace (f + b * a1) with (u + b * q) in * by (subst u q; ring).
  destruct (Z.eq_dec p 0) as [E|].
  { rewrite E, Z.mul_0_r, Z.sub_0_r in Hl. by replace a with a0 by lia. }
  assert (Hx : (p + q) * u ^ 3 <= q * (u - b * p) ^ 3 + p * (u + b * q) ^ 3).
  { assert (E : q * (u - b * p) ^ 3 + p * (u + b * q) ^ 3 - (p + q) * u ^ 3
      = p * q * (p + q) * (b * b) * (3 * (u - b * p) + b * (q + 2 * p))) by ring.
    assert (0 <= p * q * (p + q) * (b * b) * (3 * (u - b * p) + b * (q + 2 * p))); [|lia].
    pose proof (Z.mul_nonneg_nonneg b (q + 2 * p)).
    repeat apply Z.mul_nonneg_nonneg; lia. }
  apply (Z.mul_le_mono_pos_l _ _ (p + q)); [lia|].
  etransitivity; [exact Hx|].
  replace a0 with (a - p) in Hl by lia. replace a1 with (a + q) in Hr by lia.
  apply (Z.mul_le_mono_nonneg_l _ _ q) in Hl; [|lia].
  apply (Z.mul_le_mono_nonneg_l _ _ p) in Hr; [|lia]. lia.
Qed.

(** The cube of a non-negative number lies above its tangents. *)
Lemma cube_tangent t z : 0 <= t -> 0 <= z -> 3 * t ^ 2 * z - 2 * t ^ 3 <= z ^ 3.
Proof.
  intros Ht Hz. assert (E : z ^ 3 - (3 * t ^ 2 * z - 2 * t ^ 3) = (z - t) ^ 2 * (z + 2 * t)) by ring.
  assert (0 <= (z - t) ^ 2 * (z + 2 * t)); [|lia].
  apply Z.mul_nonneg_nonneg; [apply Z.pow_even_nonneg; by exists 1|lia].
Qed.

Lemma cube_mono x y : x <= y -> x ^ 3 <= y ^ 3.
Proof.
  intros H. assert (E : y ^ 3 - x ^ 3 = (y - x) * (x * x + x * y + y * y)) by ring.
  assert (0 <= x * x + x * y + y * y) by nia. nia.
Qed.

(** The Newton step on one cell. *)
Lemma newton_cell x d a0 a1 a q r t :
  let k := (1024 * d) ^ 3 in
  d = x * (x - 1) -> 4 <= x -> a0 <= a <= a1 -> 0 <= a ->
  a / d <= q <= a / d + (if d <? 4294967296 then 0 else 2) ->
  r = 341 * (2 * x + q) / 1024 ->
  0 <= newton_hi x d a0 ->
  newton_hi x d a0 ^ 3 <= 501 ^ 3 * k * a0 -> newton_hi x d a1 ^ 3 <= 501 ^ 3 * k * a1 ->
  0 <= t ->
  499 ^ 3 * k * a0 <= 3 * t ^ 2 * newton_lo x d a0 - 2 * t ^ 3 ->
  499 ^ 3 * k * a1 <= 3 * t ^ 2 * newton_lo x d a1 - 2 * t ^ 3 ->
  is_cube_root a r.
Proof.
  intros k Hd Hx Ha Ha' Hq Hr Hh0 Hh Hh1 Ht Hl0 Hl1.
  assert (Hd0 : 0 < d) by (clear -Hd Hx; nia).
  assert (Hxd : 4 * d <= x * d) by (apply Z.mul_le_mono_nonneg_r; lia).
  assert (Hk : 0 < k) by (apply Z.pow_pos_nonneg; lia).
  assert (Hhi : newton_hi x d a ^ 3 <= 501 ^ 3 * k * a).
  { set (f := 500 * 341 * (2 * x * d + (if d <? 4294967296 then 0 else 2) * d) - 500 * 1024 * d).
    assert (E : forall z, newton_hi x d z = f + 170500 * z).
    { intros z. unfold newton_hi, f. lia. }
    rewrite E in *. apply (cube_chord f 170500 _ a0 a a1); lia || done. }
  assert (Hlo : 499 ^ 3 * k * a <= newton_lo x d a ^ 3).
  { etransitivity; [|apply (cube_tangent t); [done|unfold newton_lo; lia]].
    set (p := 3 * t ^ 2 * 170500 - 499 ^ 3 * k).
    set (c := 3 * t ^ 2 * (170500 * (2 * x * d - d)) - 2 * t ^ 3).
    assert (E : forall z, 3 * t ^ 2 * newton_lo x d z - 2 * t ^ 3 - 499 ^ 3 * k * z = p * z + c).
    { intros z. unfold newton_lo, p, c. ring. }
    pose proof (linear_between p c a0 a a1 Ha). rewrite <- !E in *. lia. }
  clear Hh0 Hh Hh1 Hl0 Hl1.
  pose proof (Z.mul_div_le a d ltac:(lia)). pose proof (Z.mul_succ_div_gt a d ltac:(lia)).
  assert (Hr1 : 1024 * r * d <= 341 * (2 * x + q) * d)
    by (apply Z.mul_le_mono_nonneg_r; subst r; Z.div_mod_to_equations; lia).
  assert (Hr2 : 341 * (2 * x + q) * d <= 1024 * (r + 1) * d)
    by (apply Z.mul_le_mono_nonneg_r; subst r; Z.div_mod_to_equations; lia).
  assert (Hq1 : a / d * d <= q * d) by (apply Z.mul_le_mono_nonneg_r; lia).
  unfold is_cube_root. split; apply (Z.mul_le_mono_pos_l _ _ k); try done.
  - replace (k * (501 ^ 3 * a)) with (501 ^ 3 * k * a) by ring.
    etransitivity; [|exact Hhi]. unfold k. rewrite <- Z.pow_mul_l. apply cube_mono.
    unfold newton_hi. set (sl := if d <? 4294967296 then 0 else 2) in *.
    assert (q * d <= (a / d + sl) * d) by (apply Z.mul_le_mono_nonneg_r; lia). lia.
  - replace (k * (499 ^ 3 * a)) with (499 ^ 3 * k * a) by ring.
    etransitivity; [exact Hlo|]. unfold k. rewrite <- Z.pow_mul_l. apply cube_mono.
    unfold newton_lo. lia.
Qed.

Lemma small_oks : forallb small_ok (seqZ 0 64) = true.
Proof. by vm_compute. Qed.

Lemma cells_oks : forallb cells_ok (seqZ 7 58) = true.
Proof. by vm_compute. Qed.

Lemma cubic_root_small a : small_ok a = true ->
  returns (cubic_root a) (fun r => 0 <= r /\ is_cube_root a r).
Proof.
  intros H. unfold small_ok in H. destruct (cubic_root a) as [r|]; [|done]. cbn. unfold is_cube_root. lia.
Qed.

(** The cell of an argument of at least 7 bits. *)
Lemma cell_of a : in_u64 a -> 64 <= a ->
  let b := fls64 a * 84 / 256 - 1 in
  let s := a / 8 ^ b in
  7 <= fls64 a <= 64 /\ 1 <= b <= 20 /\ 0 <= s < 64 /\ (cell_ok b s = true \/ small_ok a = true)
  /\ cell_lo b s <= a <= cell_hi b s.
Proof.
  intros Ha Ha'. destruct (fls64_bounds a) as [Hn [Hp1 Hp2]]; [done|lia|].
  set (n := fls64 a) in *. intros b s.
  assert (Hn7 : 7 <= n).
  { apply Z.nlt_ge. intros Hlt. assert (2 ^ n <= 2 ^ 6); [|lia].
    apply Z.pow_le_mono_r; lia. }
  pose proof (seqZ_forallb _ _ _ n cells_oks ltac:(lia)) as Hc.
  unfold cells_ok in Hc. fold b in Hc.
  apply andb_true_iff in Hc as [Hb Hc].
  assert (Hb' : 1 <= b /\ 3 * b < n /\ n - 3 * b <= 6) by lia. clear Hb.
  assert (b <= 20) by (unfold b; Z.div_mod_to_equations; lia).
  assert (E8 : 8 ^ b = 2 ^ (3 * b)) by (rewrite Z.pow_mul_r by lia; done).
  assert (H8 : 0 < 8 ^ b) by (apply Z.pow_pos_nonneg; lia).
  assert (Hs : 2 ^ (n - 1 - 3 * b) <= s < 2 * 2 ^ (n - 1 - 3 * b)).
  { unfold s. split.
    - apply Z.div_le_lower_bound; [done|]. rewrite E8, <- Z.pow_add_r by lia.
      by replace (3 * b + (n - 1 - 3 * b)) with (n - 1) by lia.
    - apply Z.div_lt_upper_bound; [done|]. rewrite E8, <- Z.pow_succ_r, <- Z.pow_add_r by lia.
      by replace (3 * b + Z.succ (n - 1 - 3 * b)) with n by lia. }
  assert (2 * 2 ^ (n - 1 - 3 * b) <= 2 ^ 6).
  { rewrite <- Z.pow_succ_r by lia. apply Z.pow_le_mono_r; lia. }
  assert (0 < 2 ^ (n - 1 - 3 * b)) by (apply Z.pow_pos_nonneg; lia).
  assert (Hlo : cell_lo b s <= a) by (unfold cell_lo, s; rewrite Z.mul_comm; by apply Z.mul_div_le).
  pose proof (Z.mul_succ_div_gt a (8 ^ b) H8) as Hhi. fold s in Hhi.
  repeat split; try lia.
  - pose proof (seqZ_forallb _ _ _ s Hc ltac:(lia)) as Hcs. cbv beta in Hcs.
    destruct (cell_ok b s) eqn:E; [by left|right].
    apply andb_true_iff in Hcs as [_ Hcs]. apply (seqZ_forallb _ _ _ a Hcs).
    unfold cell_lo in *. lia.
  - unfold cell_hi. lia.
Qed.

Lemma cubic_root_unfold a : in_u64 a -> 64 <= a ->
  let b := fls64 a * 84 / 256 - 1 in
  let s := a / 8 ^ b in
  cell_ok b s = true -> cubic_root a = cubic_root_newton a (cell_guess b s).
Proof.
  intros Ha Ha' b s Hc. destruct (cell_of a Ha Ha') as (Hn & Hb & Hs & _).
  fold b in Hb, Hs. fold s in Hs.
  unfold cubic_root. rewrite (u32_id (fls64 a)) by lia.
  destruct (Z.ltb_spec (fls64 a) 7) as [|_]; [lia|].
  rewrite (u32_id (fls64 a * 84)), (Z.shiftr_div_pow2 _ 8) by lia. change (2 ^ 8) with 256.
  fold b. rewrite (u32_id b), (u32_id (b * 3)), Z.shiftr_div_pow2 by lia.
  replace (2 ^ (b * 3)) with (8 ^ b) by (rewrite Z.mul_comm, Z.pow_mul_r by lia; done).
  fold s. rewrite (u32_id s) by lia.
  destruct (aread_in cubic_root_v s) as (v & -> & Hv); [cbn; lia|]. cbn.
  unfold cell_ok, cell_guess in *. rewrite (list_lookup_total_correct _ _ _ Hv) in *.
  assert (0 <= v <= 254).
  { assert (Hall : Forall (fun v => 0 <= v <= 254) cubic_root_v)
      by (unfold cubic_root_v; repeat (constructor; [lia|]); constructor).
    rewrite Forall_forall in Hall. by eapply Hall, list_elem_of_lookup_2. }
  rewrite (u32_id (v + 10)), Z.shiftl_mul_pow2 by lia.
  assert (0 < 2 ^ b) by (apply Z.pow_pos_nonneg; lia).
  rewrite !andb_true_iff in Hc. rewrite u32_id by lia. rewrite Z.shiftr_div_pow2 by lia. done.
Qed.

Lemma cubic_root_large a : in_u64 a -> 64 <= a ->
  returns (cubic_root a) (fun r => 0 <= r /\ is_cube_root a r).
Proof.
  intros Ha Ha'.
  destruct (cell_of a Ha Ha') as (_ & _ & _ & [Hc|] & Hcell); [|by apply cubic_root_small].
  rewrite cubic_root_unfold by done.
  set (b := _ - 1) in *. set (s := a / 8 ^ b) in *. clearbody b s.
  unfold cell_ok in Hc. set (x := cell_guess b s) in *. clearbody x.
  set (a0 := cell_lo b s) in *. set (a1 := cell_hi b s) in *.
  assert (Ha1 : a1 <= 18446744073709551615) by apply Z.le_min_r. clearbody a0 a1.
  cbv zeta in Hc. set (t := 499 * 1024 * _) in Hc. clearbody t.
  set (d := x * (x - 1)) in *. rewrite !andb_true_iff, !Z.leb_le, !Z.ltb_lt in Hc.
  destruct Hc as [[[[[[[[_ Hx] Hov] Hh0] Hh] Hh1] Ht] Hl0] Hl1].
  assert (Hd : 12 <= d /\ 3 * x <= d) by (unfold d; clear -Hx; nia).
  assert (Hxb : 341 * (2 * x + 2) < 4294967296).
  { apply (Z.mul_lt_mono_pos_r d); lia. }
  assert (Hdb : d <= 6297650 * x) by (unfold d; apply Z.le_trans with (x * 6297650); [apply Z.mul_le_mono_nonneg_l; lia|lia]).
  unfold cubic_root_newton. rewrite (u32_id (x - 1)) by lia. fold d.
  rewrite (u64_id d) by lia.
  pose proof (div64_64_bounds a d Ha ltac:(lia) ltac:(lia)) as Hdiv.
  apply returns_inv in Hdiv as (q & -> & Hq & Hq').
  assert (Hqb : a / d <= a1 / d) by (apply Z.div_le_mono; lia).
  pose proof (Z.mul_div_le a1 d ltac:(lia)) as Ha1d.
  assert (Hsum : 341 * (2 * x + 2 + a1 / d) < 4294967296).
  { apply (Z.mul_lt_mono_pos_r d); lia. }
  assert (0 <= a / d) by (apply Z.div_pos; lia).
  cbn. rewrite (u32_id q), (u32_id (2 * x)), (u32_id (2 * x + q)), u32_id by lia.
  rewrite Z.shiftr_div_pow2 by lia. change (2 ^ 10) with 1024. split.
  { apply Z.div_pos; lia. }
  apply (newton_cell x d a0 a1 a q _ t); try done; try lia.
  - destruct (Z.ltb_spec d 4294967296); lia.
  - f_equal. lia.
Qed.

Lemma cubic_root_returns a : in_u64 a ->
  returns (cubic_root a) (fun r => 0 <= r /\ is_cube_root a r).
Proof.
  intros Ha. destruct (Z.lt_ge_cases a 64).
  - apply cubic_root_small, (seqZ_forallb _ _ _ a small_oks). lia.
  - by apply cubic_root_large.
Qed.

(** A root is at most the 21.34 bits a 64-bit cube leaves. *)
Lemma is_cube_root_bound a r : in_u64 a -> is_cube_root a r -> r < 2647532.
Proof.
  intros Ha [Hr _]. apply Z.nle_gt. intros Hge.
  pose proof (cube_mono (500 * (2647532 - 1)) (500 * (r - 1)) ltac:(lia)). lia.
Qed.

(** * Properties *)

(** C38: [cubic_root] returns on every 64-bit argument, without a trap (no
    table index out of range, no zero divisor), a result below 2647532 that is
    within 0.2% plus one unit of the real cube root. *)
Theorem cubic_root_accurate a :
  in_u64 a ->
  exists r, cubic_root a = Ok r /\ 0 <= r < 2647532
    /\ (500 * (r - 1)) ^ 3 <= 501 ^ 3 * a /\ 499 ^ 3 * a <= (500 * (r + 1)) ^ 3.
Proof.
  intros Ha. destruct (proj1 (returns_inv _ _) (cubic_root_returns a Ha)) as (r & -> & H0 & Hr).
  exists r. split; [done|]. pose proof (is_cube_root_bound a r Ha Hr). by split.
Qed.

Lemma cubic_root_accurate_witness :
  exists r, cubic_root 1000000000000 = Ok r /\ 0 <= r < 2647532
    /\ (500 * (r - 1)) ^ 3 <= 501 ^ 3 * 1000000000000
    /\ 499 ^ 3 * 1000000000000 <= (500 * (r + 1)) ^ 3.
Proof. apply cubic_root_accurate. lia. Defined.
