(* ===== verification/Cubic.v ===== *)
(** CUBIC (tcp_cubic.c): the window is a cubic function of the time since the
    last loss, whose plateau is the window at that loss. *)
From S2P Require Import Sock LinuxC Reno CubicRoot.

(** * Definitions *)

Definition BICTCP_BETA_SCALE : Z := 1024.
Definition BICTCP_HZ : Z := 10.
Definition ACK_RATIO_SHIFT : Z := 4.

(** The module parameters and the factors precomputed from them. *)
Record cubic_params := mk_cubic_params {
  fast_convergence : Z;       (* int *)
  max_increment : Z;          (* int *)
  beta : Z;                   (* int *)
  initial_ssthresh : Z;       (* int *)
  bic_scale : Z;              (* int *)
  tcp_friendliness : Z;       (* int *)
  cube_rtt_scale : Z;         (* u32 *)
  beta_scale : Z;             (* u32 *)
  cube_factor : Z;            (* u64 *)
}.
#[global] Instance eta_cubic_params : Eta cubic_params := fun r =>
  mk_cubic_params (fast_convergence r) (max_increment r) (beta r) (initial_ssthresh r)
    (bic_scale r) (tcp_friendliness r) (cube_rtt_scale r) (beta_scale r) (cube_factor r).

Definition cubic_defaults : cubic_params := {|
  fast_convergence := 1; max_increment := 16; beta := 819; initial_ssthresh := 0;
  bic_scale := 41; tcp_friendliness := 1;
  cube_rtt_scale := 0; beta_scale := 0; cube_factor := 0 |}.

Record bictcp := mk_bictcp {
  cnt : Z;                    (* u32, as all the fields *)
  last_max_cwnd : Z;
  loss_cwnd : Z;
  last_cwnd : Z;
  last_time : Z;
  bic_origin_point : Z;
  bic_K : Z;
  delay_min : Z;
  epoch_start : Z;
  ack_cnt : Z;
  tcp_cwnd : Z;
  delayed_ack : Z;
}.
#[global] Instance eta_bictcp : Eta bictcp := fun r =>
  mk_bictcp (cnt r) (last_max_cwnd r) (loss_cwnd r) (last_cwnd r) (last_time r)
    (bic_origin_point r) (bic_K r) (delay_min r) (epoch_start r) (ack_cnt r)
    (tcp_cwnd r) (delayed_ack r).

Definition bictcp_reset (ca : bictcp) : bictcp := {|
  cnt := 0; last_max_cwnd := 0; loss_cwnd := 0; last_cwnd := 0; last_time := 0;
  bic_origin_point := 0; bic_K := 0; delay_min := 0; epoch_start := 0;
  delayed_ack := 2 ≪ ACK_RATIO_SHIFT; ack_cnt := 0; tcp_cwnd := 0 |}.

Definition bictcp_init (g : cubic_params) (sk : tcp_sock) (ca : bictcp) : tcp_sock * bictcp :=
  (if nz (initial_ssthresh g)
   then sk <| snd_ssthresh := u32 (initial_ssthresh g) |> else sk,
   bictcp_reset ca).

(** The factors set when the module is registered. *)
Definition cubictcp_register (g : cubic_params) : outcome cubic_params :=
  if BICTCP_BETA_SCALE - beta g =? 0 then Trap DivByZero else
  let g := g <| beta_scale :=
    u32 (Z.quot (Z.quot (8 * (BICTCP_BETA_SCALE + beta g)) 3) (BICTCP_BETA_SCALE - beta g)) |> in
  let g := g <| cube_rtt_scale := u32 (bic_scale g * 10) |> in
  let g := g <| cube_factor := u64 (1 ≪ (10 + 3 * BICTCP_HZ)) |> in
  '(cf, _) ← do_div (cube_factor g) (bic_scale g * 10);
  Ok (g <| cube_factor := cf |>).

(** ** bictcp_update *)

(** The start of an epoch: where the plateau is, and when it is reached. *)
Definition bictcp_epoch (g : cubic_params) (E : env) (ca : bictcp) (cwnd : Z) : outcome bictcp :=
  if epoch_start ca =? 0 then
    let ca := ca <| epoch_start := tcp_time_stamp E |> <| ack_cnt := 1 |>
                 <| tcp_cwnd := cwnd |> in
    if last_max_cwnd ca <=? cwnd then
      Ok (ca <| bic_K := 0 |> <| bic_origin_point := cwnd |>)
    else
      k ← cubic_root (u64 (cube_factor g * (last_max_cwnd ca ⊖ cwnd)));
      Ok (ca <| bic_K := k |> <| bic_origin_point := last_max_cwnd ca |>)
  else Ok ca.

(** The time since the start of the epoch, in units of 1/1024 s. *)
Definition bictcp_t (E : env) (ca : bictcp) : Z :=
  u32 ((tcp_time_stamp E ⊕ delay_min ca ≫ 3 ⊖ epoch_start ca) ≪ BICTCP_HZ) / HZ.

Definition bictcp_target (g : cubic_params) (ca : bictcp) (t : Z) : Z :=
  let offs := if t <? bic_K ca then bic_K ca ⊖ t else t ⊖ bic_K ca in
  let delta := u32 (u64 (u64 (u64 (cube_rtt_scale g * offs) * offs) * offs)
                    ≫ (10 + 3 * BICTCP_HZ)) in
  if t <? bic_K ca then bic_origin_point ca ⊖ delta else bic_origin_point ca ⊕ delta.

(** [while (ack_cnt > delta) { ack_cnt -= delta; tcp_cwnd++; }] *)
Definition tcp_friendly_loop (delta : Z) (ca : bictcp) : outcome bictcp :=
  c_while (fun ca => delta <? ack_cnt ca)
    (fun ca => Ok (ca <| ack_cnt := ack_cnt ca ⊖ delta |> <| tcp_cwnd := tcp_cwnd ca ⊕ 1 |>))
    ca.

Definition bictcp_friendliness (g : cubic_params) (ca : bictcp) (cwnd : Z) : outcome bictcp :=
  if nz (tcp_friendliness g) then
    let scale := beta_scale g in
    let delta := (cwnd ⊗ scale) ≫ 3 in
    ca ← tcp_friendly_loop delta ca;
    if cwnd <? tcp_cwnd ca then
      let delta := tcp_cwnd ca ⊖ cwnd in
      max_cnt ← udiv cwnd delta;
      Ok (if max_cnt <? cnt ca then ca <| cnt := max_cnt |> else ca)
    else Ok ca
  else Ok ca.

Definition bictcp_update (g : cubic_params) (E : env) (ca : bictcp) (cwnd : Z) : outcome bictcp :=
  let ca := ca <| ack_cnt := ack_cnt ca ⊕ 1 |> in
  if (last_cwnd ca =? cwnd)
     && (s32 (tcp_time_stamp E ⊖ last_time ca) <=? Z.quot HZ 32) then Ok ca
  else
    let ca := ca <| last_cwnd := cwnd |> <| last_time := tcp_time_stamp E |> in
    ca ← bictcp_epoch g E ca cwnd;
    let t := bictcp_t E ca in
    let bic_target := bictcp_target g ca t in
    cnt0 ← (if cwnd <? bic_target then udiv cwnd (bic_target ⊖ cwnd)
            else Ok (100 ⊗ cwnd));
    let ca := ca <| cnt := cnt0 |> in
    ca ← (if 0 <? delay_min ca then
            min_cnt ← udiv (cwnd ⊗ HZ ⊗ 8) (10 * max_increment g ⊗ delay_min ca);
            Ok (if (cnt ca <? min_cnt) && (bic_K ca <=? t)
                then ca <| cnt := min_cnt |> else ca)
          else Ok ca);
    let ca := if loss_cwnd ca =? 0 then ca <| cnt := 50 |> else ca in
    ca ← bictcp_friendliness g ca cwnd;
    c ← udiv (u32 (cnt ca ≪ ACK_RATIO_SHIFT)) (delayed_ack ca);
    let ca := ca <| cnt := c |> in
    Ok (if cnt ca =? 0 then ca <| cnt := 1 |> else ca).

Arguments bictcp_t : simpl never.
Arguments bictcp_target : simpl never.
Arguments bictcp_epoch : simpl never.
Arguments bictcp_friendliness : simpl never.

(** ** The callbacks *)

Definition measure_delay (E : env) (sk : tcp_sock) (ca : bictcp) : bictcp :=
  if negb (saw_tstamp (rx_opt sk) && nz (rcv_tsecr (rx_opt sk)))
     || (s32 (tcp_time_stamp E ⊖ epoch_start ca) <? HZ) then ca
  else
    let delay := u32 ((tcp_time_stamp E ⊖ rcv_tsecr (rx_opt sk)) ≪ 3) in
    let delay := if delay =? 0 then 1 else delay in
    if (delay_min ca =? 0) || (delay <? delay_min ca)
    then ca <| delay_min := delay |> else ca.

Definition bictcp_cong_avoid (g : cubic_params) (E : env) (sk : tcp_sock) (ca : bictcp)
  (ack seq_rtt in_flight data_acked : Z) : outcome (tcp_sock * bictcp) :=
  let ca := if nz data_acked then measure_delay E sk ca else ca in
  if negb (tcp_is_cwnd_limited sk in_flight) then Ok (sk, ca)
  else if snd_cwnd sk <=? snd_ssthresh sk then
    sk ← tcp_slow_start E sk; Ok (sk, ca)
  else
    ca ← bictcp_update g E ca (snd_cwnd sk);
    Ok (cwnd_ai sk (cnt ca), ca).

Definition bictcp_recalc_ssthresh (g : cubic_params) (sk : tcp_sock) (ca : bictcp) : Z * bictcp :=
  let ca := ca <| epoch_start := 0 |> in
  let ca :=
    if (snd_cwnd sk <? last_max_cwnd ca) && nz (fast_convergence g)
    then ca <| last_max_cwnd :=
           snd_cwnd sk ⊗ u32 (BICTCP_BETA_SCALE + beta g) / (2 * BICTCP_BETA_SCALE) |>
    else ca <| last_max_cwnd := snd_cwnd sk |> in
  let ca := ca <| loss_cwnd := snd_cwnd sk |> in
  (Z.max (snd_cwnd sk ⊗ u32 (beta g) / BICTCP_BETA_SCALE) 2, ca).

Definition bictcp_undo_cwnd (sk : tcp_sock) (ca : bictcp) : Z :=
  Z.max (snd_cwnd sk) (last_max_cwnd ca).

Definition bictcp_state (ca : bictcp) (new_state : tcp_ca_state) : bictcp :=
  if decide (new_state = TCP_CA_Loss) then bictcp_reset ca else ca.

Definition bictcp_acked (sk : tcp_sock) (ca : bictcp) (cnt_ : Z) : bictcp :=
  if (0 <? cnt_) && bool_decide (icsk_ca_state sk = TCP_CA_Open) then
    let cnt_ := cnt_ ⊖ delayed_ack ca ≫ ACK_RATIO_SHIFT in
    ca <| delayed_ack := delayed_ack ca ⊕ cnt_ |>
  else ca.

Definition cubictcp (g : cubic_params) : tcp_congestion_ops bictcp := {|
  ops_name := "cubic";
  ops_flags := 0;
  ops_init := Some (fun _ sk ca => Ok (bictcp_init g sk ca));
  ops_ssthresh := fun _ sk ca => Ok (bictcp_recalc_ssthresh g sk ca);
  ops_cong_avoid := fun E sk ca ack rtt in_flight flag =>
    bictcp_cong_avoid g E sk ca ack rtt in_flight flag;
  ops_min_cwnd := None;
  ops_rtt_sample := None;
  ops_set_state := Some (fun _ _ ca st => Ok (bictcp_state ca st));
  ops_cwnd_event := None;
  ops_undo_cwnd := Some (fun _ sk ca => Ok (bictcp_undo_cwnd sk ca, ca));
  ops_pkts_acked := Some (fun _ sk ca n _ => Ok (sk, bictcp_acked sk ca n));
|}.

(** ** Invariant and specifications *)

(** Every field is a [u32], and the delayed-ack ratio, which [bictcp_update]
    divides by, is at least 1 (16 after scaling). *)
Record wf_bictcp (ca : bictcp) : Prop := mk_wf_bictcp {
  wf_cnt : in_u32 (cnt ca);
  wf_last_max_cwnd : in_u32 (last_max_cwnd ca);
  wf_loss_cwnd : in_u32 (loss_cwnd ca);
  wf_last_cwnd : in_u32 (last_cwnd ca);
  wf_last_time : in_u32 (last_time ca);
  wf_bic_origin_point : in_u32 (bic_origin_point ca);
  wf_bic_K : in_u32 (bic_K ca);
  wf_delay_min : in_u32 (delay_min ca);
  wf_epoch_start : in_u32 (epoch_start ca);
  wf_ack_cnt : in_u32 (ack_cnt ca);
  wf_tcp_cwnd : in_u32 (tcp_cwnd ca);
  wf_delayed_ack : 16 <= delayed_ack ca < 4294967296;
}.

(** The parameters after the registration of the module with its defaults. *)
Definition cubic_registered : cubic_params := cubic_defaults
  <| beta_scale := 23 |> <| cube_rtt_scale := 410 |> <| cube_factor := 2681735677 |>.

(** The window the code's cubic function means, [d] units of 1/1024 s after
    the plateau is reached: [origin + 410 d^3 / 2^40]. *)
Definition cubic_curve (origin d : Z) : Z :=
  if d <? 0 then origin - 410 * (- d) ^ 3 / 2 ^ 40 else origin + 410 * d ^ 3 / 2 ^ 40.

(** The largest distance to the plateau for which the 64-bit product
    [410 * offs^3] does not wrap: about 347 seconds. *)
Definition offs_max : Z := 355668.

(** The weight that [delayed_ack] gives to the last [C] segments at most. *)
Definition delayed_ack_inv (C : Z) (ca : bictcp) : Prop :=
  wf_bictcp ca /\ delayed_ack ca <= 16 * C + 15.

(** What the callbacks keep: [cnt] is usable once the window was seen, and the
    minimum delay (8 times milliseconds) stays below 4.6 hours. *)
Record cubic_inv (ca : bictcp) : Prop := mk_cubic_inv {
  ci_wf : wf_bictcp ca;
  ci_cnt : last_cwnd ca = 0 \/ 1 <= cnt ca;
  ci_delay : delay_min ca < 134217728;
}.

(** A state after a loss at 400 segments. *)
Definition cubic_ex : bictcp := (bictcp_reset (mk_bictcp 0 0 0 0 0 0 0 0 0 0 0 0))
  <| last_max_cwnd := 400 |> <| loss_cwnd := 400 |>.

(** * Lemmas *)

Lemma cubictcp_register_defaults : cubictcp_register cubic_defaults = Ok cubic_registered.
Proof. by vm_compute. Qed.

Ltac wf_bictcp_tac :=
  match goal with
  | H : wf_bictcp _ |- wf_bictcp _ => destruct H; constructor; cbn; eauto with cint
  end.

Lemma bictcp_reset_wf ca : wf_bictcp (bictcp_reset ca).
Proof. constructor; cbn; try lia. change (2 ≪ ACK_RATIO_SHIFT) with 32. lia. Qed.

(** The loop of the TCP-friendly estimate in closed form. *)
Lemma tcp_friendly_loop_spec delta ca :
  wf_bictcp ca -> 0 < delta ->
  let n := if ack_cnt ca <=? delta then 0 else (ack_cnt ca - 1) / delta in
  tcp_friendly_loop delta ca =
    Ok (ca <| ack_cnt := ack_cnt ca - n * delta |> <| tcp_cwnd := u32 (tcp_cwnd ca + n) |>).
Proof.
  intros Hwf Hd n.
  assert (Hr : returns (tcp_friendly_loop delta ca) (fun c =>
    (exists k, 0 <= k /\ 0 <= ack_cnt c
      /\ c = ca <| ack_cnt := ack_cnt ca - k * delta |> <| tcp_cwnd := u32 (tcp_cwnd ca + k) |>
      /\ (0 < k -> 1 <= ack_cnt c)) /\ (delta <? ack_cnt c) = false)).
  { unfold tcp_friendly_loop. apply (c_while_rule _ ack_cnt).
    - intros s (k & Hk & Hpos & -> & H1) Hc. cbn in *. destruct Hwf.
      assert (0 <= ack_cnt ca - k * delta < 4294967296) by nia.
      rewrite u32_id by lia. split; [|lia].
      exists (k + 1). repeat split; try lia.
      f_equal; [lia|]. unfold u32. rewrite Zplus_mod_idemp_l. f_equal. lia.
    - exists 0. destruct Hwf. repeat split; cbn; try lia.
      rewrite !Z.add_0_r, Z.sub_0_r, u32_id by lia. by destruct ca.
    - destruct Hwf. lia. }
  apply returns_inv in Hr as (c & -> & (k & Hk & Hpos & -> & H1) & Hc). cbn in *.
  assert (k = n) as ->; [|done]. subst n. destruct (Z.leb_spec (ack_cnt ca) delta).
  - destruct (Z.eq_dec k 0); [done|]. nia.
  - apply (Z.div_unique_pos _ _ k (ack_cnt ca - 1 - k * delta)); [|lia].
    assert (0 < k) by (destruct (Z.eq_dec k 0) as [->|]; lia). lia.
Qed.

Lemma bictcp_epoch_returns g E ca cwnd :
  wf_bictcp ca -> wf_env E -> in_u32 cwnd ->
  returns (bictcp_epoch g E ca cwnd) (fun ca' => wf_bictcp ca'
    /\ delay_min ca' = delay_min ca /\ delayed_ack ca' = delayed_ack ca
    /\ loss_cwnd ca' = loss_cwnd ca).
Proof.
  intros Hwf [] Hcw. unfold bictcp_epoch. case_cond; [|done]. cbn.
  case_cond; cbn; [split; [wf_bictcp_tac; lia|done]|].
  pose proof (cubic_root_returns (u64 (cube_factor g * (last_max_cwnd ca ⊖ cwnd)))
    (u64_range _)) as Hr.
  apply returns_inv in Hr as (k & -> & Hk & Hr). cbn.
  pose proof (is_cube_root_bound _ _ (u64_range _) Hr).
  split; [wf_bictcp_tac; lia|done].
Qed.

Lemma bictcp_friendliness_returns g ca cwnd :
  wf_bictcp ca -> 1 <= cwnd < 134217728 -> 8 <= beta_scale g <= 32 ->
  returns (bictcp_friendliness g ca cwnd) (fun ca' => wf_bictcp ca'
    /\ delay_min ca' = delay_min ca /\ delayed_ack ca' = delayed_ack ca
    /\ cnt ca' <= cnt ca).
Proof.
  intros Hwf Hc Hg. unfold bictcp_friendliness. case_cond; [|done].
  assert (Hb : 8 * 1 <= cwnd * beta_scale g <= 134217727 * 32)
    by (split; [apply Z.le_trans with (beta_scale g * 1); nia|apply Z.mul_le_mono_nonneg; lia]).
  rewrite u32_id, Z.shiftr_div_pow2 by lia. change (2 ^ 3) with 8.
  assert (Hd : 0 < cwnd * beta_scale g / 8) by (Z.div_mod_to_equations; lia).
  rewrite tcp_friendly_loop_spec by done. cbn.
  set (n := if _ <=? _ then _ else _).
  assert (Hn : 0 <= ack_cnt ca - n * (cwnd * beta_scale g / 8) < 4294967296).
  { destruct Hwf. subst n. set (dl := cwnd * beta_scale g / 8) in *.
    destruct (Z.leb_spec (ack_cnt ca) dl); [lia|].
    pose proof (Z.mul_div_le (ack_cnt ca - 1) dl Hd).
    pose proof (Z.div_pos (ack_cnt ca - 1) dl ltac:(lia) Hd). nia. }
  pose proof (u32_range (tcp_cwnd ca + n)). case_cond; cbn.
  - rewrite u32_sub_id by lia. rewrite udiv_ok by lia. cbn.
    assert (0 <= cwnd / (u32 (tcp_cwnd ca + n) - cwnd) <= cwnd).
    { split; [apply Z.div_pos; lia|]. apply Z.div_le_upper_bound; nia. }
    case_cond; cbn; (split; [wf_bictcp_tac; lia|]); lia.
  - split; [wf_bictcp_tac; lia|]. lia.
Qed.

(** The window update: no trap, and a usable [cnt]. *)
Lemma bictcp_update_returns E ca cwnd :
  wf_bictcp ca -> wf_env E -> 1 <= cwnd < 134217728 -> delay_min ca < 134217728 ->
  (last_cwnd ca = cwnd -> 1 <= cnt ca) ->
  returns (bictcp_update cubic_registered E ca cwnd) (fun ca' => wf_bictcp ca'
    /\ 1 <= cnt ca' /\ delay_min ca' = delay_min ca /\ delayed_ack ca' = delayed_ack ca).
Proof.
  intros Hwf HE Hc Hdm Hcnt. unfold bictcp_update. cbn -[Z.mul bictcp_t bictcp_target].
  assert (Hwf1 : wf_bictcp (ca <| ack_cnt := ack_cnt ca ⊕ 1 |>)) by wf_bictcp_tac.
  case_cond; cbn -[Z.mul bictcp_t bictcp_target].
  { apply andb_true_iff in Hc0 as [Hl _]. split; [done|]. split; [apply Hcnt; lia|done]. }
  clear Hcnt Hc0.
  c_bind (fun ca' => wf_bictcp ca' /\ delay_min ca' = delay_min ca
    /\ delayed_ack ca' = delayed_ack ca).
  { eapply returns_mono; [apply bictcp_epoch_returns; [|done|lia]|].
    - destruct HE. wf_bictcp_tac; lia.
    - cbn. tauto. }
  clear Hwf1. intros ca1 (Hwf1 & Hdm1 & Hda1). rewrite <- Hda1, <- Hdm1 in *. clear Hdm1 Hda1 Hwf ca.
  set (t := bictcp_t E ca1). set (target := bictcp_target _ ca1 t).
  c_bind (fun z => in_u32 z).
  { case_cond; cbn; [|apply u32_range].
    assert (Ht : in_u32 target) by (unfold target, bictcp_target; case_cond; apply u32_range).
    rewrite u32_sub_id, udiv_ok by lia. cbn. split; [apply Z.div_pos; lia|].
    apply Z.div_lt_upper_bound; nia. }
  clearbody t target. intros cnt0 Hcnt0.
  c_bind (fun ca' => wf_bictcp ca' /\ delay_min ca' = delay_min ca1
    /\ delayed_ack ca' = delayed_ack ca1).
  { cbn -[Z.mul]. case_cond; [|split; [wf_bictcp_tac|done]].
    change (10 * 16) with 160. rewrite udiv_ok by (destruct Hwf1; c_lia). cbn -[Z.mul].
    assert (in_u32 (cwnd ⊗ HZ ⊗ 8 / (160 ⊗ delay_min ca1))).
    { pose proof (u32_range (cwnd ⊗ HZ * 8)) as Hn. pose proof (u32_range (160 * delay_min ca1)) as Hd.
      revert Hn Hd. generalize (cwnd ⊗ HZ ⊗ 8) (160 ⊗ delay_min ca1). intros x y Hx Hy.
      split; [apply Z_div_nonneg_nonneg; lia|].
      destruct (Z.eq_dec y 0) as [->|]; [rewrite Z.div_0_r; lia|]. apply Z.div_lt_upper_bound; nia. }
    case_cond; cbn -[Z.mul]; (split; [wf_bictcp_tac|done]). }
  intros ca2 (Hwf2 & <- & <-). clear Hwf1 Hcnt0 cnt0 Hdm ca1.
  set (ca3 := if loss_cwnd ca2 =? 0 then _ else _).
  assert (wf_bictcp ca3 /\ delay_min ca3 = delay_min ca2 /\ delayed_ack ca3 = delayed_ack ca2)
    as (Hwf3 & <- & <-).
  { subst ca3. case_cond; cbn; (split; [wf_bictcp_tac; lia|done]). }
  c_bind (fun ca' => wf_bictcp ca' /\ delay_min ca' = delay_min ca3
    /\ delayed_ack ca' = delayed_ack ca3).
  { eapply returns_mono; [apply bictcp_friendliness_returns; [done|lia|cbn; lia]|]. tauto. }
  intros ca4 (Hwf4 & <- & <-). clear -Hwf4.
  rewrite udiv_ok by (destruct Hwf4; lia). cbn.
  pose proof (u32_range (cnt ca4 ≪ ACK_RATIO_SHIFT)) as Hn. revert Hn.
  generalize (u32 (cnt ca4 ≪ ACK_RATIO_SHIFT)). intros x Hx.
  assert (in_u32 (x / delayed_ack ca4)).
  { destruct Hwf4. split; [apply Z.div_pos; lia|]. apply Z.div_lt_upper_bound; lia. }
  destruct (Z.eqb_spec (x / delayed_ack ca4) 0); cbn; (split; [wf_bictcp_tac; lia|lia]).
Qed.

Lemma bictcp_reset_inv ca : cubic_inv (bictcp_reset ca).
Proof. constructor; [apply bictcp_reset_wf|by left|cbn; lia]. Qed.

Lemma measure_delay_inv E sk ca :
  cubic_inv ca -> tcp_time_stamp E ⊖ rcv_tsecr (rx_opt sk) < 16777216 ->
  cubic_inv (measure_delay E sk ca).
Proof.
  intros [Hwf Hcnt Hd] Hs. unfold measure_delay. case_cond; [done|].
  set (dl := if _ =? 0 then 1 else _).
  pose proof (u32_range (tcp_time_stamp E - rcv_tsecr (rx_opt sk))).
  assert (Hdl : 1 <= dl < 134217728).
  { subst dl. rewrite Z.shiftl_mul_pow2, u32_id by lia. case_cond; lia. }
  clearbody dl. case_cond; [|done]. constructor; cbn; [|done|lia]. wf_bictcp_tac. lia.
Qed.

Lemma bictcp_update_inv E ca cwnd :
  cubic_inv ca -> wf_env E -> 1 <= cwnd < 134217728 ->
  returns (bictcp_update cubic_registered E ca cwnd)
    (fun ca' => cubic_inv ca' /\ 1 <= cnt ca' /\ delayed_ack ca' = delayed_ack ca).
Proof.
  intros [Hwf Hcnt Hd] HE Hc.
  eapply returns_mono; [apply bictcp_update_returns; try done; lia|].
  intros ca' (? & ? & ? & ?). split; [constructor; [done|by right|lia]|done].
Qed.

Lemma bictcp_cong_avoid_returns E sk ca ack rtt in_flight flag :
  wf_sock sk -> wf_env E -> cubic_inv ca -> 1 <= snd_cwnd sk < 134217728 ->
  tcp_time_stamp E ⊖ rcv_tsecr (rx_opt sk) < 16777216 ->
  returns (bictcp_cong_avoid cubic_registered E sk ca ack rtt in_flight flag)
    (fun '(sk', ca') => cwnd_opened sk sk' /\ cubic_inv ca'
      /\ delayed_ack ca' = delayed_ack ca).
Proof.
  intros Hsk HE Hca Hw Hs. unfold bictcp_cong_avoid.
  set (ca1 := if nz flag then _ else _).
  assert (Hca1 : cubic_inv ca1 /\ delayed_ack ca1 = delayed_ack ca).
  { subst ca1. case_cond; [|done]. split; [by apply measure_delay_inv|].
    unfold measure_delay. by repeat case_cond. }
  destruct Hca1 as [Hca1 <-].
  case_cond; [cbn; auto using cwnd_opened_refl|]. case_cond.
  - c_bind (cwnd_opened sk); [apply tcp_slow_start_opens; [done|lia]|]. cbn. auto.
  - c_bind (fun ca' => cubic_inv ca' /\ 1 <= cnt ca' /\ delayed_ack ca' = delayed_ack ca1).
    { by apply bictcp_update_inv. }
    intros ca' (? & ? & ?). cbn. auto using cwnd_ai_opens.
Qed.

Lemma bictcp_acked_inv C sk ca n :
  delayed_ack_inv C ca -> 0 <= n <= C -> C < 134217728 ->
  delayed_ack_inv C (bictcp_acked sk ca n).
Proof.
  intros [Hwf Hd] Hn HC. unfold bictcp_acked. case_cond; [|done].
  pose proof (wf_delayed_ack _ Hwf) as Hd1.
  rewrite (Z.shiftr_div_pow2 _ 4) by (unfold ACK_RATIO_SHIFT; lia). change (2 ^ 4) with 16.
  assert (E : delayed_ack ca ⊕ (n ⊖ delayed_ack ca / 16)
    = delayed_ack ca - delayed_ack ca / 16 + n) by c_lia.
  cbv zeta. rewrite E. split; [|cbn; Z.div_mod_to_equations; lia].
  wf_bictcp_tac. Z.div_mod_to_equations; lia.
Qed.

(** ** The cubic curve *)

Lemma cubic_curve_mono origin d1 d2 :
  d1 <= d2 -> cubic_curve origin d1 <= cubic_curve origin d2.
Proof.
  intros H. unfold cubic_curve. change (2 ^ 40) with 1099511627776.
  assert (Hm : forall x y, x <= y -> 410 * x ^ 3 / 1099511627776 <= 410 * y ^ 3 / 1099511627776).
  { intros x y Hxy. pose proof (cube_mono x y Hxy). apply Z.div_le_mono; lia. }
  assert (H0 : 410 * 0 ^ 3 / 1099511627776 = 0) by done.
  destruct (Z.ltb_spec d1 0), (Z.ltb_spec d2 0); try lia.
  - pose proof (Hm (- d2) (- d1)). lia.
  - pose proof (Hm 0 (- d1)). pose proof (Hm 0 d2). lia.
  - pose proof (Hm d1 d2). lia.
Qed.

(** Below the bound the 64-bit products do not wrap. *)
Lemma cube_delta_exact offs :
  0 <= offs <= offs_max ->
  u64 (u64 (u64 (410 * offs) * offs) * offs) ≫ 40 = 410 * offs ^ 3 / 2 ^ 40
  /\ 0 <= 410 * offs ^ 3 / 2 ^ 40 < 16777216.
Proof.
  unfold offs_max. intros Ho.
  assert (Ho2 : 0 <= offs * offs <= 355668 * 355668)
    by (split; [nia|apply Z.mul_le_mono_nonneg; lia]).
  assert (Ho3 : 0 <= offs * offs * offs <= 355668 * 355668 * 355668)
    by (split; [nia|apply Z.mul_le_mono_nonneg; lia]).
  assert (E : offs ^ 3 = offs * offs * offs) by ring.
  rewrite (u64_id (410 * offs)), (u64_id (410 * offs * offs)), u64_id by lia.
  rewrite Z.shiftr_div_pow2, E by lia. change (2 ^ 40) with 1099511627776.
  split; [f_equal; ring|]. Z.div_mod_to_equations; lia.
Qed.

Lemma bictcp_target_curve ca t :
  wf_bictcp ca -> in_u32 t -> Z.abs (t - bic_K ca) <= offs_max ->
  bictcp_target cubic_registered ca t = u32 (cubic_curve (bic_origin_point ca) (t - bic_K ca)).
Proof.
  intros Hwf Ht Ho. destruct Hwf. unfold bictcp_target, cubic_curve.
  destruct (Z.ltb_spec t (bic_K ca)), (Z.ltb_spec (t - bic_K ca) 0); try lia;
    [rewrite (u32_sub_id (bic_K ca) t) by lia|rewrite (u32_sub_id t (bic_K ca)) by lia];
    change (10 + 3 * BICTCP_HZ) with 40; change (cube_rtt_scale _) with 410.
  - replace (- (t - bic_K ca)) with (bic_K ca - t) by lia.
    destruct (cube_delta_exact (bic_K ca - t)) as [-> Hr]; [lia|]. by rewrite (u32_id (_ / _)) by lia.
  - destruct (cube_delta_exact (t - bic_K ca)) as [-> Hr]; [lia|]. by rewrite (u32_id (_ / _)) by lia.
Qed.

Lemma cubic_curve_0 origin : cubic_curve origin 0 = origin.
Proof. unfold cubic_curve. change (410 * 0 ^ 3 / 2 ^ 40) with 0. cbn. lia. Qed.

Lemma cubic_curve_bound origin d :
  Z.abs d <= offs_max -> cubic_curve origin d < origin + 16777216.
Proof.
  intros Hd. unfold cubic_curve. destruct (Z.ltb_spec d 0).
  - pose proof (cube_delta_exact (- d) ltac:(lia)). lia.
  - pose proof (cube_delta_exact d ltac:(lia)). lia.
Qed.

(** The start of an epoch after a loss: [bic_K] is such that the curve starts
    at the current window. *)
Lemma cubic_start_exact D k :
  1 <= D < 8388608 -> 0 <= k -> is_cube_root (2681735677 * D) k ->
  k <= offs_max /\ Z.abs (410 * k ^ 3 / 2 ^ 40 - D) <= D / 100 + 1.
Proof.
  intros HD Hk [Hlo Hhi]. unfold offs_max.
  assert (Hk1 : 1386 <= k).
  { apply Z.nlt_ge. intros Hlt.
    pose proof (cube_mono (500 * (k + 1)) (500 * 1386) ltac:(lia)). lia. }
  assert (Hk2 : k <= 355668).
  { apply Z.nlt_ge. intros Hlt.
    pose proof (cube_mono (500 * 355668) (500 * (k - 1)) ltac:(lia)). lia. }
  split; [done|].
  pose proof (cube_mono (1385 * k) (1386 * (k - 1)) ltac:(lia)) as H1.
  pose proof (cube_mono (1386 * (k + 1)) (1387 * k) ltac:(lia)) as H2.
  rewrite !Z.pow_mul_l in *. change (2 ^ 40) with 1099511627776.
  revert Hlo Hhi H1 H2. generalize (k ^ 3) ((k - 1) ^ 3) ((k + 1) ^ 3). intros x y z Hlo Hhi H1 H2.
  assert (410 * x <= 1099511627776 * D + 10995116277 * D) by lia.
  assert (1099511627776 * D - 10995116277 * D <= 410 * x) by lia.
  Z.div_mod_to_equations; lia.
Qed.

(** * Properties *)

(** In every state the module can be in (the [cubic_inv] the callbacks
    keep), with a window between 1 and 2^27 and an RTT sample below 4.6 hours,
    an acknowledgement is processed without a trap (no division by zero, no
    endless TCP-friendly loop, no bad table index); only the window, its
    counter and the byte count of the socket change, the window opens by the
    slow-start rule or by at most one segment and never past the clamp, and the
    invariant is kept. *)
Theorem bictcp_cong_avoid_safe E sk ca ack rtt in_flight flag :
  wf_sock sk -> wf_env E -> cubic_inv ca -> 1 <= snd_cwnd sk < 134217728 ->
  tcp_time_stamp E ⊖ rcv_tsecr (rx_opt sk) < 16777216 ->
  exists sk' ca',
    bictcp_cong_avoid cubic_registered E sk ca ack rtt in_flight flag = Ok (sk', ca')
    /\ cwnd_opened sk sk' /\ cubic_inv ca' /\ delayed_ack ca' = delayed_ack ca.
Proof.
  intros Hsk HE Hca Hw Hs.
  pose proof (bictcp_cong_avoid_returns E sk ca ack rtt in_flight flag Hsk HE Hca Hw Hs) as H.
  apply returns_inv in H as ([sk' ca'] & -> & H). by exists sk', ca'.
Qed.

Lemma cubic_ex_inv : cubic_inv cubic_ex.
Proof.
  constructor; [|by left|cbn; lia]. constructor; cbn; try lia.
  change (2 ≪ ACK_RATIO_SHIFT) with 32. lia.
Qed.

Lemma bictcp_cong_avoid_safe_witness :
  let sk := sk_ex <| snd_cwnd := 300 |> in
  exists sk' ca', bictcp_cong_avoid cubic_registered env_ex sk cubic_ex 0 0 400 1 = Ok (sk', ca')
    /\ cwnd_opened sk sk' /\ cubic_inv ca' /\ delayed_ack ca' = delayed_ack cubic_ex.
Proof.
  intros sk. apply bictcp_cong_avoid_safe; [|exact wf_env_ex|exact cubic_ex_inv|cbn; lia|by vm_compute].
  constructor; cbn; lia.
Defined.

(** C37: within 347 seconds of the plateau, and as long as the curve is not
    negative, the target of the window is exactly the cubic function of the
    time; it never decreases, it is at most the plateau up to time [bic_K] and
    at least the plateau from there. *)
Theorem bictcp_target_cubic ca t1 t2 :
  wf_bictcp ca -> in_u32 t1 -> in_u32 t2 -> t1 <= t2 ->
  Z.abs (t1 - bic_K ca) <= offs_max -> Z.abs (t2 - bic_K ca) <= offs_max ->
  bic_origin_point ca < 2147483648 ->
  0 <= cubic_curve (bic_origin_point ca) (t1 - bic_K ca) ->
  let target := bictcp_target cubic_registered ca in
  target t1 = cubic_curve (bic_origin_point ca) (t1 - bic_K ca)
  /\ target t1 <= target t2
  /\ (t1 <= bic_K ca <= t2 -> target t1 <= bic_origin_point ca <= target t2).
Proof.
  intros Hwf H1 H2 H12 Hb1 Hb2 Ho H0 target. subst target. rewrite !bictcp_target_curve by done.
  pose proof (cubic_curve_mono (bic_origin_point ca) (t1 - bic_K ca) (t2 - bic_K ca) ltac:(lia)).
  pose proof (cubic_curve_bound (bic_origin_point ca) (t2 - bic_K ca) Hb2).
  rewrite !u32_id by lia. split; [done|]. split; [done|]. intros Hk.
  pose proof (cubic_curve_mono (bic_origin_point ca) (t1 - bic_K ca) 0 ltac:(lia)).
  pose proof (cubic_curve_mono (bic_origin_point ca) 0 (t2 - bic_K ca) ltac:(lia)).
  rewrite cubic_curve_0 in *. lia.
Qed.

Lemma bictcp_target_cubic_witness :
  let ca := cubic_ex <| bic_K := 5000 |> <| bic_origin_point := 400 |> in
  let target := bictcp_target cubic_registered ca in
  target 2000 = cubic_curve 400 (2000 - 5000) /\ target 2000 <= target 9000
  /\ (2000 <= 5000 <= 9000 -> target 2000 <= 400 <= target 9000).
Proof.
  intros ca. apply (bictcp_target_cubic ca 2000 9000); try (cbn; lia); by vm_compute.
Defined.

(** The source says that the code has no overflow for windows below one
    million, but the products depend on the time and not on the window, which
    the clamp may hold low: 347 s after a plateau of 400 segments the target is
    over 16 million segments, and 1/1024 s later the 64-bit product wraps and
    the target falls to 484. *)
Theorem bictcp_target_wraps :
  let ca := cubic_ex <| bic_K := 5000 |> <| bic_origin_point := 400 |> in
  bictcp_target cubic_registered ca (5000 + offs_max) = 16777558
  /\ bictcp_target cubic_registered ca (5000 + offs_max + 1) = 484
  /\ cubic_curve 400 (offs_max + 1) = 16777700.
Proof. by vm_compute. Qed.

(** At the start of an epoch below the last maximum, less than 2^23
    segments away from it, [bic_K] is computed without a trap and is such that
    the curve starts, up to 1% of the distance and 2 segments, at the current
    window. *)
Theorem bictcp_epoch_starts_at_window E ca cwnd :
  wf_bictcp ca -> epoch_start ca = 0 -> 0 <= cwnd -> last_max_cwnd ca < 2147483648 ->
  1 <= last_max_cwnd ca - cwnd < 8388608 ->
  exists ca', bictcp_epoch cubic_registered E ca cwnd = Ok ca'
    /\ epoch_start ca' = tcp_time_stamp E /\ ack_cnt ca' = 1 /\ tcp_cwnd ca' = cwnd
    /\ bic_origin_point ca' = last_max_cwnd ca
    /\ Z.abs (cubic_curve (bic_origin_point ca') (- bic_K ca') - cwnd)
        <= (last_max_cwnd ca - cwnd) / 100 + 1.
Proof.
  intros Hwf He Hc Hm HD. unfold bictcp_epoch. rewrite He. cbn.
  destruct (Z.leb_spec (last_max_cwnd ca) cwnd); [lia|].
  rewrite u32_sub_id, u64_id by (cbn; lia).
  pose proof (cubic_root_returns (2681735677 * (last_max_cwnd ca - cwnd)) ltac:(lia)) as Hr.
  apply returns_inv in Hr as (k & -> & Hk & Hr).
  destruct (cubic_start_exact _ k HD Hk Hr) as [Hko Habs]. cbn.
  eexists. split; [done|]. cbn. do 4 (split; [done|]).
  unfold cubic_curve. destruct (Z.ltb_spec (- k) 0).
  - replace (- - k) with k by lia. lia.
  - assert (k = 0) as -> by lia. change (410 * 0 ^ 3 / 2 ^ 40) with 0 in Habs.
    change (410 * (- 0) ^ 3 / 2 ^ 40) with 0. lia.
Qed.

Lemma bictcp_epoch_starts_at_window_witness :
  exists ca', bictcp_epoch cubic_registered env_ex cubic_ex 320 = Ok ca'
    /\ epoch_start ca' = tcp_time_stamp env_ex /\ ack_cnt ca' = 1 /\ tcp_cwnd ca' = 320
    /\ bic_origin_point ca' = last_max_cwnd cubic_ex
    /\ Z.abs (cubic_curve (bic_origin_point ca') (- bic_K ca') - 320)
        <= (last_max_cwnd cubic_ex - 320) / 100 + 1.
Proof.
  apply (bictcp_epoch_starts_at_window env_ex cubic_ex 320); [apply (ci_wf _ cubic_ex_inv)|by vm_compute|by vm_compute|by vm_compute|]; split; by vm_compute.
Defined.

(** A loss cuts the threshold to [819/1024] of the window, at least 2 and
    at most the window; the plateau of the next epoch is the window, or 90% of
    it when the window did not get back to the previous plateau; the epoch
    ends. *)
Theorem bictcp_recalc_ssthresh_correct sk ca :
  2 <= snd_cwnd sk < 2097152 ->
  exists th ca', bictcp_recalc_ssthresh cubic_registered sk ca = (th, ca')
    /\ 2 <= th <= snd_cwnd sk /\ th = Z.max 2 (snd_cwnd sk * 819 / 1024)
    /\ epoch_start ca' = 0 /\ loss_cwnd ca' = snd_cwnd sk
    /\ last_max_cwnd ca' =
        (if snd_cwnd sk <? last_max_cwnd ca then snd_cwnd sk * 1843 / 2048 else snd_cwnd sk)
    /\ last_max_cwnd ca' <= snd_cwnd sk.
Proof.
  intros Hw. unfold bictcp_recalc_ssthresh. cbn -[Z.mul Z.div Z.max].
  change (u32 (BICTCP_BETA_SCALE + 819)) with 1843. change (u32 819) with 819.
  change (2 * BICTCP_BETA_SCALE) with 2048. unfold BICTCP_BETA_SCALE.
  rewrite !u32_id, andb_true_r by lia. do 2 eexists. split; [done|].
  case_cond; cbn -[Z.mul Z.div Z.max]; Z.div_mod_to_equations; lia.
Qed.

Lemma bictcp_recalc_ssthresh_correct_witness :
  exists th ca', bictcp_recalc_ssthresh cubic_registered sk_ex cubic_ex = (th, ca')
    /\ 2 <= th <= snd_cwnd sk_ex /\ th = Z.max 2 (snd_cwnd sk_ex * 819 / 1024)
    /\ epoch_start ca' = 0 /\ loss_cwnd ca' = snd_cwnd sk_ex
    /\ last_max_cwnd ca' =
        (if snd_cwnd sk_ex <? last_max_cwnd cubic_ex then snd_cwnd sk_ex * 1843 / 2048
         else snd_cwnd sk_ex)
    /\ last_max_cwnd ca' <= snd_cwnd sk_ex.
Proof. apply bictcp_recalc_ssthresh_correct. cbn. lia. Defined.
