(* ===== verification/Bic.v ===== *)
(** BIC (tcp_bic.c): after a loss the window is searched for by halving the
    distance to the last maximum, then probes past it. *)
From S2P Require Import Sock LinuxC Reno.

(** * Definitions *)

Definition BICTCP_BETA_SCALE : Z := 1024.
Definition BICTCP_B : Z := 4.
Definition ACK_RATIO_SHIFT : Z := 4.

Record bic_params := mk_bic_params {
  fast_convergence : Z;       (* int, as all the parameters *)
  max_increment : Z;
  low_window : Z;
  beta : Z;
  initial_ssthresh : Z;
  smooth_part : Z;
}.

Definition bic_defaults : bic_params := {|
  fast_convergence := 1; max_increment := 16; low_window := 14; beta := 819;
  initial_ssthresh := 0; smooth_part := 20 |}.

Record bictcp := mk_bictcp {
  cnt : Z;                    (* u32, as all the fields *)
  last_max_cwnd : Z;
  loss_cwnd : Z;
  last_cwnd : Z;
  last_time : Z;
  epoch_start : Z;
  delayed_ack : Z;
}.
#[global] Instance eta_bictcp : Eta bictcp := fun r =>
  mk_bictcp (cnt r) (last_max_cwnd r) (loss_cwnd r) (last_cwnd r) (last_time r)
    (epoch_start r) (delayed_ack r).

Definition bictcp_reset (ca : bictcp) : bictcp := {|
  cnt := 0; last_max_cwnd := 0; loss_cwnd := 0; last_cwnd := 0; last_time := 0;
  epoch_start := 0; delayed_ack := 2 ≪ ACK_RATIO_SHIFT |}.

Definition bictcp_init (g : bic_params) (sk : tcp_sock) (ca : bictcp) : tcp_sock * bictcp :=
  (if nz (initial_ssthresh g)
   then sk <| snd_ssthresh := u32 (initial_ssthresh g) |> else sk,
   bictcp_reset ca).

(** The number of acknowledgements per segment of increase, for a window above
    [low_window]. *)
Definition bictcp_search (g : bic_params) (ca : bictcp) (cwnd : Z) : outcome Z :=
  if cwnd <? last_max_cwnd ca then
    let dist := (last_max_cwnd ca ⊖ cwnd) / BICTCP_B in
    if u32 (max_increment g) <? dist then udiv cwnd (u32 (max_increment g))
    else if dist <=? 1 then Ok (cwnd ⊗ u32 (smooth_part g) / BICTCP_B)
    else udiv cwnd dist
  else if cwnd <? last_max_cwnd ca ⊕ BICTCP_B then
    Ok (cwnd ⊗ u32 (smooth_part g) / BICTCP_B)
  else if cwnd <? last_max_cwnd ca ⊕ max_increment g * (BICTCP_B - 1) then
    udiv (cwnd ⊗ (BICTCP_B - 1)) (cwnd ⊖ last_max_cwnd ca)
  else udiv cwnd (u32 (max_increment g)).

Definition bictcp_update (g : bic_params) (E : env) (ca : bictcp) (cwnd : Z) : outcome bictcp :=
  if (last_cwnd ca =? cwnd)
     && (s32 (tcp_time_stamp E ⊖ last_time ca) <=? Z.quot HZ 32) then Ok ca
  else
    let ca := ca <| last_cwnd := cwnd |> <| last_time := tcp_time_stamp E |> in
    let ca := if epoch_start ca =? 0 then ca <| epoch_start := tcp_time_stamp E |> else ca in
    if cwnd <=? u32 (low_window g) then Ok (ca <| cnt := cwnd |>)
    else
      c ← bictcp_search g ca cwnd;
      let c := if loss_cwnd ca =? 0 then (if 20 <? c then 20 else c) else c in
      c ← udiv (u32 (c ≪ ACK_RATIO_SHIFT)) (delayed_ack ca);
      Ok (ca <| cnt := if c =? 0 then 1 else c |>).

Definition bictcp_cong_avoid (g : bic_params) (E : env) (sk : tcp_sock) (ca : bictcp)
  (ack seq_rtt in_flight data_acked : Z) : outcome (tcp_sock * bictcp) :=
  if negb (tcp_is_cwnd_limited sk in_flight) then Ok (sk, ca)
  else if snd_cwnd sk <=? snd_ssthresh sk then
    sk ← tcp_slow_start E sk; Ok (sk, ca)
  else
    ca ← bictcp_update g E ca (snd_cwnd sk);
    Ok (cwnd_ai sk (cnt ca), ca).

Definition bictcp_recalc_ssthresh (g : bic_params) (sk : tcp_sock) (ca : bictcp) : Z * bictcp :=
  let ca := ca <| epoch_start := 0 |> in
  let ca :=
    if (snd_cwnd sk <? last_max_cwnd ca) && nz (fast_convergence g)
    then ca <| last_max_cwnd :=
           snd_cwnd sk ⊗ u32 (BICTCP_BETA_SCALE + beta g) / (2 * BICTCP_BETA_SCALE) |>
    else ca <| last_max_cwnd := snd_cwnd sk |> in
  let ca := ca <| loss_cwnd := snd_cwnd sk |> in
  (if snd_cwnd sk <=? u32 (low_window g) then Z.max (snd_cwnd sk ≫ 1) 2
   else Z.max (snd_cwnd sk ⊗ u32 (beta g) / BICTCP_BETA_SCALE) 2, ca).

Definition bictcp_undo_cwnd (sk : tcp_sock) (ca : bictcp) : Z :=
  Z.max (snd_cwnd sk) (last_max_cwnd ca).

Definition bictcp_state (ca : bictcp) (new_state : tcp_ca_state) : bictcp :=
  if decide (new_state = TCP_CA_Loss) then bictcp_reset ca else ca.

Definition bictcp_acked (sk : tcp_sock) (ca : bictcp) (cnt_ : Z) : bictcp :=
  if (0 <? cnt_) && bool_decide (icsk_ca_state sk = TCP_CA_Open) then
    let cnt_ := cnt_ ⊖ delayed_ack ca ≫ ACK_RATIO_SHIFT in
    ca <| delayed_ack := delayed_ack ca ⊕ cnt_ |>
  else ca.

Definition bictcp_ops (g : bic_params) : tcp_congestion_ops bictcp := {|
  ops_name := "bic";
  ops_flags := 0;
  ops_init := Some (fun _ sk ca => Ok (bictcp_init g sk ca));
  ops_ssthresh := fun _ sk ca => Ok (bictcp_recalc_ssthresh g sk ca);
  ops_cong_avoid := fun E sk ca ack rtt in_flight flag =>
    bictcp_cong_avoid g E sk ca ack rtt in_flight flag;
  ops_min_cwnd := None;
  ops_rtt_sample := None;
  ops_set_state := Some (fun _ _ ca st => Ok (bictcp_state ca st));
  ops_cwnd_event := None;
  ops_undo_cwnd := Some (fun _ sk ca => Ok (bictcp_undo_cwnd sk ca, ca));
  ops_pkts_acked := Some (fun _ sk ca n _ => Ok (sk, bictcp_acked sk ca n));
|}.

(** ** Invariant and specification *)

Record bic_inv (ca : bictcp) : Prop := mk_bic_inv {
  bi_cnt : in_u32 (cnt ca);
  bi_last_max_cwnd : in_u32 (last_max_cwnd ca);
  bi_loss_cwnd : in_u32 (loss_cwnd ca);
  bi_last_cwnd : in_u32 (last_cwnd ca);
  bi_last_time : in_u32 (last_time ca);
  bi_epoch_start : in_u32 (epoch_start ca);
  bi_delayed_ack : 16 <= delayed_ack ca < 4294967296;
  bi_usable : last_cwnd ca = 0 \/ 1 <= cnt ca;
}.

(** The increase of the BIC paper as a function of the distance [d] to the last
    maximum, negative beyond it: the number of acknowledgements per segment. *)
Definition bic_search_spec (cwnd d : Z) : Z :=
  if 68 <=? d then cwnd / 16
  else if 8 <=? d then cwnd / (d / 4)
  else if -4 <? d then 5 * cwnd
  else if -48 <? d then 3 * cwnd / (- d)
  else cwnd / 16.

(** A state after a loss at 1000 segments. *)
Definition bic_ex : bictcp :=
  mk_bictcp 1 1000 1000 900 0 0 32.

(** * Lemmas *)

Ltac bic_inv_tac :=
  match goal with
  | H : bic_inv _ |- bic_inv _ => destruct H; constructor; cbn; eauto with cint
  end.

Lemma bic_reset_inv ca : bic_inv (bictcp_reset ca).
Proof.
  constructor; cbn; try lia. change (2 ≪ ACK_RATIO_SHIFT) with 32. lia.
Qed.

Lemma bictcp_search_exact ca cwnd :
  in_u32 (last_max_cwnd ca) -> 15 <= cwnd < 134217728 -> last_max_cwnd ca < 2147483648 ->
  bictcp_search bic_defaults ca cwnd = Ok (bic_search_spec cwnd (last_max_cwnd ca - cwnd)).
Proof.
  intros Hm Hc Hm2. unfold bictcp_search, bic_search_spec, BICTCP_B. cbn -[Z.mul Z.div].
  change (u32 16) with 16. change (u32 20) with 20. change (16 * (4 - 1)) with 48.
  rewrite !(u32_id (last_max_cwnd ca + _)) by lia.
  rewrite (u32_id (cwnd * 20)), (u32_id (cwnd * (4 - 1))) by lia.
  destruct (Z.ltb_spec cwnd (last_max_cwnd ca)).
  - rewrite u32_sub_id by lia. set (d := last_max_cwnd ca - cwnd) in *.
    destruct (Z.leb_spec 68 d), (Z.ltb_spec 16 (d / 4)); try (Z.div_mod_to_equations; lia).
    + by rewrite udiv_ok by lia.
    + destruct (Z.leb_spec 8 d), (Z.leb_spec (d / 4) 1); try (Z.div_mod_to_equations; lia).
      * by rewrite udiv_ok by lia.
      * destruct (Z.ltb_spec (-4) d); [|lia]. f_equal. Z.div_mod_to_equations; lia.
  - rewrite u32_sub_id by lia.
    destruct (Z.leb_spec 68 (last_max_cwnd ca - cwnd)); [lia|].
    destruct (Z.leb_spec 8 (last_max_cwnd ca - cwnd)); [lia|].
    destruct (Z.ltb_spec cwnd (last_max_cwnd ca + 4)), (Z.ltb_spec (-4) (last_max_cwnd ca - cwnd));
      try lia; [f_equal; Z.div_mod_to_equations; lia|].
    destruct (Z.ltb_spec cwnd (last_max_cwnd ca + 48)), (Z.ltb_spec (-48) (last_max_cwnd ca - cwnd));
      try lia; rewrite udiv_ok by lia; [|done]. do 2 f_equal; lia.
Qed.

(** The increase is at most [max_increment] segments per window. *)
Lemma bic_search_spec_limit cwnd d :
  0 <= cwnd -> cwnd / 16 <= bic_search_spec cwnd d <= 5 * cwnd.
Proof.
  intros Hc. unfold bic_search_spec. assert (0 <= cwnd / 16 <= cwnd) by (Z.div_mod_to_equations; lia).
  repeat case_cond; try lia.
  - assert (Hd : 2 <= d / 4 <= 16) by (Z.div_mod_to_equations; lia). split.
    + apply Z.div_le_compat_l; lia.
    + transitivity cwnd; [apply Z.div_le_upper_bound; nia|lia].
  - split; [|apply Z.div_le_upper_bound; nia].
    apply Z.div_le_lower_bound; [lia|]. pose proof (Z.mul_div_le cwnd 16). nia.
Qed.

Lemma bictcp_search_returns ca cwnd :
  bic_inv ca -> 15 <= cwnd < 4294967296 ->
  returns (bictcp_search bic_defaults ca cwnd) (fun z => 0 <= z).
Proof.
  intros [] Hc. unfold bictcp_search, BICTCP_B. cbn -[Z.mul Z.div].
  change (u32 16) with 16. change (u32 20) with 20. change (16 * (4 - 1)) with 48.
  pose proof (u32_range (cwnd * 20)). pose proof (u32_range (cwnd * (4 - 1))).
  destruct (Z.ltb_spec cwnd (last_max_cwnd ca)).
  - rewrite u32_sub_id by lia. set (d := (last_max_cwnd ca - cwnd) / 4).
    repeat case_cond; rewrite ?udiv_ok by lia; cbn -[Z.div]; apply Z.div_pos; lia.
  - rewrite u32_sub_id by lia. destruct (Z.ltb_spec cwnd (last_max_cwnd ca ⊕ 4));
      [apply Z.div_pos; lia|].
    destruct (Z.ltb_spec cwnd (last_max_cwnd ca ⊕ 48)).
    + assert (cwnd <> last_max_cwnd ca) by c_lia. rewrite udiv_ok by lia. apply Z.div_pos; lia.
    + rewrite udiv_ok by lia. apply Z.div_pos; lia.
Qed.

Lemma bic_update_returns E ca cwnd :
  bic_inv ca -> wf_env E -> 1 <= cwnd < 4294967296 ->
  returns (bictcp_update bic_defaults E ca cwnd) (fun ca' => bic_inv ca' /\ 1 <= cnt ca').
Proof.
  intros Hca HE Hc. unfold bictcp_update. case_cond.
  { apply andb_true_iff in Hc0 as [Hl _]. cbn. split; [done|]. destruct Hca. lia. }
  set (ca1 := if epoch_start _ =? 0 then _ else _).
  assert (Hca1 : forall c, 1 <= c < 4294967296 -> bic_inv (ca1 <| cnt := c |>)).
  { intros c Hc1. subst ca1. destruct HE. cbn. case_cond; bic_inv_tac; lia. }
  assert (Hca2 : last_max_cwnd ca1 = last_max_cwnd ca /\ delayed_ack ca1 = delayed_ack ca).
  { subst ca1. cbn. by case_cond. }
  destruct Hca2 as [Hm Hd].
  assert (Hs : bictcp_search bic_defaults ca1 cwnd = bictcp_search bic_defaults ca cwnd).
  { unfold bictcp_search. by rewrite Hm. }
  clearbody ca1. change (u32 (low_window bic_defaults)) with 14.
  destruct (Z.leb_spec cwnd 14); [split; [apply Hca1; lia|cbn; lia]|].
  rewrite Hs. c_bind (fun z => 0 <= z); [apply bictcp_search_returns; [done|lia]|].
  intros c Hc1. set (c' := if loss_cwnd ca1 =? 0 then _ else _). rewrite Hd.
  rewrite udiv_ok by (destruct Hca; lia). cbn.
  pose proof (u32_range (c' ≪ ACK_RATIO_SHIFT)) as Hn.
  assert (in_u32 (u32 (c' ≪ ACK_RATIO_SHIFT) / delayed_ack ca)).
  { destruct Hca. split; [apply Z.div_pos; lia|apply Z.div_lt_upper_bound; lia]. }
  destruct (Z.eqb_spec (u32 (c' ≪ ACK_RATIO_SHIFT) / delayed_ack ca) 0);
    (split; [apply Hca1; lia|cbn; lia]).
Qed.

Lemma bic_cong_avoid_returns E sk ca ack rtt in_flight flag :
  wf_sock sk -> wf_env E -> bic_inv ca -> 1 <= snd_cwnd sk ->
  returns (bictcp_cong_avoid bic_defaults E sk ca ack rtt in_flight flag)
    (fun '(sk', ca') => cwnd_opened sk sk' /\ bic_inv ca').
Proof.
  intros Hsk HE Hca Hw. unfold bictcp_cong_avoid. case_cond; [cbn; auto using cwnd_opened_refl|].
  case_cond.
  - c_bind (cwnd_opened sk); [apply tcp_slow_start_opens; [done|lia]|]. cbn. auto.
  - c_bind (fun ca' => bic_inv ca' /\ 1 <= cnt ca').
    { apply bic_update_returns; [done..|]. destruct Hsk; lia. }
    intros ca' [? ?]. cbn. auto using cwnd_ai_opens.
Qed.

Lemma bictcp_recalc_ssthresh_inv sk ca :
  wf_sock sk -> bic_inv ca -> bic_inv (bictcp_recalc_ssthresh bic_defaults sk ca).2.
Proof.
  intros [] []. unfold bictcp_recalc_ssthresh. cbn -[Z.mul Z.div].
  pose proof (u32_range (snd_cwnd sk * u32 (BICTCP_BETA_SCALE + 819))).
  assert (in_u32 (snd_cwnd sk ⊗ u32 (BICTCP_BETA_SCALE + 819) / (2 * BICTCP_BETA_SCALE))).
  { unfold BICTCP_BETA_SCALE in *. Z.div_mod_to_equations; lia. }
  case_cond; constructor; cbn -[Z.mul Z.div]; done || lia.
Qed.

Lemma bic_acked_inv sk ca n :
  bic_inv ca -> 0 <= n < 134217728 -> delayed_ack ca < 2147483648 ->
  bic_inv (bictcp_acked sk ca n).
Proof.
  intros Hca Hn Hd. unfold bictcp_acked. case_cond; [|done].
  rewrite (Z.shiftr_div_pow2 _ 4) by (unfold ACK_RATIO_SHIFT; lia). change (2 ^ 4) with 16.
  assert (E : delayed_ack ca ⊕ (n ⊖ delayed_ack ca / 16)
    = delayed_ack ca - delayed_ack ca / 16 + n) by (destruct Hca; c_lia).
  cbv zeta. rewrite E. pose proof (bi_delayed_ack _ Hca). bic_inv_tac. Z.div_mod_to_equations; lia.
Qed.

(** * Properties *)

(** The search performs, without a trap and without wrap-around, the
    increase of the BIC paper as a function of the distance to the last
    maximum: additive far from it, inverse to the distance close to it, slow at
    it, probing past it; never more than [max_increment] = 16 segments per
    window of acknowledgements, never less than one per five windows. *)
Theorem bictcp_search_correct ca cwnd :
  bic_inv ca -> 15 <= cwnd < 134217728 -> last_max_cwnd ca < 2147483648 ->
  bictcp_search bic_defaults ca cwnd = Ok (bic_search_spec cwnd (last_max_cwnd ca - cwnd))
  /\ cwnd / 16 <= bic_search_spec cwnd (last_max_cwnd ca - cwnd) <= 5 * cwnd.
Proof.
  intros [] Hc Hm. split; [by apply bictcp_search_exact|].
  apply bic_search_spec_limit. lia.
Qed.

Lemma bic_ex_inv : bic_inv bic_ex.
Proof. constructor; cbn; lia. Qed.

Lemma bictcp_search_correct_witness :
  bictcp_search bic_defaults bic_ex 960 = Ok (bic_search_spec 960 (1000 - 960))
  /\ 960 / 16 <= bic_search_spec 960 (1000 - 960) <= 5 * 960.
Proof. apply (bictcp_search_correct bic_ex); [apply bic_ex_inv|lia|cbn; lia]. Defined.

(** In every state the module can be in, with a window of at least one
    segment, an acknowledgement is processed without a trap; the window opens
    by the slow-start rule or by at most one segment and never past the clamp,
    nothing else of the socket but its counters changes, and the invariant is
    kept. *)
Theorem bic_cong_avoid_safe E sk ca ack rtt in_flight flag :
  wf_sock sk -> wf_env E -> bic_inv ca -> 1 <= snd_cwnd sk ->
  exists sk' ca',
    bictcp_cong_avoid bic_defaults E sk ca ack rtt in_flight flag = Ok (sk', ca')
    /\ cwnd_opened sk sk' /\ bic_inv ca'.
Proof.
  intros Hsk HE Hca Hw.
  pose proof (bic_cong_avoid_returns E sk ca ack rtt in_flight flag Hsk HE Hca Hw) as H.
  apply returns_inv in H as ([sk' ca'] & -> & H). by exists sk', ca'.
Qed.

Lemma bic_cong_avoid_safe_witness :
  let sk := sk_ex <| snd_cwnd := 960 |> in
  exists sk' ca', bictcp_cong_avoid bic_defaults env_ex sk bic_ex 0 0 1000 1 = Ok (sk', ca')
    /\ cwnd_opened sk sk' /\ bic_inv ca'.
Proof.
  intros sk. apply bic_cong_avoid_safe; [|exact wf_env_ex|exact bic_ex_inv|cbn; lia].
  constructor; cbn; lia.
Defined.
