(* ===== verification/Scalable.v ===== *)
(** Two small modules: Scalable TCP (tcp_scalable.c) and the tutorial's naive
    Reno (tcp_naivereno.c). *)
From S2P Require Import Sock Reno.

(** * Definitions *)

(** ** Scalable TCP *)

Definition TCP_SCALABLE_AI_CNT : Z := 50.
Definition TCP_SCALABLE_MD_SCALE : Z := 3.

Definition tcp_scalable_cong_avoid (E : env) (sk : tcp_sock) (ack rtt in_flight flag : Z)
  : outcome tcp_sock :=
  if negb (tcp_is_cwnd_limited sk in_flight) then Ok sk
  else if snd_cwnd sk <=? snd_ssthresh sk then tcp_slow_start E sk
  else
    let tp := sk <| snd_cwnd_cnt := snd_cwnd_cnt sk ⊕ 1 |> in
    Ok (if Z.min (snd_cwnd tp) TCP_SCALABLE_AI_CNT <? snd_cwnd_cnt tp then
          let tp := if snd_cwnd tp <? snd_cwnd_clamp tp
                    then tp <| snd_cwnd := snd_cwnd tp ⊕ 1 |> else tp in
          tp <| snd_cwnd_cnt := 0 |>
        else tp).

Definition tcp_scalable_ssthresh (sk : tcp_sock) : Z :=
  Z.max (snd_cwnd sk ⊖ snd_cwnd sk ≫ TCP_SCALABLE_MD_SCALE) 2.

Definition tcp_scalable : tcp_congestion_ops unit := {|
  ops_name := "scalable";
  ops_flags := 0;
  ops_init := None;
  ops_ssthresh := fun _ sk ca => Ok (tcp_scalable_ssthresh sk, ca);
  ops_cong_avoid := fun E sk ca ack rtt in_flight flag =>
    sk ← tcp_scalable_cong_avoid E sk ack rtt in_flight flag; Ok (sk, ca);
  ops_min_cwnd := Some (fun _ sk _ => Ok (tcp_reno_min_cwnd sk));
  ops_rtt_sample := None; ops_set_state := None; ops_cwnd_event := None;
  ops_undo_cwnd := None; ops_pkts_acked := None;
|}.

(** ** Naive Reno *)

Record naive_params := mk_naive_params {
  alpha : Z;                  (* int *)
  beta : Z;                   (* int *)
}.
Definition naive_defaults : naive_params := {| alpha := 1; beta := 2 |}.

Definition tcp_naive_reno_cong_avoid (g : naive_params) (tp : tcp_sock) : tcp_sock :=
  if snd_cwnd tp <? snd_ssthresh tp then tp <| snd_cwnd := snd_cwnd tp ⊕ 1 |>
  else if snd_cwnd tp <=? snd_cwnd_cnt tp then
    let tp := tp <| snd_cwnd := snd_cwnd tp ⊕ alpha g |> <| snd_cwnd_cnt := 0 |> in
    if snd_cwnd_clamp tp <? snd_cwnd tp then tp <| snd_cwnd := snd_cwnd_clamp tp |> else tp
  else tp <| snd_cwnd_cnt := snd_cwnd_cnt tp ⊕ 1 |>.

Definition tcp_naive_reno_ssthresh (g : naive_params) (tp : tcp_sock) : outcome Z :=
  q ← udiv (snd_cwnd tp) (u32 (beta g));
  let reduction := s32 q in
  Ok (Z.max (snd_cwnd tp ⊖ reduction) 2).

Definition tcp_naive_reno_min_cwnd (tp : tcp_sock) : Z := snd_ssthresh tp.

Definition tcp_naive_reno (g : naive_params) : tcp_congestion_ops unit := {|
  ops_name := "naive_reno";
  ops_flags := 0;
  ops_init := None;
  ops_ssthresh := fun _ sk ca => th ← tcp_naive_reno_ssthresh g sk; Ok (th, ca);
  ops_cong_avoid := fun _ sk ca _ _ _ _ => Ok (tcp_naive_reno_cong_avoid g sk, ca);
  ops_min_cwnd := Some (fun _ sk _ => Ok (tcp_naive_reno_min_cwnd sk));
  ops_rtt_sample := None; ops_set_state := None; ops_cwnd_event := None;
  ops_undo_cwnd := None; ops_pkts_acked := None;
|}.

(** * Lemmas *)

Lemma tcp_scalable_cong_avoid_opens E sk ack rtt in_flight flag :
  wf_sock sk -> 1 <= snd_cwnd sk ->
  returns (tcp_scalable_cong_avoid E sk ack rtt in_flight flag) (cwnd_opened sk).
Proof.
  intros Hwf Hw. unfold tcp_scalable_cong_avoid. case_cond; [by apply cwnd_opened_refl|].
  case_cond; [apply tcp_slow_start_opens; [done|lia]|]. cbn.
  pose proof (u32_range (snd_cwnd_cnt sk + 1)). destruct Hwf.
  repeat case_cond; cbn in *.
  - rewrite u32_id by lia. exists (snd_cwnd sk + 1), 0, (bytes_acked sk).
    split; [by destruct sk|lia].
  - exists (snd_cwnd sk), 0, (bytes_acked sk). split; [by destruct sk|lia].
  - exists (snd_cwnd sk), (snd_cwnd_cnt sk ⊕ 1), (bytes_acked sk). split; [by destruct sk|lia].
Qed.

Lemma naive_reno_step g sk :
  wf_sock sk -> 1 <= snd_cwnd sk -> 1 <= snd_cwnd_clamp sk < 2147483648 ->
  snd_ssthresh sk <= snd_cwnd_clamp sk -> 0 <= alpha g < 2147483648 ->
  snd_cwnd sk < 2147483648 ->
  window_step sk (tcp_naive_reno_cong_avoid g sk).
Proof.
  intros Hwf Hw Hcl Hth Ha Hw2. unfold tcp_naive_reno_cong_avoid.
  destruct (Z.ltb_spec (snd_cwnd sk) (snd_ssthresh sk)).
  - rewrite u32_id by lia.
    apply (window_step_to sk (snd_cwnd sk + 1) (snd_cwnd_cnt sk)); [done|lia|apply Hwf].
  - destruct (Z.leb_spec (snd_cwnd sk) (snd_cwnd_cnt sk)); cbn.
    + rewrite u32_id by lia. case_cond.
      * apply (window_step_to sk (snd_cwnd_clamp sk) 0); [done|lia|lia].
      * apply (window_step_to sk (snd_cwnd sk + alpha g) 0); [done|lia|lia].
    + apply (window_step_to sk (snd_cwnd sk) (snd_cwnd_cnt sk ⊕ 1)); [done|lia|apply u32_range].
Qed.

(** * Properties *)

(** Above the threshold a Scalable window grows by one segment every
    [min(cwnd, 50) + 1] acknowledgements, so by about 2% per round trip however
    large it is, and a loss removes one eighth of it. *)
Theorem scalable_growth E sk ack rtt flag in_flight :
  wf_sock sk -> snd_ssthresh sk < snd_cwnd sk < snd_cwnd_clamp sk ->
  snd_cwnd_cnt sk = 0 -> snd_cwnd sk <= in_flight ->
  c_iter (Z.to_nat (Z.min (snd_cwnd sk) 50 + 1))
    (fun sk => tcp_scalable_cong_avoid E sk ack rtt in_flight flag) sk
  = Ok (sk <| snd_cwnd := snd_cwnd sk + 1 |>)
  /\ tcp_scalable_ssthresh sk = Z.max (snd_cwnd sk - snd_cwnd sk / 8) 2.
Proof.
  intros Hwf Hw Hc0 Hf. pose proof (wf_snd_cwnd _ Hwf). split.
  2:{ unfold tcp_scalable_ssthresh, TCP_SCALABLE_MD_SCALE. rewrite Z.shiftr_div_pow2 by lia.
      change (2 ^ 3) with 8. rewrite u32_id by (Z.div_mod_to_equations; lia). done. }
  pose proof (wf_snd_cwnd_clamp _ Hwf).
  assert (Hcount : forall k, 0 <= Z.of_nat k <= Z.min (snd_cwnd sk) 50 ->
    c_iter k (fun sk => tcp_scalable_cong_avoid E sk ack rtt in_flight flag) sk =
    Ok (sk <| snd_cwnd_cnt := Z.of_nat k |>)).
  { intros k Hk. rewrite (c_iter_count _ (fun i => sk <| snd_cwnd_cnt := Z.of_nat i |>) k).
    - done.
    - destruct sk; cbn in *. by subst.
    - intros i Hi. unfold tcp_scalable_cong_avoid, tcp_is_cwnd_limited. cbn.
      destruct (Z.leb_spec (snd_cwnd sk) in_flight), (Z.leb_spec (snd_cwnd sk) (snd_ssthresh sk));
        try lia. cbn. rewrite u32_id by lia.
      destruct (Z.ltb_spec (Z.min (snd_cwnd sk) TCP_SCALABLE_AI_CNT) (Z.of_nat i + 1));
        [unfold TCP_SCALABLE_AI_CNT in *; lia|]. do 2 f_equal. lia. }
  replace (Z.to_nat (Z.min (snd_cwnd sk) 50 + 1)) with (Z.to_nat (Z.min (snd_cwnd sk) 50) + 1)%nat
    by lia.
  rewrite c_iter_add, Hcount by lia. cbn [mbind outcome_bind c_iter].
  unfold tcp_scalable_cong_avoid, tcp_is_cwnd_limited. cbn. rewrite Z2Nat.id, u32_id by lia.
  destruct (Z.leb_spec (snd_cwnd sk) in_flight), (Z.leb_spec (snd_cwnd sk) (snd_ssthresh sk));
    try lia. cbn. unfold TCP_SCALABLE_AI_CNT.
  destruct (Z.ltb_spec (Z.min (snd_cwnd sk) 50) (Z.min (snd_cwnd sk) 50 + 1)); [|lia].
  destruct (Z.ltb_spec (snd_cwnd sk) (snd_cwnd_clamp sk)); [|lia]. cbn.
  rewrite u32_id by lia. f_equal. destruct sk; cbn in *. by subst.
Qed.

Lemma scalable_growth_witness :
  let sk := sk_ex <| snd_cwnd := 200 |> <| snd_cwnd_cnt := 0 |> in
  c_iter (Z.to_nat (Z.min (snd_cwnd sk) 50 + 1))
    (fun sk => tcp_scalable_cong_avoid env_ex sk 0 0 500 0) sk
  = Ok (sk <| snd_cwnd := snd_cwnd sk + 1 |>)
  /\ tcp_scalable_ssthresh sk = Z.max (snd_cwnd sk - snd_cwnd sk / 8) 2.
Proof.
  intros sk. apply scalable_growth; cbn; try lia. constructor; cbn; lia.
Defined.
