(* ===== verification/HighSpeed.v ===== *)
(** HighSpeed TCP (tcp_highspeed.c): the AIMD parameters follow the window
    through the table of RFC 3649. *)
From stdpp Require Import list_numbers.
From S2P Require Import Sock Reno.

(** * Definitions *)

(** [hstcp_aimd_vals]: the largest window of the row and its decrease, scaled
    by 256. *)
Definition hstcp_aimd_vals : list (Z * Z) := [
  (38, 128); (118, 112); (221, 104); (347, 98); (495, 93); (663, 89);
  (851, 86); (1058, 83); (1284, 81); (1529, 78); (1793, 76); (2076, 74);
  (2378, 72); (2699, 71); (3039, 69); (3399, 68); (3778, 66); (4177, 65);
  (4596, 64); (5036, 62); (5497, 61); (5979, 60); (6483, 59); (7009, 58);
  (7558, 57); (8130, 56); (8726, 55); (9346, 54); (9991, 53); (10661, 52);
  (11358, 52); (12082, 51); (12834, 50); (13614, 49); (14424, 48); (15265, 48);
  (16137, 47); (17042, 46); (17981, 45); (18955, 45); (19965, 44); (21013, 43);
  (22101, 43); (23230, 42); (24402, 41); (25618, 41); (26881, 40); (28193, 39);
  (29557, 39); (30975, 38); (32450, 38); (33986, 37); (35586, 36); (37253, 36);
  (38992, 35); (40808, 35); (42707, 34); (44694, 33); (46776, 33); (48961, 32);
  (51258, 32); (53677, 31); (56230, 30); (58932, 30); (61799, 29); (64851, 28);
  (68113, 28); (71617, 27); (75401, 26); (79517, 26); (84035, 25); (89053, 24)].

Definition HSTCP_AIMD_MAX : Z := Z.of_nat (length hstcp_aimd_vals).

Definition aimd_cwnd (i : Z) : outcome Z := v ← aread hstcp_aimd_vals i; Ok v.1.
Definition aimd_md (i : Z) : outcome Z := v ← aread hstcp_aimd_vals i; Ok v.2.

Record hstcp := mk_hstcp { ai : Z (* u32 *) }.
#[global] Instance eta_hstcp : Eta hstcp := fun r => mk_hstcp (ai r).

Definition hstcp_init (sk : tcp_sock) (ca : hstcp) : tcp_sock * hstcp :=
  (sk <| snd_cwnd_clamp := Z.min (snd_cwnd_clamp sk) (4294967295 / 128) |>,
   ca <| ai := 0 |>).

(** [while (cwnd > aimd[ai].cwnd && ai < HSTCP_AIMD_MAX - 1) ai++] *)
Definition hstcp_raise (cwnd : Z) (ca : hstcp) : outcome hstcp :=
  c_whilem (fun ca => lim ← aimd_cwnd (ai ca);
                      Ok ((lim <? cwnd) && (ai ca <? HSTCP_AIMD_MAX - 1)))
    (fun ca => Ok (ca <| ai := ai ca ⊕ 1 |>)) ca.

(** [while (ai && cwnd <= aimd[ai-1].cwnd) ai--] *)
Definition hstcp_lower (cwnd : Z) (ca : hstcp) : outcome hstcp :=
  c_whilem (fun ca => if nz (ai ca)
                      then lim ← aimd_cwnd (ai ca ⊖ 1); Ok (cwnd <=? lim)
                      else Ok false)
    (fun ca => Ok (ca <| ai := ai ca ⊖ 1 |>)) ca.

Definition hstcp_adapt (cwnd : Z) (ca : hstcp) : outcome hstcp :=
  lim ← aimd_cwnd (ai ca);
  if lim <? cwnd then hstcp_raise cwnd ca
  else if nz (ai ca) then
    lo ← aimd_cwnd (ai ca ⊖ 1);
    if cwnd <=? lo then hstcp_lower cwnd ca else Ok ca
  else Ok ca.

Definition hstcp_cong_avoid (E : env) (sk : tcp_sock) (ca : hstcp)
  (adk rtt in_flight data_acked : Z) : outcome (tcp_sock * hstcp) :=
  if negb (tcp_is_cwnd_limited sk in_flight) then Ok (sk, ca)
  else if snd_cwnd sk <=? snd_ssthresh sk then
    sk ← tcp_slow_start E sk; Ok (sk, ca)
  else
    ca ← hstcp_adapt (snd_cwnd sk) ca;
    Ok (if snd_cwnd sk <? snd_cwnd_clamp sk then
          let tp := sk <| snd_cwnd_cnt := u32 (snd_cwnd_cnt sk + (ai ca ⊕ 1)) |> in
          if snd_cwnd tp <=? snd_cwnd_cnt tp then
            tp <| snd_cwnd_cnt := snd_cwnd_cnt tp ⊖ snd_cwnd tp |>
               <| snd_cwnd := snd_cwnd tp ⊕ 1 |>
          else tp
        else sk, ca).

Definition hstcp_ssthresh (sk : tcp_sock) (ca : hstcp) : outcome Z :=
  md ← aimd_md (ai ca);
  Ok (Z.max (snd_cwnd sk ⊖ (snd_cwnd sk ⊗ md) ≫ 8) 2).

Definition tcp_highspeed : tcp_congestion_ops hstcp := {|
  ops_name := "highspeed";
  ops_flags := 0;
  ops_init := Some (fun _ sk ca => Ok (hstcp_init sk ca));
  ops_ssthresh := fun _ sk ca => th ← hstcp_ssthresh sk ca; Ok (th, ca);
  ops_cong_avoid := fun E sk ca adk rtt in_flight flag =>
    hstcp_cong_avoid E sk ca adk rtt in_flight flag;
  ops_min_cwnd := Some (fun _ sk _ => Ok (tcp_reno_min_cwnd sk));
  ops_rtt_sample := None; ops_set_state := None; ops_cwnd_event := None;
  ops_undo_cwnd := None; ops_pkts_acked := None;
|}.

(** ** Specification *)

(** What the comment in the code guarantees: row [i] is the first whose limit
    is at least the window. *)
Definition aimd_bracket (cwnd i : Z) : Prop :=
  0 <= i < 72
  /\ (i <> 0 -> exists lo, aimd_cwnd (i - 1) = Ok lo /\ lo < cwnd)
  /\ (i <> 71 -> exists hi, aimd_cwnd i = Ok hi /\ cwnd <= hi).

(** The limits of the table increase from row to row. *)
Definition aimd_sorted_ok : bool :=
  forallb (fun i =>
    match aimd_cwnd i, aimd_cwnd (i + 1) with Ok a, Ok b => a <? b | _, _ => false end)
    (seqZ 0 71).

Definition hstcp_ex : hstcp := {| ai := 3 |}.

(** * Lemmas *)

Lemma aimd_cwnd_ok i : 0 <= i < 72 -> exists v, aimd_cwnd i = Ok v /\ 38 <= v.
Proof.
  intros Hi. unfold aimd_cwnd. destruct (aread_in hstcp_aimd_vals i) as (v & -> & Hv); [done|].
  cbn. exists v.1. split; [done|].
  assert (Hall : Forall (fun v => 38 <= v.1) hstcp_aimd_vals)
    by (unfold hstcp_aimd_vals; repeat (constructor; [cbn; lia|]); constructor).
  rewrite Forall_forall in Hall. by eapply Hall, list_elem_of_lookup_2.
Qed.

Lemma aimd_sorted_oks : aimd_sorted_ok = true.
Proof. by vm_compute. Qed.

Lemma aimd_sorted i j a b :
  0 <= i < j -> j < 72 -> aimd_cwnd i = Ok a -> aimd_cwnd j = Ok b -> a < b.
Proof.
  intros Hi Hj Ha. replace j with (i + 1 + Z.of_nat (Z.to_nat (j - i - 1))) by lia.
  assert (Hb : i + 1 + Z.of_nat (Z.to_nat (j - i - 1)) < 72) by lia. revert b Hb.
  assert (Hstep : forall i a b, 0 <= i < 71 -> aimd_cwnd i = Ok a -> aimd_cwnd (i + 1) = Ok b -> a < b).
  { clear. intros i a b Hi Ha Hb. pose proof aimd_sorted_oks as Hok.
    unfold aimd_sorted_ok in Hok. rewrite forallb_forall in Hok. specialize (Hok i).
    rewrite <- list_elem_of_In, elem_of_seqZ in Hok. specialize (Hok ltac:(lia)).
    rewrite Ha, Hb in Hok. lia. }
  induction (Z.to_nat (j - i - 1)) as [|n IH]; intros b Hb Hjb.
  - apply (Hstep i); [lia|done|]. by replace (i + 1) with (i + 1 + Z.of_nat 0) by lia.
  - destruct (aimd_cwnd_ok (i + 1 + Z.of_nat n)) as (c & Hc & _); [lia|].
    specialize (IH c ltac:(lia) Hc). etransitivity; [exact IH|].
    apply (Hstep (i + 1 + Z.of_nat n)); [lia|done|].
    by replace (i + 1 + Z.of_nat n + 1) with (i + 1 + Z.of_nat (S n)) by lia.
Qed.

Lemma aimd_md_ok i : 0 <= i < 72 -> exists v, aimd_md i = Ok v /\ 24 <= v <= 128.
Proof.
  intros Hi. unfold aimd_md. destruct (aread_in hstcp_aimd_vals i) as (v & -> & Hv); [done|].
  cbn. exists v.2. split; [done|].
  assert (Hall : Forall (fun v => 24 <= v.2 <= 128) hstcp_aimd_vals)
    by (unfold hstcp_aimd_vals; repeat (constructor; [cbn; lia|]); constructor).
  rewrite Forall_forall in Hall. by eapply Hall, list_elem_of_lookup_2.
Qed.

Lemma hstcp_raise_spec cwnd ca :
  0 <= ai ca < 72 -> (ai ca <> 0 -> exists lo, aimd_cwnd (ai ca - 1) = Ok lo /\ lo < cwnd) ->
  returns (hstcp_raise cwnd ca) (fun ca' => aimd_bracket cwnd (ai ca')).
Proof.
  intros Hi Hlo. unfold hstcp_raise. eapply returns_mono.
  - apply (c_whilem_rule (fun ca => 0 <= ai ca < 72
      /\ (ai ca <> 0 -> exists lo, aimd_cwnd (ai ca - 1) = Ok lo /\ lo < cwnd))
      (fun ca => 72 - ai ca)); [|done|lia].
    intros s (His & Hlos). destruct (aimd_cwnd_ok (ai s) His) as (v & Hv & _). rewrite Hv. cbn.
    change HSTCP_AIMD_MAX with 72. intros Hc. rewrite u32_id by lia. split; [|lia].
    split; [lia|]. intros _. exists v. replace (ai s + 1 - 1) with (ai s) by lia. split; [done|lia].
  - intros s ((His & Hlos) & Hend). split; [done|]. split; [done|]. intros Hne.
    destruct (aimd_cwnd_ok (ai s) His) as (v & Hv & _). rewrite Hv in Hend. cbn in Hend.
    exists v. split; [done|]. change HSTCP_AIMD_MAX with 72 in Hend.
    injection Hend as Hend. lia.
Qed.

Lemma hstcp_lower_spec cwnd ca :
  0 <= ai ca < 72 -> (ai ca <> 71 -> exists hi, aimd_cwnd (ai ca) = Ok hi /\ cwnd <= hi) ->
  returns (hstcp_lower cwnd ca) (fun ca' => aimd_bracket cwnd (ai ca')).
Proof.
  intros Hi Hhi. unfold hstcp_lower. eapply returns_mono.
  - apply (c_whilem_rule (fun ca => 0 <= ai ca < 72
      /\ (ai ca <> 71 -> exists hi, aimd_cwnd (ai ca) = Ok hi /\ cwnd <= hi)) ai); [|done|lia].
    intros s (His & Hhis). unfold nz. destruct (Z.eqb_spec (ai s) 0); cbn; [done|].
    rewrite u32_id by lia. destruct (aimd_cwnd_ok (ai s - 1)) as (v & Hv & _); [lia|].
    rewrite Hv. cbn. intros Hc. split; [|lia]. split; [lia|]. intros _. exists v. split; [done|lia].
  - intros s ((His & Hhis) & Hend). split; [done|]. split; [|done]. intros Hne.
    unfold nz in Hend. destruct (Z.eqb_spec (ai s) 0); [done|]. cbn in Hend.
    rewrite u32_id in Hend by lia. destruct (aimd_cwnd_ok (ai s - 1)) as (v & Hv & _); [lia|].
    rewrite Hv in Hend |- *. cbn in Hend. exists v. split; [done|]. injection Hend as Hend. lia.
Qed.

Lemma hstcp_adapt_spec cwnd ca :
  0 <= ai ca < 72 ->
  returns (hstcp_adapt cwnd ca) (fun ca' => aimd_bracket cwnd (ai ca')).
Proof.
  intros Hi. unfold hstcp_adapt.
  destruct (aimd_cwnd_ok (ai ca) Hi) as (v & Hv & _). rewrite Hv. cbn.
  destruct (Z.ltb_spec v cwnd).
  - apply hstcp_raise_spec; [done|]. intros Hne.
    destruct (aimd_cwnd_ok (ai ca - 1)) as (lo & Hlo & _); [lia|]. exists lo. split; [done|].
    pose proof (aimd_sorted (ai ca - 1) (ai ca) lo v ltac:(lia) ltac:(lia) Hlo Hv). lia.
  - unfold nz. destruct (Z.eqb_spec (ai ca) 0) as [H0|H0]; cbn.
    + split; [done|]. split; [lia|]. intros _. by exists v.
    + rewrite u32_id by lia. destruct (aimd_cwnd_ok (ai ca - 1)) as (lo & Hlo & _); [lia|].
      rewrite Hlo. cbn. destruct (Z.leb_spec cwnd lo).
      * apply hstcp_lower_spec; [done|]. intros _. by exists v.
      * split; [done|]. split; intros _; [by exists lo|by exists v].
Qed.

(** The bracket determines the row. *)
Lemma aimd_bracket_unique cwnd i j : aimd_bracket cwnd i -> aimd_bracket cwnd j -> i = j.
Proof.
  assert (Hlt : forall i j, aimd_bracket cwnd i -> aimd_bracket cwnd j -> ~ i < j).
  { clear. intros i j (Hi & _ & Hhi) (Hj & Hlo & _) Hij.
    destruct Hhi as (hi & Hhi & Hle); [lia|]. destruct Hlo as (lo & Hlo & Hgt); [lia|].
    destruct (decide (i = j - 1)) as [->|Hne].
    - rewrite Hlo in Hhi. injection Hhi as ->. lia.
    - pose proof (aimd_sorted i (j - 1) hi lo ltac:(lia) ltac:(lia) Hhi Hlo). lia. }
  intros Hi Hj. pose proof (Hlt i j Hi Hj). pose proof (Hlt j i Hj Hi). lia.
Qed.

Lemma hstcp_cong_avoid_returns E sk ca ack rtt in_flight flag :
  wf_sock sk -> 1 <= snd_cwnd sk -> 0 <= ai ca < 72 ->
  returns (hstcp_cong_avoid E sk ca ack rtt in_flight flag)
    (fun '(sk', ca') => cwnd_opened sk sk' /\ 0 <= ai ca' < 72).
Proof.
  intros Hwf Hw Hi. unfold hstcp_cong_avoid. case_cond; [cbn; auto using cwnd_opened_refl|].
  case_cond.
  - c_bind (cwnd_opened sk); [apply tcp_slow_start_opens; [done|lia]|]. cbn. auto.
  - c_bind (fun ca' => aimd_bracket (snd_cwnd sk) (ai ca')); [by apply hstcp_adapt_spec|].
    intros ca' (Hi' & _). cbn. split; [|done]. destruct Hwf.
    set (c := u32 (snd_cwnd_cnt sk + (ai ca' ⊕ 1))).
    assert (in_u32 c) by apply u32_range. repeat case_cond; cbn in *.
    + rewrite (u32_id (snd_cwnd sk + 1)), u32_id by lia.
      exists (snd_cwnd sk + 1), (c - snd_cwnd sk), (bytes_acked sk). split; [by destruct sk|lia].
    + exists (snd_cwnd sk), c, (bytes_acked sk). split; [by destruct sk|lia].
    + apply cwnd_opened_refl. by constructor.
Qed.

Lemma hstcp_ssthresh_exact sk ca :
  0 <= ai ca < 72 -> 0 <= snd_cwnd sk <= 33554431 ->
  exists md, 24 <= md <= 128 /\ aimd_md (ai ca) = Ok md
    /\ hstcp_ssthresh sk ca = Ok (Z.max (snd_cwnd sk - snd_cwnd sk * md / 256) 2).
Proof.
  intros Hi Hw. destruct (aimd_md_ok _ Hi) as (md & Hmd & Hr). exists md.
  split; [done|]. split; [done|]. unfold hstcp_ssthresh. rewrite Hmd. cbn -[Z.max Z.mul].
  rewrite (u32_id (snd_cwnd sk * md)), Z.shiftr_div_pow2 by nia. change (2 ^ 8) with 256.
  rewrite u32_id; [done|]. assert (snd_cwnd sk * md <= snd_cwnd sk * 128) by nia.
  Z.div_mod_to_equations; lia.
Qed.

(** * Properties *)

(** Whatever row of the RFC 3649 table the module was at, adapting to the
    window terminates without reading outside the table, and ends at the one
    row the comment in the code asks for: the limit of the previous row is
    below the window, the window is at most the limit of the row. *)
Theorem hstcp_adapt_bracket cwnd ca :
  0 <= ai ca < 72 ->
  exists ca', hstcp_adapt cwnd ca = Ok ca' /\ aimd_bracket cwnd (ai ca')
    /\ forall j, aimd_bracket cwnd j -> j = ai ca'.
Proof.
  intros Hi. pose proof (hstcp_adapt_spec cwnd ca Hi) as H.
  apply returns_inv in H as (ca' & -> & H). exists ca'. split; [done|]. split; [done|].
  intros j Hj. by apply (aimd_bracket_unique cwnd).
Qed.

Lemma hstcp_adapt_bracket_witness :
  exists ca', hstcp_adapt 5000 hstcp_ex = Ok ca' /\ aimd_bracket 5000 (ai ca')
    /\ forall j, aimd_bracket 5000 j -> j = ai ca'.
Proof. apply hstcp_adapt_bracket. cbn. lia. Defined.

(** After [hstcp_init] the clamp is such that the multiplicative decrease
    does not wrap: the threshold is the window less the fraction of the row,
    between a half of the window and all but 9% of it. *)
Theorem hstcp_decrease sk ca ca0 :
  let sk1 := (hstcp_init sk ca0).1 in
  0 <= ai ca < 72 -> 4 <= snd_cwnd sk <= snd_cwnd_clamp sk1 ->
  exists md th, aimd_md (ai ca) = Ok md
    /\ hstcp_ssthresh sk1 ca = Ok th /\ th = snd_cwnd sk - snd_cwnd sk * md / 256
    /\ snd_cwnd sk <= 2 * th /\ 100 * th <= 91 * snd_cwnd sk + 100.
Proof.
  intros sk1 Hi Hw. assert (Hc : snd_cwnd_clamp sk1 <= 33554431) by apply Z.le_min_r.
  destruct (hstcp_ssthresh_exact sk1 ca Hi) as (md & Hmd & Hr & Hth);
    [change (snd_cwnd sk1) with (snd_cwnd sk); lia|].
  change (snd_cwnd sk1) with (snd_cwnd sk) in Hth.
  exists md, (Z.max (snd_cwnd sk - snd_cwnd sk * md / 256) 2). split; [done|]. split; [done|].
  assert (snd_cwnd sk * md <= snd_cwnd sk * 128 /\ snd_cwnd sk * 24 <= snd_cwnd sk * md) by nia.
  assert (E : Z.max (snd_cwnd sk - snd_cwnd sk * md / 256) 2 = snd_cwnd sk - snd_cwnd sk * md / 256)
    by (Z.div_mod_to_equations; lia).
  rewrite E. split; [done|]. Z.div_mod_to_equations; lia.
Qed.

Lemma hstcp_decrease_witness :
  let sk1 := (hstcp_init sk_ex hstcp_ex).1 in
  exists md th, aimd_md (ai hstcp_ex) = Ok md
    /\ hstcp_ssthresh sk1 hstcp_ex = Ok th /\ th = snd_cwnd sk_ex - snd_cwnd sk_ex * md / 256
    /\ snd_cwnd sk_ex <= 2 * th /\ 100 * th <= 91 * snd_cwnd sk_ex + 100.
Proof.
  apply (hstcp_decrease sk_ex hstcp_ex hstcp_ex); [cbn; lia|].
  change (_ <= _ <= _) with (4 <= 10 <= 1000). lia.
Defined.
