(* ===== verification/Hybla.v ===== *)
(** TCP Hybla (tcp_hybla.c): the increase of a connection with a reference
    round-trip time, in units of 1/128 segment. *)
From S2P Require Import Sock Reno.

(** * Definitions *)

Record hybla := mk_hybla {
  hybla_en : Z;               (* u8 *)
  snd_cwnd_cents : Z;         (* u32, << 7 *)
  rho : Z;                    (* u32, integer part *)
  rho2 : Z;                   (* u32 *)
  rho_3ls : Z;                (* u32, << 3 *)
  rho2_7ls : Z;               (* u32, << 7 *)
  minrtt : Z;                 (* u32 *)
}.
#[global] Instance eta_hybla : Eta hybla := fun r =>
  mk_hybla (hybla_en r) (snd_cwnd_cents r) (rho r) (rho2 r) (rho_3ls r) (rho2_7ls r) (minrtt r).

(** The parameter [rtt0], in milliseconds. *)
Definition rtt0_default : Z := 25.

Definition hybla_recalc_param (rtt0 : Z) (sk : tcp_sock) (ca : hybla) : outcome hybla :=
  q ← udiv (srtt sk) (u32 (msecs_to_jiffies rtt0));
  let ca := ca <| rho_3ls := Z.max q 8 |> in
  let ca := ca <| rho := rho_3ls ca ≫ 3 |> in
  let ca := ca <| rho2_7ls := u32 ((rho_3ls ca ⊗ rho_3ls ca) ≪ 1) |> in
  Ok (ca <| rho2 := rho2_7ls ca ≫ 7 |>).

Definition hybla_init (rtt0 : Z) (sk : tcp_sock) (ca : hybla) : outcome (tcp_sock * hybla) :=
  let ca := ca <| rho := 0 |> <| rho2 := 0 |> <| rho_3ls := 0 |> <| rho2_7ls := 0 |>
               <| snd_cwnd_cents := 0 |> <| hybla_en := 1 |> in
  let tp := sk <| snd_cwnd := 2 |> <| snd_cwnd_clamp := 65535 |> in
  ca ← hybla_recalc_param rtt0 tp ca;
  let ca := ca <| minrtt := srtt tp |> in
  Ok (tp <| snd_cwnd := rho ca |>, ca).

Definition hybla_state (ca : hybla) (ca_state : tcp_ca_state) : hybla :=
  ca <| hybla_en := if decide (ca_state = TCP_CA_Open) then 1 else 0 |>.

Definition fractions : list Z := [128; 139; 152; 165; 181; 197; 215; 234].

Definition hybla_fraction (odds : Z) : outcome Z :=
  if odds <? Z.of_nat (length fractions) then aread fractions odds else Ok 128.

(** The increase, << 7, and the counter it leaves. *)
Definition hybla_increment (sk : tcp_sock) (ca : hybla) : outcome (Z * tcp_sock) :=
  let rho_fractions := rho_3ls ca ⊖ u32 (rho ca ≪ 3) in
  if snd_cwnd sk <? snd_ssthresh sk then
    p ← shl_int 1 (rho ca);
    f ← hybla_fraction rho_fractions;
    Ok (p ⊗ f ⊖ 128, sk)
  else
    increment ← udiv (rho2_7ls ca) (snd_cwnd sk);
    Ok (increment, if increment <? 128
                   then sk <| snd_cwnd_cnt := snd_cwnd_cnt sk ⊕ 1 |> else sk).

(** [while (snd_cwnd_cents >= 128) { snd_cwnd++; snd_cwnd_cents -= 128;
    snd_cwnd_cnt = 0; }] *)
Definition hybla_cents (s : tcp_sock * hybla) : outcome (tcp_sock * hybla) :=
  c_while (fun '(_, ca) => 128 <=? snd_cwnd_cents ca)
    (fun '(tp, ca) => Ok (tp <| snd_cwnd := snd_cwnd tp ⊕ 1 |> <| snd_cwnd_cnt := 0 |>,
                          ca <| snd_cwnd_cents := snd_cwnd_cents ca ⊖ 128 |>)) s.

Definition hybla_cong_avoid (rtt0 : Z) (E : env) (sk : tcp_sock) (ca : hybla)
  (ack rtt in_flight flag : Z) : outcome (tcp_sock * hybla) :=
  ca ← (if srtt sk <? minrtt ca then
          ca ← hybla_recalc_param rtt0 sk ca; Ok (ca <| minrtt := srtt sk |>)
        else Ok ca);
  if negb (tcp_is_cwnd_limited sk in_flight) then Ok (sk, ca)
  else if negb (nz (hybla_en ca)) then
    sk ← tcp_reno_cong_avoid E sk ack rtt in_flight flag; Ok (sk, ca)
  else
    ca ← (if rho ca =? 0 then hybla_recalc_param rtt0 sk ca else Ok ca);
    let is_slowstart := snd_cwnd sk <? snd_ssthresh sk in
    '(increment, sk) ← hybla_increment sk ca;
    let odd := increment mod 128 in
    let sk := sk <| snd_cwnd := u32 (snd_cwnd sk + increment ≫ 7) |> in
    let ca := ca <| snd_cwnd_cents := snd_cwnd_cents ca ⊕ odd |> in
    '(sk, ca) ← hybla_cents (sk, ca);
    let sk := if is_slowstart
              then sk <| snd_cwnd := Z.min (snd_cwnd sk) (snd_ssthresh sk) |> else sk in
    Ok (sk <| snd_cwnd := Z.min (snd_cwnd sk) (snd_cwnd_clamp sk) |>, ca).

Definition tcp_hybla (rtt0 : Z) : tcp_congestion_ops hybla := {|
  ops_name := "hybla";
  ops_flags := 0;
  ops_init := Some (fun _ sk ca => hybla_init rtt0 sk ca);
  ops_ssthresh := fun _ sk ca => Ok (tcp_reno_ssthresh sk, ca);
  ops_cong_avoid := fun E sk ca ack rtt in_flight flag =>
    hybla_cong_avoid rtt0 E sk ca ack rtt in_flight flag;
  ops_min_cwnd := Some (fun _ sk _ => Ok (tcp_reno_min_cwnd sk));
  ops_rtt_sample := None;
  ops_set_state := Some (fun _ _ ca st => Ok (hybla_state ca st));
  ops_cwnd_event := None; ops_undo_cwnd := None; ops_pkts_acked := None;
|}.

(** ** Invariant and specification *)

(** [rho], [rho2] and [rho2_7ls] are the integer part and the squares of
    [rho_3ls / 8], itself at least 1; less than one segment is pending. *)
Record hybla_inv (ca : hybla) : Prop := mk_hybla_inv {
  hi_cents : 0 <= snd_cwnd_cents ca < 128;
  hi_rho_3ls : 8 <= rho_3ls ca < 4294967296;
  hi_rho : rho ca = rho_3ls ca / 8;
  hi_rho2_7ls : rho2_7ls ca = 2 * rho_3ls ca ^ 2 mod 4294967296;
  hi_minrtt : in_u32 (minrtt ca);
}.

(** The increase of one acknowledgement, << 7: [2^rho - 1] in slow start, with
    [rho] split in an integer and a fraction, [rho^2 / cwnd] above. *)
Definition hybla_inc_spec (sk : tcp_sock) (ca : hybla) : Z :=
  if snd_cwnd sk <? snd_ssthresh sk
  then 2 ^ rho ca * (fractions !!! Z.to_nat (rho_3ls ca mod 8)) - 128
  else 2 * rho_3ls ca ^ 2 / snd_cwnd sk.

(** The window and the pending fraction are one number, in 1/128 segment. *)
Definition hybla_total (sk : tcp_sock) (ca : hybla) : Z :=
  128 * snd_cwnd sk + snd_cwnd_cents ca.

Definition hybla_ex : hybla := mk_hybla 1 100 3 9 24 1152 800.

(** * Lemmas *)

Lemma fraction_ok k : 0 <= k < 8 ->
  aread fractions k = Ok (fractions !!! Z.to_nat k) /\ 128 <= fractions !!! Z.to_nat k <= 234.
Proof.
  intros Hk. assert (k = 0 \/ k = 1 \/ k = 2 \/ k = 3 \/ k = 4 \/ k = 5 \/ k = 6 \/ k = 7)
    as [->|[->|[->|[->|[->|[->|[->| ->]]]]]]] by lia; by vm_compute.
Qed.

Lemma hybla_recalc_param_ok rtt0 sk ca :
  0 < rtt0 < 4294967296 -> in_u32 (srtt sk) ->
  0 <= snd_cwnd_cents ca < 128 -> in_u32 (minrtt ca) ->
  exists ca', hybla_recalc_param rtt0 sk ca = Ok ca' /\ hybla_inv ca'
    /\ rho_3ls ca' = Z.max (srtt sk / rtt0) 8 /\ hybla_en ca' = hybla_en ca
    /\ snd_cwnd_cents ca' = snd_cwnd_cents ca /\ minrtt ca' = minrtt ca.
Proof.
  intros Hr Hs Hc Hm. unfold hybla_recalc_param.
  assert (E : msecs_to_jiffies rtt0 = rtt0)
    by (unfold msecs_to_jiffies; change (Z.quot JIFFY_RATIO MS_RATIO) with 1; lia).
  rewrite E, u32_id, udiv_ok by lia. cbn -[Z.max Z.mul Z.div].
  assert (Hq : 0 <= srtt sk / rtt0 <= srtt sk).
  { split; [apply Z.div_pos; lia|apply Z.div_le_upper_bound; nia]. }
  eexists. split; [done|]. cbn -[Z.max Z.mul Z.div Z.pow]. split; [|done].
  set (r := Z.max (srtt sk / rtt0) 8) in *.
  constructor; cbn -[Z.max Z.mul Z.div Z.pow]; try lia.
  - by rewrite Z.shiftr_div_pow2 by lia.
  - rewrite Z.shiftl_mul_pow2 by lia. change (2 ^ 1) with 2. unfold u32.
    rewrite Zmult_mod_idemp_l. f_equal. ring.
Qed.

(** The loop moves whole segments from the fraction to the window. *)
Lemma hybla_cents_ok tp ca :
  in_u32 (snd_cwnd_cents ca) -> 0 <= snd_cwnd tp -> snd_cwnd tp + snd_cwnd_cents ca / 128 < 4294967296 ->
  exists tp' ca', hybla_cents (tp, ca) = Ok (tp', ca')
    /\ tp' = tp <| snd_cwnd := snd_cwnd tp + snd_cwnd_cents ca / 128 |>
                <| snd_cwnd_cnt := if snd_cwnd_cents ca <? 128 then snd_cwnd_cnt tp else 0 |>
    /\ ca' = ca <| snd_cwnd_cents := snd_cwnd_cents ca mod 128 |>.
Proof.
  intros Hc Hw Ho.
  assert (Hr : returns (hybla_cents (tp, ca)) (fun s =>
    (exists k, 0 <= k <= snd_cwnd_cents ca / 128
      /\ s = (tp <| snd_cwnd := snd_cwnd tp + k |>
                 <| snd_cwnd_cnt := if k =? 0 then snd_cwnd_cnt tp else 0 |>,
              ca <| snd_cwnd_cents := snd_cwnd_cents ca - 128 * k |>))
    /\ (128 <=? snd_cwnd_cents s.2) = false)).
  { unfold hybla_cents. eapply returns_mono.
    - apply (c_while_rule (fun s => exists k, 0 <= k <= snd_cwnd_cents ca / 128
        /\ s = (tp <| snd_cwnd := snd_cwnd tp + k |>
                   <| snd_cwnd_cnt := if k =? 0 then snd_cwnd_cnt tp else 0 |>,
                ca <| snd_cwnd_cents := snd_cwnd_cents ca - 128 * k |>)) (fun s => snd_cwnd_cents s.2)).
      + intros s (k & Hk & ->) Hcond. cbn in *.
        assert (k < snd_cwnd_cents ca / 128) by (Z.div_mod_to_equations; lia).
        assert (0 <= snd_cwnd_cents ca - 128 * k) by (Z.div_mod_to_equations; lia).
        rewrite !u32_id by lia. split; [|lia]. exists (k + 1). split; [lia|].
        destruct (Z.eqb_spec (k + 1) 0); [lia|]. do 2 f_equal; lia.
      + exists 0. split; [Z.div_mod_to_equations; lia|]. cbn.
        rewrite Z.add_0_r, Z.sub_0_r. by destruct tp, ca.
      + cbn. lia.
    - intros [t c] [Hs Hf]. done. }
  apply returns_inv in Hr as ([t c] & -> & (k & Hk & [= -> ->]) & Hf). cbn in Hf.
  assert (k = snd_cwnd_cents ca / 128) as -> by (Z.div_mod_to_equations; lia).
  do 2 eexists. split; [done|]. split.
  - destruct (Z.eqb_spec (snd_cwnd_cents ca / 128) 0), (Z.ltb_spec (snd_cwnd_cents ca) 128);
      try done; Z.div_mod_to_equations; lia.
  - by rewrite Z.mod_eq by lia.
Qed.

(** One acknowledgement of an open connection whose parameters are fresh. *)
Lemma hybla_increment_ok sk ca :
  wf_sock sk -> hybla_inv ca -> 1 <= snd_cwnd sk -> rho_3ls ca < 200 ->
  exists c, hybla_increment sk ca = Ok (hybla_inc_spec sk ca, sk <| snd_cwnd_cnt := c |>)
    /\ in_u32 c /\ 0 <= hybla_inc_spec sk ca < 4294967296.
Proof.
  intros Hsk [] Hw Hr. destruct Hsk. unfold hybla_increment, hybla_inc_spec.
  assert (Hrho : 1 <= rho ca < 25) by (Z.div_mod_to_equations; lia).
  assert (Hsq : 64 <= rho_3ls ca ^ 2 <= 40000).
  { change 64 with (8 ^ 2). change 40000 with (200 ^ 2). split; apply Z.pow_le_mono_l; lia. }
  assert (H7 : rho2_7ls ca = 2 * rho_3ls ca ^ 2) by (rewrite hi_rho2_7ls0, Z.mod_small; lia).
  destruct (Z.ltb_spec (snd_cwnd sk) (snd_ssthresh sk)).
  - rewrite Z.shiftl_mul_pow2, (u32_id (rho ca * 2 ^ 3)) by lia. change (2 ^ 3) with 8.
    assert (Hodd : rho_3ls ca ⊖ rho ca * 8 = rho_3ls ca mod 8).
    { rewrite u32_id; Z.div_mod_to_equations; lia. }
    rewrite Hodd. pose proof (Z.mod_pos_bound (rho_3ls ca) 8 ltac:(lia)) as Hm.
    unfold shl_int. destruct (Z.leb_spec 0 (rho ca)), (Z.ltb_spec (rho ca) 32); try lia.
    rewrite Z.shiftl_mul_pow2, Z.mul_1_l by lia.
    assert (Hp : 2 <= 2 ^ rho ca <= 16777216).
    { change 2 with (2 ^ 1) at 1. change 16777216 with (2 ^ 24). split; apply Z.pow_le_mono_r; lia. }
    rewrite s32_id by lia. cbn [andb mbind outcome_bind].
    unfold hybla_fraction. change (Z.of_nat (length fractions)) with 8.
    destruct (Z.ltb_spec (rho_3ls ca mod 8) 8); [|lia].
    destruct (fraction_ok _ Hm) as [-> Hf]. cbn [mbind outcome_bind].
    set (f := fractions !!! _) in *. clearbody f.
    assert (Hpf : 2 * 128 <= 2 ^ rho ca * f <= 16777216 * 234)
      by (split; apply Z.mul_le_mono_nonneg; lia).
    exists (snd_cwnd_cnt sk). rewrite (u32_id (_ * f)), u32_id by lia.
    split; [by destruct sk|]. lia.
  - rewrite udiv_ok by lia. cbn [mbind outcome_bind]. rewrite H7.
    assert (0 <= 2 * rho_3ls ca ^ 2 / snd_cwnd sk <= 2 * rho_3ls ca ^ 2).
    { split; [apply Z.div_pos; lia|apply Z.div_le_upper_bound; nia]. }
    destruct (_ <? 128).
    + exists (snd_cwnd_cnt sk ⊕ 1). split; [done|]. split; [apply u32_range|lia].
    + exists (snd_cwnd_cnt sk). split; [by destruct sk|]. lia.
Qed.

Lemma hybla_ack_ok rtt0 E sk ca ack rtt in_flight flag :
  wf_sock sk -> hybla_inv ca -> 1 <= snd_cwnd sk < 2147483648 -> rho_3ls ca < 200 ->
  minrtt ca <= srtt sk -> snd_cwnd sk <= in_flight -> hybla_en ca <> 0 ->
  exists c ca',
    let w := hybla_total sk ca + hybla_inc_spec sk ca in
    let w' := if snd_cwnd sk <? snd_ssthresh sk then Z.min (w / 128) (snd_ssthresh sk) else w / 128 in
    hybla_cong_avoid rtt0 E sk ca ack rtt in_flight flag =
      Ok (sk <| snd_cwnd_cnt := c |> <| snd_cwnd := Z.min w' (snd_cwnd_clamp sk) |>, ca')
    /\ ca' = ca <| snd_cwnd_cents := w mod 128 |> /\ in_u32 c /\ snd_cwnd sk <= w / 128.
Proof.
  intros Hsk Hca Hw Hr Hmin Hf Hen. unfold hybla_cong_avoid.
  destruct (Z.ltb_spec (srtt sk) (minrtt ca)); [lia|]. c_ret.
  unfold tcp_is_cwnd_limited. rewrite (proj2 (Z.leb_le _ _) Hf), (proj2 (nz_true _) Hen).
  cbn [negb]. assert (Hrho : 1 <= rho ca) by (destruct Hca; Z.div_mod_to_equations; lia).
  destruct (Z.eqb_spec (rho ca) 0); [lia|]. c_ret.
  destruct (hybla_increment_ok sk ca Hsk Hca ltac:(lia) Hr) as (c & -> & Hc & Hi).
  c_ret. set (inc := hybla_inc_spec sk ca) in *. clearbody inc.
  pose proof (hi_cents _ Hca) as Hcents.
  pose proof (Z.mod_pos_bound inc 128 ltac:(lia)) as Hodd.
  rewrite Z.shiftr_div_pow2 by lia. change (2 ^ 7) with 128. cbn.
  assert (Hq : 0 <= inc / 128 < 33554432) by (Z.div_mod_to_equations; lia).
  rewrite (u32_id (snd_cwnd sk + inc / 128)), (u32_id (snd_cwnd_cents ca + inc mod 128)) by lia.
  edestruct hybla_cents_ok as (tp' & ca' & -> & -> & ->); cbn; [lia|lia|Z.div_mod_to_equations; lia|].
  unfold hybla_total.
  assert (E1 : (128 * snd_cwnd sk + snd_cwnd_cents ca + inc) / 128
    = snd_cwnd sk + inc / 128 + (snd_cwnd_cents ca + inc mod 128) / 128).
  { Z.div_mod_to_equations; lia. }
  assert (E2 : (128 * snd_cwnd sk + snd_cwnd_cents ca + inc) mod 128
    = (snd_cwnd_cents ca + inc mod 128) mod 128).
  { Z.div_mod_to_equations; lia. }
  rewrite E1, E2. set (w := snd_cwnd sk + inc / 128 + _).
  assert (snd_cwnd sk <= w) by (unfold w; Z.div_mod_to_equations; lia).
  exists (if snd_cwnd_cents ca + inc mod 128 <? 128 then c else 0). eexists.
  destruct (snd_cwnd sk <? snd_ssthresh sk); cbn; (split; [done|]); (split; [done|]);
    (split; [case_cond; lia|done]).
Qed.

Lemma hybla_cong_avoid_returns rtt0 E sk ca ack rtt in_flight flag :
  wf_sock sk -> hybla_inv ca -> rho_3ls ca < 200 -> 1 <= snd_cwnd sk < 2147483648 ->
  1 <= snd_cwnd_clamp sk -> 1 <= snd_ssthresh sk -> 0 < rtt0 < 4294967296 ->
  srtt sk < 200 * rtt0 ->
  returns (hybla_cong_avoid rtt0 E sk ca ack rtt in_flight flag)
    (fun '(sk', ca') => window_step sk sk' /\ hybla_inv ca' /\ rho_3ls ca' < 200).
Proof.
  intros Hsk Hca Hr Hw Hcl Hth Hrtt Hs.
  (* the refresh of the parameters leaves a state of the same kind *)
  assert (Href : exists ca1, hybla_inv ca1 /\ rho_3ls ca1 < 200 /\ minrtt ca1 <= srtt sk
    /\ hybla_cong_avoid rtt0 E sk ca ack rtt in_flight flag
        = hybla_cong_avoid rtt0 E sk ca1 ack rtt in_flight flag).
  { destruct (Z.ltb_spec (srtt sk) (minrtt ca)) as [Hlt|]; [|by exists ca].
    destruct (hybla_recalc_param_ok rtt0 sk ca) as (ca' & Hok & Hinv & Hr3 & He & Hc & Hm);
      [done|apply Hsk|apply Hca|apply Hca|].
    exists (ca' <| minrtt := srtt sk |>). split.
    { destruct Hinv. constructor; cbn; try done. apply Hsk. }
    cbn. split; [|split; [done|]].
    { rewrite Hr3. assert (srtt sk / rtt0 < 200) by (apply Z.div_lt_upper_bound; lia). lia. }
    unfold hybla_cong_avoid. rewrite (proj2 (Z.ltb_lt _ _) Hlt), Hok.
    change (minrtt (ca' <| minrtt := srtt sk |>)) with (srtt sk).
    rewrite Z.ltb_irrefl. c_ret. reflexivity. }
  destruct Href as (ca1 & Hca1 & Hr1 & Hm1 & ->). clear Hca Hr Hrtt ca.
  assert (Hrho : rho ca1 <> 0) by (destruct Hca1; Z.div_mod_to_equations; lia).
  destruct (Z.leb_spec (snd_cwnd sk) in_flight) as [Hf|Hf].
  2:{ unfold hybla_cong_avoid, tcp_is_cwnd_limited.
      destruct (Z.ltb_spec (srtt sk) (minrtt ca1)); [lia|].
      destruct (Z.leb_spec (snd_cwnd sk) in_flight); [lia|]. cbn.
      split; [apply window_step_refl; [done|lia]|done]. }
  destruct (decide (hybla_en ca1 = 0)) as [He|He].
  - unfold hybla_cong_avoid, tcp_is_cwnd_limited.
    destruct (Z.ltb_spec (srtt sk) (minrtt ca1)); [lia|].
    c_ret. rewrite (proj2 (Z.leb_le _ _) Hf), He. change (nz 0) with false. cbn [negb].
    c_bind (cwnd_opened sk); [apply tcp_reno_cong_avoid_opens; [done|lia]|].
    intros sk' Ho. cbn. split; [apply cwnd_opened_step; [done|lia|done]|done].
  - destruct (hybla_ack_ok rtt0 E sk ca1 ack rtt in_flight flag) as (c & ca' & -> & -> & Hc & Hge);
      [done..|]. cbn [returns]. split; [|split].
    + apply window_step_to; [done| |done]. destruct Hsk. case_cond; lia.
    + destruct Hca1. constructor; cbn; try done. apply Z.mod_pos_bound. lia.
    + done.
Qed.

(** * Properties *)

(** With RTT below 625 ms ([rho < 25] for the default [rtt0]) an
    acknowledgement of an open, window-limited connection adds exactly
    [2^rho - 1] (slow start) or [rho^2 / cwnd] segments, in units of 1/128:
    window and pending fraction together grow by the increase, no fraction is
    lost, less than one segment stays pending, and the window is cut to the
    threshold in slow start and to the clamp. *)
Theorem hybla_increase_exact rtt0 E sk ca ack rtt in_flight flag :
  wf_sock sk -> hybla_inv ca -> 1 <= snd_cwnd sk < 2147483648 -> rho_3ls ca < 200 ->
  minrtt ca <= srtt sk -> snd_cwnd sk <= in_flight -> hybla_en ca <> 0 ->
  exists sk' ca',
    hybla_cong_avoid rtt0 E sk ca ack rtt in_flight flag = Ok (sk', ca')
    /\ (let total := hybla_total sk ca + hybla_inc_spec sk ca in
        snd_cwnd_cents ca' = total mod 128
        /\ snd_cwnd sk' = Z.min (snd_cwnd_clamp sk)
             (if snd_cwnd sk <? snd_ssthresh sk then Z.min (total / 128) (snd_ssthresh sk)
              else total / 128)
        /\ snd_cwnd sk <= total / 128)
    /\ hybla_inv ca'.
Proof.
  intros Hsk Hca Hw Hr Hmin Hf Hen.
  destruct (hybla_ack_ok rtt0 E sk ca ack rtt in_flight flag) as (c & ca' & -> & -> & Hc & Hge);
    [done..|].
  do 2 eexists. split; [done|]. cbn [snd_cwnd snd_cwnd_cents set_field]. split.
  - split; [done|]. split; [|done]. cbn. rewrite Z.min_comm. done.
  - destruct Hca. constructor; cbn; try done. apply Z.mod_pos_bound. lia.
Qed.

Lemma hybla_ex_inv : hybla_inv hybla_ex.
Proof. constructor; cbn; lia || done. Qed.

Lemma hybla_increase_exact_witness :
  exists sk' ca',
    hybla_cong_avoid 25 env_ex sk_ex hybla_ex 0 0 20 0 = Ok (sk', ca')
    /\ (let total := hybla_total sk_ex hybla_ex + hybla_inc_spec sk_ex hybla_ex in
        snd_cwnd_cents ca' = total mod 128
        /\ snd_cwnd sk' = Z.min (snd_cwnd_clamp sk_ex)
             (if snd_cwnd sk_ex <? snd_ssthresh sk_ex then Z.min (total / 128) (snd_ssthresh sk_ex)
              else total / 128)
        /\ snd_cwnd sk_ex <= total / 128)
    /\ hybla_inv ca'.
Proof.
  apply hybla_increase_exact; [exact wf_sk_ex|exact hybla_ex_inv|cbn; lia..].
Defined.

(** The table of fractions is exact: entry [k] is the integer part of
    [128 * 2^(k/8)]; and the slow-start increase reads it inside its bounds
    whatever the parameters, but the shift by [rho] is undefined as soon as the
    RTT is 32 times [rtt0] (800 ms by default). *)
Theorem hybla_fraction_exact :
  (forall k, 0 <= k < 8 -> exists f, hybla_fraction k = Ok f
     /\ f ^ 8 <= 2 ^ k * 128 ^ 8 < (f + 1) ^ 8)
  /\ (forall sk ca, snd_cwnd sk < snd_ssthresh sk -> 32 <= rho ca ->
     hybla_increment sk ca = Trap BadShift).
Proof.
  split.
  - intros k Hk. unfold hybla_fraction. change (Z.of_nat (length fractions)) with 8.
    destruct (Z.ltb_spec k 8); [|lia]. destruct (fraction_ok k Hk) as [-> _].
    eexists. split; [done|].
    assert (k = 0 \/ k = 1 \/ k = 2 \/ k = 3 \/ k = 4 \/ k = 5 \/ k = 6 \/ k = 7)
      as [->|[->|[->|[->|[->|[->|[->| ->]]]]]]] by lia; by vm_compute.
  - intros sk ca Hw Hr. unfold hybla_increment. rewrite (proj2 (Z.ltb_lt _ _) Hw).
    unfold shl_int. destruct (Z.leb_spec 0 (rho ca)), (Z.ltb_spec (rho ca) 32); done || lia.
Qed.
