(* ===== verification/Vegas.v ===== *)
(** TCP Vegas (tcp_vegas.c): once per round trip the window moves by one
    segment, according to the number of segments queued in the network. *)
From S2P Require Import Sock LinuxC Reno.

(** * Definitions *)

Definition V_PARAM_SHIFT : Z := 1.

Record vegas_params := mk_vegas_params {
  alpha : Z;                  (* int *)
  beta : Z;                   (* int *)
  gamma : Z;                  (* int *)
}.
Definition vegas_defaults : vegas_params := {|
  alpha := 2 ≪ V_PARAM_SHIFT; beta := 4 ≪ V_PARAM_SHIFT; gamma := 1 ≪ V_PARAM_SHIFT |}.

Record vegas := mk_vegas {
  beg_snd_nxt : Z;            (* u32 *)
  beg_snd_una : Z;            (* u32 *)
  beg_snd_cwnd : Z;           (* u32 *)
  doing_vegas_now : Z;        (* u8 *)
  cntRTT : Z;                 (* u16, that is unsigned int *)
  minRTT : Z;                 (* u32 *)
  baseRTT : Z;                (* u32 *)
}.
#[global] Instance eta_vegas : Eta vegas := fun r =>
  mk_vegas (beg_snd_nxt r) (beg_snd_una r) (beg_snd_cwnd r) (doing_vegas_now r)
    (cntRTT r) (minRTT r) (baseRTT r).

Definition vegas_enable (sk : tcp_sock) (v : vegas) : vegas :=
  v <| doing_vegas_now := 1 |> <| beg_snd_nxt := snd_nxt sk |>
    <| cntRTT := 0 |> <| minRTT := 0x7fffffff |>.

Definition vegas_disable (v : vegas) : vegas := v <| doing_vegas_now := 0 |>.

Definition tcp_vegas_init (sk : tcp_sock) (v : vegas) : vegas :=
  vegas_enable sk (v <| baseRTT := 0x7fffffff |>).

Definition tcp_vegas_pkts_acked (E : env) (v : vegas) (cnt last : Z) : vegas :=
  if ktime_equal last net_invalid_timestamp then v
  else
    let vrtt := u32 (ktime_to_us (net_timedelta (ktime_get_real E) last) + 1) in
    let v := if vrtt <? baseRTT v then v <| baseRTT := vrtt |> else v in
    v <| minRTT := Z.min (minRTT v) vrtt |> <| cntRTT := cntRTT v ⊕ 1 |>.

Definition tcp_vegas_state (sk : tcp_sock) (v : vegas) (ca_state : tcp_ca_state) : vegas :=
  if decide (ca_state = TCP_CA_Open) then vegas_enable sk v else vegas_disable v.

Definition tcp_vegas_cwnd_event (sk : tcp_sock) (v : vegas) (event : tcp_ca_event) : vegas :=
  match event with
  | CA_EVENT_CWND_RESTART | CA_EVENT_TX_START => tcp_vegas_init sk v
  | _ => v
  end.

(** The window the last round trip would have needed without queues, and the
    queue it built, both << 1. *)
Definition vegas_target (old_wnd : Z) (v : vegas) : outcome Z :=
  udiv (u32 ((old_wnd ⊗ baseRTT v) ≪ V_PARAM_SHIFT)) (minRTT v).
Definition vegas_diff (old_wnd target_cwnd : Z) : Z :=
  u32 (old_wnd ≪ V_PARAM_SHIFT) ⊖ target_cwnd.

(** The adjustment in slow start. *)
Definition vegas_slow_start (g : vegas_params) (E : env) (tp : tcp_sock) (target_cwnd diff : Z)
  : outcome tcp_sock :=
  let tp := if u32 (gamma g) <? diff
            then tp <| snd_ssthresh := 2 |>
                    <| snd_cwnd := Z.min (snd_cwnd tp) (target_cwnd ≫ V_PARAM_SHIFT ⊕ 1) |>
            else tp in
  tcp_slow_start E tp.

(** The adjustment in congestion avoidance. *)
Definition vegas_avoid (g : vegas_params) (tp : tcp_sock) (old_snd_cwnd diff : Z) : tcp_sock :=
  let next_snd_cwnd :=
    if u32 (beta g) <? diff then old_snd_cwnd ⊖ 1
    else if diff <? u32 (alpha g) then old_snd_cwnd ⊕ 1
    else old_snd_cwnd in
  if snd_cwnd tp <? next_snd_cwnd then tp <| snd_cwnd := snd_cwnd tp ⊕ 1 |>
  else if next_snd_cwnd <? snd_cwnd tp then tp <| snd_cwnd := snd_cwnd tp ⊖ 1 |>
  else tp.

Definition vegas_bound (tp : tcp_sock) : tcp_sock :=
  if snd_cwnd tp <? 2 then tp <| snd_cwnd := 2 |>
  else if snd_cwnd_clamp tp <? snd_cwnd tp then tp <| snd_cwnd := snd_cwnd_clamp tp |>
  else tp.

Definition tcp_vegas_cong_avoid (g : vegas_params) (E : env) (sk : tcp_sock) (v : vegas)
  (ack seq_rtt in_flight flag : Z) : outcome (tcp_sock * vegas) :=
  if negb (nz (doing_vegas_now v)) then
    sk ← tcp_reno_cong_avoid E sk ack seq_rtt in_flight flag; Ok (sk, v)
  else if after ack (beg_snd_nxt v) then
    old_wnd ← udiv (beg_snd_nxt v ⊖ beg_snd_una v) (mss_cache sk);
    let old_snd_cwnd := beg_snd_cwnd v in
    let v := v <| beg_snd_una := beg_snd_nxt v |> <| beg_snd_nxt := snd_nxt sk |>
               <| beg_snd_cwnd := snd_cwnd sk |> in
    sk ← (if cntRTT v <=? 2 then tcp_reno_cong_avoid E sk ack seq_rtt in_flight flag
          else
            target_cwnd ← vegas_target old_wnd v;
            let diff := vegas_diff old_wnd target_cwnd in
            sk ← (if snd_cwnd sk <=? snd_ssthresh sk
                  then vegas_slow_start g E sk target_cwnd diff
                  else Ok (vegas_avoid g sk old_snd_cwnd diff));
            Ok (vegas_bound sk));
    Ok (sk, v <| cntRTT := 0 |> <| minRTT := 0x7fffffff |>)
  else if snd_cwnd sk <=? snd_ssthresh sk then
    sk ← tcp_slow_start E sk; Ok (sk, v)
  else Ok (sk, v).

Definition tcp_vegas (g : vegas_params) : tcp_congestion_ops vegas := {|
  ops_name := "vegas";
  ops_flags := TCP_CONG_RTT_STAMP;
  ops_init := Some (fun _ sk v => Ok (sk, tcp_vegas_init sk v));
  ops_ssthresh := fun _ sk v => Ok (tcp_reno_ssthresh sk, v);
  ops_cong_avoid := fun E sk v ack rtt in_flight flag =>
    tcp_vegas_cong_avoid g E sk v ack rtt in_flight flag;
  ops_min_cwnd := Some (fun _ sk _ => Ok (tcp_reno_min_cwnd sk));
  ops_rtt_sample := None;
  ops_set_state := Some (fun _ sk v st => Ok (tcp_vegas_state sk v st));
  ops_cwnd_event := Some (fun _ sk v ev => Ok (sk, tcp_vegas_cwnd_event sk v ev));
  ops_undo_cwnd := None;
  ops_pkts_acked := Some (fun E sk v n last => Ok (sk, tcp_vegas_pkts_acked E v n last));
|}.

(** ** Invariant and specification *)

(** The smallest RTT ever seen is positive and at most the smallest of the
    current round trip. *)
Record vegas_inv (v : vegas) : Prop := mk_vegas_inv {
  vi_nxt : in_u32 (beg_snd_nxt v);
  vi_una : in_u32 (beg_snd_una v);
  vi_cwnd : in_u32 (beg_snd_cwnd v);
  vi_cnt : in_u32 (cntRTT v);
  vi_base : 1 <= baseRTT v;
  vi_min : baseRTT v <= minRTT v <= 0x7fffffff;
}.

Definition vegas_ex : vegas := mk_vegas 10000 0 10 1 5 120000 100000.

(** * Lemmas *)

Ltac vegas_inv_tac :=
  match goal with
  | H : vegas_inv _ |- vegas_inv _ => destruct H; constructor; cbn; eauto with cint
  end.

Lemma vegas_enable_inv sk v : wf_sock sk -> vegas_inv v -> vegas_inv (vegas_enable sk v).
Proof. intros [] Hv. vegas_inv_tac; lia. Qed.

Lemma tcp_vegas_init_inv sk v :
  wf_sock sk -> in_u32 (beg_snd_una v) -> in_u32 (beg_snd_cwnd v) ->
  vegas_inv (tcp_vegas_init sk v).
Proof. intros [] ? ?. constructor; cbn; lia. Qed.

Lemma tcp_vegas_state_inv sk v st : wf_sock sk -> vegas_inv v -> vegas_inv (tcp_vegas_state sk v st).
Proof.
  intros Hsk Hv. unfold tcp_vegas_state. case_decide; [by apply vegas_enable_inv|].
  vegas_inv_tac.
Qed.

Lemma tcp_vegas_cwnd_event_inv sk v ev :
  wf_sock sk -> vegas_inv v -> vegas_inv (tcp_vegas_cwnd_event sk v ev).
Proof.
  intros Hsk Hv. destruct ev; cbn; try done; (apply tcp_vegas_init_inv; [done|apply Hv..]).
Qed.

(** A time stamp up to 71 minutes old gives a positive sample. *)
Lemma tcp_vegas_pkts_acked_inv E v cnt last :
  wf_env E -> vegas_inv v -> 0 <= ktime_get_real E - last < 4294967295000 ->
  vegas_inv (tcp_vegas_pkts_acked E v cnt last).
Proof.
  intros HE Hv Hl. unfold tcp_vegas_pkts_acked. case_cond; [done|].
  unfold ktime_to_us, net_timedelta. rewrite (s64_id (_ - _)) by lia.
  rewrite Z.quot_div_nonneg by lia.
  assert (0 <= (ktime_get_real E - last) / 1000 < 4294967295).
  { split; [apply Z.div_pos; lia|apply Z.div_lt_upper_bound; lia]. }
  rewrite (u32_id (_ / _ + 1)) by lia. set (r := _ / _ + 1) in *. assert (1 <= r) by lia. clearbody r.
  case_cond; cbn -[Z.min]; vegas_inv_tac; lia.
Qed.

(** ** The adjustment *)

Lemma vegas_target_ok old_wnd v :
  vegas_inv v -> 0 <= old_wnd -> 2 * (old_wnd * baseRTT v) < 4294967296 ->
  vegas_target old_wnd v = Ok (2 * (old_wnd * baseRTT v) / minRTT v).
Proof.
  intros [] Hw Ho. unfold vegas_target. rewrite (u32_id (old_wnd * baseRTT v)) by nia.
  rewrite Z.shiftl_mul_pow2 by (unfold V_PARAM_SHIFT; lia). change (2 ^ V_PARAM_SHIFT) with 2.
  rewrite u32_id, udiv_ok by nia. do 2 f_equal. lia.
Qed.

(** [diff / 2] is the queue [old_wnd * (rtt - base) / rtt], rounded up. *)
Lemma vegas_diff_ok old_wnd v :
  vegas_inv v -> 0 <= old_wnd -> 2 * (old_wnd * baseRTT v) < 4294967296 ->
  old_wnd < 2147483648 ->
  let diff := vegas_diff old_wnd (2 * (old_wnd * baseRTT v) / minRTT v) in
  0 <= diff <= 2 * old_wnd
  /\ 2 * (old_wnd * (minRTT v - baseRTT v)) <= diff * minRTT v
     < 2 * (old_wnd * (minRTT v - baseRTT v)) + minRTT v.
Proof.
  intros [] Hw Ho Hw2. unfold vegas_diff.
  rewrite Z.shiftl_mul_pow2 by (unfold V_PARAM_SHIFT; lia). change (2 ^ V_PARAM_SHIFT) with 2.
  rewrite (u32_id (old_wnd * 2)) by lia.
  assert (Hq : 0 <= 2 * (old_wnd * baseRTT v) / minRTT v <= 2 * old_wnd).
  { split; [apply Z.div_pos; nia|]. apply Z.div_le_upper_bound; nia. }
  rewrite u32_id by lia. split; [lia|].
  pose proof (Z.mul_div_le (2 * (old_wnd * baseRTT v)) (minRTT v) ltac:(lia)).
  pose proof (Z.mul_succ_div_gt (2 * (old_wnd * baseRTT v)) (minRTT v) ltac:(lia)). nia.
Qed.

Lemma vegas_avoid_step g tp old_snd_cwnd diff :
  wf_sock tp -> in_u32 old_snd_cwnd -> 1 <= snd_cwnd tp ->
  exists w, vegas_avoid g tp old_snd_cwnd diff = tp <| snd_cwnd := w |>
    /\ in_u32 w /\ -1 <= w - snd_cwnd tp <= 1.
Proof.
  intros [] Ho Hw. unfold vegas_avoid. set (next := if u32 (beta g) <? diff then _ else _).
  assert (Hn : in_u32 next) by (unfold next; repeat case_cond; apply u32_range || done).
  clearbody next. destruct (Z.ltb_spec (snd_cwnd tp) next); cbn.
  - rewrite u32_id by lia. eexists. split; [done|lia].
  - destruct (Z.ltb_spec next (snd_cwnd tp)); cbn; [rewrite u32_id by lia; eexists; split; [done|lia]|].
    exists (snd_cwnd tp). split; [by destruct tp|lia].
Qed.

Lemma vegas_bound_spec tp :
  vegas_bound tp = tp <| snd_cwnd := if snd_cwnd tp <? 2 then 2
                                     else Z.min (snd_cwnd tp) (snd_cwnd_clamp tp) |>.
Proof.
  unfold vegas_bound. repeat case_cond; destruct tp; cbn in *; f_equal; lia.
Qed.

(** What happens to the socket when an acknowledgement ends the round trip and
    there are enough samples. *)
Lemma vegas_adjust_returns g E sk target_cwnd old_snd_cwnd diff :
  wf_sock sk -> in_u32 target_cwnd -> in_u32 old_snd_cwnd ->
  1 <= snd_cwnd sk -> 2 <= snd_cwnd_clamp sk < 4294967295 ->
  returns (sk ← (if snd_cwnd sk <=? snd_ssthresh sk
                 then vegas_slow_start g E sk target_cwnd diff
                 else Ok (vegas_avoid g sk old_snd_cwnd diff));
           Ok (vegas_bound sk))
    (fun sk' => window_step sk sk' /\ 2 <= snd_cwnd sk' <= snd_cwnd_clamp sk).
Proof.
  intros Hsk Ht Ho Hw Hcl.
  c_bind (fun sk' => exists w c b th, sk' = sk <| bytes_acked := b |> <| snd_cwnd_cnt := c |>
     <| snd_cwnd := w |> <| snd_ssthresh := th |> /\ in_u32 w /\ in_u32 c /\ in_u32 b
     /\ (th = snd_ssthresh sk \/ th = 2)).
  - case_cond.
    + unfold vegas_slow_start. set (tp := if u32 (gamma g) <? diff then _ else _).
      assert (Htp : exists w th, tp = sk <| snd_ssthresh := th |> <| snd_cwnd := w |>
          /\ (th = snd_ssthresh sk \/ th = 2) /\ in_u32 w).
      { unfold tp. pose proof (u32_range (target_cwnd ≫ V_PARAM_SHIFT + 1)). destruct Hsk.
        case_cond; do 2 eexists; (split; [|split]);
          [reflexivity|by right|lia|instantiate (2 := snd_cwnd sk); instantiate (1 := snd_ssthresh sk); by destruct sk|by left|lia]. }
      destruct Htp as (w & th & -> & Hth & Hw').
      eapply returns_mono; [apply tcp_slow_start_opens|].
      * destruct Hsk. constructor; cbn; lia.
      * cbn. lia.
      * intros t (w1 & c & b & -> & ? & ? & ?). cbn in *. exists w1, c, b, th.
        destruct Hsk. split; [done|]. split; [lia|]. split; [lia|]. split; [lia|done].
    + cbn. destruct (vegas_avoid_step g sk old_snd_cwnd diff Hsk Ho Hw) as (w & -> & Hw' & _).
      exists w, (snd_cwnd_cnt sk), (bytes_acked sk), (snd_ssthresh sk). destruct Hsk.
      split; [done|]. split; [lia|]. split; [lia|]. split; [lia|by left].
  - intros sk' (w & c & b & th & -> & ? & ? & ? & ?). cbn [returns]. rewrite vegas_bound_spec. cbn.
    destruct Hsk. split; [|case_cond; lia]. split; [|split].
    + do 2 eexists. exists b, th, (snd_cwnd_stamp sk). auto.
    + constructor; cbn; try lia. case_cond; lia.
    + cbn. case_cond; lia.
Qed.

Lemma tcp_vegas_cong_avoid_returns g E sk v ack rtt in_flight flag :
  wf_sock sk -> vegas_inv v -> mss_cache sk <> 0 ->
  1 <= snd_cwnd sk -> 2 <= snd_cwnd_clamp sk < 4294967295 ->
  returns (tcp_vegas_cong_avoid g E sk v ack rtt in_flight flag)
    (fun '(sk', v') => window_step sk sk' /\ vegas_inv v').
Proof.
  intros Hsk Hv Hm Hw Hcl. unfold tcp_vegas_cong_avoid.
  assert (Hopen : forall m, returns m (cwnd_opened sk) -> returns m (window_step sk)).
  { intros m Hr. eapply returns_mono; [exact Hr|]. intros sk' Ho. apply cwnd_opened_step; [done|lia|done]. }
  case_cond; [|case_cond; [|case_cond]].
  - c_bind (window_step sk); [|cbn; auto].
    apply Hopen, tcp_reno_cong_avoid_opens; [done|lia].
  - rewrite udiv_ok by done. c_ret.
    set (old_wnd := _ / _). clearbody old_wnd. cbn [cntRTT set_field]. c_bind (window_step sk).
    + case_cond; [apply Hopen, tcp_reno_cong_avoid_opens; [done|lia]|].
      unfold vegas_target. destruct Hv. cbn [minRTT baseRTT set_field].
      rewrite udiv_ok by (cbn; lia). c_ret. eapply returns_mono.
      * apply vegas_adjust_returns; try done; try lia.
        pose proof (u32_range ((old_wnd ⊗ baseRTT v) ≪ V_PARAM_SHIFT)).
        cbn. split; [apply Z.div_pos; lia|apply Z.div_lt_upper_bound; nia].
      * by intros sk' [Hs _].
    + intros sk' Hs. cbn. split; [done|]. destruct Hsk. vegas_inv_tac; lia.
  - c_bind (window_step sk); [|cbn; auto]. apply Hopen, tcp_slow_start_opens; [done|lia].
  - cbn. split; [by apply window_step_refl|done].
Qed.

(** * Properties *)

(** The rule of Vegas.  When an acknowledgement ends a round trip with
    more than two samples, above the threshold and with the window unchanged
    during it, the module estimates [queue = old * (rtt - base) / rtt] segments
    in the network's queues from the smallest RTT of the round trip and the
    smallest ever, with no rounding error in the comparisons: more than 4
    queued segments take one segment off the window (2 remain), at most 1.5 add
    one, anything between keeps it.  The measurement then starts afresh. *)
Theorem vegas_once_per_rtt E sk v ack rtt in_flight flag :
  wf_sock sk -> vegas_inv v -> doing_vegas_now v <> 0 -> mss_cache sk <> 0 ->
  beg_snd_nxt v < ack -> 2 < cntRTT v -> beg_snd_cwnd v = snd_cwnd sk ->
  snd_ssthresh sk < snd_cwnd sk -> 2 <= snd_cwnd sk < snd_cwnd_clamp sk ->
  let old := (beg_snd_nxt v ⊖ beg_snd_una v) / mss_cache sk in
  let queue := old * (minRTT v - baseRTT v) in
  old < 2147483648 -> 2 * (old * baseRTT v) < 4294967296 ->
  tcp_vegas_cong_avoid vegas_defaults E sk v ack rtt in_flight flag =
    Ok (sk <| snd_cwnd :=
          if 4 * minRTT v <? queue then Z.max 2 (snd_cwnd sk - 1)
          else if 2 * queue <=? 3 * minRTT v then snd_cwnd sk + 1 else snd_cwnd sk |>,
        v <| beg_snd_una := beg_snd_nxt v |> <| beg_snd_nxt := snd_nxt sk |>
          <| beg_snd_cwnd := snd_cwnd sk |> <| cntRTT := 0 |> <| minRTT := 0x7fffffff |>).
Proof.
  intros Hsk Hv Hd Hm Ha Hcnt Hb Hth Hw old queue Ho Hno. unfold tcp_vegas_cong_avoid, after.
  rewrite (proj2 (nz_true _) Hd), (proj2 (Z.ltb_lt _ _) Ha), udiv_ok by done. cbn [negb]. c_ret.
  fold old. assert (Hold : 0 <= old).
  { apply Z.div_pos; [apply u32_range|]. destruct Hsk; lia. }
  cbn [cntRTT set_field]. rewrite (proj2 (Z.leb_gt _ _) Hcnt).
  pose proof (vegas_target_ok old v Hv Hold Hno) as Ht. unfold vegas_target in Ht |- *.
  cbn [baseRTT minRTT set_field]. rewrite Ht. c_ret.
  rewrite (proj2 (Z.leb_gt _ _) Hth). c_ret.
  destruct (vegas_diff_ok old v Hv Hold Hno Ho) as [Hd1 Hd2].
  set (diff := vegas_diff old _) in *. clearbody diff. fold queue in Hd2.
  assert (E1 : (8 <? diff) = (4 * minRTT v <? queue)) by (destruct Hv; apply eq_true_iff_eq; rewrite !Z.ltb_lt; nia).
  assert (E2 : (diff <? 4) = (2 * queue <=? 3 * minRTT v)).
  { destruct Hv. apply eq_true_iff_eq. rewrite Z.ltb_lt, Z.leb_le. nia. }
  do 2 f_equal. rewrite Hb. unfold vegas_avoid. change (u32 (beta vegas_defaults)) with 8.
  change (u32 (alpha vegas_defaults)) with 4. rewrite E1, E2. unfold vegas_bound. destruct Hsk.
  rewrite (u32_id (snd_cwnd sk - 1)), !(u32_id (snd_cwnd sk + 1)) by lia.
  destruct (4 * minRTT v <? queue); [|destruct (2 * queue <=? 3 * minRTT v)].
  - destruct (Z.ltb_spec (snd_cwnd sk) (snd_cwnd sk - 1)), (Z.ltb_spec (snd_cwnd sk - 1) (snd_cwnd sk));
      try lia. repeat case_cond; cbn in *; try lia; (destruct sk; cbn in *; f_equal; lia).
  - destruct (Z.ltb_spec (snd_cwnd sk) (snd_cwnd sk + 1)); [|lia].
    repeat case_cond; cbn in *; try lia; done.
  - rewrite Z.ltb_irrefl. repeat case_cond; cbn in *; try lia. by destruct sk.
Qed.

Lemma vegas_ex_inv : vegas_inv vegas_ex.
Proof. constructor; cbn; lia. Qed.

Lemma vegas_once_per_rtt_witness :
  let sk := sk_ex <| snd_ssthresh := 2 |> in
  tcp_vegas_cong_avoid vegas_defaults env_ex sk vegas_ex 12000 0 10 0 =
    Ok (sk <| snd_cwnd := 10 |>,
        vegas_ex <| beg_snd_una := 10000 |> <| beg_snd_nxt := 20000 |>
          <| beg_snd_cwnd := 10 |> <| cntRTT := 0 |> <| minRTT := 0x7fffffff |>).
Proof.
  intros sk. rewrite (vegas_once_per_rtt env_ex sk vegas_ex 12000 0 10 0);
    [reflexivity|..]; try (cbn; lia); by vm_compute.
Defined.

(** In every state the module can be in, with a segment size and a window
    that are not zero, an acknowledgement is processed without a trap (the
    smallest RTT, which the target is divided by, is never zero); the window
    stays between one segment and the clamp, and the invariant is kept. *)
Theorem vegas_cong_avoid_safe g E sk v ack rtt in_flight flag :
  wf_sock sk -> vegas_inv v -> mss_cache sk <> 0 ->
  1 <= snd_cwnd sk -> 2 <= snd_cwnd_clamp sk < 4294967295 ->
  exists sk' v', tcp_vegas_cong_avoid g E sk v ack rtt in_flight flag = Ok (sk', v')
    /\ window_step sk sk' /\ vegas_inv v'.
Proof.
  intros Hsk Hv Hm Hw Hcl.
  pose proof (tcp_vegas_cong_avoid_returns g E sk v ack rtt in_flight flag Hsk Hv Hm Hw Hcl) as H.
  apply returns_inv in H as ([sk' v'] & -> & H). by exists sk', v'.
Qed.

Lemma vegas_cong_avoid_safe_witness :
  exists sk' v', tcp_vegas_cong_avoid vegas_defaults env_ex sk_ex vegas_ex 12000 0 10 0 = Ok (sk', v')
    /\ window_step sk_ex sk' /\ vegas_inv v'.
Proof.
  apply vegas_cong_avoid_safe; [exact wf_sk_ex|exact vegas_ex_inv|cbn; lia..].
Defined.

(** The target is computed in 32 bits.  On a path without any queue (the
    smallest RTT of the round trip is the smallest ever, 110 ms) and 20000
    segments in flight, [old_wnd * baseRTT << 1] wraps, the module sees more
    than 19000 queued segments and shrinks the window. *)
Theorem vegas_target_wraps :
  let sk := sk_ex <| snd_cwnd := 20000 |> <| snd_cwnd_clamp := 30000 |>
                  <| snd_nxt := 60000000 |> in
  let v := mk_vegas 40000000 20000000 20000 1 5 110000 110000 in
  vegas_inv v
  /\ vegas_target ((beg_snd_nxt v ⊖ beg_snd_una v) / mss_cache sk) v = Ok 954
  /\ exists v', tcp_vegas_cong_avoid vegas_defaults env_ex sk v 40001000 0 20000 0
       = Ok (sk <| snd_cwnd := 19999 |>, v').
Proof.
  split; [constructor; cbn; lia|]. split; [by vm_compute|]. eexists. by vm_compute.
Qed.
