(* ===== verification/Veno.v ===== *)
(** TCP Veno (tcp_veno.c): Reno with Vegas' estimate of the queue, which tells
    losses by congestion from random ones. *)
From S2P Require Import Sock LinuxC Reno.
From S2P Require Vegas.

(** * Definitions *)

Definition V_PARAM_SHIFT : Z := 1.
Definition beta : Z := 3 ≪ V_PARAM_SHIFT.

Record veno := mk_veno {
  doing_veno_now : Z;         (* u8 *)
  cntrtt : Z;                 (* u16, that is unsigned int *)
  minrtt : Z;                 (* u32 *)
  basertt : Z;                (* u32 *)
  inc : Z;                    (* u32 *)
  diff : Z;                   (* u32 *)
}.
#[global] Instance eta_veno : Eta veno := fun r =>
  mk_veno (doing_veno_now r) (cntrtt r) (minrtt r) (basertt r) (inc r) (diff r).

Definition veno_enable (v : veno) : veno :=
  v <| doing_veno_now := 1 |> <| minrtt := 0x7fffffff |>.

Definition veno_disable (v : veno) : veno := v <| doing_veno_now := 0 |>.

Definition tcp_veno_init (v : veno) : veno :=
  veno_enable (v <| basertt := 0x7fffffff |> <| inc := 1 |>).

Definition tcp_veno_pkts_acked (E : env) (v : veno) (cnt last : Z) : veno :=
  if ktime_equal last net_invalid_timestamp then v
  else
    let vrtt := u32 (ktime_to_us (net_timedelta (ktime_get_real E) last) + 1) in
    let v := if vrtt <? basertt v then v <| basertt := vrtt |> else v in
    v <| minrtt := Z.min (minrtt v) vrtt |> <| cntrtt := cntrtt v ⊕ 1 |>.

Definition tcp_veno_state (v : veno) (ca_state : tcp_ca_state) : veno :=
  if decide (ca_state = TCP_CA_Open) then veno_enable v else veno_disable v.

Definition tcp_veno_cwnd_event (v : veno) (event : tcp_ca_event) : veno :=
  match event with
  | CA_EVENT_CWND_RESTART | CA_EVENT_TX_START => tcp_veno_init v
  | _ => v
  end.

(** The increase in congestion avoidance: every round trip, or every other. *)
Definition veno_increase (tp : tcp_sock) (v : veno) : tcp_sock * veno :=
  if diff v <? u32 beta then (cwnd_ai tp (snd_cwnd tp), v)
  else if snd_cwnd tp <=? snd_cwnd_cnt tp then
    let '(tp, v) :=
      if nz (inc v) && (snd_cwnd tp <? snd_cwnd_clamp tp)
      then (tp <| snd_cwnd := snd_cwnd tp ⊕ 1 |>, v <| inc := 0 |>)
      else (tp, v <| inc := 1 |>) in
    (tp <| snd_cwnd_cnt := 0 |>, v)
  else (tp <| snd_cwnd_cnt := snd_cwnd_cnt tp ⊕ 1 |>, v).

Definition veno_bound (tp : tcp_sock) : tcp_sock :=
  if snd_cwnd tp <? 2 then tp <| snd_cwnd := 2 |>
  else if snd_cwnd_clamp tp <? snd_cwnd tp then tp <| snd_cwnd := snd_cwnd_clamp tp |>
  else tp.

Definition tcp_veno_cong_avoid (E : env) (sk : tcp_sock) (v : veno)
  (ack seq_rtt in_flight flag : Z) : outcome (tcp_sock * veno) :=
  if negb (nz (doing_veno_now v)) then
    sk ← tcp_reno_cong_avoid E sk ack seq_rtt in_flight flag; Ok (sk, v)
  else if negb (tcp_is_cwnd_limited sk in_flight) then Ok (sk, v)
  else
    '(sk, v) ← (
      if cntrtt v <=? 2 then
        sk ← tcp_reno_cong_avoid E sk ack seq_rtt in_flight flag; Ok (sk, v)
      else
        target_cwnd ← udiv (u32 ((snd_cwnd sk ⊗ basertt v) ≪ V_PARAM_SHIFT)) (minrtt v);
        let v := v <| diff := u32 (snd_cwnd sk ≪ V_PARAM_SHIFT) ⊖ target_cwnd |> in
        '(sk, v) ← (if snd_cwnd sk <=? snd_ssthresh sk
                    then sk ← tcp_slow_start E sk; Ok (sk, v)
                    else Ok (veno_increase sk v));
        Ok (veno_bound sk, v));
    Ok (sk, v <| minrtt := 0x7fffffff |>).

Definition tcp_veno_ssthresh (sk : tcp_sock) (v : veno) : Z :=
  if diff v <? u32 beta then Z.max (snd_cwnd sk ⊗ 4 / 5) 2
  else Z.max (snd_cwnd sk ≫ 1) 2.

Definition tcp_veno : tcp_congestion_ops veno := {|
  ops_name := "veno";
  ops_flags := TCP_CONG_RTT_STAMP;
  ops_init := Some (fun _ sk v => Ok (sk, tcp_veno_init v));
  ops_ssthresh := fun _ sk v => Ok (tcp_veno_ssthresh sk v, v);
  ops_cong_avoid := fun E sk v ack rtt in_flight flag =>
    tcp_veno_cong_avoid E sk v ack rtt in_flight flag;
  ops_min_cwnd := None;
  ops_rtt_sample := None;
  ops_set_state := Some (fun _ _ v st => Ok (tcp_veno_state v st));
  ops_cwnd_event := Some (fun _ sk v ev => Ok (sk, tcp_veno_cwnd_event v ev));
  ops_undo_cwnd := None;
  ops_pkts_acked := Some (fun E sk v n last => Ok (sk, tcp_veno_pkts_acked E v n last));
|}.

(** ** Invariant *)

Record veno_inv (v : veno) : Prop := mk_veno_inv {
  ve_cnt : in_u32 (cntrtt v);
  ve_base : 1 <= basertt v;
  ve_min : basertt v <= minrtt v <= 0x7fffffff;
}.

Definition veno_ex : veno := mk_veno 1 8 110000 100000 1 0.

(** * Lemmas *)

Lemma tcp_veno_init_inv v : in_u32 (cntrtt v) -> veno_inv (tcp_veno_init v).
Proof. constructor; cbn; lia. Qed.

Lemma tcp_veno_state_inv v st : veno_inv v -> veno_inv (tcp_veno_state v st).
Proof.
  intros []. unfold tcp_veno_state. case_decide; constructor; cbn; lia.
Qed.

Lemma tcp_veno_cwnd_event_inv v ev : veno_inv v -> veno_inv (tcp_veno_cwnd_event v ev).
Proof. intros Hv. destruct ev; cbn; try done; apply tcp_veno_init_inv, Hv. Qed.

Lemma tcp_veno_pkts_acked_inv E v cnt last :
  wf_env E -> veno_inv v -> 0 <= ktime_get_real E - last < 4294967295000 ->
  veno_inv (tcp_veno_pkts_acked E v cnt last).
Proof.
  intros HE [] Hl. unfold tcp_veno_pkts_acked. case_cond; [done|].
  unfold ktime_to_us, net_timedelta. rewrite (s64_id (_ - _)) by lia.
  rewrite Z.quot_div_nonneg by lia.
  assert (0 <= (ktime_get_real E - last) / 1000 < 4294967295).
  { split; [apply Z.div_pos; lia|apply Z.div_lt_upper_bound; lia]. }
  rewrite (u32_id (_ / _ + 1)) by lia. set (r := _ / _ + 1) in *.
  assert (1 <= r) by lia. clearbody r. pose proof (u32_range (cntrtt v + 1)).
  case_cond; cbn -[Z.min]; constructor; cbn -[Z.min]; lia.
Qed.

Lemma veno_increase_opens sk v :
  wf_sock sk -> cwnd_opened sk (veno_increase sk v).1
  /\ (veno_inv v -> veno_inv (veno_increase sk v).2).
Proof.
  intros Hsk. unfold veno_increase. case_cond; [cbn; auto using cwnd_ai_opens|].
  destruct Hsk. repeat case_cond; cbn; (split; [|by intros []]).
  - apply andb_true_iff in Hc1 as [_ Hcl]. rewrite u32_id by lia.
    exists (snd_cwnd sk + 1), 0, (bytes_acked sk). split; [by destruct sk|lia].
  - exists (snd_cwnd sk), 0, (bytes_acked sk). split; [by destruct sk|lia].
  - exists (snd_cwnd sk), (snd_cwnd_cnt sk ⊕ 1), (bytes_acked sk).
    pose proof (u32_range (snd_cwnd_cnt sk + 1)). split; [by destruct sk|lia].
Qed.

Lemma veno_bound_step sk0 sk :
  1 <= snd_cwnd sk0 -> 2 <= snd_cwnd_clamp sk0 -> window_step sk0 sk ->
  window_step sk0 (veno_bound sk).
Proof.
  intros Hw Hcl ((w & c & b & th & st & -> & Hth) & Hwf & Hr). cbn in Hr.
  assert (Hgoal : forall w', 1 <= w' <= Z.max (snd_cwnd sk0) (snd_cwnd_clamp sk0) -> in_u32 w' ->
    window_step sk0 (sk0 <| bytes_acked := b |> <| snd_cwnd_cnt := c |>
      <| snd_cwnd := w' |> <| snd_ssthresh := th |> <| snd_cwnd_stamp := st |>)).
  { intros w' Hw' Hu. split; [by exists w', c, b, th, st|].
    split; [destruct Hwf; constructor; cbn in *; lia|done]. }
  destruct Hwf; cbn in *. unfold veno_bound. cbn.
  destruct (Z.ltb_spec w 2); [apply Hgoal; lia|].
  destruct (Z.ltb_spec (snd_cwnd_clamp sk0) w); apply Hgoal; lia.
Qed.

Lemma tcp_veno_cong_avoid_returns E sk v ack rtt in_flight flag :
  wf_sock sk -> veno_inv v -> 1 <= snd_cwnd sk -> 2 <= snd_cwnd_clamp sk ->
  returns (tcp_veno_cong_avoid E sk v ack rtt in_flight flag)
    (fun '(sk', v') => window_step sk sk' /\ veno_inv v').
Proof.
  intros Hsk Hv Hw Hcl. unfold tcp_veno_cong_avoid.
  assert (Hopen : forall m, returns m (cwnd_opened sk) -> returns m (window_step sk)).
  { intros m Hr. eapply returns_mono; [exact Hr|]. intros sk' Ho. by apply cwnd_opened_step. }
  assert (Hreno : returns (tcp_reno_cong_avoid E sk ack rtt in_flight flag) (window_step sk))
    by (apply Hopen, tcp_reno_cong_avoid_opens; [done|lia]).
  case_cond; [c_bind (window_step sk); [done|cbn; auto]|].
  case_cond; [cbn; auto using window_step_refl|].
  c_bind (fun '(sk', v') => window_step sk sk' /\ veno_inv v').
  - case_cond; [c_bind (window_step sk); [done|cbn; auto]|].
    rewrite udiv_ok by (destruct Hv; lia). c_ret. set (v1 := v <| diff := _ |>).
    assert (Hv1 : veno_inv v1) by by destruct Hv. clearbody v1.
    c_bind (fun '(sk', v') => window_step sk sk' /\ veno_inv v').
    + case_cond.
      * c_bind (window_step sk); [apply Hopen, tcp_slow_start_opens; [done|lia]|cbn; auto].
      * cbn. destruct (veno_increase_opens sk v1 Hsk) as [Ho Hi].
        destruct (veno_increase sk v1) as [sk' v']. cbn in *.
        split; [by apply cwnd_opened_step|auto].
    + intros [sk' v'] [Hs Hi]. cbn. split; [by apply veno_bound_step|done].
  - intros [sk' v'] [Hs []]. cbn. split; [done|]. constructor; cbn; lia.
Qed.

(** What an acknowledgement with enough samples does to the private state. *)
Lemma veno_frame E sk v ack rtt in_flight flag sk' v' :
  doing_veno_now v <> 0 -> snd_cwnd sk <= in_flight -> 2 < cntrtt v -> minrtt v <> 0 ->
  tcp_veno_cong_avoid E sk v ack rtt in_flight flag = Ok (sk', v') ->
  basertt v' = basertt v /\ cntrtt v' = cntrtt v /\ doing_veno_now v' = doing_veno_now v
  /\ minrtt v' = 0x7fffffff
  /\ diff v' = u32 (snd_cwnd sk ≪ V_PARAM_SHIFT)
               ⊖ u32 ((snd_cwnd sk ⊗ basertt v) ≪ V_PARAM_SHIFT) / minrtt v.
Proof.
  intros Hd Hf Hc Hm. unfold tcp_veno_cong_avoid, tcp_is_cwnd_limited.
  rewrite (proj2 (nz_true _) Hd), (proj2 (Z.leb_le _ _) Hf), (proj2 (Z.leb_gt _ _) Hc). cbn [negb].
  rewrite udiv_ok by done. c_ret. set (v1 := v <| diff := _ |>).
  assert (Hi : forall t, basertt (veno_increase t v1).2 = basertt v1
    /\ cntrtt (veno_increase t v1).2 = cntrtt v1
    /\ doing_veno_now (veno_increase t v1).2 = doing_veno_now v1
    /\ diff (veno_increase t v1).2 = diff v1).
  { intros t. unfold veno_increase. by repeat case_cond. }
  destruct (snd_cwnd sk <=? snd_ssthresh sk).
  - destruct (tcp_slow_start E sk); [|done]. c_ret. by intros [= <- <-].
  - specialize (Hi sk). c_ret. destruct (veno_increase sk v1) as [t v2]. c_ret.
    intros [= <- <-]. cbn in *. tauto.
Qed.

(** * Properties *)

(** The distinction Veno is named for.  With [queue = cwnd * (rtt - base) /
    rtt] segments estimated in the network's queues at the last acknowledgement
    above the threshold, a loss cuts the window by one fifth if the queue was at
    most 2.5 segments, by a half otherwise; never below 2. *)
Theorem veno_decrease E sk v ack rtt in_flight flag :
  wf_sock sk -> veno_inv v -> doing_veno_now v <> 0 -> snd_cwnd sk <= in_flight ->
  2 < cntrtt v -> snd_ssthresh sk < snd_cwnd sk ->
  2 <= snd_cwnd sk <= snd_cwnd_clamp sk -> snd_cwnd sk < 1073741824 ->
  2 * (snd_cwnd sk * basertt v) < 4294967296 ->
  exists sk' v', tcp_veno_cong_avoid E sk v ack rtt in_flight flag = Ok (sk', v')
    /\ forall sk2, 0 <= snd_cwnd sk2 < 1073741824 ->
       tcp_veno_ssthresh sk2 v' =
         if 2 * (snd_cwnd sk * (minrtt v - basertt v)) <=? 5 * minrtt v
         then Z.max 2 (snd_cwnd sk2 * 4 / 5) else Z.max 2 (snd_cwnd sk2 / 2).
Proof.
  intros Hsk Hv Hd Hf Hc Hth Hw Hw2 Hno. unfold tcp_veno_cong_avoid, tcp_is_cwnd_limited.
  rewrite (proj2 (nz_true _) Hd), (proj2 (Z.leb_le _ _) Hf), (proj2 (Z.leb_gt _ _) Hc). cbn [negb].
  set (vv := Vegas.mk_vegas 0 0 0 0 0 (minrtt v) (basertt v)).
  assert (Hvv : Vegas.vegas_inv vv) by (destruct Hv; constructor; cbn; lia).
  pose proof (Vegas.vegas_target_ok (snd_cwnd sk) vv Hvv ltac:(lia) Hno) as Ht.
  unfold Vegas.vegas_target in Ht. change Vegas.V_PARAM_SHIFT with V_PARAM_SHIFT in Ht.
  cbn [Vegas.baseRTT Vegas.minRTT vv] in Ht. rewrite Ht. c_ret.
  destruct (Vegas.vegas_diff_ok (snd_cwnd sk) vv Hvv) as [Hd1 Hd2]; [lia|done|lia|].
  unfold Vegas.vegas_diff in Hd1, Hd2. change Vegas.V_PARAM_SHIFT with V_PARAM_SHIFT in Hd1, Hd2.
  cbn [Vegas.baseRTT Vegas.minRTT vv] in Hd1, Hd2.
  set (d := u32 (snd_cwnd sk ≪ V_PARAM_SHIFT) ⊖ _) in *. clearbody d.
  rewrite (proj2 (Z.leb_gt _ _) Hth). c_ret.
  set (v1 := v <| diff := d |>).
  assert (Hdiff : diff (veno_increase sk v1).2 = d) by (unfold veno_increase; by repeat case_cond).
  destruct (veno_increase sk v1) as [sk' v']. cbn in Hdiff. c_ret.
  do 2 eexists. split; [done|]. intros sk2 Hs2. unfold tcp_veno_ssthresh. cbn -[Z.max Z.mul Z.div u32].
  change (u32 beta) with 6. rewrite Hdiff, (u32_id (snd_cwnd sk2 * 4)) by lia.
  rewrite Z.shiftr_div_pow2 by lia. change (2 ^ 1) with 2. rewrite !(Z.max_comm 2). destruct Hv.
  destruct (Z.ltb_spec d 6), (Z.leb_spec (2 * (snd_cwnd sk * (minrtt v - basertt v))) (5 * minrtt v));
    done || (exfalso; nia).
Qed.

Lemma veno_ex_inv : veno_inv veno_ex.
Proof. constructor; cbn; lia. Qed.

Lemma veno_decrease_witness :
  let sk := sk_ex <| snd_ssthresh := 2 |> in
  exists sk' v', tcp_veno_cong_avoid env_ex sk veno_ex 0 0 10 0 = Ok (sk', v')
    /\ forall sk2, 0 <= snd_cwnd sk2 < 1073741824 ->
       tcp_veno_ssthresh sk2 v' =
         if 2 * (snd_cwnd sk * (minrtt veno_ex - basertt veno_ex)) <=? 5 * minrtt veno_ex
         then Z.max 2 (snd_cwnd sk2 * 4 / 5) else Z.max 2 (snd_cwnd sk2 / 2).
Proof.
  intros sk. apply (veno_decrease env_ex sk veno_ex 0 0 10 0); [|exact veno_ex_inv|cbn; lia..].
  constructor; cbn; lia.
Defined.

(** The sample counter is never reset (the code that would is commented
    out) while the smallest RTT is, on every acknowledgement: an acknowledgement
    that follows another without a fresh sample finds [minrtt = 0x7fffffff] and
    takes any window of at least 3 segments as congested, whatever the queue. *)
Theorem veno_stale_minrtt E sk v ack rtt in_flight flag sk1 v1 sk2 v2 :
  veno_inv v -> doing_veno_now v <> 0 -> snd_cwnd sk <= in_flight -> 2 < cntrtt v ->
  tcp_veno_cong_avoid E sk v ack rtt in_flight flag = Ok (sk1, v1) ->
  snd_cwnd sk1 <= in_flight -> 3 <= snd_cwnd sk1 < 1073741824 ->
  2 * (snd_cwnd sk1 * basertt v) < 0x7fffffff ->
  tcp_veno_cong_avoid E sk1 v1 ack rtt in_flight flag = Ok (sk2, v2) ->
  cntrtt v2 = cntrtt v /\ diff v2 = 2 * snd_cwnd sk1 /\ u32 beta <= diff v2.
Proof.
  intros Hv Hd Hf Hc H1 Hf1 Hw Hno H2. destruct Hv.
  apply veno_frame in H1 as (Hb1 & Hc1 & Hd1 & Hm1 & _); [|done|done|done|lia].
  apply veno_frame in H2 as (Hb2 & Hc2 & _ & _ & Hdiff); [|congruence|done|lia|lia].
  rewrite Hb1, Hm1 in Hdiff. unfold V_PARAM_SHIFT in Hdiff.
  rewrite !Z.shiftl_mul_pow2 in Hdiff by lia. change (2 ^ 1) with 2 in Hdiff.
  rewrite (u32_id (snd_cwnd sk1 * basertt v)), (u32_id (snd_cwnd sk1 * basertt v * 2)),
    (Z.div_small (snd_cwnd sk1 * basertt v * 2)), (u32_id (snd_cwnd sk1 * 2)), u32_id in Hdiff by nia.
  change (u32 beta) with 6. split; [congruence|]. lia.
Qed.

Lemma veno_stale_minrtt_witness :
  exists sk1 v1 sk2 v2,
    tcp_veno_cong_avoid env_ex sk_ex veno_ex 0 0 20 0 = Ok (sk1, v1)
    /\ tcp_veno_cong_avoid env_ex sk1 v1 0 0 20 0 = Ok (sk2, v2)
    /\ cntrtt v2 = cntrtt veno_ex /\ diff v2 = 2 * snd_cwnd sk1 /\ u32 beta <= diff v2.
Proof.
  eexists _, _, _, _. split; [vm_compute; reflexivity|]. split; [vm_compute; reflexivity|].
  eapply (veno_stale_minrtt env_ex sk_ex veno_ex 0 0 20 0);
    [exact veno_ex_inv|cbn; lia|cbn; lia|cbn; lia|vm_compute; reflexivity
    |cbn; lia|cbn; lia|cbn; lia|vm_compute; reflexivity].
Defined.
