(* ===== verification/Yeah.v ===== *)
(** YeAH-TCP (tcp_yeah.c): Scalable TCP while the queue is short, Reno with
    precautionary decongestion otherwise, on top of Vegas' RTT filters. *)
From S2P Require Import Sock LinuxC Reno Vegas.

(** * Definitions *)

Definition TCP_YEAH_ALPHA : Z := 80.
Definition TCP_YEAH_GAMMA : Z := 1.
Definition TCP_YEAH_DELTA : Z := 3.
Definition TCP_YEAH_EPSILON : Z := 1.
Definition TCP_YEAH_PHY : Z := 8.
Definition TCP_YEAH_RHO : Z := 16.
Definition TCP_YEAH_ZETA : Z := 50.
Definition TCP_SCALABLE_AI_CNT : Z := 100.

Record yeah := mk_yeah {
  vegas_ : vegas;
  lastQ : Z;                  (* u32, as all the fields below *)
  doing_reno_now : Z;
  reno_count : Z;
  fast_count : Z;
  pkts_acked : Z;
}.
#[global] Instance eta_yeah : Eta yeah := fun r =>
  mk_yeah (vegas_ r) (lastQ r) (doing_reno_now r) (reno_count r) (fast_count r) (pkts_acked r).

Definition tcp_yeah_init (sk : tcp_sock) (y : yeah) : tcp_sock * yeah :=
  (sk <| snd_cwnd_clamp := Z.min (snd_cwnd_clamp sk) (4294967295 / 128) |>,
   y <| vegas_ := tcp_vegas_init sk (vegas_ y) |> <| doing_reno_now := 0 |> <| lastQ := 0 |>
     <| reno_count := 2 |>).

Definition tcp_yeah_pkts_acked (E : env) (sk : tcp_sock) (y : yeah) (n last : Z) : yeah :=
  let y := if decide (icsk_ca_state sk = TCP_CA_Open) then y <| pkts_acked := n |> else y in
  y <| vegas_ := tcp_vegas_pkts_acked E (vegas_ y) n last |>.

(** The increase of one acknowledgement. *)
Definition yeah_increase (E : env) (sk : tcp_sock) (y : yeah) : outcome (tcp_sock * yeah) :=
  if snd_cwnd sk <=? snd_ssthresh sk then
    sk ← tcp_slow_start E sk; Ok (sk, y)
  else if negb (nz (doing_reno_now y)) then
    let tp := sk <| snd_cwnd_cnt := snd_cwnd_cnt sk ⊕ pkts_acked y |> in
    let tp := if Z.min (snd_cwnd tp) TCP_SCALABLE_AI_CNT <? snd_cwnd_cnt tp then
                let tp := if snd_cwnd tp <? snd_cwnd_clamp tp
                          then tp <| snd_cwnd := snd_cwnd tp ⊕ 1 |> else tp in
                tp <| snd_cwnd_cnt := 0 |>
              else tp in
    Ok (tp, y <| pkts_acked := 1 |>)
  else
    let tp := if snd_cwnd_cnt sk <? snd_cwnd sk
              then sk <| snd_cwnd_cnt := snd_cwnd_cnt sk ⊕ 1 |> else sk in
    Ok (if snd_cwnd tp <=? snd_cwnd_cnt tp
        then tp <| snd_cwnd := snd_cwnd tp ⊕ 1 |> <| snd_cwnd_cnt := 0 |> else tp, y).

(** The estimate of the queue: the packets above the bandwidth. *)
Definition yeah_queue (sk : tcp_sock) (v : vegas) : outcome Z :=
  let bw := u64 (snd_cwnd sk * (minRTT v ⊖ baseRTT v)) in
  '(bw, _) ← do_div bw (minRTT v);
  Ok (u32 bw).

(** Decongestion, or the return to the fast mode. *)
Definition yeah_mode (sk : tcp_sock) (y : yeah) (queue : Z) : tcp_sock * yeah :=
  let v := vegas_ y in
  let '(sk, y) :=
    if (TCP_YEAH_ALPHA <? queue)
       || (baseRTT v / TCP_YEAH_PHY <? minRTT v ⊖ baseRTT v) then
      let sk :=
        if (TCP_YEAH_ALPHA <? queue) && (reno_count y <? snd_cwnd sk) then
          let reduction := Z.min (queue / TCP_YEAH_GAMMA) (snd_cwnd sk ≫ TCP_YEAH_EPSILON) in
          let sk := sk <| snd_cwnd := snd_cwnd sk ⊖ reduction |> in
          let sk := sk <| snd_cwnd := Z.max (snd_cwnd sk) (reno_count y) |> in
          sk <| snd_ssthresh := snd_cwnd sk |>
        else sk in
      let y := if reno_count y <=? 2 then y <| reno_count := Z.max (snd_cwnd sk ≫ 1) 2 |>
               else y <| reno_count := reno_count y ⊕ 1 |> in
      (sk, y <| doing_reno_now := Z.min (doing_reno_now y ⊕ 1) 0xffffff |>)
    else
      let y := y <| fast_count := fast_count y ⊕ 1 |> in
      let y := if TCP_YEAH_ZETA <? fast_count y
               then y <| reno_count := 2 |> <| fast_count := 0 |> else y in
      (sk, y <| doing_reno_now := 0 |>) in
  (sk, y <| lastQ := queue |>).

Definition tcp_yeah_cong_avoid (E : env) (sk : tcp_sock) (y : yeah)
  (ack seq_rtt in_flight flag : Z) : outcome (tcp_sock * yeah) :=
  if negb (tcp_is_cwnd_limited sk in_flight) then Ok (sk, y)
  else
    '(sk, y) ← yeah_increase E sk y;
    if after ack (beg_snd_nxt (vegas_ y)) then
      '(sk, y) ← (if 2 <? cntRTT (vegas_ y) then
                    queue ← yeah_queue sk (vegas_ y);
                    Ok (yeah_mode sk y queue)
                  else Ok (sk, y));
      let v := vegas_ y in
      Ok (sk, y <| vegas_ := v <| beg_snd_una := beg_snd_nxt v |>
                               <| beg_snd_nxt := snd_nxt sk |>
                               <| beg_snd_cwnd := snd_cwnd sk |>
                               <| cntRTT := 0 |> <| minRTT := 0x7fffffff |> |>)
    else Ok (sk, y).

Definition tcp_yeah_ssthresh (sk : tcp_sock) (y : yeah) : Z * yeah :=
  let reduction :=
    if doing_reno_now y <? TCP_YEAH_RHO then
      let reduction := Z.min (lastQ y) (Z.max (snd_cwnd sk ≫ 1) 2) in
      Z.max reduction (snd_cwnd sk ≫ TCP_YEAH_DELTA)
    else Z.max (snd_cwnd sk ≫ 1) 2 in
  (snd_cwnd sk ⊖ reduction,
   y <| fast_count := 0 |> <| reno_count := Z.max (reno_count y ≫ 1) 2 |>).

Definition tcp_yeah : tcp_congestion_ops yeah := {|
  ops_name := "yeah";
  ops_flags := TCP_CONG_RTT_STAMP;
  ops_init := Some (fun _ sk y => Ok (tcp_yeah_init sk y));
  ops_ssthresh := fun _ sk y => Ok (tcp_yeah_ssthresh sk y);
  ops_cong_avoid := fun E sk y ack rtt in_flight flag =>
    tcp_yeah_cong_avoid E sk y ack rtt in_flight flag;
  ops_min_cwnd := Some (fun _ sk _ => Ok (tcp_reno_min_cwnd sk));
  ops_rtt_sample := None;
  ops_set_state := Some (fun _ sk y st =>
    Ok (y <| vegas_ := tcp_vegas_state sk (vegas_ y) st |>));
  ops_cwnd_event := Some (fun _ sk y ev =>
    Ok (sk, y <| vegas_ := tcp_vegas_cwnd_event sk (vegas_ y) ev |>));
  ops_undo_cwnd := None;
  ops_pkts_acked := Some (fun E sk y n last => Ok (sk, tcp_yeah_pkts_acked E sk y n last));
|}.

(** ** Invariant *)

Record yeah_inv (y : yeah) : Prop := mk_yeah_inv {
  ye_vegas : vegas_inv (vegas_ y);
  ye_lastQ : in_u32 (lastQ y);
  ye_reno_now : 0 <= doing_reno_now y <= 0xffffff;
  ye_reno_count : in_u32 (reno_count y);
  ye_fast_count : in_u32 (fast_count y);
  ye_pkts_acked : in_u32 (pkts_acked y);
}.

(** [sk'] differs from [sk] by the window, its counter, the byte count and the
    threshold only. *)
Definition yeah_frame (sk sk' : tcp_sock) : Prop :=
  exists w c b th, sk' = sk <| bytes_acked := b |> <| snd_cwnd_cnt := c |>
     <| snd_cwnd := w |> <| snd_ssthresh := th |>.

Definition yeah_ex : yeah := mk_yeah vegas_ex 10 0 2 0 1.

(** * Lemmas *)

(** The queue in segments, rounded down: less than the window. *)
Lemma yeah_queue_ok sk v :
  vegas_inv v -> in_u32 (snd_cwnd sk) ->
  yeah_queue sk v = Ok (snd_cwnd sk * (minRTT v - baseRTT v) / minRTT v)
  /\ 0 <= snd_cwnd sk * (minRTT v - baseRTT v) / minRTT v <= snd_cwnd sk.
Proof.
  intros [] Hw. unfold yeah_queue. rewrite (u32_id (minRTT v - baseRTT v)) by lia.
  assert (Hb : 0 <= snd_cwnd sk * (minRTT v - baseRTT v) <= 4294967295 * 0x7fffffff)
    by (split; [apply Z.mul_nonneg_nonneg; lia|apply Z.mul_le_mono_nonneg; lia]).
  rewrite u64_id, do_div_ok by lia.
  assert (Hq : 0 <= snd_cwnd sk * (minRTT v - baseRTT v) / minRTT v <= snd_cwnd sk).
  { split; [apply Z.div_pos; lia|]. apply Z.div_le_upper_bound; [lia|].
    rewrite (Z.mul_comm (minRTT v)). apply Z.mul_le_mono_nonneg_l; lia. }
  cbn. rewrite u32_id by lia. done.
Qed.

Lemma yeah_frame_refl sk : yeah_frame sk sk.
Proof.
  exists (snd_cwnd sk), (snd_cwnd_cnt sk), (bytes_acked sk), (snd_ssthresh sk). by destruct sk.
Qed.

Lemma yeah_increase_returns E sk y :
  wf_sock sk -> yeah_inv y -> 1 <= snd_cwnd sk < 4294967295 ->
  returns (yeah_increase E sk y) (fun '(sk', y') => yeah_inv y' /\ wf_sock sk'
    /\ yeah_frame sk sk' /\ vegas_ y' = vegas_ y
    /\ snd_cwnd sk <= snd_cwnd sk' <= Z.max (snd_cwnd sk + 1) (snd_cwnd_clamp sk)).
Proof.
  intros Hsk Hy Hw. unfold yeah_increase. case_cond.
  - c_bind (cwnd_opened sk); [apply tcp_slow_start_opens; [done|lia]|].
    intros sk' Ho. assert (Hwf := cwnd_opened_wf _ _ Hsk Ho).
    destruct Ho as (w & c & b & -> & ? & ? & ?). cbn. split; [done|]. split; [done|].
    split; [by exists w, c, b, (snd_ssthresh sk)|]. split; [done|lia].
  - pose proof (u32_range (snd_cwnd_cnt sk + pkts_acked y)).
    pose proof (u32_range (snd_cwnd_cnt sk + 1)). destruct Hsk.
    case_cond; cbn [returns].
    + split; [destruct Hy; constructor; cbn; lia || done|].
      repeat case_cond; cbn in *; rewrite ?(u32_id (snd_cwnd sk + 1)) by lia;
        (split; [constructor; cbn; lia|]); (split; [|split; [done|lia]]); by do 4 eexists.
    + split; [done|].
      repeat case_cond; cbn in *; rewrite ?(u32_id (snd_cwnd sk + 1)) by lia;
        (split; [constructor; cbn; lia|]); (split; [|split; [done|lia]]);
        first [by do 4 eexists|apply yeah_frame_refl].
Qed.

Lemma yeah_mode_spec sk y queue :
  wf_sock sk -> yeah_inv y -> 1 <= snd_cwnd sk -> 0 <= queue <= snd_cwnd sk ->
  let '(sk', y') := yeah_mode sk y queue in
  yeah_inv y' /\ wf_sock sk' /\ yeah_frame sk sk' /\ vegas_ y' = vegas_ y
  /\ snd_cwnd sk - snd_cwnd sk / 2 <= snd_cwnd sk' <= snd_cwnd sk.
Proof.
  intros Hsk [] Hw Hq. unfold yeah_mode, TCP_YEAH_GAMMA, TCP_YEAH_EPSILON.
  rewrite Z.div_1_r, !Z.shiftr_div_pow2 by lia. change (2 ^ 1) with 2.
  assert (Hr : 0 <= Z.min queue (snd_cwnd sk / 2) <= snd_cwnd sk / 2) by (Z.div_mod_to_equations; lia).
  assert (Hh : snd_cwnd sk / 2 <= snd_cwnd sk) by (Z.div_mod_to_equations; lia).
  set (sk1 := if (TCP_YEAH_ALPHA <? queue) && _ then _ else sk).
  assert (Hsk1 : wf_sock sk1 /\ yeah_frame sk sk1
    /\ snd_cwnd sk - snd_cwnd sk / 2 <= snd_cwnd sk1 <= snd_cwnd sk).
  { subst sk1. case_cond; [|split; [done|split; [apply yeah_frame_refl|]]; cbn; Z.div_mod_to_equations; lia].
    apply andb_true_iff in Hc as [_ Hc]. destruct Hsk. cbn.
    rewrite u32_id by lia. split; [constructor; cbn; lia|]. split; [by do 4 eexists|lia]. }
  destruct Hsk1 as (Hwf1 & Hf1 & Hw1). clearbody sk1.
  pose proof (u32_range (reno_count y + 1)). pose proof (u32_range (fast_count y + 1)).
  pose proof (u32_range (doing_reno_now y + 1)).
  pose proof (wf_snd_cwnd _ Hwf1). pose proof (wf_snd_cwnd _ Hsk).
  destruct (_ || _).
  - destruct (Z.leb_spec (reno_count y) 2); cbn.
    + split; [|done]. constructor; cbn; try done; try lia.
      rewrite ?Z.shiftr_div_pow2 by lia. change (2 ^ 1) with 2. Z.div_mod_to_equations; lia.
    + split; [|done]. constructor; cbn; done || lia.
  - cbn. destruct (TCP_YEAH_ZETA <? fast_count y ⊕ 1); cbn;
      (split; [constructor; cbn; done || lia|]); (split; [done|]);
      (split; [apply yeah_frame_refl|]); (split; [done|]); Z.div_mod_to_equations; lia.
Qed.

Lemma yeah_frame_trans sk1 sk2 sk3 : yeah_frame sk1 sk2 -> yeah_frame sk2 sk3 -> yeah_frame sk1 sk3.
Proof.
  intros (w & c & b & th & ->) (w' & c' & b' & th' & ->). by exists w', c', b', th'.
Qed.

Lemma tcp_yeah_cong_avoid_returns E sk y ack rtt in_flight flag :
  wf_sock sk -> yeah_inv y -> 1 <= snd_cwnd sk < 4294967295 ->
  returns (tcp_yeah_cong_avoid E sk y ack rtt in_flight flag) (fun '(sk', y') =>
    yeah_inv y' /\ wf_sock sk' /\ yeah_frame sk sk'
    /\ snd_cwnd sk - snd_cwnd sk / 2 <= snd_cwnd sk' <= Z.max (snd_cwnd sk + 1) (snd_cwnd_clamp sk)).
Proof.
  intros Hsk Hy Hw. unfold tcp_yeah_cong_avoid.
  assert (Hh : 0 <= snd_cwnd sk / 2) by (apply Z.div_pos; lia).
  case_cond; [cbn; split; [done|split; [done|split; [apply yeah_frame_refl|lia]]]|].
  c_bind (fun '(sk', y') => yeah_inv y' /\ wf_sock sk' /\ yeah_frame sk sk'
    /\ snd_cwnd sk <= snd_cwnd sk' <= Z.max (snd_cwnd sk + 1) (snd_cwnd_clamp sk)).
  { eapply returns_mono; [by apply yeah_increase_returns|]. intros [sk' y']. tauto. }
  intros [sk1 y1] (Hy1 & Hwf1 & Hf1 & Hw1). case_cond; [|cbn; split; [done|split; [done|split; [done|lia]]]].
  pose proof (wf_snd_cwnd _ Hwf1).
  c_bind (fun '(sk', y') => yeah_inv y' /\ wf_sock sk' /\ yeah_frame sk sk' /\ vegas_ y' = vegas_ y1
    /\ snd_cwnd sk1 - snd_cwnd sk1 / 2 <= snd_cwnd sk' <= snd_cwnd sk1).
  - case_cond.
    + destruct (yeah_queue_ok sk1 (vegas_ y1)) as [-> Hq]; [apply Hy1|done|]. c_ret.
      pose proof (yeah_mode_spec sk1 y1 _ Hwf1 Hy1 ltac:(lia) Hq) as Hm.
      destruct (yeah_mode _ _ _) as [sk' y']. destruct Hm as (? & ? & ? & ? & ?). cbn.
      split; [done|]. split; [done|]. split; [by eapply yeah_frame_trans|done].
    + cbn. split; [done|]. split; [done|]. split; [done|]. split; [done|]. Z.div_mod_to_equations; lia.
  - intros [sk2 y2] (Hy2 & Hwf2 & Hf2 & _ & Hw2). cbn. split; [|split; [done|split; [done|]]].
    + destruct Hy2 as [Hv]. constructor; cbn; try done. destruct Hwf2. vegas_inv_tac; lia.
    + Z.div_mod_to_equations; lia.
Qed.

(** * Properties *)

(** In every state the module can be in, with a window of at least one
    segment, an acknowledgement is processed without a trap: the estimate of the
    queue is exact, and decongestion takes at most half of the window, so the
    window stays positive; only the window, its counter, the byte count and the
    threshold change, and the invariant is kept.  The window may pass the clamp,
    but by one segment per acknowledgement only. *)
Theorem yeah_cong_avoid_safe E sk y ack rtt in_flight flag :
  wf_sock sk -> yeah_inv y -> 1 <= snd_cwnd sk < 4294967295 ->
  exists sk' y', tcp_yeah_cong_avoid E sk y ack rtt in_flight flag = Ok (sk', y')
    /\ yeah_inv y' /\ wf_sock sk' /\ yeah_frame sk sk'
    /\ snd_cwnd sk - snd_cwnd sk / 2 <= snd_cwnd sk' <= Z.max (snd_cwnd sk + 1) (snd_cwnd_clamp sk).
Proof.
  intros Hsk Hy Hw.
  pose proof (tcp_yeah_cong_avoid_returns E sk y ack rtt in_flight flag Hsk Hy Hw) as H.
  apply returns_inv in H as ([sk' y'] & -> & H). by exists sk', y'.
Qed.

Lemma yeah_ex_inv : yeah_inv yeah_ex.
Proof. constructor; cbn; try lia. constructor; cbn; lia. Qed.

Lemma yeah_cong_avoid_safe_witness :
  exists sk' y', tcp_yeah_cong_avoid env_ex sk_ex yeah_ex 12000 0 10 0 = Ok (sk', y')
    /\ yeah_inv y' /\ wf_sock sk' /\ yeah_frame sk_ex sk'
    /\ snd_cwnd sk_ex - snd_cwnd sk_ex / 2 <= snd_cwnd sk'
       <= Z.max (snd_cwnd sk_ex + 1) (snd_cwnd_clamp sk_ex).
Proof. apply yeah_cong_avoid_safe; [exact wf_sk_ex|exact yeah_ex_inv|cbn; lia]. Defined.

(** In competition with Reno flows the window grows by one segment per
    window of acknowledgements and does not stop at the clamp: [cwnd]
    acknowledgements from an empty counter take it one above. *)
Theorem yeah_reno_ignores_clamp E sk y ack rtt in_flight flag :
  wf_sock sk -> doing_reno_now y <> 0 -> ack <= beg_snd_nxt (vegas_ y) ->
  snd_ssthresh sk < snd_cwnd sk -> 1 <= snd_cwnd sk < 4294967295 ->
  snd_cwnd_cnt sk = 0 -> snd_cwnd sk <= in_flight ->
  c_iter (Z.to_nat (snd_cwnd sk))
    (fun '(sk, y) => tcp_yeah_cong_avoid E sk y ack rtt in_flight flag) (sk, y)
  = Ok (sk <| snd_cwnd := snd_cwnd sk + 1 |>, y).
Proof.
  intros Hsk Hr Ha Hth Hw Hc Hf.
  assert (Hstep : forall c, 0 <= c < snd_cwnd sk ->
    tcp_yeah_cong_avoid E (sk <| snd_cwnd_cnt := c |>) y ack rtt in_flight flag
    = Ok (if snd_cwnd sk <=? c + 1 then sk <| snd_cwnd := snd_cwnd sk + 1 |> <| snd_cwnd_cnt := 0 |>
          else sk <| snd_cwnd_cnt := c + 1 |>, y)).
  { intros c Hc'. unfold tcp_yeah_cong_avoid, yeah_increase, tcp_is_cwnd_limited, after. cbn.
    rewrite (proj2 (Z.leb_le _ _) Hf), (proj2 (Z.leb_gt _ _) Hth), (proj2 (nz_true _) Hr).
    destruct (Z.ltb_spec c (snd_cwnd sk)); [|lia]. cbn. rewrite (u32_id (c + 1)), (u32_id (snd_cwnd sk + 1)) by lia.
    destruct (Z.ltb_spec (beg_snd_nxt (vegas_ y)) ack); [lia|].
    by destruct (snd_cwnd sk <=? c + 1). }
  replace (Z.to_nat (snd_cwnd sk)) with (Z.to_nat (snd_cwnd sk - 1) + 1)%nat by lia.
  rewrite c_iter_add.
  rewrite (c_iter_count _ (fun i => (sk <| snd_cwnd_cnt := Z.of_nat i |>, y))).
  - c_ret. cbn [c_iter]. rewrite Hstep by lia.
    destruct (Z.leb_spec (snd_cwnd sk) (Z.of_nat (Z.to_nat (snd_cwnd sk - 1)) + 1)); [|lia].
    cbn. do 2 f_equal. destruct sk; cbn in *. by subst.
  - f_equal. destruct sk; cbn in *. by subst.
  - intros i Hi. rewrite Hstep by lia.
    destruct (Z.leb_spec (snd_cwnd sk) (Z.of_nat i + 1)); [lia|]. do 3 f_equal. lia.
Qed.

Lemma yeah_reno_ignores_clamp_witness :
  let sk := sk_ex <| snd_cwnd := 1000 |> <| snd_cwnd_cnt := 0 |> in
  let y := yeah_ex <| doing_reno_now := 1 |> in
  c_iter (Z.to_nat (snd_cwnd sk))
    (fun '(sk, y) => tcp_yeah_cong_avoid env_ex sk y 0 0 2000 0) (sk, y)
  = Ok (sk <| snd_cwnd := snd_cwnd sk + 1 |>, y)
  /\ snd_cwnd_clamp sk = 1000.
Proof.
  intros sk y. split; [|done].
  apply (yeah_reno_ignores_clamp env_ex sk y 0 0 2000 0); [|cbn; lia..].
  constructor; cbn; lia.
Defined.

(** For a window of at least 4 segments the threshold after a loss keeps
    between a half and seven eighths of the window; but a window of one segment
    (after a timeout) loses at least 2 when the module is competing, or when it
    saw a queue of 2 or more, and the threshold wraps to [2^32 - 1], whose half
    becomes the window; a window of 2 leaves a threshold of 0. *)
Theorem yeah_ssthresh_bounds sk y :
  wf_sock sk -> yeah_inv y ->
  (4 <= snd_cwnd sk -> let th := (tcp_yeah_ssthresh sk y).1 in
     snd_cwnd sk - snd_cwnd sk / 2 <= th <= snd_cwnd sk - snd_cwnd sk / 8)
  /\ (16 <= doing_reno_now y \/ 2 <= lastQ y ->
     (snd_cwnd sk = 1 -> (tcp_yeah_ssthresh sk y).1 = 4294967295)
     /\ (snd_cwnd sk = 2 -> (tcp_yeah_ssthresh sk y).1 = 0)).
Proof.
  intros [] []. unfold tcp_yeah_ssthresh, TCP_YEAH_RHO, TCP_YEAH_DELTA. cbn [fst].
  rewrite !Z.shiftr_div_pow2 by lia. change (2 ^ 1) with 2. change (2 ^ 3) with 8. split.
  - intros Hw. cbv zeta. assert (2 <= snd_cwnd sk / 2 <= snd_cwnd sk) by (Z.div_mod_to_equations; lia).
    assert (0 <= snd_cwnd sk / 8 <= snd_cwnd sk / 2) by (Z.div_mod_to_equations; lia).
    case_cond; rewrite u32_id by lia; lia.
  - intros Hm. split; intros ->; change (1 / 2) with 0; change (2 / 2) with 1;
      change (1 / 8) with 0; change (2 / 8) with 0; (case_cond; [|by vm_compute]);
      (replace (Z.max (Z.min (lastQ y) (Z.max _ 2)) 0) with 2 by lia); by vm_compute.
Qed.

Lemma yeah_ssthresh_bounds_witness :
  let sk := sk_ex <| snd_cwnd := 1 |> in
  (tcp_yeah_ssthresh sk yeah_ex).1 = 4294967295
  /\ (4 <= snd_cwnd sk_ex -> let th := (tcp_yeah_ssthresh sk_ex yeah_ex).1 in
     snd_cwnd sk_ex - snd_cwnd sk_ex / 2 <= th <= snd_cwnd sk_ex - snd_cwnd sk_ex / 8).
Proof.
  intros sk. split.
  - apply (yeah_ssthresh_bounds sk yeah_ex); [constructor; cbn; lia|exact yeah_ex_inv|cbn; lia|done].
  - apply (yeah_ssthresh_bounds sk_ex yeah_ex wf_sk_ex yeah_ex_inv).
Defined.
