(* ===== verification/Westwood.v ===== *)
(** TCP Westwood+ (tcp_westwood.c): Reno whose window after a loss is the
    estimated bandwidth times the smallest RTT. *)
From S2P Require Import Sock LinuxC Reno.

(** * Definitions *)

Record westwood := mk_westwood {
  bw_ns_est : Z;              (* u32 *)
  bw_est : Z;                 (* u32 *)
  rtt_win_sx : Z;             (* u32 *)
  bk : Z;                     (* u32 *)
  w_snd_una : Z;              (* u32 *)
  cumul_ack : Z;              (* u32 *)
  accounted : Z;              (* u32 *)
  rtt : Z;                    (* u32 *)
  rtt_min : Z;                (* u32 *)
  first_ack : Z;              (* u8 *)
  reset_rtt_min : Z;          (* u8 *)
}.
#[global] Instance eta_westwood : Eta westwood := fun r =>
  mk_westwood (bw_ns_est r) (bw_est r) (rtt_win_sx r) (bk r) (w_snd_una r) (cumul_ack r)
    (accounted r) (rtt r) (rtt_min r) (first_ack r) (reset_rtt_min r).

Definition TCP_WESTWOOD_RTT_MIN : Z := Z.quot HZ 20.
Definition TCP_WESTWOOD_INIT_RTT : Z := 20 * HZ.

Definition tcp_westwood_init (E : env) (sk : tcp_sock) (w : westwood) : westwood :=
  w <| bk := 0 |> <| bw_ns_est := 0 |> <| bw_est := 0 |> <| accounted := 0 |>
    <| cumul_ack := 0 |> <| reset_rtt_min := 1 |>
    <| rtt := TCP_WESTWOOD_INIT_RTT |> <| rtt_min := TCP_WESTWOOD_INIT_RTT |>
    <| rtt_win_sx := tcp_time_stamp E |> <| w_snd_una := snd_una sk |> <| first_ack := 1 |>.

Definition westwood_do_filter (a b : Z) : Z := (7 ⊗ a ⊕ b) ≫ 3.

Definition westwood_filter (w : westwood) (delta : Z) : outcome westwood :=
  sample ← udiv (bk w) delta;
  Ok (if (bw_ns_est w =? 0) && (bw_est w =? 0) then
        let w := w <| bw_ns_est := sample |> in
        w <| bw_est := bw_ns_est w |>
      else
        let w := w <| bw_ns_est := westwood_do_filter (bw_ns_est w) sample |> in
        w <| bw_est := westwood_do_filter (bw_est w) (bw_ns_est w) |>).

Definition tcp_westwood_pkts_acked (sk : tcp_sock) (w : westwood) (cnt : Z) : westwood :=
  if 0 <? cnt then w <| rtt := srtt sk ≫ 3 |> else w.

(** The difference of the clocks is a signed number, but it is compared with,
    and passed on as, an unsigned one. *)
Definition westwood_update_window (E : env) (sk : tcp_sock) (w : westwood) : outcome westwood :=
  let delta := s32 (tcp_time_stamp E ⊖ rtt_win_sx w) in
  let w := if nz (first_ack w) then w <| w_snd_una := snd_una sk |> <| first_ack := 0 |> else w in
  if nz (rtt w) && (Z.max (rtt w) TCP_WESTWOOD_RTT_MIN <? u32 delta) then
    w ← westwood_filter w (u32 delta);
    Ok (w <| bk := 0 |> <| rtt_win_sx := tcp_time_stamp E |>)
  else Ok w.

Definition update_rtt_min (w : westwood) : westwood :=
  if nz (reset_rtt_min w) then w <| rtt_min := rtt w |> <| reset_rtt_min := 0 |>
  else w <| rtt_min := Z.min (rtt w) (rtt_min w) |>.

Definition westwood_fast_bw (E : env) (sk : tcp_sock) (w : westwood) : outcome westwood :=
  w ← westwood_update_window E sk w;
  let w := w <| bk := bk w ⊕ (snd_una sk ⊖ w_snd_una w) |> <| w_snd_una := snd_una sk |> in
  Ok (update_rtt_min w).

Definition westwood_acked_count (sk : tcp_sock) (w : westwood) : Z * westwood :=
  let w := w <| cumul_ack := snd_una sk ⊖ w_snd_una w |> in
  let w := if negb (nz (cumul_ack w))
           then w <| accounted := accounted w ⊕ mss_cache sk |> <| cumul_ack := mss_cache sk |>
           else w in
  let w := if mss_cache sk <? cumul_ack w then
             if cumul_ack w <=? accounted w
             then w <| accounted := accounted w ⊖ cumul_ack w |> <| cumul_ack := mss_cache sk |>
             else w <| cumul_ack := cumul_ack w ⊖ accounted w |> <| accounted := 0 |>
           else w in
  let w := w <| w_snd_una := snd_una sk |> in
  (cumul_ack w, w).

Definition tcp_westwood_bw_rttmin (sk : tcp_sock) (w : westwood) : outcome Z :=
  q ← udiv (bw_est w ⊗ rtt_min w) (mss_cache sk);
  Ok (Z.max q 2).

Definition tcp_westwood_event (E : env) (sk : tcp_sock) (w : westwood) (event : tcp_ca_event)
  : outcome (tcp_sock * westwood) :=
  match event with
  | CA_EVENT_FAST_ACK => w ← westwood_fast_bw E sk w; Ok (sk, w)
  | CA_EVENT_COMPLETE_CWR =>
      q ← tcp_westwood_bw_rttmin sk w;
      Ok (sk <| snd_ssthresh := q |> <| snd_cwnd := q |>, w)
  | CA_EVENT_FRTO =>
      q ← tcp_westwood_bw_rttmin sk w;
      Ok (sk <| snd_ssthresh := q |>, w <| reset_rtt_min := 1 |>)
  | CA_EVENT_SLOW_ACK =>
      w ← westwood_update_window E sk w;
      let '(n, w) := westwood_acked_count sk w in
      let w := w <| bk := bk w ⊕ n |> in
      Ok (sk, update_rtt_min w)
  | _ => Ok (sk, w)
  end.

Definition tcp_westwood : tcp_congestion_ops westwood := {|
  ops_name := "westwood";
  ops_flags := 0;
  ops_init := Some (fun E sk w => Ok (sk, tcp_westwood_init E sk w));
  ops_ssthresh := fun _ sk w => Ok (tcp_reno_ssthresh sk, w);
  ops_cong_avoid := fun E sk w ack rtt in_flight flag =>
    sk ← tcp_reno_cong_avoid E sk ack rtt in_flight flag; Ok (sk, w);
  ops_min_cwnd := Some (fun _ sk w => tcp_westwood_bw_rttmin sk w);
  ops_rtt_sample := None; ops_set_state := None;
  ops_cwnd_event := Some (fun E sk w ev => tcp_westwood_event E sk w ev);
  ops_undo_cwnd := None;
  ops_pkts_acked := Some (fun _ sk w n _ => Ok (sk, tcp_westwood_pkts_acked sk w n));
|}.

(** ** Invariant *)

(** Every field is a [u32]; the estimates are rates in bytes per millisecond. *)
Record westwood_inv (w : westwood) : Prop := mk_westwood_inv {
  wi_bw_ns_est : in_u32 (bw_ns_est w);
  wi_bw_est : in_u32 (bw_est w);
  wi_rtt_win_sx : in_u32 (rtt_win_sx w);
  wi_bk : in_u32 (bk w);
  wi_snd_una : in_u32 (w_snd_una w);
  wi_accounted : in_u32 (accounted w);
  wi_rtt : in_u32 (rtt w);
  wi_rtt_min : in_u32 (rtt_min w);
}.

Definition westwood_ex : westwood := mk_westwood 900 800 99000 500000 8000 0 1000 200 150 0 0.

(** * Lemmas *)

Ltac westwood_inv_tac :=
  match goal with
  | H : westwood_inv _ |- westwood_inv _ => destruct H; constructor; cbn; eauto with cint
  end.

Lemma westwood_do_filter_range a b : in_u32 (westwood_do_filter a b).
Proof.
  unfold westwood_do_filter. rewrite Z.shiftr_div_pow2 by lia. change (2 ^ 3) with 8.
  pose proof (u32_range (7 ⊗ a + b)). Z.div_mod_to_equations; lia.
Qed.

(** The filter is a weighted mean. *)
Lemma westwood_do_filter_mean a b :
  0 <= a -> 0 <= b -> 7 * a + b < 4294967296 ->
  Z.min a b <= westwood_do_filter a b <= Z.max a b
  /\ westwood_do_filter a b = (7 * a + b) / 8.
Proof.
  intros Ha Hb Hn. unfold westwood_do_filter.
  rewrite (u32_id (7 * a)), u32_id, Z.shiftr_div_pow2 by lia. change (2 ^ 3) with 8.
  split; [Z.div_mod_to_equations; lia|done].
Qed.

Lemma westwood_update_window_returns E sk w :
  wf_sock sk -> wf_env E -> westwood_inv w ->
  returns (westwood_update_window E sk w) westwood_inv.
Proof.
  intros Hsk HE Hw. unfold westwood_update_window. rewrite u32_s32, u32_u32.
  set (w1 := if nz (first_ack w) then _ else w).
  assert (Hw1 : westwood_inv w1).
  { subst w1. case_cond; [|done]. destruct Hsk. westwood_inv_tac; lia. }
  clearbody w1. case_cond; [|done]. apply andb_true_iff in Hc as [_ Hc].
  pose proof (u32_range (tcp_time_stamp E - rtt_win_sx w)) as Hd.
  set (delta := tcp_time_stamp E ⊖ rtt_win_sx w) in *. clearbody delta.
  change TCP_WESTWOOD_RTT_MIN with 50 in Hc. unfold westwood_filter.
  rewrite udiv_ok by lia. c_ret.
  assert (in_u32 (bk w1 / delta)).
  { destruct Hw1. split; [apply Z.div_pos; lia|apply Z.div_lt_upper_bound; nia]. }
  pose proof westwood_do_filter_range. destruct HE. cbn.
  case_cond; cbn; westwood_inv_tac; lia.
Qed.

Lemma update_rtt_min_inv w : westwood_inv w -> westwood_inv (update_rtt_min w).
Proof. intros []. unfold update_rtt_min. case_cond; constructor; cbn; lia. Qed.

Lemma westwood_acked_count_inv sk w :
  wf_sock sk -> westwood_inv w ->
  westwood_inv (westwood_acked_count sk w).2 /\ in_u32 (westwood_acked_count sk w).1.
Proof.
  intros [] []. unfold westwood_acked_count. cbn.
  pose proof (u32_range (snd_una sk - w_snd_una w)).
  pose proof (u32_range (accounted w + mss_cache sk)).
  pose proof (u32_range (accounted w - (snd_una sk ⊖ w_snd_una w))).
  pose proof (u32_range (snd_una sk ⊖ w_snd_una w - accounted w)).
  repeat case_cond; cbn in *; try lia; (split; [constructor; cbn; lia|lia]).
Qed.

Lemma tcp_westwood_event_returns E sk w ev :
  wf_sock sk -> wf_env E -> westwood_inv w -> mss_cache sk <> 0 ->
  returns (tcp_westwood_event E sk w ev) (fun '(sk', w') => wf_sock sk' /\ westwood_inv w'
    /\ (ev <> CA_EVENT_COMPLETE_CWR -> snd_cwnd sk' = snd_cwnd sk)
    /\ (sk' = sk \/ 2 <= snd_ssthresh sk')).
Proof.
  intros Hsk HE Hw Hm. unfold tcp_westwood_event.
  assert (Hbw : returns (tcp_westwood_bw_rttmin sk w) (fun q => 2 <= q < 4294967296)).
  { unfold tcp_westwood_bw_rttmin. rewrite udiv_ok by done. c_ret. cbn -[Z.max Z.div].
    pose proof (u32_range (bw_est w * rtt_min w)) as Hr. set (p := bw_est w ⊗ rtt_min w) in *.
    clearbody p. destruct Hsk.
    assert (0 <= p / mss_cache sk <= p) by (split; [apply Z.div_pos; lia|apply Z.div_le_upper_bound; nia]).
    lia. }
  destruct ev; try (cbn; auto 10; fail).
  - c_bind (fun q => 2 <= q < 4294967296); [done|]. intros q Hq. cbn.
    split; [destruct Hsk; constructor; cbn; lia|]. split; [done|]. split; [done|right; lia].
  - c_bind (fun q => 2 <= q < 4294967296); [done|]. intros q Hq. cbn.
    split; [destruct Hsk; constructor; cbn; lia|].
    split; [by destruct Hw|]. split; [done|right; lia].
  - c_bind westwood_inv.
    + unfold westwood_fast_bw. c_bind westwood_inv; [by apply westwood_update_window_returns|].
      intros w' Hw'. cbn. apply update_rtt_min_inv. destruct Hsk. westwood_inv_tac; lia.
    + intros w' Hw'. cbn. auto 10.
  - c_bind westwood_inv; [by apply westwood_update_window_returns|].
    intros w' Hw'. destruct (westwood_acked_count_inv sk w' Hsk Hw') as [Hi Hn].
    destruct (westwood_acked_count sk w') as [n w2]. cbn in *.
    split; [done|]. split; [|auto]. apply update_rtt_min_inv. westwood_inv_tac.
Qed.

(** * Properties *)

(** Every event is handled without a trap as long as the segment size is
    not zero (in particular the sample of the bandwidth never divides by zero:
    a window of measurement lasts at least 50 ms, also when the clock went
    back); the thresholds the module sets are at least 2, and only the end of
    a recovery touches the window. *)
Theorem westwood_event_safe E sk w ev :
  wf_sock sk -> wf_env E -> westwood_inv w -> mss_cache sk <> 0 ->
  exists sk' w', tcp_westwood_event E sk w ev = Ok (sk', w')
    /\ wf_sock sk' /\ westwood_inv w'
    /\ (ev <> CA_EVENT_COMPLETE_CWR -> snd_cwnd sk' = snd_cwnd sk)
    /\ (sk' = sk \/ 2 <= snd_ssthresh sk').
Proof.
  intros Hsk HE Hw Hm. pose proof (tcp_westwood_event_returns E sk w ev Hsk HE Hw Hm) as H.
  apply returns_inv in H as ([sk' w'] & -> & H). by exists sk', w'.
Qed.

Lemma westwood_ex_inv : westwood_inv westwood_ex.
Proof. constructor; cbn; lia. Qed.

Lemma westwood_event_safe_witness :
  exists sk' w', tcp_westwood_event env_ex sk_ex westwood_ex CA_EVENT_SLOW_ACK = Ok (sk', w')
    /\ wf_sock sk' /\ westwood_inv w'
    /\ (CA_EVENT_SLOW_ACK <> CA_EVENT_COMPLETE_CWR -> snd_cwnd sk' = snd_cwnd sk_ex)
    /\ (sk' = sk_ex \/ 2 <= snd_ssthresh sk').
Proof.
  apply westwood_event_safe; [exact wf_sk_ex|exact wf_env_ex|exact westwood_ex_inv|cbn; lia].
Defined.

(** The accounting of duplicate and delayed acknowledgements.  The bytes
    counted for an acknowledgement are those it acknowledges plus the change of
    the credit [accounted] taken by earlier duplicates: each duplicate counts
    one segment in advance and the cumulative acknowledgement that follows pays
    it back.  Only when the credit covers the whole of it is one more segment
    counted. *)
Theorem westwood_acked_count_balance sk w :
  wf_sock sk -> westwood_inv w -> accounted w + mss_cache sk < 4294967296 ->
  let d := snd_una sk ⊖ w_snd_una w in
  let '(n, w') := westwood_acked_count sk w in
  w_snd_una w' = snd_una sk /\ in_u32 (accounted w')
  /\ n = d + (accounted w' - accounted w)
       + (if (mss_cache sk <? d) && (d <=? accounted w) then mss_cache sk else 0).
Proof.
  intros [] [] Ha d. unfold westwood_acked_count. cbn. fold d.
  pose proof (u32_range (snd_una sk - w_snd_una w)) as Hd. fold d in Hd. clearbody d.
  destruct (nz d) eqn:Hz.
  - apply nz_true in Hz. cbn. destruct (Z.ltb_spec (mss_cache sk) d); cbn.
    + destruct (Z.leb_spec d (accounted w)); cbn; rewrite u32_id by lia; lia.
    + lia.
  - apply nz_false in Hz as ->. cbn. rewrite Z.ltb_irrefl. cbn. rewrite u32_id by lia.
    destruct (Z.ltb_spec (mss_cache sk) 0); [lia|]. cbn. lia.
Qed.

Lemma westwood_acked_count_balance_witness :
  let d := snd_una sk_ex ⊖ w_snd_una westwood_ex in
  let '(n, w') := westwood_acked_count sk_ex westwood_ex in
  w_snd_una w' = snd_una sk_ex /\ in_u32 (accounted w')
  /\ n = d + (accounted w' - accounted westwood_ex)
       + (if (mss_cache sk_ex <? d) && (d <=? accounted westwood_ex) then mss_cache sk_ex else 0).
Proof.
  exact (westwood_acked_count_balance sk_ex westwood_ex wf_sk_ex westwood_ex_inv ltac:(cbn; lia)).
Defined.
