(* ===== verification/Illinois.v ===== *)
(** TCP-Illinois (tcp_illinois.c): the increase and the decrease are functions
    of the average queueing delay of the last round trip. *)
From S2P Require Import Sock LinuxC Reno.

(** * Definitions *)

Definition ALPHA_SHIFT : Z := 7.
Definition ALPHA_SCALE : Z := 1 ≪ ALPHA_SHIFT.
Definition ALPHA_MIN : Z := (3 * ALPHA_SCALE) / 10.
Definition ALPHA_MAX : Z := 10 * ALPHA_SCALE.
Definition ALPHA_BASE : Z := ALPHA_SCALE.
Definition U32_MAX : Z := 4294967295.
Definition RTT_MAX : Z := U32_MAX / ALPHA_MAX.
Definition BETA_SHIFT : Z := 6.
Definition BETA_SCALE : Z := 1 ≪ BETA_SHIFT.
Definition BETA_MIN : Z := BETA_SCALE / 8.
Definition BETA_MAX : Z := BETA_SCALE / 2.
Definition BETA_BASE : Z := BETA_MAX.

Record illinois_params := mk_illinois_params {
  win_thresh : Z;             (* int *)
  theta : Z;                  (* int *)
}.
Definition illinois_defaults : illinois_params := {| win_thresh := 15; theta := 5 |}.

Record illinois := mk_illinois {
  sum_rtt : Z;                (* u64 *)
  cnt_rtt : Z;                (* u16, that is unsigned int *)
  base_rtt : Z;               (* u32 *)
  max_rtt : Z;                (* u32 *)
  end_seq : Z;                (* u32 *)
  alpha_ : Z;                 (* u32 *)
  beta_ : Z;                  (* u32 *)
  acked : Z;                  (* u16, that is unsigned int *)
  rtt_above : Z;              (* u8 *)
  rtt_low : Z;                (* u8 *)
}.
#[global] Instance eta_illinois : Eta illinois := fun r =>
  mk_illinois (sum_rtt r) (cnt_rtt r) (base_rtt r) (max_rtt r) (end_seq r) (alpha_ r) (beta_ r)
    (acked r) (rtt_above r) (rtt_low r).

Definition rtt_reset (sk : tcp_sock) (ca : illinois) : illinois :=
  ca <| end_seq := snd_nxt sk |> <| cnt_rtt := 0 |> <| sum_rtt := 0 |>.

Definition tcp_illinois_init (sk : tcp_sock) (ca : illinois) : illinois :=
  rtt_reset sk (ca <| alpha_ := ALPHA_MAX |> <| beta_ := BETA_BASE |>
    <| base_rtt := 0x7fffffff |> <| max_rtt := 0 |>
    <| acked := 0 |> <| rtt_low := 0 |> <| rtt_above := 0 |>).

Definition tcp_illinois_acked (E : env) (ca : illinois) (pkts_acked last : Z) : illinois :=
  let ca := ca <| acked := pkts_acked |> in
  if ktime_equal last net_invalid_timestamp then ca
  else
    let rtt := u32 (ktime_to_us (net_timedelta (ktime_get_real E) last)) in
    let rtt := if RTT_MAX <? rtt then RTT_MAX else rtt in
    let ca := if rtt <? base_rtt ca then ca <| base_rtt := rtt |> else ca in
    let ca := if max_rtt ca <? rtt then ca <| max_rtt := rtt |> else ca in
    ca <| cnt_rtt := cnt_rtt ca ⊕ 1 |> <| sum_rtt := u64 (sum_rtt ca + rtt) |>.

Definition max_delay (ca : illinois) : Z := max_rtt ca ⊖ base_rtt ca.

Definition avg_delay (ca : illinois) : outcome Z :=
  '(t, _) ← do_div (sum_rtt ca) (cnt_rtt ca);
  Ok (u32 (u64 (t - base_rtt ca))).

(** The curve of the increase, for a delay above the low threshold. *)
Definition alpha_curve (da dm d1 : Z) : outcome Z :=
  let dm := dm ⊖ d1 in
  let da := da ⊖ d1 in
  udiv (dm ⊗ ALPHA_MAX) (dm ⊕ (da ⊗ (ALPHA_MAX - ALPHA_MIN)) / ALPHA_MIN).

Definition alpha (g : illinois_params) (ca : illinois) (da dm : Z) : outcome (Z * illinois) :=
  let d1 := dm / 100 in
  if da <=? d1 then
    if negb (nz (rtt_above ca)) then Ok (ALPHA_MAX, ca)
    else
      let ca := ca <| rtt_low := u8 (rtt_low ca + 1) |> in
      if rtt_low ca <? theta g then Ok (alpha_ ca, ca)
      else Ok (ALPHA_MAX, ca <| rtt_low := 0 |> <| rtt_above := 0 |>)
  else
    let ca := ca <| rtt_above := 1 |> in
    a ← alpha_curve da dm d1; Ok (a, ca).

Definition beta (da dm : Z) : outcome Z :=
  let d2 := dm / 10 in
  if da <=? d2 then Ok BETA_MIN
  else
    let d3 := (8 ⊗ dm) / 10 in
    if (d3 <=? da) || (d3 <=? d2) then Ok BETA_MAX
    else udiv (u32 (BETA_MIN * d3 - BETA_MAX * d2 + (BETA_MAX - BETA_MIN) * da)) (d3 ⊖ d2).

Definition update_params (g : illinois_params) (sk : tcp_sock) (ca : illinois) : outcome illinois :=
  ca ← (if snd_cwnd sk <? u32 (win_thresh g) then
          Ok (ca <| alpha_ := ALPHA_BASE |> <| beta_ := BETA_BASE |>)
        else if 0 <? cnt_rtt ca then
          let dm := max_delay ca in
          da ← avg_delay ca;
          '(a, ca) ← alpha g ca da dm;
          let ca := ca <| alpha_ := a |> in
          b ← beta da dm;
          Ok (ca <| beta_ := b |>)
        else Ok ca);
  Ok (rtt_reset sk ca).

Definition tcp_illinois_state (sk : tcp_sock) (ca : illinois) (new_state : tcp_ca_state) : illinois :=
  if decide (new_state = TCP_CA_Loss) then
    rtt_reset sk (ca <| alpha_ := ALPHA_BASE |> <| beta_ := BETA_BASE |>
                     <| rtt_low := 0 |> <| rtt_above := 0 |>)
  else ca.

Definition tcp_illinois_cong_avoid (g : illinois_params) (E : env) (sk : tcp_sock) (ca : illinois)
  (ack rtt in_flight flag : Z) : outcome (tcp_sock * illinois) :=
  ca ← (if after ack (end_seq ca) then update_params g sk ca else Ok ca);
  if negb (tcp_is_cwnd_limited sk in_flight) then Ok (sk, ca)
  else if snd_cwnd sk <=? snd_ssthresh sk then
    sk ← tcp_slow_start E sk; Ok (sk, ca)
  else
    let tp := sk <| snd_cwnd_cnt := snd_cwnd_cnt sk ⊕ acked ca |> in
    let ca := ca <| acked := 1 |> in
    let delta := (snd_cwnd_cnt tp ⊗ alpha_ ca) ≫ ALPHA_SHIFT in
    if snd_cwnd tp <=? delta then
      q ← udiv delta (snd_cwnd tp);
      Ok (tp <| snd_cwnd := Z.min (snd_cwnd tp ⊕ q) (snd_cwnd_clamp tp) |>
             <| snd_cwnd_cnt := 0 |>, ca)
    else Ok (tp, ca).

Definition tcp_illinois_ssthresh (sk : tcp_sock) (ca : illinois) : Z :=
  Z.max ((snd_cwnd sk ⊗ beta_ ca) ≫ BETA_SHIFT) 2.

(** The report asked for over netlink: (enabled, samples, smallest, average). *)
Definition INET_DIAG_VEGASINFO : Z := 1.
Definition tcp_illinois_info (ca : illinois) (ext : Z) : outcome (option (Z * Z * Z * Z)) :=
  if nz (Z.land ext (1 ≪ (INET_DIAG_VEGASINFO - 1))) then
    '(t, _) ← do_div (sum_rtt ca) (cnt_rtt ca);
    Ok (Some (1, cnt_rtt ca, base_rtt ca, u32 t))
  else Ok None.

Definition tcp_illinois (g : illinois_params) : tcp_congestion_ops illinois := {|
  ops_name := "illinois";
  ops_flags := TCP_CONG_RTT_STAMP;
  ops_init := Some (fun _ sk ca => Ok (sk, tcp_illinois_init sk ca));
  ops_ssthresh := fun _ sk ca => Ok (tcp_illinois_ssthresh sk ca, ca);
  ops_cong_avoid := fun E sk ca ack rtt in_flight flag =>
    tcp_illinois_cong_avoid g E sk ca ack rtt in_flight flag;
  ops_min_cwnd := Some (fun _ sk _ => Ok (tcp_reno_min_cwnd sk));
  ops_rtt_sample := None;
  ops_set_state := Some (fun _ sk ca st => Ok (tcp_illinois_state sk ca st));
  ops_cwnd_event := None; ops_undo_cwnd := None;
  ops_pkts_acked := Some (fun E sk ca n last => Ok (sk, tcp_illinois_acked E ca n last));
|}.

(** ** Invariant *)

(** The increase is between 0.3 and 10, the decrease between 1/8 and 1/2, and
    the average of the samples of this round trip lies between the smallest and
    the largest sample ever. *)
Record illinois_inv (ca : illinois) : Prop := mk_illinois_inv {
  il_alpha : 38 <= alpha_ ca <= 1280;
  il_beta : 8 <= beta_ ca <= 32;
  il_max : 0 <= max_rtt ca <= 3355443;
  il_base : 0 <= base_rtt ca <= 0x7fffffff;
  il_cnt : in_u32 (cnt_rtt ca);
  il_sum : cnt_rtt ca * base_rtt ca <= sum_rtt ca <= cnt_rtt ca * max_rtt ca;
  il_end_seq : in_u32 (end_seq ca);
  il_acked : in_u32 (acked ca);
  il_above : in_u8 (rtt_above ca);
  il_low : in_u8 (rtt_low ca);
}.

Definition illinois_ex : illinois := mk_illinois 1200000 10 100000 150000 5000 1280 32 1 0 0.

(** * Lemmas *)

Lemma illinois_consts : ALPHA_MIN = 38 /\ ALPHA_MAX = 1280 /\ ALPHA_BASE = 128 /\ RTT_MAX = 3355443
  /\ BETA_MIN = 8 /\ BETA_MAX = 32 /\ BETA_BASE = 32.
Proof. by vm_compute. Qed.

Ltac illinois_consts_tac :=
  destruct illinois_consts as (EAm & EAM & EAB & ERM & EBm & EBM & EBB);
  rewrite ?EAm, ?EAM, ?EAB, ?ERM, ?EBm, ?EBM, ?EBB.

Lemma rtt_reset_inv sk ca : wf_sock sk -> illinois_inv ca -> illinois_inv (rtt_reset sk ca).
Proof. intros [] []. constructor; cbn; lia. Qed.

Lemma tcp_illinois_init_inv sk ca : wf_sock sk -> illinois_inv (tcp_illinois_init sk ca).
Proof. intros []. constructor; cbn; illinois_consts_tac; lia. Qed.

Lemma tcp_illinois_state_inv sk ca st :
  wf_sock sk -> illinois_inv ca -> illinois_inv (tcp_illinois_state sk ca st).
Proof.
  intros Hsk []. unfold tcp_illinois_state. case_decide; [|done].
  apply rtt_reset_inv; [done|]. constructor; cbn; illinois_consts_tac; lia.
Qed.

Lemma tcp_illinois_acked_inv E ca n last :
  illinois_inv ca -> in_u32 n -> cnt_rtt ca < 4294967295 ->
  illinois_inv (tcp_illinois_acked E ca n last).
Proof.
  intros [] Hn Hc. unfold tcp_illinois_acked. case_cond; [constructor; cbn; done|].
  set (r0 := u32 _). set (r := if RTT_MAX <? r0 then RTT_MAX else r0).
  assert (Hr : 0 <= r <= 3355443).
  { subst r. illinois_consts_tac. pose proof (u32_range (ktime_to_us (net_timedelta (ktime_get_real E) last))).
    fold r0 in H. case_cond; lia. }
  clearbody r. clear r0.
  assert (Hs : 0 <= sum_rtt ca + r < 18446744073709551616).
  { split; [nia|]. assert (cnt_rtt ca * max_rtt ca <= 4294967295 * 3355443)
      by (apply Z.mul_le_mono_nonneg; lia). lia. }
  cbv zeta. set (ca1 := ca <| acked := n |>).
  set (ca2 := if r <? base_rtt ca1 then ca1 <| base_rtt := r |> else ca1).
  set (ca3 := if max_rtt ca2 <? r then ca2 <| max_rtt := r |> else ca2).
  assert (E3 : ca3 = ca <| acked := n |> <| base_rtt := Z.min (base_rtt ca) r |>
                       <| max_rtt := Z.max (max_rtt ca) r |>).
  { subst ca3 ca2 ca1. repeat case_cond; destruct ca; cbn in *; f_equal; lia. }
  rewrite E3. clearbody ca3. clear E3 ca1 ca2 ca3. change (cnt_rtt (_ <| max_rtt := _ |>)) with (cnt_rtt ca).
  change (sum_rtt (_ <| max_rtt := _ |>)) with (sum_rtt ca).
  rewrite (u32_id (cnt_rtt ca + 1)), (u64_id (sum_rtt ca + r)) by lia.
  assert (Hlo : cnt_rtt ca * Z.min (base_rtt ca) r <= cnt_rtt ca * base_rtt ca)
    by (apply Z.mul_le_mono_nonneg_l; lia).
  assert (Hhi : cnt_rtt ca * max_rtt ca <= cnt_rtt ca * Z.max (max_rtt ca) r)
    by (apply Z.mul_le_mono_nonneg_l; lia).
  constructor; cbn -[Z.min Z.max Z.mul]; try done; lia.
Qed.

Lemma avg_delay_ok ca :
  illinois_inv ca -> 0 < cnt_rtt ca ->
  avg_delay ca = Ok (sum_rtt ca / cnt_rtt ca - base_rtt ca)
  /\ max_delay ca = max_rtt ca - base_rtt ca
  /\ 0 <= sum_rtt ca / cnt_rtt ca - base_rtt ca <= max_rtt ca - base_rtt ca.
Proof.
  intros [] Hc. unfold avg_delay, max_delay.
  assert (Hq : base_rtt ca <= sum_rtt ca / cnt_rtt ca <= max_rtt ca).
  { split; [apply Z.div_le_lower_bound; lia|apply Z.div_le_upper_bound; lia]. }
  assert (Hs : in_u64 (sum_rtt ca)).
  { split; [nia|]. assert (cnt_rtt ca * max_rtt ca <= 4294967295 * 3355443)
      by (apply Z.mul_le_mono_nonneg; lia). lia. }
  rewrite do_div_ok by lia. c_ret. rewrite u64_id, !u32_id by lia. split; [done|split; [done|lia]].
Qed.

(** The curve: no wrap, no zero divisor, between the minimum and the maximum,
    decreasing in the delay. *)
Lemma alpha_curve_ok da dm :
  0 <= dm <= 3355443 -> dm / 100 < da <= dm ->
  exists a, alpha_curve da dm (dm / 100) = Ok a /\ 38 <= a <= 1280
    /\ a = (dm - dm / 100) * 1280 / (dm - dm / 100 + (da - dm / 100) * 1242 / 38).
Proof.
  intros Hdm Hda. unfold alpha_curve. illinois_consts_tac. change (1280 - 38) with 1242.
  set (d1 := dm / 100) in *. assert (0 <= d1) by (apply Z.div_pos; lia). clearbody d1.
  rewrite !(u32_id (_ - d1)) by lia.
  rewrite (u32_id ((dm - d1) * 1280)), (u32_id ((da - d1) * 1242)) by lia.
  set (x := dm - d1) in *. set (y := da - d1) in *.
  assert (Hy : 0 <= y * 1242 / 38 <= 4294967295 / 38).
  { split; [apply Z.div_pos; lia|apply Z.div_le_mono; lia]. }
  assert (Hy2 : y * 1242 / 38 * 38 <= y * 1242) by (rewrite Z.mul_comm; apply Z.mul_div_le; lia).
  change (4294967295 / 38) with 113025455 in Hy.
  rewrite u32_id, udiv_ok by lia. eexists. split; [done|]. split; [|done].
  split; [apply Z.div_le_lower_bound; lia|apply Z.div_le_upper_bound; lia].
Qed.

Lemma beta_ok da dm :
  0 <= da <= dm -> dm <= 3355443 ->
  returns (beta da dm) (fun b => 8 <= b <= 32).
Proof.
  intros Hda Hdm. unfold beta. illinois_consts_tac. case_cond; [cbn; lia|].
  rewrite (u32_id (8 * dm)) by lia. case_cond; [cbn; lia|].
  set (d2 := dm / 10) in *. set (d3 := 8 * dm / 10) in *.
  assert (0 <= d2 /\ d3 <= dm) by (unfold d2, d3; Z.div_mod_to_equations; lia). clearbody d2 d3.
  rewrite (u32_id (d3 - d2)), u32_id, udiv_ok by lia. cbn.
  split; [apply Z.div_le_lower_bound; lia|apply Z.div_le_upper_bound; lia].
Qed.

Lemma update_params_returns g sk ca :
  wf_sock sk -> illinois_inv ca -> returns (update_params g sk ca) illinois_inv.
Proof.
  intros Hsk Hca. unfold update_params. c_bind illinois_inv; [|intros; by apply rtt_reset_inv].
  case_cond; [destruct Hca; constructor; cbn; illinois_consts_tac; done || lia|].
  case_cond; [|done]. apply Z.ltb_lt in Hc0.
  destruct (avg_delay_ok ca Hca Hc0) as (-> & -> & Hd). c_ret.
  set (da := _ - base_rtt ca) in *. set (dm := max_rtt ca - base_rtt ca) in *.
  assert (Hdm : dm <= 3355443) by (destruct Hca; lia). clearbody da dm.
  c_bind (fun '(a, ca') => 38 <= a <= 1280 /\ illinois_inv ca').
  - unfold alpha. pose proof (u8_range (rtt_low ca + 1)).
    destruct (Z.leb_spec da (dm / 100)).
    + illinois_consts_tac. case_cond; [split; [lia|done]|]. cbn.
      case_cond; cbn; (split; [destruct Hca; lia|]); destruct Hca; constructor; cbn; done || lia.
    + destruct (alpha_curve_ok da dm) as (a & -> & Ha & _); [lia|lia|]. cbn.
      split; [done|]. destruct Hca; constructor; cbn; done || lia.
  - intros [a ca'] [Ha Hca']. c_bind (fun b => 8 <= b <= 32); [by apply beta_ok; lia|].
    intros b Hb. cbn. destruct Hca'; constructor; cbn; done || lia.
Qed.

Lemma tcp_illinois_cong_avoid_returns g E sk ca ack rtt in_flight flag :
  wf_sock sk -> illinois_inv ca -> 1 <= snd_cwnd sk < 2147483648 -> 1 <= snd_cwnd_clamp sk ->
  returns (tcp_illinois_cong_avoid g E sk ca ack rtt in_flight flag)
    (fun '(sk', ca') => window_step sk sk' /\ illinois_inv ca').
Proof.
  intros Hsk Hca Hw Hcl. unfold tcp_illinois_cong_avoid.
  c_bind illinois_inv; [case_cond; [by apply update_params_returns|done]|].
  clear Hca ca. intros ca Hca. case_cond; [cbn; split; [apply window_step_refl; [done|lia]|done]|].
  case_cond.
  - c_bind (cwnd_opened sk); [apply tcp_slow_start_opens; [done|lia]|]. intros sk' Ho. cbn.
    split; [apply cwnd_opened_step; [done|lia|done]|done].
  - assert (Hca' : illinois_inv (ca <| acked := 1 |>)) by (destruct Hca; constructor; cbn; done || lia).
    set (c := snd_cwnd_cnt sk ⊕ acked ca). assert (Hcc : in_u32 c) by apply u32_range. clearbody c.
    cbn -[Z.shiftr u32 Z.min udiv].
    assert (Hdelta : 0 <= (c ⊗ alpha_ ca) ≫ ALPHA_SHIFT < 33554432).
    { unfold ALPHA_SHIFT. rewrite Z.shiftr_div_pow2 by lia. change (2 ^ 7) with 128.
      pose proof (u32_range (c * alpha_ ca)). Z.div_mod_to_equations; lia. }
    set (delta := _ ≫ ALPHA_SHIFT) in *. clearbody delta. case_cond.
    + rewrite udiv_ok by lia. c_ret. split; [|done].
      assert (0 <= delta / snd_cwnd sk <= delta)
        by (split; [apply Z.div_pos; lia|apply Z.div_le_upper_bound; nia]).
      rewrite u32_id by lia.
      apply (window_step_to sk (Z.min (snd_cwnd sk + delta / snd_cwnd sk) (snd_cwnd_clamp sk)) 0);
        [done|lia|lia].
    + split; [|done]. apply (window_step_to sk (snd_cwnd sk) c); [done|lia|done].
Qed.

(** * Properties *)

(** In every state the module can be in an acknowledgement is processed
    without a trap: the averages and the two curves never divide by zero and no
    product of theirs wraps (samples are capped at 3.3 s); the increase stays
    between 0.3 and 10, the decrease between 1/8 and 1/2, the window between one
    segment and the clamp. *)
Theorem illinois_cong_avoid_safe g E sk ca ack rtt in_flight flag :
  wf_sock sk -> illinois_inv ca -> 1 <= snd_cwnd sk < 2147483648 -> 1 <= snd_cwnd_clamp sk ->
  exists sk' ca', tcp_illinois_cong_avoid g E sk ca ack rtt in_flight flag = Ok (sk', ca')
    /\ window_step sk sk' /\ illinois_inv ca'.
Proof.
  intros Hsk Hca Hw Hcl.
  pose proof (tcp_illinois_cong_avoid_returns g E sk ca ack rtt in_flight flag Hsk Hca Hw Hcl) as H.
  apply returns_inv in H as ([sk' ca'] & -> & H). by exists sk', ca'.
Qed.

Lemma illinois_ex_inv : illinois_inv illinois_ex.
Proof. constructor; cbn; lia. Qed.

Lemma illinois_cong_avoid_safe_witness :
  let sk := sk_ex <| snd_cwnd := 200 |> in
  exists sk' ca', tcp_illinois_cong_avoid illinois_defaults env_ex sk illinois_ex 6000 0 300 0
      = Ok (sk', ca')
    /\ window_step sk sk' /\ illinois_inv ca'.
Proof.
  intros sk. apply illinois_cong_avoid_safe; [|exact illinois_ex_inv|cbn; lia|cbn; lia].
  constructor; cbn; lia.
Defined.

(** The increase is a decreasing function of the average queueing delay
    above the low threshold (1% of the largest delay): it never exceeds 10 nor
    falls below 0.3, and 0.3 it is at the largest delay. *)
Theorem illinois_alpha_decreasing da1 da2 dm :
  0 <= dm <= 3355443 -> dm / 100 < da1 <= da2 -> da2 <= dm ->
  exists a1 a2, alpha_curve da1 dm (dm / 100) = Ok a1 /\ alpha_curve da2 dm (dm / 100) = Ok a2
    /\ 38 <= a2 <= a1 /\ a1 <= 1280 /\ (da2 = dm -> 100 <= dm -> a2 <= 41).
Proof.
  intros Hdm H1 H2.
  destruct (alpha_curve_ok da1 dm) as (a1 & -> & Ha1 & E1); [lia|lia|].
  destruct (alpha_curve_ok da2 dm) as (a2 & -> & Ha2 & E2); [lia|lia|].
  exists a1, a2. split; [done|]. split; [done|].
  assert (Hd1 : 0 <= dm / 100) by (apply Z.div_pos; lia).
  assert (Hm : (da1 - dm / 100) * 1242 / 38 <= (da2 - dm / 100) * 1242 / 38)
    by (apply Z.div_le_mono; lia).
  assert (H0 : 0 <= (da1 - dm / 100) * 1242 / 38) by (apply Z.div_pos; lia).
  split; [|split; [lia|]].
  - split; [lia|]. subst. apply Z.div_le_compat_l; lia.
  - intros -> Hb. subst a2. clear E1 Ha1 H1 Hm H0 Ha2.
    assert (Hx : 1 <= dm - dm / 100) by (Z.div_mod_to_equations; lia). set (x := dm - dm / 100) in *. clearbody x.
    assert (Hlow : x * 1242 / 38 * 38 > x * 1242 - 38) by (Z.div_mod_to_equations; lia).
    apply Z.lt_succ_r. apply Z.div_lt_upper_bound; lia.
Qed.

Lemma illinois_alpha_decreasing_witness :
  exists a1 a2, alpha_curve 10000 50000 (50000 / 100) = Ok a1
    /\ alpha_curve 50000 50000 (50000 / 100) = Ok a2
    /\ 38 <= a2 <= a1 /\ a1 <= 1280 /\ (50000 = 50000 -> 100 <= 50000 -> a2 <= 41).
Proof.
  apply illinois_alpha_decreasing; [lia| |lia].
  change (50000 / 100) with 500. lia.
Defined.

(** The threshold after a loss is [beta / 64] of the window, at least 2: an
    eighth of it when the delay was small and [beta] is at its minimum, a half
    when the delay was large.  The factor is applied as what is kept, although
    [beta] is computed as what is to be removed (1/8 for small delays). *)
Theorem illinois_ssthresh_bounds sk ca :
  illinois_inv ca -> 0 <= snd_cwnd sk < 134217728 ->
  Z.max 2 (snd_cwnd sk * 8 / 64) <= tcp_illinois_ssthresh sk ca <= Z.max 2 (snd_cwnd sk / 2)
  /\ tcp_illinois_ssthresh sk ca = Z.max 2 (snd_cwnd sk * beta_ ca / 64).
Proof.
  intros [] Hw. unfold tcp_illinois_ssthresh, BETA_SHIFT.
  rewrite Z.shiftr_div_pow2 by lia. change (2 ^ 6) with 64.
  assert (snd_cwnd sk * 8 <= snd_cwnd sk * beta_ ca <= snd_cwnd sk * 32) by nia.
  rewrite u32_id by lia. rewrite (Z.max_comm _ 2). split; [|done].
  Z.div_mod_to_equations; lia.
Qed.

Lemma illinois_ssthresh_bounds_witness :
  Z.max 2 (snd_cwnd sk_ex * 8 / 64) <= tcp_illinois_ssthresh sk_ex illinois_ex
    <= Z.max 2 (snd_cwnd sk_ex / 2)
  /\ tcp_illinois_ssthresh sk_ex illinois_ex = Z.max 2 (snd_cwnd sk_ex * beta_ illinois_ex / 64).
Proof. apply illinois_ssthresh_bounds; [exact illinois_ex_inv|cbn; lia]. Defined.

(** The report over netlink divides by the number of samples of the
    current round trip, which is zero from each round trip's end to the next
    sample. *)
Theorem illinois_info_traps sk ca :
  tcp_illinois_info (rtt_reset sk ca) 1 = Trap DivByZero
  /\ (forall ca', illinois_inv ca' -> 0 < cnt_rtt ca' ->
      exists avg, tcp_illinois_info ca' 1 = Ok (Some (1, cnt_rtt ca', base_rtt ca', avg))
      /\ base_rtt ca' <= avg <= max_rtt ca').
Proof.
  split; [by vm_compute|]. intros ca' [] Hc. unfold tcp_illinois_info.
  change (nz (Z.land 1 (1 ≪ (INET_DIAG_VEGASINFO - 1)))) with true.
  assert (Hs : in_u64 (sum_rtt ca')).
  { split; [nia|]. assert (cnt_rtt ca' * max_rtt ca' <= 4294967295 * 3355443)
      by (apply Z.mul_le_mono_nonneg; lia). lia. }
  rewrite do_div_ok by lia. c_ret. eexists. split; [done|].
  assert (Hq : base_rtt ca' <= sum_rtt ca' / cnt_rtt ca' <= max_rtt ca').
  { split; [apply Z.div_le_lower_bound; lia|apply Z.div_le_upper_bound; lia]. }
  rewrite u32_id by lia. done.
Qed.
