(* ===== verification/Htcp.v ===== *)
(** H-TCP (tcp_htcp.c): the increase grows with the time since the last
    congestion, the decrease follows the ratio of the RTTs. *)
From S2P Require Import Sock LinuxC Reno.

(** * Definitions *)

Definition ALPHA_BASE : Z := 1 ≪ 7.
Definition BETA_MIN : Z := 1 ≪ 6.
Definition BETA_MAX : Z := 102.

Record htcp_params := mk_htcp_params {
  use_rtt_scaling : Z;        (* int *)
  use_bandwidth_switch : Z;   (* int *)
}.
Definition htcp_defaults : htcp_params := {| use_rtt_scaling := 1; use_bandwidth_switch := 1 |}.

Record htcp := mk_htcp {
  alpha : Z;                  (* u32, << 7 *)
  beta : Z;                   (* u8, << 7 *)
  modeswitch : Z;             (* u8 *)
  pkts_acked : Z;             (* u16, that is unsigned int *)
  packetcount : Z;            (* u32, as all the fields below *)
  minRTT : Z;
  maxRTT : Z;
  last_cong : Z;
  undo_last_cong : Z;
  undo_maxRTT : Z;
  undo_old_maxB : Z;
  minB : Z;
  maxB : Z;
  old_maxB : Z;
  Bi : Z;
  lasttime : Z;
}.
#[global] Instance eta_htcp : Eta htcp := fun r =>
  mk_htcp (alpha r) (beta r) (modeswitch r) (pkts_acked r) (packetcount r) (minRTT r) (maxRTT r)
    (last_cong r) (undo_last_cong r) (undo_maxRTT r) (undo_old_maxB r) (minB r) (maxB r)
    (old_maxB r) (Bi r) (lasttime r).

(** [jiffies] is [tcp_time_stamp]. *)
Definition htcp_cong_time (E : env) (ca : htcp) : Z := tcp_time_stamp E ⊖ last_cong ca.

Definition htcp_ccount (E : env) (ca : htcp) : outcome Z :=
  udiv (htcp_cong_time E ca) (minRTT ca).

Definition htcp_reset (E : env) (ca : htcp) : htcp :=
  ca <| undo_last_cong := last_cong ca |> <| undo_maxRTT := maxRTT ca |>
     <| undo_old_maxB := old_maxB ca |> <| last_cong := tcp_time_stamp E |>.

Definition htcp_cwnd_undo (sk : tcp_sock) (ca : htcp) : outcome (Z * htcp) :=
  let ca := ca <| last_cong := undo_last_cong ca |> <| maxRTT := undo_maxRTT ca |>
               <| old_maxB := undo_old_maxB ca |> in
  q ← udiv (u32 (snd_ssthresh sk ≪ 7)) (beta ca);
  Ok (Z.max (snd_cwnd sk) q, ca).

Definition measure_rtt (E : env) (sk : tcp_sock) (ca : htcp) : outcome htcp :=
  let srtt := srtt sk ≫ 3 in
  let ca := if (srtt <? minRTT ca) || negb (nz (minRTT ca)) then ca <| minRTT := srtt |> else ca in
  if bool_decide (icsk_ca_state sk = TCP_CA_Open) && (snd_ssthresh sk <? 0xFFFF) then
    n ← htcp_ccount E ca;
    Ok (if 3 <? n then
          let ca := if maxRTT ca <? minRTT ca then ca <| maxRTT := minRTT ca |> else ca in
          if (maxRTT ca <? srtt) && (srtt <=? maxRTT ca ⊕ msecs_to_jiffies 20)
          then ca <| maxRTT := srtt |> else ca
        else ca)
  else Ok ca.

Definition measure_achieved_throughput (g : htcp_params) (E : env) (sk : tcp_sock) (ca : htcp)
  (n last : Z) : outcome htcp :=
  let now := tcp_time_stamp E in
  let ca := if decide (icsk_ca_state sk = TCP_CA_Open) then ca <| pkts_acked := n |> else ca in
  if negb (nz (use_bandwidth_switch g)) then Ok ca
  else if bool_decide (icsk_ca_state sk <> TCP_CA_Open)
          && bool_decide (icsk_ca_state sk <> TCP_CA_Disorder) then
    Ok (ca <| packetcount := 0 |> <| lasttime := now |>)
  else
    let ca := ca <| packetcount := packetcount ca ⊕ n |> in
    let a := alpha ca ≫ 7 in
    if (snd_cwnd sk ⊖ (if nz a then a else 1) <=? packetcount ca)
       && (minRTT ca <=? now ⊖ lasttime ca) && (0 <? minRTT ca) then
      cur_Bi ← udiv (packetcount ca ⊗ HZ) (now ⊖ lasttime ca);
      n ← htcp_ccount E ca;
      let ca :=
        if n <=? 3 then ca <| Bi := cur_Bi |> <| maxB := cur_Bi |> <| minB := cur_Bi |>
        else
          let ca := ca <| Bi := (3 ⊗ Bi ca ⊕ cur_Bi) / 4 |> in
          let ca := if maxB ca <? Bi ca then ca <| maxB := Bi ca |> else ca in
          if maxB ca <? minB ca then ca <| minB := maxB ca |> else ca in
      Ok (ca <| packetcount := 0 |> <| lasttime := now |>)
    else Ok ca.

(** The bandwidth switch: the last maximum is within 20% of the one before. *)
Definition bandwidth_steady (maxB old_maxB : Z) : bool :=
  between (5 ⊗ maxB) (4 ⊗ old_maxB) (6 ⊗ old_maxB).

(** The decrease as the ratio of the RTTs. *)
Definition htcp_beta_ratio (ca : htcp) (minRTT maxRTT : Z) : outcome htcp :=
  if nz (modeswitch ca) && (msecs_to_jiffies 10 <? minRTT) && nz maxRTT then
    q ← udiv (u32 (minRTT ≪ 7)) maxRTT;
    let ca := ca <| beta := u8 q |> in
    Ok (if beta ca <? BETA_MIN then ca <| beta := BETA_MIN |>
        else if BETA_MAX <? beta ca then ca <| beta := BETA_MAX |> else ca)
  else Ok (ca <| beta := BETA_MIN |> <| modeswitch := 1 |>).

Definition htcp_beta_update (g : htcp_params) (ca : htcp) (minRTT maxRTT : Z) : outcome htcp :=
  if nz (use_bandwidth_switch g) then
    let maxB0 := maxB ca in
    let old_maxB0 := old_maxB ca in
    let ca := ca <| old_maxB := maxB ca |> in
    if negb (bandwidth_steady maxB0 old_maxB0)
    then Ok (ca <| beta := BETA_MIN |> <| modeswitch := 0 |>)
    else htcp_beta_ratio ca minRTT maxRTT
  else htcp_beta_ratio ca minRTT maxRTT.

(** The growth with the time [diff] since the last congestion. *)
Definition htcp_factor (diff : Z) : Z :=
  if HZ <? diff then
    let diff := diff ⊖ HZ in
    1 ⊕ (10 ⊗ diff ⊕ (diff / 2 ⊗ (diff / 2)) / HZ) / HZ
  else 1.

Definition htcp_alpha_update (g : htcp_params) (E : env) (ca : htcp) : outcome htcp :=
  let factor := htcp_factor (htcp_cong_time E ca) in
  factor ← (if nz (use_rtt_scaling g) && nz (minRTT ca) then
              scale ← udiv (u32 (HZ ≪ 3)) (10 ⊗ minRTT ca);
              let scale := Z.min (Z.max scale 4) 80 in
              factor ← udiv (u32 (factor ≪ 3)) scale;
              Ok (if nz factor then factor else 1)
            else Ok factor);
  let ca := ca <| alpha := 2 ⊗ factor ⊗ u32 (128 - beta ca) |> in
  Ok (if nz (alpha ca) then ca else ca <| alpha := ALPHA_BASE |>).

Definition htcp_param_update (g : htcp_params) (E : env) (ca : htcp) : outcome htcp :=
  let minRTT := minRTT ca in
  let maxRTT_ := maxRTT ca in
  ca ← htcp_beta_update g ca minRTT maxRTT_;
  ca ← htcp_alpha_update g E ca;
  Ok (if (0 <? minRTT) && (minRTT <? maxRTT_)
      then ca <| maxRTT := minRTT ⊕ ((maxRTT_ ⊖ minRTT) ⊗ 95) / 100 |> else ca).

Definition htcp_recalc_ssthresh (g : htcp_params) (E : env) (sk : tcp_sock) (ca : htcp)
  : outcome (Z * htcp) :=
  ca ← htcp_param_update g E ca;
  Ok (Z.max ((snd_cwnd sk ⊗ beta ca) ≫ 7) 2, ca).

Definition htcp_cong_avoid (g : htcp_params) (E : env) (sk : tcp_sock) (ca : htcp)
  (ack rtt in_flight data_acked : Z) : outcome (tcp_sock * htcp) :=
  if negb (tcp_is_cwnd_limited sk in_flight) then Ok (sk, ca)
  else if snd_cwnd sk <=? snd_ssthresh sk then
    sk ← tcp_slow_start E sk; Ok (sk, ca)
  else
    ca ← measure_rtt E sk ca;
    '(sk, ca) ← (
      if snd_cwnd sk <=? (snd_cwnd_cnt sk ⊗ alpha ca) ≫ 7 then
        let tp := if snd_cwnd sk <? snd_cwnd_clamp sk
                  then sk <| snd_cwnd := snd_cwnd sk ⊕ 1 |> else sk in
        let tp := tp <| snd_cwnd_cnt := 0 |> in
        ca ← htcp_alpha_update g E ca; Ok (tp, ca)
      else Ok (sk <| snd_cwnd_cnt := snd_cwnd_cnt sk ⊕ pkts_acked ca |>, ca));
    Ok (sk, ca <| pkts_acked := 1 |>).

Definition htcp_init (E : env) (ca : htcp) : htcp :=
  (mk_htcp 0 0 0 0 0 0 0 0 0 0 0 0 0 0 0 0) <| alpha := ALPHA_BASE |> <| beta := BETA_MIN |>
    <| pkts_acked := 1 |> <| last_cong := tcp_time_stamp E |>.

Definition htcp_state (E : env) (ca : htcp) (new_state : tcp_ca_state) : htcp :=
  match new_state with
  | TCP_CA_Open => ca <| last_cong := tcp_time_stamp E |>
  | TCP_CA_CWR | TCP_CA_Recovery | TCP_CA_Loss => htcp_reset E ca
  | TCP_CA_Disorder => ca
  end.

Definition htcp_ops (g : htcp_params) : tcp_congestion_ops htcp := {|
  ops_name := "htcp";
  ops_flags := 0;
  ops_init := Some (fun E sk ca => Ok (sk, htcp_init E ca));
  ops_ssthresh := fun E sk ca => htcp_recalc_ssthresh g E sk ca;
  ops_cong_avoid := fun E sk ca ack rtt in_flight flag =>
    htcp_cong_avoid g E sk ca ack rtt in_flight flag;
  ops_min_cwnd := None;
  ops_rtt_sample := None;
  ops_set_state := Some (fun E _ ca st => Ok (htcp_state E ca st));
  ops_cwnd_event := None;
  ops_undo_cwnd := Some (fun _ sk ca => htcp_cwnd_undo sk ca);
  ops_pkts_acked := Some (fun E sk ca n last =>
    ca ← measure_achieved_throughput g E sk ca n last; Ok (sk, ca));
|}.

(** ** Invariant and specification *)

Record htcp_inv (ca : htcp) : Prop := mk_htcp_inv {
  ht_alpha : 1 <= alpha ca < 4294967296;
  ht_beta : 64 <= beta ca <= 102;
  ht_pkts_acked : in_u32 (pkts_acked ca);
  ht_minRTT : 0 <= minRTT ca < 536870912;
  ht_maxRTT : in_u32 (maxRTT ca);
  ht_last_cong : in_u32 (last_cong ca);
  ht_undo_last_cong : in_u32 (undo_last_cong ca);
  ht_undo_maxRTT : in_u32 (undo_maxRTT ca);
}.

(** The polynomial of the H-TCP paper, [1 + 10 d + (d / 2)^2] for [d] seconds
    since the last congestion after the first: [t] is in milliseconds. *)
Definition htcp_poly (t : Z) : Z :=
  if t <=? 1000 then 1 else 1 + (10 * (t - 1000) + ((t - 1000) / 2) ^ 2 / 1000) / 1000.

Definition htcp_ex : htcp := mk_htcp 128 64 1 1 5 100 180 90000 80000 170 900 1000 1000 1000 900 99000.

(** * Lemmas *)

Ltac htcp_inv_tac :=
  match goal with
  | H : htcp_inv _ |- htcp_inv _ => destruct H; constructor; cbn; eauto with cint
  end.

Lemma htcp_init_inv E ca : wf_env E -> htcp_inv (htcp_init E ca).
Proof.
  intros []. constructor; cbn; try lia; change ALPHA_BASE with 128; change BETA_MIN with 64; lia.
Qed.

Lemma htcp_state_inv E ca st : wf_env E -> htcp_inv ca -> htcp_inv (htcp_state E ca st).
Proof. intros [] Hca. destruct st; cbn; try done; htcp_inv_tac. Qed.

Lemma htcp_beta_update_returns g ca m M :
  htcp_inv ca -> in_u32 M ->
  returns (htcp_beta_update g ca m M) (fun ca' => htcp_inv ca'
    /\ minRTT ca' = minRTT ca /\ maxRTT ca' = maxRTT ca /\ last_cong ca' = last_cong ca).
Proof.
  intros Hca HM. unfold htcp_beta_update. change BETA_MAX with 102. change BETA_MIN with 64.
  assert (Hgo : forall c, htcp_inv c -> returns (htcp_beta_ratio c m M) (fun ca' => htcp_inv ca'
    /\ minRTT ca' = minRTT c /\ maxRTT ca' = maxRTT c /\ last_cong ca' = last_cong c)).
  { intros c Hc. unfold htcp_beta_ratio. change BETA_MAX with 102. change BETA_MIN with 64. case_cond.
    - rewrite !andb_true_iff, !nz_true in Hc0. rewrite udiv_ok by tauto. c_ret.
      repeat case_cond; cbn in *; (split; [|done]); htcp_inv_tac; lia.
    - cbn. split; [|done]. htcp_inv_tac. lia. }
  case_cond; [|by apply Hgo]. case_cond.
  - cbn. split; [|done]. htcp_inv_tac; lia.
  - eapply returns_mono; [apply Hgo; by htcp_inv_tac|]. cbn. tauto.
Qed.

(** [alpha] is never zero. *)
Lemma htcp_alpha_update_returns g E ca :
  htcp_inv ca -> returns (htcp_alpha_update g E ca) (fun ca' => htcp_inv ca'
    /\ exists a, ca' = ca <| alpha := a |>).
Proof.
  intros Hca. unfold htcp_alpha_update.
  c_bind (fun _ : Z => True).
  - case_cond; [|done]. apply andb_true_iff in Hc as [_ Hm]. apply nz_true in Hm.
    rewrite udiv_ok.
    + c_ret. rewrite udiv_ok by lia. c_ret. done.
    + destruct Hca. c_lia.
  - intros factor _. set (a := 2 ⊗ factor ⊗ u32 (128 - beta ca)).
    assert (Ha : in_u32 a) by apply u32_range. clearbody a. cbn. change ALPHA_BASE with 128.
    case_cond; cbn.
    + apply nz_true in Hc. split; [htcp_inv_tac; lia|]. by exists a.
    + split; [htcp_inv_tac; lia|]. by exists 128.
Qed.

Lemma htcp_recalc_ssthresh_returns g E sk ca :
  wf_sock sk -> htcp_inv ca -> 0 <= snd_cwnd sk < 33554432 ->
  returns (htcp_recalc_ssthresh g E sk ca) (fun '(th, ca') => htcp_inv ca'
    /\ th = Z.max (snd_cwnd sk * beta ca' / 128) 2).
Proof.
  intros Hsk Hca Hw. unfold htcp_recalc_ssthresh, htcp_param_update.
  c_bind (fun ca' => htcp_inv ca').
  - c_bind (fun ca' => htcp_inv ca' /\ minRTT ca' = minRTT ca /\ maxRTT ca' = maxRTT ca
      /\ last_cong ca' = last_cong ca).
    { apply htcp_beta_update_returns; [done|apply Hca]. }
    intros ca1 (Hca1 & _). c_bind (fun ca' => htcp_inv ca' /\ exists a, ca' = ca1 <| alpha := a |>).
    { by apply htcp_alpha_update_returns. }
    intros ca2 (Hca2 & _). cbn [returns]. case_cond; [|done]. htcp_inv_tac.
  - intros ca' Hca'. cbn -[Z.max Z.shiftr u32]. split; [done|].
    pose proof (ht_beta _ Hca').
    assert (snd_cwnd sk * beta ca' <= snd_cwnd sk * 102) by (apply Z.mul_le_mono_nonneg_l; lia).
    rewrite u32_id, Z.shiftr_div_pow2 by lia. done.
Qed.

(** A smoothed RTT of at least one jiffy keeps the smallest RTT positive. *)
Lemma measure_rtt_returns E sk ca :
  wf_sock sk -> htcp_inv ca -> 8 <= srtt sk ->
  returns (measure_rtt E sk ca) (fun ca' => htcp_inv ca' /\ 1 <= minRTT ca'
    /\ alpha ca' = alpha ca /\ pkts_acked ca' = pkts_acked ca).
Proof.
  intros Hsk Hca Hs. unfold measure_rtt. rewrite Z.shiftr_div_pow2 by lia. change (2 ^ 3) with 8.
  assert (Hr : 1 <= srtt sk / 8 < 536870912) by (destruct Hsk; Z.div_mod_to_equations; lia).
  set (r := srtt sk / 8) in *. clearbody r. cbv zeta.
  set (ca1 := if _ || _ then _ else ca).
  assert (Hca1 : htcp_inv ca1 /\ 1 <= minRTT ca1 /\ alpha ca1 = alpha ca
    /\ pkts_acked ca1 = pkts_acked ca).
  { subst ca1. case_cond; cbn; [split; [htcp_inv_tac; lia|split; [lia|done]]|].
    split; [done|]. split; [|done]. apply orb_false_iff in Hc as [_ Hc].
    apply negb_false_iff, nz_true in Hc. destruct Hca. lia. }
  destruct Hca1 as (Hca1 & Hm & Ha & Hp). clearbody ca1. rewrite <- Ha, <- Hp. clear Ha Hp.
  case_cond; [|done]. unfold htcp_ccount. rewrite udiv_ok by lia. c_ret. cbn [returns].
  case_cond; [|done]. destruct (Z.ltb_spec (maxRTT ca1) (minRTT ca1)); cbn; case_cond; cbn;
    (split; [htcp_inv_tac; lia|done]).
Qed.

Lemma htcp_cong_avoid_returns g E sk ca ack rtt in_flight flag :
  wf_sock sk -> htcp_inv ca -> 8 <= srtt sk -> 1 <= snd_cwnd sk ->
  returns (htcp_cong_avoid g E sk ca ack rtt in_flight flag)
    (fun '(sk', ca') => cwnd_opened sk sk' /\ htcp_inv ca').
Proof.
  intros Hsk Hca Hs Hw. unfold htcp_cong_avoid.
  case_cond; [cbn; auto using cwnd_opened_refl|]. case_cond.
  - c_bind (cwnd_opened sk); [apply tcp_slow_start_opens; [done|lia]|]. cbn. auto.
  - c_bind (fun ca' => htcp_inv ca' /\ 1 <= minRTT ca'
      /\ alpha ca' = alpha ca /\ pkts_acked ca' = pkts_acked ca); [by apply measure_rtt_returns|].
    intros ca1 (Hca1 & _). c_bind (fun '(sk', ca') => cwnd_opened sk sk' /\ htcp_inv ca').
    + destruct Hsk. case_cond.
      * c_bind (fun ca' => htcp_inv ca' /\ exists a, ca' = ca1 <| alpha := a |>);
          [by apply htcp_alpha_update_returns|]. intros ca2 [Hca2 _]. cbn. split; [|done].
        case_cond; cbn.
        -- rewrite u32_id by lia. exists (snd_cwnd sk + 1), 0, (bytes_acked sk).
           split; [by destruct sk|lia].
        -- exists (snd_cwnd sk), 0, (bytes_acked sk). split; [by destruct sk|lia].
      * cbn. split; [|done]. pose proof (u32_range (snd_cwnd_cnt sk + pkts_acked ca1)).
        exists (snd_cwnd sk), (snd_cwnd_cnt sk ⊕ pkts_acked ca1), (bytes_acked sk).
        split; [by destruct sk|lia].
    + intros [sk' ca'] [Ho Hi]. cbn. split; [done|]. htcp_inv_tac. lia.
Qed.

Lemma measure_achieved_throughput_returns g E sk ca n last :
  wf_sock sk -> wf_env E -> htcp_inv ca -> in_u32 n ->
  returns (measure_achieved_throughput g E sk ca n last) htcp_inv.
Proof.
  intros Hsk HE Hca Hn. unfold measure_achieved_throughput.
  set (ca1 := if decide _ then _ else ca).
  assert (Hca1 : htcp_inv ca1) by (subst ca1; case_decide; [htcp_inv_tac; lia|done]).
  clearbody ca1. case_cond; [done|]. case_cond; [cbn; by htcp_inv_tac|].
  cbv zeta. case_top Hc1; [|cbn; by htcp_inv_tac].
  cbn [minRTT lasttime set_field] in Hc1. rewrite !andb_true_iff in Hc1.
  change (lasttime (ca1 <| packetcount := _ |>)) with (lasttime ca1).
  rewrite udiv_ok by (cbn in Hc1; lia). c_ret. unfold htcp_ccount.
  rewrite udiv_ok by (cbn in *; lia). c_ret. cbn [returns]. cbn.
  repeat case_cond; by htcp_inv_tac.
Qed.

(** The undo of a multiplicative decrease loses at most 2 segments. *)
Lemma undo_rounding w b :
  64 <= b <= 102 -> 4 <= w -> w - 2 <= w * b / 128 * 128 / b <= w.
Proof.
  intros Hb Hw.
  pose proof (Z.mul_div_le (w * b) 128 ltac:(lia)) as H1.
  pose proof (Z.mul_succ_div_gt (w * b) 128 ltac:(lia)) as H2.
  set (th := w * b / 128) in *. clearbody th. split.
  - apply Z.div_le_lower_bound; lia.
  - apply Z.div_le_upper_bound; lia.
Qed.

Lemma htcp_factor_exact t : 0 <= t <= 132071 -> htcp_factor t = htcp_poly t.
Proof.
  intros Ht. unfold htcp_factor, htcp_poly, HZ.
  destruct (Z.ltb_spec 1000 t), (Z.leb_spec t 1000); try lia.
  rewrite !(u32_id (t - 1000)) by lia. set (d := t - 1000) in *.
  assert (Hd : 0 <= d / 2 <= 65535) by (Z.div_mod_to_equations; lia).
  assert (Hsq : 0 <= d / 2 * (d / 2) <= 65535 * 65535)
    by (split; [apply Z.mul_nonneg_nonneg; lia|apply Z.mul_le_mono_nonneg; lia]).
  rewrite (Z.pow_2_r (d / 2)), (u32_id (10 * d)), (u32_id (d / 2 * (d / 2))) by lia.
  set (sq := d / 2 * (d / 2)) in *. clearbody sq.
  rewrite (u32_id (10 * d + sq / 1000)) by (Z.div_mod_to_equations; lia).
  apply u32_id. Z.div_mod_to_equations; lia.
Qed.

Lemma htcp_poly_mono t1 t2 : 0 <= t1 <= t2 -> htcp_poly t1 <= htcp_poly t2.
Proof.
  intros Ht. unfold htcp_poly.
  assert (Hp : forall t, 1000 < t -> 1 <= 1 + (10 * (t - 1000) + ((t - 1000) / 2) ^ 2 / 1000) / 1000).
  { intros t Hl. assert (0 <= ((t - 1000) / 2) ^ 2) by (apply Z.pow_even_nonneg; by exists 1).
    assert (0 <= ((t - 1000) / 2) ^ 2 / 1000) by (apply Z.div_pos; lia).
    assert (0 <= (10 * (t - 1000) + ((t - 1000) / 2) ^ 2 / 1000) / 1000) by (apply Z.div_pos; lia).
    lia. }
  destruct (Z.leb_spec t1 1000), (Z.leb_spec t2 1000); try lia; [by apply Hp|].
  apply Z.add_le_mono_l, Z.div_le_mono; [lia|]. apply Z.add_le_mono; [lia|].
  apply Z.div_le_mono; [lia|]. apply Z.pow_le_mono_l.
  split; [apply Z.div_pos; lia|apply Z.div_le_mono; lia].
Qed.

(** * Properties *)

(** Once an RTT was measured (a smoothed RTT of at least one jiffy, which
    is what the driver reports from the first sample on), an acknowledgement is
    processed without a trap in every state the module can be in: the count of
    round trips since the last congestion and the RTT scaling never divide by
    zero; the window opens by the slow-start rule or by at most one segment and
    never past the clamp; [alpha] stays positive and [beta] between 0.5 and 0.8.
    Below one jiffy the module divides by zero in congestion avoidance. *)
Theorem htcp_cong_avoid_safe g E sk ca ack rtt in_flight flag :
  wf_sock sk -> htcp_inv ca -> 1 <= snd_cwnd sk ->
  (8 <= srtt sk -> exists sk' ca',
     htcp_cong_avoid g E sk ca ack rtt in_flight flag = Ok (sk', ca')
     /\ cwnd_opened sk sk' /\ htcp_inv ca')
  /\ (srtt sk < 8 -> snd_cwnd sk <= in_flight -> snd_ssthresh sk < snd_cwnd sk ->
     snd_ssthresh sk < 65535 -> icsk_ca_state sk = TCP_CA_Open ->
     htcp_cong_avoid g E sk ca ack rtt in_flight flag = Trap DivByZero).
Proof.
  intros Hsk Hca Hw. split.
  - intros Hs. pose proof (htcp_cong_avoid_returns g E sk ca ack rtt in_flight flag Hsk Hca Hs Hw) as H.
    apply returns_inv in H as ([sk' ca'] & -> & H). by exists sk', ca'.
  - intros Hs Hf Hth Hth2 Ho. unfold htcp_cong_avoid, tcp_is_cwnd_limited.
    rewrite (proj2 (Z.leb_le _ _) Hf), (proj2 (Z.leb_gt _ _) Hth). cbn [negb].
    assert (E0 : measure_rtt E sk ca = Trap DivByZero); [|by rewrite E0].
    unfold measure_rtt. rewrite (bool_decide_eq_true_2 _ Ho), (proj2 (Z.ltb_lt _ _) Hth2).
    cbn [andb]. rewrite Z.shiftr_div_pow2 by lia. change (2 ^ 3) with 8.
    rewrite Z.div_small by (destruct Hsk; lia). unfold htcp_ccount, udiv.
    destruct (_ || _) eqn:Hc; [done|].
    apply orb_false_iff in Hc as [Hc1 Hc2]. apply negb_false_iff, nz_true in Hc2.
    destruct Hca. lia.
Qed.

Lemma htcp_ex_inv : htcp_inv htcp_ex.
Proof. constructor; cbn; lia. Qed.

Lemma htcp_cong_avoid_safe_witness :
  let sk := sk_ex <| snd_cwnd := 200 |> in
  (exists sk' ca', htcp_cong_avoid htcp_defaults env_ex sk htcp_ex 0 0 300 0 = Ok (sk', ca')
     /\ cwnd_opened sk sk' /\ htcp_inv ca')
  /\ htcp_cong_avoid htcp_defaults env_ex (sk <| srtt := 7 |>) htcp_ex 0 0 300 0 = Trap DivByZero.
Proof.
  intros sk. split.
  - apply htcp_cong_avoid_safe; [|exact htcp_ex_inv|cbn; lia|cbn; lia]. constructor; cbn; lia.
  - apply htcp_cong_avoid_safe; [|exact htcp_ex_inv|cbn; lia..|done]. constructor; cbn; lia.
Defined.

(** A loss cuts the window to [beta] of it, [beta] between 0.5 and 0.8; the
    undo of the loss gives back the window up to 2 segments, and the times and
    maxima saved when the loss was entered. *)
Theorem htcp_loss_undo g E sk ca :
  wf_sock sk -> htcp_inv ca -> 4 <= snd_cwnd sk < 33554432 ->
  exists th ca', htcp_recalc_ssthresh g E sk ca = Ok (th, ca')
    /\ 64 <= beta ca' <= 102 /\ th = Z.max (snd_cwnd sk * beta ca' / 128) 2
    /\ snd_cwnd sk / 2 <= th <= snd_cwnd sk * 4 / 5
    /\ forall sk1, snd_ssthresh sk1 = th -> snd_cwnd sk1 <= snd_cwnd sk - 2 ->
       exists w ca2, htcp_cwnd_undo sk1 (htcp_reset E ca') = Ok (w, ca2)
         /\ snd_cwnd sk - 2 <= w <= snd_cwnd sk
         /\ last_cong ca2 = last_cong ca' /\ maxRTT ca2 = maxRTT ca' /\ old_maxB ca2 = old_maxB ca'.
Proof.
  intros Hsk Hca Hw.
  pose proof (htcp_recalc_ssthresh_returns g E sk ca Hsk Hca ltac:(lia)) as H.
  apply returns_inv in H as ([th ca'] & -> & Hca' & Hth).
  pose proof (ht_beta _ Hca') as Hb.
  assert (Hthb : snd_cwnd sk * 64 <= snd_cwnd sk * beta ca' <= snd_cwnd sk * 102) by nia.
  assert (Hth2 : th = snd_cwnd sk * beta ca' / 128) by (Z.div_mod_to_equations; lia).
  exists th, ca'. split; [done|]. split; [done|]. split; [done|].
  split; [rewrite Hth2; Z.div_mod_to_equations; lia|].
  intros sk1 Hs1 Hw1. unfold htcp_cwnd_undo. cbn -[Z.max udiv Z.shiftl].
  rewrite Hs1, Z.shiftl_mul_pow2, u32_id by (Z.div_mod_to_equations; lia).
  change (2 ^ 7) with 128. rewrite udiv_ok by lia. c_ret. do 2 eexists. split; [done|].
  split; [|done]. pose proof (undo_rounding (snd_cwnd sk) (beta ca') Hb ltac:(lia)) as Hr.
  rewrite <- Hth2 in Hr. lia.
Qed.

Lemma htcp_loss_undo_witness :
  let sk := sk_ex <| snd_cwnd := 200 |> in
  exists th ca', htcp_recalc_ssthresh htcp_defaults env_ex sk htcp_ex = Ok (th, ca')
    /\ 64 <= beta ca' <= 102 /\ th = Z.max (snd_cwnd sk * beta ca' / 128) 2
    /\ snd_cwnd sk / 2 <= th <= snd_cwnd sk * 4 / 5
    /\ forall sk1, snd_ssthresh sk1 = th -> snd_cwnd sk1 <= snd_cwnd sk - 2 ->
       exists w ca2, htcp_cwnd_undo sk1 (htcp_reset env_ex ca') = Ok (w, ca2)
         /\ snd_cwnd sk - 2 <= w <= snd_cwnd sk
         /\ last_cong ca2 = last_cong ca' /\ maxRTT ca2 = maxRTT ca' /\ old_maxB ca2 = old_maxB ca'.
Proof.
  intros sk. apply htcp_loss_undo; [|exact htcp_ex_inv|cbn; lia]. constructor; cbn; lia.
Defined.

(** Up to 132 s since the last congestion the growth factor is exactly the
    polynomial of the H-TCP paper and never decreases; 1 ms later its square
    wraps and the factor falls from 5606 to 1311. *)
Theorem htcp_factor_poly t1 t2 :
  0 <= t1 <= t2 -> t2 <= 132071 ->
  htcp_factor t2 = htcp_poly t2 /\ 1 <= htcp_factor t1 <= htcp_factor t2
  /\ htcp_factor 132071 = 5606 /\ htcp_factor 132072 = 1311.
Proof.
  intros H1 H2. rewrite !htcp_factor_exact by lia.
  pose proof (htcp_poly_mono t1 t2 H1). pose proof (htcp_poly_mono 0 t1 ltac:(lia)) as H0.
  change (htcp_poly 0) with 1 in H0. split; [done|]. split; [lia|]. by vm_compute.
Qed.

Lemma htcp_factor_poly_witness :
  htcp_factor 60000 = htcp_poly 60000 /\ 1 <= htcp_factor 5000 <= htcp_factor 60000
  /\ htcp_factor 132071 = 5606 /\ htcp_factor 132072 = 1311.
Proof. apply htcp_factor_poly; lia. Defined.
