(* ===== verification/Lp.v ===== *)
(** TCP Low Priority (tcp_lp.c): one-way delays from the time stamps, and the
    early back-off they trigger. *)
From S2P Require Import Sock LinuxC Reno.

(** * Definitions *)

Definition LP_RESOL : Z := 1000.

(** enum tcp_lp_state, a set of bits of [flag] *)
Definition LP_VALID_RHZ : Z := 1 ≪ 0.
Definition LP_VALID_OWD : Z := 1 ≪ 1.
Definition LP_WITHIN_THR : Z := 1 ≪ 3.
Definition LP_WITHIN_INF : Z := 1 ≪ 4.

Record lp := mk_lp {
  flag : Z;                   (* u32 *)
  sowd : Z;                   (* u32, << 3 *)
  owd_min : Z;                (* u32 *)
  owd_max : Z;                (* u32 *)
  owd_max_rsv : Z;            (* u32 *)
  remote_hz : Z;              (* u32 *)
  remote_ref_time : Z;        (* u32 *)
  local_ref_time : Z;         (* u32 *)
  last_drop : Z;              (* u32 *)
  inference : Z;              (* u32 *)
}.
#[global] Instance eta_lp : Eta lp := fun r =>
  mk_lp (flag r) (sowd r) (owd_min r) (owd_max r) (owd_max_rsv r) (remote_hz r)
    (remote_ref_time r) (local_ref_time r) (last_drop r) (inference r).

(** [lp->flag |= b], [lp->flag &= ~b] and [lp->flag & b] *)
Definition flag_put (b : Z) (on : bool) (l : lp) : lp :=
  l <| flag := if on then Z.lor (flag l) b else Z.ldiff (flag l) b |>.
Definition flag_has (b : Z) (l : lp) : bool := nz (Z.land (flag l) b).

Definition tcp_lp_init (l : lp) : lp :=
  l <| flag := 0 |> <| sowd := 0 |> <| owd_min := 0xffffffff |> <| owd_max := 0 |>
    <| owd_max_rsv := 0 |> <| remote_hz := 0 |> <| remote_ref_time := 0 |>
    <| local_ref_time := 0 |> <| last_drop := 0 |> <| inference := 0 |>.

Definition tcp_lp_cong_avoid (E : env) (sk : tcp_sock) (l : lp) (ack rtt in_flight fl : Z)
  : outcome tcp_sock :=
  if negb (flag_has LP_WITHIN_INF l) then tcp_reno_cong_avoid E sk ack rtt in_flight fl
  else Ok sk.

(** The estimate of the remote clock, before the flag and the references are
    updated; an [s64]. *)
Definition remote_rhz (sk : tcp_sock) (l : lp) : outcome Z :=
  let rhz := remote_hz l ⊗ 64 in
  if (remote_ref_time l =? 0) || (local_ref_time l =? 0) then Ok rhz
  else if (rcv_tsval (rx_opt sk) =? remote_ref_time l)
       || (rcv_tsecr (rx_opt sk) =? local_ref_time l) then Ok rhz
  else
    m ← udiv (HZ ⊗ (rcv_tsval (rx_opt sk) ⊖ remote_ref_time l))
             (rcv_tsecr (rx_opt sk) ⊖ local_ref_time l);
    let m := if m <? 0 then - m else m in
    Ok (if 0 <? rhz then rhz + (m - rhz ≫ 6) else m ≪ 6).

Definition tcp_lp_remote_hz_estimator (sk : tcp_sock) (l : lp) : outcome (Z * lp) :=
  rhz ← remote_rhz sk l;
  let l := flag_put LP_VALID_RHZ (0 <? rhz ≫ 6) l in
  let l := l <| remote_ref_time := rcv_tsval (rx_opt sk) |>
             <| local_ref_time := rcv_tsecr (rx_opt sk) |> in
  Ok (u32 (rhz ≫ 6), l).

Definition tcp_lp_owd_calculator (sk : tcp_sock) (l : lp) : outcome (Z * lp) :=
  '(hz, l) ← tcp_lp_remote_hz_estimator sk l;
  let l := l <| remote_hz := hz |> in
  owd ← (if flag_has LP_VALID_RHZ l then
           q ← udiv LP_RESOL (remote_hz l);
           Ok (rcv_tsval (rx_opt sk) ⊗ q ⊖ rcv_tsecr (rx_opt sk) ⊗ (LP_RESOL / HZ))
         else Ok 0);
  let owd := if owd <? 0 then - owd else owd in
  Ok (u32 owd, flag_put LP_VALID_OWD (0 <? owd) l).

(** The minimum, the maximum and the reserved maximum, after a sample. *)
Definition owd_record (mowd : Z) (l : lp) : lp :=
  let l := if mowd <? owd_min l then l <| owd_min := mowd |> else l in
  if owd_max l <? mowd then
    if owd_max_rsv l <? mowd then
      let l := if owd_max_rsv l =? 0 then l <| owd_max := mowd |>
               else l <| owd_max := owd_max_rsv l |> in
      l <| owd_max_rsv := mowd |>
    else l <| owd_max := mowd |>
  else l.

Definition tcp_lp_rtt_sample (sk : tcp_sock) (l : lp) (rtt : Z) : outcome lp :=
  '(mowd, l) ← tcp_lp_owd_calculator sk l;
  if negb (flag_has LP_VALID_RHZ l) || negb (flag_has LP_VALID_OWD l) then Ok l
  else
    let l := owd_record mowd l in
    Ok (if nz (sowd l) then l <| sowd := u32 (sowd l + (mowd - sowd l ≫ 3)) |>
        else l <| sowd := u32 (mowd ≪ 3) |>).

(** The tests of an acknowledgement: the inference time, and the two bits. *)
Definition lp_tests (E : env) (sk : tcp_sock) (l : lp) : lp :=
  let l := if rcv_tsecr (rx_opt sk) <? tcp_time_stamp E
           then l <| inference := 3 ⊗ (tcp_time_stamp E ⊖ rcv_tsecr (rx_opt sk)) |> else l in
  let l := flag_put LP_WITHIN_INF
    (nz (last_drop l) && (tcp_time_stamp E ⊖ last_drop l <? inference l)) l in
  flag_put LP_WITHIN_THR
    (sowd l ≫ 3 <? owd_min l ⊕ 15 ⊗ (owd_max l ⊖ owd_min l) / 100) l.

Definition tcp_lp_pkts_acked (E : env) (sk : tcp_sock) (l : lp) (num_acked last : Z)
  : outcome (tcp_sock * lp) :=
  l ← (if negb (ktime_equal last net_invalid_timestamp)
       then tcp_lp_rtt_sample sk l (u32 (ktime_to_us (net_timedelta (ktime_get_real E) last)))
       else Ok l);
  let l := lp_tests E sk l in
  if flag_has LP_WITHIN_THR l then Ok (sk, l)
  else
    let l := l <| owd_min := sowd l ≫ 3 |> <| owd_max := sowd l ≫ 2 |>
               <| owd_max_rsv := sowd l ≫ 2 |> in
    let sk := if flag_has LP_WITHIN_INF l then sk <| snd_cwnd := 1 |>
              else sk <| snd_cwnd := Z.max (snd_cwnd sk ≫ 1) 1 |> in
    Ok (sk, l <| last_drop := tcp_time_stamp E |>).

Definition tcp_lp : tcp_congestion_ops lp := {|
  ops_name := "lp";
  ops_flags := TCP_CONG_RTT_STAMP;
  ops_init := Some (fun _ sk l => Ok (sk, tcp_lp_init l));
  ops_ssthresh := fun _ sk l => Ok (tcp_reno_ssthresh sk, l);
  ops_cong_avoid := fun E sk l ack rtt in_flight fl =>
    sk ← tcp_lp_cong_avoid E sk l ack rtt in_flight fl; Ok (sk, l);
  ops_min_cwnd := Some (fun _ sk _ => Ok (tcp_reno_min_cwnd sk));
  ops_rtt_sample := None; ops_set_state := None; ops_cwnd_event := None;
  ops_undo_cwnd := None;
  ops_pkts_acked := Some tcp_lp_pkts_acked;
|}.

(** ** Invariant *)

Record lp_inv (l : lp) : Prop := mk_lp_inv {
  lp_flag : 0 <= flag l < 32;
  lp_sowd : in_u32 (sowd l);
  lp_owd_min : in_u32 (owd_min l);
  lp_owd_max : in_u32 (owd_max l);
  lp_owd_max_rsv : in_u32 (owd_max_rsv l);
  lp_remote_hz : in_u32 (remote_hz l);
  lp_remote_ref_time : in_u32 (remote_ref_time l);
  lp_local_ref_time : in_u32 (local_ref_time l);
  lp_last_drop : in_u32 (last_drop l);
  lp_inference : in_u32 (inference l);
}.

(** The delay test of an acknowledgement. *)
Definition lp_within_thr (l : lp) : bool :=
  sowd l ≫ 3 <? owd_min l ⊕ 15 ⊗ (owd_max l ⊖ owd_min l) / 100.

(** A connection whose remote clock is known, on its first delay sample. *)
Definition lp_ex : lp := mk_lp 1 0 0xffffffff 0 0 1000 95000 94980 0 0.
Definition lp_sk : tcp_sock := sk_ex <| rx_opt := mk_rx_opt 95020 95000 true |>.

(** * Lemmas *)

Definition lp_bits : list Z := [LP_VALID_RHZ; LP_VALID_OWD; LP_WITHIN_THR; LP_WITHIN_INF].

(** The four bits are independent, and fit in 5 bits: by enumeration. *)
Definition flag_table : bool :=
  forallb (fun i => let f := Z.of_nat i in
    forallb (fun b => forallb (fun on =>
      let f' := if on : bool then Z.lor f b else Z.ldiff f b in
      (0 <=? f') && (f' <? 32) &&
      forallb (fun b' => Bool.eqb (nz (Z.land f' b')) (if b =? b' then on else nz (Z.land f b')))
        lp_bits) [true; false]) lp_bits) (seq 0 32).

Lemma flag_table_ok : flag_table = true.
Proof. by vm_compute. Qed.

Lemma flag_put_spec b on l :
  In b lp_bits -> 0 <= flag l < 32 ->
  0 <= flag (flag_put b on l) < 32
  /\ forall b', In b' lp_bits ->
       flag_has b' (flag_put b on l) = if b =? b' then on else flag_has b' l.
Proof.
  intros Hb Hf. assert (H := flag_table_ok). unfold flag_table in H.
  rewrite forallb_forall in H. specialize (H (Z.to_nat (flag l))).
  rewrite Z2Nat.id in H by lia. cbv zeta in H.
  rewrite forallb_forall in H. specialize (H ltac:(apply in_seq; lia) b Hb).
  rewrite forallb_forall in H. specialize (H on ltac:(destruct on; cbn; auto)).
  apply andb_prop in H as [H Hbits]. apply andb_prop in H as [H0 H1].
  change (flag (flag_put b on l)) with (if on then Z.lor (flag l) b else Z.ldiff (flag l) b).
  split; [lia|]. intros b' Hb'. rewrite forallb_forall in Hbits.
  specialize (Hbits b' Hb'). apply Bool.eqb_prop in Hbits. exact Hbits.
Qed.

Ltac in_bits := solve [cbn; auto 6].

(** Writing one flag touches no other field. *)
Lemma flag_put_inv b on l : In b lp_bits -> lp_inv l -> lp_inv (flag_put b on l).
Proof.
  intros Hb Hl. pose proof (flag_put_spec b on l Hb (lp_flag _ Hl)) as [Hf _].
  destruct Hl. constructor; done.
Qed.

Lemma flag_put_same b on l :
  In b lp_bits -> 0 <= flag l < 32 -> flag_has b (flag_put b on l) = on.
Proof.
  intros Hb Hf. destruct (flag_put_spec b on l Hb Hf) as [_ ->]; [|done]. by rewrite Z.eqb_refl.
Qed.

Lemma flag_put_other b b' on l :
  In b lp_bits -> In b' lp_bits -> b <> b' -> 0 <= flag l < 32 ->
  flag_has b' (flag_put b on l) = flag_has b' l.
Proof.
  intros Hb Hb' Hne Hf. destruct (flag_put_spec b on l Hb Hf) as [_ ->]; [|done].
  by rewrite (proj2 (Z.eqb_neq b b') Hne).
Qed.

Lemma remote_rhz_range sk l :
  wf_sock sk -> lp_inv l ->
  returns (remote_rhz sk l) (fun rhz => 0 <= rhz ≫ 6 < 4294967296).
Proof.
  intros [] []. unfold remote_rhz.
  pose proof (u32_range (remote_hz l * 64)) as Hr. set (rhz := u32 (remote_hz l * 64)) in *.
  assert (Hs : 0 <= rhz / 64 < 4294967296) by (Z.div_mod_to_equations; lia).
  change 64 with (2 ^ 6) in Hs. rewrite <- (Z.shiftr_div_pow2 rhz 6) in Hs by lia.
  do 2 (case_cond; [done|]).
  set (n := _ ⊗ _). set (d := rcv_tsecr (rx_opt sk) ⊖ local_ref_time l).
  assert (Hd : 0 < d < 4294967296) by (subst d; c_lia).
  assert (Hn : in_u32 n) by apply u32_range. clearbody n d rhz.
  rewrite udiv_ok by lia. c_ret.
  assert (Hm : 0 <= n / d < 4294967296).
  { split; [apply Z.div_pos; lia|]. apply Z.div_lt_upper_bound; nia. }
  destruct (Z.ltb_spec (n / d) 0); [lia|]. set (m := n / d) in *. clearbody m.
  unfold returns. case_cond.
  - revert Hs. rewrite !Z.shiftr_div_pow2 by lia. change (2 ^ 6) with 64. intros Hs.
    Z.div_mod_to_equations; lia.
  - rewrite Z.shiftr_shiftl_l by lia. change (6 - 6) with 0. rewrite Z.shiftl_0_r. lia.
Qed.

Lemma owd_calculator_returns sk l :
  wf_sock sk -> lp_inv l ->
  returns (tcp_lp_owd_calculator sk l) (fun '(owd, l') => lp_inv l' /\ in_u32 owd
    /\ flag_has LP_VALID_RHZ l' = (0 <? remote_hz l')
    /\ flag_has LP_VALID_OWD l' = (0 <? owd)
    /\ owd = (if 0 <? remote_hz l'
              then rcv_tsval (rx_opt sk) ⊗ (1000 / remote_hz l') ⊖ rcv_tsecr (rx_opt sk) else 0)
    /\ exists f hz, l' = l <| flag := f |> <| remote_hz := hz |>
         <| remote_ref_time := rcv_tsval (rx_opt sk) |>
         <| local_ref_time := rcv_tsecr (rx_opt sk) |>).
Proof.
  intros Hsk Hl. pose proof (remote_rhz_range sk l Hsk Hl) as Hr.
  unfold tcp_lp_owd_calculator, tcp_lp_remote_hz_estimator.
  destruct (remote_rhz sk l) as [rhz|]; [|done]. cbn [returns] in Hr. c_ret.
  rewrite (u32_id (rhz ≫ 6)) by done. set (hz := rhz ≫ 6) in *. clearbody hz.
  set (l1 := flag_put LP_VALID_RHZ (0 <? hz) l).
  assert (Hl1 : lp_inv l1) by (apply flag_put_inv; [in_bits|done]).
  set (l2 := _ <| remote_hz := hz |>).
  assert (Hl2 : lp_inv l2) by (destruct Hsk, Hl1; constructor; done).
  assert (Hv : flag_has LP_VALID_RHZ l2 = (0 <? hz)).
  { change (flag_has LP_VALID_RHZ l2) with (flag_has LP_VALID_RHZ l1).
    apply flag_put_same; [in_bits|apply Hl]. }
  change (remote_hz l2) with hz. rewrite Hv.
  set (owd := if 0 <? hz then rcv_tsval (rx_opt sk) ⊗ (1000 / hz) ⊖ rcv_tsecr (rx_opt sk) else 0).
  assert (Ho : in_u32 owd).
  { subst owd. case_cond; [apply u32_range|lia]. }
  assert (Eo : (if 0 <? hz then q ← udiv LP_RESOL hz;
      Ok (rcv_tsval (rx_opt sk) ⊗ q ⊖ rcv_tsecr (rx_opt sk) ⊗ (LP_RESOL / HZ)) else Ok 0) = Ok owd).
  { subst owd. destruct (Z.ltb_spec 0 hz); [|done]. rewrite udiv_ok by lia. c_ret.
    change (LP_RESOL / HZ) with 1. rewrite Z.mul_1_r, (u32_id (rcv_tsecr _)) by apply Hsk. done. }
  rewrite Eo. c_ret. destruct (Z.ltb_spec owd 0); [lia|]. rewrite u32_id by done.
  cbn [returns]. split; [apply flag_put_inv; [in_bits|done]|]. split; [done|].
  rewrite flag_put_other by (in_bits || done || apply Hl2).
  rewrite (flag_put_same LP_VALID_OWD) by (in_bits || apply Hl2).
  split; [exact Hv|split; [done|split; [done|]]]. by exists (flag (flag_put LP_VALID_OWD (0 <? owd) l2)), hz.
Qed.

Lemma owd_record_inv mowd l :
  in_u32 mowd -> lp_inv l -> lp_inv (owd_record mowd l) /\
  exists m M R, owd_record mowd l = l <| owd_min := m |> <| owd_max := M |> <| owd_max_rsv := R |>.
Proof.
  intros Hm []. unfold owd_record. repeat case_cond; (split; [constructor; cbn; done|]);
    match goal with |- exists _ _ _, ?t = _ => exists (owd_min t), (owd_max t), (owd_max_rsv t) end;
    by destruct l.
Qed.

Lemma rtt_sample_returns sk l rtt :
  wf_sock sk -> lp_inv l ->
  returns (tcp_lp_rtt_sample sk l rtt) (fun l' => lp_inv l'
    /\ last_drop l' = last_drop l /\ inference l' = inference l).
Proof.
  intros Hsk Hl. unfold tcp_lp_rtt_sample.
  eapply returns_bind; [by apply owd_calculator_returns|].
  intros [mowd l1] (Hl1 & Hm & _ & _ & _ & f & hz & E1).
  assert (Hf : last_drop l1 = last_drop l /\ inference l1 = inference l) by (by rewrite E1).
  clear E1. case_cond; [done|].
  destruct (owd_record_inv mowd l1 Hm Hl1) as [Hl2 (m & M & R & E2)].
  assert (Hf2 : last_drop (owd_record mowd l1) = last_drop l
    /\ inference (owd_record mowd l1) = inference l) by (rewrite E2; exact Hf).
  clear E2. cbn [returns]. destruct Hl2.
  case_cond; (split; [constructor; cbn; done || apply u32_range|exact Hf2]).
Qed.

Lemma lp_tests_spec E sk l :
  lp_inv l ->
  lp_inv (lp_tests E sk l)
  /\ (exists f i, lp_tests E sk l = l <| flag := f |> <| inference := i |>)
  /\ flag_has LP_WITHIN_INF (lp_tests E sk l) =
     nz (last_drop l) && (tcp_time_stamp E ⊖ last_drop l <? inference (lp_tests E sk l))
  /\ flag_has LP_WITHIN_THR (lp_tests E sk l) = lp_within_thr l.
Proof.
  intros Hl. unfold lp_tests.
  set (l1 := if _ <? tcp_time_stamp E then _ else l).
  assert (Hl1 : lp_inv l1).
  { subst l1. destruct Hl. case_cond; [constructor; cbn; done || apply u32_range|done]. }
  assert (E1 : exists i, l1 = l <| inference := i |>).
  { subst l1. case_cond; [by eexists|]. exists (inference l). by destruct l. }
  clearbody l1. destruct E1 as [i E1].
  set (l2 := flag_put LP_WITHIN_INF _ l1).
  assert (Hl2 : lp_inv l2) by (apply flag_put_inv; [in_bits|done]).
  split; [apply flag_put_inv; [in_bits|done]|]. split; [|split].
  - exists (flag (flag_put LP_WITHIN_THR (lp_within_thr l) l2)), i. unfold l2. by rewrite E1.
  - rewrite flag_put_other by (in_bits || done || apply Hl2).
    unfold l2 at 1. rewrite flag_put_same by (in_bits || apply Hl1).
    change (inference (flag_put _ _ l2)) with (inference l1). by subst l1.
  - rewrite flag_put_same by (in_bits || apply Hl2). by subst l1.
Qed.

(** * Properties *)

(** [tcp_lp_pkts_acked] never traps and preserves the invariant.  When the
    smoothed one-way delay is below 15% of the range seen it leaves the socket
    alone; otherwise it backs off, to one segment if the previous back-off is
    more recent than the inference time and to half the window if not, and
    records the time.  Inside the inference time the congestion avoidance of
    the same acknowledgement then leaves the window alone. *)
Theorem lp_early_backoff E sk l n last ack rtt in_flight fl :
  wf_sock sk -> wf_env E -> lp_inv l -> 1 <= snd_cwnd sk ->
  exists sk' l', tcp_lp_pkts_acked E sk l n last = Ok (sk', l') /\ lp_inv l'
    /\ let recent := nz (last_drop l)
         && (tcp_time_stamp E ⊖ last_drop l <? inference l') in
       tcp_lp_cong_avoid E sk' l' ack rtt in_flight fl =
         (if recent then Ok sk' else tcp_reno_cong_avoid E sk' ack rtt in_flight fl)
       /\ ((lp_within_thr l' = true /\ sk' = sk /\ last_drop l' = last_drop l)
           \/ (owd_min l' = sowd l' / 8 /\ owd_max l' = sowd l' / 4
               /\ last_drop l' = tcp_time_stamp E
               /\ sk' = sk <| snd_cwnd := if recent then 1 else Z.max (snd_cwnd sk / 2) 1 |>)).
Proof.
  intros Hsk HE Hl Hw. unfold tcp_lp_pkts_acked.
  set (m := if negb (ktime_equal last net_invalid_timestamp) then _ else Ok l).
  assert (Hm : returns m (fun l1 => lp_inv l1 /\ last_drop l1 = last_drop l)).
  { subst m. case_cond; [|done]. eapply returns_mono; [by apply rtt_sample_returns|naive_solver]. }
  destruct m as [l1|]; [|done]. destruct Hm as [Hl1 Ed]. c_ret.
  destruct (lp_tests_spec E sk l1 Hl1) as (Hl2 & (f & i & E2) & Hinf & Hthr).
  set (l2 := lp_tests E sk l1) in *. clearbody l2. rewrite <- Ed in *.
  rewrite Hthr. destruct (lp_within_thr l1) eqn:Ht.
  - exists sk, l2. split; [done|split; [done|]]. cbv zeta. split.
    + unfold tcp_lp_cong_avoid. rewrite Hinf. by destruct (_ && _).
    + left. subst l2. split; [exact Ht|done].
  - set (l3 := l2 <| owd_min := _ |> <| owd_max := _ |> <| owd_max_rsv := _ |>).
    assert (Hs : in_u32 (sowd l2 ≫ 3) /\ in_u32 (sowd l2 ≫ 2)).
    { pose proof (lp_sowd _ Hl2). split; rewrite Z.shiftr_div_pow2 by lia;
        [change (2 ^ 3) with 8|change (2 ^ 2) with 4]; Z.div_mod_to_equations; lia. }
    eexists _, _. split; [done|]. split.
    + destruct Hl2, HE. constructor; cbn; (done || apply Hs).
    + cbv zeta. change (flag_has LP_WITHIN_INF l3) with (flag_has LP_WITHIN_INF l2).
      rewrite Hinf. split.
      * unfold tcp_lp_cong_avoid.
        change (flag_has LP_WITHIN_INF (l3 <| last_drop := _ |>)) with (flag_has LP_WITHIN_INF l2).
        rewrite Hinf. cbn. by destruct (_ && _).
      * right. cbn [owd_min owd_max last_drop sowd set_field]. split; [|split; [|split; [done|]]].
        -- apply Z.shiftr_div_pow2. lia.
        -- apply Z.shiftr_div_pow2. lia.
        -- rewrite Z.shiftr_div_pow2 by lia. change (inference (l3 <| last_drop := _ |>))
             with (inference l2). by destruct (_ && _).
Qed.

Lemma lp_ex_inv : lp_inv lp_ex.
Proof. constructor; cbn; lia. Qed.

Lemma lp_early_backoff_witness :
  exists sk' l', tcp_lp_pkts_acked env_ex lp_sk lp_ex 1 99000000000 = Ok (sk', l') /\ lp_inv l'
    /\ snd_cwnd sk' = 5.
Proof.
  destruct (lp_early_backoff env_ex lp_sk lp_ex 1 99000000000 0 0 0 0) as (sk' & l' & E & Hi & _).
  - constructor; cbn; lia.
  - exact wf_env_ex.
  - exact lp_ex_inv.
  - cbn; lia.
  - exists sk', l'. split; [exact E|split; [exact Hi|]]. vm_compute in E. by injection E as <- _.
Defined.

(** The delay calculator never divides by zero, and its result is the
    scaled remote time less the local time modulo [2^32], never its absolute
    value: the [owd < 0] branch is dead, so a remote clock behind the local one
    by [k] ticks gives a delay of [2^32 - k]. *)
Theorem lp_owd_wraps sk l :
  wf_sock sk -> lp_inv l ->
  exists owd l', tcp_lp_owd_calculator sk l = Ok (owd, l')
    /\ flag_has LP_VALID_RHZ l' = (0 <? remote_hz l')
    /\ forall k, 0 < k < 4294967296 -> 0 < remote_hz l' ->
       rcv_tsval (rx_opt sk) * (1000 / remote_hz l') = rcv_tsecr (rx_opt sk) - k ->
       owd = 4294967296 - k.
Proof.
  intros Hsk Hl. pose proof (owd_calculator_returns sk l Hsk Hl) as H.
  apply returns_inv in H as ([owd l'] & E & Hl' & Hr & Hv & Hd & Ho & _).
  exists owd, l'. split; [done|split; [done|]]. intros k Hk Hz Hdiff.
  rewrite (proj2 (Z.ltb_lt _ _) Hz), Hdiff in Ho. rewrite Ho. destruct Hsk.
  assert (0 <= rcv_tsval (rx_opt sk) * (1000 / remote_hz l')).
  { apply Z.mul_nonneg_nonneg; [lia|]. apply Z.div_pos; lia. }
  rewrite (u32_id (rcv_tsecr (rx_opt sk) - k)) by lia. c_lia.
Qed.

Lemma lp_owd_wraps_witness :
  exists owd l', tcp_lp_owd_calculator (sk_ex <| rx_opt := mk_rx_opt 94990 95000 true |>)
    (lp_ex <| remote_ref_time := 94970 |>) = Ok (owd, l') /\ owd = 4294967286.
Proof.
  destruct (lp_owd_wraps (sk_ex <| rx_opt := mk_rx_opt 94990 95000 true |>)
    (lp_ex <| remote_ref_time := 94970 |>)) as (owd & l' & E & _ & Hk).
  - constructor; cbn; lia.
  - constructor; cbn; lia.
  - exists owd, l'. split; [exact E|]. apply (Hk 10); [lia|..].
    + vm_compute in E. injection E as _ <-. reflexivity.
    + vm_compute in E. injection E as _ <-. reflexivity.
Defined.
