(* ===== verification/Compound.v ===== *)
(** Compound TCP (tcp_compound.c): the window is the sum of a loss-based part
    and a delay-based part, which grows with the fourth root of a cube, found
    by a Newton iteration. *)
From stdpp Require Import list_numbers.
From S2P Require Import Sock LinuxC Reno.

(** * Definitions *)

Definition V_PARAM_SHIFT : Z := 1.
Definition TCP_COMPOUND_ALPHA : Z := 3.
Definition TCP_COMPOUND_BETA : Z := 1.
Definition TCP_COMPOUND_GAMMA : Z := 30.

(** ** qroot *)

Definition cdiv64_64 (dividend divisor : Z) : outcome Z :=
  let '(dividend, d) :=
    if 0xffffffff <? divisor then
      let shift := fls (s32 (divisor ≫ 32)) in (dividend ≫ shift, u32 (divisor ≫ shift))
    else (dividend, u32 divisor) in
  if nz (dividend ≫ 32) then '(dividend, _) ← do_div dividend d; Ok dividend
  else udiv (u32 dividend) d.

(** One Newton step for [x^4 = a]. *)
Definition qroot_step (a x : Z) : outcome Z :=
  let x3 := u64 (u64 (x * x) * x) in
  q ← cdiv64_64 a x3;
  Ok ((3 ⊗ x ⊕ u32 q) / 4).

(** The loop runs on the pair [(x1, x)] of the last two iterates. *)
Definition qroot_body (a : Z) (xs : Z * Z) : outcome (Z * Z) :=
  x ← qroot_step a (snd xs); Ok (snd xs, x).
Definition qroot_cond (xs : Z * Z) : bool := 1 <? Z.abs (s32 (fst xs ⊖ snd xs)).

Definition qroot (a : Z) : outcome Z :=
  let x := u32 (1 ≪ (fls64 a ≫ 2)) in
  xs ← c_do_while (qroot_body a) qroot_cond (0, x);
  Ok (snd xs).

(** ** The module *)

Record compound := mk_compound {
  beg_snd_nxt : Z;            (* u32 *)
  beg_snd_una : Z;            (* u32 *)
  beg_snd_cwnd : Z;           (* u32 *)
  doing_vegas_now : Z;        (* u8 *)
  cntRTT : Z;                 (* u16, that is unsigned int *)
  minRTT : Z;                 (* u32 *)
  baseRTT : Z;                (* u32 *)
  cwnd : Z;                   (* u32 *)
  dwnd : Z;                   (* u32 *)
}.
#[global] Instance eta_compound : Eta compound := fun r =>
  mk_compound (beg_snd_nxt r) (beg_snd_una r) (beg_snd_cwnd r) (doing_vegas_now r) (cntRTT r)
    (minRTT r) (baseRTT r) (cwnd r) (dwnd r).

Definition cvegas_enable (sk : tcp_sock) (v : compound) : compound :=
  v <| doing_vegas_now := 1 |> <| beg_snd_nxt := snd_nxt sk |>
    <| cntRTT := 0 |> <| minRTT := 0x7fffffff |>.

Definition cvegas_disable (v : compound) : compound := v <| doing_vegas_now := 0 |>.

Definition tcp_compound_init (sk : tcp_sock) (v : compound) : compound :=
  (cvegas_enable sk (v <| baseRTT := 0x7fffffff |>)) <| dwnd := 0 |> <| cwnd := snd_cwnd sk |>.

Definition tcp_compound_rtt_calc (v : compound) (usrtt : Z) : compound :=
  let vrtt := usrtt ⊕ 1 in
  let v := if vrtt <? baseRTT v then v <| baseRTT := vrtt |> else v in
  v <| minRTT := Z.min (minRTT v) vrtt |> <| cntRTT := cntRTT v ⊕ 1 |>.

Definition tcp_compound_state (sk : tcp_sock) (v : compound) (ca_state : tcp_ca_state)
  : compound :=
  if decide (ca_state = TCP_CA_Open) then cvegas_enable sk v else cvegas_disable v.

Definition tcp_compound_cwnd_event (sk : tcp_sock) (v : compound) (event : tcp_ca_event)
  : compound :=
  match event with
  | CA_EVENT_CWND_RESTART | CA_EVENT_TX_START => tcp_compound_init sk v
  | _ => v
  end.

(** The two parts are brought back under a window the stack has cut. *)
Definition compound_sync (tp : tcp_sock) (v : compound) : compound :=
  if snd_cwnd tp <? cwnd v ⊕ dwnd v then
    if (snd_cwnd tp <? cwnd v) || (snd_cwnd tp <? dwnd v)
    then v <| cwnd := snd_cwnd tp |> <| dwnd := 0 |>
    else v <| cwnd := snd_cwnd tp ⊖ dwnd v |>
  else v.

(** The loss-based part, as in Reno. *)
Definition compound_loss_part (tp : tcp_sock) (v : compound) : tcp_sock * compound :=
  let '(inc, tp) :=
    if cwnd v <=? snd_ssthresh tp then (1, tp)
    else if snd_cwnd_cnt tp <? snd_cwnd tp
         then (0, tp <| snd_cwnd_cnt := snd_cwnd_cnt tp ⊕ 1 |>) else (0, tp) in
  let '(inc, tp) :=
    if snd_cwnd tp <=? snd_cwnd_cnt tp then (1, tp <| snd_cwnd_cnt := 0 |>) else (inc, tp) in
  (tp, if nz inc && (snd_cwnd tp <? snd_cwnd_clamp tp) then v <| cwnd := cwnd v ⊕ 1 |> else v).

(** The delay-based part, once per round trip. *)
Definition compound_delay_part (old_wnd dwnd0 diff : Z) : outcome Z :=
  if diff <? TCP_COMPOUND_GAMMA ≪ V_PARAM_SHIFT then
    let win3 := u64 (u64 (old_wnd * old_wnd) * old_wnd) in
    r ← qroot win3;
    let x := r ≫ TCP_COMPOUND_ALPHA in
    Ok ((if 1 <? x then u32 (x - 1) else 0) ⊕ dwnd0)
  else if u32 (dwnd0 ≪ V_PARAM_SHIFT) <? diff ⊗ TCP_COMPOUND_BETA then Ok 0
  else Ok ((u32 (dwnd0 ≪ V_PARAM_SHIFT) ⊖ diff ⊗ TCP_COMPOUND_BETA) ≫ V_PARAM_SHIFT).

Definition compound_diff (old_wnd : Z) (v : compound) : outcome Z :=
  target_cwnd ← udiv (u32 ((old_wnd ⊗ baseRTT v) ≪ V_PARAM_SHIFT)) (minRTT v);
  Ok (u32 (old_wnd ≪ V_PARAM_SHIFT) ⊖ target_cwnd).

Definition tcp_compound_cong_avoid (sk : tcp_sock) (v : compound)
  (ack seq_rtt in_flight flag : Z) : outcome (tcp_sock * compound) :=
  let v := compound_sync sk v in
  if negb (tcp_is_cwnd_limited sk in_flight) then Ok (sk, v)
  else
    let '(tp, v) := compound_loss_part sk v in
    if after ack (beg_snd_nxt v) then
      if negb (nz (mss_cache tp)) then Ok (tp, v)
      else
        old_wnd ← udiv (beg_snd_nxt v ⊖ beg_snd_una v) (mss_cache tp);
        let v := v <| beg_snd_una := beg_snd_nxt v |> <| beg_snd_nxt := snd_nxt tp |>
                   <| beg_snd_cwnd := snd_cwnd tp |> in
        if (2 <? cntRTT v) && negb (nz (minRTT v)) then Ok (tp, v)
        else
          v ← (if 2 <? cntRTT v then
                 diff ← compound_diff old_wnd v;
                 d ← compound_delay_part old_wnd (dwnd v) diff;
                 Ok (v <| dwnd := d |>)
               else Ok v);
          let v := v <| cntRTT := 0 |> <| minRTT := 0x7fffffff |> in
          Ok (tp <| snd_cwnd := cwnd v ⊕ dwnd v |>, v)
    else Ok (tp <| snd_cwnd := cwnd v ⊕ dwnd v |>, v).

(** The report over netlink: [RTA_DATA] and [__RTA_PUT] are [NULL] here. *)
Definition INET_DIAG_VEGASINFO : Z := 1.
Definition tcp_compound_get_info (v : compound) (ext : Z) : outcome unit :=
  if nz (Z.land ext (1 ≪ (INET_DIAG_VEGASINFO - 1))) then Trap NullDeref else Ok tt.

Definition tcp_compound : tcp_congestion_ops compound := {|
  ops_name := "compound";
  ops_flags := TCP_CONG_RTT_STAMP;
  ops_init := Some (fun _ sk v => Ok (sk, tcp_compound_init sk v));
  ops_ssthresh := fun _ sk v => Ok (tcp_reno_ssthresh sk, v);
  ops_cong_avoid := fun _ sk v ack rtt in_flight flag =>
    tcp_compound_cong_avoid sk v ack rtt in_flight flag;
  ops_min_cwnd := Some (fun _ sk _ => Ok (tcp_reno_min_cwnd sk));
  ops_rtt_sample := Some (fun _ _ v r => Ok (tcp_compound_rtt_calc v r));
  ops_set_state := Some (fun _ sk v st => Ok (tcp_compound_state sk v st));
  ops_cwnd_event := Some (fun _ sk v ev => Ok (sk, tcp_compound_cwnd_event sk v ev));
  ops_undo_cwnd := None; ops_pkts_acked := None;
|}.

(** [x1], [x]: the last two iterates; [r] is the root rounded down. *)
Definition qroot_near (r : Z) (xs : Z * Z) : Prop :=
  r <= snd xs <= 327680 /\ 0 <= fst xs <= 327680
  /\ (Z.abs (fst xs - snd xs) <= 1 -> snd xs <= r + 2).

Definition qroot_measure (xs : Z * Z) : Z := snd xs + (if qroot_cond xs then 4 else 0).

Definition qroot_small_ok (a : Z) : bool :=
  match qroot a with
  | Ok x => let r := Z.sqrt (Z.sqrt a) in (r <=? x) && (x <=? r + 2)
  | Trap _ => false
  end.

Record compound_inv (v : compound) : Prop := mk_compound_inv {
  cp_nxt : in_u32 (beg_snd_nxt v);
  cp_una : in_u32 (beg_snd_una v);
  cp_beg_cwnd : in_u32 (beg_snd_cwnd v);
  cp_doing : in_u8 (doing_vegas_now v);
  cp_cnt : in_u32 (cntRTT v);
  cp_min : in_u32 (minRTT v);
  cp_base : in_u32 (baseRTT v);
  cp_cwnd : in_u32 (cwnd v);
  cp_dwnd : in_u32 (dwnd v);
}.

(** The window that ended in the last round trip, in segments. *)
Definition compound_old_wnd (sk : tcp_sock) (v : compound) : Z :=
  (beg_snd_nxt v - beg_snd_una v) / mss_cache sk.

Definition compound_ex : compound := mk_compound 1100000 100000 999 1 5 110000 100000 600 399.

(** * Lemmas *)

(** ** qroot *)

Lemma short_div n d :
  in_u64 n -> in_u32 d ->
  (if nz (n ≫ 32) then '(q, _) ← do_div n d; Ok q else udiv (u32 n) d)
  = '(q, _) ← do_div n d; Ok q.
Proof.
  intros Hn Hd. case_cond; [done|]. apply nz_false in Hc.
  rewrite Z.shiftr_div_pow2 in Hc by lia. change (2 ^ 32) with 4294967296 in Hc.
  assert (in_u32 n) by (Z.div_mod_to_equations; lia).
  unfold do_div, udiv, umod. rewrite (u32_id d), (u32_id n), (u64_id n) by lia.
  by destruct (d =? 0).
Qed.

(** The same quotient as the library's [div64_64], by a shorter path. *)
Lemma cdiv64_64_eq n d : in_u64 n -> in_u64 d -> cdiv64_64 n d = div64_64 n d.
Proof.
  intros Hn Hd. unfold cdiv64_64, div64_64.
  assert (Hh : in_u32 (d / 4294967296)) by (Z.div_mod_to_equations; lia).
  rewrite !(Z.shiftr_div_pow2 d 32) by lia. change (2 ^ 32) with 4294967296.
  rewrite (u32_id (d / _)) by done.
  assert (Hb : (0xffffffff <? d) = nz (d / 4294967296)).
  { unfold nz. destruct (Z.ltb_spec 0xffffffff d), (Z.eqb_spec (d / 4294967296) 0); try done;
      Z.div_mod_to_equations; lia. }
  rewrite Hb. case_cond; apply short_div; try apply u32_range; [|done].
  rewrite fls_log2 by apply s32_range. case_cond; [rewrite Z.shiftr_0_r; done|].
  pose proof (Z.log2_nonneg (u32 (s32 (d / 4294967296)))) as Hl.
  destruct (shr_range n (Z.log2 (u32 (s32 (d / 4294967296))) + 1) 18446744073709551616 Hn); lia.
Qed.

(** The value of one step, away from wrap-around. *)
Lemma qroot_step_ok a x :
  in_u64 a -> 1 <= x <= 327680 -> a < 16 * (x * x * x * x) ->
  returns (qroot_step a x) (fun x' => exists q, x' = (3 * x + q) / 4
    /\ q * (x * x * x) <= a + 2 * (x * x * x) /\ a < (q + 1) * (x * x * x)).
Proof.
  intros Ha Hx Hax. unfold qroot_step.
  assert (Hx2 : 1 <= x * x <= 327680 * 327680) by (split; [|apply Z.mul_le_mono_nonneg]; lia).
  assert (Hx3 : 1 <= x * x * x <= 327680 * 327680 * 327680)
    by (split; [|apply Z.mul_le_mono_nonneg]; lia).
  rewrite (u64_id (x * x)), (u64_id (x * x * x)) by lia.
  rewrite cdiv64_64_eq by lia.
  eapply returns_bind; [apply div64_64_bounds; lia|].
  intros q [_ Hq]. cbn [returns]. exists q.
  set (c := x * x * x) in *. clearbody c.
  assert (Hd : c * (a / c) <= a < c * (a / c + 1)).
  { split; [apply Z.mul_div_le; lia|]. pose proof (Z.mul_succ_div_gt a c). lia. }
  assert (Hd0 : 0 <= a / c < 16 * x).
  { split; [apply Z.div_pos; lia|]. apply Z.div_lt_upper_bound; lia. }
  set (e := a / c) in *. clearbody e.
  split; [|split; [nia|nia]].
  rewrite (u32_id q), !u32_id by (rewrite ?u32_id; lia). done.
Qed.

(** AM-GM: the step never falls below the root. *)
Lemma qroot_step_lower a r x q :
  0 <= r -> 1 <= x -> r * r * r * r <= a -> a < (q + 1) * (x * x * x) -> r <= (3 * x + q) / 4.
Proof.
  intros Hr Hx Hra Hq. apply Z.div_le_lower_bound; [lia|].
  assert (Hag : (4 * r - 3 * x) * (x * x * x) <= r * r * r * r).
  { assert (0 <= (r - x) * (r - x) * (r * r + 2 * r * x + 3 * (x * x))); [|lia].
    apply Z.mul_nonneg_nonneg; [apply Z.square_nonneg|]. nia. }
  assert (0 < x * x * x) by nia. nia.
Qed.

(** Above the root the step falls, by at least two once it is three above. *)
Lemma qroot_step_upper a r x q :
  8 <= r -> r <= x -> a < (r + 1) * (r + 1) * (r + 1) * (r + 1) ->
  q * (x * x * x) <= a + 2 * (x * x * x) ->
  (3 * x + q) / 4 <= (if x =? r then r + 1 else if x <=? r + 2 then x else x - 2).
Proof.
  intros Hr Hx Ha Hq.
  assert (Hc : 0 < x * x * x) by nia.
  destruct (Z.eqb_spec x r) as [->|Hne].
  - assert (q < r + 8); [|Z.div_mod_to_equations; lia].
    assert ((r + 1) * (r + 1) * (r + 1) * (r + 1) <= (r + 6) * (r * r * r)) by nia. nia.
  - assert (Hmono : r + 3 <= x -> a < (x - 6) * (x * x * x)).
    { intros Hk. assert ((r + 1) * (r + 1) * (r + 1) * (r + 1) <= (r + 3 - 6) * ((r + 3) * (r + 3) * (r + 3))) by nia.
      assert ((r + 3) * (r + 3) * (r + 3) <= x * x * x)
        by (repeat apply Z.mul_le_mono_nonneg; nia).
      assert ((r + 3 - 6) * ((r + 3) * (r + 3) * (r + 3)) <= (x - 6) * (x * x * x))
        by (apply Z.mul_le_mono_nonneg; nia). lia. }
    case_cond.
    + assert (q < x + 4); [|Z.div_mod_to_equations; lia].
      assert ((r + 1) * (r + 1) * (r + 1) * (r + 1) <= x * x * x * x)
        by (repeat apply Z.mul_le_mono_nonneg; nia).
      apply (Z.mul_lt_mono_pos_r (x * x * x)); [done|]. lia.
    + specialize (Hmono ltac:(lia)).
      assert (q < x - 4); [|Z.div_mod_to_equations; lia].
      apply (Z.mul_lt_mono_pos_r (x * x * x)); [done|]. lia.
Qed.

Lemma qroot_cond_eq x1 x : 0 <= x1 <= 327680 -> 0 <= x <= 327680 ->
  qroot_cond (x1, x) = (1 <? Z.abs (x1 - x)).
Proof.
  intros H1 H2. unfold qroot_cond. cbn [fst snd]. do 2 f_equal. c_lia.
Qed.

(** One turn of the loop from an iterate that is not below the root. *)
Lemma qroot_loop_step a r xs :
  in_u64 a -> 8 <= r <= 65535 -> r * r * r * r <= a ->
  a < (r + 1) * (r + 1) * (r + 1) * (r + 1) ->
  qroot_near r xs -> qroot_cond xs = true ->
  returns (qroot_body a xs) (fun xs' => qroot_near r xs'
    /\ 0 <= qroot_measure xs' < qroot_measure xs).
Proof.
  intros Ha Hr Hlo Hhi (Hx & Hx1 & _) Hc. destruct xs as [x1 x]. cbn [fst snd] in *.
  unfold qroot_body. cbn [snd].
  assert (Hax : a < 16 * (x * x * x * x)).
  { assert ((r + 1) * (r + 1) * ((r + 1) * (r + 1)) <= (2 * x) * (2 * x) * ((2 * x) * (2 * x)));
      [|lia]. apply Z.mul_le_mono_nonneg; nia. }
  eapply returns_bind; [apply qroot_step_ok; lia|].
  intros x' (q & -> & Hq1 & Hq2). unfold returns.
  pose proof (qroot_step_lower a r x q ltac:(lia) ltac:(lia) Hlo Hq2) as Hl.
  pose proof (qroot_step_upper a r x q ltac:(lia) ltac:(lia) Hhi Hq1) as Hu.
  set (x' := (3 * x + q) / 4) in *. clearbody x'. clear Hq1 Hq2 Hax Hlo Hhi q.
  assert (Hxx : x' <= 327680) by (repeat case_cond_in Hu; lia).
  unfold qroot_near, qroot_measure. rewrite Hc, qroot_cond_eq by lia. cbn [fst snd].
  destruct (Z.ltb_spec 1 (Z.abs (x - x'))); repeat case_cond_in Hu; lia.
Qed.

Lemma qroot_enum a : 0 <= a < 4096 -> qroot_small_ok a = true.
Proof.
  assert (H : forallb qroot_small_ok (seqZ 0 4096) = true) by (by vm_compute).
  rewrite forallb_forall in H. intros Ha. apply H, list_elem_of_In, elem_of_seqZ. lia.
Qed.

(** The fourth root rounded down. *)
Lemma sqrt_sqrt a : 0 <= a -> let r := Z.sqrt (Z.sqrt a) in
  0 <= r /\ r * r * r * r <= a < (r + 1) * (r + 1) * (r + 1) * (r + 1).
Proof.
  intros Ha r. assert (0 <= Z.sqrt a) by apply Z.sqrt_nonneg.
  pose proof (Z.sqrt_spec a Ha). pose proof (Z.sqrt_spec (Z.sqrt a) ltac:(done)).
  fold r in H1. assert (0 <= r) by apply Z.sqrt_nonneg. set (s := Z.sqrt a) in *. clearbody r s.
  split; [done|]. unfold Z.succ in *. split.
  - assert ((r * r) * (r * r) <= s * s) by (apply Z.mul_le_mono_nonneg; nia). lia.
  - assert ((s + 1) * (s + 1) <= ((r + 1) * (r + 1)) * ((r + 1) * (r + 1)))
      by (apply Z.mul_le_mono_nonneg; nia). lia.
Qed.

(** The first guess is a power of two within a factor of two of the root. *)
Lemma qroot_guess a :
  in_u64 a -> 0 < a ->
  1 <= u32 (1 ≪ (fls64 a ≫ 2)) <= 65536
  /\ a < 16 * (let x := u32 (1 ≪ (fls64 a ≫ 2)) in x * x * x * x).
Proof.
  intros Ha H0. destruct (fls64_bounds a Ha ltac:(lia)) as [_ Hhi].
  rewrite fls64_log2 in * by done. destruct (Z.eqb_spec a 0) as [|_]; [lia|].
  pose proof (Z.log2_nonneg a). assert (Z.log2 a < 64) by (apply Z.log2_lt_pow2; lia).
  set (n := Z.log2 a + 1) in *. rewrite Z.shiftr_div_pow2 by lia. change (2 ^ 2) with 4.
  assert (Hk : 0 <= n / 4 <= 16 /\ n < 4 * (n / 4) + 4) by (Z.div_mod_to_equations; lia).
  set (k := n / 4) in *. clearbody k. destruct Hk as [Hk Hn].
  rewrite Z.shiftl_mul_pow2, Z.mul_1_l by lia.
  assert (Hp : 1 <= 2 ^ k <= 65536).
  { split; [apply (Z.pow_le_mono_r 2 0 k)|apply (Z.pow_le_mono_r 2 k 16)]; lia. }
  rewrite u32_id by lia. split; [done|]. cbv zeta.
  assert (2 ^ n <= 2 ^ (4 * k + 4)) by (apply Z.pow_le_mono_r; lia).
  rewrite Z.pow_add_r, (Z.mul_comm 4 k), Z.pow_mul_r in * by lia. change (2 ^ 4) with 16 in *. lia.
Qed.

Lemma qroot_returns a :
  in_u64 a -> returns (qroot a) (fun x =>
    Z.sqrt (Z.sqrt a) <= x <= Z.sqrt (Z.sqrt a) + 2).
Proof.
  intros Ha. destruct (Z.lt_ge_cases a 4096) as [Hs|Hb].
  - assert (H := qroot_enum a ltac:(lia)). unfold qroot_small_ok in H.
    destruct (qroot a); [|done]. cbn [returns]. lia.
  - destruct (sqrt_sqrt a ltac:(lia)) as [Hr [Hlo Hhi]]. set (r := Z.sqrt (Z.sqrt a)) in *.
    clearbody r. assert (Hr8 : 8 <= r <= 65535).
    { split; apply Z.nlt_ge; intros Hlt.
      - assert ((r + 1) * (r + 1) * ((r + 1) * (r + 1)) <= 64 * 64); [|lia].
        apply Z.mul_le_mono_nonneg; nia.
      - assert (4294967296 * 4294967296 <= r * r * (r * r)); [|lia].
        apply Z.mul_le_mono_nonneg; nia. }
    unfold qroot. destruct (qroot_guess a Ha ltac:(lia)) as [Hx0 Hax].
    set (x0 := u32 _) in *. cbv zeta in Hax. clearbody x0.
    eapply returns_bind with (P := fun xs => qroot_near r xs /\ qroot_cond xs = false).
    + unfold c_do_while.
      assert (Eb : qroot_body a (0, x0) = x ← qroot_step a x0; Ok (x0, x)) by done.
      rewrite Eb. clear Eb. assert (Hst := qroot_step_ok a x0 Ha ltac:(lia) Hax).
      apply returns_inv in Hst as (x & -> & q & Ex & Hq1 & Hq2). c_ret.
      apply (c_while_rule (qroot_near r) qroot_measure).
      * intros xs Hn Hc. by apply qroot_loop_step.
      * pose proof (qroot_step_lower a r x0 q ltac:(lia) ltac:(lia) Hlo Hq2) as Hl.
        assert (Hq : q < 16 * x0 + 2) by nia.
        assert (Hx5 : x <= 327680) by (subst x; Z.div_mod_to_equations; lia).
        rewrite <- Ex in Hl. split; [cbn; lia|split; [cbn; lia|]]. cbn [fst snd]. intros Hd.
        destruct (Z.lt_ge_cases x0 r); [lia|].
        pose proof (qroot_step_upper a r x0 q ltac:(lia) ltac:(lia) Hhi Hq1) as Hu.
        rewrite <- Ex in Hu. repeat case_cond_in Hu; lia.
      * unfold qroot_measure. cbn [snd].
        assert (x <= 4 * x0 + 65536); [|case_cond; lia].
        assert (q < 16 * x0 + 2) by nia. subst x. Z.div_mod_to_equations; lia.
    + intros [x1 x] [(Hx & Hx1 & Hn) Hc]. cbn [fst snd returns] in *.
      rewrite qroot_cond_eq in Hc by lia. lia.
Qed.

(** ** The module *)

Lemma tcp_compound_init_inv sk v :
  wf_sock sk -> compound_inv v -> compound_inv (tcp_compound_init sk v).
Proof. intros [] []. constructor; cbn; lia. Qed.

Lemma tcp_compound_state_inv sk v st :
  wf_sock sk -> compound_inv v -> compound_inv (tcp_compound_state sk v st).
Proof.
  intros [] []. unfold tcp_compound_state. case_decide; constructor; cbn; lia.
Qed.

Lemma tcp_compound_rtt_calc_inv v r : compound_inv v -> compound_inv (tcp_compound_rtt_calc v r).
Proof.
  intros []. unfold tcp_compound_rtt_calc. pose proof (u32_range (r + 1)).
  case_cond; constructor; cbn -[Z.min]; try done; try apply u32_range; lia.
Qed.

Lemma compound_sync_inv tp v : wf_sock tp -> compound_inv v -> compound_inv (compound_sync tp v).
Proof.
  intros [] []. unfold compound_sync. repeat case_cond; constructor; cbn; try done; try lia.
  apply u32_range.
Qed.

Lemma compound_loss_part_spec tp v :
  wf_sock tp -> compound_inv v ->
  exists c k, compound_loss_part tp v = (tp <| snd_cwnd_cnt := c |>, v <| cwnd := k |>)
    /\ in_u32 c /\ in_u32 k
    /\ (k = cwnd v \/ k = cwnd v ⊕ 1 /\ snd_cwnd tp < snd_cwnd_clamp tp).
Proof.
  intros Hwf Hv. unfold compound_loss_part.
  set (s1 := if cwnd v <=? snd_ssthresh tp then (1, tp) else _).
  assert (E1 : exists i c, s1 = (i, tp <| snd_cwnd_cnt := c |>) /\ in_u32 c).
  { subst s1. destruct Hwf. repeat case_cond.
    - exists 1, (snd_cwnd_cnt tp). split; [by destruct tp|done].
    - exists 0, (snd_cwnd_cnt tp ⊕ 1). split; [done|apply u32_range].
    - exists 0, (snd_cwnd_cnt tp). split; [by destruct tp|done]. }
  clearbody s1. destruct E1 as (i & c & -> & Hc).
  set (s2 := if _ <=? _ then _ else _).
  assert (E2 : exists i c, s2 = (i, tp <| snd_cwnd_cnt := c |>) /\ in_u32 c).
  { subst s2. case_cond; [by exists 1, 0|by exists i, c]. }
  clearbody s2. clear c Hc. destruct E2 as (i2 & c & -> & Hc). cbn [snd_cwnd snd_cwnd_clamp set_field].
  destruct (nz i2 && (snd_cwnd tp <? snd_cwnd_clamp tp)) eqn:Hb.
  - exists c, (cwnd v ⊕ 1). split; [done|]. split; [done|]. split; [apply u32_range|].
    right. apply andb_prop in Hb as [_ Hb]. apply Z.ltb_lt in Hb. done.
  - exists c, (cwnd v). split; [by destruct v|]. destruct Hv. auto.
Qed.

Lemma compound_delay_part_returns old_wnd d diff :
  returns (compound_delay_part old_wnd d diff) (fun z => in_u32 z).
Proof.
  unfold compound_delay_part. case_cond.
  - eapply returns_bind; [apply qroot_returns, u64_range|]. intros r _. apply u32_range.
  - case_cond; [cbn; lia|]. cbn [returns].
    destruct (shr_range _ V_PARAM_SHIFT 4294967296
      (u32_range (u32 (d ≪ V_PARAM_SHIFT) - diff ⊗ TCP_COMPOUND_BETA))); [done|].
    unfold V_PARAM_SHIFT in *; lia.
Qed.

(** The delay-based part without wrap-around. *)
Lemma compound_delay_part_ok w d diff :
  0 <= w < 2097152 -> 0 <= d < 1073741824 -> 0 <= diff < 4294967296 ->
  exists r, Z.sqrt (Z.sqrt (w * w * w)) <= r <= Z.sqrt (Z.sqrt (w * w * w)) + 2
    /\ compound_delay_part w d diff =
       Ok (if diff <? 60 then d + Z.max (r / 8 - 1) 0 else Z.max 0 ((2 * d - diff) / 2)).
Proof.
  intros Hw Hd Hdiff.
  assert (Hw2 : 0 <= w * w <= 2097151 * 2097151) by (split; [|apply Z.mul_le_mono_nonneg]; lia).
  assert (Hw3 : 0 <= w * w * w <= 2097151 * 2097151 * 2097151)
    by (split; [|apply Z.mul_le_mono_nonneg]; lia).
  pose proof (qroot_returns (w * w * w) ltac:(lia)) as Hq. apply returns_inv in Hq as (r & Eq & Hr).
  exists r. split; [done|]. unfold compound_delay_part.
  rewrite (u64_id (w * w)), (u64_id (w * w * w)), Eq by lia. c_ret.
  unfold TCP_COMPOUND_GAMMA, TCP_COMPOUND_BETA, TCP_COMPOUND_ALPHA, V_PARAM_SHIFT.
  change (30 ≪ 1) with 60. rewrite Z.shiftl_mul_pow2, !Z.shiftr_div_pow2, Z.mul_1_r by lia.
  change (2 ^ 1) with 2. change (2 ^ 3) with 8. rewrite !(u32_id (d * 2)), (u32_id diff) by lia.
  destruct (sqrt_sqrt (w * w * w) ltac:(lia)) as [Hs [Hlo _]].
  set (q := Z.sqrt (Z.sqrt (w * w * w))) in *.
  assert (Hq : q < 4294967296).
  { apply Z.nle_gt. intros Hge.
    assert (4294967296 * 4294967296 <= q * q * (q * q)); [|lia]. apply Z.mul_le_mono_nonneg; nia. }
  clearbody q. clear Hlo Hw2 Hw3.
  case_cond.
  - f_equal. assert (0 <= r / 8 <= 536870912) by (Z.div_mod_to_equations; lia).
    case_cond; rewrite ?(u32_id (_ - 1)), u32_id by lia; lia.
  - case_cond; f_equal.
    + Z.div_mod_to_equations; lia.
    + rewrite u32_id by lia. Z.div_mod_to_equations; lia.
Qed.

Lemma tcp_compound_cong_avoid_returns sk v ack rtt in_flight flag :
  wf_sock sk -> compound_inv v ->
  returns (tcp_compound_cong_avoid sk v ack rtt in_flight flag) (fun '(sk', v') =>
    compound_inv v' /\ (exists c w, sk' = sk <| snd_cwnd_cnt := c |> <| snd_cwnd := w |>
      /\ in_u32 c /\ in_u32 w)
    /\ (snd_cwnd sk' = snd_cwnd sk \/ snd_cwnd sk' = cwnd v' ⊕ dwnd v')
    /\ (after ack (beg_snd_nxt v) = false -> snd_cwnd sk <= in_flight ->
        snd_cwnd sk' = cwnd v' ⊕ dwnd v'
        /\ dwnd v' = dwnd (compound_sync sk v))).
Proof.
  intros Hwf Hv. unfold tcp_compound_cong_avoid, tcp_is_cwnd_limited.
  pose proof (compound_sync_inv sk v Hwf Hv) as Hv1.
  assert (En : beg_snd_nxt (compound_sync sk v) = beg_snd_nxt v)
    by (unfold compound_sync; by repeat case_cond).
  set (v1 := compound_sync sk v) in *. clearbody v1.
  destruct (Z.leb_spec (snd_cwnd sk) in_flight) as [Hfl|Hfl]; cbn [negb].
  2:{ split; [done|]. destruct Hwf. split; [exists (snd_cwnd_cnt sk), (snd_cwnd sk)|]; [|lia].
      split; [by destruct sk|lia]. }
  destruct (compound_loss_part_spec sk v1 Hwf Hv1) as (c & k & -> & Hc & Hk & _).
  assert (Hv2 : compound_inv (v1 <| cwnd := k |>)) by (destruct Hv1; constructor; done).
  change (beg_snd_nxt (v1 <| cwnd := k |>)) with (beg_snd_nxt v1). rewrite En.
  change (mss_cache (sk <| snd_cwnd_cnt := c |>)) with (mss_cache sk).
  case_top Hack.
  2:{ cbn [returns]. split; [done|]. split; [|split; [auto|congruence || auto]].
      exists c, (k ⊕ dwnd v1). split; [done|split; [done|apply u32_range]]. }
  case_top Hmss.
  { cbn [returns]. split; [done|]. split; [|split; [auto|congruence || auto]]. destruct Hwf.
    exists c, (snd_cwnd sk). split; [by destruct sk|lia]. }
  apply negb_false_iff, nz_true in Hmss. rewrite udiv_ok by done. c_ret.
  set (v3 := v1 <| cwnd := k |> <| beg_snd_una := _ |> <| beg_snd_nxt := _ |> <| beg_snd_cwnd := _ |>).
  assert (Hv3 : compound_inv v3).
  { destruct Hv2, Hwf. constructor; cbn -[Z.lt Z.le] in *; lia. }
  clearbody v3. case_top Hmin.
  { cbn [returns]. split; [done|]. split; [|split; [auto|congruence || auto]]. destruct Hwf.
    exists c, (snd_cwnd sk). split; [by destruct sk|lia]. }
  eapply returns_bind with (P := compound_inv).
  - case_top Hcnt; [|done]. cbn [andb] in Hmin. apply negb_false_iff, nz_true in Hmin.
    unfold compound_diff. rewrite udiv_ok by done. c_ret.
    eapply returns_bind; [apply compound_delay_part_returns|].
    intros d Hd. destruct Hv3. constructor; done.
  - intros v4 Hv4. cbn [returns]. split; [destruct Hv4; constructor; cbn; done|].
    split; [|split; [auto|congruence || auto]]. exists c, (cwnd v4 ⊕ dwnd v4). split; [done|split; [done|apply u32_range]].
Qed.

(** * Properties *)

(** The Newton iteration for the fourth root terminates for every 64-bit
    argument, divides by nothing that is zero, and returns the root rounded
    down or at most two more. *)
Theorem qroot_accurate a :
  in_u64 a -> exists x, qroot a = Ok x
    /\ Z.sqrt (Z.sqrt a) <= x <= Z.sqrt (Z.sqrt a) + 2.
Proof. intros Ha. apply returns_inv. by apply qroot_returns. Qed.

Lemma qroot_accurate_witness :
  exists x, qroot 1000000000000000000 = Ok x /\ 31622 <= x <= 31624.
Proof. apply (qroot_accurate 1000000000000000000). lia. Defined.

(** When an acknowledgement ends a round trip with at least three RTT
    samples, the window is set to the sum of its two parts.  The delay-based
    part gains an eighth of the fourth root of the cube of the old window while
    fewer than 30 segments are queued, and otherwise loses the segments queued;
    the clamp is not consulted. *)
Theorem compound_rtt_update sk v ack rtt in_flight flag :
  wf_sock sk -> compound_inv v -> snd_cwnd sk <= in_flight ->
  beg_snd_nxt v < ack -> mss_cache sk <> 0 -> 2 < cntRTT v ->
  0 < baseRTT v <= minRTT v -> beg_snd_una v <= beg_snd_nxt v ->
  compound_old_wnd sk v < 2097152 ->
  2 * (compound_old_wnd sk v * baseRTT v) < 4294967296 ->
  dwnd (compound_sync sk v) < 1073741824 ->
  let w := compound_old_wnd sk v in
  let d0 := dwnd (compound_sync sk v) in
  let diff := 2 * w - 2 * (w * baseRTT v) / minRTT v in
  let '(tp, v1) := compound_loss_part sk (compound_sync sk v) in
  exists r v', Z.sqrt (Z.sqrt (w * w * w)) <= r <= Z.sqrt (Z.sqrt (w * w * w)) + 2
    /\ tcp_compound_cong_avoid sk v ack rtt in_flight flag =
         Ok (tp <| snd_cwnd := cwnd v' ⊕ dwnd v' |>, v')
    /\ cwnd v' = cwnd v1 /\ cntRTT v' = 0
    /\ dwnd v' = if diff <? 60 then d0 + Z.max (r / 8 - 1) 0
                 else Z.max 0 ((2 * d0 - diff) / 2).
Proof.
  intros Hwf Hv Hfl Hack Hmss Hcnt Hrtt Hun Hw Hwb Hd. unfold tcp_compound_cong_avoid.
  unfold tcp_is_cwnd_limited. rewrite (proj2 (Z.leb_le _ _) Hfl). cbn [negb].
  pose proof (compound_sync_inv sk v Hwf Hv) as Hv1.
  assert (En : exists a b, compound_sync sk v = v <| cwnd := a |> <| dwnd := b |>).
  { unfold compound_sync. repeat case_cond;
      match goal with |- exists _ _, ?t = _ => exists (cwnd t), (dwnd t) end; by destruct v. }
  destruct En as (a & b & En).
  destruct (compound_loss_part_spec sk _ Hwf Hv1) as (c & k & E & _). rewrite E.
  rewrite En in *. clear En E.
  change (dwnd (v <| cwnd := a |> <| dwnd := b |>)) with b in Hd |- *.
  change (beg_snd_nxt (v <| cwnd := a |> <| dwnd := b |> <| cwnd := k |>)) with (beg_snd_nxt v).
  change (beg_snd_una (v <| cwnd := a |> <| dwnd := b |> <| cwnd := k |>)) with (beg_snd_una v).
  change (mss_cache (sk <| snd_cwnd_cnt := c |>)) with (mss_cache sk).
  unfold after. rewrite (proj2 (Z.ltb_lt _ _) Hack), (proj2 (nz_true _) Hmss). cbn [negb].
  rewrite (u32_sub_id (beg_snd_nxt v)) by (destruct Hv; lia).
  rewrite udiv_ok by done. c_ret.
  fold (compound_old_wnd sk v). set (w := compound_old_wnd sk v) in *.
  set (v3 := v <| cwnd := a |> <| dwnd := b |> <| cwnd := k |> <| beg_snd_una := _ |>
               <| beg_snd_nxt := _ |> <| beg_snd_cwnd := _ |>).
  change (cntRTT v3) with (cntRTT v). change (minRTT v3) with (minRTT v).
  change (dwnd v3) with b.
  rewrite (proj2 (Z.ltb_lt _ _) Hcnt), (proj2 (nz_true (minRTT v))) by lia.
  cbn [negb andb].
  assert (Hw0 : 0 <= w) by (destruct Hv, Hwf; apply Z.div_pos; lia).
  assert (Hdiff : compound_diff w v3 = Ok (2 * w - 2 * (w * baseRTT v) / minRTT v)
    /\ 0 <= 2 * w - 2 * (w * baseRTT v) / minRTT v <= 2 * w).
  { assert (Hq : 0 <= 2 * (w * baseRTT v) / minRTT v <= 2 * w).
    { split; [apply Z.div_pos; nia|]. apply Z.div_le_upper_bound; nia. }
    split; [|lia]. unfold compound_diff, V_PARAM_SHIFT.
    change (baseRTT v3) with (baseRTT v). change (minRTT v3) with (minRTT v).
    rewrite (u32_id (w * baseRTT v)), !Z.shiftl_mul_pow2 by nia. change (2 ^ 1) with 2.
    rewrite (Z.mul_comm (w * baseRTT v)), (Z.mul_comm w 2).
    rewrite (u32_id (2 * (w * _))), (u32_id (2 * w)), udiv_ok by nia. c_ret.
    rewrite u32_id by lia. done. }
  destruct Hdiff as [-> Hdiff]. c_ret.
  destruct (compound_delay_part_ok w b (2 * w - 2 * (w * baseRTT v) / minRTT v)) as (r & Hr & ->);
    [lia|destruct Hv1; cbn in *; lia|lia|].
  c_ret. eexists r, _. split; [done|]. split; [reflexivity|]. done.
Qed.

Lemma compound_ex_inv : compound_inv compound_ex.
Proof. constructor; cbn; lia. Qed.

(** A queue of 90 segments empties a quarter of the delay-based part. *)
Lemma compound_rtt_update_witness :
  let sk := sk_ex <| snd_cwnd := 999 |> in
  exists r v', 177 <= r <= 179
    /\ tcp_compound_cong_avoid sk compound_ex 1100001 0 2000 0 =
         Ok ((fst (compound_loss_part sk compound_ex)) <| snd_cwnd := cwnd v' ⊕ dwnd v' |>, v')
    /\ dwnd v' = 308.
Proof.
  destruct (compound_rtt_update (sk_ex <| snd_cwnd := 999 |>) compound_ex 1100001 0 2000 0)
    as (r & v' & Hr & E & _ & _ & Hd).
  - constructor; cbn; lia.
  - exact compound_ex_inv.
  - cbn; lia.
  - reflexivity.
  - cbn; lia.
  - reflexivity.
  - cbn; lia.
  - cbn; lia.
  - reflexivity.
  - reflexivity.
  - reflexivity.
  - exists r, v'. split; [exact Hr|split; [exact E|]]. exact Hd.
Defined.

(** Asked for its state over netlink the module dereferences [NULL]. *)
Theorem compound_get_info_traps v ext :
  tcp_compound_get_info v ext = if Z.testbit ext 0 then Trap NullDeref else Ok tt.
Proof.
  unfold tcp_compound_get_info. change (1 ≪ (INET_DIAG_VEGASINFO - 1)) with (Z.ones 1).
  rewrite Z.land_ones by lia. change (2 ^ 1) with 2.
  rewrite Zmod_odd, Z.bit0_odd. by destruct (Z.odd ext).
Qed.
