(* ===== verification/Driver.v ===== *)
(** The TCP-Linux agent (tcp-linux.cc): how acknowledgements, losses and
    timeouts drive a congestion module, for any module that meets the contract
    of the class [CongModule]. *)
From S2P Require Import Sock LinuxC Reno.

(** * Definitions *)

(** ** Calling a module: optional callbacks are tested for NULL *)

Section Calls.
Context {P : Type} (ops : tcp_congestion_ops P).

Definition call_init (E : env) (sk : tcp_sock) (ca : P) : outcome (tcp_sock * P) :=
  match ops_init ops with Some f => f E sk ca | None => Ok (sk, ca) end.
Definition call_pkts_acked (E : env) (sk : tcp_sock) (ca : P) (n last : Z)
  : outcome (tcp_sock * P) :=
  match ops_pkts_acked ops with Some f => f E sk ca n last | None => Ok (sk, ca) end.
Definition call_rtt_sample (E : env) (sk : tcp_sock) (ca : P) (usrtt : Z) : outcome P :=
  match ops_rtt_sample ops with Some f => f E sk ca usrtt | None => Ok ca end.
Definition tcp_ca_event (E : env) (sk : tcp_sock) (ca : P) (ev : tcp_ca_event)
  : outcome (tcp_sock * P) :=
  match ops_cwnd_event ops with Some f => f E sk ca ev | None => Ok (sk, ca) end.
Definition tcp_set_ca_state (E : env) (sk : tcp_sock) (ca : P) (st : tcp_ca_state)
  : outcome (tcp_sock * P) :=
  ca ← (match ops_set_state ops with Some f => f E sk ca st | None => Ok ca end);
  Ok (sk <| icsk_ca_state := st |>, ca).
End Calls.

(** ** The agent *)

Definition FLAG_ECE : Z := 1.
Definition FLAG_DATA_SACKED : Z := 2.
Definition FLAG_DATA_ACKED : Z := 4.
Definition FLAG_DATA_LOST : Z := 8.
Definition FLAG_CA_ALERT : Z := Z.lor FLAG_DATA_SACKED FLAG_ECE.
Definition FLAG_NOT_DUP : Z := FLAG_DATA_ACKED.
Definition FLAG_UNSURE_TSTAMP : Z := 16.
Definition has (flag bits : Z) : bool := nz (Z.land flag bits).

(** Settings of TcpAgent that the timeout reads, fixed while the agent runs. *)
Record tcp_settings := mk_settings {
  slow_start_restart_ : bool;
  restart_bugfix_ : bool;
  wnd_init_ : Z;              (* a double, its int *)
  wnd_ : Z;                   (* a double, its int *)
}.

Record agent (P : Type) := mk_agent {
  linux_ : tcp_sock;
  ca_ : P;                    (* linux_.icsk_ca_priv *)
  initialized_ : bool;
  next_pkts_in_flight_ : Z;   (* int *)
  highest_ack_ : Z;           (* int, packets *)
  t_seqno_ : Z;               (* int *)
  maxseq_ : Z;                (* int *)
  recover_ : Z;               (* int *)
  t_srtt_ : Z;                (* int, << 3 *)
  t_rttvar_ : Z;              (* int, << 2 *)
  settings_ : tcp_settings;
}.
Arguments mk_agent {P}. Arguments settings_ {P}. Arguments linux_ {P}. Arguments ca_ {P}. Arguments initialized_ {P}.
Arguments next_pkts_in_flight_ {P}. Arguments highest_ack_ {P}. Arguments t_seqno_ {P}.
Arguments maxseq_ {P}. Arguments recover_ {P}. Arguments t_srtt_ {P}. Arguments t_rttvar_ {P}.
#[global] Instance eta_agent P : Eta (agent P) := fun r =>
  mk_agent (linux_ r) (ca_ r) (initialized_ r) (next_pkts_in_flight_ r) (highest_ack_ r)
    (t_seqno_ r) (maxseq_ r) (recover_ r) (t_srtt_ r) (t_rttvar_ r) (settings_ r).

(** What an acknowledgement brings: the clock, the sequence number, the echoed
    congestion mark, what the scoreboard reports, the packets in flight before
    and after it is processed, and the measured times. *)
Record ack_in := mk_ack_in {
  k_env : env;
  k_seqno : Z;
  k_ece : bool;               (* ecnecho() && ecn_ *)
  k_sb : Z;                   (* the flags of UpdateScoreBoard *)
  k_prior_in_flight : Z;      (* int *)
  k_in_flight : Z;            (* int *)
  k_rx : option (Z * Z);      (* the echoed and the peer's time stamps *)
  k_t_rtt : option Z;         (* the sample [t_rtt_], in ticks *)
  k_usrtt : Z;                (* the sample in microseconds *)
  k_seq_rtt : Z;
  k_last : Z;                 (* when the segment was sent, ns; 0 unknown *)
}.

(** ** rtt_update: the integer part, with the default [T_SRTT_BITS = 3] and
    [T_RTTVAR_BITS = 2] *)

Definition s16 (z : Z) : Z := (z + 32768) mod 65536 - 32768.

Definition srtt_update (t_rtt t_srtt t_rttvar : Z) : Z * Z :=
  let t_rtt := if t_rtt <? 1 then 1 else t_rtt in
  if negb (t_srtt =? 0) then
    let delta := s16 (t_rtt - t_srtt ≫ 3) in
    let t_srtt := if t_srtt + delta <=? 0 then 1 else t_srtt + delta in
    let delta :=
      if delta <? 0 then
        let delta := s16 (s16 (- delta) - t_rttvar ≫ 2) in
        if 0 <? delta then delta ≫ 3 else delta
      else s16 (delta - t_rttvar ≫ 2) in
    (t_srtt, t_rttvar + delta)
  else (s32 (t_rtt ≪ 3), s32 (t_rtt ≪ 1)).

Section Driver.
Context {P : Type} (ops : tcp_congestion_ops P) (tcp_max_burst : Z).
Local Abbreviation agent := (agent P).

(** The sample callback, then the estimators. *)
Definition rtt_update (E : env) (t_rtt usrtt : Z) (a : agent) : outcome agent :=
  ca ← call_rtt_sample ops E (linux_ a) (ca_ a) usrtt;
  let '(s, v) := srtt_update t_rtt (t_srtt_ a) (t_rttvar_ a) in
  Ok (a <| ca_ := ca |> <| t_srtt_ := s |> <| t_rttvar_ := v |>
        <| linux_ := (linux_ a) <| srtt := u32 s |> |>).

(** ack_processing, for an acknowledgement of new data *)
Definition ack_processing (seqno flag : Z) (a : agent) : agent * Z :=
  if has flag FLAG_DATA_ACKED then
    let a := a <| highest_ack_ := seqno |> in
    let sk := linux_ a in
    let a := a <| linux_ := sk <| snd_una := u32 (highest_ack_ a + 1) ⊗ mss_cache sk |> |>
               <| maxseq_ := Z.max (maxseq_ a) (highest_ack_ a) |> in
    (if t_seqno_ a <? highest_ack_ a + 1 then
       let a := a <| t_seqno_ := highest_ack_ a + 1 |> in
       let sk := linux_ a in
       a <| linux_ := sk <| snd_nxt := u32 (t_seqno_ a) ⊗ mss_cache sk |> |>
     else a, flag)
  else (a, Z.lor flag FLAG_UNSURE_TSTAMP).

(** time_processing, timers left out *)
Definition time_processing (x : ack_in) (a : agent) : outcome agent :=
  let sk := linux_ a in
  let a := a <| linux_ := sk <| rx_opt :=
    match k_rx x with
    | Some (ecr, val) => mk_rx_opt val ecr true
    | None => mk_rx_opt (rcv_tsval (rx_opt sk)) (rcv_tsecr (rx_opt sk)) false
    end |> |> in
  match k_t_rtt x with
  | Some m => rtt_update (k_env x) m (k_usrtt x) a
  | None => Ok a
  end.

Definition touch_cwnd (E : env) (sk : tcp_sock) : tcp_sock :=
  sk <| snd_cwnd_stamp := tcp_time_stamp E |>.

Definition tcp_moderate_cwnd (E : env) (in_flight : Z) (sk : tcp_sock) : tcp_sock :=
  touch_cwnd E (sk <| snd_cwnd := u32 (Z.min (s32 (snd_cwnd sk)) (s32 (in_flight + tcp_max_burst))) |>).

(** The reduction of the window when a loss or a mark is seen. *)
Definition cut_window (E : env) (a : agent) : outcome agent :=
  let sk := touch_cwnd E (linux_ a) in
  '(th, ca) ← ops_ssthresh ops E sk (ca_ a);
  let sk := sk <| snd_ssthresh := th |> <| snd_cwnd_cnt := 0 |> <| bytes_acked := 0 |> in
  w ← (match ops_min_cwnd ops with Some f => f E sk ca | None => Ok (snd_ssthresh sk) end);
  Ok (a <| recover_ := maxseq_ a |> <| next_pkts_in_flight_ := s32 (snd_cwnd (linux_ a)) |>
        <| linux_ := sk <| snd_cwnd := w |> |> <| ca_ := ca |>).

Definition set_ca_state (E : env) (st : tcp_ca_state) (a : agent) : outcome agent :=
  '(sk, ca) ← tcp_set_ca_state ops E (linux_ a) (ca_ a) st;
  Ok (a <| linux_ := sk |> <| ca_ := ca |>).

Definition tcp_fastretrans_alert (E : env) (flag in_flight : Z) (a : agent) : outcome agent :=
  if negb (bool_decide (icsk_ca_state (linux_ a) = TCP_CA_Open))
     && (recover_ a <=? highest_ack_ a) then
    let sk := linux_ a in
    let sk := if snd_cwnd sk <? snd_ssthresh sk
              then tcp_moderate_cwnd E in_flight (sk <| snd_cwnd := snd_ssthresh sk |>)
              else sk in
    a ← set_ca_state E TCP_CA_Open (a <| linux_ := sk |>);
    Ok (a <| next_pkts_in_flight_ := 0 |>)
  else if bool_decide (icsk_ca_state (linux_ a) = TCP_CA_Recovery) then Ok a
  else if has flag (Z.lor FLAG_DATA_LOST FLAG_ECE) then
    a ← cut_window E a; set_ca_state E TCP_CA_Recovery a
  else Ok a.

Definition tcp_ack_is_dubious (flag : Z) (sk : tcp_sock) : bool :=
  negb (has flag FLAG_NOT_DUP) || has flag FLAG_CA_ALERT
  || negb (bool_decide (icsk_ca_state sk = TCP_CA_Open)).

Definition tcp_may_raise_cwnd (flag : Z) (sk : tcp_sock) : bool :=
  (negb (has flag FLAG_ECE) || (snd_cwnd sk <? snd_ssthresh sk))
  && negb (bool_decide (icsk_ca_state sk = TCP_CA_Recovery)
           || bool_decide (icsk_ca_state sk = TCP_CA_CWR)).

Definition tcp_cong_avoid (x : ack_in) (ack good : Z) (a : agent) : outcome agent :=
  let sk := linux_ a in
  '(sk, ca) ← ops_cong_avoid ops (k_env x) sk (ca_ a) (ack ⊗ mss_cache sk) (u32 (k_seq_rtt x))
    (u32 (k_prior_in_flight x)) good;
  Ok (a <| linux_ := touch_cwnd (k_env x) sk |> <| ca_ := ca |>).

(** The module is initialised at the first acknowledgement, then hears of the
    segments acknowledged and of the kind of acknowledgement. *)
Definition notify_module (x : ack_in) (acked flag : Z) (a : agent) : outcome agent :=
  let E := k_env x in
  '(sk, ca) ← (if initialized_ a then Ok (linux_ a, ca_ a) else call_init ops E (linux_ a) (ca_ a));
  '(sk, ca) ← (if has flag FLAG_NOT_DUP
               then call_pkts_acked ops E sk ca acked
                      (if has flag FLAG_UNSURE_TSTAMP then 0 else k_last x)
               else Ok (sk, ca));
  '(sk, ca) ← tcp_ca_event ops E sk ca
    (if bool_decide (icsk_ca_state sk = TCP_CA_Open) && negb (has flag FLAG_CA_ALERT)
        && has flag FLAG_NOT_DUP then CA_EVENT_FAST_ACK else CA_EVENT_SLOW_ACK);
  Ok (a <| linux_ := sk |> <| ca_ := ca |> <| initialized_ := true |>).

Definition react (x : ack_in) (ack flag : Z) (a : agent) : outcome agent :=
  if tcp_ack_is_dubious flag (linux_ a) then
    a ← (if has flag FLAG_DATA_ACKED && tcp_may_raise_cwnd flag (linux_ a)
         then tcp_cong_avoid x ack 0 a else Ok a);
    tcp_fastretrans_alert (k_env x) flag (k_in_flight x) a
  else if has flag FLAG_DATA_ACKED then tcp_cong_avoid x ack 1 a else Ok a.

Definition recv (x : ack_in) (a : agent) : outcome agent :=
  let prior_snd_una := u32 (highest_ack_ a + 1) in
  let ack := u32 (k_seqno x + 1) in
  if u32 (t_seqno_ a) <? ack then Ok a
  else if ack <? prior_snd_una then Ok a
  else
    let flag := if k_ece x && (1 <? ack) then FLAG_ECE else 0 in
    let sk := linux_ a in
    let '(a, flag) :=
      if prior_snd_una <? ack then
        (a <| linux_ := sk <| bytes_acked :=
           bytes_acked sk ⊕ (ack ⊖ prior_snd_una) ⊗ mss_cache sk |> |>,
         Z.lor flag FLAG_DATA_ACKED)
      else (a, flag) in
    let '(a, flag) := ack_processing (k_seqno x) flag a in
    let flag := Z.lor flag (k_sb x) in
    a ← time_processing x a;
    a ← notify_module x (ack ⊖ prior_snd_una) flag a;
    react x ack flag a.

(** slowdown(CLOSE_CWND_INIT) after save_from_linux: [cwnd_] and [ssthresh_] of
    TcpAgent. *)
Definition slowdown_init (a : agent) : Z * Z :=
  (wnd_init_ (settings_ a), Z.max (s32 (snd_ssthresh (linux_ a))) 2).

Definition load_to_linux (cwnd_ ssthresh_ : Z) (a : agent) : agent :=
  let sk := (linux_ a) <| snd_ssthresh := u32 ssthresh_ |> in
  let a :=
    if (s32 (snd_cwnd sk) <? next_pkts_in_flight_ a) && (s32 (snd_cwnd sk) <=? cwnd_)
    then a <| next_pkts_in_flight_ := cwnd_ |> <| linux_ := sk |>
    else a <| linux_ := sk <| snd_cwnd := u32 cwnd_ |> |> in
  a <| linux_ := (linux_ a) <| snd_cwnd_clamp := u32 (wnd_ (settings_ a)) |> |>.

Definition enter_loss (E : env) (a : agent) : outcome agent :=
  let sk := touch_cwnd E (linux_ a) in
  '(th, ca) ← ops_ssthresh ops E sk (ca_ a);
  '(sk, ca) ← tcp_ca_event ops E (sk <| snd_ssthresh := th |>) ca CA_EVENT_LOSS;
  let sk := sk <| snd_cwnd := 1 |> <| snd_cwnd_cnt := 0 |> <| bytes_acked := 0 |> in
  set_ca_state E TCP_CA_Loss (a <| linux_ := sk |> <| ca_ := ca |> <| recover_ := maxseq_ a |>).

(** No data is outstanding. *)
Definition all_acked (a : agent) : bool := highest_ack_ a =? maxseq_ a.

(** timeout(TCP_TIMER_RTX) up to the sending loop: it does nothing, or starts again
    from the initial window, or takes everything for lost. *)
Definition timeout_rtx (E : env) (a : agent) : outcome agent :=
  if all_acked a && negb (slow_start_restart_ (settings_ a)) then Ok a
  else
    a ← (if all_acked a && restart_bugfix_ (settings_ a)
         then let '(cwnd, ssthresh) := slowdown_init a in Ok (load_to_linux cwnd ssthresh a)
         else enter_loss E a);
    let sk := linux_ a in
    Ok (a <| next_pkts_in_flight_ := 0 |> <| linux_ := sk <| bytes_acked := 0 |> |>).

(** A segment leaves (send_much): the next one has number [n]. *)
Definition sent (n : Z) (a : agent) : agent :=
  let sk := linux_ a in
  a <| t_seqno_ := n |> <| maxseq_ := Z.max (maxseq_ a) (n - 1) |>
    <| linux_ := sk <| snd_nxt := u32 n ⊗ mss_cache sk |> |>.
End Driver.

(** ** The contract of a module *)

(** Windows stay at most [2^24] segments. *)
Definition window_max : Z := 16777216.

(** What the agent guarantees to a module, [R] the largest RTT in ticks. *)
Record drv_sock (R : Z) (sk : tcp_sock) : Prop := mk_drv_sock {
  ds_wf : wf_sock sk;
  ds_cwnd : 1 <= snd_cwnd sk <= window_max;
  ds_clamp : 2 <= snd_cwnd_clamp sk <= window_max;
  ds_ssthresh : 2 <= snd_ssthresh sk <= window_max;
  ds_mss : mss_cache sk <> 0;
  ds_srtt : 8 <= srtt sk <= 8 * R + 7;
}.

(** What a module may do to the socket in a callback. *)
Definition drv_step (R : Z) (sk sk' : tcp_sock) : Prop :=
  drv_sock R sk' /\ srtt sk' = srtt sk /\ rx_opt sk' = rx_opt sk.

(** The clock is in range, and an echoed time stamp is less than [2^24] ms old. *)
Definition ok_env (E : env) (sk : tcp_sock) : Prop :=
  wf_env E /\ tcp_time_stamp E ⊖ rcv_tsecr (rx_opt sk) < 16777216.

(** [last] is unknown or at most 4294 seconds ago. *)
Definition ok_last (E : env) (last : Z) : Prop :=
  last = 0 \/ 0 <= ktime_get_real E - last < 4294967295000.

(** At most this many segments are acknowledged at once. *)
Definition acked_max : Z := 1048576.

(** The contract: [cm_inv k] is the invariant of the private state after at
    most [k] acknowledgements, [cm_raw] what is known of it before it is
    initialised, [cm_blank] what a timeout needs to know of it then: the agent
    calls the module for the threshold, and has not initialised it. *)
Class CongModule {P : Type} (ops : tcp_congestion_ops P) := {
  cm_rtt_max : Z;
  cm_rtt_max_ok : 1 <= cm_rtt_max <= 32767;
  cm_raw : P -> Prop;
  cm_inv : Z -> P -> Prop;
  cm_blank : P -> Prop;
  cm_mono : forall k k' ca, k <= k' -> cm_inv k ca -> cm_inv k' ca;
  cm_init : forall E sk ca, ok_env E sk -> drv_sock cm_rtt_max sk -> cm_raw ca ->
    returns (call_init ops E sk ca) (fun '(sk', ca') =>
      drv_step cm_rtt_max sk sk' /\ cm_inv 0 ca');
  cm_rtt_raw : forall E sk ca r, cm_raw ca -> returns (call_rtt_sample ops E sk ca r) cm_raw;
  cm_rtt : forall E sk k ca r, cm_inv k ca ->
    returns (call_rtt_sample ops E sk ca r) (cm_inv k);
  cm_acked : forall E sk k ca n last, ok_env E sk -> drv_sock cm_rtt_max sk -> cm_inv k ca ->
    0 <= k < 2147483648 -> 0 <= n <= acked_max -> ok_last E last ->
    returns (call_pkts_acked ops E sk ca n last) (fun '(sk', ca') =>
      drv_step cm_rtt_max sk sk' /\ cm_inv (k + 1) ca');
  cm_event : forall E sk k ca ev, ok_env E sk -> drv_sock cm_rtt_max sk -> cm_inv k ca ->
    returns (tcp_ca_event ops E sk ca ev) (fun '(sk', ca') =>
      drv_step cm_rtt_max sk sk' /\ cm_inv k ca');
  cm_cong_avoid : forall E sk k ca ack rtt in_flight flag,
    ok_env E sk -> drv_sock cm_rtt_max sk -> cm_inv k ca ->
    returns (ops_cong_avoid ops E sk ca ack rtt in_flight flag) (fun '(sk', ca') =>
      drv_step cm_rtt_max sk sk' /\ cm_inv k ca');
  cm_ssthresh : forall E sk k ca, wf_env E -> drv_sock cm_rtt_max sk -> cm_inv k ca ->
    returns (ops_ssthresh ops E sk ca) (fun '(th, ca') =>
      2 <= th <= window_max /\ cm_inv k ca');
  cm_min_cwnd : forall E sk k ca, drv_sock cm_rtt_max sk -> cm_inv k ca ->
    returns (match ops_min_cwnd ops with Some f => f E sk ca | None => Ok (snd_ssthresh sk) end)
      (fun w => 1 <= w <= window_max);
  cm_set_state : forall E sk k ca st, wf_env E -> drv_sock cm_rtt_max sk -> cm_inv k ca ->
    returns (tcp_set_ca_state ops E sk ca st) (fun '(sk', ca') =>
      sk' = sk <| icsk_ca_state := st |> /\ cm_inv k ca');
  cm_blank_raw : forall ca, cm_blank ca -> cm_raw ca;
  cm_blank_ssthresh : forall E sk ca, wf_env E -> drv_sock cm_rtt_max (sk <| srtt := 8 |>) -> cm_blank ca ->
    returns (ops_ssthresh ops E sk ca) (fun '(th, ca') => 2 <= th <= window_max /\ cm_blank ca');
  cm_blank_event : forall E sk ca, wf_env E -> drv_sock cm_rtt_max (sk <| srtt := 8 |>) -> cm_blank ca ->
    returns (tcp_ca_event ops E sk ca CA_EVENT_LOSS) (fun '(sk', ca') => sk' = sk /\ cm_blank ca');
  cm_blank_state : forall E sk ca, wf_env E -> drv_sock cm_rtt_max (sk <| srtt := 8 |>) -> cm_blank ca ->
    returns (tcp_set_ca_state ops E sk ca TCP_CA_Loss) (fun '(sk', ca') =>
      sk' = sk <| icsk_ca_state := TCP_CA_Loss |> /\ cm_blank ca');
}.

(** ** Runs of the agent *)

Inductive event : Type :=
  | EvAck (x : ack_in)
  | EvTimeout (E : env)
  | EvSend (n : Z).

Definition drive {P} (ops : tcp_congestion_ops P) (tcp_max_burst : Z) (ev : event)
  (a : agent P) : outcome (agent P) :=
  match ev with
  | EvAck x => recv ops tcp_max_burst x a
  | EvTimeout E => timeout_rtx ops E a
  | EvSend n => Ok (sent n a)
  end.

Section Runs.
Context {P : Type} (ops : tcp_congestion_ops P) `{!CongModule ops} (tcp_max_burst : Z).

(** The initial window and the bound of the window are in range. *)
Definition settings_ok (s : tcp_settings) : Prop :=
  1 <= wnd_init_ s <= window_max /\ 2 <= wnd_ s <= window_max.

(** Sequence numbers are 31-bit, and nothing unsent is acknowledged. *)
Definition seq_ok (a : agent P) : Prop :=
  -1 <= highest_ack_ a /\ highest_ack_ a + 1 <= t_seqno_ a < 2147483648.

(** An agent whose module is initialised. *)
Record good (k : Z) (a : agent P) : Prop := mk_good {
  go_init : initialized_ a = true;
  go_sock : drv_sock cm_rtt_max (linux_ a);
  go_srtt : t_srtt_ a = srtt (linux_ a);
  go_inv : cm_inv k (ca_ a);
  go_seq : seq_ok a;
  go_settings : settings_ok (settings_ a);
}.

(** Before the first acknowledgement: no RTT is known, and the private state
    is whatever was in memory. *)
Record fresh (a : agent P) : Prop := mk_fresh {
  fr_init : initialized_ a = false;
  fr_sock : drv_sock cm_rtt_max ((linux_ a) <| srtt := 8 |>);
  fr_srtt : t_srtt_ a = 0;
  fr_raw : cm_raw (ca_ a);
  fr_seq : seq_ok a;
  fr_settings : settings_ok (settings_ a);
}.

Definition agent_inv (k : Z) (a : agent P) : Prop := fresh a \/ good k a.

(** The module is initialised, or its private state is blank. *)
Definition blank (a : agent P) : Prop := initialized_ a = true \/ cm_blank (ca_ a).

(** What the rest of the simulator guarantees of an event. *)
Definition valid (a : agent P) (ev : event) : Prop :=
  match ev with
  | EvAck x =>
      wf_env (k_env x) /\ -1 <= k_seqno x < 2147483647
      /\ (highest_ack_ a < k_seqno x -> k_seqno x - highest_ack_ a <= acked_max)
      /\ 0 <= k_in_flight x < window_max /\ ok_last (k_env x) (k_last x)
      /\ (match k_rx x with
          | Some (ecr, val) => in_u32 ecr /\ in_u32 val
              /\ tcp_time_stamp (k_env x) ⊖ ecr < 16777216
          | None => tcp_time_stamp (k_env x) ⊖ rcv_tsecr (rx_opt (linux_ a)) < 16777216
          end)
      /\ (match k_t_rtt x with
          | Some m => m <= cm_rtt_max | None => initialized_ a = true end)
  | EvTimeout E => (if initialized_ a then ok_env E (linux_ a) else wf_env E) /\ blank a
  | EvSend n => t_seqno_ a <= n < 2147483648
  end.

(** The agents reached after at most [k] events. *)
Inductive reach : Z -> agent P -> Prop :=
  | reach_start a : fresh a -> reach 0 a
  | reach_step k a ev a' :
      reach k a -> valid a ev -> drive ops tcp_max_burst ev a = Ok a' -> reach (k + 1) a'.
End Runs.

(** * Lemmas *)

Lemma s16_id z : -32768 <= z < 32768 -> s16 z = z.
Proof. intros H. unfold s16. rewrite Z.mod_small; lia. Qed.

(** The smoothed RTT is never below one tick, nor above the largest sample. *)
Lemma srtt_update_range R m s v :
  1 <= R <= 32767 -> m <= R -> s = 0 \/ 8 <= s <= 8 * R + 7 ->
  8 <= fst (srtt_update m s v) <= 8 * R + 7.
Proof.
  intros HR Hm Hs. unfold srtt_update.
  set (m' := if m <? 1 then 1 else m).
  assert (Hm' : 1 <= m' <= R) by (subst m'; case_cond; lia). clearbody m'.
  destruct (Z.eqb_spec s 0) as [->|Hs0]; cbn [negb fst].
  - rewrite Z.shiftl_mul_pow2 by lia. change (2 ^ 3) with 8. rewrite s32_id by lia. lia.
  - destruct Hs as [|Hs]; [lia|]. rewrite (Z.shiftr_div_pow2 s 3) by lia. change (2 ^ 3) with 8.
    assert (Hq : 1 <= s / 8 <= R /\ 7 <= s - s / 8 <= 7 * R + 7)
      by (Z.div_mod_to_equations; lia).
    rewrite s16_id by lia. destruct (Z.leb_spec (s + (m' - s / 8)) 0); lia.
Qed.

Lemma drv_sock_update R sk sk' :
  drv_sock R sk -> wf_sock sk' -> snd_cwnd sk' = snd_cwnd sk ->
  snd_cwnd_clamp sk' = snd_cwnd_clamp sk -> snd_ssthresh sk' = snd_ssthresh sk ->
  mss_cache sk' = mss_cache sk -> srtt sk' = srtt sk -> drv_sock R sk'.
Proof. intros [] Hwf Hw Hc Ht Hm Hs. constructor; rewrite ?Hw, ?Hc, ?Ht, ?Hm, ?Hs; done. Qed.

(** Any update of the congestion fields within the bounds. *)
Lemma drv_sock_cut R sk w th c b st :
  drv_sock R sk -> 1 <= w <= window_max -> 2 <= th <= window_max ->
  in_u32 c -> in_u32 b -> in_u32 st ->
  drv_sock R (sk <| snd_cwnd_stamp := st |> <| snd_ssthresh := th |> <| snd_cwnd_cnt := c |>
                 <| bytes_acked := b |> <| snd_cwnd := w |>).
Proof.
  unfold window_max. intros [[] ? ? ? ? ?] Hw Hth Hc Hb Hst.
  constructor; [constructor|..]; cbn; unfold window_max in *; try done; lia.
Qed.

Section RunLemmas.
Context {P : Type} (ops : tcp_congestion_ops P) `{!CongModule ops} (tcp_max_burst : Z).
Hypothesis burst_ok : 1 <= tcp_max_burst <= 255.
Local Abbreviation R := cm_rtt_max.
Local Abbreviation good := (good ops).

Lemma touch_cwnd_ok E sk : wf_env E -> drv_sock R sk -> drv_sock R (touch_cwnd E sk).
Proof using Type.
  intros HE Hs. eapply drv_sock_update; [exact Hs|..]; try done.
  destruct Hs as [[]]. destruct HE. constructor; done.
Qed.

Lemma good_update k a sk ca :
  good k a -> drv_sock R sk -> srtt sk = srtt (linux_ a) -> cm_inv k ca ->
  good k (a <| linux_ := sk |> <| ca_ := ca |>).
Proof using Type. intros [] Hs Hr Hc. constructor; cbn; try done. by rewrite Hr. Qed.

Lemma set_ca_state_good k E st a :
  wf_env E -> good k a ->
  returns (set_ca_state ops E st a) (fun a' => good k a'
    /\ exists ca, a' = a <| linux_ := (linux_ a) <| icsk_ca_state := st |> |> <| ca_ := ca |>).
Proof using Type.
  intros HE Hg. unfold set_ca_state.
  eapply returns_bind; [apply (cm_set_state E _ k); [done|apply Hg|apply Hg]|].
  intros [sk ca] [-> Hc]. cbn [returns]. split; [|by exists ca].
  apply good_update; try done. eapply drv_sock_update; [apply Hg|..]; try done.
  destruct Hg as [? [[]]]. constructor; done.
Qed.

Lemma cut_window_good k E a :
  wf_env E -> good k a -> returns (cut_window ops E a) (good k).
Proof using Type.
  intros HE Hg. pose proof (touch_cwnd_ok E _ HE (go_sock _ _ _ Hg)) as Ht.
  unfold cut_window. set (sk := touch_cwnd E (linux_ a)) in *.
  eapply returns_bind; [apply (cm_ssthresh E sk k); [done|done|apply Hg]|].
  intros [th ca] [Hth Hc].
  set (sk1 := sk <| snd_ssthresh := th |> <| snd_cwnd_cnt := 0 |> <| bytes_acked := 0 |>).
  assert (Hs1 : forall w, 1 <= w <= window_max -> drv_sock R (sk1 <| snd_cwnd := w |>)).
  { intros w Hw. apply (drv_sock_cut R _ w th 0 0 (snd_cwnd_stamp sk)) in Ht; try lia; [|apply Ht].
    subst sk1. by destruct sk. }
  assert (Hs1' : drv_sock R sk1).
  { specialize (Hs1 (snd_cwnd sk1) ltac:(apply Ht)). subst sk1. by destruct sk. }
  eapply returns_bind; [by apply (cm_min_cwnd E sk1 k)|].
  intros w Hw. cbn [returns]. specialize (Hs1 w Hw). destruct Hg. constructor; cbn; done.
Qed.

Lemma moderate_ok E n sk :
  wf_env E -> 0 <= n < window_max -> drv_sock R sk ->
  drv_sock R (tcp_moderate_cwnd tcp_max_burst E n sk).
Proof using burst_ok.
  intros HE Hn Hs. apply touch_cwnd_ok; [done|].
  destruct Hs as [[] Hw ? ? ? ?]. unfold window_max in *.
  rewrite !s32_id by lia. rewrite u32_id by lia.
  constructor; [constructor|..]; cbn -[Z.min]; unfold window_max; try done; lia.
Qed.

Lemma fastretrans_good k E flag n a :
  wf_env E -> 0 <= n < window_max -> good k a ->
  returns (tcp_fastretrans_alert ops tcp_max_burst E flag n a) (good k).
Proof using burst_ok.
  intros HE Hn Hg. unfold tcp_fastretrans_alert. case_top Hexit.
  - set (sk := if _ <? _ then _ else linux_ a).
    assert (Hs : drv_sock R sk /\ srtt sk = srtt (linux_ a)).
    { subst sk. case_cond; [|split; [apply Hg|done]]. split; [|done].
      apply moderate_ok; [done|done|]. destruct (go_sock _ _ _ Hg) as [[] Hw Hcl Ht Hm Hr].
      constructor; [constructor|..]; cbn; try done; lia. }
    clearbody sk.
    assert (Hg' : good k (a <| linux_ := sk |>)).
    { apply (good_update k a sk (ca_ a)) in Hg as Hg'; try apply Hs; [|apply Hg]. by destruct a. }
    eapply returns_bind; [by apply (set_ca_state_good k)|].
    intros a' [Ha' _]. destruct Ha'. constructor; done.
  - case_top Hrec; [done|]. case_top Hlost; [|done].
    eapply returns_bind; [by apply (cut_window_good k)|].
    intros a' Ha'. eapply returns_mono; [by apply (set_ca_state_good k)|]. by intros a'' [].
Qed.

Lemma cong_avoid_good k x ack g a :
  ok_env (k_env x) (linux_ a) -> good k a ->
  returns (tcp_cong_avoid ops x ack g a) (good k).
Proof using Type.
  intros HE Hg. unfold tcp_cong_avoid.
  eapply returns_bind; [apply (cm_cong_avoid _ _ k); [done|apply Hg|apply Hg]|].
  intros [sk ca] [(Hs & Hr & _) Hc]. cbn [returns].
  apply good_update; [done| |done|done]. apply touch_cwnd_ok; [apply HE|done].
Qed.

Lemma react_good k x ack flag a :
  ok_env (k_env x) (linux_ a) -> 0 <= k_in_flight x < window_max -> good k a ->
  returns (react ops tcp_max_burst x ack flag a) (good k).
Proof using burst_ok.
  intros HE Hn Hg. unfold react. case_top Hd.
  - eapply returns_bind with (P := good k); [|intros a' Ha'; apply fastretrans_good; [apply HE|done|done]].
    case_cond; [by apply cong_avoid_good|done].
  - case_cond; [by apply cong_avoid_good|done].
Qed.

(** Everything up to the first callback: the module is told of the
    acknowledgement, and initialised if this is the first. *)
Lemma notify_good k x n flag a :
  ok_env (k_env x) (linux_ a) -> 0 <= k < 2147483648 -> 0 <= n <= acked_max ->
  ok_last (k_env x) (k_last x) -> drv_sock R (linux_ a) -> t_srtt_ a = srtt (linux_ a) ->
  seq_ok a -> settings_ok (settings_ a) -> (if initialized_ a then cm_inv k (ca_ a) else cm_raw (ca_ a)) ->
  returns (notify_module ops x n flag a) (fun a' => good (k + 1) a'
    /\ rx_opt (linux_ a') = rx_opt (linux_ a)).
Proof using Type.
  intros HE Hk Hn Hlast Hs Hsrtt Hseq Hset Hca. unfold notify_module.
  assert (HE' : forall sk, rx_opt sk = rx_opt (linux_ a) -> ok_env (k_env x) sk).
  { intros sk Hrx. destruct HE as [HE HE2]. split; [done|]. by rewrite Hrx. }
  assert (Hlast0 : ok_last (k_env x) (if has flag FLAG_UNSURE_TSTAMP then 0 else k_last x)).
  { case_cond; [by left|done]. }
  eapply returns_bind with (P := fun '(sk, ca) => drv_step R (linux_ a) sk /\ cm_inv k ca).
  { destruct (initialized_ a); [done|].
    eapply returns_mono; [by apply cm_init|]. intros [sk ca] [Hst Hc]. split; [done|].
    eapply cm_mono; [|done]. lia. }
  intros [sk1 ca1] [(Hs1 & Hr1 & Hrx1) Hca1].
  eapply returns_bind with (P := fun '(sk, ca) => drv_step R (linux_ a) sk /\ cm_inv (k + 1) ca).
  { case_cond.
    - eapply returns_mono; [apply (cm_acked _ sk1 k); auto|].
      intros [sk ca] [(Hs2 & Hr2 & Hrx2) Hca2]. split; [|done]. split; [done|split; congruence].
    - split; [done|]. eapply cm_mono; [|done]. lia. }
  intros [sk2 ca2] [(Hs2 & Hr2 & Hrx2) Hca2].
  eapply returns_bind; [apply (cm_event _ sk2 (k + 1)); auto|].
  intros [sk3 ca3] [(Hs3 & Hr3 & Hrx3) Hca3]. cbn [returns]. split.
  - constructor; cbn; try done. congruence.
  - cbn. congruence.
Qed.

(** ** An acknowledgement, a timeout, a transmission *)

(** The sequence numbers after [ack_processing], and what it keeps. *)
Lemma ack_processing_ok seqno flag (a a' : agent P) flag' :
  ack_processing seqno flag a = (a', flag') ->
  highest_ack_ a <= seqno < 2147483647 -> seq_ok a ->
  in_u32 (snd_nxt (linux_ a)) -> in_u32 (snd_una (linux_ a)) ->
  seq_ok a' /\ ca_ a' = ca_ a /\ initialized_ a' = initialized_ a /\ t_srtt_ a' = t_srtt_ a
  /\ settings_ a' = settings_ a /\ exists n u, linux_ a' = (linux_ a) <| snd_nxt := n |> <| snd_una := u |> /\ in_u32 n /\ in_u32 u.
Proof using Type.
  unfold ack_processing, seq_ok. intros Ha Hs [Hh Ht] Hn Hu.
  assert (Hun : linux_ a = (linux_ a) <| snd_nxt := snd_nxt (linux_ a) |>
                                      <| snd_una := snd_una (linux_ a) |>) by by destruct (linux_ a).
  case_cond_in Ha; [case_cond_in Ha|]; injection Ha as <- <-; cbn in *;
    (split; [lia|]); (split; [done|]); (split; [done|]); (split; [done|]); (split; [done|]);
    eexists _, _; (split; [first [reflexivity | exact Hun]|]);
    split; eauto using u32_range.
Qed.

(** What holds while an acknowledgement is processed, before the module hears
    of it: as [agent_inv], for a socket known up to its smoothed RTT. *)
Definition pre (k : Z) (a : agent P) : Prop :=
  seq_ok a /\ settings_ok (settings_ a) /\ drv_sock R ((linux_ a) <| srtt := if initialized_ a then srtt (linux_ a) else 8 |>)
  /\ (if initialized_ a then t_srtt_ a = srtt (linux_ a) /\ cm_inv k (ca_ a)
      else t_srtt_ a = 0 /\ cm_raw (ca_ a)).

Lemma agent_inv_pre k a : agent_inv ops k a -> pre k a.
Proof using Type.
  unfold pre. intros [[-> ? ? ? ? ?]|[-> Hs ? ? ? ?]]; [done|].
  split; [done|]. split; [done|]. split; [by destruct (linux_ a)|done].
Qed.

Lemma agent_inv_mono k k' a : k <= k' -> agent_inv ops k a -> agent_inv ops k' a.
Proof using Type.
  intros Hk [?|[? ? ? Hc ? ?]]; [by left|right]. constructor; try done. by eapply cm_mono.
Qed.

Lemma drv_sock_srtt sk r : drv_sock R sk -> 8 <= r <= 8 * R + 7 -> drv_sock R (sk <| srtt := r |>).
Proof using Type.
  intros [[] ? ? ? ? ?] Hr. pose proof (cm_rtt_max_ok (ops := ops)).
  constructor; [constructor|..]; cbn; try done; lia.
Qed.

Lemma time_processing_good k x a :
  pre k a ->
  match k_rx x with Some (ecr, val) => in_u32 ecr /\ in_u32 val | None => True end ->
  match k_t_rtt x with Some m => m <= R | None => initialized_ a = true end ->
  returns (time_processing ops x a) (fun a' => seq_ok a' /\ settings_ok (settings_ a') /\ drv_sock R (linux_ a')
    /\ t_srtt_ a' = srtt (linux_ a') /\ initialized_ a' = initialized_ a
    /\ (if initialized_ a' then cm_inv k (ca_ a') else cm_raw (ca_ a'))
    /\ rcv_tsecr (rx_opt (linux_ a')) =
       match k_rx x with Some (ecr, _) => ecr | None => rcv_tsecr (rx_opt (linux_ a)) end).
Proof using burst_ok.
  intros (Hseq & Hset & Hs & Hca) Hrx Hm. unfold time_processing.
  set (rx := match k_rx x with Some _ => _ | None => _ end).
  assert (Hrx' : in_u32 (rcv_tsecr rx) /\ in_u32 (rcv_tsval rx) /\ rcv_tsecr rx =
    match k_rx x with Some (ecr, _) => ecr | None => rcv_tsecr (rx_opt (linux_ a)) end).
  { subst rx. destruct (k_rx x) as [[ecr val]|]; [naive_solver|].
    split; [apply (ds_wf _ _ Hs)|split; [apply (ds_wf _ _ Hs)|done]]. }
  clearbody rx. destruct Hrx' as (Hr1 & Hr2 & Hr3).
  assert (Hsk : forall r, 8 <= r <= 8 * R + 7 ->
    drv_sock R ((linux_ a) <| rx_opt := rx |> <| srtt := r |>)).
  { intros r Hr. apply (drv_sock_srtt _ r) in Hs; [|done].
    destruct Hs as [[] ? ? ? ? ?]. constructor; [constructor|..]; done. }
  destruct (k_t_rtt x) as [m|]; cbn [returns].
  - unfold rtt_update. set (sk := (linux_ a) <| rx_opt := rx |>) in *. cbn [linux_ ca_ t_srtt_ t_rttvar_ set_field].
    eapply returns_bind with (P := fun ca => if initialized_ a then cm_inv k ca else cm_raw ca).
    { revert Hca. destruct (initialized_ a); intros [_ Hca]; [by apply cm_rtt|by apply cm_rtt_raw]. }
    intros ca Hc.
    assert (Ht : t_srtt_ a = 0 \/ 8 <= t_srtt_ a <= 8 * R + 7).
    { revert Hca Hs. destruct (initialized_ a); intros [-> _] Hs; [right|by left].
      apply (ds_srtt _ _ Hs). }
    pose proof (srtt_update_range R m (t_srtt_ a) (t_rttvar_ a) cm_rtt_max_ok Hm Ht) as Hu.
    change (t_srtt_ (a <| linux_ := sk |>)) with (t_srtt_ a).
    change (t_rttvar_ (a <| linux_ := sk |>)) with (t_rttvar_ a).
    destruct (srtt_update m (t_srtt_ a) (t_rttvar_ a)) as [s v]. cbn [fst] in Hu.
    pose proof (cm_rtt_max_ok (ops := ops)). cbn [returns].
    split; [done|]. split; [done|]. cbn. rewrite u32_id by lia. split; [by apply Hsk|done].
  - rewrite Hm in *. destruct Hca as [Hsr Hc]. split; [done|]. split; [done|].
    split; [|cbn; rewrite Hm; done].
    specialize (Hsk (srtt (linux_ a)) ltac:(apply (ds_srtt _ _ Hs))). cbn. by destruct (linux_ a).
Qed.

Lemma pre_sock k a a' n u b :
  pre k a -> seq_ok a' -> ca_ a' = ca_ a -> initialized_ a' = initialized_ a -> t_srtt_ a' = t_srtt_ a ->
  settings_ a' = settings_ a -> linux_ a' = (linux_ a) <| bytes_acked := b |> <| snd_nxt := n |> <| snd_una := u |> ->
  in_u32 n -> in_u32 u -> in_u32 b -> pre k a'.
Proof using Type.
  intros (Hseq & Hset & Hs & Hca) Hseq' Hc Hi Ht Hse Hl Hn Hu Hb. unfold pre. rewrite Hc, Hi, Ht, Hse, Hl.
  split; [done|split; [done|split; [|done]]]. eapply drv_sock_update; [exact Hs|..]; try done.
  destruct Hs as [[]]. constructor; done.
Qed.

Lemma recv_good k x a :
  agent_inv ops k a -> 0 <= k < 2147483648 -> valid ops a (EvAck x) ->
  returns (recv ops tcp_max_burst x a) (fun a' => agent_inv ops (k + 1) a' /\ (a' = a \/ good (k + 1) a')).
Proof using burst_ok.
  intros Ha Hk (HE & Hsn & Hn & Hfl & Hlast & Hrx & Hm).
  pose proof (agent_inv_pre k a Ha) as Hp. pose proof Hp as ((Hh & Ht) & _ & Hs & _).
  unfold recv. rewrite (u32_id (k_seqno x + 1)), (u32_id (highest_ack_ a + 1)) by lia.
  case_top Hun; [apply returns_Ok; split; [eapply agent_inv_mono; [|done]; lia|by left]|].
  case_top Hold; [apply returns_Ok; split; [eapply agent_inv_mono; [|done]; lia|by left]|].
  set (flag0 := if _ : bool then FLAG_ECE else 0). clearbody flag0.
  set (upd := if _ <? _ then _ else _).
  assert (Hupd : exists b flag, upd = (a <| linux_ := (linux_ a) <| bytes_acked := b |> |>, flag)
    /\ in_u32 b).
  { subst upd. case_cond.
    - eexists _, _. split; [done|]. apply u32_range.
    - exists (bytes_acked (linux_ a)), flag0. split; [destruct a as [[]]; done|]. apply Hs. }
  clearbody upd. destruct Hupd as (b & flag1 & -> & Hb).
  set (a0 := a <| linux_ := (linux_ a) <| bytes_acked := b |> |>).
  destruct (ack_processing (k_seqno x) flag1 a0) as [a1 flag2] eqn:Hap.
  apply ack_processing_ok in Hap as (Hseq & Hc & Hi & Hts & Hse & n & u & Hl & Hn' & Hu');
    [|cbn; lia|done|apply Hs|apply Hs].
  assert (Hp1 : pre k a1) by (by eapply (pre_sock k a a1 n u b)).
  assert (Hrx1 : rx_opt (linux_ a1) = rx_opt (linux_ a)) by (by rewrite Hl).
  eapply returns_bind.
  { apply (time_processing_good k x a1 Hp1).
    - destruct (k_rx x) as [[]|]; naive_solver.
    - rewrite Hi. exact Hm. }
  intros a2 (Hseq2 & Hset2 & Hs2 & Hts2 & Hi2 & Hc2 & Hrx2). rewrite Hrx1 in Hrx2.
  assert (HE2 : ok_env (k_env x) (linux_ a2)).
  { split; [done|]. rewrite Hrx2. destruct (k_rx x) as [[]|]; naive_solver. }
  eapply returns_bind; [apply (notify_good k); try done|].
  { rewrite u32_sub_id by lia. unfold acked_max in *. lia. }
  intros a3 [Hg Hrx3]. eapply returns_mono; [apply (react_good (k + 1)); try done|].
  - destruct HE2. split; [done|]. by rewrite Hrx3.
  - intros a4 Ha4. split; by right.
Qed.

(** The socket after slowdown and load_to_linux. *)
Lemma load_to_linux_ok cwnd th (a : agent P) r :
  settings_ok (settings_ a) -> 1 <= cwnd <= window_max -> 2 <= th <= window_max ->
  drv_sock R ((linux_ a) <| srtt := r |>) ->
  drv_sock R ((linux_ (load_to_linux cwnd th a)) <| srtt := r |>) /\ ca_ (load_to_linux cwnd th a) = ca_ a /\
  initialized_ (load_to_linux cwnd th a) = initialized_ a /\ t_srtt_ (load_to_linux cwnd th a) = t_srtt_ a /\
  srtt (linux_ (load_to_linux cwnd th a)) = srtt (linux_ a) /\ settings_ (load_to_linux cwnd th a) = settings_ a /\
  highest_ack_ (load_to_linux cwnd th a) = highest_ack_ a /\ t_seqno_ (load_to_linux cwnd th a) = t_seqno_ a.
Proof using Type.
  intros [Hi Hw] Hc Ht [[] ? ? ? ? ?]. unfold load_to_linux, window_max in *.
  cbv zeta. case_cond; cbn [linux_ settings_ set_field]; rewrite ?(u32_id th), ?(u32_id (wnd_ (settings_ a))), ?(u32_id cwnd) by lia;
    (split; [|done]); (constructor; [constructor|..]); cbn in *; unfold window_max in *; done || lia.
Qed.

Lemma restart_good k a :
  good k a -> returns (let '(cwnd, th) := slowdown_init a in Ok (load_to_linux cwnd th a)) (good k).
Proof using Type.
  intros []. cbn [slowdown_init returns]. pose proof (ds_ssthresh _ _ go_sock0) as Ht. unfold window_max in Ht.
  rewrite s32_id by lia.
  destruct (load_to_linux_ok (wnd_init_ (settings_ a)) (Z.max (snd_ssthresh (linux_ a)) 2) a (srtt (linux_ a)))
    as (Hs & Ec & Ei & Et & Er & Ese & Eh & Eq); try done; [apply go_settings0|unfold window_max; lia|by destruct (linux_ a)|].
  constructor; unfold seq_ok; rewrite ?Ec, ?Ei, ?Et, ?Er, ?Ese, ?Eh, ?Eq; try done. revert Hs. rewrite <- Er. by destruct (linux_ (load_to_linux _ _ a)).
Qed.

Lemma restart_fresh a :
  fresh ops a -> returns (let '(cwnd, th) := slowdown_init a in Ok (load_to_linux cwnd th a)) (fun a' => fresh ops a' /\ ca_ a' = ca_ a).
Proof using Type.
  intros []. cbn [slowdown_init returns]. pose proof (ds_ssthresh _ _ fr_sock0) as Ht. cbn in Ht. unfold window_max in Ht.
  rewrite s32_id by lia.
  destruct (load_to_linux_ok (wnd_init_ (settings_ a)) (Z.max (snd_ssthresh (linux_ a)) 2) a 8)
    as (Hs & Ec & Ei & Et & Er & Ese & Eh & Eq); try done; [apply fr_settings0|unfold window_max; lia|].
  split; [|done]. constructor; unfold seq_ok; rewrite ?Ec, ?Ei, ?Et, ?Er, ?Ese, ?Eh, ?Eq; done.
Qed.

Lemma enter_loss_good k E a :
  good k a -> ok_env E (linux_ a) -> returns (enter_loss ops E a) (good k).
Proof using Type.
  intros Hg HE. unfold enter_loss.
  pose proof (touch_cwnd_ok E _ (proj1 HE) (go_sock _ _ _ Hg)) as Ht.
  eapply returns_bind; [apply (cm_ssthresh E _ k); [apply HE|done|apply Hg]|].
  intros [th ca] [Hth Hca].
  assert (Hs1 : drv_sock R (touch_cwnd E (linux_ a) <| snd_ssthresh := th |>)).
  { destruct Ht as [[] ? ? ? ? ?]. unfold window_max in *.
    constructor; [constructor|..]; cbn; unfold window_max; try done; lia. }
  eapply returns_bind; [apply (cm_event E _ k); [done|exact Hs1|done]|].
  intros [sk ca'] [(Hs2 & Hr2 & _) Hca'].
  eapply returns_mono; [apply (set_ca_state_good k); [apply HE|]|by intros a' [? _]].
  destruct Hg. constructor; cbn; try done; [|by rewrite Hr2].
  destruct Hs2 as [[] ? ? ? ? ?]. unfold window_max in *.
  constructor; [constructor|..]; cbn; unfold window_max; done.
Qed.

(** Before the first acknowledgement the module is called on blank memory. *)
Lemma set_loss_fresh E a :
  fresh ops a -> wf_env E -> cm_blank (ca_ a) ->
  returns (set_ca_state ops E TCP_CA_Loss a) (fun a' => fresh ops a' /\ cm_blank (ca_ a')).
Proof using Type.
  intros [Hi Hs Hsr Hraw Hseq Hset] HE Hb. unfold set_ca_state.
  eapply returns_bind; [by apply cm_blank_state|]. intros [sk ca] [-> Hca]. cbn [returns].
  split; [|exact Hca]. constructor; cbn; try done; [|by apply cm_blank_raw].
  destruct Hs as [[] ? ? ? ? ?]. constructor; [constructor|..]; done.
Qed.

Lemma enter_loss_fresh E a :
  fresh ops a -> wf_env E -> cm_blank (ca_ a) ->
  returns (enter_loss ops E a) (fun a' => fresh ops a' /\ cm_blank (ca_ a')).
Proof using Type.
  intros [Hi Hs Hsr Hraw Hseq Hset] HE Hb. unfold enter_loss. set (sk := touch_cwnd E (linux_ a)).
  assert (Ht : drv_sock R (sk <| srtt := 8 |>)) by exact (touch_cwnd_ok E _ HE Hs).
  eapply returns_bind; [by apply cm_blank_ssthresh|]. intros [th ca] [Hth Hca].
  assert (Hs1 : drv_sock R ((sk <| snd_ssthresh := th |>) <| srtt := 8 |>)).
  { destruct Ht as [[] ? ? ? ? ?]. unfold window_max in *.
    constructor; [constructor|..]; cbn in *; unfold window_max; try done; lia. }
  eapply returns_bind; [by apply cm_blank_event|]. intros [sk1 ca1] [-> Hca1].
  apply set_loss_fresh; [|done|exact Hca1]. constructor; try done; [|by apply cm_blank_raw].
  destruct Hs1 as [[] ? ? ? ? ?]. unfold window_max in *. constructor; [constructor|..]; cbn in *; unfold window_max; done || lia.
Qed.

Lemma timeout_ok k E a :
  agent_inv ops k a -> valid ops a (EvTimeout E) ->
  returns (timeout_rtx ops E a) (fun a' => agent_inv ops k a' /\ blank ops a').
Proof using Type.
  intros Ha [HE Hb]. unfold timeout_rtx. case_cond; [by apply returns_Ok|].
  eapply returns_bind with (P := fun a' => agent_inv ops k a' /\ blank ops a').
  - destruct Ha as [Hf|Hg].
    + pose proof (fr_init _ _ Hf) as Hi. rewrite Hi in HE. destruct Hb as [Hb|Hb]; [congruence|].
      case_cond; (eapply returns_mono; [by apply restart_fresh || by apply enter_loss_fresh|]); intros a' [Hf' Hca].
      * split; [by left|right]. by rewrite Hca.
      * split; [by left|by right].
    + pose proof (go_init _ _ _ Hg) as Hi. rewrite Hi in HE.
      case_cond; (eapply returns_mono; [by apply (restart_good k) || by apply (enter_loss_good k)|]); intros a' Hg';
        (split; [by right|left; apply Hg']).
  - intros a' [Ha' Hb']. cbn [returns]. split; [|exact Hb']. destruct Ha' as [[? [[] ? ? ? ? ?] ? ? ? ?]|[? [[] ? ? ? ? ?] ? ? ? ?]].
    + left. by constructor.
    + right. by constructor.
Qed.

Lemma sent_inv k n a :
  agent_inv ops k a -> t_seqno_ a <= n < 2147483648 -> agent_inv ops k (sent n a).
Proof using Type.
  intros Ha Hn.
  assert (Hu : forall r, drv_sock R ((linux_ a) <| srtt := r |>) ->
    drv_sock R ((linux_ (sent n a)) <| srtt := r |>)).
  { intros r [[] ? ? ? ? ?]. constructor; [constructor|..]; cbn in *; try done; apply u32_range. }
  destruct Ha as [[? ? ? ? [] ?]|[? Hs ? ? [] ?]].
  - left. constructor; cbn; try done; [by apply Hu|split; cbn; lia].
  - right. constructor; cbn; try done; [|split; cbn; lia].
    specialize (Hu (srtt (linux_ a))). cbn in Hu. destruct (linux_ a). by apply Hu.
Qed.

Lemma drive_inv k a ev :
  agent_inv ops k a -> 0 <= k < 2147483648 -> valid ops a ev ->
  returns (drive ops tcp_max_burst ev a) (fun a' => agent_inv ops (k + 1) a' /\ (blank ops a -> blank ops a')).
Proof using burst_ok.
  intros Ha Hk Hv. destruct ev as [x|E|n]; cbn [drive].
  - eapply returns_mono; [by apply recv_good|]. intros a' [Ha' Hor]. split; [done|]. intros Hb.
    destruct Hor as [->|[]]; [done|by left].
  - eapply returns_mono; [by apply (timeout_ok k)|].
    intros a' [Ha' Hb]. split; [|done]. apply (agent_inv_mono k); [lia|done].
  - split; [|done]. apply (agent_inv_mono k); [lia|]. by apply sent_inv.
Qed.

Lemma reach_inv k a : reach ops tcp_max_burst k a -> k <= 2147483648 -> 0 <= k /\ agent_inv ops k a.
Proof using burst_ok.
  induction 1 as [a Ha|k a ev a' Hr IH Hv Hd]; intros Hk; [by split; [|left]|].
  destruct IH as [Hk0 Ha]; [lia|].
  pose proof (drive_inv k a ev Ha ltac:(lia) Hv) as Ha'. rewrite Hd in Ha'. split; [lia|apply Ha'].
Qed.
End RunLemmas.

(** In Recovery nothing moves before the recovery point is acknowledged. *)
Lemma react_recovery {P} (ops : tcp_congestion_ops P) burst x ack flag a :
  icsk_ca_state (linux_ a) = TCP_CA_Recovery -> highest_ack_ a < recover_ a ->
  react ops burst x ack flag a = Ok a.
Proof.
  intros Hst Hh. unfold react, tcp_ack_is_dubious, tcp_may_raise_cwnd. rewrite Hst.
  rewrite !bool_decide_eq_false_2, bool_decide_eq_true_2 by done.
  cbn [negb orb]. rewrite orb_true_r, !andb_false_r. cbn.
  unfold tcp_fastretrans_alert. rewrite Hst.
  rewrite (proj2 (Z.leb_gt _ _)), andb_false_r by done. done.
Qed.

(** ** Reno meets the contract *)

Lemma drv_sock_opened R sk sk' :
  drv_sock R sk -> cwnd_opened sk sk' -> drv_step R sk sk'.
Proof.
  intros Hs Ho. assert (Hwf := cwnd_opened_wf _ _ (ds_wf _ _ Hs) Ho).
  destruct Ho as (w & c & b & -> & Hw & _). destruct Hs. cbn in Hw.
  split; [|done]. constructor; cbn; done || lia.
Qed.

Lemma reno_ssthresh_range R sk : drv_sock R sk -> 2 <= tcp_reno_ssthresh sk <= window_max.
Proof.
  intros [_ Hw _ _ _ _]. unfold tcp_reno_ssthresh, window_max in *.
  rewrite Z.shiftr_div_pow2 by lia. change (2 ^ 1) with 2. Z.div_mod_to_equations; lia.
Qed.

Lemma reno_min_cwnd_range R sk : drv_sock R sk -> 1 <= tcp_reno_min_cwnd sk <= window_max.
Proof.
  intros [_ _ _ Ht _ _]. unfold tcp_reno_min_cwnd, window_max in *. Z.div_mod_to_equations; lia.
Qed.

(** The window after a loss, for a module without [min_cwnd]. *)
Lemma ssthresh_min_cwnd R sk : drv_sock R sk -> 1 <= snd_ssthresh sk <= window_max.
Proof. intros [_ _ _ Ht _ _]. lia. Qed.

Lemma drv_step_refl R sk : drv_sock R sk -> drv_step R sk sk.
Proof. by split. Qed.

(** The clauses of the contract for a table of callbacks [ops]: those the
    module leaves out, or takes from Reno, are settled. *)
Tactic Notation "cong_module" reference(ops) :=
  unfold call_init, call_rtt_sample, call_pkts_acked, tcp_ca_event, tcp_set_ca_state, ops;
  cbn [ops_init ops_ssthresh ops_cong_avoid ops_min_cwnd ops_rtt_sample ops_set_state
       ops_cwnd_event ops_pkts_acked mbind outcome_bind returns];
  intros;
  try solve [done | lia
    | (eapply reno_min_cwnd_range || eapply ssthresh_min_cwnd); eassumption | split; [(eapply drv_step_refl || eapply reno_ssthresh_range); eassumption | done]
    | match goal with H : drv_sock _ _ |- _ => split; [exact (reno_ssthresh_range _ _ H)|done] end].

Lemma reno_cong_avoid_step R E sk ack rtt in_flight flag :
  drv_sock R sk -> returns (tcp_reno_cong_avoid E sk ack rtt in_flight flag) (drv_step R sk).
Proof.
  intros Hs. eapply returns_mono.
  - apply tcp_reno_cong_avoid_opens; [apply Hs|]. pose proof (ds_cwnd _ _ Hs). lia.
  - intros sk' Ho. by apply drv_sock_opened.
Qed.

#[export] Instance reno_module : CongModule tcp_reno.
Proof.
  refine (Build_CongModule _ tcp_reno 32767 _ (fun _ => True) (fun _ _ => True) (fun _ => True) _ _ _ _ _ _ _ _ _ _ _ _ _ _);
    cong_module tcp_reno.
  eapply returns_bind; [by eapply reno_cong_avoid_step|]. by intros sk' Hs'.
Defined.

(** ** A concrete run *)

Definition agent_ex : agent unit := mk_agent
  {| snd_nxt := 0; snd_una := 0; mss_cache := 1000; srtt := 0;
     rx_opt := {| rcv_tsval := 0; rcv_tsecr := 0; saw_tstamp := false |};
     snd_ssthresh := 64; snd_cwnd := 2; snd_cwnd_cnt := 0; snd_cwnd_clamp := 1000;
     snd_cwnd_stamp := 0; bytes_acked := 0; icsk_ca_state := TCP_CA_Open |}
  tt false 0 (-1) 2 1 (-1) 0 0 (mk_settings true true 2 1000).

Definition ack_ex : ack_in := {|
  k_env := env_ex; k_seqno := 0; k_ece := false; k_sb := 0; k_prior_in_flight := 2;
  k_in_flight := 1; k_rx := Some (99900, 99950); k_t_rtt := Some 100; k_usrtt := 100000;
  k_seq_rtt := 100; k_last := 0 |}.

Definition agent_ex1 : agent unit := Eval vm_compute in
  match drive tcp_reno 3 (EvAck ack_ex) agent_ex with Ok a => a | Trap _ => agent_ex end.

Lemma agent_ex1_eq : drive tcp_reno 3 (EvAck ack_ex) agent_ex = Ok agent_ex1.
Proof. vm_compute. reflexivity. Qed.

Lemma agent_ex_fresh : fresh tcp_reno agent_ex.
Proof. by constructor. Qed.

Lemma ack_ex_valid : valid tcp_reno agent_ex (EvAck ack_ex).
Proof.
  cbn. unfold acked_max, window_max, ok_last.
  split; [apply wf_env_ex|]. naive_solver lia.
Qed.

(** * Properties *)

(** Whatever congestion module meets the contract, the agent is total and
    type safe: in every state reached by acknowledgements, timeouts and
    transmissions, the next one is handled without a trap or an endless loop;
    the window and the threshold stay between their bounds, the smoothed RTT
    is what the module sees and at least one tick (the modules divide by
    it), and nothing unsent is ever acknowledged. *)
Theorem driver_safe {P} (ops : tcp_congestion_ops P) `{!CongModule ops} tcp_max_burst k a :
  1 <= tcp_max_burst <= 255 -> reach ops tcp_max_burst k a -> k < 2147483648 ->
  (forall ev, valid ops a ev -> exists a', drive ops tcp_max_burst ev a = Ok a')
  /\ 1 <= snd_cwnd (linux_ a) <= window_max
  /\ 2 <= snd_ssthresh (linux_ a) <= window_max
  /\ (initialized_ a = true -> t_srtt_ a = srtt (linux_ a) /\ 8 <= srtt (linux_ a))
  /\ highest_ack_ a < t_seqno_ a.
Proof.
  intros Hb Hr Hk. destruct (reach_inv ops tcp_max_burst Hb k a Hr ltac:(lia)) as [Hk0 Ha].
  split.
  - intros ev Hv. pose proof (drive_inv ops tcp_max_burst Hb k a ev Ha ltac:(lia) Hv) as Hd.
    apply returns_inv in Hd as (a' & -> & _). by exists a'.
  - destruct Ha as [[Hi [] ? ? []]|[? [] ? ? []]]; cbn in *;
      (split; [done|split; [done|split; [|lia]]]); [congruence|intros _; split; [done|lia]].
Qed.

Lemma driver_safe_witness :
  reach tcp_reno 3 1 agent_ex1
  /\ (forall ev, valid tcp_reno agent_ex1 ev ->
       exists a', drive tcp_reno 3 ev agent_ex1 = Ok a')
  /\ 1 <= snd_cwnd (linux_ agent_ex1) <= window_max
  /\ 2 <= snd_ssthresh (linux_ agent_ex1) <= window_max
  /\ (initialized_ agent_ex1 = true ->
       t_srtt_ agent_ex1 = srtt (linux_ agent_ex1) /\ 8 <= srtt (linux_ agent_ex1))
  /\ highest_ack_ agent_ex1 < t_seqno_ agent_ex1.
Proof.
  assert (Hr : reach tcp_reno 3 (0 + 1) agent_ex1).
  { eapply reach_step; [apply reach_start, agent_ex_fresh|apply ack_ex_valid|apply agent_ex1_eq]. }
  split; [exact Hr|]. apply (driver_safe tcp_reno 3 1); [lia|exact Hr|lia].
Defined.

(** A window is cut at most once per window of data.  An agent not in
    Recovery that sees a loss or a congestion mark asks the module for the
    threshold, remembers the highest sequence number sent and enters Recovery;
    from then on, until an acknowledgement reaches that number, the reaction to
    an acknowledgement changes nothing: the window is neither opened nor cut
    again. *)
Theorem recovery_cut_once {P} (ops : tcp_congestion_ops P) `{!CongModule ops} tcp_max_burst
  k E flag n a :
  wf_env E -> good ops k a ->
  icsk_ca_state (linux_ a) <> TCP_CA_Recovery ->
  icsk_ca_state (linux_ a) = TCP_CA_Open \/ highest_ack_ a < recover_ a ->
  has flag (Z.lor FLAG_DATA_LOST FLAG_ECE) = true ->
  exists a' th ca,
    tcp_fastretrans_alert ops tcp_max_burst E flag n a = Ok a'
    /\ ops_ssthresh ops E (touch_cwnd E (linux_ a)) (ca_ a) = Ok (th, ca)
    /\ snd_ssthresh (linux_ a') = th
    /\ icsk_ca_state (linux_ a') = TCP_CA_Recovery /\ recover_ a' = maxseq_ a
    /\ forall x ack flag' a'', icsk_ca_state (linux_ a'') = TCP_CA_Recovery ->
         recover_ a'' = recover_ a' -> highest_ack_ a'' < maxseq_ a ->
         react ops tcp_max_burst x ack flag' a'' = Ok a''.
Proof.
  intros HE Hg Hst Hopen Hflag. unfold tcp_fastretrans_alert.
  assert (Hnot : negb (bool_decide (icsk_ca_state (linux_ a) = TCP_CA_Open))
    && (recover_ a <=? highest_ack_ a) = false).
  { destruct Hopen as [->|Hh]; [done|]. rewrite (proj2 (Z.leb_gt _ _)) by done. apply andb_false_r. }
  rewrite Hnot, bool_decide_eq_false_2, Hflag by done.
  pose proof (cut_window_good ops k E a HE Hg) as Hcut.
  unfold cut_window in *.
  destruct (ops_ssthresh ops E (touch_cwnd E (linux_ a)) (ca_ a)) as [[th ca]|]; [|done].
  cbn [mbind outcome_bind] in *.
  destruct (match ops_min_cwnd ops with Some _ => _ | None => _ end) as [w|]; [|done].
  cbn [returns] in Hcut. rewrite bind_Ok.
  pose proof (set_ca_state_good ops k E TCP_CA_Recovery _ HE Hcut) as Hset.
  apply returns_inv in Hset as (a' & Hset & _ & ca' & ->). unfold mbind, outcome_bind at 1.
  rewrite Hset. eexists _, th, ca. repeat (split; [done|]).
  intros x ack flag' a'' Hst' Hrec Hh. apply react_recovery; [done|]. rewrite Hrec. done.
Qed.

Lemma recovery_cut_once_witness :
  exists a' th ca,
    tcp_fastretrans_alert tcp_reno 3 env_ex FLAG_DATA_LOST 1 agent_ex1 = Ok a'
    /\ ops_ssthresh tcp_reno env_ex (touch_cwnd env_ex (linux_ agent_ex1)) (ca_ agent_ex1)
       = Ok (th, ca)
    /\ snd_ssthresh (linux_ a') = th
    /\ icsk_ca_state (linux_ a') = TCP_CA_Recovery /\ recover_ a' = maxseq_ agent_ex1
    /\ forall x ack flag' a'', icsk_ca_state (linux_ a'') = TCP_CA_Recovery ->
         recover_ a'' = recover_ a' -> highest_ack_ a'' < maxseq_ agent_ex1 ->
         react tcp_reno 3 x ack flag' a'' = Ok a''.
Proof.
  apply (recovery_cut_once tcp_reno 3 1); [apply wf_env_ex| |done|by left|done].
  constructor; cbn; try done.
Defined.
