(* ===== verification/Modules.v ===== *)
(** The congestion modules meet the contract of the agent ([Driver.CongModule]),
    so its safety theorem holds for each of them. *)
From S2P Require Import Sock LinuxC Reno Cubic Bic Scalable HighSpeed Hybla Vegas Veno.
From S2P Require Import Illinois Htcp Lp Driver.

(** * Lemmas the instances share *)

Lemma drv_sock_window R sk sk' : drv_sock R sk -> window_step sk sk' -> drv_step R sk sk'.
Proof.
  intros Hs ((w & c & b & th & st & -> & Hth) & Hwf & Hw). destruct Hs. cbn in Hw.
  split; [|done]. constructor; cbn; try done; [lia|].
  unfold window_max in *. destruct Hth as [->| ->]; lia.
Qed.

Lemma returns_opened {P} R sk m (I I' : P -> Prop) :
  drv_sock R sk -> returns m (fun '(sk', ca') => cwnd_opened sk sk' /\ I ca') ->
  (forall ca, I ca -> I' ca) ->
  returns m (fun '(sk', ca') => drv_step R sk sk' /\ I' ca').
Proof.
  intros Hs Hm HI. eapply returns_mono; [exact Hm|]. intros [sk' ca'] [Ho Hc].
  split; [by apply drv_sock_opened|auto].
Qed.

Lemma returns_window {P} R sk m (I I' : P -> Prop) :
  drv_sock R sk -> returns m (fun '(sk', ca') => window_step sk sk' /\ I ca') ->
  (forall ca, I ca -> I' ca) ->
  returns m (fun '(sk', ca') => drv_step R sk sk' /\ I' ca').
Proof.
  intros Hs Hm HI. eapply returns_mono; [exact Hm|]. intros [sk' ca'] [Ho Hc].
  split; [by apply drv_sock_window|auto].
Qed.

Lemma u32_div_range a b : 1 <= b -> in_u32 (u32 a / b).
Proof.
  intros Hb. pose proof (u32_range a). split; [apply Z.div_pos; lia|].
  apply Z.div_lt_upper_bound; [lia|]. nia.
Qed.

(** A window scaled by a fraction of at most one, wherever it wraps. *)
Lemma scaled_window w b s :
  0 <= w -> 256 <= s -> 2 <= Z.max ((w ⊗ b) / s) 2 <= window_max.
Proof.
  intros Hw Hs. pose proof (u32_range (w * b)). unfold window_max.
  assert (0 <= (w ⊗ b) / s < 16777217); [|lia].
  split; [apply Z.div_pos; lia|]. apply Z.div_lt_upper_bound; lia.
Qed.

Lemma window_range R sk : drv_sock R sk -> 1 <= snd_cwnd sk < 134217728.
Proof. intros [_ Hw _ _ _ _]. unfold window_max in Hw. lia. Qed.

(** * Scalable TCP *)

Lemma scalable_ssthresh_range R sk : drv_sock R sk -> 2 <= tcp_scalable_ssthresh sk <= window_max.
Proof.
  intros Hs. pose proof (window_range _ _ Hs). unfold tcp_scalable_ssthresh, window_max.
  change TCP_SCALABLE_MD_SCALE with 3. rewrite Z.shiftr_div_pow2 by lia. change (2 ^ 3) with 8.
  destruct Hs as [_ Hw _ _ _ _]. unfold window_max in Hw. rewrite u32_id; Z.div_mod_to_equations; lia.
Qed.

#[export] Instance scalable_module : CongModule tcp_scalable.
Proof.
  refine (Build_CongModule _ _ 32767 _ (fun _ => True) (fun _ _ => True) (fun _ => True) _ _ _ _ _ _ _ _ _ _ _ _ _ _);
    cong_module tcp_scalable.
  - eapply returns_bind; [apply (tcp_scalable_cong_avoid_opens E sk); [apply H0|apply H0]|].
    intros sk' Ho. split; [by apply drv_sock_opened|done].
  - split; [exact (scalable_ssthresh_range _ _ H0)|done].
  - split; [exact (scalable_ssthresh_range _ _ H0)|done].
Defined.

(** * CUBIC, with the constants of its registration *)

Lemma cubic_recalc_inv C sk ca :
  wf_sock sk -> Cubic.cubic_inv ca -> Cubic.delayed_ack_inv C ca ->
  let ca' := (Cubic.bictcp_recalc_ssthresh Cubic.cubic_registered sk ca).2 in
  Cubic.cubic_inv ca' /\ Cubic.delayed_ack_inv C ca'.
Proof.
  intros Hsk [Hwf Hc Hd] [_ Hk]. unfold Cubic.bictcp_recalc_ssthresh.
  pose proof (u32_div_range (snd_cwnd sk * u32 (Cubic.BICTCP_BETA_SCALE +
    Cubic.beta Cubic.cubic_registered)) (2 * Cubic.BICTCP_BETA_SCALE) ltac:(done)) as Hw.
  set (w := u32 _ / _) in *. clearbody w. pose proof (wf_snd_cwnd _ Hsk).
  set (ca' := snd _). assert (Hwf' : Cubic.wf_bictcp ca').
  { subst ca'. destruct Hwf. case_cond; constructor; cbn; done || lia. }
  revert Hwf'. subst ca'. case_cond; intros Hwf'; (split; [by constructor|by split]).
Qed.

Lemma cubic_acked_inv sk ca n :
  Cubic.cubic_inv ca -> Cubic.delayed_ack_inv acked_max ca -> 0 <= n <= acked_max ->
  Cubic.cubic_inv (Cubic.bictcp_acked sk ca n)
  /\ Cubic.delayed_ack_inv acked_max (Cubic.bictcp_acked sk ca n).
Proof.
  intros [Hwf Hc Hd] Hk Hn.
  pose proof (Cubic.bictcp_acked_inv acked_max sk ca n Hk Hn ltac:(done)) as Hk'.
  split; [|done]. destruct Hk' as [Hwf' _]. unfold Cubic.bictcp_acked in *.
  case_cond; [|done]. by constructor.
Qed.

Lemma cubic_reset_inv ca :
  Cubic.cubic_inv (Cubic.bictcp_reset ca)
  /\ Cubic.delayed_ack_inv acked_max (Cubic.bictcp_reset ca).
Proof. split; [apply Cubic.bictcp_reset_inv|]. split; [apply Cubic.bictcp_reset_wf|done]. Qed.

#[export] Instance cubic_module : CongModule (Cubic.cubictcp Cubic.cubic_registered).
Proof.
  refine (Build_CongModule _ _ 32767 _ (fun _ => True)
    (fun _ ca => Cubic.cubic_inv ca /\ Cubic.delayed_ack_inv acked_max ca)
    (fun _ => True) _ _ _ _ _ _ _ _ _ _ _ _ _ _);
    cong_module Cubic.cubictcp.
  - split; [by apply drv_step_refl|apply cubic_reset_inv].
  - split; [by apply drv_step_refl|]. destruct H1. by apply cubic_acked_inv.
  - destruct H1 as [Hi [_ Hk]].
    eapply returns_opened; [done|apply Cubic.bictcp_cong_avoid_returns; try done; try apply H|].
    + apply H0.
    + by eapply window_range.
    + intros ca' [Hi' Hk']. split; [done|]. split; [apply Hi'|by rewrite Hk'].
  - destruct H1 as [Hi Hk]. pose proof (cubic_recalc_inv acked_max sk ca (ds_wf _ _ H0) Hi Hk).
    split; [apply scaled_window; [|done]; apply H0|done].
  - split; [done|]. unfold Cubic.bictcp_state. case_decide; [|done].
    apply cubic_reset_inv.
  - split; [apply scaled_window; [|done]; apply H0|done].
Defined.

(** * BIC *)

Definition bic_module_inv (ca : Bic.bictcp) : Prop :=
  Bic.bic_inv ca /\ Bic.delayed_ack ca <= 16 * acked_max + 15.

Lemma bic_module_reset_inv ca : bic_module_inv (Bic.bictcp_reset ca).
Proof. split; [apply Bic.bic_reset_inv|done]. Qed.

Lemma bic_recalc_range g sk ca :
  0 <= snd_cwnd sk < 33554432 ->
  2 <= (Bic.bictcp_recalc_ssthresh g sk ca).1 <= window_max.
Proof.
  intros Hw. unfold Bic.bictcp_recalc_ssthresh. cbn [fst].
  destruct (snd_cwnd sk <=? u32 (Bic.low_window g)); [|apply scaled_window; [lia|done]].
  rewrite Z.shiftr_div_pow2 by lia. change (2 ^ 1) with 2. unfold window_max.
  Z.div_mod_to_equations; lia.
Qed.

Lemma bic_update_delayed_ack g E ca cwnd :
  match Bic.bictcp_update g E ca cwnd with
  | Ok ca' => Bic.delayed_ack ca' = Bic.delayed_ack ca | Trap _ => True end.
Proof.
  unfold Bic.bictcp_update. case_cond; [done|].
  set (ca1 := if _ =? 0 then _ else _).
  assert (Hca1 : Bic.delayed_ack ca1 = Bic.delayed_ack ca) by (subst ca1; by case_cond).
  clearbody ca1. case_cond; [done|].
  destruct (Bic.bictcp_search g ca1 cwnd) as [c|]; [|done]. rewrite bind_Ok.
  by destruct (udiv _ (Bic.delayed_ack ca1)).
Qed.

Lemma bic_cong_avoid_inv E sk ca ack rtt in_flight flag :
  wf_sock sk -> wf_env E -> bic_module_inv ca -> 1 <= snd_cwnd sk ->
  returns (Bic.bictcp_cong_avoid Bic.bic_defaults E sk ca ack rtt in_flight flag)
    (fun '(sk', ca') => cwnd_opened sk sk' /\ bic_module_inv ca').
Proof.
  intros Hsk HE [Hi Hd] Hw.
  pose proof (Bic.bic_cong_avoid_returns E sk ca ack rtt in_flight flag Hsk HE Hi Hw) as Hr.
  assert (Hk : match Bic.bictcp_cong_avoid Bic.bic_defaults E sk ca ack rtt in_flight flag with
    | Ok (_, ca') => Bic.delayed_ack ca' = Bic.delayed_ack ca | Trap _ => True end).
  { unfold Bic.bictcp_cong_avoid. case_cond; [done|]. case_cond.
    - by destruct (tcp_slow_start E sk).
    - pose proof (bic_update_delayed_ack Bic.bic_defaults E ca (snd_cwnd sk)) as Hu.
      by destruct (Bic.bictcp_update _ E ca (snd_cwnd sk)). }
  destruct (Bic.bictcp_cong_avoid _ _ _ _ _ _ _ _) as [[sk' ca']|]; [|done].
  cbn in *. destruct Hr. split; [done|]. split; [done|]. by rewrite Hk.
Qed.

Lemma bic_acked_module_inv sk ca n :
  bic_module_inv ca -> 0 <= n <= acked_max -> bic_module_inv (Bic.bictcp_acked sk ca n).
Proof.
  intros [Hi Hd] Hn. unfold acked_max in *.
  split; [apply Bic.bic_acked_inv; [done|lia|lia]|]. unfold Bic.bictcp_acked.
  case_cond; [|done]. destruct Hi. rewrite (Z.shiftr_div_pow2 _ 4) by (unfold ACK_RATIO_SHIFT; lia).
  change (2 ^ 4) with 16. cbn -[Z.mul Z.div].
  assert (E : Bic.delayed_ack ca ⊕ (n ⊖ Bic.delayed_ack ca / 16)
    = Bic.delayed_ack ca - Bic.delayed_ack ca / 16 + n) by c_lia.
  rewrite E. unfold acked_max in *. Z.div_mod_to_equations; lia.
Qed.

#[export] Instance bic_module : CongModule (Bic.bictcp_ops Bic.bic_defaults).
Proof.
  refine (Build_CongModule _ _ 32767 _ (fun _ => True) (fun _ => bic_module_inv)
    (fun _ => True) _ _ _ _ _ _ _ _ _ _ _ _ _ _);
    cong_module Bic.bictcp_ops.
  - split; [by apply drv_step_refl|apply bic_module_reset_inv].
  - split; [by apply drv_step_refl|]. by apply bic_acked_module_inv.
  - pose proof (window_range _ _ H0).
    eapply returns_opened; [done|apply bic_cong_avoid_inv; [apply H0|apply H|done|lia]|done].
  - pose proof (bic_recalc_range Bic.bic_defaults sk ca) as Hr.
    pose proof (Bic.bictcp_recalc_ssthresh_inv sk ca (ds_wf _ _ H0) (proj1 H1)) as Hi.
    assert (Hd : Bic.delayed_ack (Bic.bictcp_recalc_ssthresh Bic.bic_defaults sk ca).2
      = Bic.delayed_ack ca) by (unfold Bic.bictcp_recalc_ssthresh; by destruct (_ && _)).
    destruct (Bic.bictcp_recalc_ssthresh _ sk ca) as [th ca']. cbn in *.
    destruct H0 as [_ Hw _ _ _ _]. unfold window_max in Hw. split; [apply Hr; lia|].
    split; [done|]. rewrite Hd. apply H1.
  - split; [done|]. unfold Bic.bictcp_state. case_decide; [|done]. apply bic_module_reset_inv.
  - pose proof (ds_cwnd _ _ H0) as Hw. cbn in Hw. unfold window_max in Hw.
    pose proof (bic_recalc_range Bic.bic_defaults sk ca ltac:(lia)) as Hr.
    destruct (Bic.bictcp_recalc_ssthresh _ sk ca) as [th ca']. by split.
Defined.

(** * HighSpeed TCP *)

Lemma highspeed_ssthresh_range R sk ca :
  drv_sock R sk -> 0 <= ai ca < 72 -> returns (hstcp_ssthresh sk ca) (fun th => 2 <= th <= window_max).
Proof.
  intros [_ Hw _ _ _ _] Hai. unfold window_max in *.
  destruct (hstcp_ssthresh_exact sk ca) as (md & Hmd & _ & ->); [done|lia|].
  cbn [returns]. assert (0 <= snd_cwnd sk * md) by lia. Z.div_mod_to_equations; lia.
Qed.

#[export] Instance highspeed_module : CongModule tcp_highspeed.
Proof.
  refine (Build_CongModule _ _ 32767 _ (fun _ => True) (fun _ ca => 0 <= ai ca < 72)
    (fun ca => 0 <= ai ca < 72) _ _ _ _ _ _ _ _ _ _ _ _ _ _);
    cong_module tcp_highspeed.
  - split; [|done]. split; [|done]. destruct H0 as [[] Hw Hc ? ? ?]. unfold window_max in *.
    constructor; [constructor|..]; cbn -[Z.min Z.div]; unfold window_max; try done;
      change (4294967295 / 128) with 33554431; lia.
  - eapply returns_opened; [done|apply hstcp_cong_avoid_returns; try done|done]; apply H0.
  - eapply returns_bind; [exact (highspeed_ssthresh_range _ _ _ H0 H1)|]. intros th Hth. by split.
  - eapply returns_bind; [exact (highspeed_ssthresh_range _ _ _ H0 H1)|]. intros th Hth. by split.
Defined.

(** * TCP Hybla: round trips up to 624 ms with the default reference of 25 ms *)

Lemma hybla_recalc_small rtt0 sk ca :
  0 < rtt0 < 4294967296 -> in_u32 (srtt sk) -> srtt sk < 200 * rtt0 ->
  0 <= Hybla.snd_cwnd_cents ca < 128 -> in_u32 (Hybla.minrtt ca) ->
  returns (hybla_recalc_param rtt0 sk ca) (fun ca' => hybla_inv ca' /\ rho_3ls ca' < 200).
Proof.
  intros Hr Hs Hlt Hc Hm.
  destruct (hybla_recalc_param_ok rtt0 sk ca Hr Hs Hc Hm) as (ca' & -> & Hi & H3 & _).
  cbn [returns]. split; [done|]. rewrite H3.
  assert (srtt sk / rtt0 < 200) by (apply Z.div_lt_upper_bound; lia). lia.
Qed.

Lemma hybla_init_ok sk ca :
  drv_sock 624 sk -> in_u32 (Hybla.minrtt ca) ->
  returns (hybla_init rtt0_default sk ca) (fun '(sk', ca') =>
    drv_step 624 sk sk' /\ hybla_inv ca' /\ rho_3ls ca' < 200).
Proof.
  intros [[] Hw Hc Ht Hm Hs] Hr. unfold hybla_init. cbv zeta.
  eapply returns_bind; [apply hybla_recalc_small; cbn; unfold rtt0_default; try done; lia|].
  intros ca' [Hi Hr3]. cbn [returns]. pose proof Hi as []. split; [|split; [|done]].
  - assert (1 <= rho ca' < 25) by (Z.div_mod_to_equations; lia).
    split; [|done]. constructor; [constructor|..]; cbn; unfold window_max in *; done || lia.
  - constructor; cbn; done.
Qed.

#[export] Instance hybla_module : CongModule (tcp_hybla rtt0_default).
Proof.
  refine (Build_CongModule _ _ 624 _ (fun ca => in_u32 (Hybla.minrtt ca))
    (fun _ ca => hybla_inv ca /\ rho_3ls ca < 200)
    (fun ca => in_u32 (Hybla.minrtt ca)) _ _ _ _ _ _ _ _ _ _ _ _ _ _);
    cong_module tcp_hybla.
  - by apply hybla_init_ok.
  - destruct H1 as [Hi Hr3]. eapply returns_window; [done|apply hybla_cong_avoid_returns; try done|done].
    + apply H0.
    + destruct H0 as [_ Hw _ _ _ _]. unfold window_max in Hw. lia.
    + destruct H0. lia.
    + destruct H0. lia.
    + destruct H0. unfold rtt0_default. lia.
  - split; [done|]. destruct H1 as [[] Hr3]. split; [constructor|]; done.
Defined.

(** * TCP Vegas *)

Lemma vegas_acked_any_inv E v n last :
  wf_env E -> ok_last E last -> vegas_inv v -> vegas_inv (tcp_vegas_pkts_acked E v n last).
Proof. intros HE [->|Hl] Hv; [done|]. by apply tcp_vegas_pkts_acked_inv. Qed.

#[export] Instance vegas_module : CongModule (tcp_vegas vegas_defaults).
Proof.
  refine (Build_CongModule _ _ 32767 _ (fun v => in_u32 (beg_snd_una v) /\ in_u32 (beg_snd_cwnd v))
    (fun _ => vegas_inv) (fun v => in_u32 (beg_snd_una v) /\ in_u32 (beg_snd_cwnd v)) _ _ _ _ _ _ _ _ _ _ _ _ _ _);
    cong_module tcp_vegas.
  - split; [by apply drv_step_refl|]. destruct H1. apply tcp_vegas_init_inv; [apply H0|done..].
  - split; [by apply drv_step_refl|]. apply vegas_acked_any_inv; [apply H|done..].
  - split; [by apply drv_step_refl|]. apply tcp_vegas_cwnd_event_inv; [apply H0|done].
  - pose proof (window_range _ _ H0). pose proof (ds_clamp _ _ H0) as Hcl. unfold window_max in Hcl.
    eapply returns_window; [done| |done].
    apply tcp_vegas_cong_avoid_returns; [apply H0|done|apply H0|lia|lia].
  - split; [done|]. apply tcp_vegas_state_inv; [apply H0|done].
Defined.

(** * TCP Veno *)

Lemma veno_acked_any_inv E v n last :
  wf_env E -> ok_last E last -> veno_inv v -> veno_inv (tcp_veno_pkts_acked E v n last).
Proof. intros HE [->|Hl] Hv; [done|]. by apply tcp_veno_pkts_acked_inv. Qed.

Lemma veno_ssthresh_range R sk v : drv_sock R sk -> 2 <= tcp_veno_ssthresh sk v <= window_max.
Proof.
  intros [_ Hw _ _ _ _]. unfold tcp_veno_ssthresh, window_max in *.
  rewrite Z.shiftr_div_pow2 by lia. change (2 ^ 1) with 2.
  rewrite (u32_id (snd_cwnd sk * 4)) by lia.
  case_cond; Z.div_mod_to_equations; lia.
Qed.

#[export] Instance veno_module : CongModule tcp_veno.
Proof.
  refine (Build_CongModule _ _ 32767 _ (fun v => in_u32 (cntrtt v)) (fun _ => veno_inv)
    (fun v => in_u32 (cntrtt v)) _ _ _ _ _ _ _ _ _ _ _ _ _ _);
    cong_module tcp_veno.
  - split; [by apply drv_step_refl|]. apply veno_acked_any_inv; [apply H|done..].
  - split; [by apply drv_step_refl|by apply tcp_veno_cwnd_event_inv].
  - pose proof (ds_cwnd _ _ H0). pose proof (ds_clamp _ _ H0).
    eapply returns_window; [done| |done].
    apply tcp_veno_cong_avoid_returns; [apply H0|done|lia|lia].
  - split; [by eapply veno_ssthresh_range|done].
  - split; [done|by apply tcp_veno_state_inv].
  - split; [exact (veno_ssthresh_range _ _ _ H0)|done].
Defined.

(** * TCP Illinois: at most one sample per acknowledgement *)

Definition illinois_module_inv (k : Z) (ca : illinois) : Prop :=
  illinois_inv ca /\ cnt_rtt ca <= k.

Lemma update_params_cnt g sk ca :
  match update_params g sk ca with Ok ca' => cnt_rtt ca' = 0 | Trap _ => True end.
Proof.
  unfold update_params. destruct (if _ <? _ then _ else _); [|done]. done.
Qed.

Lemma illinois_cong_avoid_inv k g E sk ca ack rtt in_flight flag :
  wf_sock sk -> illinois_module_inv k ca -> 1 <= snd_cwnd sk < 2147483648 ->
  1 <= snd_cwnd_clamp sk ->
  returns (tcp_illinois_cong_avoid g E sk ca ack rtt in_flight flag)
    (fun '(sk', ca') => window_step sk sk' /\ illinois_module_inv k ca').
Proof.
  intros Hsk [Hi Hk] Hw Hcl. pose proof (il_cnt _ Hi) as Hk0.
  pose proof (tcp_illinois_cong_avoid_returns g E sk ca ack rtt in_flight flag Hsk Hi Hw Hcl) as Hr.
  assert (Hc : match tcp_illinois_cong_avoid g E sk ca ack rtt in_flight flag with
    | Ok (_, ca') => cnt_rtt ca' <= k | Trap _ => True end).
  { unfold tcp_illinois_cong_avoid.
    assert (Hu : match (if after ack (end_seq ca) then update_params g sk ca else Ok ca) with
      | Ok ca' => cnt_rtt ca' <= k | Trap _ => True end).
    { pose proof (update_params_cnt g sk ca). case_cond; [|done].
      destruct (update_params g sk ca); [lia|done]. }
    destruct (if after _ _ then _ else _) as [ca1|]; [|done]. rewrite bind_Ok.
    case_cond; [done|]. case_cond; [by destruct (tcp_slow_start E sk)|].
    cbv zeta. case_cond; [|done]. by destruct (udiv _ _). }
  destruct (tcp_illinois_cong_avoid _ _ _ _ _ _ _ _) as [[sk' ca']|]; [|done].
  cbn in *. destruct Hr. split; [done|by split].
Qed.

Lemma illinois_acked_inv k E ca n last :
  illinois_module_inv k ca -> 0 <= k < 2147483648 -> 0 <= n <= acked_max ->
  illinois_module_inv (k + 1) (tcp_illinois_acked E ca n last).
Proof.
  intros [Hi Hk] Hk0 Hn. unfold acked_max in Hn. pose proof (il_cnt _ Hi).
  split; [apply tcp_illinois_acked_inv; [done|lia|lia]|].
  unfold tcp_illinois_acked. case_cond; [cbn; lia|]. cbv zeta.
  set (r := if _ : bool then RTT_MAX else _). clearbody r.
  set (ca2 := if r <? _ then _ else _).
  assert (H2 : cnt_rtt ca2 = cnt_rtt ca) by (subst ca2; by case_cond). clearbody ca2.
  set (ca3 := if _ <? r then _ else _).
  assert (H3 : cnt_rtt ca3 = cnt_rtt ca) by (subst ca3; by case_cond). clearbody ca3.
  change (cnt_rtt ca3 ⊕ 1 <= k + 1). rewrite u32_id; lia.
Qed.

Lemma illinois_ssthresh_range R sk ca :
  drv_sock R sk -> 0 <= beta_ ca <= 64 -> 2 <= tcp_illinois_ssthresh sk ca <= window_max.
Proof.
  intros [_ Hw _ _ _ _] Hb. unfold tcp_illinois_ssthresh, BETA_SHIFT, window_max in *.
  assert (0 * 0 <= snd_cwnd sk * beta_ ca <= 16777216 * 64) by (split; apply Z.mul_le_mono_nonneg; lia).
  rewrite u32_id, Z.shiftr_div_pow2 by lia. change (2 ^ 6) with 64. Z.div_mod_to_equations; lia.
Qed.

#[export] Instance illinois_module : CongModule (tcp_illinois illinois_defaults).
Proof.
  refine (Build_CongModule _ _ 32767 _ (fun _ => True) illinois_module_inv
    (fun ca => 0 <= beta_ ca <= 64) _ _ _ _ _ _ _ _ _ _ _ _ _ _);
    cong_module tcp_illinois.
  - destruct H0 as [Hi Hc]. split; [done|lia].
  - split; [by apply drv_step_refl|]. split; [apply tcp_illinois_init_inv, H0|done].
  - split; [by apply drv_step_refl|by apply illinois_acked_inv].
  - pose proof (window_range _ _ H0). pose proof (ds_clamp _ _ H0).
    eapply returns_window; [done| |done].
    apply illinois_cong_avoid_inv; [apply H0|done|lia|lia].
  - split; [|done]. destruct H1 as [[? Hb] _]. apply (illinois_ssthresh_range _ _ _ H0). lia.
  - split; [done|]. destruct H1 as [Hi Hk]. split; [apply tcp_illinois_state_inv; [apply H0|done]|].
    pose proof (il_cnt _ Hi). unfold tcp_illinois_state. case_decide; [cbn; lia|done].
  - split; [exact (illinois_ssthresh_range _ _ _ H0 H1)|done].
Defined.

(** * H-TCP *)

(** Before init all but the factors of increase and decrease is in range; they
    are set before they are read. *)
Definition htcp_blank (ca : htcp) : Prop := htcp_inv (ca <| alpha := 128 |> <| Htcp.beta := 64 |>).

Lemma htcp_inv_blank ca : htcp_inv ca -> htcp_blank ca.
Proof. intros []. constructor; cbn; done || lia. Qed.

Lemma htcp_beta_update_set g ca a b m M :
  htcp_beta_update g (ca <| alpha := a |> <| Htcp.beta := b |>) m M = (c ← htcp_beta_update g ca m M; Ok (c <| alpha := a |>)).
Proof.
  unfold htcp_beta_update, htcp_beta_ratio. cbn [modeswitch maxB old_maxB set_field].
  repeat case_match; try done; destruct (udiv _ _); try done; cbn; repeat case_match; done.
Qed.

Lemma htcp_recalc_set g E sk ca a b :
  htcp_recalc_ssthresh g E sk (ca <| alpha := a |> <| Htcp.beta := b |>) = htcp_recalc_ssthresh g E sk ca.
Proof.
  unfold htcp_recalc_ssthresh, htcp_param_update. cbv zeta. rewrite htcp_beta_update_set.
  cbn [minRTT maxRTT set_field]. by destruct (htcp_beta_update g ca _ _) as [c|].
Qed.

Lemma htcp_ssthresh_ok R E sk ca :
  drv_sock R sk -> htcp_inv ca ->
  returns (htcp_recalc_ssthresh htcp_defaults E sk ca) (fun '(th, ca') => 2 <= th <= window_max /\ htcp_inv ca').
Proof.
  intros [Hwf Hw _ _ _ _] Hca. unfold window_max in *.
  eapply returns_mono; [apply htcp_recalc_ssthresh_returns; [done|done|lia]|].
  intros [th ca'] [Hi ->]. split; [|done]. pose proof (ht_beta _ Hi).
  assert (1 * 64 <= snd_cwnd sk * Htcp.beta ca' <= 16777216 * 102)
    by (split; apply Z.mul_le_mono_nonneg; lia).
  Z.div_mod_to_equations; lia.
Qed.

#[export] Instance htcp_module : CongModule (htcp_ops htcp_defaults).
Proof.
  refine (Build_CongModule _ _ 32767 _ (fun _ => True) (fun _ => htcp_inv)
    htcp_blank _ _ _ _ _ _ _ _ _ _ _ _ _ _);
    cong_module htcp_ops.
  - split; [by apply drv_step_refl|]. apply htcp_init_inv, H.
  - unfold acked_max in H3. eapply returns_bind;
      [apply measure_achieved_throughput_returns; [apply H0|apply H|done|lia]|].
    intros ca' Hi. split; [by apply drv_step_refl|done].
  - pose proof (window_range _ _ H0). pose proof (ds_srtt _ _ H0).
    eapply returns_opened; [done| |done]. apply htcp_cong_avoid_returns; [apply H0|done|lia|lia].
  - by apply (htcp_ssthresh_ok 32767).
  - split; [done|by apply htcp_state_inv].
  - rewrite <- (htcp_recalc_set _ _ _ _ 128 64).
    eapply returns_mono; [exact (htcp_ssthresh_ok 32767 E _ _ H0 H1)|]. intros [th ca'] [Hth Hi]. split; [done|by apply htcp_inv_blank].
  - split; [done|]. exact (htcp_state_inv E _ TCP_CA_Loss H H1).
Defined.

(** * TCP-LP *)

Lemma lp_pkts_acked_ok R E sk l n last :
  drv_sock R sk -> wf_env E -> lp_inv l ->
  returns (tcp_lp_pkts_acked E sk l n last) (fun '(sk', l') => drv_step R sk sk' /\ lp_inv l').
Proof.
  intros Hs [] Hl. unfold tcp_lp_pkts_acked. eapply returns_bind with (P := lp_inv).
  { case_cond; [|done]. eapply returns_mono; [apply rtt_sample_returns; [apply Hs|done]|].
    by intros l' []. }
  intros l1 Hl1. destruct (lp_tests_spec E sk l1 Hl1) as (Hl2 & _).
  set (l2 := lp_tests E sk l1) in *. clearbody l2. cbv zeta.
  case_top Hthr; [by split; [apply drv_step_refl|]|]. cbn [returns]. split.
  - split; [|by case_cond]. destruct Hs as [[] Hw ? ? ? ?]. unfold window_max in *.
    assert (1 <= Z.max (snd_cwnd sk ≫ 1) 1 <= 16777216).
    { rewrite Z.shiftr_div_pow2 by lia. change (2 ^ 1) with 2. Z.div_mod_to_equations; lia. }
    case_cond; (constructor; [constructor|..]); cbn -[Z.max]; unfold window_max; done || lia.
  - destruct Hl2. pose proof (shr_range (sowd l2) 3 4294967296 lp_sowd) as [|]; [|lia].
    pose proof (shr_range (sowd l2) 2 4294967296 lp_sowd) as [|]; [|lia].
    constructor; cbn; done.
Qed.

#[export] Instance lp_module : CongModule tcp_lp.
Proof.
  refine (Build_CongModule _ _ 32767 _ (fun _ => True) (fun _ => lp_inv)
    (fun _ => True) _ _ _ _ _ _ _ _ _ _ _ _ _ _);
    cong_module tcp_lp.
  - apply lp_pkts_acked_ok; [done|apply H|done].
  - eapply returns_bind with (P := drv_step 32767 sk).
    + unfold tcp_lp_cong_avoid. case_cond; [by apply reno_cong_avoid_step|by apply drv_step_refl].
    + by intros sk' Hs'.
Defined.

(** * The modules together *)

Record linux_module := mk_linux_module {
  lm_state : Type;
  lm_ops : tcp_congestion_ops lm_state;
  lm_contract : CongModule lm_ops;
  lm_zero : lm_state;         (* zeroed memory *)
}.
#[export] Existing Instance lm_contract.

Definition linux_modules : list linux_module := [
  mk_linux_module _ tcp_reno _ tt;
  mk_linux_module _ (Bic.bictcp_ops Bic.bic_defaults) _ (Bic.mk_bictcp 0 0 0 0 0 0 0);
  mk_linux_module _ (Cubic.cubictcp Cubic.cubic_registered) _ (Cubic.mk_bictcp 0 0 0 0 0 0 0 0 0 0 0 0);
  mk_linux_module _ tcp_highspeed _ (mk_hstcp 0);
  mk_linux_module _ (htcp_ops htcp_defaults) _ (mk_htcp 0 0 0 0 0 0 0 0 0 0 0 0 0 0 0 0);
  mk_linux_module _ (tcp_hybla rtt0_default) _ (mk_hybla 0 0 0 0 0 0 0);
  mk_linux_module _ (tcp_vegas vegas_defaults) _ (mk_vegas 0 0 0 0 0 0 0);
  mk_linux_module _ tcp_veno _ (mk_veno 0 0 0 0 0 0);
  mk_linux_module _ tcp_scalable _ tt;
  mk_linux_module _ tcp_lp _ (mk_lp 0 0 0 0 0 0 0 0 0 0);
  mk_linux_module _ (tcp_illinois illinois_defaults) _ (mk_illinois 0 0 0 0 0 0 0 0 0 0) ].

(** In every run of the agent with [m], every event is handled, and the window
    and the threshold stay in bounds. *)
Definition runs_safely (m : linux_module) : Prop :=
  forall tcp_max_burst k (a : agent (lm_state m)),
  1 <= tcp_max_burst <= 255 -> reach (lm_ops m) tcp_max_burst k a -> k < 2147483648 ->
  (forall ev, valid (lm_ops m) a ev -> exists a', drive (lm_ops m) tcp_max_burst ev a = Ok a'
     /\ (blank (lm_ops m) a -> blank (lm_ops m) a'))
  /\ 1 <= snd_cwnd (linux_ a) <= window_max
  /\ 2 <= snd_ssthresh (linux_ a) <= window_max.

Definition cubic_agent_ex : agent Cubic.bictcp := mk_agent
  (linux_ agent_ex) Cubic.cubic_ex false 0 (-1) 2 1 (-1) 0 0 (settings_ agent_ex).

Definition cubic_agent_ex1 : agent Cubic.bictcp := Eval vm_compute in
  match drive (Cubic.cubictcp Cubic.cubic_registered) 3 (EvAck ack_ex) cubic_agent_ex with
  | Ok a => a | Trap _ => cubic_agent_ex end.

Lemma cubic_agent_ex1_eq :
  drive (Cubic.cubictcp Cubic.cubic_registered) 3 (EvAck ack_ex) cubic_agent_ex
  = Ok cubic_agent_ex1.
Proof. vm_compute. reflexivity. Qed.

(** * Properties *)

(** C3: the agent of tcp-linux.cc runs safely with the eleven modules Reno, BIC,
    CUBIC, HighSpeed, H-TCP, Hybla, Vegas, Veno, Scalable, LP and Illinois, at
    their default parameters, as long as no RTT sample is above 624 ms with
    Hybla (beyond it the increment of its slow start can overflow, and beyond 800
    ms the shift is wider than an int) and above 32767 ms with the others: no callback divides by zero, reads outside a table,
    shifts too far or loops for ever, a window of zero segments or one beyond the
    bound is never reached, and the threshold never falls below two segments.
    Timeouts before the first acknowledgement are handled when the private memory
    of the module is blank, as it is for each of them when it is zeroed, and it
    stays so until the module is initialised. *)
Theorem linux_modules_safe :
  map (fun m => (ops_name (lm_ops m), cm_rtt_max (ops := lm_ops m))) linux_modules =
    [("reno", 32767); ("bic", 32767); ("cubic", 32767); ("highspeed", 32767); ("htcp", 32767); ("hybla", 624);
     ("vegas", 32767); ("veno", 32767); ("scalable", 32767); ("lp", 32767); ("illinois", 32767)]%string
  /\ Forall (fun m => cm_blank (ops := lm_ops m) (lm_zero m)) linux_modules
  /\ Forall runs_safely linux_modules.
Proof.
  split; [done|]. split; [repeat constructor; cbn; done || lia|].
  apply Forall_forall. intros m _ tcp_max_burst k a Hb Hr Hk.
  destruct (reach_inv _ tcp_max_burst Hb k a Hr ltac:(lia)) as [Hk0 Ha].
  split.
  - intros ev Hv. pose proof (drive_inv _ tcp_max_burst Hb k a ev Ha ltac:(lia) Hv) as Hd.
    apply returns_inv in Hd as (a' & -> & _ & Hbl). by exists a'.
  - destruct Ha as [[_ [] _ _ _ _]|[_ [] _ _ _ _]]; done.
Qed.

Lemma linux_modules_safe_witness :
  let m := mk_linux_module _ (Cubic.cubictcp Cubic.cubic_registered) _ (Cubic.mk_bictcp 0 0 0 0 0 0 0 0 0 0 0 0) in
  (forall ev, valid (lm_ops m) cubic_agent_ex1 ev ->
     exists a', drive (lm_ops m) 3 ev cubic_agent_ex1 = Ok a'
       /\ (blank (lm_ops m) cubic_agent_ex1 -> blank (lm_ops m) a'))
  /\ 1 <= snd_cwnd (linux_ cubic_agent_ex1) <= window_max
  /\ 2 <= snd_ssthresh (linux_ cubic_agent_ex1) <= window_max.
Proof.
  intros m. pose proof (proj2 (proj2 linux_modules_safe)) as Hall.
  rewrite List.Forall_forall in Hall. specialize (Hall m ltac:(right; right; by left)).
  apply (Hall 3 (0 + 1)); [lia| |lia].
  eapply reach_step; [apply reach_start| |apply cubic_agent_ex1_eq].
  - constructor; cbn; try done; by constructor.
  - cbn. unfold acked_max, window_max, ok_last. split; [apply wf_env_ex|]. naive_solver lia.
Defined.
