(* ===== verification/Scoreboard.v ===== *)
(** The scoreboard of the TCP-Linux agent (scoreboard1.cc, scoreboard1.h): what
    is known of each packet in flight, as a linked list of blocks of packets
    with the same status, and the counts the agent computes its window from. *)
From stdpp Require Import sets list_numbers.
From S2P Require Import Prelude.

(** * Definitions *)

(** ** Blocks *)

Inductive skb_flag : Set :=
  | SKB_FLAG_INFLIGHT         (* 0 *)
  | SKB_FLAG_SACKED           (* 1 *)
  | SKB_FLAG_LOST             (* 2 *)
  | SKB_FLAG_RETRANSMITTED.   (* 4 *)
#[global] Instance skb_flag_eq_dec : EqDecision skb_flag.
Proof. solve_decision. Defined.

(** A node of the list; [addr_] is its address.  The constructor leaves
    [retran_] unset, and only retransmitted nodes are asked for it. *)
Record ScoreBoardNode1 := mk_node {
  addr_ : Z;
  flag_ : skb_flag;
  seq_ : Z;
  nxt_ : Z;                   (* the right edge, or snd_nxt when retransmitted *)
  retran_ : Z;
}.
#[global] Instance eta_node : Eta ScoreBoardNode1 := fun r =>
  mk_node (addr_ r) (flag_ r) (seq_ r) (nxt_ r) (retran_ r).

Definition is_flag (f : skb_flag) (n : ScoreBoardNode1) : bool := bool_decide (flag_ n = f).
Abbreviation retransmitted := (is_flag SKB_FLAG_RETRANSMITTED).

Definition GetEnd (n : ScoreBoardNode1) : Z := if retransmitted n then seq_ n else nxt_ n.
Definition GetLength (n : ScoreBoardNode1) : Z :=
  if retransmitted n then 1 else nxt_ n + 1 - seq_ n.
Definition SetFlag (f : skb_flag) (n : ScoreBoardNode1) : ScoreBoardNode1 :=
  (if retransmitted n then n <| nxt_ := seq_ n |> else n) <| flag_ := f |>.
Definition Inside (seq : Z) (n : ScoreBoardNode1) : bool :=
  if retransmitted n then seq =? seq_ n else (seq_ n <=? seq) && (seq <=? nxt_ n).
Definition ShouldClean (ackseq : Z) (n : ScoreBoardNode1) : Z :=
  if ackseq <? seq_ n then 0
  else if retransmitted n || (nxt_ n <=? ackseq) then -1
  else ackseq + 1 - seq_ n.
Definition Mergable (n next : ScoreBoardNode1) : bool :=
  negb (retransmitted next) && bool_decide (flag_ next = flag_ n).
Definition Merge (n next : ScoreBoardNode1) : ScoreBoardNode1 := n <| nxt_ := nxt_ next |>.

(** [Split seq]: the shortened block, and the new one at address [a]. *)
Definition Split (a seq : Z) (n : ScoreBoardNode1) : ScoreBoardNode1 * ScoreBoardNode1 :=
  (n <| nxt_ := seq - 1 |>, mk_node a (flag_ n) seq (nxt_ n) 0).

(** ** The board; [brk_] is the address of the next allocation *)

Record ScoreBoard1 := mk_board {
  blocks : list ScoreBoardNode1;      (* from head_ *)
  nxt_to_retrx_ : option Z;           (* NULL, or an address *)
  acked_rtx_id_ : Z;
  rtx_id_ : Z;
  fack_ : Z;
  fack_out_ : Z;
  sack_out_ : Z;
  last_rtx_seq_ : Z;
  brk_ : Z;
}.
#[global] Instance eta_board : Eta ScoreBoard1 := fun r =>
  mk_board (blocks r) (nxt_to_retrx_ r) (acked_rtx_id_ r) (rtx_id_ r) (fack_ r)
    (fack_out_ r) (sack_out_ r) (last_rtx_seq_ r) (brk_ r).

Definition packets_in_flight (snd_una snd_nxt : Z) (b : ScoreBoard1) : Z :=
  snd_nxt - snd_una - fack_out_ b - sack_out_ b.

Definition ClearScoreBoard (b : ScoreBoard1) : ScoreBoard1 :=
  b <| rtx_id_ := 0 |> <| acked_rtx_id_ := -1 |> <| fack_out_ := 0 |> <| sack_out_ := 0 |>
    <| fack_ := 0 |> <| nxt_to_retrx_ := None |> <| blocks := [] |>.

Definition FLAG_DATA_SACKED : Z := 2.
Definition FLAG_DATA_LOST : Z := 8.
Definition FLAG_UNSURE_TSTAMP : Z := 16.

Definition c_assert (x : bool) : outcome unit := if x then Ok () else Trap AssertFail.

(** ** CleanRtxQueue *)

(** The counts when [pkt_num] packets leave the head block. *)
Definition clean_counts (n : ScoreBoardNode1) (pkt_num : Z) (b : ScoreBoard1) : outcome ScoreBoard1 :=
  match flag_ n with
  | SKB_FLAG_SACKED =>
      let b := b <| sack_out_ := sack_out_ b - pkt_num |> in
      _ ← c_assert (0 <=? sack_out_ b); Ok b
  | SKB_FLAG_LOST =>
      let b := b <| fack_out_ := fack_out_ b - pkt_num |> in
      _ ← c_assert (0 <=? fack_out_ b); Ok b
  | _ => Ok b
  end.

(** The loop over the blocks; returns the board, the flags and whether a
    retransmission was acknowledged. *)
Fixpoint clean_blocks (last_ack : Z) (l : list ScoreBoardNode1) (b : ScoreBoard1)
  (flag : Z) (changed : bool) : outcome (ScoreBoard1 * Z * bool) :=
  match l with
  | [] => Ok (b <| blocks := [] |>, flag, changed)
  | n :: l' =>
      let cmp := ShouldClean last_ack n in
      if cmp =? 0 then Ok (b <| blocks := l |>, flag, changed)
      else
        b ← clean_counts n (if cmp <? 0 then GetLength n else cmp) b;
        if cmp <? 0 then
          let '(b, flag, changed) :=
            if retransmitted n then
              let '(b, changed) :=
                if acked_rtx_id_ b <? retran_ n then (b <| acked_rtx_id_ := retran_ n |>, true)
                else (b, changed) in
              (b, Z.lor flag FLAG_UNSURE_TSTAMP, changed)
            else (b, flag, changed) in
          let b := if bool_decide (nxt_to_retrx_ b = Some (addr_ n))
                   then b <| nxt_to_retrx_ := addr_ <$> head l' |> else b in
          clean_blocks last_ack l' b flag changed
        else Ok (b <| blocks := (n <| seq_ := last_ack + 1 |>) :: l' |>, flag, changed)
  end.

Definition CleanRtxQueue (last_ack flag : Z) (b : ScoreBoard1) : outcome (ScoreBoard1 * Z * bool) :=
  clean_blocks last_ack (blocks b) b flag false.

(** ** UpdateScoreBoard *)

(** The SACK blocks [(left, right)], right edge excluded, those left of
    [last_ack] dropped and the others in increasing order of their left edge:
    insertion from the right. *)
Fixpoint insert_sack (s : Z * Z) (rev_l : list (Z * Z)) : list (Z * Z) :=
  match rev_l with
  | t :: l' => if s.1 <? t.1 then t :: insert_sack s l' else s :: rev_l
  | [] => [s]
  end.
Definition sort_sacks (last_ack : Z) (sacks : list (Z * Z)) : list (Z * Z) :=
  rev (fold_left (fun acc s => if last_ack <=? s.1 then insert_sack s acc else acc) sacks []).

(** [while (sack_index < sa_length && right[sack_index] <= start) sack_index++] *)
Fixpoint skip_sacks (start : Z) (sacks : list (Z * Z)) : list (Z * Z) :=
  match sacks with
  | (l, r) :: s' => if r <=? start then skip_sacks start s' else sacks
  | [] => []
  end.

(** The traversal: the blocks before [now], the last ([prev]) first; [now] and
    the blocks after it; the sacks left, from [sack_index] on. *)
Record traversal := mk_traversal {
  z_prev : list ScoreBoardNode1;
  z_now : ScoreBoardNode1;
  z_rest : list ScoreBoardNode1;
  z_sacks : list (Z * Z);
  z_thorough : bool;
  z_flag : Z;
  z_sb : ScoreBoard1;
}.
#[global] Instance eta_traversal : Eta traversal := fun r =>
  mk_traversal (z_prev r) (z_now r) (z_rest r) (z_sacks r) (z_thorough r) (z_flag r) (z_sb r).

(** [now->Split(seq)] *)
Definition split_now (seq : Z) (z : traversal) : traversal :=
  let '(n, m) := Split (brk_ (z_sb z)) seq (z_now z) in
  z <| z_now := n |> <| z_rest := m :: z_rest z |> <| z_sb := (z_sb z) <| brk_ := brk_ (z_sb z) + 1 |> |>.

(** All of [now] is in the SACK block. *)
Definition sack_now (z : traversal) : traversal :=
  let n := z_now z in
  let b := z_sb z in
  let pktnum := GetLength n in
  let z :=
    match flag_ n with
    | SKB_FLAG_LOST => z <| z_sb := b <| fack_out_ := fack_out_ b - pktnum |> |>
    | SKB_FLAG_RETRANSMITTED =>
        z <| z_sb := b <| acked_rtx_id_ := retran_ n |> |>
          <| z_flag := Z.lor (z_flag z) FLAG_UNSURE_TSTAMP |> <| z_thorough := true |>
    | _ => z
    end in
  let b := z_sb z in
  z <| z_sb := b <| sack_out_ := sack_out_ b + pktnum |> |>
    <| z_flag := Z.lor (z_flag z) FLAG_DATA_SACKED |> <| z_now := SetFlag SKB_FLAG_SACKED n |>.

(** [now] against the first SACK block that ends after its start. *)
Definition sack_step (z : traversal) : traversal :=
  let z := z <| z_sacks := skip_sacks (seq_ (z_now z)) (z_sacks z) |> in
  match z_sacks z with
  | (l, r) :: _ =>
      if l <=? GetEnd (z_now z) then
        if seq_ (z_now z) <? l then split_now l z
        else sack_now (if r <=? GetEnd (z_now z) then split_now r z else z)
      else z
  | [] => z
  end.

(** [if (!nxt_to_retrx_) nxt_to_retrx_ = now] *)
Definition set_retrx (a : Z) (b : ScoreBoard1) : ScoreBoard1 :=
  match nxt_to_retrx_ b with None => b <| nxt_to_retrx_ := Some a |> | Some _ => b end.

(** [now] becomes lost. *)
Definition lose_now (z : traversal) : traversal :=
  let n := SetFlag SKB_FLAG_LOST (z_now z) in
  let b := z_sb z in
  let b := b <| fack_out_ := fack_out_ b + GetLength n |> in
  z <| z_now := n |> <| z_sb := set_retrx (addr_ n) b |>
    <| z_flag := Z.lor (z_flag z) FLAG_DATA_LOST |>.

(** [now] is not in a SACK block: is it lost? *)
Definition loss_step (dupack_threshold lost_seq_threshold : Z) (z : traversal) : traversal :=
  let n := z_now z in
  if match z_sacks z with [] => true | (l, _) :: _ => GetEnd n <? l end then
    match flag_ n with
    | SKB_FLAG_RETRANSMITTED =>
        if (nxt_ n <=? fack_ (z_sb z))
           || (retran_ n + dupack_threshold + 1 <? acked_rtx_id_ (z_sb z))
        then lose_now z else z
    | SKB_FLAG_INFLIGHT =>
        if seq_ n <=? lost_seq_threshold then
          lose_now (if lost_seq_threshold <? GetEnd n then split_now (lost_seq_threshold + 1) z else z)
        else z
    | SKB_FLAG_LOST => z <| z_sb := set_retrx (addr_ n) (z_sb z) |>
    | SKB_FLAG_SACKED => z
    end
  else z.

(** What follows [now] after the merge with [prev] and the extension of the
    last block: the blocks up to [prev], and the blocks from the next [now]. *)
Definition merge_step (z : traversal) : list ScoreBoardNode1 * list ScoreBoardNode1 * ScoreBoard1 :=
  let '(prev, done) :=
    match z_prev z with
    | p :: d => if Mergable p (z_now z) then (Merge p (z_now z), d) else (z_now z, z_prev z)
    | [] => (z_now z, [])
    end in
  let b := z_sb z in
  match z_rest z with
  | [] =>
      if GetEnd prev <? fack_ b
      then (prev :: done, [mk_node (brk_ b) SKB_FLAG_INFLIGHT (GetEnd prev + 1) (fack_ b) 0],
            b <| brk_ := brk_ b + 1 |>)
      else (prev :: done, [], b)
  | rest => (prev :: done, rest, b)
  end.

(** The loop: its state is the traversal with [now] still on the list. *)
Record walk := mk_walk {
  w_prev : list ScoreBoardNode1;
  w_list : list ScoreBoardNode1;      (* from now *)
  w_sacks : list (Z * Z);
  w_thorough : bool;
  w_flag : Z;
  w_sb : ScoreBoard1;
}.

Definition walk_cond (w : walk) : bool :=
  match w_list w with
  | [] => false
  | _ => match w_sacks w with [] => w_thorough w | _ => true end
  end.

Definition walk_body (dupack_threshold lost_seq_threshold : Z) (w : walk) : outcome walk :=
  match w_list w with
  | [] => Trap NullDeref
  | n :: rest =>
      let z := mk_traversal (w_prev w) n rest (w_sacks w) (w_thorough w) (w_flag w) (w_sb w) in
      let z := if is_flag SKB_FLAG_SACKED n then z
               else loss_step dupack_threshold lost_seq_threshold (sack_step z) in
      let '(done, rest, b) := merge_step z in
      Ok (mk_walk done rest (z_sacks z) (z_thorough z) (z_flag z) b)
  end.

Definition UpdateScoreBoard (last_ack : Z) (sacks : list (Z * Z)) (dupack_threshold : Z)
  (b : ScoreBoard1) : outcome (ScoreBoard1 * Z) :=
  '(b, flag, thorough) ← CleanRtxQueue last_ack 0 b;
  let '(b, thorough) :=
    match blocks b with [] => (ClearScoreBoard b, false) | _ => (b, thorough) end in
  if negb thorough && bool_decide (sacks = []) then Ok (b, flag)
  else
    let sorted := sort_sacks last_ack sacks in
    if negb thorough && bool_decide (sorted = []) then Ok (b, flag)
    else
      let '(b, thorough) :=
        match last sorted with
        | Some (_, r) =>
            if fack_ b <? r - 1 then (b <| fack_ := r - 1 |>, true) else (b, thorough)
        | None => (b, thorough)
        end in
      let b :=
        match blocks b with
        | [] => b <| blocks := [mk_node (brk_ b) SKB_FLAG_INFLIGHT (last_ack + 1) (fack_ b) 0] |>
                  <| brk_ := brk_ b + 1 |>
        | _ => b
        end in
      let b := b <| nxt_to_retrx_ := None |> in
      w ← c_while walk_cond
            (walk_body dupack_threshold (fack_ b - (dupack_threshold + 1)))
            (mk_walk [] (blocks b) sorted thorough flag b);
      Ok ((w_sb w) <| blocks := rev (w_prev w) ++ w_list w |>, w_flag w).

(** ** MarkLoss, and the retransmissions *)

(** The loop of MarkLoss on the blocks before [now] ([prev] first) and from
    [now] on. *)
Record marking := mk_marking {
  m_prev : list ScoreBoardNode1;
  m_list : list ScoreBoardNode1;
  m_last_lost : bool;
  m_sb : ScoreBoard1;
}.

(** The status of [now]: the blocks up to it, the board, [last_lost]. *)
Definition mark_now (prev : list ScoreBoardNode1) (now : ScoreBoardNode1) (last_lost : bool)
  (b : ScoreBoard1) : outcome (list ScoreBoardNode1 * ScoreBoard1 * bool) :=
  if is_flag SKB_FLAG_SACKED now then Ok (now :: prev, b, false)
  else
    let b := if is_flag SKB_FLAG_LOST now then b
             else b <| fack_out_ := fack_out_ b + (GetEnd now - seq_ now + 1) |> in
    let now := SetFlag SKB_FLAG_LOST now in
    if last_lost then
      match prev with
      | p :: d => Ok (Merge p now :: d, b, true)
      | [] => Trap NullDeref
      end
    else Ok (now :: prev, set_retrx (addr_ now) b, true).

Definition mark_body (snd_nxt : Z) (m : marking) : outcome marking :=
  match m_list m with
  | [] => Trap NullDeref
  | now :: rest =>
      '(done, b, last_lost) ← mark_now (m_prev m) now (m_last_lost m) (m_sb m);
      match done, rest with
      | prev :: _, [] =>
          if GetEnd prev + 1 <? snd_nxt
          then Ok (mk_marking done [mk_node (brk_ b) SKB_FLAG_INFLIGHT (GetEnd prev + 1) (snd_nxt - 1) 0]
                     last_lost (b <| brk_ := brk_ b + 1 |>))
          else Ok (mk_marking done [] last_lost b)
      | _, _ => Ok (mk_marking done rest last_lost b)
      end
  end.

Definition MarkLoss (snd_una snd_nxt : Z) (b : ScoreBoard1) : outcome ScoreBoard1 :=
  let b := b <| nxt_to_retrx_ := None |> in
  m ← c_while (fun m => match m_list m with [] => false | _ => true end) (mark_body snd_nxt)
        (mk_marking [] (blocks b) false b);
  let b := (m_sb m) <| blocks := rev (m_prev m) |> in
  let b :=
    match m_prev m with
    | [] =>
        if snd_una <? snd_nxt then
          b <| blocks := [mk_node (brk_ b) SKB_FLAG_LOST snd_una (snd_nxt - 1) 0] |>
            <| nxt_to_retrx_ := Some (brk_ b) |>
            <| fack_out_ := fack_out_ b + (snd_nxt - snd_una) |> <| brk_ := brk_ b + 1 |>
        else b
    | _ => b
    end in
  Ok (b <| rtx_id_ := 0 |> <| acked_rtx_id_ := -1 |>).

(** The blocks from the one at address [a]: a freed block has no address. *)
Fixpoint from_addr (a : Z) (l : list ScoreBoardNode1) : option (list ScoreBoardNode1) :=
  match l with
  | [] => None
  | n :: l' => if addr_ n =? a then Some l else from_addr a l'
  end.

(** [*nxt_to_retrx_] and what follows it. *)
Definition deref_retrx (b : ScoreBoard1) : outcome (list ScoreBoardNode1) :=
  match nxt_to_retrx_ b with
  | None => Ok []
  | Some a => match from_addr a (blocks b) with Some l => Ok l | None => Trap UseAfterFree end
  end.

Fixpoint first_lost (l : list ScoreBoardNode1) : option ScoreBoardNode1 :=
  match l with
  | [] => None
  | n :: l' => if is_flag SKB_FLAG_LOST n then Some n else first_lost l'
  end.

Definition GetNextRetran (b : ScoreBoard1) : outcome (Z * ScoreBoard1) :=
  l ← deref_retrx b;
  let n := first_lost l in
  Ok (match n with Some n => seq_ n | None => -1 end, b <| nxt_to_retrx_ := addr_ <$> n |>).

(** ScoreBoardNode1::MarkRetran *)
Definition node_mark_retran (a snd_nxt rtx_id : Z) (n : ScoreBoardNode1) : list ScoreBoardNode1 :=
  let '(n, rest) :=
    if seq_ n <? nxt_ n then let '(n, m) := Split a (seq_ n + 1) n in (n, [m]) else (n, []) in
  (n <| flag_ := SKB_FLAG_RETRANSMITTED |> <| nxt_ := snd_nxt |> <| retran_ := rtx_id |>) :: rest.

Fixpoint at_addr (a : Z) (f : ScoreBoardNode1 -> list ScoreBoardNode1) (l : list ScoreBoardNode1)
  : list ScoreBoardNode1 :=
  match l with
  | [] => []
  | n :: l' => if addr_ n =? a then f n ++ l' else n :: at_addr a f l'
  end.

Definition MarkRetran (retran_seqno snd_nxt : Z) (b : ScoreBoard1) : outcome ScoreBoard1 :=
  l ← deref_retrx b;
  match l with
  | [] => Trap AssertFail
  | n :: _ =>
      _ ← c_assert (Inside retran_seqno n);
      let b := b <| fack_out_ := fack_out_ b - 1 |> in
      _ ← c_assert (0 <=? fack_out_ b);
      Ok (b <| blocks := at_addr (addr_ n) (node_mark_retran (brk_ b) snd_nxt (rtx_id_ b)) (blocks b) |>
            <| brk_ := brk_ b + 1 |> <| rtx_id_ := rtx_id_ b + 1 |>
            <| last_rtx_seq_ := retran_seqno |>)
  end.

(** ** Invariant and specification *)

(** The blocks from [lo] on are adjacent and not empty. *)
Fixpoint chain (lo : Z) (l : list ScoreBoardNode1) : Prop :=
  match l with
  | [] => True
  | n :: l' => seq_ n = lo /\ seq_ n <= GetEnd n /\ chain (GetEnd n + 1) l'
  end.
Fixpoint chain_end (lo : Z) (l : list ScoreBoardNode1) : Z :=
  match l with [] => lo | n :: l' => chain_end (GetEnd n + 1) l' end.

(** The number of packets with status [f]. *)
Fixpoint count (f : skb_flag) (l : list ScoreBoardNode1) : Z :=
  match l with [] => 0 | n :: l' => (if is_flag f n then GetLength n else 0) + count f l' end.

(** What is known of packet [p]. *)
Fixpoint status (l : list ScoreBoardNode1) (p : Z) : option skb_flag :=
  match l with
  | [] => None
  | n :: l' => if Inside p n then Some (flag_ n) else status l' p
  end.

(** The blocks [l] are well formed, their addresses are below [brk], [fo] and
    [so] count them. *)
Record wf_blocks (lo : Z) (l : list ScoreBoardNode1) (brk fo so : Z) : Prop := mk_wf_blocks {
  wb_chain : chain lo l;
  wb_nodup : NoDup (addr_ <$> l);
  wb_brk : Forall (fun n => addr_ n < brk) l;
  wb_fack_out : fo = count SKB_FLAG_LOST l;
  wb_sack_out : so = count SKB_FLAG_SACKED l;
}.

(** The whole list of a traversal. *)
Definition z_all (z : traversal) : list ScoreBoardNode1 := rev (z_prev z) ++ z_now z :: z_rest z.
Definition w_all (w : walk) : list ScoreBoardNode1 := rev (w_prev w) ++ w_list w.

(** What a traversal keeps: the blocks are well formed and span [una .. e-1],
    [fack_] is [f], [now] starts at [s] and the blocks before it are [P]. *)
Record trav_inv (una e f s : Z) (P : list ScoreBoardNode1) (z : traversal) : Prop := mk_trav_inv {
  ti_wf : wf_blocks una (z_all z) (brk_ (z_sb z)) (fack_out_ (z_sb z)) (sack_out_ (z_sb z));
  ti_end : chain_end una (z_all z) = e;
  ti_fack : fack_ (z_sb z) = f;
  ti_seq : seq_ (z_now z) = s;
  ti_prev : z_prev z = P;
}.

(** The invariant of the loop of UpdateScoreBoard, for data sent up to [hi]:
    the block to retransmit next is one of those behind, and is known as soon
    as one of those behind is lost. *)
Record walk_inv (una hi : Z) (w : walk) : Prop := mk_walk_inv {
  wi_wf : wf_blocks una (w_all w) (brk_ (w_sb w)) (fack_out_ (w_sb w)) (sack_out_ (w_sb w));
  wi_end : chain_end una (w_all w) <= hi;
  wi_fack : fack_ (w_sb w) < hi;
  wi_retrx : forall a, nxt_to_retrx_ (w_sb w) = Some a -> In a (addr_ <$> w_prev w);
  wi_lost : forall n, In n (w_prev w) -> flag_ n = SKB_FLAG_LOST -> nxt_to_retrx_ (w_sb w) <> None;
}.

Definition sacked (l : list ScoreBoardNode1) (p : Z) : Prop := status l p = Some SKB_FLAG_SACKED.

(** The loop of MarkLoss, started on the blocks [l0], with the blocks [prev]
    behind and [rest] ahead: those behind are lost or sacked, and no sacked
    packet is forgotten. *)
Record mark_inv (una hi : Z) (l0 prev rest : list ScoreBoardNode1) (last_lost : bool)
  (b : ScoreBoard1) : Prop := mk_mark_inv {
  mi_wf : wf_blocks una (rev prev ++ rest) (brk_ b) (fack_out_ b) (sack_out_ b);
  mi_end : chain_end una (rev prev ++ rest) <= hi;
  mi_retrx : forall a, nxt_to_retrx_ b = Some a -> In a (addr_ <$> prev);
  mi_lost : last_lost = true -> exists p d, prev = p :: d /\ flag_ p = SKB_FLAG_LOST
              /\ nxt_to_retrx_ b <> None;
  mi_marked : forall n, In n prev -> flag_ n = SKB_FLAG_LOST \/ flag_ n = SKB_FLAG_SACKED;
  mi_sacked : forall p, sacked (rev prev ++ rest) p <-> sacked l0 p;
}.

(** The board of an agent that has received the acknowledgement of all the
    packets below [una] and sent all those below [hi]. *)
Record sb_inv (una hi : Z) (b : ScoreBoard1) : Prop := mk_sb_inv {
  sb_wf : wf_blocks una (blocks b) (brk_ b) (fack_out_ b) (sack_out_ b);
  sb_end : chain_end una (blocks b) <= hi;
  sb_fack : match blocks b with [] => fack_ b = 0 | _ => fack_ b < hi end;
  sb_retrx : forall a, nxt_to_retrx_ b = Some a -> In a (addr_ <$> blocks b);
}.

(** Packet [p] is in flight as far as the board [l] knows, and the number of
    packets of [lo .. hi-1] that are. *)
Definition in_flight (l : list ScoreBoardNode1) (p : Z) : Prop :=
  status l p <> Some SKB_FLAG_LOST /\ status l p <> Some SKB_FLAG_SACKED.
#[global] Instance in_flight_dec l p : Decision (in_flight l p).
Proof. unfold in_flight. apply _. Defined.
Definition number_in_flight (l : list ScoreBoardNode1) (lo hi : Z) : Z :=
  Z.of_nat (length (filter (in_flight l) (seqZ lo (hi - lo)))).

(** The SACK blocks of an acknowledgement are old (D-SACKs), or cover data
    sent and not yet acknowledged. *)
Definition valid_sacks (last_ack hi : Z) (sacks : list (Z * Z)) : Prop :=
  forall l r, In (l, r) sacks -> l < last_ack \/ last_ack < l < r /\ r <= hi.

(** ** Runs *)

(** What the agent does to its board: an acknowledgement with its SACK blocks,
    the retransmission timeout, a retransmission (send_much), new data up to
    [n], the end of a recovery. *)
Inductive sb_event : Type :=
  | SbAck (last_ack : Z) (sacks : list (Z * Z))
  | SbTimeout
  | SbRetransmit
  | SbSend (n : Z)
  | SbClear.

(** The first packet not acknowledged, the next to send, and the board. *)
Record sb_state := mk_sb_state { una : Z; snx : Z; board : ScoreBoard1 }.

Definition sb_retransmit (snd_nxt : Z) (b : ScoreBoard1) : outcome ScoreBoard1 :=
  '(s, b) ← GetNextRetran b; if s =? -1 then Ok b else MarkRetran s snd_nxt b.

Definition sb_run (dupack_threshold : Z) (ev : sb_event) (st : sb_state) : outcome sb_state :=
  let b := board st in
  match ev with
  | SbAck last_ack sacks =>
      '(b, _) ← UpdateScoreBoard last_ack sacks dupack_threshold b;
      Ok (mk_sb_state (last_ack + 1) (snx st) b)
  | SbTimeout => b ← MarkLoss (una st) (snx st) b; Ok (mk_sb_state (una st) (snx st) b)
  | SbRetransmit => b ← sb_retransmit (snx st) b; Ok (mk_sb_state (una st) (snx st) b)
  | SbSend n => Ok (mk_sb_state (una st) n b)
  | SbClear => Ok (mk_sb_state (una st) (snx st) (ClearScoreBoard b))
  end.

Definition sb_valid (ev : sb_event) (st : sb_state) : Prop :=
  match ev with
  | SbAck last_ack sacks =>
      una st <= last_ack + 1 <= snx st /\ valid_sacks last_ack (snx st) sacks
  | SbSend n => snx st <= n < 2147483648
  | _ => True
  end.

Definition sb_init : sb_state :=
  mk_sb_state 0 0 (ClearScoreBoard (mk_board [] None 0 0 0 0 0 (-1) 0)).

Inductive sb_reach (dupack_threshold : Z) : sb_state -> Prop :=
  | sb_reach_init : sb_reach dupack_threshold sb_init
  | sb_reach_step ev st st' :
      sb_reach dupack_threshold st -> sb_valid ev st ->
      sb_run dupack_threshold ev st = Ok st' -> sb_reach dupack_threshold st'.

(** ** Example runs *)

(** Twenty packets sent, the first acknowledged, 6 and 7 sacked: 1 to 3 are
    lost; and the board once packet 1 is retransmitted. *)
Definition sb_sent : sb_state := Eval vm_compute in mk_sb_state 0 20 (board sb_init).
Definition sb_lost : sb_state := Eval vm_compute in
  match sb_run 3 (SbAck 0 [(6, 8)]) sb_sent with Ok st => st | Trap _ => sb_init end.
Definition sb_rtx : sb_state := Eval vm_compute in
  match sb_run 3 SbRetransmit sb_lost with Ok st => st | Trap _ => sb_init end.

(** * Lemmas *)

(** ** Lists of blocks *)

Lemma is_flag_true f n : is_flag f n = true <-> flag_ n = f.
Proof. apply bool_decide_eq_true. Qed.
Lemma is_flag_false f n : is_flag f n = false <-> flag_ n <> f.
Proof. apply bool_decide_eq_false. Qed.

Lemma chain_app lo a b : chain lo (a ++ b) <-> chain lo a /\ chain (chain_end lo a) b.
Proof. revert lo. induction a as [|n a IH]; intros lo; cbn; [tauto|]. rewrite IH. tauto. Qed.

Lemma chain_end_app lo a b : chain_end lo (a ++ b) = chain_end (chain_end lo a) b.
Proof. revert lo. induction a as [|n a IH]; intros lo; cbn; [done|]. apply IH. Qed.

Lemma chain_end_ge lo l : chain lo l -> lo <= chain_end lo l.
Proof.
  revert lo. induction l as [|n l IH]; intros lo; cbn; [lia|]. intros (Hs & He & Hc).
  specialize (IH _ Hc). lia.
Qed.

Lemma chain_end_gt lo n l : chain lo (n :: l) -> seq_ n = lo /\ lo < chain_end lo (n :: l).
Proof. cbn. intros (Hs & He & Hc). apply chain_end_ge in Hc. lia. Qed.

Lemma count_app f a b : count f (a ++ b) = count f a + count f b.
Proof. induction a as [|n a IH]; cbn; [done|]. rewrite IH. lia. Qed.

Lemma count_nonneg f lo l : chain lo l -> 0 <= count f l.
Proof.
  revert lo. induction l as [|n l IH]; intros lo; cbn; [lia|]. intros (Hs & He & Hc).
  specialize (IH _ Hc). unfold GetEnd, GetLength in *. repeat case_cond; lia.
Qed.

(** Lost and sacked packets are at most the packets the blocks span. *)
Lemma count_span lo l :
  chain lo l -> count SKB_FLAG_LOST l + count SKB_FLAG_SACKED l <= chain_end lo l - lo.
Proof.
  revert lo. induction l as [|n l IH]; intros lo; cbn; [lia|]. intros (Hs & He & Hc).
  specialize (IH _ Hc). unfold GetEnd, GetLength, is_flag in *.
  repeat case_bool_decide; (congruence || lia).
Qed.

Lemma NoDup_replace {A} (a n m b : list A) :
  NoDup (a ++ n ++ b) -> NoDup m -> (forall x, x ∈ m -> x ∈ n \/ x ∉ a ++ n ++ b) ->
  NoDup (a ++ m ++ b).
Proof. rewrite !NoDup_app. set_solver. Qed.

(** Replacing consecutive blocks by blocks that span the same packets (or
    extend the list at its end), with the same addresses or new ones. *)
Lemma wf_blocks_replace lo A N M B brk brk' fo so :
  wf_blocks lo (A ++ N ++ B) brk fo so ->
  (let l := chain_end lo A in
   chain l N -> chain l M /\ (B = [] \/ chain_end l M = chain_end l N)) ->
  NoDup (addr_ <$> M) -> brk <= brk' ->
  (forall x, x ∈ addr_ <$> M -> x ∈ addr_ <$> N \/ brk <= x < brk') ->
  wf_blocks lo (A ++ M ++ B) brk'
    (fo + (count SKB_FLAG_LOST M - count SKB_FLAG_LOST N))
    (so + (count SKB_FLAG_SACKED M - count SKB_FLAG_SACKED N)).
Proof.
  intros [Hc Hnd Hb Hfo Hso] HM HMnd Hbrk Hadd.
  rewrite Forall_forall in Hb. constructor.
  - rewrite !chain_app in *. destruct Hc as (HA & HN & HB). destruct (HM HN) as [HM1 [->|HM2]]; [done|].
    by rewrite HM2.
  - rewrite !fmap_app in *. eapply NoDup_replace; [done|done|].
    intros x Hx. destruct (Hadd x Hx) as [|Hr]; [by left|right].
    rewrite <- !fmap_app. rewrite list_elem_of_fmap. intros (n & -> & Hn).
    specialize (Hb n Hn). cbn in Hb. lia.
  - apply Forall_forall. intros n Hn.
    assert (Hold : forall n', n' ∈ A ++ N ++ B -> addr_ n' < brk').
    { intros n' Hn'. specialize (Hb n' Hn'). cbn in Hb. lia. }
    rewrite !elem_of_app in Hn. destruct Hn as [Hn|[Hn|Hn]]; [apply Hold; set_solver| |apply Hold; set_solver].
    destruct (Hadd (addr_ n)) as [Hx|?]; [set_solver| |lia].
    apply list_elem_of_fmap in Hx as (n' & -> & Hn'). apply Hold. set_solver.
  - rewrite !count_app in *. lia.
  - rewrite !count_app in *. lia.
Qed.

Lemma GetEnd_live n : retransmitted n = false -> GetEnd n = nxt_ n.
Proof. unfold GetEnd. by intros ->. Qed.

Lemma GetEnd_inflight a s e r : GetEnd (mk_node a SKB_FLAG_INFLIGHT s e r) = e.
Proof. done. Qed.

Lemma live_start n x : seq_ n < x <= GetEnd n -> retransmitted n = false.
Proof. unfold GetEnd. destruct (retransmitted n); [lia|done]. Qed.

Lemma Inside_spec p n : Inside p n = true <-> seq_ n <= p <= GetEnd n.
Proof.
  unfold Inside, GetEnd. destruct (retransmitted n); [rewrite Z.eqb_eq; lia|].
  rewrite andb_true_iff, !Z.leb_le. done.
Qed.

Lemma Inside_false p n : Inside p n = false <-> p < seq_ n \/ GetEnd n < p.
Proof. rewrite <- not_true_iff_false, Inside_spec. lia. Qed.

Lemma SetFlag_spec f n :
  f <> SKB_FLAG_RETRANSMITTED ->
  addr_ (SetFlag f n) = addr_ n /\ seq_ (SetFlag f n) = seq_ n /\ GetEnd (SetFlag f n) = GetEnd n
  /\ GetLength (SetFlag f n) = GetLength n /\ flag_ (SetFlag f n) = f.
Proof.
  intros Hf. unfold SetFlag, GetEnd, GetLength.
  assert (E : forall m, retransmitted (m <| flag_ := f |>) = false)
    by (intros m; by apply is_flag_false).
  rewrite E. destruct (retransmitted n); cbn; split_and!; done || lia.
Qed.

Lemma status_app a b p :
  status (a ++ b) p = match status a p with Some f => Some f | None => status b p end.
Proof. induction a as [|n a IH]; cbn; [done|]. by destruct (Inside p n). Qed.

(** Replacing blocks in the middle of the list by others that agree on the
    sacked packets and cover the same ones. *)
Lemma sacked_replace A N M B :
  (forall p, sacked N p <-> sacked M p) -> (forall p, status N p = None <-> status M p = None) ->
  forall p, sacked (A ++ M ++ B) p <-> sacked (A ++ N ++ B) p.
Proof.
  intros Hs Hn p. unfold sacked in *. rewrite !status_app. destruct (status A p); [done|].
  specialize (Hs p). specialize (Hn p). destruct (status N p), (status M p); naive_solver.
Qed.

Lemma Inside_SetFlag f n p :
  f <> SKB_FLAG_RETRANSMITTED -> Inside p (SetFlag f n) = Inside p n.
Proof.
  intros Hf. destruct (SetFlag_spec f n Hf) as (_ & Es & Ee & _). apply eq_true_iff_eq.
  rewrite !Inside_spec, Es, Ee. done.
Qed.

Lemma sacked_lose A n B p :
  flag_ n <> SKB_FLAG_SACKED ->
  sacked (A ++ SetFlag SKB_FLAG_LOST n :: B) p <-> sacked (A ++ n :: B) p.
Proof.
  intros Hf. apply (sacked_replace A [n] [SetFlag SKB_FLAG_LOST n] B); intros q; unfold sacked; cbn;
    rewrite Inside_SetFlag by done; destruct (Inside q n); done || split; congruence.
Qed.

(** The merge of adjacent blocks with the same status. *)
Lemma status_merge A p n B x :
  retransmitted p = false -> retransmitted n = false -> flag_ n = flag_ p ->
  seq_ p <= GetEnd p -> seq_ n = GetEnd p + 1 -> seq_ n <= GetEnd n ->
  status (A ++ Merge p n :: B) x = status (A ++ p :: n :: B) x.
Proof.
  intros Hp Hn Hf H1 H2 H3. rewrite !status_app. destruct (status A x); [done|]. cbn.
  change (flag_ (Merge p n)) with (flag_ p). rewrite Hf.
  assert (Hm : retransmitted (Merge p n) = false) by done.
  pose proof (GetEnd_live _ Hm) as E. cbn in E. pose proof (GetEnd_live _ Hn) as En.
  destruct (Inside x (Merge p n)) eqn:Ei.
  - apply Inside_spec in Ei. cbn in Ei. destruct (Inside x p) eqn:Ep; [done|].
    apply Inside_false in Ep. rewrite (proj2 (Inside_spec x n)); [done|]. lia.
  - apply Inside_false in Ei. cbn in Ei.
    rewrite (proj2 (Inside_false x p)), (proj2 (Inside_false x n)); [done|lia|lia].
Qed.

Lemma wf_merge una A p n B brk fo so :
  wf_blocks una (A ++ p :: n :: B) brk fo so ->
  retransmitted p = false -> retransmitted n = false -> flag_ n = flag_ p ->
  wf_blocks una (A ++ Merge p n :: B) brk fo so
  /\ chain_end una (A ++ Merge p n :: B) = chain_end una (A ++ p :: n :: B)
  /\ GetEnd (Merge p n) = GetEnd n
  /\ (forall x, status (A ++ Merge p n :: B) x = status (A ++ p :: n :: B) x).
Proof.
  intros Hwf Hp Hn Hf.
  assert (Hm : retransmitted (Merge p n) = false) by done.
  pose proof (GetEnd_live _ Hm) as Em. cbn in Em. pose proof (GetEnd_live _ Hn) as En.
  pose proof (GetEnd_live _ Hp) as Ep.
  assert (Hcnt : forall g, count g [Merge p n] = count g [p; n]
      \/ seq_ n <> GetEnd p + 1).
  { intros g. destruct (decide (seq_ n = GetEnd p + 1)) as [E|]; [left|by right]. cbn.
    change (is_flag g (Merge p n)) with (is_flag g p).
    assert (Eg : is_flag g n = is_flag g p) by (unfold is_flag; by rewrite Hf). rewrite Eg.
    unfold GetLength. rewrite Hm, Hp, Hn. cbn. destruct (is_flag g p); lia. }
  pose proof (wb_chain _ _ _ _ _ Hwf) as Hc. rewrite chain_app in Hc.
  destruct Hc as (_ & H1 & H2 & H3 & H4 & _).
  split; [|split; [|split]].
  - pose proof (wf_blocks_replace una A [p; n] [Merge p n] B brk brk fo so Hwf) as Hr.
    destruct (Hcnt SKB_FLAG_LOST) as [E1|]; [|lia]. destruct (Hcnt SKB_FLAG_SACKED) as [E2|]; [|lia].
    rewrite E1, E2, !Z.sub_diag, !Z.add_0_r in Hr. apply Hr.
    + intros lo _. subst lo. cbn. rewrite Em, En. split; [split_and!; [done|cbn; lia|done]|by right].
    + apply NoDup_singleton.
    + lia.
    + cbn. intros x Hx. left. set_solver.
  - rewrite !chain_end_app. cbn. by rewrite Em, En.
  - by rewrite Em, En.
  - intros x. apply status_merge; done || lia.
Qed.

(** ** Steps of the traversal *)

Lemma trav_chain una e f s P z :
  trav_inv una e f s P z ->
  chain una (rev P) /\ chain_end una (rev P) = s /\ chain s (z_now z :: z_rest z)
  /\ chain_end s (z_now z :: z_rest z) = e /\ s <= GetEnd (z_now z).
Proof.
  intros [[Hc _ _ _ _] He _ <- <-]. unfold z_all in *.
  rewrite chain_app in Hc. destruct Hc as [HP Hn]. rewrite chain_end_app in He.
  assert (E : chain_end una (rev (z_prev z)) = seq_ (z_now z)) by (cbn in Hn; lia).
  rewrite E in *. cbn in Hn. split_and!; try done. lia.
Qed.

Lemma split_now_inv una e f s P z x :
  trav_inv una e f s P z -> s < x <= GetEnd (z_now z) ->
  trav_inv una e f s P (split_now x z) /\ GetEnd (z_now (split_now x z)) = x - 1
  /\ flag_ (z_now (split_now x z)) = flag_ (z_now z).
Proof.
  intros [Hwf He Hf Hs HP] Hx.
  assert (Hl : retransmitted (z_now z) = false) by (eapply live_start; rewrite Hs; exact Hx).
  pose proof (GetEnd_live _ Hl) as HE. rewrite HE in Hx.
  set (n := (z_now z) <| nxt_ := x - 1 |>). set (m := mk_node (brk_ (z_sb z)) (flag_ (z_now z)) x (nxt_ (z_now z)) 0).
  assert (Hn : retransmitted n = false /\ retransmitted m = false) by done. destruct Hn as [Hn Hm].
  assert (Hends : GetEnd n = x - 1 /\ GetEnd m = nxt_ (z_now z)) by by rewrite !GetEnd_live.
  destruct Hends as [En Em].
  split; [|done]. unfold split_now, Split. fold n m. cbn [z_all z_prev z_now z_rest set_field].
  constructor; cbn [z_sb z_now z_prev z_all set_field fack_]; try done.
  - unfold z_all in *. cbn [z_prev z_now z_rest brk_ fack_out_ sack_out_].
    pose proof (wf_blocks_replace una (rev (z_prev z)) [z_now z] [n; m] (z_rest z)
      (brk_ (z_sb z)) (brk_ (z_sb z) + 1) _ _ Hwf) as Hr.
    assert (Hcnt : forall g, count g [n; m] = count g [z_now z]).
    { intros g. cbn. change (is_flag g n) with (is_flag g (z_now z)).
      change (is_flag g m) with (is_flag g (z_now z)). unfold GetLength. rewrite Hn, Hm, Hl.
      destruct (is_flag g (z_now z)); cbn; lia. }
    rewrite !Hcnt, !Z.sub_diag, !Z.add_0_r in Hr. apply Hr.
    + intros lo (E & _ & _). subst lo. cbn. rewrite En, Em, HE. cbn. split_and!; try done; lia.
    + cbn. apply NoDup_cons. split; [|apply NoDup_singleton].
      rewrite list_elem_of_singleton. destruct Hwf as [_ _ Hb _ _]. rewrite Forall_forall in Hb.
      specialize (Hb (z_now z)). intros E. cbn in Hb. enough (addr_ (z_now z) < brk_ (z_sb z)) by lia.
      apply Hb. set_solver.
    + lia.
    + cbn. intros a. rewrite !elem_of_cons, elem_of_nil. intros [->|[->|[]]]; [left; by left|right; lia].
  - rewrite <- He. unfold z_all. cbn [z_prev z_now z_rest].
    rewrite !chain_end_app. cbn. by rewrite Em, HE.
Qed.

(** A new status for the current block, the counts following. *)
Lemma wf_relabel una A n n' B brk fo so :
  wf_blocks una (A ++ n :: B) brk fo so ->
  addr_ n' = addr_ n -> seq_ n' = seq_ n -> GetEnd n' = GetEnd n ->
  wf_blocks una (A ++ n' :: B) brk
    (fo + (count SKB_FLAG_LOST [n'] - count SKB_FLAG_LOST [n]))
    (so + (count SKB_FLAG_SACKED [n'] - count SKB_FLAG_SACKED [n])).
Proof.
  intros Hwf Ha Hs He. apply (wf_blocks_replace una A [n] [n'] B brk brk _ _ Hwf).
  - intros lo (E1 & E2 & _). subst lo. cbn. rewrite Hs, He. auto.
  - apply NoDup_singleton.
  - lia.
  - cbn. rewrite Ha. auto.
Qed.

Lemma count_single f n : count f [n] = if is_flag f n then GetLength n else 0.
Proof. cbn. lia. Qed.

(** The counts when [now] takes the flag [f]. *)
Lemma count_SetFlag f g n :
  f <> SKB_FLAG_RETRANSMITTED ->
  count g [SetFlag f n] = if bool_decide (f = g) then GetLength n else 0.
Proof.
  intros Hf. destruct (SetFlag_spec f n Hf) as (_ & _ & _ & Hl & Hg).
  rewrite count_single. unfold is_flag. by rewrite Hg, Hl.
Qed.

Lemma count_flag g n : count g [n] = if bool_decide (flag_ n = g) then GetLength n else 0.
Proof. apply count_single. Qed.

Ltac decide_flags H :=
  repeat first [rewrite bool_decide_eq_true_2 in H by done
               | rewrite bool_decide_eq_false_2 in H by done].

Lemma sack_now_inv una e f s P z :
  trav_inv una e f s P z -> flag_ (z_now z) <> SKB_FLAG_SACKED ->
  trav_inv una e f s P (sack_now z) /\ GetEnd (z_now (sack_now z)) = GetEnd (z_now z)
  /\ flag_ (z_now (sack_now z)) = SKB_FLAG_SACKED
  /\ nxt_to_retrx_ (z_sb (sack_now z)) = nxt_to_retrx_ (z_sb z).
Proof.
  intros [Hwf He Hf Hs HP] Hns.
  destruct (SetFlag_spec SKB_FLAG_SACKED (z_now z)) as (Ea & Es & Ee & _ & Ef); [done|].
  pose proof (wf_relabel una (rev (z_prev z)) (z_now z) (SetFlag SKB_FLAG_SACKED (z_now z))
    (z_rest z) _ _ _ Hwf Ea Es Ee) as Hr.
  rewrite !count_SetFlag, !count_flag in Hr by done.
  assert (Hend : chain_end una (rev (z_prev z) ++ SetFlag SKB_FLAG_SACKED (z_now z) :: z_rest z) = e).
  { rewrite <- He. unfold z_all. rewrite !chain_end_app. cbn. by rewrite Ee. }
  unfold sack_now.
  destruct (flag_ (z_now z)) eqn:Hfl; try done;
    (split; [|by split_and!]); decide_flags Hr; constructor; try done;
    try (by rewrite <- Hs); unfold z_all; cbn in Hr |- *;
    match type of Hr with wf_blocks _ _ _ ?a ?b =>
      match goal with |- wf_blocks _ _ _ ?a' ?b' => replace a' with a by lia; replace b' with b by lia end
    end; done.
Qed.

Lemma lose_now_inv una e f s P z :
  trav_inv una e f s P z -> flag_ (z_now z) <> SKB_FLAG_SACKED -> flag_ (z_now z) <> SKB_FLAG_LOST ->
  trav_inv una e f s P (lose_now z) /\ flag_ (z_now (lose_now z)) = SKB_FLAG_LOST
  /\ nxt_to_retrx_ (z_sb (lose_now z)) =
     match nxt_to_retrx_ (z_sb z) with Some a => Some a | None => Some (addr_ (z_now (lose_now z))) end.
Proof.
  intros [Hwf He Hf Hs HP] Hns Hnl.
  destruct (SetFlag_spec SKB_FLAG_LOST (z_now z)) as (Ea & Es & Ee & El & Ef); [done|].
  pose proof (wf_relabel una (rev (z_prev z)) (z_now z) (SetFlag SKB_FLAG_LOST (z_now z))
    (z_rest z) _ _ _ Hwf Ea Es Ee) as Hr.
  rewrite !count_SetFlag, !count_flag in Hr by done.
  rewrite !(bool_decide_eq_false_2 (flag_ (z_now z) = _)) in Hr by done.
  rewrite (bool_decide_eq_true_2 (SKB_FLAG_LOST = SKB_FLAG_LOST)),
    (bool_decide_eq_false_2 (SKB_FLAG_LOST = SKB_FLAG_SACKED)) in Hr by done.
  assert (Hend : chain_end una (rev (z_prev z) ++ SetFlag SKB_FLAG_LOST (z_now z) :: z_rest z) = e).
  { rewrite <- He. unfold z_all. rewrite !chain_end_app. cbn. by rewrite Ee. }
  rewrite !Z.sub_0_r, Z.add_0_r in Hr. rewrite <- El in Hr.
  set (n := SetFlag SKB_FLAG_LOST (z_now z)) in *.
  assert (Hsb : exists b, z_sb (lose_now z) = b /\ brk_ b = brk_ (z_sb z)
    /\ fack_out_ b = fack_out_ (z_sb z) + GetLength n /\ sack_out_ b = sack_out_ (z_sb z)
    /\ fack_ b = fack_ (z_sb z) /\ nxt_to_retrx_ b =
      match nxt_to_retrx_ (z_sb z) with Some a => Some a | None => Some (addr_ n) end).
  { eexists. split; [done|]. unfold lose_now. fold n. cbn [z_sb set_field]. unfold set_retrx.
    cbn. by destruct (nxt_to_retrx_ (z_sb z)). }
  destruct Hsb as (b & Eb & E1 & E2 & E3 & E4 & E5).
  split; [|split; [done|by rewrite Eb]].
  constructor; rewrite ?Eb, ?E1, ?E2, ?E3, ?E4; try done. by rewrite <- Hs.
Qed.

(** What a step may do to the block [now] and to the pointer: the pointer moves
    only from NULL to [now], and is known when [now] is lost. *)
Definition retrx_step (z z' : traversal) : Prop :=
  nxt_to_retrx_ (z_sb z') = nxt_to_retrx_ (z_sb z)
  \/ nxt_to_retrx_ (z_sb z) = None /\ nxt_to_retrx_ (z_sb z') = Some (addr_ (z_now z'))
     /\ flag_ (z_now z') = SKB_FLAG_LOST.

Lemma sack_step_inv una e f s P z :
  trav_inv una e f s P z -> flag_ (z_now z) <> SKB_FLAG_SACKED ->
  trav_inv una e f s P (sack_step z)
  /\ nxt_to_retrx_ (z_sb (sack_step z)) = nxt_to_retrx_ (z_sb z)
  /\ match z_sacks (sack_step z) with
     | [] => flag_ (z_now (sack_step z)) <> SKB_FLAG_SACKED
     | (l, r) :: _ => flag_ (z_now (sack_step z)) = SKB_FLAG_SACKED /\ l <= s
                      \/ GetEnd (z_now (sack_step z)) < l
     end.
Proof.
  intros Hz Hns. unfold sack_step. set (z1 := z <| z_sacks := _ |>).
  assert (Hz1 : trav_inv una e f s P z1) by (destruct Hz; by constructor).
  assert (Hr1 : nxt_to_retrx_ (z_sb z1) = nxt_to_retrx_ (z_sb z)) by done.
  change (z_now z) with (z_now z1) in Hns.
  assert (Hsk : match z_sacks z1 with [] => True | (l, r) :: _ => s < r end).
  { subst z1. cbn. rewrite (ti_seq _ _ _ _ _ _ Hz). clear. generalize (z_sacks z).
    intros sacks. induction sacks as [|[l r] sacks IH]; cbn; [done|]. case_cond; [done|cbn; lia]. }
  clearbody z1. destruct (z_sacks z1) as [|[l r] sacks] eqn:Es; [by rewrite Es|].
  pose proof (ti_seq _ _ _ _ _ _ Hz1) as Hseq.
  case_cond; [|rewrite Es; split_and!; try done; right; lia].
  case_cond.
  - destruct (split_now_inv una e f s P z1 l Hz1) as (H & HE & _); [lia|].
    split; [done|]. split; [done|]. change (z_sacks (split_now l z1)) with (z_sacks z1).
    rewrite Es, HE. right. lia.
  - set (z2 := if r <=? _ then _ else z1).
    assert (Hz2 : trav_inv una e f s P z2 /\ flag_ (z_now z2) = flag_ (z_now z1)
      /\ z_sacks z2 = (l, r) :: sacks /\ nxt_to_retrx_ (z_sb z2) = nxt_to_retrx_ (z_sb z1)).
    { subst z2. case_cond; [|done]. destruct (split_now_inv una e f s P z1 r Hz1) as (H & _ & HF); [lia|].
      done. }
    clearbody z2. destruct Hz2 as (Hz2 & Hfl & Es2 & Hr2).
    destruct (sack_now_inv una e f s P z2 Hz2) as (Hz3 & _ & Hf3 & Hr3); [congruence|].
    split; [done|]. split; [congruence|].
    assert (Es3 : z_sacks (sack_now z2) = z_sacks z2) by (unfold sack_now; by destruct (flag_ (z_now z2))).
    rewrite Es3, Es2. left. split; [done|lia].
Qed.

Lemma loss_step_inv una e f s P dt lt z :
  trav_inv una e f s P z ->
  match z_sacks z with
  | [] => flag_ (z_now z) <> SKB_FLAG_SACKED
  | (l, r) :: _ => flag_ (z_now z) = SKB_FLAG_SACKED /\ l <= s \/ GetEnd (z_now z) < l
  end ->
  trav_inv una e f s P (loss_step dt lt z) /\ retrx_step z (loss_step dt lt z)
  /\ (flag_ (z_now (loss_step dt lt z)) = SKB_FLAG_LOST ->
      nxt_to_retrx_ (z_sb (loss_step dt lt z)) <> None).
Proof.
  intros Hz Hsk. unfold loss_step.
  assert (Hlose : forall z', trav_inv una e f s P z' -> z_sb z' = z_sb z \/ nxt_to_retrx_ (z_sb z') = nxt_to_retrx_ (z_sb z) ->
    flag_ (z_now z') <> SKB_FLAG_SACKED -> flag_ (z_now z') <> SKB_FLAG_LOST ->
    trav_inv una e f s P (lose_now z') /\ retrx_step z (lose_now z')
    /\ (flag_ (z_now (lose_now z')) = SKB_FLAG_LOST -> nxt_to_retrx_ (z_sb (lose_now z')) <> None)).
  { intros z' Hz' Hb Hf1 Hf2. destruct (lose_now_inv una e f s P z' Hz' Hf1 Hf2) as (H1 & H2 & H3).
    assert (Hb' : nxt_to_retrx_ (z_sb z') = nxt_to_retrx_ (z_sb z)) by (destruct Hb; congruence).
    split; [done|]. unfold retrx_step. rewrite H3, Hb'. by destruct (nxt_to_retrx_ (z_sb z)); auto. }
  assert (Hsame : flag_ (z_now z) <> SKB_FLAG_LOST -> trav_inv una e f s P z /\ retrx_step z z
    /\ (flag_ (z_now z) = SKB_FLAG_LOST -> nxt_to_retrx_ (z_sb z) <> None)) by (intros ?; split; [done|split; [by left|done]]).
  destruct (match z_sacks z with [] => true | (l, _) :: _ => GetEnd (z_now z) <? l end) eqn:Hc.
  - destruct (flag_ (z_now z)) eqn:Hf; cbv zeta iota.
    + case_cond; [|by rewrite Hf; apply Hsame]. case_cond; [|apply Hlose; [done|by left|congruence|congruence]].
      pose proof (ti_seq _ _ _ _ _ _ Hz).
      destruct (split_now_inv una e f s P z (lt + 1) Hz) as (H1 & _ & H3); [lia|].
      apply Hlose; [done|by right|congruence|congruence].
    + by rewrite Hf; apply Hsame.
    + split; [|split].
      * unfold set_retrx. destruct Hz. destruct (nxt_to_retrx_ (z_sb z)); by constructor.
      * unfold retrx_step, set_retrx. cbn. destruct (nxt_to_retrx_ (z_sb z)) eqn:E; [left; by rewrite E|by right].
      * intros _. unfold set_retrx. cbn. by destruct (nxt_to_retrx_ (z_sb z)) eqn:E; [rewrite E|].
    + case_cond; [apply Hlose; [done|by left|congruence|congruence]|by rewrite Hf; apply Hsame].
  - apply Hsame. destruct (z_sacks z) as [|[l r] ?]; [done|]. intros Hf.
    destruct Hsk as [[? _]|?]; [congruence|lia].
Qed.

(** The merge of [now] with the block before it. *)
Definition merged (z : traversal) : list ScoreBoardNode1 :=
  match z_prev z with
  | p :: d => if Mergable p (z_now z) then Merge p (z_now z) :: d else z_now z :: z_prev z
  | [] => [z_now z]
  end.

Lemma merged_inv una e f s P z :
  trav_inv una e f s P z ->
  wf_blocks una (rev (merged z) ++ z_rest z) (brk_ (z_sb z)) (fack_out_ (z_sb z)) (sack_out_ (z_sb z))
  /\ chain_end una (rev (merged z) ++ z_rest z) = e /\ s < chain_end una (rev (merged z))
  /\ (forall n, In n (merged z) -> In n P \/ flag_ n = flag_ (z_now z)).
Proof.
  intros Hz. destruct (trav_chain _ _ _ _ _ _ Hz) as (HcP & HeP & Hcn & Hen & Hs).
  destruct Hz as [Hwf He Hf Hsq <-]. unfold merged, z_all in *.
  assert (Hkeep : wf_blocks una (rev (z_now z :: z_prev z) ++ z_rest z) (brk_ (z_sb z))
      (fack_out_ (z_sb z)) (sack_out_ (z_sb z))
    /\ chain_end una (rev (z_now z :: z_prev z) ++ z_rest z) = e
    /\ s < chain_end una (rev (z_now z :: z_prev z))
    /\ (forall n, In n (z_now z :: z_prev z) -> In n (z_prev z) \/ flag_ n = flag_ (z_now z))).
  { cbn [rev]. rewrite <- app_assoc. split; [done|]. split; [done|].
    split; [rewrite chain_end_app, HeP; cbn; lia|intros n [<-|Hn]; auto]. }
  destruct (z_prev z) as [|p d]; [done|]. destruct (Mergable p (z_now z)) eqn:Hm; [|done].
  clear Hkeep. apply andb_true_iff in Hm as [Hn Hfl].
  apply negb_true_iff in Hn. apply bool_decide_eq_true in Hfl.
  assert (Hp : retransmitted p = false) by (apply is_flag_false; rewrite <- Hfl; by apply is_flag_false in Hn).
  cbn [rev] in *. rewrite <- !app_assoc in *. cbn [app] in *.
  destruct (wf_merge _ _ _ _ _ _ _ _ Hwf Hp Hn Hfl) as (H1 & H2 & H3 & _).
  split; [done|]. split; [congruence|]. split; [rewrite chain_end_app; cbn; lia|].
  intros n [<-|Hin]; [right; exact (eq_sym Hfl)|left; by right].
Qed.

(** The pointer after the merge: it points at a block that is kept. *)
Lemma merged_retrx una e f s P z z0 :
  trav_inv una e f s P z -> retrx_step z0 z ->
  (forall a, nxt_to_retrx_ (z_sb z0) = Some a -> In a (addr_ <$> P)) ->
  (forall n, In n P -> flag_ n = SKB_FLAG_LOST -> nxt_to_retrx_ (z_sb z0) <> None) ->
  forall a, nxt_to_retrx_ (z_sb z) = Some a -> In a (addr_ <$> merged z).
Proof.
  intros [_ _ _ _ HP] Hst Hrx Hl a Ha. unfold merged. rewrite HP.
  destruct Hst as [Hsame|(Hnone & Hnow & Hf)].
  - rewrite Hsame in Ha. specialize (Hrx a Ha). destruct P as [|p d]; [done|].
    case_cond; [exact Hrx|by right].
  - rewrite Hnow in Ha. injection Ha as <-. destruct P as [|p d]; [by left|].
    case_cond; [|by left]. apply andb_true_iff in Hc as [_ Hfl]. apply bool_decide_eq_true in Hfl.
    exfalso. apply (Hl p); [by left|congruence|done].
Qed.

Lemma merge_step_eq z :
  exists prev done, merged z = prev :: done /\
  merge_step z =
    match z_rest z with
    | [] => if GetEnd prev <? fack_ (z_sb z)
            then (merged z, [mk_node (brk_ (z_sb z)) SKB_FLAG_INFLIGHT (GetEnd prev + 1) (fack_ (z_sb z)) 0],
                  (z_sb z) <| brk_ := brk_ (z_sb z) + 1 |>)
            else (merged z, [], z_sb z)
    | rest => (merged z, rest, z_sb z)
    end.
Proof.
  unfold merge_step, merged. destruct (z_prev z) as [|p d]; [by do 2 eexists|].
  destruct (Mergable p (z_now z)); by do 2 eexists.
Qed.

(** A new block after the last one. *)
Lemma wf_append una l n brk fo so :
  wf_blocks una l brk fo so -> addr_ n = brk -> seq_ n = chain_end una l -> seq_ n <= GetEnd n ->
  wf_blocks una (l ++ [n]) (brk + 1) (fo + count SKB_FLAG_LOST [n]) (so + count SKB_FLAG_SACKED [n]).
Proof.
  intros Hwf Ha Hs He.
  pose proof (wf_blocks_replace una l [] [n] [] brk (brk + 1) fo so) as Hr.
  rewrite !app_nil_r in Hr. rewrite !Z.sub_0_r in Hr. apply Hr; [done| | |lia|].
  - intros lo _. cbn. split; [done|by left].
  - apply NoDup_singleton.
  - cbn. intros x Hx. apply list_elem_of_singleton in Hx as ->. right. lia.
Qed.

Definition walk_measure (una : Z) (w : walk) : Z :=
  match w_list w with
  | [] => 0
  | n :: _ => Z.max (chain_end una (w_all w)) (fack_ (w_sb w) + 1) - seq_ n
  end.

(** One iteration: the invariant holds again and the traversal advances. *)
Lemma walk_body_inv una hi dt lt w :
  walk_inv una hi w -> w_list w <> [] ->
  returns (walk_body dt lt w) (fun w' => walk_inv una hi w' /\ w_prev w' <> []
    /\ 0 <= walk_measure una w' < walk_measure una w).
Proof.
  intros [Hwf He Hf Hrx Hl] Hne. unfold walk_body, walk_measure, w_all in *.
  destruct (w_list w) as [|n rest]; [done|]. clear Hne.
  set (z0 := mk_traversal _ _ _ _ _ _ _).
  set (z := if is_flag SKB_FLAG_SACKED n then z0 else _).
  assert (Hz0 : trav_inv una (chain_end una (rev (w_prev w) ++ n :: rest)) (fack_ (w_sb w)) (seq_ n)
    (w_prev w) z0) by by constructor.
  assert (Hz : trav_inv una (chain_end una (rev (w_prev w) ++ n :: rest)) (fack_ (w_sb w)) (seq_ n)
      (w_prev w) z /\ retrx_step z0 z
    /\ (flag_ (z_now z) = SKB_FLAG_LOST -> nxt_to_retrx_ (z_sb z) <> None)).
  { subst z. case_cond.
    - apply is_flag_true in Hc. split; [done|]. split; [by left|]. cbn. congruence.
    - apply is_flag_false in Hc. destruct (sack_step_inv _ _ _ _ _ _ Hz0 Hc) as (H1 & H2 & H3).
      destruct (loss_step_inv _ _ _ _ _ dt lt _ H1 H3) as (H4 & H5 & H6). split; [done|].
      split; [|done]. unfold retrx_step in *. by rewrite <- H2. }
  clearbody z. destruct Hz as (Hz & Hstep & Hlost).
  pose proof (trav_chain _ _ _ _ _ _ Hz0) as (_ & _ & Hc0 & Hc0' & _).
  apply chain_end_gt in Hc0 as [_ Hc0]. rewrite Hc0' in Hc0.
  destruct (merged_inv _ _ _ _ _ _ Hz) as (Hm1 & Hm2 & Hm3 & Hm4).
  pose proof (merged_retrx _ _ _ _ _ _ _ Hz Hstep Hrx Hl) as Hrx'.
  assert (Hl' : forall m, In m (merged z) -> flag_ m = SKB_FLAG_LOST -> nxt_to_retrx_ (z_sb z) <> None).
  { intros m Hm Hfm. destruct (Hm4 m Hm) as [Hin|Hfl]; [|apply Hlost; congruence].
    specialize (Hl m Hin Hfm). destruct Hstep as [->|(_ & -> & _)]; done. }
  pose proof (ti_fack _ _ _ _ _ _ Hz) as Hfz.
  destruct (merge_step_eq z) as (prev & d & Emg & ->). 
  destruct (z_rest z) as [|m rest'] eqn:Erest.
  - rewrite app_nil_r in *. rewrite Emg in Hm1, Hm2, Hm3. cbn [rev] in Hm1, Hm2, Hm3.
    rewrite chain_end_app in Hm2, Hm3. cbn in Hm2, Hm3. case_cond; cbn [returns].
    + apply Z.ltb_lt in Hc. split; [|split; [by rewrite Emg|]].
      * assert (Hn := wf_append una _ (mk_node (brk_ (z_sb z)) SKB_FLAG_INFLIGHT (GetEnd prev + 1)
          (fack_ (z_sb z)) 0) _ _ _ Hm1). rewrite chain_end_app in Hn. cbn in Hn.
        rewrite !Z.add_0_r in Hn.
        constructor; cbn; unfold w_all; cbn; try done; [| |lia].
        -- rewrite Emg. cbn [rev]. apply Hn; rewrite ?GetEnd_inflight; done || lia.
        -- rewrite Emg. cbn [rev]. rewrite chain_end_app. cbn. rewrite GetEnd_inflight. lia.
      * unfold w_all. cbn. rewrite Emg. cbn [rev]. rewrite !chain_end_app. cbn. rewrite GetEnd_inflight. lia.
    + split; [|split; [by rewrite Emg|]]; [|cbn; lia].
      constructor; cbn; unfold w_all; cbn; rewrite ?app_nil_r; try done; [| |lia];
        rewrite Emg; cbn [rev]; [done|]. rewrite chain_end_app. cbn. lia.
  - cbn [returns]. split; [|split; [by rewrite Emg|]].
    + constructor; cbn -[rev]; unfold w_all; cbn -[rev]; try done; lia.
    + unfold w_all. cbn -[rev chain_end]. rewrite Hm2, Hfz.
      destruct Hm1 as [Hc _ _ _ _]. rewrite chain_app in Hc. destruct Hc as [_ (Es & Ee & Hc)].
      rewrite chain_end_app in Hm2. cbn in Hm2. apply chain_end_ge in Hc. lia.
Qed.

(** ** CleanRtxQueue *)

Lemma ShouldClean_spec ack n :
  ShouldClean ack n =
    if ack <? seq_ n then 0
    else if GetEnd n <=? ack then -1 else ack + 1 - seq_ n.
Proof.
  unfold ShouldClean, GetEnd. destruct (Z.ltb_spec ack (seq_ n)); [done|].
  destruct (retransmitted n); cbn; [|done]. destruct (Z.leb_spec (seq_ n) ack); [done|lia].
Qed.

(** The counts after all but [k] packets of the head block are gone. *)
Lemma clean_counts_ok n k l b lo :
  wf_blocks lo (n :: l) (brk_ b) (fack_out_ b) (sack_out_ b) -> 0 <= k ->
  returns (clean_counts n (GetLength n - k) b) (fun b' =>
    b' = b <| fack_out_ := (if is_flag SKB_FLAG_LOST n then k else 0) + count SKB_FLAG_LOST l |>
           <| sack_out_ := (if is_flag SKB_FLAG_SACKED n then k else 0) + count SKB_FLAG_SACKED l |>).
Proof.
  intros [Hc _ _ Hfo Hso] Hk. cbn in Hc. destruct Hc as (_ & _ & Hc).
  pose proof (count_nonneg SKB_FLAG_LOST _ _ Hc). pose proof (count_nonneg SKB_FLAG_SACKED _ _ Hc).
  cbn [count] in *. unfold is_flag in *. unfold clean_counts.
  destruct (flag_ n) eqn:Efl; decide_flags Hfo; decide_flags Hso;
    repeat first [rewrite bool_decide_eq_true_2 by done | rewrite bool_decide_eq_false_2 by done];
    unfold c_assert; destruct b; cbn in *; try case_cond; cbn; try lia; f_equal; lia.
Qed.

Lemma wf_tail una n l brk fo so :
  wf_blocks una (n :: l) brk fo so ->
  wf_blocks (GetEnd n + 1) l brk (count SKB_FLAG_LOST l) (count SKB_FLAG_SACKED l).
Proof.
  intros [(_ & _ & Hc) Hnd Hb _ _]. apply NoDup_cons in Hnd as [_ Hnd].
  apply Forall_cons in Hb as [_ Hb]. by constructor.
Qed.

Lemma wf_trim una n l brk fo so x :
  wf_blocks una (n :: l) brk fo so -> una <= x <= GetEnd n -> retransmitted n = false ->
  let n' := n <| seq_ := x |> in
  wf_blocks x (n' :: l) brk (count SKB_FLAG_LOST (n' :: l)) (count SKB_FLAG_SACKED (n' :: l))
  /\ GetEnd n' = GetEnd n /\ GetLength n' = GetEnd n + 1 - x.
Proof.
  intros [(Hs & He & Hc) Hnd Hb _ _] Hx Hl n'.
  assert (Hl' : retransmitted n' = false) by done.
  pose proof (GetEnd_live _ Hl) as E. pose proof (GetEnd_live _ Hl') as E'.
  assert (EE : GetEnd n' = GetEnd n) by (rewrite E, E'; done).
  split; [|split; [done|unfold GetLength; rewrite Hl', E; done]].
  constructor; try done.
  - cbn [chain]. rewrite EE. split; [done|]. split; [|done]. change (seq_ n') with x. lia.
  - apply Forall_cons in Hb as [Hb1 Hb2]. by apply Forall_cons.
Qed.

(** After CleanRtxQueue exactly the acknowledged packets are gone. *)
Definition cleaned (una last_ack : Z) (l : list ScoreBoardNode1) (b b' : ScoreBoard1) : Prop :=
  wf_blocks (last_ack + 1) (blocks b') (brk_ b') (fack_out_ b') (sack_out_ b')
  /\ brk_ b' = brk_ b /\ fack_ b' = fack_ b
  /\ (forall a, nxt_to_retrx_ b' = Some a -> In a (addr_ <$> blocks b'))
  /\ (forall p, last_ack < p -> status (blocks b') p = status l p)
  /\ (blocks b' <> [] -> chain_end (last_ack + 1) (blocks b') = chain_end una l).

Lemma clean_blocks_ok last_ack l b una flag changed :
  wf_blocks una l (brk_ b) (fack_out_ b) (sack_out_ b) -> una <= last_ack + 1 ->
  (forall a, nxt_to_retrx_ b = Some a -> In a (addr_ <$> l)) ->
  returns (clean_blocks last_ack l b flag changed) (fun '(b', _, _) => cleaned una last_ack l b b').
Proof.
  revert b una flag changed. induction l as [|n l IH]; intros b una flag changed Hwf Hu Hrx.
  { cbn. split_and!; try done. by destruct Hwf; constructor. }
  pose proof Hwf as [(Hs & He & Hc) _ _ _ _]. cbn [clean_blocks]. rewrite ShouldClean_spec.
  destruct (Z.ltb_spec last_ack (seq_ n)).
  { cbn [returns]. assert (last_ack + 1 = una) as <- by lia. split_and!; done. }
  destruct (Z.leb_spec (GetEnd n) last_ack) as [Hle|Hgt].
  - cbn [Z.eqb Z.ltb Z.compare]. pose proof (clean_counts_ok n 0 l b una Hwf ltac:(lia)) as Hcnt.
    rewrite Z.sub_0_r in Hcnt. eapply returns_bind; [exact Hcnt|]. clear Hcnt. intros b1 ->.
    set (upd := if retransmitted n then _ else _).
    assert (Hupd : exists x f c, upd = (b <| fack_out_ := count SKB_FLAG_LOST l |>
      <| sack_out_ := count SKB_FLAG_SACKED l |> <| acked_rtx_id_ := x |>, f, c)).
    { assert (Ez : forall f, (if is_flag f n then 0 else 0) = 0) by (intros f; by case_cond).
      subst upd. rewrite !Ez, !Z.add_0_l.
      repeat case_cond; try (by do 3 eexists); exists (acked_rtx_id_ b); do 2 eexists; by destruct b. }
    clearbody upd. destruct Hupd as (x & f & c & ->). 
    pose proof (wf_tail _ _ _ _ _ _ Hwf) as Htl.
    set (b2 := if bool_decide _ then _ else _).
    assert (Hb2 : exists r, b2 = b <| fack_out_ := count SKB_FLAG_LOST l |>
      <| sack_out_ := count SKB_FLAG_SACKED l |> <| acked_rtx_id_ := x |> <| nxt_to_retrx_ := r |>
      /\ (forall a, r = Some a -> In a (addr_ <$> l))).
    { subst b2. cbn [nxt_to_retrx_ set_field]. case_bool_decide as Hp.
      - eexists. split; [done|]. intros a. destruct l as [|n' l']; [done|]. cbn. intros [= <-]. by left.
      - exists (nxt_to_retrx_ b). split; [by destruct b|]. intros a Ha.
        destruct (Hrx a Ha) as [E|Hin]; [congruence|done]. }
    clearbody b2. destruct Hb2 as (r & -> & Hr).
    eapply returns_mono; [apply (IH _ (GetEnd n + 1)); [exact Htl|lia|exact Hr]|].
    intros [[b' f'] c'] (H1 & H2 & H3 & H4 & H5 & H6). split_and!; try done.
    intros p Hp. rewrite H5 by done. cbn [status].
    rewrite (proj2 (Inside_false p n)) by lia. done.
  - assert (Hlive : retransmitted n = false) by (apply (live_start n (GetEnd n)); lia).
    destruct (Z.eqb_spec (last_ack + 1 - seq_ n) 0); [lia|].
    destruct (Z.ltb_spec (last_ack + 1 - seq_ n) 0); [lia|].
    destruct (wf_trim una n l _ _ _ (last_ack + 1) Hwf) as (Hw & HE & HL); [lia|done|].
    set (n' := n <| seq_ := last_ack + 1 |>) in *.
    pose proof (clean_counts_ok n (GetLength n') l b una Hwf ltac:(lia)) as Hcnt.
    assert (El : GetLength n - GetLength n' = last_ack + 1 - seq_ n).
    { rewrite HL. unfold GetLength. rewrite Hlive, (GetEnd_live _ Hlive). lia. }
    rewrite El in Hcnt. eapply returns_bind; [exact Hcnt|]. clear Hcnt. intros b1 ->.
    cbn [returns]. split_and!; try done.
    + intros p Hp. cbn. fold n'.
      destruct (Inside p n) eqn:Hin.
      * apply Inside_spec in Hin. rewrite (proj2 (Inside_spec p n')); [done|].
        rewrite HE. change (seq_ n') with (last_ack + 1). lia.
      * apply Inside_false in Hin. rewrite (proj2 (Inside_false p n')); [done|].
        rewrite HE. change (seq_ n') with (last_ack + 1). lia.
    + intros _. cbn. fold n'. by rewrite HE.
Qed.

(** ** UpdateScoreBoard *)

Lemma insert_sack_in s l x : In x (insert_sack s l) <-> x = s \/ In x l.
Proof.
  induction l as [|t l IH]; cbn; [naive_solver|]. case_cond; cbn; [rewrite IH|]; naive_solver.
Qed.

Lemma sort_sacks_in last_ack sacks x :
  In x (sort_sacks last_ack sacks) <-> In x sacks /\ last_ack <= x.1.
Proof.
  unfold sort_sacks. rewrite <- in_rev.
  assert (H : forall acc, In x (fold_left (fun acc s =>
    if last_ack <=? s.1 then insert_sack s acc else acc) sacks acc)
    <-> In x acc \/ In x sacks /\ last_ack <= x.1); [|rewrite H; naive_solver].
  induction sacks as [|s sacks IH]; intros acc; cbn; [naive_solver|].
  rewrite IH. destruct (Z.leb_spec last_ack s.1); [rewrite insert_sack_in|]; naive_solver lia.
Qed.

Lemma valid_sorted last_ack hi sacks l r :
  valid_sacks last_ack hi sacks -> In (l, r) (sort_sacks last_ack sacks) ->
  last_ack < l < r /\ r <= hi.
Proof.
  intros Hv Hin. apply sort_sacks_in in Hin as [Hin Hl]. cbn in Hl.
  destruct (Hv l r Hin); [lia|done].
Qed.

Lemma wf_nil una brk : wf_blocks una [] brk 0 0.
Proof. by constructor; try constructor. Qed.

Lemma cleaned_inv una hi last_ack b b' :
  cleaned una last_ack (blocks b) b b' -> sb_inv una hi b -> una <= last_ack + 1 <= hi ->
  let b'' := match blocks b' with [] => ClearScoreBoard b' | _ => b' end in
  sb_inv (last_ack + 1) hi b'' /\ blocks b'' = blocks b'.
Proof.
  intros (H1 & H2 & H3 & H4 & H5 & H6) [Hwf He Hf Hrx] Hu. cbv zeta.
  destruct (blocks b') as [|n l] eqn:E.
  - split; [|done]. constructor; cbn; try done; [apply wf_nil|lia].
  - split; [|done]. assert (Hne : n :: l <> []) by done. specialize (H6 Hne).
    constructor; rewrite E; try done; [lia|]. rewrite H3.
    destruct (blocks b) as [|n' l']; [|done].
    cbn in H6.
    pose proof (chain_end_gt _ _ _ (wb_chain _ _ _ _ _ H1)) as [_ Hgt]. cbn in *. lia.
Qed.

(** From a board with its oldest block, the traversal ends and leaves a board. *)
Lemma walk_ok una hi dt sacks (thorough : bool) flag b :
  sb_inv una hi b -> 0 <= una -> hi < 2147483648 -> blocks b <> [] ->
  nxt_to_retrx_ b = None -> fack_ b < hi ->
  returns (w ← c_while walk_cond (walk_body dt (fack_ b - (dt + 1)))
             (mk_walk [] (blocks b) sacks thorough flag b);
           Ok ((w_sb w) <| blocks := rev (w_prev w) ++ w_list w |>, w_flag w))
    (fun '(b', _) => sb_inv una hi b').
Proof.
  intros [Hwf He _ _] Hu Hhi Hne Hn Hf.
  set (F := fack_ b - (dt + 1)). set (w0 := mk_walk _ _ _ _ _ _).
  eapply returns_bind.
  - apply (c_while_rule (fun w => walk_inv una hi w /\ w_all w <> []) (walk_measure una)).
    + intros w [Hw _] Hc. assert (Hl : w_list w <> []) by (unfold walk_cond in Hc; by destruct (w_list w)).
      eapply returns_mono; [by apply (walk_body_inv una hi)|].
      intros w' (H1 & H2 & H3). split; [|done]. split; [done|]. unfold w_all.
      intros E. apply app_eq_nil in E as [E _]. destruct (w_prev w'); [done|]. cbn in E. by apply app_eq_nil in E as [_ ?].
    + split; [|done]. by constructor; cbn; rewrite ?Hn.
    + unfold walk_measure. cbn. destruct (blocks b) as [|n l] eqn:E; [done|]. unfold w_all. cbn [w_prev w_list rev app w0].
      pose proof (chain_end_gt _ _ _ (wb_chain _ _ _ _ _ Hwf)) as [-> _]. lia.
  - intros w [[Hw Hall] _]. destruct Hw as [H1 H2 H3 H4 H5]. cbn [returns].
    constructor; cbn; fold (w_all w); try done.
    + destruct (w_all w); done.
    + intros a Ha. unfold w_all. rewrite fmap_app. apply in_or_app. left.
      specialize (H4 a Ha). change (In a (map addr_ (rev (w_prev w)))). rewrite map_rev.
      by apply in_rev in H4.
Qed.

(** UpdateScoreBoard up to its traversal: the board the early returns leave, and
    the board the traversal starts from. *)
Lemma update_rule (Q : ScoreBoard1 -> Prop) una hi last_ack sacks dt b :
  sb_inv una hi b -> una <= last_ack + 1 <= hi -> -1 <= last_ack -> hi < 2147483648 ->
  valid_sacks last_ack hi sacks ->
  let sorted := sort_sacks last_ack sacks in
  (forall b', sb_inv (last_ack + 1) hi b' ->
     (forall p, last_ack < p -> status (blocks b') p = status (blocks b) p) -> sorted = [] -> Q b') ->
  (forall b' thorough flag, sb_inv (last_ack + 1) hi b' -> blocks b' <> [] -> nxt_to_retrx_ b' = None ->
     fack_ b' < hi -> (forall p, last_ack < p -> sacked (blocks b') p <-> sacked (blocks b) p) ->
     (forall s, last sorted = Some s -> s.2 <= fack_ b' + 1) ->
     returns (w ← c_while walk_cond (walk_body dt (fack_ b' - (dt + 1)))
                (mk_walk [] (blocks b') sorted thorough flag b');
              Ok ((w_sb w) <| blocks := rev (w_prev w) ++ w_list w |>, w_flag w)) (fun '(b', _) => Q b')) ->
  returns (UpdateScoreBoard last_ack sacks dt b) (fun '(b', _) => Q b').
Proof.
  intros Hb Hu Hla Hhi Hv. cbv zeta. intros HQ1 HQ2. unfold UpdateScoreBoard, CleanRtxQueue.
  eapply returns_bind.
  { apply (clean_blocks_ok last_ack (blocks b) b una); [apply Hb|lia|apply Hb]. }
  intros [[b1 flag] th] Hcl. destruct (cleaned_inv una hi last_ack b b1 Hcl Hb Hu) as [H2 Hbl].
  assert (Hst : forall p, last_ack < p -> status (blocks b1) p = status (blocks b) p) by apply Hcl.
  set (upd := match blocks b1 with [] => (ClearScoreBoard b1, false) | _ => _ end).
  assert (Hupd : exists t, upd = (match blocks b1 with [] => ClearScoreBoard b1 | _ => b1 end, t)
    /\ (blocks b1 = [] -> t = false)).
  { subst upd. destruct (blocks b1); by eexists. }
  clearbody upd. destruct Hupd as (t & -> & Ht). rewrite <- Hbl in Hst, Ht.
  set (b2 := match blocks b1 with [] => _ | _ => _ end) in *.
  clearbody b2. clear Hbl Hcl b1 th Hu Hb.
  case_cond.
  { apply andb_true_iff in Hc as [_ Hs]. apply bool_decide_eq_true in Hs. apply HQ1; [done|done|by rewrite Hs]. }
  cbv zeta. set (sorted := sort_sacks last_ack sacks) in *. case_cond.
  { apply andb_true_iff in Hc0 as [_ Hs]. apply bool_decide_eq_true in Hs. by apply HQ1. }
  set (adv := match last sorted with Some _ => _ | None => _ end).
  assert (Hadv : exists f t', adv = (b2 <| fack_ := f |>, t') /\ (blocks b2 <> [] -> f < hi)
    /\ (blocks b2 = [] -> last_ack + 1 <= f < hi) /\ forall s, last sorted = Some s -> s.2 <= f + 1).
  { destruct H2 as [_ _ Hf _]. subst adv. destruct (last sorted) as [[l r]|] eqn:El.
    - assert (Hin : In (l, r) sorted) by (apply last_Some_elem_of, list_elem_of_In in El; done).
      apply (valid_sorted last_ack hi) in Hin as [Hlr Hr]; [|done].
      destruct (Z.ltb_spec (fack_ b2) (r - 1)).
      + do 2 eexists. split; [done|]. split_and!; [lia|lia|]. intros s [= <-]. cbn. lia.
      + exists (fack_ b2), t. split; [by destruct b2|]. split_and!; [destruct (blocks b2); [done|lia]|destruct (blocks b2); [lia|done]|].
        intros s [= <-]. cbn. lia.
    - apply last_None in El. exists (fack_ b2), t. split; [by destruct b2|].
      destruct (blocks b2) eqn:Eb; [|done]. exfalso. rewrite Ht, El in Hc0 by done. done. }
  clearbody adv. destruct Hadv as (f & t' & -> & Hf1 & Hf2 & Hf3).
  set (b3 := match blocks _ with [] => _ | _ => _ end).
  assert (Hb3 : sb_inv (last_ack + 1) hi b3 /\ blocks b3 <> [] /\ fack_ b3 = f /\ f < hi
    /\ forall p, sacked (blocks b3) p <-> sacked (blocks b2) p).
  { destruct H2 as [Hwf He Hf Hr]. subst b3. cbn [blocks set_field].
    destruct (blocks b2) as [|n l] eqn:E; cbn.
    - specialize (Hf2 eq_refl). split; [|split; [done|split; [done|split; [lia|]]]].
      + destruct Hwf as [_ _ _ Hfo Hso]. constructor; cbn; rewrite ?Hfo, ?Hso.
        * exact (wf_append (last_ack + 1) [] (mk_node (brk_ b2) SKB_FLAG_INFLIGHT (last_ack + 1) f 0)
            (brk_ b2) 0 0 (wf_nil _ _) eq_refl eq_refl (proj1 Hf2)).
        * rewrite GetEnd_inflight. lia.
        * lia.
        * intros a Ha. by destruct (Hr a Ha).
      + intros p. unfold sacked. cbn. by destruct (Inside _ _).
    - specialize (Hf1 ltac:(done)). split; [|done]. constructor; cbn; rewrite ?E; done. }
  clearbody b3. destruct Hb3 as ([Hwf He Hf Hr] & Hne & <- & Hfk & Hsk).
  apply (HQ2 (b3 <| nxt_to_retrx_ := None |>) t' flag); try done; try by constructor.
  intros p Hp. change (sacked (blocks b3) p <-> sacked (blocks b) p). rewrite Hsk.
  unfold sacked. by rewrite Hst.
Qed.

Lemma update_ok una hi last_ack sacks dt b :
  sb_inv una hi b -> una <= last_ack + 1 <= hi -> -1 <= last_ack -> hi < 2147483648 ->
  valid_sacks last_ack hi sacks ->
  returns (UpdateScoreBoard last_ack sacks dt b) (fun '(b', _) => sb_inv (last_ack + 1) hi b').
Proof.
  intros Hb Hu Hla Hhi Hv. apply (update_rule _ una hi); try done.
  intros b' t flag Hb' Hne Hn Hf _ _. apply walk_ok; done || lia.
Qed.

(** ** MarkLoss *)

Lemma GetLength_end n : GetLength n = GetEnd n - seq_ n + 1.
Proof. unfold GetLength, GetEnd. destruct (retransmitted n); lia. Qed.

(** A block that is not sacked becomes lost. *)
Lemma wf_lose una A n B b :
  wf_blocks una (A ++ n :: B) (brk_ b) (fack_out_ b) (sack_out_ b) -> flag_ n <> SKB_FLAG_SACKED ->
  let b' := if is_flag SKB_FLAG_LOST n then b
            else b <| fack_out_ := fack_out_ b + (GetEnd n - seq_ n + 1) |> in
  wf_blocks una (A ++ SetFlag SKB_FLAG_LOST n :: B) (brk_ b') (fack_out_ b') (sack_out_ b')
  /\ nxt_to_retrx_ b' = nxt_to_retrx_ b.
Proof.
  intros Hwf Hns b'.
  destruct (SetFlag_spec SKB_FLAG_LOST n) as (Ea & Es & Ee & El & Ef); [done|].
  pose proof (wf_relabel una A n (SetFlag SKB_FLAG_LOST n) B _ _ _ Hwf Ea Es Ee) as Hr.
  rewrite !count_SetFlag, !count_flag in Hr by done.
  rewrite !(bool_decide_eq_false_2 (flag_ n = SKB_FLAG_SACKED)),
    (bool_decide_eq_true_2 (SKB_FLAG_LOST = SKB_FLAG_LOST)),
    (bool_decide_eq_false_2 (SKB_FLAG_LOST = SKB_FLAG_SACKED)) in Hr by done.
  rewrite Z.sub_0_r, Z.add_0_r in Hr. subst b'. unfold is_flag. rewrite <- GetLength_end.
  case_bool_decide; cbn; [rewrite Z.sub_diag, Z.add_0_r in Hr|rewrite Z.sub_0_r in Hr]; done.
Qed.

Lemma mark_now_ok una hi l0 prev now rest ll b :
  mark_inv una hi l0 prev (now :: rest) ll b ->
  returns (mark_now prev now ll b) (fun '(done, b', ll') =>
    mark_inv una hi l0 done rest ll' b' /\ done <> [] /\ seq_ now < chain_end una (rev done)
    /\ fack_ b' = fack_ b).
Proof.
  intros [Hwf He Hr Hl Hm Hs]. unfold mark_now.
  pose proof (wb_chain _ _ _ _ _ Hwf) as Hc. rewrite chain_app in Hc.
  destruct Hc as (_ & Hseq & Hend & _).
  case_cond.
  - apply is_flag_true in Hc. cbn [returns]. split; [|split; [done|split; [|done]]].
    + constructor; cbn [rev]; rewrite <- ?app_assoc; try done; [intros a Ha; right; auto|].
      intros n [<-|Hn]; auto.
    + cbn [rev]. rewrite chain_end_app. cbn. lia.
  - apply is_flag_false in Hc. destruct (wf_lose una _ _ _ _ Hwf Hc) as [Hw Hrx].
    set (b1 := if is_flag SKB_FLAG_LOST now then b else _) in *.
    assert (Hf1 : fack_ b1 = fack_ b) by (subst b1; by case_cond). clearbody b1.
    destruct (SetFlag_spec SKB_FLAG_LOST now) as (Ea & Es & Ee & _ & Ef); [done|].
    assert (Hs1 := sacked_lose (rev prev) now rest). specialize (fun p => Hs1 p Hc) as Hs2.
    set (now' := SetFlag SKB_FLAG_LOST now) in *.
    assert (He1 : chain_end una (rev prev ++ now' :: rest) <= hi).
    { rewrite chain_end_app in *. cbn in *. by rewrite Ee. }
    destruct ll.
    + destruct Hl as (p & d & -> & Hp & Hnn); [done|]. cbn [returns].
      cbn [rev] in *. rewrite <- !app_assoc in *. cbn [app] in *.
      destruct (wf_merge una (rev d) p now' rest _ _ _ Hw) as (H1 & H2 & H3 & H4);
        [by apply is_flag_false; rewrite Hp|by apply is_flag_false; rewrite Ef|congruence|].
      split; [|split; [done|split; [|done]]].
      * constructor; cbn [rev]; rewrite <- ?app_assoc; cbn [app]; rewrite ?Hrx; try done; [lia| | |].
        -- intros _. by exists (Merge p now'), d.
        -- intros n [<-|Hn]; [by left|apply Hm; by right].
        -- intros q. rewrite <- Hs. rewrite <- (Hs2 q). unfold sacked. by rewrite H4.
      * cbn [rev]. rewrite chain_end_app. cbn. rewrite H3, Ee. lia.
    + cbn [returns]. split; [|split; [done|split]].
      * assert (Hsb : brk_ (set_retrx (addr_ now') b1) = brk_ b1
          /\ fack_out_ (set_retrx (addr_ now') b1) = fack_out_ b1
          /\ sack_out_ (set_retrx (addr_ now') b1) = sack_out_ b1)
          by (unfold set_retrx; by destruct (nxt_to_retrx_ b1)).
        destruct Hsb as (E1 & E2 & E3).
        constructor; cbn [rev]; rewrite <- ?app_assoc; cbn [app]; rewrite ?E1, ?E2, ?E3; try done.
        -- intros a. unfold set_retrx. destruct (nxt_to_retrx_ b1) eqn:En; cbn; [|intros [= <-]; by left].
           rewrite En. intros [= <-]. right. apply Hr. congruence.
        -- intros _. exists now', prev. split; [done|]. split; [done|]. unfold set_retrx.
           destruct (nxt_to_retrx_ b1) eqn:En; cbn; congruence.
        -- intros n [<-|Hn]; [by left|by apply Hm].
        -- intros q. by rewrite Hs2.
      * cbn [rev]. rewrite chain_end_app. cbn. rewrite Ee. lia.
      * unfold set_retrx. by destruct (nxt_to_retrx_ b1).
Qed.

(** Blocks that are all lost or sacked leave nothing in flight. *)
Lemma count_marked lo l :
  chain lo l -> (forall n, In n l -> flag_ n = SKB_FLAG_LOST \/ flag_ n = SKB_FLAG_SACKED) ->
  count SKB_FLAG_LOST l + count SKB_FLAG_SACKED l = chain_end lo l - lo.
Proof.
  revert lo. induction l as [|n l IH]; intros lo Hc Hm; cbn; [lia|].
  destruct Hc as (Hs & He & Hc). specialize (IH _ Hc (fun m Hi => Hm m (or_intror Hi))).
  pose proof (GetLength_end n). unfold is_flag.
  destruct (Hm n (or_introl eq_refl)) as [->| ->]; repeat case_bool_decide; congruence || lia.
Qed.

Lemma status_marked lo l p :
  chain lo l -> (forall n, In n l -> flag_ n = SKB_FLAG_LOST \/ flag_ n = SKB_FLAG_SACKED) ->
  lo <= p < chain_end lo l -> status l p = Some SKB_FLAG_LOST \/ sacked l p.
Proof.
  unfold sacked. revert lo. induction l as [|n l IH]; intros lo Hc Hm Hp; cbn in *; [lia|].
  destruct Hc as (Hs & He & Hc). destruct (Inside p n) eqn:Hi.
  - destruct (Hm n (or_introl eq_refl)) as [->| ->]; auto.
  - apply Inside_false in Hi. apply (IH _ Hc); [auto|lia].
Qed.

Lemma sacked_append l n p : flag_ n <> SKB_FLAG_SACKED -> sacked (l ++ [n]) p <-> sacked l p.
Proof.
  intros Hn. unfold sacked. rewrite status_app. destruct (status l p); [done|]. cbn.
  destruct (Inside p n); [|done]. split; congruence.
Qed.

(** What MarkLoss starts from and what its loop keeps. *)
Definition mark_loop_inv (una hi F : Z) (l0 : list ScoreBoardNode1) (m : marking) : Prop :=
  mark_inv una hi l0 (m_prev m) (m_list m) (m_last_lost m) (m_sb m) /\ fack_ (m_sb m) = F
  /\ (m_list m = [] -> m_prev m <> [] -> chain_end una (rev (m_prev m)) = hi)
  /\ (l0 <> [] -> rev (m_prev m) ++ m_list m <> []).

Definition mark_measure (hi : Z) (m : marking) : Z :=
  match m_list m with [] => 0 | n :: _ => hi - seq_ n end.

Lemma mark_body_ok una hi F l0 m :
  mark_loop_inv una hi F l0 m -> m_list m <> [] ->
  returns (mark_body hi m) (fun m' =>
    mark_loop_inv una hi F l0 m' /\ 0 <= mark_measure hi m' < mark_measure hi m).
Proof.
  intros (Hm & HF & _ & _) Hne. unfold mark_body, mark_measure.
  destruct (m_list m) as [|now rest]; [done|]. clear Hne.
  assert (Hnow : seq_ now < hi).
  { destruct Hm as [Hwf He _ _ _ _]. destruct Hwf as [Hc _ _ _ _]. rewrite chain_app in Hc.
    destruct Hc as (_ & Hs & Hl & Hc). rewrite chain_end_app in He. cbn in He.
    apply chain_end_ge in Hc. lia. }
  eapply returns_bind; [by apply mark_now_ok|].
  intros [[done b'] ll'] (Hi & Hdn & Hseq & Hf').
  destruct done as [|prev d]; [done|]. clear Hdn.
  assert (Hpe : chain_end una (rev (prev :: d)) = GetEnd prev + 1)
    by (cbn [rev]; by rewrite chain_end_app).
  destruct rest as [|n rest].
  - case_cond; cbn [returns].
    + apply Z.ltb_lt in Hc. destruct Hi as [Hwf He Hr Hl Hmk Hs]. rewrite app_nil_r in *.
      set (n := mk_node (brk_ b') SKB_FLAG_INFLIGHT (GetEnd prev + 1) (hi - 1) 0).
      assert (En : GetEnd n = hi - 1) by done.
      pose proof (wf_append una _ n _ _ _ Hwf eq_refl (eq_sym Hpe)) as Hw.
      rewrite En in Hw. specialize (Hw ltac:(cbn; lia)).
      change (count SKB_FLAG_LOST [n]) with 0 in Hw. change (count SKB_FLAG_SACKED [n]) with 0 in Hw.
      rewrite !Z.add_0_r in Hw.
      assert (Hce : chain_end una (rev (prev :: d) ++ [n]) = hi)
        by (rewrite chain_end_app; cbn [chain_end]; lia).
      split; [|cbn; lia]. split; [|split; [cbn; congruence|split; [done|]]].
      2:{ cbn [m_prev m_list]. intros _ E. by apply app_eq_nil in E as [_ E]. }
      constructor; cbn [m_prev m_list m_sb m_last_lost]; try done; [lia|].
      intros p. by rewrite sacked_append.
    + apply Z.ltb_ge in Hc. split; [|cbn; lia]. split; [done|]. cbn [m_prev m_list m_sb].
      split; [congruence|].
      split; [|rewrite app_nil_r; cbn [rev]; intros _ E; by apply app_eq_nil in E as [_ E]].
      intros _. destruct Hi as [_ He _ _ _ _]. rewrite app_nil_r in He. lia.
  - cbn [returns]. split.
    + split; [done|]. cbn [m_prev m_list m_sb]. split; [congruence|]. split; [done|].
      intros _ E. by apply app_eq_nil in E as [_ E].
    + cbn. destruct Hi as [Hwf He _ _ _ _]. destruct Hwf as [Hc _ _ _ _]. rewrite chain_app in Hc.
      destruct Hc as (_ & Hs & Hl & Hc). rewrite chain_end_app in He. cbn [chain_end] in He.
      apply chain_end_ge in Hc. lia.
Qed.

(** After MarkLoss every packet outstanding is lost or sacked, those sacked are
    the same, and nothing is in flight. *)
Lemma mark_loss_ok una hi b :
  sb_inv una hi b -> 0 <= una <= hi -> hi < 2147483648 ->
  returns (MarkLoss una hi b) (fun b' => sb_inv una hi b'
    /\ packets_in_flight una hi b' = 0
    /\ (forall p, una <= p < hi -> status (blocks b') p = Some SKB_FLAG_LOST \/ sacked (blocks b') p)
    /\ (forall p, sacked (blocks b') p <-> sacked (blocks b) p)).
Proof.
  intros [Hwf He Hf Hrx] Hu Hhi. unfold MarkLoss. cbv zeta.
  eapply returns_bind.
  { apply (c_while_rule (mark_loop_inv una hi (fack_ b) (blocks b)) (mark_measure hi)).
    - intros m Hm Hc. apply mark_body_ok; [done|by destruct (m_list m)].
    - split; [|split; [done|split; [done|done]]]. by constructor.
    - unfold mark_measure. cbn [m_list blocks set_field]. destruct (blocks b); [done|].
      destruct Hwf as [(Hs & _) _ _ _ _]. lia. }
  intros m [(Hm & HF & Hlast & Hne) Hc]. cbn [returns].
  assert (Hl : m_list m = []) by by destruct (m_list m).
  specialize (Hlast Hl). destruct Hm as [Hw Hce Hr Hll Hmk Hs]. rewrite Hl, app_nil_r in *.
  unfold packets_in_flight. destruct (m_prev m) as [|p d] eqn:Ep.
  - assert (Eb : blocks b = []) by (destruct (blocks b); [done|by destruct Hne]).
    rewrite Eb in *. destruct Hw as [_ _ _ Hfo Hso]. cbn in Hfo, Hso.
    destruct (Z.ltb_spec una hi).
    + set (n := mk_node (brk_ (m_sb m)) SKB_FLAG_LOST una (hi - 1) 0).
      assert (En : GetEnd n = hi - 1 /\ GetLength n = hi - una)
        by (split; [done|change (GetLength n) with (hi - 1 + 1 - una); lia]).
      pose proof (wf_append una [] n _ _ _ (wf_nil una _) eq_refl eq_refl) as Hn.
      rewrite (proj1 En) in Hn. specialize (Hn ltac:(cbn; lia)).
      change (count SKB_FLAG_LOST [n]) with (GetLength n + 0) in Hn.
      change (count SKB_FLAG_SACKED [n]) with 0 in Hn. rewrite (proj2 En), !Z.add_0_r, Z.add_0_l in Hn.
      cbn. rewrite Hfo, Hso. split; [|split; [lia|split]].
      * constructor; cbn; rewrite ?Hfo, ?Hso; fold n; [exact Hn|rewrite (proj1 En); lia|lia|].
        intros a [= <-]. by left.
      * intros q Hq. left. fold n. rewrite (proj2 (Inside_spec q n)); [done|]. rewrite (proj1 En). cbn. lia.
      * intros q. unfold sacked. cbn. fold n. by destruct (Inside q n).
    + split; [|split; [cbn; lia|split; [lia|done]]].
      constructor; cbn; rewrite ?Hfo, ?Hso; [apply wf_nil|done|congruence|].
      intros a Ha. by destruct (Hr a Ha).
  - specialize (Hlast ltac:(done)). pose proof (wb_chain _ _ _ _ _ Hw) as Hch.
    assert (Hmk' : forall n, In n (rev (p :: d)) -> flag_ n = SKB_FLAG_LOST \/ flag_ n = SKB_FLAG_SACKED)
      by (intros n Hn; apply Hmk; by apply in_rev).
    pose proof (count_marked _ _ Hch Hmk') as Hcnt. pose proof (wb_fack_out _ _ _ _ _ Hw).
    pose proof (wb_sack_out _ _ _ _ _ Hw).
    assert (Hgt : una < hi).
    { rewrite <- Hlast. cbn [rev] in *. rewrite chain_app in Hch. rewrite chain_end_app.
      destruct Hch as (Hd & Hp). apply chain_end_ge in Hd. apply chain_end_gt in Hp. lia. }
    set (l := rev (p :: d)) in *.
    split; [|split; [cbn; lia|split; [|done]]].
    + constructor; cbn; try done; [|].
      * destruct (rev d ++ [p]) eqn:El; [by apply app_eq_nil in El as [_ El]|].
        rewrite HF. revert Hf. destruct (blocks b); lia.
      * intros a Ha. specialize (Hr a Ha). unfold l. change (In a (map addr_ (rev (p :: d)))).
        rewrite map_rev. by apply in_rev in Hr.
    + intros q Hq. apply (status_marked una l q); [done|done|lia].
Qed.

(** ** Retransmissions *)

Lemma from_addr_spec a l :
  In a (addr_ <$> l) -> exists A n B, l = A ++ n :: B /\ from_addr a l = Some (n :: B) /\ addr_ n = a
    /\ forall m, In m A -> addr_ m <> a.
Proof.
  induction l as [|n l IH]; [done|]. intros Hin. cbn [from_addr].
  destruct (Z.eqb_spec (addr_ n) a) as [E|E]; [by exists [], n, l|].
  destruct Hin as [?|Hin]; [done|]. destruct (IH Hin) as (A & m & B & -> & HB & Hm & HA).
  exists (n :: A), m, B. split; [done|]. split; [done|]. split; [done|]. intros k [<-|Hk]; [done|auto].
Qed.

Lemma first_lost_spec l :
  match first_lost l with
  | Some n => exists A B, l = A ++ n :: B /\ flag_ n = SKB_FLAG_LOST
              /\ forall m, In m A -> flag_ m <> SKB_FLAG_LOST
  | None => forall m, In m l -> flag_ m <> SKB_FLAG_LOST
  end.
Proof.
  induction l as [|n l IH]; cbn; [done|]. destruct (is_flag SKB_FLAG_LOST n) eqn:E.
  - apply is_flag_true in E. by exists [], l.
  - apply is_flag_false in E. destruct (first_lost l) as [m|].
    + destruct IH as (A & B & -> & Hm & HA). exists (n :: A), B. split; [done|]. split; [done|].
      intros k [<-|Hk]; auto.
    + intros m [<-|Hm]; auto.
Qed.

Lemma at_addr_split a f A n B :
  addr_ n = a -> (forall m, In m A -> addr_ m <> a) -> at_addr a f (A ++ n :: B) = A ++ f n ++ B.
Proof.
  intros Hn HA. induction A as [|m A IH]; cbn.
  - by rewrite Hn, Z.eqb_refl.
  - destruct (Z.eqb_spec (addr_ m) a) as [E|E]; [by destruct (HA m (or_introl eq_refl))|].
    rewrite IH; [done|]. intros k Hk. apply HA. by right.
Qed.

Lemma from_addr_split a A n B :
  addr_ n = a -> (forall m, In m A -> addr_ m <> a) -> from_addr a (A ++ n :: B) = Some (n :: B).
Proof.
  intros Hn HA. induction A as [|m A IH]; cbn; [by rewrite Hn, Z.eqb_refl|].
  destruct (Z.eqb_spec (addr_ m) a) as [E|E]; [by destruct (HA m (or_introl eq_refl))|].
  apply IH. intros k Hk. apply HA. by right.
Qed.

(** GetNextRetran finds a lost block, or none from the pointer on. *)
Lemma get_next_retran_ok una hi b :
  sb_inv una hi b ->
  returns (GetNextRetran b) (fun '(s, b') => sb_inv una hi b'
    /\ b' = b <| nxt_to_retrx_ := nxt_to_retrx_ b' |>
    /\ match nxt_to_retrx_ b' with
       | None => s = -1
       | Some a => exists A n B, blocks b = A ++ n :: B /\ addr_ n = a /\ seq_ n = s
                     /\ flag_ n = SKB_FLAG_LOST
       end).
Proof.
  intros [Hwf He Hf Hrx]. unfold GetNextRetran, deref_retrx.
  assert (Hl : exists A l, blocks b = A ++ l /\ returns (match nxt_to_retrx_ b with
    | None => Ok [] | Some a => match from_addr a (blocks b) with Some l => Ok l | None => Trap UseAfterFree end end)
    (fun l' => l' = l)).
  { destruct (nxt_to_retrx_ b) as [a|]; [|exists (blocks b), []; by rewrite app_nil_r].
    destruct (from_addr_spec a (blocks b) (Hrx a eq_refl)) as (A & n & B & E & -> & _).
    by exists A, (n :: B). }
  destruct Hl as (A & l & EA & Hl). eapply returns_bind; [exact Hl|]. clear Hl. intros l' ->.
  cbv zeta. cbn [returns nxt_to_retrx_ set_field]. pose proof (first_lost_spec l) as Hfl.
  assert (Hin : forall a, addr_ <$> first_lost l = Some a -> In a (addr_ <$> blocks b)).
  { intros a Ha. destruct (first_lost l) as [n|]; [|done]. injection Ha as <-.
    destruct Hfl as (C & D & -> & _). rewrite EA, fmap_app. apply in_or_app. right.
    rewrite fmap_app. apply in_or_app. right. by left. }
  split; [by constructor|]. split; [by destruct b|]. cbn.
  destruct (first_lost l) as [n|]; [|done]. destruct Hfl as (C & D & -> & Hn & _). cbn.
  exists (A ++ C), n, D. rewrite EA, <- app_assoc. done.
Qed.

(** The retransmission of the first packet of a lost block. *)
Lemma node_mark_retran_spec n a snd_nxt rtx p :
  flag_ n = SKB_FLAG_LOST -> seq_ n <= GetEnd n ->
  let M := node_mark_retran a snd_nxt rtx n in
  chain (seq_ n) M /\ chain_end (seq_ n) M = GetEnd n + 1
  /\ addr_ <$> M = addr_ n :: (if seq_ n <? nxt_ n then [a] else [])
  /\ count SKB_FLAG_LOST M = GetLength n - 1 /\ count SKB_FLAG_SACKED M = 0
  /\ status M p = if p =? seq_ n then Some SKB_FLAG_RETRANSMITTED else status [n] p.
Proof.
  intros Hf He. assert (Hl : retransmitted n = false) by (apply is_flag_false; congruence).
  pose proof (GetEnd_live _ Hl) as E. rewrite E in He.
  set (n' := mk_node (addr_ n) SKB_FLAG_RETRANSMITTED (seq_ n) snd_nxt rtx).
  set (m := mk_node a (flag_ n) (seq_ n + 1) (nxt_ n) 0).
  assert (HL : GetLength n = nxt_ n + 1 - seq_ n) by (unfold GetLength; by rewrite Hl).
  assert (Hm : retransmitted m = false) by (by apply is_flag_false; cbn; rewrite Hf).
  assert (Em : GetEnd m = nxt_ n) by (by rewrite GetEnd_live).
  assert (Lm : GetLength m = nxt_ n - seq_ n) by (unfold GetLength; rewrite Hm; cbn; lia).
  assert (In' : Inside p n' = (p =? seq_ n)) by done.
  assert (Cm : is_flag SKB_FLAG_LOST m = true /\ is_flag SKB_FLAG_SACKED m = false)
    by (unfold is_flag; cbn; by rewrite Hf).
  destruct Cm as [Cm1 Cm2]. change (GetEnd n') with (seq_ n) in *.
  assert (EM : node_mark_retran a snd_nxt rtx n = if seq_ n <? nxt_ n then [n'; m] else [n'])
    by (unfold node_mark_retran; by case_cond).
  rewrite EM. clear EM.
  destruct (Z.ltb_spec (seq_ n) (nxt_ n)) as [Hlt|Hge]; cbv zeta.
  - split; [|split; [|split; [done|split; [|split]]]].
    + cbn [chain]. change (GetEnd n') with (seq_ n). rewrite Em. cbn. lia.
    + cbn [chain_end]. rewrite Em. lia.
    + cbn [count]. rewrite Cm1. change (is_flag SKB_FLAG_LOST n') with false. cbn iota. lia.
    + cbn [count]. rewrite Cm2. change (is_flag SKB_FLAG_SACKED n') with false. cbn iota. lia.
    + cbn [status]. rewrite In'. destruct (Z.eqb_spec p (seq_ n)); [done|].
      destruct (Inside p m) eqn:Ei.
      * apply Inside_spec in Ei. change (seq_ m) with (seq_ n + 1) in Ei.
        rewrite (proj2 (Inside_spec p n)); [done|lia].
      * apply Inside_false in Ei. change (seq_ m) with (seq_ n + 1) in Ei.
        rewrite (proj2 (Inside_false p n)); [done|lia].
  - split; [|split; [|split; [done|split; [|split]]]].
    + cbn [chain]. change (GetEnd n') with (seq_ n). cbn. lia.
    + cbn [chain_end]. change (GetEnd n') with (seq_ n). lia.
    + cbn [count]. change (is_flag SKB_FLAG_LOST n') with false. cbn iota. lia.
    + done.
    + cbn [status]. rewrite In'. destruct (Z.eqb_spec p (seq_ n)); [done|].
      rewrite (proj2 (Inside_false p n)); [done|lia].
Qed.

Lemma mark_retran_ok una hi b a n A B :
  sb_inv una hi b -> nxt_to_retrx_ b = Some a -> blocks b = A ++ n :: B -> addr_ n = a ->
  flag_ n = SKB_FLAG_LOST ->
  returns (MarkRetran (seq_ n) hi b) (fun b' => sb_inv una hi b'
    /\ (forall p, status (blocks b') p =
          if p =? seq_ n then Some SKB_FLAG_RETRANSMITTED else status (blocks b) p)
    /\ fack_out_ b' = fack_out_ b - 1 /\ sack_out_ b' = sack_out_ b
    /\ status (blocks b) (seq_ n) = Some SKB_FLAG_LOST /\ last_rtx_seq_ b' = seq_ n).
Proof.
  intros [Hwf He Hf Hrx] Ha Eb Hn Hfl. pose proof Hwf as [Hc Hnd Hb Hfo Hso].
  rewrite Eb in Hc, Hnd. rewrite chain_app in Hc. destruct Hc as (HcA & HsA & HeN & HcB).
  rewrite fmap_app in Hnd. apply NoDup_app in Hnd as (_ & Hnd1 & Hnd2).
  assert (HA : forall m, In m A -> addr_ m <> a).
  { intros m Hm E. apply (Hnd1 a); [|set_solver]. apply list_elem_of_fmap. exists m.
    split; [done|]. by apply list_elem_of_In. }
  unfold MarkRetran, deref_retrx. rewrite Ha, Eb, from_addr_split by done. c_ret.
  rewrite (proj2 (Inside_spec (seq_ n) n)) by lia. change (c_assert true) with (Ok ()). c_ret. cbv zeta.
  destruct (node_mark_retran_spec n (brk_ b) hi (rtx_id_ b) 0 Hfl HeN) as (H1 & H2 & H3 & H4 & H5 & _).
  assert (Hst : forall p, status (node_mark_retran (brk_ b) hi (rtx_id_ b) n) p =
    if p =? seq_ n then Some SKB_FLAG_RETRANSMITTED else status [n] p)
    by (intros p; by apply node_mark_retran_spec).
  set (M := node_mark_retran _ _ _ _) in *.
  assert (Hcl : count SKB_FLAG_LOST [n] = GetLength n /\ count SKB_FLAG_SACKED [n] = 0)
    by (rewrite !count_flag, Hfl; done).
  assert (Hwf0 : wf_blocks una (A ++ [n] ++ B) (brk_ b) (fack_out_ b) (sack_out_ b))
    by (by rewrite Eb in Hwf).
  pose proof (wf_blocks_replace una A [n] M B (brk_ b) (brk_ b + 1) _ _ Hwf0) as Hr.
  rewrite H4, H5, (proj1 Hcl), (proj2 Hcl) in Hr.
  assert (Hbrk : addr_ n < brk_ b) by (rewrite Forall_forall in Hb; apply Hb; rewrite Eb; set_solver).
  assert (Hwf' : wf_blocks una (A ++ M ++ B) (brk_ b + 1) (fack_out_ b - 1) (sack_out_ b)).
  { replace (fack_out_ b - 1) with (fack_out_ b + (GetLength n - 1 - GetLength n)) by lia.
    replace (sack_out_ b) with (sack_out_ b + (0 - 0)) by lia. apply Hr.
    - intros lo (E & _ & _). subst lo. rewrite <- E. split; [done|right]. rewrite H2. cbn. done.
    - rewrite H3. case_cond; [|apply NoDup_singleton].
      apply NoDup_cons. split; [|apply NoDup_singleton]. rewrite list_elem_of_singleton. lia.
    - lia.
    - rewrite H3. intros x Hx. case_cond_in Hx; set_solver by lia. }
  pose proof (wb_fack_out _ _ _ _ _ Hwf') as Hfo'. pose proof (wb_chain _ _ _ _ _ Hwf') as Hch'.
  pose proof (count_nonneg SKB_FLAG_LOST _ _ Hch').
  unfold c_assert. cbn [fack_out_ set_field].
  destruct (Z.leb_spec 0 (fack_out_ b - 1)); [|lia]. c_ret. cbn [returns].
  match goal with |- sb_inv _ _ ?b' /\ _ => set (b2 := b') end.
  assert (Eb2 : blocks b2 = A ++ M ++ B).
  { transitivity (at_addr (addr_ n) (node_mark_retran (brk_ b) hi (rtx_id_ b)) (blocks b)); [done|].
    rewrite Eb. apply at_addr_split; [done|]. by rewrite Hn. }
  assert (HstA : status A (seq_ n) = None).
  { clear -HcA HsA. revert HcA HsA. generalize una. induction A as [|m A IH]; intros lo Hc Hs; [done|].
    cbn in *. destruct Hc as (_ & Hm & Hc). pose proof (chain_end_ge _ _ Hc).
    rewrite (proj2 (Inside_false (seq_ n) m)) by lia. by apply (IH (GetEnd m + 1)). }
  assert (Hend : chain_end una (A ++ M ++ B) = chain_end una (A ++ n :: B)).
  { rewrite !chain_end_app, <- HsA, H2. done. }
  split; [|split; [|split; [done|split; [done|split; [|done]]]]].
  - constructor; rewrite ?Eb2; [exact Hwf'|rewrite Hend, <- Eb; exact He| |].
    + rewrite Eb in Hf. change (fack_ b2) with (fack_ b).
      destruct (A ++ M ++ B) eqn:EA; [|by destruct A]. exfalso.
      rewrite chain_end_app in Hend. cbn [chain_end] in Hend. apply chain_end_ge in HcB, HcA. lia.
    + intros x Hx. change (nxt_to_retrx_ b2) with (nxt_to_retrx_ b) in Hx. rewrite Ha in Hx. injection Hx as <-.
      rewrite !fmap_app, H3, Hn. apply in_or_app. right. by left.
  - intros p. rewrite Eb2, !status_app, Hst. cbn [status].
    destruct (Z.eqb_spec p (seq_ n)) as [->|]; [by rewrite HstA|].
    destruct (status A p); [done|]. by destruct (Inside p n).
  - rewrite status_app, HstA. cbn. rewrite (proj2 (Inside_spec (seq_ n) n)) by lia. by rewrite Hfl.
Qed.

(** One step of a run keeps the invariant. *)
Definition sb_ok (st : sb_state) : Prop :=
  sb_inv (una st) (snx st) (board st) /\ 0 <= una st <= snx st /\ snx st < 2147483648.

Lemma sb_clear_inv lo hi b : lo <= hi -> sb_inv lo hi (ClearScoreBoard b).
Proof. intros Hle. constructor; cbn; [apply wf_nil|lia|done|done]. Qed.

Lemma sb_run_ok dt ev st : sb_ok st -> sb_valid ev st -> returns (sb_run dt ev st) sb_ok.
Proof.
  intros (Hi & Hu & Hhi) Hv. destruct ev as [la sacks| | |n|]; cbn [sb_run sb_valid] in *.
  - destruct Hv as [Hla Hv].
    eapply returns_bind; [apply (update_ok (una st) (snx st)); [done|lia|lia|done|done]|].
    intros [b' f] Hb'. split; [done|cbn; lia].
  - eapply returns_bind; [by apply mark_loss_ok|]. intros b' (Hb' & _). split; [done|cbn; lia].
  - eapply returns_bind with (P := sb_inv (una st) (snx st)); [|intros b' Hb'; split; [done|cbn; lia]].
    unfold sb_retransmit. eapply returns_bind; [by apply get_next_retran_ok|].
    intros [s b'] (Hb' & Heq & Hn). case_cond; [done|].
    assert (Ebl : blocks b' = blocks (board st)) by (by rewrite Heq). clear Heq.
    destruct (nxt_to_retrx_ b') as [a|] eqn:Ea; [|lia].
    destruct Hn as (A & n & B & Eb & Hna & <- & Hf). rewrite <- Ebl in Eb.
    eapply returns_mono; [apply (mark_retran_ok (una st) _ _ a n A B); try done|by intros b'' []].
  - destruct Hi as [H1 H2 H3 H4]. split; [|cbn; lia].
    change (sb_inv (una st) n (board st)).
    constructor; [done|lia| |done]. revert H3.
    destruct (blocks (board st)); [done|lia].
  - split; [apply sb_clear_inv; cbn; lia|cbn; lia].
Qed.

Lemma sb_reach_ok dt st : sb_reach dt st -> sb_ok st.
Proof.
  induction 1 as [|ev st st' Hr IH Hv Hrun].
  - split; [|cbn; lia]. by apply (sb_clear_inv 0 0).
  - pose proof (sb_run_ok dt ev st IH Hv) as H. by rewrite Hrun in H.
Qed.

(** ** What the counts count *)

Lemma status_None l lo p : chain lo l -> chain_end lo l <= p -> status l p = None.
Proof.
  revert lo. induction l as [|n l IH]; cbn; intros lo; [done|]. intros (_ & _ & Hc) Hp.
  pose proof (chain_end_ge _ _ Hc). rewrite (proj2 (Inside_false p n)) by lia. by apply (IH (GetEnd n + 1)).
Qed.

Lemma filter_ext_in {A} (P Q : A -> Prop) `{!forall x, Decision (P x), !forall x, Decision (Q x)} (l : list A) :
  (forall x, x ∈ l -> P x <-> Q x) -> filter P l = filter Q l.
Proof.
  induction l as [|x l IH]; intros Hl; [done|]. rewrite !filter_cons, IH by set_solver.
  pose proof (Hl x ltac:(set_solver)). do 2 case_decide; tauto.
Qed.

Lemma filter_const {A} (P : A -> Prop) `{!forall x, Decision (P x)} (b : bool) (l : list A) :
  (forall x, x ∈ l -> P x <-> b = true) -> filter P l = if b then l else [].
Proof.
  induction l as [|x l IH]; intros Hl; [by destruct b|]. rewrite filter_cons, IH by set_solver.
  pose proof (Hl x ltac:(set_solver)). case_decide; destruct b; naive_solver.
Qed.

Lemma count_status f lo l :
  chain lo l ->
  Z.of_nat (length (filter (fun p => status l p = Some f) (seqZ lo (chain_end lo l - lo)))) = count f l.
Proof.
  revert lo. induction l as [|n l IH]; intros lo; cbn [chain chain_end count].
  { intros _. by rewrite Z.sub_diag. }
  intros (Hs & Hn & Hc). pose proof (chain_end_ge _ _ Hc) as Hge.
  replace (chain_end (GetEnd n + 1) l - lo) with ((GetEnd n + 1 - lo) + (chain_end (GetEnd n + 1) l - (GetEnd n + 1)))
    by lia.
  rewrite seqZ_app, filter_app, length_app, Nat2Z.inj_add by lia. f_equal.
  - rewrite (filter_const _ (is_flag f n)).
    + destruct (is_flag f n); [|done]. rewrite length_seqZ, GetLength_end. lia.
    + intros p Hp. apply elem_of_seqZ in Hp. cbn [status].
      rewrite (proj2 (Inside_spec p n)) by lia. rewrite is_flag_true. naive_solver.
  - rewrite <- (IH (GetEnd n + 1)) by done. do 2 f_equal.
    replace (lo + (GetEnd n + 1 - lo)) with (GetEnd n + 1) by lia. apply filter_ext_in.
    intros p Hp. apply elem_of_seqZ in Hp. cbn [status]. by rewrite (proj2 (Inside_false p n)) by lia.
Qed.

(** The board's own count of the packets in flight is right. *)
Lemma packets_in_flight_number una hi b :
  sb_inv una hi b -> packets_in_flight una hi b = number_in_flight (blocks b) una hi.
Proof.
  intros [[Hc _ _ Hf Hs] He _ _]. unfold packets_in_flight, number_in_flight. rewrite Hf, Hs.
  rewrite <- !(count_status _ una) by done. pose proof (chain_end_ge _ _ Hc) as Hge.
  set (e := chain_end una (blocks b)) in *.
  assert (Hsplit : forall l, Z.of_nat (length l) =
    Z.of_nat (length (filter (in_flight (blocks b)) l))
    + Z.of_nat (length (filter (fun p => status (blocks b) p = Some SKB_FLAG_LOST) l))
    + Z.of_nat (length (filter (fun p => status (blocks b) p = Some SKB_FLAG_SACKED) l))).
  { induction l as [|x l IH]; [done|]. rewrite !filter_cons. unfold in_flight in *.
    repeat case_decide; cbn [length]; try lia; naive_solver. }
  pose proof (Hsplit (seqZ una (e - una))) as H. rewrite length_seqZ in H.
  replace (hi - una) with ((e - una) + (hi - e)) by lia.
  rewrite seqZ_app, filter_app, length_app by lia.
  rewrite (filter_const (in_flight (blocks b)) true (seqZ (una + (e - una)) (hi - e))).
  - rewrite length_seqZ. lia.
  - intros p Hp. apply elem_of_seqZ in Hp. split; [done|]. intros _.
    unfold in_flight. rewrite (status_None _ una p) by (try done; fold e; lia). done.
Qed.

(** ** The example runs *)

Lemma sb_lost_reach : sb_reach 3 sb_lost.
Proof.
  assert (H0 : sb_reach 3 sb_sent).
  { apply (sb_reach_step 3 (SbSend 20) sb_init); [constructor|cbn; lia|by vm_compute]. }
  apply (sb_reach_step 3 (SbAck 0 [(6, 8)]) sb_sent); [done| |by vm_compute].
  split; [cbn; lia|]. intros l r [[= <- <-]|[]]. right. cbn. lia.
Qed.

Lemma sb_rtx_reach : sb_reach 3 sb_rtx.
Proof. apply (sb_reach_step 3 SbRetransmit sb_lost); [apply sb_lost_reach|done|by vm_compute]. Qed.

(** * Properties *)


(** C35: at any time, the number of packets in flight the window is compared
    with ([snd_nxt - snd_una - fack_out_ - sack_out_]) is exactly the number of
    packets sent, not acknowledged, and neither lost nor sacked. *)
Theorem in_flight_exact dupack_threshold st :
  sb_reach dupack_threshold st ->
  packets_in_flight (una st) (snx st) (board st) = number_in_flight (blocks (board st)) (una st) (snx st).
Proof. intros Hr. apply packets_in_flight_number, (sb_reach_ok dupack_threshold). done. Qed.

(** A timeout (MarkLoss) leaves nothing in flight: every packet sent and
    not acknowledged is lost, unless it was sacked, and the sacked ones stay. *)
Theorem timeout_marks_all_lost dupack_threshold st :
  sb_reach dupack_threshold st ->
  returns (MarkLoss (una st) (snx st) (board st)) (fun b =>
    packets_in_flight (una st) (snx st) b = 0
    /\ forall p, una st <= p < snx st ->
         status (blocks b) p = if decide (status (blocks (board st)) p = Some SKB_FLAG_SACKED)
                               then Some SKB_FLAG_SACKED else Some SKB_FLAG_LOST).
Proof.
  intros Hr. apply sb_reach_ok in Hr as (Hi & Hu & Hhi).
  eapply returns_mono; [by apply mark_loss_ok|]. intros b (_ & H0 & Hl & Hs). split; [done|].
  intros p Hp. case_decide as E; [by apply Hs|]. destruct (Hl p Hp) as [|H]; [done|]. by apply Hs in H.
Qed.

(** A retransmission (GetNextRetran, then MarkRetran) takes a lost packet,
    which becomes retransmitted and counts as in flight again, and touches no
    other packet; or GetNextRetran finds none and nothing is touched. *)
Theorem retransmit_one dupack_threshold st :
  sb_reach dupack_threshold st ->
  returns (sb_retransmit (snx st) (board st)) (fun b =>
    let n := number_in_flight (blocks (board st)) (una st) (snx st) in
    GetNextRetran (board st) = Ok (-1, b) /\ blocks b = blocks (board st)
    \/ exists p b', GetNextRetran (board st) = Ok (p, b') /\ status (blocks (board st)) p = Some SKB_FLAG_LOST
         /\ (forall q, status (blocks b) q =
               if q =? p then Some SKB_FLAG_RETRANSMITTED else status (blocks (board st)) q)
         /\ packets_in_flight (una st) (snx st) b = n + 1).
Proof.
  intros Hr. apply sb_reach_ok in Hr as (Hi & Hu & Hhi). unfold sb_retransmit. cbv zeta.
  rewrite <- packets_in_flight_number by done.
  pose proof (get_next_retran_ok (una st) (snx st) (board st) Hi) as Hg.
  apply returns_inv in Hg as ([s b'] & Hg & Hb' & Heq & Hn). rewrite Hg, bind_Ok.
  assert (Ebl : blocks b' = blocks (board st) /\ fack_out_ b' = fack_out_ (board st)
    /\ sack_out_ b' = sack_out_ (board st)) by (by rewrite Heq). clear Heq.
  destruct Ebl as (Ebl & Ef & Es). destruct (Z.eqb_spec s (-1)) as [->|Hs]; [by left|].
  destruct (nxt_to_retrx_ b') as [a|] eqn:Ea; [|lia].
  destruct Hn as (A & n & B & Eb & Hna & <- & Hf). rewrite <- Ebl in *.
  eapply returns_mono; [by apply (mark_retran_ok (una st) _ _ a n A B)|].
  intros b'' (_ & H1 & H2 & H3 & H4 & H5). right. exists (seq_ n), b'.
  unfold packets_in_flight.
  split_and!; [done|done|exact H1|lia].
Qed.

(** A D-SACK stalls the retransmissions.  The filter meant to drop D-SACKs
    keeps the block [last_ack, last_ack + 1); on the board [sb_rtx], where
    packets 2 and 3 are lost and 2 is next to be retransmitted, the traversal
    it starts forgets the next block to retransmit and stops at once, and no
    lost packet is found any more. *)
Theorem dsack_stalls_retransmission :
  sb_reach 3 sb_rtx
  /\ (exists b, GetNextRetran (board sb_rtx) = Ok (2, b))
  /\ exists st, sb_run 3 (SbAck 0 [(0, 1)]) sb_rtx = Ok st
     /\ status (blocks (board st)) 2 = Some SKB_FLAG_LOST
     /\ GetNextRetran (board st) = Ok (-1, board st).
Proof.
  split; [apply sb_rtx_reach|]. split; [eexists; vm_compute; reflexivity|].
  assert (H : exists st, sb_run 3 (SbAck 0 [(0, 1)]) sb_rtx = Ok st).
  { assert (returns (sb_run 3 (SbAck 0 [(0, 1)]) sb_rtx) (fun _ => True)) as H by by vm_compute.
    apply returns_inv in H as (st & H & _). by exists st. }
  destruct H as [st Hst]. exists st. split; [done|].
  vm_compute in Hst. injection Hst as <-. by vm_compute.
Qed.

(** ** Witnesses *)


Lemma in_flight_exact_witness :
  packets_in_flight (una sb_rtx) (snx sb_rtx) (board sb_rtx) = 15
  /\ packets_in_flight (una sb_rtx) (snx sb_rtx) (board sb_rtx)
     = number_in_flight (blocks (board sb_rtx)) (una sb_rtx) (snx sb_rtx).
Proof. split; [reflexivity|]. apply (in_flight_exact 3), sb_rtx_reach. Defined.

Lemma timeout_marks_all_lost_witness :
  returns (MarkLoss (una sb_rtx) (snx sb_rtx) (board sb_rtx)) (fun b =>
    packets_in_flight (una sb_rtx) (snx sb_rtx) b = 0
    /\ forall p, una sb_rtx <= p < snx sb_rtx ->
         status (blocks b) p = if decide (status (blocks (board sb_rtx)) p = Some SKB_FLAG_SACKED)
                               then Some SKB_FLAG_SACKED else Some SKB_FLAG_LOST).
Proof. apply (timeout_marks_all_lost 3), sb_rtx_reach. Defined.

Lemma retransmit_one_witness :
  returns (sb_retransmit (snx sb_rtx) (board sb_rtx)) (fun b =>
    let n := number_in_flight (blocks (board sb_rtx)) (una sb_rtx) (snx sb_rtx) in
    GetNextRetran (board sb_rtx) = Ok (-1, b) /\ blocks b = blocks (board sb_rtx)
    \/ exists p b', GetNextRetran (board sb_rtx) = Ok (p, b') /\ status (blocks (board sb_rtx)) p = Some SKB_FLAG_LOST
         /\ (forall q, status (blocks b) q =
               if q =? p then Some SKB_FLAG_RETRANSMITTED else status (blocks (board sb_rtx)) q)
         /\ packets_in_flight (una sb_rtx) (snx sb_rtx) b = n + 1).
Proof. apply (retransmit_one 3), sb_rtx_reach. Defined.
