(* ===== verification/Sack.v ===== *)
(** What UpdateScoreBoard (scoreboard1.cc) does with the SACK blocks of an
    acknowledgement: exactly the packets of the blocks become sacked, in one
    pass over the list, through splits, relabellings and merges of its blocks. *)
From stdpp Require Import sets sorting.
From S2P Require Import Prelude Scoreboard.

(** * Definitions *)

(** Packet [p] is in one of the SACK blocks. *)
Definition covered (sacks : list (Z * Z)) (p : Z) : Prop :=
  exists l r, In (l, r) sacks /\ l <= p < r.

(** SACK blocks do not overlap. *)
Definition disjoint_sacks (sacks : list (Z * Z)) : Prop :=
  forall s t, In s sacks -> In t sacks -> s = t \/ s.2 <= t.1 \/ t.2 <= s.1.

(** In increasing order of their left edges. *)
Definition ordered (sacks : list (Z * Z)) : Prop := StronglySorted (fun s t => s.1 <= t.1) sacks.

(** One traversal from the blocks [l0] with the SACK blocks [sacks]: behind
    [now] the packets of the SACK blocks, and only those, are newly sacked. *)
Record sack_inv (una : Z) (l0 : list ScoreBoardNode1) (sacks : list (Z * Z)) (w : walk) : Prop :=
  mk_sack_inv {
  si_sacks : exists d, sacks = d ++ w_sacks w
    /\ forall t, In t d -> t.2 <= chain_end una (rev (w_prev w));
  si_sacked : forall p, sacked (w_all w) p <->
    sacked l0 p \/ una <= p < chain_end una (rev (w_prev w)) /\ covered sacks p;
  si_fack : forall t, In t sacks -> t.2 <= fack_ (w_sb w) + 1;
  si_end : w_list w = [] -> fack_ (w_sb w) < chain_end una (rev (w_prev w));
}.

(** * Lemmas *)

(** ** The order of the SACK blocks *)

Lemma ordered_snoc l s : ordered (l ++ [s]) <-> ordered l /\ forall t, In t l -> t.1 <= s.1.
Proof.
  unfold ordered. rewrite StronglySorted_app. split.
  - intros (H & Hl & _). split; [done|]. intros t Ht. apply H; [by apply list_elem_of_In|set_solver].
  - intros [Hl H]. split_and!; [|done|by repeat constructor].
    intros t u Ht Hu. apply list_elem_of_singleton in Hu as ->. apply H. by apply list_elem_of_In.
Qed.

Lemma insert_sack_ordered s l : ordered (rev l) -> ordered (rev (insert_sack s l)).
Proof.
  induction l as [|t l IH]; cbn [insert_sack rev app].
  { intros _. by repeat constructor. }
  intros Ho. pose proof Ho as [Hl Ht]%ordered_snoc. case_cond; cbn [rev]; apply ordered_snoc.
  - split; [by apply IH|]. intros u Hu%in_rev. apply insert_sack_in in Hu as [->|Hu]; [lia|].
    apply Ht. by apply -> in_rev.
  - split; [done|]. intros u Hu%in_app_or. destruct Hu as [Hu|[<-|[]]]; [|lia].
    specialize (Ht u Hu). lia.
Qed.

Lemma sort_sacks_ordered last_ack sacks : ordered (sort_sacks last_ack sacks).
Proof.
  unfold sort_sacks. assert (H : ordered (rev [])) by constructor. revert H.
  generalize (@nil (Z * Z)) as acc. induction sacks as [|s sacks IH]; intros acc Ha; cbn [fold_left]; [done|].
  apply IH. case_cond; [by apply insert_sack_ordered|done].
Qed.

(** The last of disjoint blocks in order ends last. *)
Lemma last_ends_last l s t :
  ordered l -> disjoint_sacks l -> (forall u, In u l -> u.1 < u.2) ->
  last l = Some s -> In t l -> t.2 <= s.2.
Proof.
  intros Ho Hd Hne Hs Ht. apply last_Some in Hs as [l' ->].
  apply ordered_snoc in Ho as [_ Ho].
  assert (Hs : In s (l' ++ [s])) by (apply in_or_app; right; by left).
  apply in_app_or in Ht as Ht'. destruct Ht' as [Ht'|[<-|[]]]; [|lia].
  specialize (Ho t Ht'). pose proof (Hne s Hs). pose proof (Hne t Ht).
  destruct (Hd t s Ht Hs) as [->|[?|?]]; lia.
Qed.

Lemma skip_sacks_spec start sacks :
  exists d, sacks = d ++ skip_sacks start sacks /\ (forall t, In t d -> t.2 <= start)
  /\ match skip_sacks start sacks with [] => True | (l, r) :: _ => start < r end.
Proof.
  induction sacks as [|[l r] sacks IH]; cbn [skip_sacks]; [by exists []|]. case_cond; [|exists []; cbn; split_and!; done || lia].
  destruct IH as (d & E & Hd & Hh). exists ((l, r) :: d). cbn [app]. rewrite <- E.
  split_and!; [done| |done]. intros t [<-|Ht]; [cbn; lia|auto].
Qed.

Lemma covered_app a b p : covered (a ++ b) p <-> covered a p \/ covered b p.
Proof. unfold covered. setoid_rewrite in_app_iff. naive_solver. Qed.

Lemma covered_before d s p : (forall t, In t d -> t.2 <= s) -> s <= p -> ~ covered d p.
Proof. intros Hd Hp (l & r & Hin & Hlr). specialize (Hd _ Hin). cbn in Hd. lia. Qed.

Lemma covered_after l r sacks p : ordered ((l, r) :: sacks) -> p < l -> ~ covered ((l, r) :: sacks) p.
Proof.
  intros Ho Hp (l' & r' & Hin & Hlr). apply StronglySorted_cons in Ho as [Ho _].
  rewrite Forall_forall in Ho. destruct Hin as [[= <- <-]|Hin]; [lia|].
  specialize (Ho (l', r')). cbn in Ho. apply list_elem_of_In in Hin. specialize (Ho Hin). lia.
Qed.

(** ** The status of the packets through a step *)

(** Cutting a block in two does not change what is known of any packet. *)
Lemma split_now_status z x p :
  seq_ (z_now z) < x <= GetEnd (z_now z) -> status (z_all (split_now x z)) p = status (z_all z) p.
Proof.
  intros Hx. pose proof (live_start _ _ Hx) as Hl. pose proof (GetEnd_live _ Hl) as HE.
  unfold z_all, split_now, Split. cbn [z_prev z_now z_rest set_field]. rewrite !status_app.
  destruct (status (rev (z_prev z)) p); [done|]. cbn [status flag_].
  set (n := mk_node _ _ _ (x - 1) _). set (m := mk_node _ _ x _ _).
  assert (H : retransmitted n = false /\ retransmitted m = false) by done. destruct H as [Hn Hm].
  assert (En : GetEnd n = x - 1) by by rewrite GetEnd_live.
  assert (Em : GetEnd m = GetEnd (z_now z)) by by rewrite HE, GetEnd_live.
  assert (Hi : Inside p (z_now z) = Inside p n || Inside p m).
  { apply eq_true_iff_eq. rewrite orb_true_iff, !Inside_spec, En, Em. cbn. lia. }
  rewrite Hi. by destruct (Inside p n), (Inside p m).
Qed.

(** The current block becomes sacked. *)
Lemma sack_now_sacked una e f s P z p :
  trav_inv una e f s P z ->
  sacked (z_all (sack_now z)) p <-> sacked (z_all z) p \/ s <= p <= GetEnd (z_now z).
Proof.
  intros Hz. destruct (trav_chain _ _ _ _ _ _ Hz) as (HcP & HeP & _). destruct Hz as [_ _ _ Hs <-].
  assert (E : z_all (sack_now z) = rev (z_prev z) ++ SetFlag SKB_FLAG_SACKED (z_now z) :: z_rest z)
    by (unfold sack_now; by destruct (flag_ (z_now z))).
  rewrite E. unfold z_all, sacked. rewrite !status_app. cbn [status]. rewrite Inside_SetFlag by done.
  destruct (SetFlag_spec SKB_FLAG_SACKED (z_now z)) as (_ & _ & _ & _ & ->); [done|].
  destruct (Inside p (z_now z)) eqn:Hi.
  - apply Inside_spec in Hi. rewrite (status_None _ una p) by (done || lia).
    split; [intros _; right; lia|done].
  - apply Inside_false in Hi. split; [by left|]. intros [?|?]; [done|lia].
Qed.

Lemma lose_now_sacked z p :
  flag_ (z_now z) <> SKB_FLAG_SACKED -> sacked (z_all (lose_now z)) p <-> sacked (z_all z) p.
Proof. intros Hf. exact (sacked_lose (rev (z_prev z)) (z_now z) (z_rest z) p Hf). Qed.

Lemma sack_step_sacked una e f s P z :
  trav_inv una e f s P z -> flag_ (z_now z) <> SKB_FLAG_SACKED -> ordered (z_sacks z) ->
  let z' := sack_step z in
  (exists d, z_sacks z = d ++ z_sacks z' /\ forall t, In t d -> t.2 <= s)
  /\ forall p, (sacked (z_all z') p <->
       sacked (z_all z) p \/ s <= p <= GetEnd (z_now z') /\ flag_ (z_now z') = SKB_FLAG_SACKED)
     /\ (s <= p <= GetEnd (z_now z') ->
         covered (z_sacks z') p <-> flag_ (z_now z') = SKB_FLAG_SACKED).
Proof.
  intros Hz Hns Ho. unfold sack_step. set (z1 := z <| z_sacks := _ |>). cbv zeta.
  assert (Hz1 : trav_inv una e f s P z1) by (destruct Hz; by constructor).
  pose proof (ti_seq _ _ _ _ _ _ Hz1) as Hseq.
  assert (Hsk : (exists d, z_sacks z = d ++ z_sacks z1 /\ forall t, In t d -> t.2 <= s)
    /\ match z_sacks z1 with [] => True | (l, r) :: _ => s < r end).
  { change (z_sacks z1) with (skip_sacks (seq_ (z_now z)) (z_sacks z)).
    destruct (skip_sacks_spec s (z_sacks z)) as (d & E & Hd & Hh).
    rewrite (ti_seq _ _ _ _ _ _ Hz). split; [by exists d|done]. }
  change (z_all z) with (z_all z1). change (z_now z) with (z_now z1) in Hns.
  destruct Hsk as [Hd Hsk].
  assert (Ho1 : ordered (z_sacks z1)) by (destruct Hd as (d & E & _); rewrite E in Ho; by apply StronglySorted_app in Ho as (_ & _ & Ho)).
  clearbody z1. destruct (z_sacks z1) as [|[l r] sacks] eqn:Es.
  { rewrite Es. split; [done|]. intros p. split; [naive_solver|]. intros _.
    split; [by intros (? & ? & [] & _)|done]. }
  assert (Hin : forall p, l <= p < r -> covered ((l, r) :: sacks) p) by (intros p Hp; exists l, r; split; [by left|done]).
  case_cond.
  - case_cond.
    + destruct (split_now_inv una e f s P z1 l Hz1) as (_ & HE & HF); [lia|].
      change (z_sacks (split_now l z1)) with (z_sacks z1). rewrite Es, HE, HF.
      split; [done|]. intros p. split.
      * unfold sacked. rewrite split_now_status by lia. naive_solver.
      * intros Hp. split; [|done]. intros Hc'. by destruct (covered_after l r sacks p Ho1 ltac:(lia)).
    + set (z2 := if r <=? _ then _ else z1).
      assert (Hz2 : trav_inv una e f s P z2 /\ z_sacks z2 = (l, r) :: sacks
        /\ GetEnd (z_now z2) < r /\ flag_ (z_now z2) <> SKB_FLAG_SACKED
        /\ forall p, sacked (z_all z2) p <-> sacked (z_all z1) p).
      { subst z2. case_cond; [|split_and!; try done; lia].
        destruct (split_now_inv una e f s P z1 r Hz1) as (H & HE & HF); [lia|].
        split_and!; try done; [lia|]. intros p. unfold sacked. by rewrite split_now_status by lia. }
      clearbody z2. destruct Hz2 as (Hz2 & Es2 & Hr2 & Hf2 & Hs2).
      destruct (sack_now_inv una e f s P z2 Hz2 Hf2) as (_ & HE & HF & _).
      assert (Es3 : z_sacks (sack_now z2) = z_sacks z2) by (unfold sack_now; by destruct (flag_ (z_now z2))).
      rewrite Es3, Es2, HE, HF. split; [done|]. intros p. split.
      * rewrite (sack_now_sacked una e f s P) by done. rewrite Hs2. naive_solver.
      * intros Hp. split; [done|]. intros _. apply Hin. lia.
  - rewrite Es. split; [done|]. intros p. split; [naive_solver|]. intros Hp.
    split; [|done]. intros Hc'. by destruct (covered_after l r sacks p Ho1 ltac:(lia)).
Qed.

(** A loss does not change the sacked packets, and only ever shortens [now]. *)
Lemma loss_step_sacked dt lt z :
  let z' := loss_step dt lt z in
  z_sacks z' = z_sacks z /\ GetEnd (z_now z') <= GetEnd (z_now z)
  /\ (flag_ (z_now z) = SKB_FLAG_SACKED -> GetEnd (z_now z') = GetEnd (z_now z))
  /\ (flag_ (z_now z') = SKB_FLAG_SACKED <-> flag_ (z_now z) = SKB_FLAG_SACKED)
  /\ forall p, sacked (z_all z') p <-> sacked (z_all z) p.
Proof.
  cbv zeta. assert (Hlose : forall z', flag_ (z_now z') <> SKB_FLAG_SACKED ->
    z_sacks (lose_now z') = z_sacks z' /\ GetEnd (z_now (lose_now z')) = GetEnd (z_now z')
    /\ flag_ (z_now (lose_now z')) = SKB_FLAG_LOST
    /\ forall p, sacked (z_all (lose_now z')) p <-> sacked (z_all z') p).
  { intros z' Hf. destruct (SetFlag_spec SKB_FLAG_LOST (z_now z')) as (_ & _ & HE & _ & HF); [done|].
    split; [done|]. split; [exact HE|]. split; [exact HF|]. intros p. by apply lose_now_sacked. }
  assert (Hsame : z_sacks z = z_sacks z /\ GetEnd (z_now z) <= GetEnd (z_now z)
    /\ (flag_ (z_now z) = SKB_FLAG_SACKED -> GetEnd (z_now z) = GetEnd (z_now z))
    /\ (flag_ (z_now z) = SKB_FLAG_SACKED <-> flag_ (z_now z) = SKB_FLAG_SACKED)
    /\ forall p, sacked (z_all z) p <-> sacked (z_all z) p) by (split_and!; done || lia).
  unfold loss_step. destruct (match z_sacks z with [] => true | _ => _ end); [|by rewrite ?Hf].
  revert Hsame. destruct (flag_ (z_now z)) eqn:Hf; intros Hsame; cbv zeta; rewrite ?Hf.
  - case_cond; [|by rewrite ?Hf]. case_cond.
    + set (z1 := split_now _ z).
      assert (Hx : seq_ (z_now z) < lt + 1 <= GetEnd (z_now z)) by lia.
      assert (HE : GetEnd (z_now z1) = lt).
      { pose proof (live_start _ _ Hx) as Hl.
        change (GetEnd (z_now z1)) with (GetEnd ((z_now z) <| nxt_ := lt + 1 - 1 |>)).
        rewrite GetEnd_live; [cbn; lia|done]. }
      destruct (Hlose z1) as (H1 & H2 & H3 & H4); [change (flag_ (z_now z) <> SKB_FLAG_SACKED); by rewrite Hf|].
      rewrite H1, H2, H3, HE, ?Hf. split_and!; [done|lia|done|done|].
      intros p. rewrite H4. unfold sacked. subst z1. by rewrite split_now_status.
    + destruct (Hlose z) as (H1 & H2 & H3 & H4); [by rewrite Hf|]. rewrite H1, H2, H3, ?Hf. split_and!; done || lia.
  - by rewrite ?Hf.
  - rewrite <- Hf in Hsame |- *. exact Hsame.
  - case_cond; [|by rewrite ?Hf].
    destruct (Hlose z) as (H1 & H2 & H3 & H4); [by rewrite Hf|]. rewrite H1, H2, H3, ?Hf. split_and!; done || lia.
Qed.

(** The merge of [now] with the block before changes nothing of any packet. *)
Lemma merged_status una e f s P z p :
  trav_inv una e f s P z ->
  status (rev (merged z) ++ z_rest z) p = status (z_all z) p
  /\ chain_end una (rev (merged z)) = GetEnd (z_now z) + 1.
Proof.
  intros Hz. destruct (trav_chain _ _ _ _ _ _ Hz) as (HcP & HeP & Hcn & _ & _).
  destruct Hz as [Hwf He Hf Hsq <-]. unfold merged, z_all in *.
  assert (Hkeep : status (rev (z_now z :: z_prev z) ++ z_rest z) p = status (rev (z_prev z) ++ z_now z :: z_rest z) p
    /\ chain_end una (rev (z_now z :: z_prev z)) = GetEnd (z_now z) + 1)
    by (cbn [rev]; rewrite <- app_assoc, chain_end_app; done).
  destruct (z_prev z) as [|q d]; [done|]. destruct (Mergable q (z_now z)) eqn:Hm; [|done].
  clear Hkeep. apply andb_true_iff in Hm as [Hn Hfl].
  apply negb_true_iff in Hn. apply bool_decide_eq_true in Hfl.
  assert (Hq : retransmitted q = false) by (apply is_flag_false; rewrite <- Hfl; by apply is_flag_false in Hn).
  cbn [rev] in *. rewrite <- !app_assoc in *. cbn [app] in *.
  destruct (wf_merge _ _ _ _ _ _ _ _ Hwf Hq Hn Hfl) as (_ & _ & H3 & H4).
  split; [apply H4|]. rewrite chain_end_app. cbn. by rewrite H3.
Qed.

(** One iteration: the SACK blocks are applied up to the end of [now]. *)
Lemma now_sacked una e f s P z p :
  trav_inv una e f s P z -> flag_ (z_now z) = SKB_FLAG_SACKED -> s <= p <= GetEnd (z_now z) ->
  sacked (z_all z) p.
Proof.
  intros Hz Hf Hp. destruct (trav_chain _ _ _ _ _ _ Hz) as (HcP & HeP & _). destruct Hz as [_ _ _ Hs <-].
  unfold sacked, z_all. rewrite status_app, (status_None _ una p) by (done || lia). cbn [status].
  rewrite (proj2 (Inside_spec p (z_now z))) by lia. by rewrite Hf.
Qed.

Lemma walk_now_sacked una hi dt lt sacks w n rest :
  walk_inv una hi w -> w_list w = n :: rest -> ordered (w_sacks w) ->
  let s := seq_ n in
  let z := if is_flag SKB_FLAG_SACKED n
           then mk_traversal (w_prev w) n rest (w_sacks w) (w_thorough w) (w_flag w) (w_sb w)
           else loss_step dt lt (sack_step
                  (mk_traversal (w_prev w) n rest (w_sacks w) (w_thorough w) (w_flag w) (w_sb w))) in
  trav_inv una (chain_end una (w_all w)) (fack_ (w_sb w)) s (w_prev w) z
  /\ (exists d, w_sacks w = d ++ z_sacks z /\ forall t, In t d -> t.2 <= s)
  /\ ((forall p, s <= p -> covered sacks p <-> covered (w_sacks w) p) ->
      forall p, sacked (z_all z) p <->
        sacked (w_all w) p \/ s <= p <= GetEnd (z_now z) /\ covered sacks p).
Proof.
  intros [Hwf _ _ _ _] El Ho. unfold w_all in *. rewrite El in *. cbv zeta.
  set (z0 := mk_traversal _ _ _ _ _ _ _).
  assert (Hz0 : trav_inv una (chain_end una (rev (w_prev w) ++ n :: rest)) (fack_ (w_sb w)) (seq_ n)
    (w_prev w) z0) by by constructor.
  case_cond.
  - apply is_flag_true in Hc. split; [done|]. split; [by exists []|]. intros _ p.
    split; [by left|]. intros [?|[Hp _]]; [done|]. by apply (now_sacked _ _ _ _ _ z0 p Hz0).
  - apply is_flag_false in Hc.
    destruct (sack_step_inv _ _ _ _ _ _ Hz0 Hc) as (H1 & H2 & H3).
    destruct (loss_step_inv _ _ _ _ _ dt lt _ H1 H3) as (H4 & _).
    destruct (sack_step_sacked _ _ _ _ _ _ Hz0 Hc Ho) as ((d & Hd1 & Hd2) & Hsk).
    destruct (loss_step_sacked dt lt (sack_step z0)) as (L1 & L2 & L3 & L4 & L5).
    split; [done|]. rewrite L1. split; [by exists d|]. intros Hcov p.
    rewrite L5. destruct (Hsk p) as [Hp1 Hp2]. rewrite Hp1.
    change (z_all z0) with (rev (w_prev w) ++ n :: rest).
    assert (Hcp : seq_ n <= p -> covered sacks p <-> covered (z_sacks (sack_step z0)) p).
    { intros Hp. rewrite Hcov by done. change (w_sacks w) with (z_sacks z0). rewrite Hd1, covered_app.
      pose proof (covered_before d (seq_ n) p Hd2 Hp). tauto. }
    split; intros [?|[Hp Hx]]; try (by left); right.
    + rewrite L3 by done. split; [done|]. apply Hcp; [lia|]. by apply Hp2.
    + split; [lia|]. apply Hp2; [lia|]. apply Hcp; [lia|done].
Qed.

Lemma walk_body_sacked una hi dt lt l0 sacks w :
  walk_inv una hi w -> w_list w <> [] -> ordered sacks -> sack_inv una l0 sacks w ->
  returns (walk_body dt lt w) (sack_inv una l0 sacks).
Proof.
  intros Hw Hne Ho [(d0 & Hd0 & Hd0') Hsk Hfk _]. unfold walk_body.
  destruct (w_list w) as [|n rest] eqn:El; [done|]. clear Hne.
  assert (Hsn : chain_end una (rev (w_prev w)) = seq_ n /\ una <= seq_ n).
  { destruct Hw as [[Hc _ _ _ _] _ _ _ _]. unfold w_all in Hc. rewrite El, chain_app in Hc.
    destruct Hc as [Hc (Hn & _)]. apply chain_end_ge in Hc. lia. }
  destruct Hsn as [Hsn Hun]. rewrite Hsn in *.
  assert (Ho' : ordered (w_sacks w)) by (rewrite Hd0 in Ho; by apply StronglySorted_app in Ho as (_ & _ & Ho)).
  pose proof (walk_now_sacked una hi dt lt sacks w n rest Hw El Ho') as Hz. cbv zeta in Hz |- *.
  set (z := if is_flag SKB_FLAG_SACKED n then _ else _) in *. clearbody z.
  destruct Hz as (Hz & (d & Hd & Hd') & Hzs).
  specialize (Hzs ltac:(intros p Hp; rewrite Hd0, covered_app; pose proof (covered_before d0 (seq_ n) p Hd0' Hp); tauto)).
  assert (HE : forall p, chain_end una (rev (merged z)) = GetEnd (z_now z) + 1
    /\ status (rev (merged z) ++ z_rest z) p = status (z_all z) p)
    by (intros p; destruct (merged_status _ _ _ _ _ _ p Hz); done).
  destruct (HE 0) as [Hend _]. pose proof (fun p => proj2 (HE p)) as Hst. clear HE.
  destruct (trav_chain _ _ _ _ _ _ Hz) as (_ & _ & _ & _ & Hge).
  assert (Hall : forall p, sacked (rev (merged z) ++ z_rest z) p <->
    sacked l0 p \/ una <= p < GetEnd (z_now z) + 1 /\ covered sacks p).
  { intros p. unfold sacked at 1. rewrite Hst. fold (sacked (z_all z) p). rewrite Hzs, Hsk.
    split; [|destruct (Z.lt_ge_cases p (seq_ n))]; naive_solver lia. }
  assert (Hds : exists d, sacks = d ++ z_sacks z /\ forall t, In t d -> t.2 <= GetEnd (z_now z) + 1).
  { exists (d0 ++ d). rewrite <- app_assoc, <- Hd. split; [done|]. intros t Ht.
    apply in_app_or in Ht as [Ht|Ht]; [specialize (Hd0' t Ht)|specialize (Hd' t Ht)]; lia. }
  destruct (merge_step_eq z) as (prev & dn & Emg & ->).
  rewrite <- (ti_fack _ _ _ _ _ _ Hz) in Hfk.
  assert (Hpe : chain_end una (rev (merged z)) = GetEnd prev + 1)
    by (rewrite Emg; cbn [rev]; by rewrite chain_end_app).
  destruct (z_rest z) as [|m rest'] eqn:Er; [case_cond|]; cbn [returns]; constructor;
    cbn [w_sacks w_prev w_list w_all w_sb]; unfold w_all; cbn [w_prev w_list]; rewrite ?Hend; try done; [|lia].
  - rewrite app_nil_r in Hall. intros p. rewrite sacked_append by done. apply Hall.
Qed.

(** The traversal from the oldest block, with the SACK blocks in order and
    [fack_] at the end of the last one. *)
Lemma walk_sacked una hi dt sacks (thorough : bool) flag b :
  sb_inv una hi b -> blocks b <> [] -> nxt_to_retrx_ b = None -> fack_ b < hi -> 0 <= una -> hi < 2147483648 ->
  ordered sacks -> (forall t, In t sacks -> t.2 <= fack_ b + 1) ->
  returns (w ← c_while walk_cond (walk_body dt (fack_ b - (dt + 1)))
             (mk_walk [] (blocks b) sacks thorough flag b);
           Ok ((w_sb w) <| blocks := rev (w_prev w) ++ w_list w |>, w_flag w))
    (fun '(b', _) => forall p, una <= p -> sacked (blocks b') p <-> sacked (blocks b) p \/ covered sacks p).
Proof.
  intros [Hwf He _ _] Hne Hn Hf Hu Hhi Ho Hfk.
  set (F := fack_ b - (dt + 1)). set (w0 := mk_walk _ _ _ _ _ _).
  eapply returns_bind.
  - apply (c_while_rule (fun w => walk_inv una hi w /\ sack_inv una (blocks b) sacks w) (walk_measure una)).
    + intros w [Hw Hs] Hc. assert (Hl : w_list w <> []) by (unfold walk_cond in Hc; by destruct (w_list w)).
      eapply returns_mono; [apply returns_and; [by apply (walk_body_inv una hi)|by apply (walk_body_sacked una hi)]|].
      by intros w' [(H1 & H2 & H3) H4].
    + split; [by constructor; cbn; rewrite ?Hn|]. constructor; cbn; try done; [by exists []|].
      intros p. unfold w_all. cbn. naive_solver lia.
    + unfold walk_measure. cbn. destruct (blocks b) as [|n l] eqn:E; [done|]. unfold w_all. cbn [w_prev w_list rev app w0].
      pose proof (chain_end_gt _ _ _ (wb_chain _ _ _ _ _ Hwf)) as [-> _]. lia.
  - intros w [[_ [(d & Hd & Hd') Hsk Hfk' Hend]] Hc] p Hp. cbn [returns blocks set_field].
    fold (w_all w). rewrite Hsk. split; [naive_solver|]. intros [?|Hcov]; [by left|right].
    split; [|done]. split; [done|]. destruct Hcov as (l & r & Hin & Hlr).
    unfold walk_cond in Hc. destruct (w_list w) as [|n rest].
    + specialize (Hend eq_refl). specialize (Hfk' _ Hin). cbn in Hfk'. lia.
    + destruct (w_sacks w) as [|s ss]; [|done]. rewrite app_nil_r in Hd. subst d.
      specialize (Hd' _ Hin). cbn in Hd'. lia.
Qed.

(** The packets above [last_ack] sacked by an acknowledgement. *)
Lemma update_sacked una hi last_ack sacks dt b :
  sb_inv una hi b -> una <= last_ack + 1 <= hi -> -1 <= last_ack -> hi < 2147483648 ->
  valid_sacks last_ack hi sacks -> disjoint_sacks sacks ->
  returns (UpdateScoreBoard last_ack sacks dt b) (fun '(b', _) =>
    forall p, last_ack < p ->
      sacked (blocks b') p <->
      sacked (blocks b) p \/ exists l r, In (l, r) sacks /\ last_ack < l /\ l <= p < r).
Proof.
  intros Hb Hu Hla Hhi Hv Hd.
  assert (Hdo : disjoint_sacks (sort_sacks last_ack sacks))
    by (intros s t Hs Ht; apply Hd; by apply (sort_sacks_in last_ack)).
  apply (update_rule _ una hi); try done; try lia.
  - intros b1 Hbi Hst Hnil p Hp. unfold sacked. rewrite Hst by done. split; [by left|].
    intros [?|(l & r & Hin & Hl & Hlr)]; [done|].
    assert (H : In (l, r) (sort_sacks last_ack sacks)) by (apply sort_sacks_in; split; [done|cbn; lia]).
    by rewrite Hnil in H.
  - intros b1 t flag Hbi Hne Hn Hf Hsk Hlast.
    eapply returns_mono; [apply (walk_sacked (last_ack + 1) hi); try done; try lia|].
    + apply sort_sacks_ordered.
    + intros s Hs. destruct (last (sort_sacks last_ack sacks)) as [s'|] eqn:El.
      * etransitivity; [|by apply Hlast]. apply (last_ends_last (sort_sacks last_ack sacks)); try done.
        { apply sort_sacks_ordered. }
        intros [l r] Hin. apply (valid_sorted last_ack hi) in Hin; [cbn; lia|done].
      * apply last_None in El. by rewrite El in Hs.
    + intros [b' f'] H p Hp. rewrite H by lia. rewrite Hsk by done. split; intros [?|Hc]; try (by left); right.
      * destruct Hc as (l & r & Hin & Hlr). exists l, r. apply (valid_sorted _ hi) in Hin as Hv'; [|done].
        apply sort_sacks_in in Hin as [Hin _]. split_and!; try done; lia.
      * destruct Hc as (l & r & Hin & Hl & Hlr). exists l, r.
        split; [|done]. apply sort_sacks_in. split; [done|cbn; lia].
Qed.

(** * Properties *)

(** C5: an acknowledgement sacks exactly the packets of its SACK blocks.
    On any board the agent can have, for SACK blocks that do not overlap,
    UpdateScoreBoard returns, and a packet above [last_ack] is sacked afterwards
    if and only if it was before or is in one of the blocks above [last_ack]. *)
Theorem sack_marks_exactly dt st last_ack sacks :
  sb_reach dt st -> sb_valid (SbAck last_ack sacks) st -> disjoint_sacks sacks ->
  returns (UpdateScoreBoard last_ack sacks dt (board st)) (fun '(b, _) =>
    forall p, last_ack < p ->
      sacked (blocks b) p <->
      sacked (blocks (board st)) p
      \/ exists l r, In (l, r) sacks /\ last_ack < l /\ l <= p < r).
Proof.
  intros Hr [Hu Hv] Hd. apply sb_reach_ok in Hr as (Hb & Hu0 & Hhi).
  apply (update_sacked (una st) (snx st)); done || lia.
Qed.

(** Packet 4 is sacked by an acknowledgement of 0 with the blocks 10 to 11 and
    4, after a retransmission. *)
Lemma sack_marks_exactly_witness :
  returns (UpdateScoreBoard 0 [(10, 12); (4, 5)] 3 (board sb_rtx)) (fun '(b, _) =>
    forall p, 0 < p ->
      sacked (blocks b) p <->
      sacked (blocks (board sb_rtx)) p
      \/ exists l r, In (l, r) [(10, 12); (4, 5)] /\ 0 < l /\ l <= p < r).
Proof.
  apply (sack_marks_exactly 3 sb_rtx 0).
  - apply sb_rtx_reach.
  - split; [cbn; lia|]. intros l r [[= <- <-]|[[= <- <-]|[]]]; right; cbn; lia.
  - intros s t [<-|[<-|[]]] [<-|[<-|[]]]; cbn; auto; lia.
Defined.
