(* ===== verification/Send.v ===== *)
(** The sending loop of the TCP-Linux agent (send_much in tcp-linux.cc) over
    its scoreboard: lost packets first, then new data, as long as the window or
    the rate-halving limit allows. *)
From stdpp Require Import sets.
From S2P Require Import Prelude Scoreboard.

(** * Definitions *)

(** The sender: [highest_ack_ + 1], [t_seqno_], the scoreboard [scb_],
    [next_pkts_in_flight_], the segments put out (the last first), and whether
    the loop was left by [return] or [break]. *)
Record sender := mk_sender {
  s_una : Z;
  s_seqno : Z;
  s_board : ScoreBoard1;
  s_pkts : Z;
  s_out : list Z;
  s_left : bool;
}.
#[global] Instance eta_sender : Eta sender := fun r =>
  mk_sender (s_una r) (s_seqno r) (s_board r) (s_pkts r) (s_out r) (s_left r).

(** LinuxTcpAgent::packets_in_flight *)
Definition sender_in_flight (s : sender) : Z := packets_in_flight (s_una s) (s_seqno s) (s_board s).

Section Loop.
Variables (win curseq maxburst : Z).

Definition send_cond (s : sender) : bool :=
  negb (s_left s) && (sender_in_flight s <? Z.max win (s_pkts s)).

(** After a segment is chosen: output, rate halving, the burst limit. *)
Definition send_one (xmit_seqno : Z) (s : sender) : sender :=
  let s := s <| s_out := xmit_seqno :: s_out s |> in
  let s := s <| s_pkts :=
    Z.min (s_pkts s) (Z.max (sender_in_flight s - 1) 1) |> in
  let s := if s_seqno s <=? xmit_seqno then s <| s_seqno := xmit_seqno + 1 |> else s in
  s <| s_left := nz maxburst && (maxburst <=? Z.of_nat (length (s_out s))) |>.

Definition send_body (s : sender) : outcome sender :=
  '(xmit_seqno, b) ← GetNextRetran (s_board s);
  let s := s <| s_board := b |> in
  if xmit_seqno =? -1 then
    if curseq <=? s_seqno s then Ok (s <| s_left := true |>)
    else
      let xmit_seqno := s_seqno s in
      Ok (send_one xmit_seqno (s <| s_seqno := s_seqno s + 1 |>))
  else
    b ← MarkRetran xmit_seqno (s_seqno s) b;
    Ok (send_one xmit_seqno (s <| s_board := b |>)).

(** send_much without a delay ([overhead_ = 0], no pending delayed send) *)
Definition send_much (s : sender) : outcome sender :=
  let s := s <| s_pkts := Z.min (s_pkts s) (sender_in_flight s + 1) |>
             <| s_out := [] |> <| s_left := false |> in
  c_while send_cond send_body s.
End Loop.

(** ** What the loop keeps *)

(** The window the agent respects. *)
Definition limit (win : Z) (s : sender) : Z := Z.max win (s_pkts s).

(** The loop started at [s0]: the board is right; one more packet is in flight
    for each segment put out; no more than the limit is in flight; every segment
    is new or was lost, and is put out once. *)
Record send_inv (win curseq maxburst : Z) (s0 s : sender) : Prop := mk_send_inv {
  se_board : sb_inv (s_una s) (s_seqno s) (s_board s);
  se_una : s_una s = s_una s0;
  se_next : s_seqno s0 <= s_seqno s <= Z.max (s_seqno s0) curseq;
  se_count : sender_in_flight s = sender_in_flight s0 + Z.of_nat (length (s_out s));
  se_limit : s_pkts s <= s_pkts s0;
  se_bound : s_out s = [] \/ sender_in_flight s <= limit win s0;
  se_burst : maxburst <= 0 \/ s_left s = true
             \/ Z.of_nat (length (s_out s)) < maxburst;
  se_burst_max : 0 < maxburst -> Z.of_nat (length (s_out s)) <= maxburst;
  se_nodup : NoDup (s_out s);
  se_status : forall p, In p (s_out s) -> p < s_seqno s
    /\ (status (blocks (s_board s0)) p = Some SKB_FLAG_LOST
        /\ status (blocks (s_board s)) p = Some SKB_FLAG_RETRANSMITTED
        \/ s_seqno s0 <= p /\ status (blocks (s_board s)) p = None);
  se_others : forall p, ~ In p (s_out s) -> status (blocks (s_board s)) p = status (blocks (s_board s0)) p;
  se_left : s_left s = true ->
    curseq <= s_seqno s /\ nxt_to_retrx_ (s_board s) = None
    \/ 0 < maxburst /\ Z.of_nat (length (s_out s)) = maxburst;
}.

Definition send_measure (win : Z) (s0 s : sender) : Z :=
  if s_left s then 0 else 1 + Z.max 0 (limit win s0 - sender_in_flight s).

(** ** An example *)

(** The board of [sb_lost] (1, 2 and 3 lost), a window of 18, data up to 40:
    1, 2, 3 are put out again, then 20, and the window is full. *)
Definition sender_ex : sender := mk_sender (una sb_lost) (snx sb_lost) (board sb_lost) 0 [] false.

(** * Lemmas *)

Lemma sb_inv_mono una hi hi' b : sb_inv una hi b -> hi <= hi' -> sb_inv una hi' b.
Proof.
  intros [Hw He Hf Hr] Hle. constructor; [done|lia| |done]. destruct (blocks b); [done|lia].
Qed.

Lemma status_range una hi b p f :
  sb_inv una hi b -> status (blocks b) p = Some f -> una <= p < hi.
Proof.
  intros [[Hc _ _ _ _] He _ _] Hp. split.
  - destruct (Z.lt_ge_cases p una) as [Hlt|]; [|done]. exfalso.
    revert una Hc He Hlt Hp. induction (blocks b) as [|n l IH]; intros lo Hc He Hlt; [done|].
    cbn [status]. destruct Hc as (Hs & Hn & Hc). rewrite (proj2 (Inside_false p n)) by lia.
    apply (IH (GetEnd n + 1)); [done|exact He|lia].
  - destruct (Z.lt_ge_cases p hi); [done|]. by rewrite (status_None _ una p) in Hp by (done || lia).
Qed.

(** A segment is put out: of [next] the loop's state after the choice. *)
Lemma send_one_fields maxburst x s :
  x < s_seqno s ->
  let s' := send_one maxburst x s in
  s_una s' = s_una s /\ s_seqno s' = s_seqno s /\ s_board s' = s_board s /\ s_out s' = x :: s_out s
  /\ s_pkts s' <= s_pkts s
  /\ s_left s' = nz maxburst && (maxburst <=? Z.of_nat (length (x :: s_out s))).
Proof.
  intros Hx s'. subst s'. unfold send_one. cbn [s_seqno set_field].
  destruct (Z.leb_spec (s_seqno s) x); [lia|]. split_and!; try done. cbn. lia.
Qed.

(** The invariant after a segment [x], chosen with the board [b] and the next
    number [t]. *)
Lemma send_inv_one win curseq maxburst s0 s x t b :
  0 <= maxburst -> send_inv win curseq maxburst s0 s ->
  send_cond win s = true -> x < t ->
  sb_inv (s_una s) t b -> s_seqno s <= t <= Z.max (s_seqno s0) curseq ->
  packets_in_flight (s_una s) t b = sender_in_flight s + 1 ->
  ~ In x (s_out s) ->
  (forall q, q <> x -> status (blocks b) q = status (blocks (s_board s)) q) ->
  status (blocks (s_board s)) x = Some SKB_FLAG_LOST /\ status (blocks b) x = Some SKB_FLAG_RETRANSMITTED
  \/ s_seqno s <= x /\ status (blocks b) x = None /\ status (blocks (s_board s)) x = None ->
  let s' := send_one maxburst x (s <| s_board := b |> <| s_seqno := t |>) in
  send_inv win curseq maxburst s0 s' /\ 0 <= send_measure win s0 s' < send_measure win s0 s.
Proof.
  intros Hmb [] Hc Hx Hb Ht Hif Hni Hst Hxs s'.
  assert (Hx' : x < s_seqno (s <| s_board := b |> <| s_seqno := t |>)) by exact Hx.
  destruct (send_one_fields maxburst x (s <| s_board := b |> <| s_seqno := t |>) Hx')
    as (E1 & E2 & E3 & E4 & E5 & E6). fold s' in E1, E2, E3, E4, E5, E6.
  cbn [s_una s_seqno s_board s_out s_pkts set_field] in E1, E2, E3, E4, E5, E6. clearbody s'.
  apply andb_true_iff in Hc as [Hl Hlt]. apply negb_true_iff in Hl. apply Z.ltb_lt in Hlt.
  assert (Eif : sender_in_flight s' = sender_in_flight s + 1)
    by (unfold sender_in_flight at 1; by rewrite E1, E2, E3).
  assert (El : Z.of_nat (length (s_out s')) = Z.of_nat (length (s_out s)) + 1) by (rewrite E4; cbn; lia).
  rewrite <- E4, El in E6.
  assert (Hleft : s_left s' = true <-> 0 < maxburst /\ maxburst <= Z.of_nat (length (s_out s)) + 1).
  { rewrite E6, andb_true_iff, nz_true, Z.leb_le. lia. }
  assert (Hlim : limit win s <= limit win s0) by (unfold limit; lia).
  fold (limit win s) in Hlt.
  assert (Hm : 0 <= send_measure win s0 s' < send_measure win s0 s).
  { unfold send_measure. rewrite Hl, Eif. destruct (s_left s'); lia. }
  split; [|exact Hm]. constructor; rewrite ?E1, ?E2, ?E3, ?El; try done; try lia.
  - destruct (s_left s') eqn:El'; [auto|]. destruct (Z.le_gt_cases maxburst 0); [auto|].
    right. right. destruct (Z.lt_ge_cases (Z.of_nat (length (s_out s)) + 1) maxburst); [done|].
    assert (false = true) by (apply Hleft; lia). done.
  - intros Hpos. destruct se_burst0 as [?|[?|?]]; [lia|congruence|lia].
  - rewrite E4. apply NoDup_cons. split; [|done]. by rewrite list_elem_of_In.
  - rewrite E4. intros p [<-|Hp].
    + split; [done|]. destruct Hxs as [[H1 H2]|(H1 & H2 & _)]; [left|right; split; [lia|done]].
      split; [|done]. by rewrite <- se_others0.
    + destruct (se_status0 p Hp) as [H1 H2]. split; [lia|].
      rewrite Hst by (intros ->; done). done.
  - rewrite E4. intros p Hp. rewrite Hst, se_others0; [done| |]; intros H; apply Hp; [by right|by left].
  - intros Hl'. right. apply Hleft in Hl' as [Hpos Hge]. split; [done|].
    destruct se_burst0 as [?|[?|?]]; [lia|congruence|lia].
Qed.

Lemma send_body_inv win curseq maxburst s0 s :
  0 <= maxburst -> 0 <= s_una s0 -> s_seqno s0 < 2147483648 -> curseq < 2147483648 ->
  send_inv win curseq maxburst s0 s -> send_cond win s = true ->
  returns (send_body curseq maxburst s) (fun s' => send_inv win curseq maxburst s0 s'
    /\ 0 <= send_measure win s0 s' < send_measure win s0 s).
Proof.
  intros Hmb Hu Ht Hcs Hs Hc. pose proof Hs as [Hb Eu Hn Hcnt Hl Hbd Hbu Hbm Hnd Hst Hot Hlf].
  unfold send_body. eapply returns_bind; [by apply (get_next_retran_ok (s_una s) (s_seqno s))|].
  intros [x b] (Hb' & Heq & Hx).
  assert (Ebl : blocks b = blocks (s_board s) /\ forall t, packets_in_flight (s_una s) t b = packets_in_flight (s_una s) t (s_board s))
    by (by rewrite Heq). clear Heq. destruct Ebl as [Ebl Eif].
  assert (Hneg : x = -1 <-> nxt_to_retrx_ b = None).
  { destruct (nxt_to_retrx_ b) as [a|]; [|done]. split; [|done].
    destruct Hx as (A & n & B & E & _ & <- & _). destruct Hb as [[Hch _ _ _ _] _ _ _].
    rewrite E, chain_app in Hch. destruct Hch as [HA (Hsn & _)]. apply chain_end_ge in HA. lia. }
  destruct (Z.eqb_spec x (-1)) as [E|E].
  - case_cond; cbn [returns].
    + apply andb_true_iff in Hc as [Hl' _]. apply negb_true_iff in Hl'.
      split; [|unfold send_measure; rewrite Hl'; cbn; lia].
      constructor; cbn [s_una s_seqno s_board s_pkts s_out s_left set_field]; rewrite ?Ebl; try done.
      * unfold sender_in_flight at 1. cbn [s_una s_seqno s_board set_field]. rewrite Eif. exact Hcnt.
      * unfold sender_in_flight at 1. cbn [s_una s_seqno s_board set_field]. rewrite Eif. exact Hbd.
      * by right; left.
      * intros _. left. split; [cbn in Hc0; lia|by apply Hneg].
    + apply (send_inv_one win curseq maxburst s0 s (s_seqno s) (s_seqno s + 1) b); try done.
      * lia.
      * apply (sb_inv_mono _ (s_seqno s)); [done|lia].
      * cbn in Hc0. lia.
      * rewrite Eif. unfold sender_in_flight, packets_in_flight. lia.
      * intros Hin. destruct (Hst _ Hin). lia.
      * by rewrite Ebl.
      * right. split; [done|]. rewrite Ebl.
        destruct (status (blocks (s_board s)) (s_seqno s)) eqn:Es; [|done].
        apply (status_range _ _ _ _ _ Hb) in Es. lia.
  - destruct (nxt_to_retrx_ b) as [a|] eqn:Ea; [|by destruct E; apply Hneg].
    destruct Hx as (A & n & B & Eb & Hna & <- & Hf). rewrite <- Ebl in Eb.
    cbn [s_seqno set_field]. eapply returns_bind; [by apply (mark_retran_ok (s_una s) _ b a n A B)|].
    intros b2 (Hb2 & H1 & H2 & H3 & H4 & _). cbn [returns]. rewrite Ebl in H1, H4.
    apply (send_inv_one win curseq maxburst s0 s (seq_ n) (s_seqno s) b2); try done.
    + apply (status_range _ _ _ _ _ Hb) in H4. lia.
    + lia.
    + unfold sender_in_flight. rewrite <- Eif. unfold packets_in_flight. rewrite H2, H3. lia.
    + intros Hin. destruct (Hst _ Hin) as [_ [[_ ?]|[_ ?]]]; congruence.
    + intros q Hq. rewrite H1. by destruct (Z.eqb_spec q (seq_ n)).
    + left. rewrite H1, Z.eqb_refl. done.
Qed.

(** send_much from any board of the invariant. *)
Lemma send_much_ok win curseq maxburst s :
  sb_inv (s_una s) (s_seqno s) (s_board s) -> 0 <= s_una s <= s_seqno s -> s_seqno s < 2147483648 ->
  0 <= maxburst -> win < 2147483648 -> curseq < 2147483648 ->
  returns (send_much win curseq maxburst s) (fun s' =>
    (sb_ok (mk_sb_state (s_una s') (s_seqno s') (s_board s')) /\ s_una s' = s_una s
     /\ s_seqno s <= s_seqno s' <= Z.max (s_seqno s) curseq
     /\ forall p, sacked (blocks (s_board s')) p -> sacked (blocks (s_board s)) p)
    /\ NoDup (s_out s')
    /\ (forall p, In p (s_out s') ->
          status (blocks (s_board s)) p = Some SKB_FLAG_LOST \/ s_seqno s <= p < s_seqno s')
    /\ sender_in_flight s' = sender_in_flight s + Z.of_nat (length (s_out s'))
    /\ (s_out s' = [] \/ sender_in_flight s' <= limit win s)
    /\ (limit win s' <= sender_in_flight s'
        \/ curseq <= s_seqno s' /\ nxt_to_retrx_ (s_board s') = None
        \/ 0 < maxburst /\ Z.of_nat (length (s_out s')) = maxburst)).
Proof.
  intros Hb Hu Ht Hmb Hw Hcs. unfold send_much.
  set (s0 := s <| s_pkts := _ |> <| s_out := [] |> <| s_left := false |>).
  assert (Hs0 : s_una s0 = s_una s /\ s_seqno s0 = s_seqno s /\ s_board s0 = s_board s
    /\ s_pkts s0 <= Z.min (s_pkts s) (sender_in_flight s + 1) /\ s_out s0 = [] /\ s_left s0 = false)
    by (split_and!; try done; cbn; lia).
  clearbody s0. destruct Hs0 as (E1 & E2 & E3 & E4 & E5 & E6).
  assert (Eif : sender_in_flight s0 = sender_in_flight s) by (unfold sender_in_flight; by rewrite E1, E2, E3).
  assert (H0 : 0 <= sender_in_flight s)
    by (unfold sender_in_flight; rewrite packets_in_flight_number by done; unfold number_in_flight; lia).
  assert (Hlim : limit win s0 <= Z.min (limit win s) (Z.max win (sender_in_flight s + 1)))
    by (unfold limit; lia).
  eapply returns_mono.
  - apply (c_while_rule (send_inv win curseq maxburst s0) (send_measure win s0)).
    + intros s1 Hs1 Hc. apply send_body_inv; try done; lia.
    + constructor; rewrite ?E5, ?E6, ?E1, ?E2, ?E3; try done; try lia; [|by left| |by constructor].
      * cbn. lia.
      * destruct (Z.le_gt_cases maxburst 0); [by left|right; right; cbn; lia].
    + unfold send_measure. rewrite E6, Eif. unfold limit in *. lia.
  - intros s' [[Hb' Eu Hn Hcnt Hl Hbd Hbu Hbm Hnd Hst Hot Hlf] Hc].
    split; [split; [split; [done|cbn; lia]|split; [congruence|split; [lia|]]]|].
    { intros p Hp. unfold sacked in *. destruct (decide (p ∈ s_out s')) as [Hin|Hni]; rewrite list_elem_of_In in *.
      - destruct (Hst p Hin) as [_ [[_ ?]|[_ ?]]]; congruence.
      - rewrite <- E3, <- Hot; done. } split; [done|]. split; [|split; [|split]].
    + intros p Hin. destruct (Hst p Hin) as [Hp1 [[? _]|[? _]]]; [left; congruence|right; lia].
    + by rewrite Hcnt, Eif.
    + destruct Hbd as [?|?]; [by left|right; lia].
    + destruct (s_left s') eqn:El; [destruct (Hlf eq_refl); auto|]. left.
      unfold send_cond in Hc. rewrite El in Hc. cbn in Hc. apply Z.ltb_ge in Hc. exact Hc.
Qed.

(** * Properties *)


(** ** Witness *)

Example sender_ex_out :
  returns (send_much 18 40 0 sender_ex) (fun s => s_out s = [20; 3; 2; 1] /\ sender_in_flight s = 18).
Proof. vm_compute. done. Qed.

