(* ===== verification/Agent.v ===== *)
(** The TCP-Linux agent with its scoreboard (tcp-linux.cc over scoreboard1.cc):
    what the scoreboard finds decides the reaction to an acknowledgement, the
    end of a recovery clears it, a timeout marks everything lost, and the
    sending loop is fed by the window. *)
From stdpp Require Import sets.
From S2P Require Import Prelude Sock LinuxC Reno Scoreboard Send Driver.

(** * Definitions *)

#[global] Instance eta_ack_in : Eta ack_in := fun r =>
  mk_ack_in (k_env r) (k_seqno r) (k_ece r) (k_sb r) (k_prior_in_flight r) (k_in_flight r)
    (k_rx r) (k_t_rtt r) (k_usrtt r) (k_seq_rtt r) (k_last r).

(** LinuxTcpAgent::window: the congestion window, as an int. *)
Definition window {P} (a : agent P) : Z := s32 (snd_cwnd (linux_ a)).

Section Agent.
Context {P : Type} (ops : tcp_congestion_ops P) (tcp_max_burst : Z).
Local Abbreviation agent := (agent P).

(** LinuxTcpAgent::packets_in_flight *)
Definition agent_in_flight (a : agent) (b : ScoreBoard1) : Z :=
  packets_in_flight (highest_ack_ a + 1) (t_seqno_ a) b.

(** tcp_fastretrans_alert with the board: the end of a recovery clears it. *)
Definition alert_sb (E : env) (flag : Z) (a : agent) (b : ScoreBoard1)
  : outcome (agent * ScoreBoard1) :=
  let b := if negb (bool_decide (icsk_ca_state (linux_ a) = TCP_CA_Open))
              && (recover_ a <=? highest_ack_ a)
           then ClearScoreBoard b else b in
  a ← tcp_fastretrans_alert ops tcp_max_burst E flag (agent_in_flight a b) a;
  Ok (a, b).

Definition react_sb (x : ack_in) (ack flag : Z) (a : agent) (b : ScoreBoard1)
  : outcome (agent * ScoreBoard1) :=
  if tcp_ack_is_dubious flag (linux_ a) then
    a ← (if has flag FLAG_DATA_ACKED && tcp_may_raise_cwnd flag (linux_ a)
         then tcp_cong_avoid ops x ack 0 a else Ok a);
    alert_sb (k_env x) flag a b
  else if has flag FLAG_DATA_ACKED then a ← tcp_cong_avoid ops x ack 1 a; Ok (a, b) else Ok (a, b).

(** [if (sa_length() > 0 || (FLAG_DATA_ACKED && !IsEmpty()))]: the second test
    of the condition is of a constant. *)
Definition board_report (last_ack : Z) (sacks : list (Z * Z)) (b : ScoreBoard1)
  : outcome (ScoreBoard1 * Z) :=
  match sacks, blocks b with
  | [], [] => Ok (b, 0)
  | _, _ => UpdateScoreBoard last_ack sacks 3 b
  end.

(** recv up to the sending loop, for an acknowledgement with SACK blocks *)
Definition recv_sb (x : ack_in) (sacks : list (Z * Z)) (a : agent) (b : ScoreBoard1)
  : outcome (agent * ScoreBoard1) :=
  let prior_snd_una := u32 (highest_ack_ a + 1) in
  let ack := u32 (k_seqno x + 1) in
  if u32 (t_seqno_ a) <? ack then Ok (a, b)
  else if ack <? prior_snd_una then Ok (a, b)
  else
    let flag := if k_ece x && (1 <? ack) then FLAG_ECE else 0 in
    let x := x <| k_prior_in_flight := agent_in_flight a b |> in
    let sk := linux_ a in
    let '(a, flag) :=
      if prior_snd_una <? ack then
        (a <| linux_ := sk <| bytes_acked :=
           bytes_acked sk ⊕ (ack ⊖ prior_snd_una) ⊗ mss_cache sk |> |>,
         Z.lor flag FLAG_DATA_ACKED)
      else (a, flag) in
    let '(a, flag) := ack_processing (k_seqno x) flag a in
    '(b, f) ← board_report (highest_ack_ a) sacks b;
    let flag := Z.lor flag f in
    a ← time_processing ops x a;
    a ← notify_module ops x (ack ⊖ prior_snd_una) flag a;
    react_sb x ack flag a b.

(** A timeout that goes through enter_loss, which ends with MarkLoss. *)
Definition timeout_loses (a : agent) : bool :=
  negb (all_acked a && (negb (slow_start_restart_ (settings_ a)) || restart_bugfix_ (settings_ a))).

(** timeout(TCP_TIMER_RTX) up to the sending loop *)
Definition timeout_sb (E : env) (a : agent) (b : ScoreBoard1) : outcome (agent * ScoreBoard1) :=
  a' ← timeout_rtx ops E a;
  b ← (if timeout_loses a then MarkLoss (highest_ack_ a' + 1) (t_seqno_ a') b else Ok b);
  Ok (a', b).

(** The sending loop, [maxseq_] and [snd_nxt] following what is put out. *)
Definition send_sb (curseq maxburst : Z) (a : agent) (b : ScoreBoard1)
  : outcome (agent * ScoreBoard1) :=
  s ← send_much (window a) curseq maxburst
        (mk_sender (highest_ack_ a + 1) (t_seqno_ a) b (next_pkts_in_flight_ a) [] false);
  let sk := linux_ a in
  Ok (a <| t_seqno_ := s_seqno s |> <| next_pkts_in_flight_ := s_pkts s |>
        <| maxseq_ := foldr Z.max (maxseq_ a) (s_out s) |>
        <| linux_ := sk <| snd_nxt :=
             match s_out s with [] => snd_nxt sk | _ => u32 (s_seqno s) ⊗ mss_cache sk end |> |>,
      s_board s).
End Agent.

(** [x'] is [x] with the packets in flight and the flags taken from the board;
    the number in flight afterwards is free. *)
Definition with_board {P} (a : agent P) (b : ScoreBoard1) (sacks : list (Z * Z)) (x x' : ack_in) : Prop :=
  exists f m, x' = x <| k_prior_in_flight := agent_in_flight a b |> <| k_sb := f |> <| k_in_flight := m |>
    /\ (highest_ack_ a <= k_seqno x < t_seqno_ a ->
        exists b1, board_report (k_seqno x) sacks b = Ok (b1, f)).

(** ** Runs of the whole agent *)

Inductive full_event : Type :=
  | FAck (x : ack_in) (sacks : list (Z * Z))
  | FTimeout (E : env)
  | FSend (curseq maxburst : Z).

Definition full_step {P} (ops : tcp_congestion_ops P) (tcp_max_burst : Z) (ev : full_event)
  (st : agent P * ScoreBoard1) : outcome (agent P * ScoreBoard1) :=
  let '(a, b) := st in
  match ev with
  | FAck x sacks => recv_sb ops tcp_max_burst x sacks a b
  | FTimeout E => timeout_sb ops E a b
  | FSend curseq maxburst => send_sb curseq maxburst a b
  end.

Section FullRuns.
Context {P : Type} (ops : tcp_congestion_ops P) `{!CongModule ops} (tcp_max_burst : Z).

(** Of an acknowledgement: what [valid] says, the board's part left out; its
    SACK blocks are old or cover data in flight; less than [2^24] packets are
    outstanding. *)
Definition full_valid (ev : full_event) (st : agent P * ScoreBoard1) : Prop :=
  let '(a, b) := st in
  match ev with
  | FAck x sacks =>
      valid ops a (EvAck (x <| k_in_flight := 0 |>))
      /\ (highest_ack_ a <= k_seqno x < t_seqno_ a -> valid_sacks (k_seqno x) (t_seqno_ a) sacks)
      /\ t_seqno_ a - highest_ack_ a <= window_max
  | FTimeout E => valid ops a (EvTimeout E)
  | FSend curseq maxburst =>
      0 <= maxburst /\ curseq < 2147483648
  end.

Definition full_inv (k : Z) (st : agent P * ScoreBoard1) : Prop :=
  agent_inv ops k st.1 /\ sb_inv (highest_ack_ st.1 + 1) (t_seqno_ st.1) st.2.

Inductive full_reach : Z -> agent P * ScoreBoard1 -> Prop :=
  | full_start a : fresh ops a ->
      full_reach 0 (a, ClearScoreBoard (board sb_init))
  | full_next k st ev st' :
      full_reach k st -> full_valid ev st -> full_step ops tcp_max_burst ev st = Ok st' ->
      full_reach (k + 1) st'.
End FullRuns.

(** ** An example run: Reno, two packets sent, the first acknowledged, two more
    sent *)

Definition full_ex0 : agent unit * ScoreBoard1 := (agent_ex, ClearScoreBoard (board sb_init)).
Definition full_ex1 : agent unit * ScoreBoard1 := Eval vm_compute in
  match full_step tcp_reno 3 (FAck ack_ex []) full_ex0 with Ok st => st | Trap _ => full_ex0 end.
Definition full_ex2 : agent unit * ScoreBoard1 := Eval vm_compute in
  match full_step tcp_reno 3 (FSend 40 0) full_ex1 with Ok st => st | Trap _ => full_ex0 end.

(** * Lemmas *)

Lemma bind_inv {A B} (m : outcome A) (f : A -> outcome B) b :
  m ≫= f = Ok b -> exists a, m = Ok a /\ f a = Ok b.
Proof. destruct m as [a|]; [by exists a|done]. Qed.

(** The callbacks and the window do not move the sequence numbers. *)
Definition same_seq {P} (a a' : agent P) : Prop :=
  highest_ack_ a' = highest_ack_ a /\ t_seqno_ a' = t_seqno_ a.

Ltac seq_kept :=
  repeat match goal with
  | H : _ ≫= _ = Ok _ |- _ => apply bind_inv in H as (? & ? & H)
  | H : (let '(_, _) := ?t in _) = Ok _ |- _ => destruct t; cbv beta iota in H
  | H : (if ?c then _ else _) = Ok _ |- _ => destruct c; cbv zeta in H
  | H : Ok _ = Ok _ |- _ => injection H as <-
  end.

Section FullLemmas.
Context {P : Type} (ops : tcp_congestion_ops P) `{!CongModule ops} (tcp_max_burst : Z).
Hypothesis burst_ok : 1 <= tcp_max_burst <= 255.

Lemma time_processing_seq x (a a' : agent P) : time_processing ops x a = Ok a' -> same_seq a a'.
Proof.
  unfold time_processing, rtt_update. intros H. destruct (k_t_rtt x); [|injection H as <-; done].
  seq_kept; done.
Qed.

Lemma notify_module_seq x n flag (a a' : agent P) :
  notify_module ops x n flag a = Ok a' -> same_seq a a'.
Proof. unfold notify_module. intros H. seq_kept; done. Qed.

Lemma cong_avoid_seq x ack g (a a' : agent P) : tcp_cong_avoid ops x ack g a = Ok a' -> same_seq a a'.
Proof. unfold tcp_cong_avoid. intros H. seq_kept; done. Qed.

Lemma fastretrans_seq E flag n (a a' : agent P) :
  tcp_fastretrans_alert ops tcp_max_burst E flag n a = Ok a' -> same_seq a a'.
Proof.
  unfold tcp_fastretrans_alert, cut_window, set_ca_state. intros H.
  seq_kept; done.
Qed.

(** The argument [in_flight] counts only when a recovery ends. *)
Lemma fastretrans_in_flight E flag n m (a : agent P) :
  negb (bool_decide (icsk_ca_state (linux_ a) = TCP_CA_Open)) && (recover_ a <=? highest_ack_ a) = false ->
  tcp_fastretrans_alert ops tcp_max_burst E flag n a = tcp_fastretrans_alert ops tcp_max_burst E flag m a.
Proof. unfold tcp_fastretrans_alert. by intros ->. Qed.

Lemma in_flight_cleared (a : agent P) b :
  agent_in_flight a (ClearScoreBoard b) = t_seqno_ a - (highest_ack_ a + 1).
Proof. unfold agent_in_flight, packets_in_flight. cbn. lia. Qed.

(** The reaction with the board is the reaction without it, given the packets
    in flight once the board is clear; the board is kept or cleared. *)
Lemma react_sb_ok x x' ack flag (a : agent P) b (Q : agent P -> Prop) :
  x' = x <| k_sb := k_sb x' |> <| k_in_flight := t_seqno_ a - (highest_ack_ a + 1) |> ->
  returns (react ops tcp_max_burst x' ack flag a) Q ->
  returns (react_sb ops tcp_max_burst x ack flag a b) (fun '(a', b') =>
    Q a' /\ same_seq a a' /\ (b' = b \/ b' = ClearScoreBoard b)).
Proof using Type.
  intros Hx. unfold react, react_sb.
  assert (Hca : forall g, tcp_cong_avoid ops x ack g a = tcp_cong_avoid ops x' ack g a)
    by (intros g; by rewrite Hx).
  assert (HE : k_env x' = k_env x) by (by rewrite Hx). rewrite HE.
  assert (Hn : k_in_flight x' = t_seqno_ a - (highest_ack_ a + 1)) by (by rewrite Hx). rewrite Hn.
  clear Hx HE Hn. rewrite !Hca. case_cond.
  - set (m := if has flag FLAG_DATA_ACKED && tcp_may_raise_cwnd flag (linux_ a) then tcp_cong_avoid ops x' ack 0 a else Ok a).
    assert (Hm : forall a', m = Ok a' -> same_seq a a').
    { subst m. intros a'. case_cond; [apply cong_avoid_seq|by intros [= <-]]. }
    clearbody m. destruct m as [a1|]; [|done]. specialize (Hm a1 eq_refl). rewrite !bind_Ok.
    destruct Hm as [Hm1 Hm2]. unfold alert_sb.
    assert (Hal : forall b', returns (tcp_fastretrans_alert ops tcp_max_burst (k_env x) flag (agent_in_flight a1 b') a1) Q ->
      returns (a2 ← tcp_fastretrans_alert ops tcp_max_burst (k_env x) flag (agent_in_flight a1 b') a1; Ok (a2, b'))
        (fun '(a', b'') => Q a' /\ same_seq a a' /\ b'' = b')).
    { intros b' H. apply returns_inv in H as (a2 & H & HQ). rewrite H. cbn [mbind outcome_bind returns].
      apply fastretrans_seq in H as [H1 H2]. split; [done|]. split; [split; congruence|done]. }
    intros H. case_cond.
    + rewrite <- Hm1, <- Hm2, <- (in_flight_cleared a1 b) in H.
      eapply returns_mono; [by apply Hal|]. intros [a2 b2] (? & ? & ->). auto.
    + rewrite (fastretrans_in_flight _ _ _ (agent_in_flight a1 b)) in H by done.
      eapply returns_mono; [by apply Hal|]. intros [a2 b2] (? & ? & ->). auto.
  - case_cond; [|intros H; split; [exact H|split; [done|by left]]].
    destruct (tcp_cong_avoid ops x' ack 1 a) as [a1|] eqn:E; [|done].
    intros H. split; [done|]. split; [|by left]. by apply cong_avoid_seq in E.
Qed.

Lemma sb_inv_empty una hi b una' hi' :
  sb_inv una hi b -> blocks b = [] -> una' <= hi' -> sb_inv una' hi' b.
Proof.
  intros [[_ _ _ Hf Hs] He Hfk Hr] E Hle. rewrite E in *.
  destruct b as [l r a i f fo so ls k]. cbn in *. subst l fo so f.
  constructor; cbn; try done. apply wf_nil.
Qed.

Lemma ack_processing_seq seqno flag (a : agent P) :
  let '(a1, _) := ack_processing seqno flag a in
  highest_ack_ a1 = (if has flag FLAG_DATA_ACKED then seqno else highest_ack_ a)
  /\ t_seqno_ a1 = (if has flag FLAG_DATA_ACKED then Z.max (t_seqno_ a) (seqno + 1) else t_seqno_ a).
Proof.
  unfold ack_processing. case_cond; [|done]. case_cond.
  - split; [done|]. change (seqno + 1 = Z.max (t_seqno_ a) (seqno + 1)).
    change ((t_seqno_ a <? seqno + 1) = true) in Hc0. lia.
  - split; [done|]. change (t_seqno_ a = Z.max (t_seqno_ a) (seqno + 1)).
    change ((t_seqno_ a <? seqno + 1) = false) in Hc0. lia.
Qed.

(** What recv does before the scoreboard hears of the acknowledgement. *)
Lemma front_seq x (a : agent P) flag0 :
  highest_ack_ a <= k_seqno x < t_seqno_ a -> -1 <= highest_ack_ a -> t_seqno_ a < 2147483648 ->
  has flag0 FLAG_DATA_ACKED = false ->
  let sk := linux_ a in
  let prior_snd_una := u32 (highest_ack_ a + 1) in
  let ack := u32 (k_seqno x + 1) in
  let '(a0, flag1) :=
    if prior_snd_una <? ack then
      (a <| linux_ := sk <| bytes_acked :=
         bytes_acked sk ⊕ (ack ⊖ prior_snd_una) ⊗ mss_cache sk |> |>,
       Z.lor flag0 FLAG_DATA_ACKED)
    else (a, flag0) in
  let '(a1, _) := ack_processing (k_seqno x) flag1 a0 in
  highest_ack_ a1 = k_seqno x /\ t_seqno_ a1 = t_seqno_ a.
Proof.
  intros Hs Hh Ht Hf. cbv zeta. rewrite (u32_id (k_seqno x + 1)), (u32_id (highest_ack_ a + 1)) by lia.
  case_cond.
  - assert (Hf' : has (Z.lor flag0 FLAG_DATA_ACKED) FLAG_DATA_ACKED = true).
    { unfold has, nz. rewrite Z.land_lor_distr_l. change (Z.land FLAG_DATA_ACKED FLAG_DATA_ACKED) with 4.
      apply negb_true_iff, Z.eqb_neq. intros E. apply Z.lor_eq_0_iff in E. lia. }
    set (a0 := a <| linux_ := _ |>).
    assert (E0 : t_seqno_ a0 = t_seqno_ a) by done. clearbody a0.
    pose proof (ack_processing_seq (k_seqno x) (Z.lor flag0 FLAG_DATA_ACKED) a0) as H.
    destruct (ack_processing _ _ a0). rewrite Hf', E0 in H. lia.
  - pose proof (ack_processing_seq (k_seqno x) flag0 a) as H.
    destruct (ack_processing _ _ a). rewrite Hf in H. lia.
Qed.

(** What an acknowledgement does to the sequence numbers and to the board: it
    is ignored, or its number and its SACK blocks are recorded. *)
Definition ack_recorded (x : ack_in) (sacks : list (Z * Z)) (a a' : agent P) (b b' : ScoreBoard1) : Prop :=
  t_seqno_ a' = t_seqno_ a
  /\ (~ (highest_ack_ a <= k_seqno x < t_seqno_ a) /\ highest_ack_ a' = highest_ack_ a /\ b' = b
      \/ highest_ack_ a <= k_seqno x < t_seqno_ a /\ highest_ack_ a' = k_seqno x
         /\ exists b1 f, board_report (k_seqno x) sacks b = Ok (b1, f) /\ (b' = b1 \/ b' = ClearScoreBoard b1)).

(** With its board the agent reacts to an acknowledgement as the agent of
    Driver.v does to one that reports what the board found. *)
Lemma recv_sb_recv k x sacks (a : agent P) b :
  agent_inv ops k a -> sb_inv (highest_ack_ a + 1) (t_seqno_ a) b -> 0 <= k < 2147483648 ->
  full_valid ops (FAck x sacks) (a, b) ->
  returns (recv_sb ops tcp_max_burst x sacks a b) (fun '(a', b') =>
    sb_inv (highest_ack_ a' + 1) (t_seqno_ a') b' /\ ack_recorded x sacks a a' b b'
    /\ exists x', with_board a b sacks x x' /\ valid ops a (EvAck x') /\ recv ops tcp_max_burst x' a = Ok a').
Proof using burst_ok.
  intros Ha Hb Hk (Hv & Hsk & Hw).
  set (xb := x <| k_prior_in_flight := agent_in_flight a b |> <| k_sb := 0 |> <| k_in_flight := 0 |>).
  assert (Hsame : recv ops tcp_max_burst xb a = Ok a -> ~ (highest_ack_ a <= k_seqno x < t_seqno_ a) ->
    returns (Ok (a, b)) (fun '(a', b') => sb_inv (highest_ack_ a' + 1) (t_seqno_ a') b'
      /\ ack_recorded x sacks a a' b b' /\ exists x', with_board a b sacks x x' /\ valid ops a (EvAck x') /\ recv ops tcp_max_burst x' a = Ok a')).
  { intros Hr Hn. split; [done|]. split; [by split; [|left]|]. exists xb. split; [|done]. by exists 0, 0. }
  assert (Hseq : seq_ok a) by (destruct Ha as [[]|[]]; done). destruct Hseq as [Hh Ht].
  pose proof (proj1 (proj2 Hv)) as Hks. cbn [k_seqno set_field] in Hks.
  unfold recv_sb. case_top Hun.
  { apply Hsame; [unfold recv; change (k_seqno xb) with (k_seqno x); by rewrite Hun|].
    rewrite !u32_id in Hun by lia. lia. }
  case_top Hold.
  { apply Hsame; [unfold recv; change (k_seqno xb) with (k_seqno x); by rewrite Hun, Hold|].
    rewrite !u32_id in Hold by lia. lia. }
  cbv zeta.
  assert (Hs : highest_ack_ a <= k_seqno x < t_seqno_ a).
  { rewrite !u32_id in Hun, Hold by lia. lia. }
  specialize (Hsk Hs).
  set (flag0 := if k_ece x && (1 <? u32 (k_seqno x + 1)) then FLAG_ECE else 0).
  assert (Hf0 : has flag0 FLAG_DATA_ACKED = false) by (subst flag0; by case_cond).
  pose proof (front_seq x a flag0 Hs Hh ltac:(lia) Hf0) as Hfr. cbv zeta in Hfr.
  set (x1 := x <| k_prior_in_flight := agent_in_flight a b |>).
  set (upd := if _ <? _ then (_, Z.lor flag0 _) else _) in *.
  destruct upd as [a0 flag1] eqn:Eupd. change (k_seqno x1) with (k_seqno x).
  destruct (ack_processing (k_seqno x) flag1 a0) as [a1 flag2] eqn:Eack. destruct Hfr as [Hh1 Ht1].
  eapply returns_bind with (P := fun '(b1, f) => board_report (k_seqno x) sacks b = Ok (b1, f)
    /\ sb_inv (k_seqno x + 1) (t_seqno_ a) b1).
  { rewrite Hh1.
    assert (Hu : returns (UpdateScoreBoard (k_seqno x) sacks 3 b)
      (fun '(b1, _) => sb_inv (k_seqno x + 1) (t_seqno_ a) b1))
      by (apply (update_ok (highest_ack_ a + 1)); done || lia).
    assert (Hu' : returns (board_report (k_seqno x) sacks b)
      (fun '(b1, _) => sb_inv (k_seqno x + 1) (t_seqno_ a) b1)).
    { unfold board_report. destruct sacks; [|done]. destruct (blocks b) eqn:E; [|done].
      cbn. apply (sb_inv_empty _ _ b _ _ Hb E). lia. }
    by destruct (board_report (k_seqno x) sacks b) as [[b1 f]|]. }
  intros [b1 f] [Hrep Hb1].
  set (x' := x1 <| k_sb := f |> <| k_in_flight := t_seqno_ a - (k_seqno x + 1) |>).
  assert (Hv' : valid ops a (EvAck x')).
  { destruct Hv as (V1 & V2 & V3 & V4 & V5). split; [done|]. split; [done|]. split; [done|].
    split; [|done]. unfold window_max in *. cbn. lia. }
  assert (Hr : returns (recv ops tcp_max_burst x' a) (fun a' => recv ops tcp_max_burst x' a = Ok a')).
  { pose proof (recv_good ops tcp_max_burst burst_ok k x' a Ha Hk Hv') as Hr.
    by destruct (recv ops tcp_max_burst x' a). }
  revert Hr. unfold recv at 1. change (k_seqno x') with (k_seqno x). change (k_ece x') with (k_ece x).
  rewrite Hun, Hold. cbv zeta. fold flag0. fold upd. rewrite Eupd, Eack.
  change (k_sb x') with f.
  change (time_processing ops x' a1) with (time_processing ops x1 a1).
  destruct (time_processing ops x1 a1) as [a2|] eqn:E2; [|done]. rewrite !bind_Ok.
  set (flag3 := Z.lor flag2 f). set (n := _ ⊖ _).
  change (notify_module ops x' n flag3 a2) with (notify_module ops x1 n flag3 a2).
  destruct (notify_module ops x1 n flag3 a2) as [a3|] eqn:E3; [|done]. rewrite !bind_Ok.
  apply time_processing_seq in E2 as [E2h E2t]. apply notify_module_seq in E3 as [E3h E3t].
  intros Hr. eapply returns_mono; [eapply (react_sb_ok x1 x' _ _ _ b1); [|exact Hr]|].
  - rewrite E3h, E2h, Hh1, E3t, E2t, Ht1. done.
  - intros [a4 b4] (Ha4 & [E4h E4t] & Hb4). split; [|split; [split; [congruence|right; split; [done|]; split; [congruence|by exists b1, f]]|by exists x'; split; [exists f, (t_seqno_ a - (k_seqno x + 1)); split; [|by exists b1]|]]].
    rewrite E4h, E3h, E2h, Hh1, E4t, E3t, E2t, Ht1.
    destruct Hb4 as [->| ->]; [done|]. apply sb_clear_inv. lia.
Qed.

Lemma recv_sb_ok k x sacks (a : agent P) b :
  agent_inv ops k a -> sb_inv (highest_ack_ a + 1) (t_seqno_ a) b -> 0 <= k < 2147483648 ->
  full_valid ops (FAck x sacks) (a, b) ->
  returns (recv_sb ops tcp_max_burst x sacks a b) (fun st' => full_inv ops (k + 1) st' /\ (blank ops a -> blank ops st'.1)).
Proof using burst_ok.
  intros Ha Hb Hk Hv. eapply returns_mono; [by apply (recv_sb_recv k)|].
  intros [a' b'] (Hb' & _ & x' & _ & Hx & Hr).
  pose proof (recv_good ops tcp_max_burst burst_ok k x' a Ha Hk Hx) as H. rewrite Hr in H. destruct H as [H Hor].
  split; [by split|]. intros Hbl. destruct Hor as [->|[]]; [done|by left].
Qed.

Lemma timeout_sb_ok k E (a : agent P) b :
  agent_inv ops k a -> sb_inv (highest_ack_ a + 1) (t_seqno_ a) b -> valid ops a (EvTimeout E) ->
  returns (timeout_sb ops E a b) (fun '(a', b') => full_inv ops k (a', b') /\ blank ops a'
    /\ same_seq a a' /\ forall p, sacked (blocks b') p <-> sacked (blocks b) p).
Proof using Type.
  intros Ha Hb Hv. unfold timeout_sb. pose proof (timeout_ok ops k E a Ha Hv) as Ht.
  destruct (timeout_rtx ops E a) as [a1|] eqn:E1; [|done]. cbn [returns] in Ht. destruct Ht as [Ha1 Hbl]. rewrite bind_Ok.
  assert (Hs : same_seq a a1).
  { revert E1. unfold timeout_rtx, enter_loss, set_ca_state, slowdown_init, load_to_linux. intros E1.
    seq_kept; try done; cbv zeta; by case_cond. }
  destruct Hs as [Hs1 Hs2]. assert (Hseq : seq_ok a) by (destruct Ha as [[]|[]]; done). destruct Hseq as [Hh Hl].
  eapply (returns_bind _ _ (fun b1 => sb_inv (highest_ack_ a1 + 1) (t_seqno_ a1) b1 /\ forall p, sacked (blocks b1) p <-> sacked (blocks b) p)).
  - destruct (timeout_loses a); [|by rewrite Hs1, Hs2].
    eapply returns_mono; [apply mark_loss_ok; [rewrite Hs1, Hs2; exact Hb|lia|lia]|]. by intros b1 (Hb1 & _ & _ & Hsk).
  - intros b1 (Hb1 & Hsk). cbn [returns]. done.
Qed.

Lemma drv_sock_nxt R sk n : drv_sock R sk -> in_u32 n -> drv_sock R (sk <| snd_nxt := n |>).
Proof using Type. intros [[] ? ? ? ? ?] Hn. constructor; [constructor|..]; done. Qed.

Lemma agent_inv_sent k (a : agent P) t w m n :
  agent_inv ops k a -> t_seqno_ a <= t < 2147483648 -> in_u32 n ->
  agent_inv ops k (a <| t_seqno_ := t |> <| next_pkts_in_flight_ := w |> <| maxseq_ := m |>
                     <| linux_ := (linux_ a) <| snd_nxt := n |> |>).
Proof using Type.
  intros Ha Ht Hn. destruct Ha as [[? Hs ? ? [] ?]|[? Hs ? ? [] ?]].
  - left. constructor; try done; [|split; cbn; lia].
    exact (drv_sock_nxt _ _ n Hs Hn).
  - right. constructor; try done; [|split; cbn; lia]. by apply drv_sock_nxt.
Qed.

Lemma send_sb_ok k curseq maxburst (a : agent P) b :
  agent_inv ops k a -> sb_inv (highest_ack_ a + 1) (t_seqno_ a) b ->
  full_valid ops (FSend curseq maxburst) (a, b) ->
  returns (send_sb curseq maxburst a b) (fun st' => full_inv ops k st' /\ (blank ops a -> blank ops st'.1)
    /\ (highest_ack_ st'.1 = highest_ack_ a /\ t_seqno_ a <= t_seqno_ st'.1 <= Z.max (t_seqno_ a) curseq
        /\ forall p, sacked (blocks st'.2) p -> sacked (blocks b) p)
    /\ (agent_in_flight st'.1 st'.2 = agent_in_flight a b
        \/ agent_in_flight st'.1 st'.2 <= Z.max (window a) (next_pkts_in_flight_ a))).
Proof using Type.
  intros Ha Hb (Hmb & Hcs). unfold send_sb.
  assert (Hseq : seq_ok a) by (destruct Ha as [[]|[]]; done). destruct Hseq as [Hh Ht].
  eapply returns_bind.
  { apply send_much_ok; cbn [s_una s_seqno s_board]; try done; try lia. apply s32_range. }
  intros s ((Hok & Hu & Hs & Hsk) & _ & _ & Hc & Hlim & _). cbn [s_una s_seqno s_pkts s_board] in Hu, Hs, Hsk.
  destruct Hok as (Hb' & Hu' & Ht'). cbn [una snx board] in *. rewrite Hu in *.
  set (n := match s_out s with [] => _ | _ => _ end).
  assert (Hn : in_u32 n).
  { subst n. destruct (s_out s); [|apply u32_range].
    destruct Ha as [[_ [[] _ _ _ _ _] _ _ _ _]|[_ [[] _ _ _ _ _] _ _ _ _]]; done. }
  cbn [returns fst snd]. split; [split; [apply agent_inv_sent; done || lia|exact Hb']|].
  split; [done|]. split; [done|].
  set (v := agent_in_flight _ (s_board s)).
  assert (Ev : v = sender_in_flight s) by (subst v; unfold agent_in_flight, sender_in_flight; by rewrite Hu).
  rewrite Ev. destruct Hlim as [E|Hlim]; [left|by right].
  rewrite E in Hc. cbn in Hc. rewrite Hc. unfold sender_in_flight, agent_in_flight. cbn. lia.
Qed.

Lemma full_step_ok k ev st :
  full_inv ops k st -> 0 <= k < 2147483648 -> full_valid ops ev st ->
  returns (full_step ops tcp_max_burst ev st) (fun st' => full_inv ops (k + 1) st' /\ (blank ops st.1 -> blank ops st'.1)).
Proof using burst_ok.
  intros [Ha Hb] Hk Hv. destruct st as [a b]. cbn [fst snd] in Ha, Hb.
  assert (Hmono : forall st', full_inv ops k st' -> full_inv ops (k + 1) st')
    by (intros st' [H ?]; split; [eapply agent_inv_mono; [|exact H]; lia|done]).
  destruct ev as [x sacks|E|c m]; cbn [full_step].
  - by apply recv_sb_ok.
  - eapply returns_mono; [by apply (timeout_sb_ok k)|]. intros [a' b'] (H & Hbl & _). split; [by apply Hmono|done].
  - eapply returns_mono; [by apply (send_sb_ok k)|]. intros st' (H & Hbl & _). split; [by apply Hmono|done].
Qed.

Lemma full_reach_inv k st :
  full_reach ops tcp_max_burst k st -> k <= 2147483648 -> 0 <= k /\ full_inv ops k st.
Proof using burst_ok.
  induction 1 as [a Ha|k st ev st' Hr IH Hv Hd]; intros Hk.
  - split; [done|]. split; [by left|]. apply sb_clear_inv. destruct Ha as [_ _ _ _ [] _]. cbn. lia.
  - destruct IH as [Hk0 Hi]; [lia|]. pose proof (full_step_ok k ev st Hi ltac:(lia) Hv) as H.
    rewrite Hd in H. split; [lia|apply H].
Qed.
End FullLemmas.

(** ** The example run *)

Lemma full_ex_ack_valid sacks st :
  In st [full_ex0; full_ex1; full_ex2] ->
  (forall l r, In (l, r) sacks -> 0 < l < r /\ r <= t_seqno_ st.1) ->
  full_valid tcp_reno (FAck ack_ex sacks) st.
Proof.
  intros Hst Hs. destruct st as [a b].
  assert (Hv : valid tcp_reno a (EvAck (ack_ex <| k_in_flight := 0 |>))
    /\ t_seqno_ a - highest_ack_ a <= window_max).
  { destruct Hst as [[= <- <-]|[[= <- <-]|[[= <- <-]|[]]]]; cbn; unfold acked_max, window_max, ok_last;
      (split; [split; [apply wf_env_ex|]; naive_solver lia|lia]). }
  split; [apply Hv|split; [|apply Hv]]. intros _ l r Hin. right. by apply Hs.
Qed.

Lemma full_ex1_reach : full_reach tcp_reno 3 1 full_ex1.
Proof.
  apply (full_next tcp_reno 3 0 full_ex0 (FAck ack_ex [])).
  - apply full_start, agent_ex_fresh.
  - apply full_ex_ack_valid; [by left|done].
  - by vm_compute.
Qed.

Lemma full_ex2_reach : full_reach tcp_reno 3 2 full_ex2.
Proof.
  apply (full_next tcp_reno 3 1 full_ex1 (FSend 40 0)); [apply full_ex1_reach|cbn; lia|by vm_compute].
Qed.

(** * Properties *)


(** The agent with its scoreboard refines the agent of Driver.v: on every
    acknowledgement with its SACK blocks, the socket, the module and the sequence
    numbers change exactly as they do there for the same acknowledgement, itself
    valid there, for some report of the board on the packets in flight and the flags. *)
Theorem scoreboard_refines_driver {P} (ops : tcp_congestion_ops P) `{!CongModule ops}
  tcp_max_burst k a b x sacks :
  1 <= tcp_max_burst <= 255 -> full_reach ops tcp_max_burst k (a, b) -> k < 2147483648 ->
  full_valid ops (FAck x sacks) (a, b) ->
  exists a' b' x', full_step ops tcp_max_burst (FAck x sacks) (a, b) = Ok (a', b')
    /\ with_board a b sacks x x' /\ valid ops a (EvAck x') /\ drive ops tcp_max_burst (EvAck x') a = Ok a'.
Proof.
  intros Hb Hr Hk Hv. destruct (full_reach_inv ops tcp_max_burst Hb k _ Hr ltac:(lia)) as [Hk0 [Ha Hi]].
  pose proof (recv_sb_recv ops tcp_max_burst Hb k x sacks a b Ha Hi ltac:(lia) Hv) as Hd.
  apply returns_inv in Hd as ([a' b'] & Hd & _ & _ & x' & Hx & Hx' & Hx''). by exists a', b', x'.
Qed.

(** The sending loop respects the window: either the packets in
    flight are what they were, or they are at most the congestion window, or what rate
    halving still allows. *)
Theorem window_respected {P} (ops : tcp_congestion_ops P) `{!CongModule ops}
  tcp_max_burst k a b curseq maxburst :
  1 <= tcp_max_burst <= 255 -> full_reach ops tcp_max_burst k (a, b) -> k < 2147483648 ->
  full_valid ops (FSend curseq maxburst) (a, b) ->
  returns (full_step ops tcp_max_burst (FSend curseq maxburst) (a, b)) (fun '(a', b') =>
    agent_in_flight a' b' = agent_in_flight a b
    \/ agent_in_flight a' b' <= Z.max (window a) (next_pkts_in_flight_ a)).
Proof.
  intros Hb Hr Hk Hv. destruct (full_reach_inv ops tcp_max_burst Hb k _ Hr ltac:(lia)) as [Hk0 [Ha Hi]].
  eapply returns_mono; [by apply (send_sb_ok ops k)|]. by intros [a' b'] (_ & _ & _ & H).
Qed.

(** ** Witnesses *)

(** A timeout before the first acknowledgement. *)
Definition full_ex3 : agent unit * ScoreBoard1 := Eval vm_compute in
  match full_step tcp_reno 3 (FTimeout env_ex) full_ex0 with Ok st => st | Trap _ => full_ex0 end.

Lemma full_ex3_reach : full_reach tcp_reno 3 1 full_ex3.
Proof.
  apply (full_next tcp_reno 3 0 full_ex0 (FTimeout env_ex)); [apply full_start, agent_ex_fresh| |by vm_compute].
  split; [apply wf_env_ex|by right].
Qed.


Lemma scoreboard_refines_driver_witness :
  exists a' b' x', full_step tcp_reno 3 (FAck ack_ex [(2, 3)]) full_ex2 = Ok (a', b')
    /\ with_board full_ex2.1 full_ex2.2 [(2, 3)] ack_ex x' /\ valid tcp_reno full_ex2.1 (EvAck x') /\ drive tcp_reno 3 (EvAck x') full_ex2.1 = Ok a'.
Proof.
  apply (scoreboard_refines_driver tcp_reno 3 2 full_ex2.1 full_ex2.2); [lia|exact full_ex2_reach|lia|].
  apply full_ex_ack_valid; [by right; right; left|]. intros l r [[= <- <-]|[]]. cbn. lia.
Defined.

Lemma window_respected_witness :
  returns (full_step tcp_reno 3 (FSend 40 0) full_ex1) (fun '(a', b') =>
    agent_in_flight a' b' = agent_in_flight full_ex1.1 full_ex1.2
    \/ agent_in_flight a' b' <= Z.max (window full_ex1.1) (next_pkts_in_flight_ full_ex1.1)).
Proof.
  apply (window_respected tcp_reno 3 1 full_ex1.1 full_ex1.2); [lia|exact full_ex1_reach|lia|cbn; lia].
Defined.
