(* ===== verification/Sink.v ===== *)
(** The receiver (tcp-sink.cc, tcp-sink.h): the window of packets received, the
    acknowledgements with their SACK blocks, immediate or delayed. *)
From stdpp Require Import sets list_numbers.
From S2P Require Import Prelude Scoreboard Sack.

(** * Definitions *)

(** ** Acker: the packets received *)

(** [seen_] is a ring of [wndmask_ + 1] sizes; the time stamps are left out. *)
Record acker := mk_acker {
  next_ : Z;
  maxseen_ : Z;
  wndmask_ : Z;
  seen_ : list Z;
  is_dup_ : bool;
  ecn_unacked_ : bool;
  last_ack_sent_ : Z;
}.
#[global] Instance eta_acker : Eta acker := fun r =>
  mk_acker (next_ r) (maxseen_ r) (wndmask_ r) (seen_ r) (is_dup_ r) (ecn_unacked_ r) (last_ack_sent_ r).

Definition MWS : Z := 64.
Definition MWM : Z := MWS - 1.
(** A new agent's memory is not cleared: [is_dup_] may be anything. *)
Definition new_acker (dup : bool) : acker :=
  mk_acker 0 0 MWM (replicate (Z.to_nat MWS) 0) dup false 0.

Definition acker_reset (a : acker) : acker :=
  a <| next_ := 0 |> <| maxseen_ := 0 |> <| seen_ := replicate (Z.to_nat (wndmask_ a + 1)) 0 |>.

Definition Seqno (a : acker) : Z := next_ a - 1.

(** [seen_[i & wndmask_]] *)
Definition seen_at (a : acker) (i : Z) : outcome Z := aread (seen_ a) (Z.land i (wndmask_ a)).
Definition see (i v : Z) (a : acker) : outcome acker :=
  l ← awrite (seen_ a) (Z.land i (wndmask_ a)) v; Ok (a <| seen_ := l |>).

Definition resize_buffers (sz : Z) (a : acker) : outcome acker :=
  let new_wndmask := sz - 1 in
  '(_, new_seen) ← c_while (fun '(i, _) => i <=? maxseen_ a + 1)
    (fun '(i, new_seen) =>
       v ← seen_at a i;
       new_seen ← awrite new_seen (Z.land i new_wndmask) v;
       Ok (i + 1, new_seen))
    (next_ a, replicate (Z.to_nat sz) 0);
  Ok (a <| seen_ := new_seen |> <| wndmask_ := new_wndmask |>).

(** [for (i = maxseen_ + 1; i < seq; ++i) seen_[i & wndmask_] = 0;] *)
Definition clear_gap (seq : Z) (a : acker) : outcome acker :=
  '(_, a) ← c_while (fun '(i, _) => i <? seq) (fun '(i, a) => a ← see i 0 a; Ok (i + 1, a))
    (maxseen_ a + 1, a);
  Ok a.

(** The packets deliverable from [next] on, and their bytes. *)
Definition deliver (a : acker) (next : Z) : outcome (Z * Z) :=
  c_whilem (fun '(next, _) => v ← seen_at a next; Ok (nz v))
    (fun '(next, n) => v ← seen_at a next; Ok (next + 1, n + v)) (next, 0).

Definition update (seq numBytes : Z) (a : acker) : outcome (acker * Z) :=
  let a := a <| is_dup_ := false |> in
  a ← c_while (fun a => wndmask_ a <=? seq + 1 - next_ a)
    (fun a => resize_buffers ((wndmask_ a + 1) * 2) a) a;
  '(a, just_marked_as_seen) ←
    (if maxseen_ a <? seq then
       a ← clear_gap seq a;
       a ← see seq numBytes (a <| maxseen_ := seq |>);
       a ← see (maxseen_ a + 1) 0 a;
       Ok (a, true)
     else Ok (a, false));
  let next := next_ a in
  let a := if seq <? next then a <| is_dup_ := true |> else a in
  if (next <=? seq) && (seq <=? maxseen_ a) then
    v ← seen_at a seq;
    let a := if nz v && negb just_marked_as_seen then a <| is_dup_ := true |> else a in
    a ← see seq numBytes a;
    '(next, numToDeliver) ← deliver a next;
    Ok (a <| next_ := next |>, numToDeliver)
  else Ok (a, 0).

(** ** SackStack: the SACK blocks sent, the most recent first *)

Record sack_stack := mk_sack_stack {
  cnt_ : Z;
  SFE_ : list (Z * Z);        (* size_ entries *)
}.
#[global] Instance eta_sack_stack : Eta sack_stack := fun r => mk_sack_stack (cnt_ r) (SFE_ r).

Definition size_ (f : sack_stack) : Z := Z.of_nat (length (SFE_ f)).

Definition new_stack (sz : Z) : sack_stack := mk_sack_stack 0 (replicate (Z.to_nat sz) (-1, -1)).

(** [for (i = lo; i < hi; i++) body] and [for (i = hi; i >= lo; i--) body] *)
Definition c_for_up {S} (lo hi : Z) (body : Z -> S -> outcome S) (s : S) : outcome S :=
  '(_, s) ← c_while (fun '(i, _) => i <? hi) (fun '(i, s) => s ← body i s; Ok (i + 1, s)) (lo, s);
  Ok s.
Definition c_for_down {S} (hi lo : Z) (body : Z -> S -> outcome S) (s : S) : outcome S :=
  '(_, s) ← c_while (fun '(i, _) => lo <=? i) (fun '(i, s) => s ← body i s; Ok (i - 1, s)) (hi, s);
  Ok s.

Definition stack_reset (f : sack_stack) : outcome sack_stack :=
  l ← c_for_up 0 (cnt_ f) (fun i l => awrite l i (-1, -1)) (SFE_ f);
  Ok (mk_sack_stack 0 l).

(** [push()]: the first entry stays where it was. *)
Definition push (f : sack_stack) : outcome sack_stack :=
  let cnt := if size_ f <=? cnt_ f then size_ f - 1 else cnt_ f in
  l ← c_for_down (cnt - 1) 0 (fun i l => e ← aread l i; awrite l (i + 1) e) (SFE_ f);
  Ok (mk_sack_stack (cnt + 1) l).

Definition pop (n : Z) (f : sack_stack) : outcome sack_stack :=
  l ← c_for_up n (cnt_ f - 1) (fun i l => e ← aread l (i + 1); awrite l i e) (SFE_ f);
  l ← awrite l (Z.max n (cnt_ f - 1)) (-1, -1);
  Ok (mk_sack_stack (cnt_ f - 1) l).

(** ** Sacker *)

Record sacker := mk_sacker {
  ack_ : acker;
  base_nblocks_ : Z;
  sf_ : sack_stack;
}.
#[global] Instance eta_sacker : Eta sacker := fun r => mk_sacker (ack_ r) (base_nblocks_ r) (sf_ r).

Definition NSA : Z := 3.

(** configure, and trace when [maxSackBlocks_] changes *)
Definition set_nblocks (nblocks : Z) (s : sacker) : sacker :=
  let nblocks := if NSA <? nblocks then NSA else nblocks in
  s <| sf_ := new_stack nblocks |> <| base_nblocks_ := nblocks |>.

Definition sacker_reset (s : sacker) : outcome sacker :=
  f ← stack_reset (sf_ s); Ok (s <| sf_ := f |> <| ack_ := acker_reset (ack_ s) |>).

(** [h->sa_left(sack_index) = l; h->sa_right(sack_index) = r; sack_index++]:
    the header has room for [NSA + 1] blocks. *)
Definition sa_put (b : Z * Z) (h : list (Z * Z)) : outcome (list (Z * Z)) :=
  if Z.of_nat (length h) <? NSA + 1 then Ok (h ++ [b]) else Trap OutOfBounds.

(** The first hole from [old_seqno] on; [maxseen_ + 1] if there is none. *)
Definition sack_right (old_seqno : Z) (a : acker) : outcome Z :=
  '(_, r) ← c_while (fun '(i, r) => (i <=? maxseen_ a) && (r =? -1))
    (fun '(i, r) => v ← seen_at a i; if nz v then Ok (i + 1, r) else Ok (i, i)) (old_seqno, -1);
  Ok (if r =? -1 then maxseen_ a + 1 else r).

(** Leftwards from [right - 1] to the first hole above [seqno]. *)
Definition sack_left (right : Z) (a : acker) : outcome Z :=
  '(_, l) ← c_while (fun '(i, l) => (Seqno a <? i) && (l =? -1))
    (fun '(i, l) => v ← seen_at a i; if nz v then Ok (i - 1, l) else Ok (i, i + 1)) (right - 1, -1);
  Ok l.

(** The older blocks: those the recent one covers are removed. *)
Record older := mk_older {
  r_sf : sack_stack;
  r_h : list (Z * Z);
  r_k : Z;
  r_break : bool;
}.
#[global] Instance eta_older : Eta older := fun r => mk_older (r_sf r) (r_h r) (r_k r) (r_break r).

Definition older_body (maxseen left right : Z) (o : older) : outcome older :=
  '(l, r) ← aread (SFE_ (r_sf o)) (r_k o);
  if (l <? 0) || (r <? 0) || (maxseen + 1 <? r) then Ok (o <| r_break := true |>)
  else if (left <=? l) && (r <=? right) then f ← pop (r_k o) (r_sf o); Ok (o <| r_sf := f |>)
  else h ← sa_put (l, r) (r_h o); Ok (o <| r_h := h |> <| r_k := r_k o + 1 |>).

Definition older_blocks (nblocks maxseen left right : Z) (f : sack_stack) (h : list (Z * Z))
  : outcome (sack_stack * list (Z * Z)) :=
  o ← c_while (fun o => negb (r_break o) && (Z.of_nat (length (r_h o)) <? nblocks))
    (older_body maxseen left right) (mk_older f h 0 false);
  Ok (r_sf o, r_h o).

(** The blocks of the acknowledgement of [old_seqno]. *)
Definition append_ack (dsacks : bool) (old_seqno : Z) (s : sacker)
  : outcome (sacker * list (Z * Z)) :=
  let a := ack_ s in
  let seqno := Seqno a in
  if old_seqno <? 0 then Ok (s, [])
  else if (maxseen_ a <=? seqno) && nz (cnt_ (sf_ s)) then
    f ← stack_reset (sf_ s); Ok (s <| sf_ := f |>, [])
  else if ((seqno <? maxseen_ a) || is_dup_ a) && (0 <? base_nblocks_ s) then
    h ← (if dsacks && is_dup_ a then sa_put (old_seqno, old_seqno + 1) [] else Ok []);
    if base_nblocks_ s <=? Z.of_nat (length h) then Ok (s, h)
    else
      rgt ← sack_right old_seqno a;
      '(lft, h) ← (if old_seqno <=? seqno then Ok (0, h)
                    else lft ← sack_left rgt a; h ← sa_put (lft, rgt) h; Ok (lft, h));
      '(f, h) ← older_blocks (base_nblocks_ s) (maxseen_ a) lft rgt (sf_ s) h;
      f ← (if seqno <? old_seqno then
             f ← push f; l ← awrite (SFE_ f) 0 (lft, rgt); Ok (f <| SFE_ := l |>)
           else Ok f);
      Ok (s <| sf_ := f |>, h)
  else Ok (s, []).

(** ** TcpSink *)

(** A data packet: [th->ts() < lastreset_] says that it is from before the last
    reset. *)
Record data_packet := mk_data {
  d_seqno : Z;
  d_size : Z;
  d_old : bool;
  d_ect : bool;
  d_ce : bool;
  d_cong_action : bool;
  d_ecnecho : bool;
}.

Record ack_packet := mk_ack {
  q_seqno : Z;
  q_sacks : list (Z * Z);
  q_ecnecho : bool;
  q_ect : bool;
}.

Record sink := mk_sink {
  sacker_ : sacker;
  save_ : option data_packet;
  delay_timer_ : bool;        (* TIMER_PENDING *)
  bytes_ : Z;
}.
#[global] Instance eta_sink : Eta sink := fun r =>
  mk_sink (sacker_ r) (save_ r) (delay_timer_ r) (bytes_ r).

(** The bound variables of a sink. *)
Record sink_params := mk_sink_params {
  generate_dsacks_ : bool;
  RFC2581_immediate_ack_ : bool;
  ecn_syn_ : bool;
}.

Definition orb_saved (f : data_packet -> bool) (s : sink) (pkt : data_packet) : bool :=
  match save_ s with Some p => f p | None => false end || f pkt.

(** ECN: the congestion not yet answered, the echo and the [ect] bit of the
    acknowledgement. *)
Definition ecn_update (s : sink) (opkt : data_packet) (unacked : bool) : bool :=
  let unacked := if orb_saved d_cong_action s opkt then false else unacked in
  if orb_saved (fun p => d_ect p && d_ce p) s opkt then true else unacked.
Definition ecn_bits (g : sink_params) (s : sink) (opkt : data_packet) (unacked : bool) : bool * bool :=
  let echo := if orb_saved d_ect s opkt then unacked else false in
  if orb_saved (fun p => negb (d_ect p) && d_ecnecho p) s opkt then (true, ecn_syn_ g) else (echo, false).

(** TcpSink::ack, for a Sacker; what is sent, and the sink afterwards. *)
Definition sink_ack (g : sink_params) (opkt : data_packet) (s : sink) : outcome (sink * ack_packet) :=
  let sk := sacker_ s in
  let a := ack_ sk in
  let seqno := Seqno a in
  let unacked := ecn_update s opkt (ecn_unacked_ a) in
  let '(echo, ect) := ecn_bits g s opkt unacked in
  let sk := sk <| ack_ := a <| ecn_unacked_ := unacked |> |> in
  '(sk, h) ← append_ack (generate_dsacks_ g) (d_seqno opkt) sk;
  let a := ack_ sk in
  Ok (s <| sacker_ := sk <| ack_ := a <| last_ack_sent_ := seqno |> |> |>, mk_ack seqno h echo ect).

(** The packet enters the window. *)
Definition accept (pkt : data_packet) (s : sink) : outcome sink :=
  let sk := sacker_ s in
  '(a, numToDeliver) ← update (d_seqno pkt) (d_size pkt) (ack_ sk);
  Ok (s <| sacker_ := sk <| ack_ := a |> |> <| bytes_ := bytes_ s + numToDeliver |>).

(** TcpSink::recv *)
Definition sink_recv (g : sink_params) (pkt : data_packet) (s : sink) : outcome (sink * list ack_packet) :=
  if d_old pkt then Ok (s, [])
  else
    s ← accept pkt s;
    '(s, k) ← sink_ack g pkt s;
    Ok (s, [k]).

(** DelAckSink::recv *)
Definition delack_recv (g : sink_params) (pkt : data_packet) (s : sink)
  : outcome (sink * list ack_packet) :=
  if d_old pkt then Ok (s, [])
  else
    s ← accept pkt s;
    let a := ack_ (sacker_ s) in
    if negb (delay_timer_ s) && (d_seqno pkt =? Seqno a)
       && negb (RFC2581_immediate_ack_ g && (d_seqno pkt <? maxseen_ a))
    then Ok (s <| save_ := Some pkt |> <| delay_timer_ := true |>, [])
    else
      '(s, k) ← sink_ack g pkt (s <| delay_timer_ := false |>);
      Ok (s <| save_ := None |>, [k]).

(** The delay timer expires: DelAckSink::timeout. *)
Definition delack_timeout (g : sink_params) (s : sink) : outcome (sink * list ack_packet) :=
  let s := s <| delay_timer_ := false |> in
  match save_ s with
  | Some pkt => '(s, k) ← sink_ack g pkt s; Ok (s <| save_ := None |>, [k])
  | None => Ok (s, [])
  end.

(** DelAckSink::reset; TcpSink::reset has no timer. *)
Definition sink_reset (s : sink) : outcome sink :=
  sk ← sacker_reset (sacker_ s);
  Ok (s <| sacker_ := sk |> <| save_ := None |> <| delay_timer_ := false |>).

(** ** What the window stands for *)

Definition seq_max : Z := 268435456.

Section Window.
Variable size : Z -> Z.

(** The ring's entry for packet [p], the packets [S] received. *)
Definition got (S : list Z) (p : Z) : Z := if decide (p ∈ S) then size p else 0.

(** The bytes of the packets below [n]. *)
Definition total (n : Z) : Z := foldr (fun p t => size p + t) 0 (seqZ 0 n).

Record ring (k : Z) (a : acker) : Prop := mk_ring {
  rg_size : 0 <= k <= 30;
  rg_mask : wndmask_ a = Z.ones k;
  rg_length : Z.of_nat (length (seen_ a)) = 2 ^ k;
}.

(** [next_] is the first packet not received; from there to one past
    [maxseen_] the ring tells what is received. *)
Record window (S : list Z) (a : acker) : Prop := mk_window {
  wn_ring : exists k, ring k a;
  wn_next : 0 <= next_ a <= maxseen_ a + 1;
  wn_fits : maxseen_ a + 1 - next_ a < wndmask_ a;
  wn_all : forall p, 0 <= p < next_ a -> p ∈ S;
  wn_hole : next_ a ∉ S;
  wn_max : forall p, p ∈ S -> 0 <= p <= maxseen_ a;
  wn_top : maxseen_ a < seq_max;
  wn_seen : forall p, next_ a <= p <= maxseen_ a + 1 -> seen_at a p = Ok (got S p);
}.
End Window.

(** ** Runs of a sink *)

Definition new_sink (nblocks : Z) (dup : bool) : sink :=
  mk_sink (set_nblocks nblocks (mk_sacker (new_acker dup) (-1) (new_stack 0))) None false 0.

Inductive sink_event : Type :=
  | Arrive (pkt : data_packet)
  | Expire.

(** The sinks Agent/TCPSink/Sack1 and, [delack], Agent/TCPSink/Sack1/DelAck. *)
Definition sink_step (g : sink_params) (delack : bool) (ev : sink_event) (s : sink)
  : outcome (sink * list ack_packet) :=
  match ev with
  | Arrive pkt => if delack then delack_recv g pkt s else sink_recv g pkt s
  | Expire => delack_timeout g s
  end.

Section Runs.
Variables (size : Z -> Z) (g : sink_params) (delack : bool).

(** A packet has a number below [seq_max], and the size of that number. *)
Definition sink_valid (ev : sink_event) : Prop :=
  match ev with
  | Arrive pkt => 0 <= d_seqno pkt < seq_max /\ d_size pkt = size (d_seqno pkt)
  | Expire => True
  end.

Definition arrived (ev : sink_event) (S : list Z) : list Z :=
  match ev with Arrive pkt => if d_old pkt then S else d_seqno pkt :: S | Expire => S end.

(** The packets received, the sink, the acknowledgements sent. *)
Inductive sink_reach : list Z -> sink -> list ack_packet -> Prop :=
  | sink_start nblocks dup : 0 <= nblocks -> sink_reach [] (new_sink nblocks dup) []
  | sink_next S s ks ev s' ks' :
      sink_reach S s ks -> sink_valid ev -> sink_step g delack ev s = Ok (s', ks') ->
      sink_reach (arrived ev S) s' (ks ++ ks').
End Runs.

(** An acknowledgement is true of the packets [S] received: all up to its
    number, all of its blocks, which lie above and do not overlap. *)
Record truthful (S : list Z) (k : ack_packet) : Prop := mk_truthful {
  tr_all : forall p, 0 <= p <= q_seqno k -> p ∈ S;
  tr_seqno : -1 <= q_seqno k;
  tr_blocks : forall b, b ∈ q_sacks k ->
    q_seqno k + 1 < b.1 < b.2 /\ forall p, b.1 <= p < b.2 -> p ∈ S;
  tr_disjoint : disjoint_sacks (q_sacks k);
  tr_length : Z.of_nat (length (q_sacks k)) <= NSA;
}.

(** The blocks [L] are above [n], hold packets received only, and do not
    overlap. *)
Record runs_ok (S : list Z) (n : Z) (a : acker) (L : list (Z * Z)) : Prop := mk_runs_ok {
  ru_in : forall b, b ∈ L -> n < b.1 /\ b.1 < b.2 <= maxseen_ a + 1 /\ forall p, b.1 <= p < b.2 -> p ∈ S;
  ru_disjoint : disjoint_sacks L;
}.

(** The stack holds the blocks [L]. *)
Record holds (f : sack_stack) (L : list (Z * Z)) : Prop := mk_holds {
  ho_cnt : cnt_ f = Z.of_nat (length L);
  ho_list : exists n, SFE_ f = L ++ replicate n (-1, -1);
}.

Record sacker_inv (size : Z -> Z) (S : list Z) (sk : sacker) : Prop := mk_sacker_inv {
  sv_window : window size S (ack_ sk);
  sv_size : size_ (sf_ sk) = base_nblocks_ sk;
  sv_nblocks : base_nblocks_ sk <= NSA;
  sv_stack : exists L, holds (sf_ sk) L /\ runs_ok S (next_ (ack_ sk)) (ack_ sk) L;
}.

(** The timer runs while a packet, the last in order, waits for its
    acknowledgement. *)
Record sink_inv (size : Z -> Z) (S : list Z) (s : sink) : Prop := mk_sink_inv {
  sn_sacker : sacker_inv size S (sacker_ s);
  sn_bytes : bytes_ s = total size (next_ (ack_ (sacker_ s)));
  sn_timer : match save_ s with
             | Some p => delay_timer_ s = true /\ d_seqno p = Seqno (ack_ (sacker_ s)) /\ d_seqno p ∈ S
             | None => delay_timer_ s = false
             end;
}.

(** ** An example *)

(** Segments of 1000 bytes; 0 arrives, then 2, 5 and 4: 1 and 3 are missing. *)
Definition size_ex : Z -> Z := fun _ => 1000.
Definition params_ex : sink_params := mk_sink_params false true false.
Definition data_ex (n : Z) : data_packet := mk_data n 1000 false false false false false.
Definition sink_ex0 : sink := new_sink 3 false.

Definition run_ex (delack : bool) (l : list Z) : sink * list ack_packet :=
  foldl (fun '(s, ks) n => match sink_step params_ex delack (Arrive (data_ex n)) s with
                           | Ok (s', ks') => (s', ks ++ ks') | Trap _ => (s, ks) end) (sink_ex0, []) l.
Definition sink_ex : sink := Eval vm_compute in (run_ex false [0; 2; 5]).1.
Definition acks_ex : list ack_packet := Eval vm_compute in (run_ex false [0; 2; 5]).2.
Definition sink_ex_wait : sink := Eval vm_compute in (run_ex true [0]).1.

(** * Lemmas *)

(** ** The ring *)

Lemma slot_range k i : 0 <= k -> 0 <= Z.land i (Z.ones k) < 2 ^ k.
Proof. intros Hk. rewrite Z.land_ones by done. apply Z.mod_pos_bound. lia. Qed.

Lemma slot_inj k i j :
  0 <= k -> Z.abs (i - j) < 2 ^ k -> Z.land i (Z.ones k) = Z.land j (Z.ones k) -> i = j.
Proof.
  intros Hk Hd. rewrite !Z.land_ones by done. intros H.
  pose proof (Z.div_mod i (2 ^ k) ltac:(lia)) as Hi. pose proof (Z.div_mod j (2 ^ k) ltac:(lia)) as Hj.
  rewrite H in Hi. assert (i - j = 2 ^ k * (i / 2 ^ k - j / 2 ^ k)) by lia.
  destruct (Z.eq_dec (i / 2 ^ k) (j / 2 ^ k)) as [E|]; [rewrite E in Hi; lia|nia].
Qed.

Lemma ring_write k (l : list Z) i v :
  0 <= k -> Z.of_nat (length l) = 2 ^ k ->
  exists l', awrite l (Z.land i (Z.ones k)) v = Ok l' /\ length l' = length l
    /\ forall j, Z.abs (i - j) < 2 ^ k ->
       aread l' (Z.land j (Z.ones k)) = if i =? j then Ok v else aread l (Z.land j (Z.ones k)).
Proof.
  intros Hk Hl. pose proof (slot_range k i Hk) as Hi. eexists. rewrite awrite_ok by lia.
  split; [done|]. split; [by rewrite length_insert|]. intros j Hj. pose proof (slot_range k j Hk) as Hjr.
  unfold aread. destruct (Z.ltb_spec (Z.land j (Z.ones k)) 0); [lia|].
  destruct (Z.eqb_spec i j) as [->|Hne].
  - by rewrite list_lookup_insert_eq by lia.
  - rewrite list_lookup_insert_ne; [done|]. intros E. apply Hne, (slot_inj k); [done|done|lia].
Qed.

Lemma ring_read k (l : list Z) i :
  0 <= k -> Z.of_nat (length l) = 2 ^ k -> exists v, aread l (Z.land i (Z.ones k)) = Ok v.
Proof.
  intros Hk Hl. destruct (aread_in l (Z.land i (Z.ones k))) as (v & Hv & _); [|by exists v].
  rewrite Hl. by apply slot_range.
Qed.

Lemma ring_ext k a a' : ring k a -> wndmask_ a' = wndmask_ a -> seen_ a' = seen_ a -> ring k a'.
Proof. intros [] E1 E2. constructor; by rewrite ?E1, ?E2. Qed.

Lemma seen_at_ok k a i : ring k a -> exists v, seen_at a i = Ok v.
Proof. intros [Hk Hm Hl]. unfold seen_at. rewrite Hm. by apply (ring_read k); [lia|]. Qed.

Lemma see_ok k a i v :
  ring k a ->
  returns (see i v a) (fun a' => ring k a' /\ a' = a <| seen_ := seen_ a' |>
    /\ forall j, Z.abs (i - j) < 2 ^ k -> seen_at a' j = if i =? j then Ok v else seen_at a j).
Proof.
  intros [Hk Hm Hl]. unfold see, seen_at. rewrite Hm.
  destruct (ring_write k (seen_ a) i v) as (l & -> & Hlen & Hr); [lia|done|]. c_ret. cbn [returns].
  split; [by constructor; [|exact Hm|cbn; rewrite Hlen]|]. split; [done|]. intros j Hj.
  change (wndmask_ (a <| seen_ := l |>)) with (wndmask_ a). rewrite Hm. by apply Hr.
Qed.

(** ** Growing the ring *)

Lemma resize_ok k a :
  ring k a -> k < 30 -> 0 <= next_ a -> maxseen_ a + 1 - next_ a < 2 ^ k -> maxseen_ a < seq_max ->
  returns (resize_buffers ((wndmask_ a + 1) * 2) a) (fun a' => ring (k + 1) a'
    /\ a' = a <| seen_ := seen_ a' |> <| wndmask_ := wndmask_ a' |>
    /\ forall p, next_ a <= p <= maxseen_ a + 1 -> seen_at a' p = seen_at a p).
Proof.
  intros Hr Hk30 Hn Hfit Htop. pose proof Hr as [Hk Hm Hl].
  assert (Hones : (wndmask_ a + 1) * 2 = 2 ^ (k + 1)).
  { rewrite Hm, Z.ones_equiv, Z.pow_add_r by lia. lia. }
  unfold resize_buffers. rewrite Hones.
  assert (Hmask : 2 ^ (k + 1) - 1 = Z.ones (k + 1)) by (rewrite Z.ones_equiv; lia).
  rewrite Hmask. assert (H2 : 2 ^ (k + 1) = 2 * 2 ^ k) by (rewrite Z.pow_add_r by lia; lia).
  c_bind (fun '((_, l) : Z * list Z) => Z.of_nat (length l) = 2 ^ (k + 1)
    /\ forall p, next_ a <= p <= maxseen_ a + 1 -> aread l (Z.land p (Z.ones (k + 1))) = seen_at a p).
  - eapply returns_mono; [apply (c_while_rule (fun '((i, l) : Z * list Z) => Z.of_nat (length l) = 2 ^ (k + 1)
        /\ next_ a <= i
        /\ forall p, next_ a <= p <= maxseen_ a + 1 -> p < i -> aread l (Z.land p (Z.ones (k + 1))) = seen_at a p)
      (fun '(i, _) => Z.max 0 (maxseen_ a + 2 - i)))|].
    + intros [i l] (Hlen & Hi & Hp) Hc.
      destruct (seen_at_ok k a i Hr) as [v Hv]. rewrite Hv. c_ret.
      destruct (ring_write (k + 1) l i v) as (l' & -> & Hlen' & Hr'); [lia|done|]. c_ret.
      cbn [returns]. split_and!; [by rewrite Hlen'|lia| |lia|lia].
      intros p Hp1 Hp2. rewrite Hr' by lia. destruct (Z.eqb_spec i p) as [<-|]; [done|]. apply Hp; lia.
    + split_and!; [rewrite length_replicate; lia|lia|lia].
    + unfold seq_max in *. lia.
    + intros [i l] [(Hlen & Hi & Hp) Hc]. cbv beta iota in Hc. split; [done|]. intros p Hp1. apply Hp; lia.
  - intros [i l] [Hlen Hp]. cbn [returns].
    split; [by constructor; [lia| |]|]. split; [done|]. intros p Hp1. by apply Hp.
Qed.

(** ** Zeroing the gap above [maxseen_] *)

Lemma clear_gap_ok k seq a :
  ring k a -> maxseen_ a < seq < seq_max -> -1 <= maxseen_ a -> seq - maxseen_ a <= 2 ^ k ->
  returns (clear_gap seq a) (fun a' => ring k a' /\ a' = a <| seen_ := seen_ a' |>
    /\ forall p, seq - p < 2 ^ k -> p <= seq ->
       seen_at a' p = if (maxseen_ a <? p) && (p <? seq) then Ok 0 else seen_at a p).
Proof.
  intros Hr Hseq Hm Hgap. pose proof Hr as [Hk _ _]. unfold clear_gap.
  c_bind (fun '((_, a') : Z * acker) => ring k a' /\ a' = a <| seen_ := seen_ a' |>
    /\ forall p, seq - p < 2 ^ k -> p <= seq ->
       seen_at a' p = if (maxseen_ a <? p) && (p <? seq) then Ok 0 else seen_at a p);
    [|by intros [i a']].
  eapply returns_mono; [apply (c_while_rule (fun '((i, a') : Z * acker) => ring k a' /\ a' = a <| seen_ := seen_ a' |>
      /\ maxseen_ a < i <= seq
      /\ forall p, seq - p < 2 ^ k -> p <= seq ->
         seen_at a' p = if (maxseen_ a <? p) && (p <? i) then Ok 0 else seen_at a p)
    (fun '(i, _) => Z.max 0 (seq - i)))|].
  - intros [i a'] (Hr' & He & Hi & Hp) Hc. cbv beta iota in Hc.
    eapply returns_bind; [by apply (see_ok k)|]. intros a2 (Hr2 & He2 & Hp2). cbn [returns].
    split_and!; [done| |lia|lia| |lia|lia].
    + rewrite He2, He. done.
    + intros p Hp3 Hp4. rewrite Hp2 by lia. destruct (Z.eqb_spec i p) as [<-|Hne].
      * destruct (Z.ltb_spec (maxseen_ a) i); [|lia]. by destruct (Z.ltb_spec i (i + 1)); [|lia].
      * rewrite Hp by lia. destruct (Z.ltb_spec p i), (Z.ltb_spec p (i + 1)); try lia; done.
  - split_and!; [done|by destruct a|lia|lia|].
    intros p _ _. destruct (Z.ltb_spec (maxseen_ a) p), (Z.ltb_spec p (maxseen_ a + 1)); try lia; done.
  - unfold seq_max in *. lia.
  - intros [i a'] [(Hr' & He & Hi & Hp) Hc]. cbv beta iota in Hc. split; [done|]. split; [done|].
    assert (i = seq) as -> by lia. exact Hp.
Qed.

(** ** A packet arrives *)

Section Arrival.
Variable size : Z -> Z.
Hypothesis size_pos : forall p, 0 < size p.

Lemma got_in S p : p ∈ S -> got size S p = size p.
Proof using Type. intros H. unfold got. by rewrite decide_True. Qed.
Lemma got_out S p : p ∉ S -> got size S p = 0.
Proof using Type. intros H. unfold got. by rewrite decide_False. Qed.
Lemma nz_got S p : nz (got size S p) = bool_decide (p ∈ S).
Proof using size_pos.
  specialize (size_pos p). case_bool_decide; [rewrite got_in by done; apply nz_true; lia|].
  by rewrite got_out.
Qed.

Lemma total_next n : 0 <= n -> total size (n + 1) = total size n + size n.
Proof using Type.
  intros Hn. unfold total. rewrite seqZ_app, Z.add_0_l, foldr_app by lia.
  rewrite (seqZ_cons n 1) by lia. cbn [foldr].
  change (seqZ (Z.succ n) (Z.pred 1)) with (@nil Z). cbn [foldr].
  generalize (seqZ 0 n) as l. induction l as [|x l IH]; cbn; lia.
Qed.

Lemma deliver_ok k S a :
  ring k a -> 0 <= next_ a <= maxseen_ a + 1 -> maxseen_ a < seq_max -> (maxseen_ a + 1) ∉ S ->
  (forall p, next_ a <= p <= maxseen_ a + 1 -> seen_at a p = Ok (got size S p)) ->
  returns (deliver a (next_ a)) (fun '(n, v) => next_ a <= n <= maxseen_ a + 1
    /\ (forall p, next_ a <= p < n -> p ∈ S) /\ (n ∉ S) /\ v = total size n - total size (next_ a)
    /\ (next_ a ∉ S -> n = next_ a)).
Proof using size_pos.
  intros Hr Hn Htop Hout Hs. unfold deliver.
  eapply returns_mono; [apply (c_whilem_rule (fun '((n, v) : Z * Z) => next_ a <= n <= maxseen_ a + 1
      /\ (forall p, next_ a <= p < n -> p ∈ S) /\ v = total size n - total size (next_ a))
    (fun '(n, _) => maxseen_ a + 1 - n))|].
  - intros [n v] (Hn1 & Hall & ->). cbv beta iota. rewrite Hs by lia. c_ret. cbn [returns]. rewrite nz_got.
    intros Hin%bool_decide_eq_true.
    assert (n <> maxseen_ a + 1) by (by intros ->). rewrite got_in, total_next by (done || lia).
    split_and!; [lia|lia| |lia|lia|lia]. intros p Hp. destruct (decide (p = n)) as [->|]; [done|].
    apply Hall. lia.
  - split_and!; [lia|lia| |lia]. intros p Hp. lia.
  - unfold seq_max in *. lia.
  - intros [n v] [(Hn1 & Hall & Hv) Hc]. cbv beta iota in Hc. rewrite Hs in Hc by lia.
    rewrite bind_Ok, nz_got in Hc. injection Hc as Hc%bool_decide_eq_false.
    split_and!; try done; [lia|lia|]. intros Hfirst. destruct (decide (n = next_ a)); [done|].
    exfalso. apply Hfirst, Hall. lia.
Qed.

(** The invariant reads the window only. *)
Lemma window_ext S a a' :
  window size S a -> next_ a' = next_ a -> maxseen_ a' = maxseen_ a -> wndmask_ a' = wndmask_ a ->
  seen_ a' = seen_ a -> window size S a'.
Proof using Type.
  intros [[k []] ? ? ? ? ? ? Hs] E1 E2 E3 E4.
  constructor; rewrite ?E1, ?E2, ?E3; try done.
  - exists k. constructor; by rewrite ?E3, ?E4.
  - intros p Hp. unfold seen_at. rewrite E3, E4. by apply Hs.
Qed.

Lemma window_got S a p : window size S a -> p ∈ S -> 0 <= p <= maxseen_ a.
Proof using Type. intros []. auto. Qed.

(** The ring is large enough for packet [seq]. *)
Lemma grow_ok S seq a :
  window size S a -> 0 <= seq < seq_max ->
  returns (c_while (fun a => wndmask_ a <=? seq + 1 - next_ a)
      (fun a => resize_buffers ((wndmask_ a + 1) * 2) a) a)
    (fun a' => window size S a' /\ seq + 1 - next_ a' < wndmask_ a' /\ 0 <= wndmask_ a'
      /\ a' = a <| seen_ := seen_ a' |> <| wndmask_ := wndmask_ a' |>).
Proof using Type.
  intros Hw Hseq.
  eapply returns_mono; [apply (c_while_rule (fun a' => window size S a'
      /\ a' = a <| seen_ := seen_ a' |> <| wndmask_ := wndmask_ a' |>)
    (fun a' => Z.max 0 (seq + 2 - next_ a' - wndmask_ a')))|].
  - intros a1 [Hw1 He1] Hc. cbv beta in Hc. pose proof Hw1 as [[k Hr] Hn Hfit Hall Hhole Hmax Htop Hsn].
    pose proof Hr as [Hk Hm Hl]. unfold seq_max in *. rewrite Z.ones_equiv in Hm.
    assert (Hk30 : k < 29).
    { destruct (Z.lt_ge_cases k 29) as [|Hge]; [done|].
      pose proof (Z.pow_le_mono_r 2 29 k ltac:(lia) Hge). lia. }
    eapply returns_mono; [apply (resize_ok k); [done|lia|lia|lia|unfold seq_max; lia]|].
    intros a2 (Hr2 & He2 & Hs2). pose proof Hr2 as [_ Hm2 _]. rewrite Z.ones_equiv, Z.pow_add_r in Hm2 by lia.
    assert (En : next_ a2 = next_ a1) by (by rewrite He2).
    assert (Em : maxseen_ a2 = maxseen_ a1) by (by rewrite He2).
    pose proof (Z.pow_pos_nonneg 2 k ltac:(lia) ltac:(lia)).
    split_and!; [|by rewrite He2, He1|lia|rewrite En; lia].
    constructor; unfold seq_max; rewrite ?En, ?Em; [by exists (k + 1)|lia|lia|done|done|done|lia|].
    intros p Hp. rewrite Hs2 by lia. by apply Hsn.
  - split; [done|by destruct a].
  - destruct Hw as [[k [Hk Hm _]] Hn _ _ _ _ _ _]. unfold seq_max in *.
    pose proof (Z.pow_pos_nonneg 2 k ltac:(lia) ltac:(lia)). rewrite Hm, Z.ones_equiv. lia.
  - intros a1 [[Hw1 He1] Hc]. cbv beta in Hc. split_and!; [done|lia| |done].
    destruct Hw1 as [[k [Hk Hm _]] _ _ _ _ _ _ _].
    pose proof (Z.pow_pos_nonneg 2 k ltac:(lia) ltac:(lia)). rewrite Hm, Z.ones_equiv. lia.
Qed.

(** The packet is marked: the ring up to the new [maxseen_], before anything
    is delivered. *)
Record marked (S : list Z) (seq : Z) (a a' : acker) : Prop := mk_marked {
  mk_frame : a' = a <| seen_ := seen_ a' |> <| maxseen_ := maxseen_ a' |>;
  mk_ring_ok : exists k, ring k a';
  mk_max : maxseen_ a' = Z.max (maxseen_ a) seq;
  mk_seen : forall p, next_ a <= p <= maxseen_ a' + 1 -> p <> seq -> seen_at a' p = Ok (got size S p);
}.

Lemma mark_new S seq a v :
  window size S a -> maxseen_ a < seq < seq_max -> seq + 1 - next_ a < wndmask_ a ->
  returns (a1 ← clear_gap seq a; a2 ← see seq v (a1 <| maxseen_ := seq |>);
    a3 ← see (maxseen_ a2 + 1) 0 a2; Ok (a3, true))
    (fun '(a', just) => marked S seq a a' /\ seen_at a' seq = Ok v /\ just = true).
Proof using Type.
  intros [[k Hr] Hn Hfit Hall Hhole Hmax Htop Hsn] Hseq Hroom. pose proof Hr as [Hk Hm Hl].
  rewrite Hm, Z.ones_equiv in Hroom, Hfit.
  eapply returns_bind; [apply (clear_gap_ok k); [done|lia|lia|lia]|].
  intros a1 (Hr1 & He1 & Hs1).
  eapply returns_bind; [apply (see_ok k); by apply (ring_ext k a1)|].
  intros a2 (Hr2 & He2 & Hs2). change (seen_at (a1 <| maxseen_ := seq |>)) with (seen_at a1) in Hs2.
  assert (Em2 : maxseen_ a2 = seq) by (by rewrite He2). rewrite Em2.
  eapply returns_bind; [by apply (see_ok k)|]. intros a3 (Hr3 & He3 & Hs3). cbn [returns].
  assert (Em3 : maxseen_ a3 = seq) by (by rewrite He3, <- Em2).
  assert (Hne : forall p, next_ a <= p <= seq + 1 -> p <> seq -> seen_at a3 p = Ok (got size S p)).
  { intros p Hp1 Hp2. rewrite Hs3 by lia. destruct (Z.eqb_spec (seq + 1) p) as [<-|].
    { rewrite got_out; [done|]. intros Hin%Hmax. lia. }
    rewrite Hs2 by lia. destruct (Z.eqb_spec seq p); [lia|]. rewrite Hs1 by lia.
    destruct (Z.ltb_spec (maxseen_ a) p), (Z.ltb_spec p seq); cbn [andb]; try lia; try (apply Hsn; lia).
    rewrite got_out; [done|]. intros Hin%Hmax. lia. }
  split; [constructor|].
  - by rewrite He3, He2, He1.
  - by exists k.
  - rewrite Em3. lia.
  - rewrite Em3. exact Hne.
  - split; [|done]. rewrite Hs3 by lia. destruct (Z.eqb_spec (seq + 1) seq); [lia|]. rewrite Hs2 by lia. by rewrite Z.eqb_refl.
Qed.

Lemma acker_update_ok S seq a :
  window size S a -> 0 <= seq < seq_max ->
  returns (update seq (size seq) a) (fun '(a', n) => window size (seq :: S) a'
    /\ is_dup_ a' = bool_decide (seq ∈ S) /\ n = total size (next_ a') - total size (next_ a)
    /\ next_ a <= next_ a' /\ (seq <> next_ a -> next_ a' = next_ a)
    /\ maxseen_ a' = Z.max (maxseen_ a) seq
    /\ (forall p, next_ a <= p <= maxseen_ a' + 1 -> seen_at a' p = Ok (got size (seq :: S) p))
    /\ ecn_unacked_ a' = ecn_unacked_ a /\ last_ack_sent_ a' = last_ack_sent_ a).
Proof using size_pos.
  intros Hw Hseq. unfold update.
  eapply returns_bind; [apply (grow_ok S); [by eapply window_ext|done]|].
  intros a1 (Hw1 & Hroom & _ & He1).
  pose proof Hw1 as [[k Hr] Hn Hfit Hall Hhole Hmax Htop Hsn].
  assert (En1 : next_ a1 = next_ a) by (by rewrite He1).
  c_bind (fun '((a2, just) : acker * bool) => marked S seq a1 a2
    /\ exists v, seen_at a2 seq = Ok v /\ (next_ a1 <= seq -> nz v && negb just = bool_decide (seq ∈ S))).
  { destruct (Z.ltb_spec (maxseen_ a1) seq) as [Hlt|Hge].
    - eapply returns_mono; [by apply (mark_new S); [|lia|]|]. intros [a2 just] (Hm & Hv & ->).
      split; [done|]. exists (size seq). split; [done|]. rewrite andb_false_r. intros _.
      symmetry. apply bool_decide_eq_false. intros Hin%Hmax. lia.
    - split.
      { constructor; [by destruct a1|by exists k|lia|]. intros p Hp _. by apply Hsn. }
      destruct (seen_at_ok k a1 seq Hr) as [v Hv]. exists v. split; [done|]. intros Hle.
      rewrite Hsn in Hv by lia. injection Hv as <-. by rewrite nz_got, andb_true_r. }
  intros [a2 just] ([He2 [k2 Hr2] Hm2 Hs2] & v & Hv & Hdup).
  assert (En2 : next_ a2 = next_ a1) by (by rewrite He2).
  assert (Ew2 : wndmask_ a2 = wndmask_ a1) by (by rewrite He2).
  assert (Ed2 : is_dup_ a2 = false) by (by rewrite He2, He1).
  assert (Eo2 : ecn_unacked_ a2 = ecn_unacked_ a /\ last_ack_sent_ a2 = last_ack_sent_ a /\ maxseen_ a1 = maxseen_ a)
    by (by rewrite He2, He1).
  destruct Eo2 as (Ee2 & El2 & Em1). cbv zeta.
  assert (Hmax' : forall p, p ∈ seq :: S -> 0 <= p <= maxseen_ a2).
  { intros p [->|Hp%Hmax]%elem_of_cons; lia. }
  rewrite En2. destruct (Z.ltb_spec seq (next_ a1)) as [Hlt|Hge].
  - destruct (Z.leb_spec (next_ a1) seq); [lia|]. cbn [andb returns].
    assert (Hin : seq ∈ S) by (apply Hall; lia).
    assert (Hgot : forall p, got size (seq :: S) p = got size S p)
      by (intros p; unfold got; apply decide_ext; set_solver).
    split_and!; [|by rewrite bool_decide_eq_true_2|change (next_ (a2 <| is_dup_ := true |>)) with (next_ a2); rewrite En2, En1; lia
                 |cbn; lia|cbn; lia|cbn; lia| |done|done].
    2: { intros p Hp. rewrite Hgot. apply Hs2; cbn in Hp; lia. }
    apply (window_ext _ a2); [|done..]. constructor; rewrite ?En2, ?Ew2.
    + by exists k2.
    + lia.
    + rewrite Hm2. lia.
    + intros p Hp. apply elem_of_cons. right. by apply Hall.
    + intros [E|?]%elem_of_cons; [lia|done].
    + exact Hmax'.
    + lia.
    + intros p Hp. rewrite Hgot. apply Hs2; lia.
  - rewrite (proj2 (Z.leb_le _ _) Hge). destruct (Z.leb_spec seq (maxseen_ a2)); [|lia]. cbn [andb].
    rewrite Hv. c_ret. rewrite Hdup by done.
    set (a4 := if bool_decide (seq ∈ S) then _ else _).
    assert (E4 : a4 = a2 <| is_dup_ := bool_decide (seq ∈ S) |>).
    { subst a4. case_bool_decide; [done|]. rewrite <- Ed2. by destruct a2. }
    rewrite E4. clear a4 E4.
    eapply returns_bind; [apply (see_ok k2); by apply (ring_ext k2 a2)|].
    intros a5 (Hr5 & He5 & Hs5).
    change (seen_at (a2 <| is_dup_ := bool_decide (seq ∈ S) |>)) with (seen_at a2) in Hs5.
    assert (En5 : next_ a5 = next_ a1) by (by rewrite He5).
    assert (Em5 : maxseen_ a5 = maxseen_ a2) by (by rewrite He5).
    assert (Ew5 : wndmask_ a5 = wndmask_ a1) by (by rewrite He5).
    pose proof Hr5 as [_ Hm5 _]. rewrite Ew5, Z.ones_equiv in Hm5.
    assert (Hgot : forall p, next_ a1 <= p <= maxseen_ a2 + 1 -> seen_at a5 p = Ok (got size (seq :: S) p)).
    { intros p Hp. rewrite Hs5 by lia. destruct (Z.eqb_spec seq p) as [<-|Hne].
      - by rewrite got_in by set_solver.
      - rewrite Hs2 by lia. f_equal. unfold got. apply decide_ext. set_solver. }
    rewrite <- En5. eapply returns_bind; [apply (deliver_ok k2 (seq :: S)); rewrite ?En5, ?Em5; try done; try lia|].
    + intros Hin%Hmax'. lia.
    + intros [n t] (Hn' & Hin & Hout & -> & Hfirst). cbn [returns]. rewrite En5, Em5 in *.
      split_and!; [|by rewrite He5|by rewrite <- En1|cbn; lia| |cbn; lia| |by rewrite He5|by rewrite He5].
      * constructor; cbn [next_ maxseen_ wndmask_ set_field]; try done; rewrite ?Em5, ?Ew5 in *; try lia.
        -- exists k2. by apply (ring_ext k2 a5).
        -- intros p Hp. destruct (Z.lt_ge_cases p (next_ a1)); [apply elem_of_cons; right; apply Hall; lia|].
           apply Hin. lia.
        -- exact Hmax'.
        -- intros p Hp. specialize (Hgot p ltac:(lia)). unfold seen_at in *. by rewrite Ew5 in Hgot.
      * intros Hne. cbn. rewrite <- En1. apply Hfirst. intros [E|?]%elem_of_cons; [lia|done].
      * intros p Hp. apply (Hgot p). cbn in Hp. lia.
Qed.
End Arrival.

(** ** The stack *)

(** A counting loop, upwards or downwards, with an invariant. *)
Lemma c_for_up_rule {S} (I : Z -> S -> Prop) lo hi body s :
  lo <= hi -> hi - lo < 1099511627776 -> I lo s ->
  (forall i s, lo <= i < hi -> I i s -> returns (body i s) (I (i + 1))) ->
  returns (c_for_up lo hi body s) (I hi).
Proof.
  intros Hle Hsz H0 Hstep. unfold c_for_up. c_bind (fun '((_, s') : Z * S) => I hi s'); [|by intros [? ?]].
  eapply returns_mono; [apply (c_while_rule (fun '((i, s') : Z * S) => lo <= i <= hi /\ I i s') (fun '(i, _) => hi - i))|].
  - intros [i s'] [Hi HI] Hc. cbv beta iota in *. eapply returns_bind; [apply Hstep; [lia|done]|].
    intros s2 Hs2. cbn [returns]. split_and!; [lia|lia|done|lia|lia].
  - split; [lia|done].
  - lia.
  - intros [i s'] [[Hi HI] Hc]. cbv beta iota in *. by assert (i = hi) as -> by lia.
Qed.

Lemma c_for_down_rule {S} (I : Z -> S -> Prop) hi lo body s :
  lo <= hi + 1 -> hi - lo < 1099511627775 -> I hi s ->
  (forall i s, lo <= i <= hi -> I i s -> returns (body i s) (I (i - 1))) ->
  returns (c_for_down hi lo body s) (I (lo - 1)).
Proof.
  intros Hle Hsz H0 Hstep. unfold c_for_down. c_bind (fun '((_, s') : Z * S) => I (lo - 1) s'); [|by intros [? ?]].
  eapply returns_mono;
    [apply (c_while_rule (fun '((i, s') : Z * S) => lo - 1 <= i <= hi /\ I i s') (fun '(i, _) => i - lo + 1))|].
  - intros [i s'] [Hi HI] Hc. cbv beta iota in *. eapply returns_bind; [apply Hstep; [lia|done]|].
    intros s2 Hs2. cbn [returns]. split_and!; [lia|lia|done|lia|lia].
  - split; [lia|done].
  - lia.
  - intros [i s'] [[Hi HI] Hc]. cbv beta iota in *. by assert (i = lo - 1) as -> by lia.
Qed.

Lemma holds_size f L : holds f L -> Z.of_nat (length L) <= size_ f.
Proof. intros [_ [n Hn]]. unfold size_. rewrite Hn, length_app. lia. Qed.

Lemma aread_nat {A} (l : list A) (i : nat) v : l !! i = Some v -> aread l (Z.of_nat i) = Ok v.
Proof. intros H. apply aread_ok; [lia|]. by rewrite Nat2Z.id. Qed.

Lemma awrite_nat {A} (l : list A) (i : nat) v :
  (i < length l)%nat -> awrite l (Z.of_nat i) v = Ok (<[i := v]> l).
Proof. intros H. rewrite awrite_ok by lia. by rewrite Nat2Z.id. Qed.

Lemma stack_reset_ok f L :
  holds f L -> size_ f < 1099511627776 ->
  returns (stack_reset f) (fun f' => holds f' [] /\ size_ f' = size_ f).
Proof.
  intros Hh Hsz. pose proof (holds_size f L Hh) as Hle. destruct Hh as [Hc [n Hn]]. unfold size_ in *.
  unfold stack_reset.
  eapply returns_bind; [apply (c_for_up_rule (fun i l =>
      l = replicate (Z.to_nat i) (-1, -1) ++ drop (Z.to_nat i) (SFE_ f)))|]; try lia.
  - done.
  - intros i l Hi ->. assert (Hi' : (Z.to_nat i < length (SFE_ f))%nat) by lia.
    rewrite awrite_ok by (rewrite length_app, length_replicate, length_drop; lia).
    cbn [returns]. replace (Z.to_nat (i + 1)) with (Datatypes.S (Z.to_nat i)) by lia.
    destruct (lookup_lt_is_Some_2 (SFE_ f) (Z.to_nat i) Hi') as [e He].
    rewrite (drop_S _ _ _ He), insert_app_r_alt by (rewrite length_replicate; lia).
    rewrite length_replicate, Nat.sub_diag. cbn [insert list_insert].
    by rewrite replicate_S_end, <- app_assoc.
  - intros l ->. cbn [returns]. rewrite Hc, Nat2Z.id, Hn, drop_app_length.
    split; [constructor; [done|]|].
    + exists (length L + n)%nat. cbn [SFE_ app]. by rewrite replicate_add.
    + cbn [SFE_]. by rewrite !length_app, !length_replicate.
Qed.

(** [push], then the new block in front: the oldest block is lost if the stack
    is full. *)
Lemma push_ok f L b :
  holds f L -> 0 < size_ f < 1099511627776 ->
  returns (f ← push f; l ← awrite (SFE_ f) 0 b; Ok (f <| SFE_ := l |>))
    (fun f' => holds f' (b :: take (Z.to_nat (size_ f) - 1) L) /\ size_ f' = size_ f).
Proof.
  intros Hh Hsz. pose proof (holds_size f L Hh) as Hle. destruct Hh as [Hc [n Hn]].
  unfold push. set (cnt := if size_ f <=? cnt_ f then size_ f - 1 else cnt_ f).
  set (m := Z.to_nat cnt). assert (Hm : cnt = Z.of_nat m /\ (m < length (SFE_ f))%nat
    /\ m = length (take (Z.to_nat (size_ f) - 1) L)).
  { subst m cnt. unfold size_ in *. rewrite length_take. case_cond; lia. }
  destruct Hm as (Em & Hm & Hml). rewrite Em.
  set (l0 := SFE_ f) in *. assert (Hl0 : size_ f = Z.of_nat (length l0)) by done.
  assert (Hpush : returns (c_for_down (Z.of_nat m - 1) 0 (fun i l => e ← aread l i; awrite l (i + 1) e) l0)
    (fun l => length l = length l0 /\ forall j, (1 <= j)%nat ->
       l !! j = if decide (j <= m)%nat then l0 !! (j - 1)%nat else l0 !! j)).
  { eapply returns_mono; [apply (c_for_down_rule (fun i l => length l = length l0
        /\ forall j, l !! j = if decide (i + 1 < Z.of_nat j <= Z.of_nat m) then l0 !! (j - 1)%nat else l0 !! j))|];
      try lia.
    - split; [done|]. intros j. rewrite decide_False by lia. done.
    - intros i l Hi [Hlen Hl]. rewrite <- (Z2Nat.id i) by lia.
      destruct (lookup_lt_is_Some_2 l0 (Z.to_nat i)) as [e He]; [lia|].
      rewrite (aread_nat l (Z.to_nat i) e) by (rewrite Hl, decide_False by lia; done). c_ret.
      replace (Z.of_nat (Z.to_nat i) + 1) with (Z.of_nat (Datatypes.S (Z.to_nat i))) by lia.
      rewrite awrite_nat by lia. cbn [returns]. split; [by rewrite length_insert|].
      intros j. destruct (decide (j = Datatypes.S (Z.to_nat i))) as [->|Hne].
      + rewrite list_lookup_insert_eq, decide_True by lia. rewrite <- He. f_equal. lia.
      + rewrite list_lookup_insert_ne, Hl by done. apply decide_ext. lia.
    - intros l [Hlen Hl]. split; [done|]. intros j Hj. rewrite Hl. apply decide_ext. lia. }
  eapply returns_bind; [eapply returns_bind; [exact Hpush|]|].
  - intros l Hl. exact (returns_Ok (mk_sack_stack (Z.of_nat m + 1) l) (fun f' => cnt_ f' = Z.of_nat m + 1
      /\ length (SFE_ f') = length l0 /\ forall j, (1 <= j)%nat ->
       SFE_ f' !! j = if decide (j <= m)%nat then l0 !! (j - 1)%nat else l0 !! j) (conj eq_refl Hl)).
  - intros f1 (Hc1 & Hlen1 & Hl1). change 0 with (Z.of_nat 0). rewrite awrite_nat by lia. c_ret. cbn [returns].
    split; [|unfold size_; cbn [SFE_ set_field]; rewrite length_insert, Hlen1; done].
    constructor; [cbn [cnt_ set_field length]; lia|].
    exists (length l0 - Datatypes.S m)%nat. cbn [SFE_ set_field]. apply list_eq. intros [|j].
    { rewrite list_lookup_insert_eq by lia. done. }
    rewrite list_lookup_insert_ne, Hl1 by lia. set (T := take _ L) in *. set (R := replicate _ _).
    change (((b :: T) ++ R) !! Datatypes.S j) with ((T ++ R) !! j).
    replace (Datatypes.S j - 1)%nat with j by lia.
    assert (Hlen : length l0 = (length L + n)%nat) by (by rewrite Hn, length_app, length_replicate).
    assert (HT : (length T <= length L)%nat) by (subst T; rewrite length_take; lia).
    case_decide as Hj.
    + rewrite Hn, lookup_app_l, (lookup_app_l T) by lia. subst T. rewrite lookup_take_lt; [done|].
      rewrite length_take in Hml. lia.
    + rewrite (lookup_app_r T) by lia. subst R. destruct (decide (Datatypes.S j < length l0)%nat) as [Hin|Hout].
      * rewrite lookup_replicate_2 by lia. rewrite Hn, lookup_app_r by (subst T; rewrite length_take in Hml; lia).
        apply lookup_replicate_2. subst T. rewrite length_take in Hml. lia.
      * rewrite lookup_ge_None_2 by lia. symmetry. apply lookup_ge_None_2. rewrite length_replicate. lia.
Qed.

Lemma pop_ok f L k :
  holds f L -> (k < length L)%nat -> size_ f < 1099511627776 ->
  returns (pop (Z.of_nat k) f) (fun f' => holds f' (delete k L) /\ size_ f' = size_ f).
Proof.
  intros Hh Hk Hsz. pose proof (holds_size f L Hh) as Hle. destruct Hh as [Hc [n Hn]].
  unfold pop. rewrite Hc. set (l0 := SFE_ f) in *. assert (Hl0 : size_ f = Z.of_nat (length l0)) by done.
  assert (Hlen0 : length l0 = (length L + n)%nat) by (by rewrite Hn, length_app, length_replicate).
  eapply returns_bind; [apply (c_for_up_rule (fun i l => length l = length l0
      /\ forall j, l !! j = if decide ((k <= j)%nat /\ Z.of_nat j < i) then l0 !! Datatypes.S j else l0 !! j))|];
    try lia.
  - split; [done|]. intros j. rewrite decide_False by lia. done.
  - intros i l Hi [Hlen Hl]. destruct (lookup_lt_is_Some_2 l0 (Datatypes.S (Z.to_nat i))) as [e He]; [lia|].
    replace (i + 1) with (Z.of_nat (Datatypes.S (Z.to_nat i))) at 1 by lia.
    rewrite (aread_nat l _ e) by (rewrite Hl, decide_False by lia; done). c_ret.
    rewrite awrite_ok by lia. cbn [returns]. split; [by rewrite length_insert|].
    intros j. destruct (decide (j = Z.to_nat i)) as [->|Hne].
    + by rewrite list_lookup_insert_eq, decide_True by lia.
    + rewrite list_lookup_insert_ne, Hl by done. apply decide_ext. lia.
  - intros l [Hlen Hl]. rewrite awrite_ok by lia. c_ret. cbn [returns].
    replace (Z.to_nat (Z.max (Z.of_nat k) (Z.of_nat (length L) - 1))) with (length L - 1)%nat by lia.
    split; [|unfold size_; cbn [SFE_]; by rewrite length_insert, Hlen].
    constructor; [cbn [cnt_]; rewrite length_delete by (by apply lookup_lt_is_Some_2); lia|].
    exists (Datatypes.S n). cbn [SFE_]. apply list_eq. intros j.
    assert (Hd : length (delete k L) = (length L - 1)%nat)
      by (rewrite length_delete by (by apply lookup_lt_is_Some_2); lia).
    destruct (decide (j = length L - 1)%nat) as [->|Hne].
    { rewrite list_lookup_insert_eq, lookup_app_r by lia. rewrite Hd, Nat.sub_diag. done. }
    rewrite list_lookup_insert_ne, Hl by done. destruct (decide (j < length L - 1)%nat) as [Hj|Hj].
    + rewrite lookup_app_l by lia. case_decide as Hkj.
      * rewrite list_lookup_delete_ge, Hn, lookup_app_l by lia. done.
      * rewrite list_lookup_delete_lt, Hn, lookup_app_l by lia. done.
    + rewrite decide_False, lookup_app_r, Hd, Hn, lookup_app_r by lia.
      destruct (decide (j < length L + n)%nat).
      * rewrite !lookup_replicate_2 by lia. done.
      * rewrite !lookup_ge_None_2 by (rewrite length_replicate; lia). done.
Qed.

(** ** The blocks of an acknowledgement *)

Section Blocks.
Variable size : Z -> Z.
Hypothesis size_pos : forall p, 0 < size p.

(** What a search reads: the ring from [n] on. *)
Definition shown (S : list Z) (n : Z) (a : acker) : Prop :=
  forall p, n <= p <= maxseen_ a + 1 -> seen_at a p = Ok (got size S p).

(** From a received packet on: the end of its run. *)
Lemma sack_right_run k S n old a :
  ring k a -> shown S n a -> maxseen_ a < seq_max -> n <= old <= maxseen_ a -> 0 <= old ->
  (maxseen_ a + 1) ∉ S ->
  returns (sack_right old a) (fun r => old <= r <= maxseen_ a + 1 /\ (r ∉ S)
    /\ forall p, old <= p < r -> p ∈ S).
Proof using size_pos.
  intros Hr Hs Htop Hold H0 Hmax. unfold sack_right.
  c_bind (fun '((i, r) : Z * Z) => old <= i <= maxseen_ a + 1 /\ (forall p, old <= p < i -> p ∈ S)
    /\ (r = -1 /\ i = maxseen_ a + 1 \/ r = i /\ i ∉ S)).
  - eapply returns_mono; [apply (c_while_rule (fun '((i, r) : Z * Z) => old <= i <= maxseen_ a + 1
        /\ (forall p, old <= p < i -> p ∈ S) /\ (r = -1 \/ r = i /\ i ∉ S))
      (fun '(i, r) => maxseen_ a + 1 - i + (if r =? -1 then 1 else 0)))|].
    + intros [i r] (Hi & Hrun & Hcase) Hc. cbv beta iota in *.
      assert (r = -1 /\ i <= maxseen_ a) as [-> Hle] by lia. change (-1 =? -1) with true in *.
      rewrite Hs by lia. c_ret. rewrite nz_got by done. case_bool_decide as Hin; cbn [returns]; change (-1 =? -1) with true; cbv iota.
      * split_and!; [lia|lia| |by left|lia|lia]. intros p Hp. destruct (decide (p = i)) as [->|]; [done|].
        apply Hrun. lia.
      * destruct (Z.eqb_spec i (-1)); [lia|]. split_and!; try done; try lia. right. done.
    + split_and!; [lia|lia| |by left]. intros p Hp. lia.
    + unfold seq_max in *. cbn. lia.
    + intros [i r] [(Hi & Hrun & Hcase) Hc]. cbv beta iota in *. split_and!; try done; try lia.
      destruct Hcase as [->|?]; [left; split; [done|lia]|by right].
  - intros [i r] (Hi & Hrun & [[-> ->]|[-> Hout]]); cbn [returns].
    + change (-1 =? -1) with true. cbv iota. split_and!; try done; lia.
    + destruct (Z.eqb_spec i (-1)); [lia|]. split_and!; try done; lia.
Qed.

(** From a packet up to [next_]: no further than [next_]. *)
Lemma sack_right_low k S old a :
  ring k a -> shown S (next_ a) a -> maxseen_ a < seq_max -> 0 <= old <= next_ a ->
  next_ a <= maxseen_ a + 1 -> next_ a ∉ S ->
  returns (sack_right old a) (fun r => r <= next_ a).
Proof using size_pos.
  intros Hr Hs Htop Hold Hle Hout. unfold sack_right.
  c_bind (fun '((i, r) : Z * Z) => i <= next_ a /\ r <= next_ a /\ (r = -1 -> maxseen_ a < i)).
  - eapply returns_mono; [apply (c_while_rule (fun '((i, r) : Z * Z) => 0 <= i <= next_ a /\ r <= next_ a)
      (fun '(i, r) => maxseen_ a + 1 - i + (if r =? -1 then 1 else 0)))|].
    + intros [i r] [Hi Hri] Hc. cbv beta iota in *.
      assert (r = -1 /\ i <= maxseen_ a) as [-> Hle'] by lia. change (-1 =? -1) with true in *.
      destruct (seen_at_ok k a i Hr) as [v Hv]. rewrite Hv. c_ret. destruct (nz v) eqn:Env; cbn [returns]; change (-1 =? -1) with true; cbv iota.
      * assert (i <> next_ a).
        { intros ->. rewrite Hs in Hv by lia. injection Hv as <-. rewrite nz_got in Env by done.
          by apply bool_decide_eq_true in Env. }
        split_and!; lia.
      * destruct (Z.eqb_spec i (-1)); [lia|]. split_and!; lia.
    + split; lia.
    + unfold seq_max in *. cbn. lia.
    + intros [i r] [[Hi Hri] Hc]. cbv beta iota in *. split_and!; [lia|done|]. intros ->. cbn in Hc. lia.
  - intros [i r] (Hi & Hri & Hm). cbn [returns]. destruct (Z.eqb_spec r (-1)); [lia|done].
Qed.

(** Leftwards from the end of a run: its start. *)
Lemma sack_left_run k S right a :
  ring k a -> shown S (next_ a) a -> maxseen_ a < seq_max -> 0 <= next_ a < right ->
  right <= maxseen_ a + 1 -> next_ a ∉ S ->
  returns (sack_left right a) (fun l => next_ a < l <= right /\ ((l - 1) ∉ S)
    /\ forall p, l <= p < right -> p ∈ S).
Proof using size_pos.
  intros Hr Hs Htop Hn Hright Hout. unfold sack_left, Seqno.
  c_bind (fun '((i, l) : Z * Z) => next_ a < l <= right /\ ((l - 1) ∉ S) /\ forall p, l <= p < right -> p ∈ S);
    [|by intros [i l]].
  eapply returns_mono; [apply (c_while_rule (fun '((i, l) : Z * Z) => next_ a <= i < right
      /\ (forall p, i < p < right -> p ∈ S) /\ (l = -1 \/ l = i + 1 /\ i ∉ S))
    (fun '(i, l) => i + (if l =? -1 then 1 else 0)))|].
  - intros [i l] (Hi & Hrun & Hcase) Hc. cbv beta iota in *.
    assert (l = -1) as -> by lia. change (-1 =? -1) with true in *. rewrite Hs by lia. c_ret.
    rewrite nz_got by done. case_bool_decide as Hin; cbn [returns]; change (-1 =? -1) with true; cbv iota.
    + assert (i <> next_ a) by (by intros ->). split_and!; [lia|lia| |by left|lia|lia].
      intros p Hp. destruct (decide (p = i)) as [->|]; [done|]. apply Hrun. lia.
    + destruct (Z.eqb_spec (i + 1) (-1)); [lia|]. split_and!; try done; try lia. right. done.
  - split_and!; [lia|lia| |by left]. intros p Hp. lia.
  - unfold seq_max in *. cbn. lia.
  - intros [i l] [(Hi & Hrun & Hcase) Hc]. cbv beta iota in *.
    destruct Hcase as [->|[-> Hni]]; [cbn in Hc; lia|]. replace (i + 1 - 1) with i by lia.
    split_and!; try done; [lia|lia|]. intros p Hp. apply Hrun. lia.
Qed.
End Blocks.

(** The blocks the recent one does not cover. *)
Definition kept (lft rgt : Z) (L : list (Z * Z)) : list (Z * Z) :=
  filter (fun b => ~ (lft <= b.1 /\ b.2 <= rgt)) L.

Lemma kept_snoc lft rgt V b :
  kept lft rgt (V ++ [b]) = kept lft rgt V ++ (if decide (lft <= b.1 /\ b.2 <= rgt) then [] else [b]).
Proof.
  unfold kept. rewrite filter_app. f_equal. rewrite filter_cons, filter_nil.
  case_decide as H1; case_decide as H2; tauto.
Qed.

Lemma in_kept lft rgt L b : b ∈ kept lft rgt L -> b ∈ L.
Proof. unfold kept. rewrite list_elem_of_filter. tauto. Qed.

(** The walk through the stack: of the blocks [V] it visits, those kept are
    sent; it stops at the end, or when no more blocks may be sent. *)
Lemma older_ok nblocks maxseen lft rgt f h0 L :
  holds f L -> size_ f = nblocks -> nblocks <= NSA ->
  (forall b, b ∈ L -> 0 <= b.1 /\ 0 <= b.2 <= maxseen + 1) ->
  returns (older_blocks nblocks maxseen lft rgt f h0) (fun '(f', h) => exists V U, L = V ++ U
    /\ holds f' (kept lft rgt V ++ U) /\ size_ f' = size_ f /\ h = h0 ++ kept lft rgt V
    /\ (U = [] \/ nblocks <= Z.of_nat (length h))
    /\ Z.of_nat (length h) <= Z.max nblocks (Z.of_nat (length h0))).
Proof.
  intros Hh Hsz Hn HL. unfold NSA in *. unfold older_blocks.
  c_bind (fun o => exists V U, L = V ++ U
    /\ holds (r_sf o) (kept lft rgt V ++ U) /\ size_ (r_sf o) = size_ f /\ r_h o = h0 ++ kept lft rgt V
    /\ (U = [] \/ nblocks <= Z.of_nat (length (r_h o)))
    /\ Z.of_nat (length (r_h o)) <= Z.max nblocks (Z.of_nat (length h0))); [|by intros []].
  set (I := fun o => exists V U, L = V ++ U
    /\ holds (r_sf o) (kept lft rgt V ++ U) /\ size_ (r_sf o) = size_ f /\ r_h o = h0 ++ kept lft rgt V
    /\ r_k o = Z.of_nat (length (kept lft rgt V)) /\ (r_break o = true -> U = [])
    /\ Z.of_nat (length (r_h o)) <= Z.max nblocks (Z.of_nat (length h0))).
  set (m := fun o => 2 * cnt_ (r_sf o) - r_k o + (if r_break o then 0 else 1)).
  eapply returns_mono; [apply (c_while_rule I m)|].
  - intros o (V & U & -> & Ho & Hs & Eh & Ek & Hb & Hlen) Hc. apply andb_true_iff in Hc as [Hnb Hroom].
    apply negb_true_iff in Hnb. unfold older_body. rewrite Ek.
    assert (Hroom' : Z.of_nat (length (h0 ++ kept lft rgt V)) < nblocks) by (rewrite <- Eh; lia).
    rewrite length_app in Hroom'.
    pose proof Ho as [Hcnt [n El]]. destruct U as [|[l r] U].
    + (* the end of the stack *)
      assert (Hn1 : (0 < n)%nat).
      { unfold size_ in *. rewrite El, !length_app, length_replicate in Hs. cbn in Hs. lia. }
      rewrite (aread_nat _ _ (-1, -1)).
      2: { rewrite El, app_nil_r, lookup_app_r, Nat.sub_diag by lia. by apply lookup_replicate_2. }
      c_ret. cbn [returns Z.ltb Z.compare orb]. split.
      * exists V, []. by cbn.
      * unfold m. cbn. rewrite Hnb, Ek. rewrite Hcnt, app_nil_r. cbn. lia.
    + rewrite (aread_nat _ _ (l, r)).
      2: { rewrite El, <- app_assoc, lookup_app_r, Nat.sub_diag by lia. done. }
      c_ret. destruct (HL (l, r)) as [Hl0 Hr0]; [set_solver|]. cbn [fst snd] in Hl0, Hr0.
      destruct (Z.ltb_spec l 0), (Z.ltb_spec r 0), (Z.ltb_spec (maxseen + 1) r); try lia. cbn [orb].
      pose proof (kept_snoc lft rgt V (l, r)) as Hk. cbn [fst snd] in Hk.
      destruct ((lft <=? l) && (r <=? rgt)) eqn:Ecov.
      * rewrite decide_True in Hk by lia. rewrite app_nil_r in Hk.
        eapply returns_bind; [apply (pop_ok _ (kept lft rgt V ++ (l, r) :: U)); [done|rewrite length_app; cbn; lia|lia]|].
        intros f' [Hf' Hs']. cbn [returns].
        rewrite delete_middle in Hf'. split.
        -- exists (V ++ [(l, r)]), U. cbn. rewrite <- app_assoc, Hk.
           split_and!; try done; [congruence|]. rewrite Hnb. done.
        -- unfold m. cbn. rewrite Hnb. destruct Hf' as [Hc' _]. rewrite Hc', Hcnt, Ek, !length_app. cbn. lia.
      * rewrite decide_False in Hk by lia.
        unfold sa_put, NSA. rewrite Eh, length_app. destruct (Z.ltb_spec (Z.of_nat (length h0 + length (kept lft rgt V))) (3 + 1)); [|lia]. c_ret. cbn [returns]. split.
        -- exists (V ++ [(l, r)]), U. cbn. rewrite <- !app_assoc, Hk, <- app_assoc.
           split_and!; try done; [rewrite length_app; cbn; lia|congruence|].
           rewrite !length_app. cbn. lia.
        -- unfold m. cbn. rewrite Hnb, Ek, Hcnt, length_app. cbn. lia.
  - exists [], L. cbn. rewrite app_nil_r. split_and!; try done. lia.
  - unfold m. cbn. pose proof (holds_size f L Hh). destruct Hh as [-> _]. lia.
  - intros o [(V & U & -> & Ho & Hs & Eh & Ek & Hb & Hlen) Hc]. exists V, U. split_and!; try done.
    apply andb_false_iff in Hc as [Hc|Hc]; [left; apply Hb; by apply negb_false_iff in Hc|right; lia].
Qed.

Lemma runs_nil S n a : runs_ok S n a [].
Proof. split; [intros b Hb; by apply elem_of_nil in Hb|by intros s t []]. Qed.

Lemma runs_sub S n n' a L L' :
  runs_ok S n a L -> (forall b, b ∈ L' -> b ∈ L /\ n' < b.1) -> runs_ok S n' a L'.
Proof.
  intros [Hi Hd] Hsub. split.
  - intros b Hb. apply Hsub in Hb as [Hb Hn]. apply Hi in Hb as (_ & ? & ?). done.
  - intros s t Hs Ht. apply Hd; apply list_elem_of_In, Hsub; by apply list_elem_of_In.
Qed.

(** A maximal run and the blocks it does not cover. *)
Lemma runs_cons S n a lft rgt L L' :
  runs_ok S n a L -> n < lft /\ lft < rgt <= maxseen_ a + 1 -> (forall p, lft <= p < rgt -> p ∈ S) ->
  (lft - 1) ∉ S -> rgt ∉ S -> (forall b, b ∈ L' -> b ∈ kept lft rgt L) ->
  runs_ok S n a ((lft, rgt) :: L').
Proof.
  intros HL Hb Hrun Hl Hr Hsub. pose proof HL as [Hi _].
  assert (H' : runs_ok S n a L').
  { apply (runs_sub S n n a L); [done|]. intros b Hb'%Hsub%in_kept. split; [done|]. by apply Hi. }
  assert (Hnew : forall b, b ∈ L' -> b.2 <= lft \/ rgt <= b.1).
  { intros b Hb'%Hsub. unfold kept in Hb'. apply list_elem_of_filter in Hb' as [Hk Hb'].
    apply Hi in Hb' as (_ & Hlt & Hin).
    destruct (Z.le_gt_cases b.2 lft); [by left|]. destruct (Z.le_gt_cases rgt b.1); [by right|]. exfalso.
    destruct (Z.lt_ge_cases b.1 lft); [apply Hl, Hin; lia|].
    destruct (Z.lt_ge_cases rgt b.2); [apply Hr, Hin; lia|]. apply Hk. lia. }
  destruct H' as [Hi' Hd']. split.
  - intros b [->|Hb']%elem_of_cons; [cbn [fst snd]; split_and!; try done; lia|by apply Hi'].
  - intros s t [<-|Hs] [<-|Ht]; [by left| | |by apply Hd']; right; cbn [fst snd].
    + apply list_elem_of_In in Ht. destruct (Hnew t Ht); [by right|by left].
    + apply list_elem_of_In in Hs. destruct (Hnew s Hs); [by left|by right].
Qed.

Section Append.
Variable size : Z -> Z.
Hypothesis size_pos : forall p, 0 < size p.

Lemma in_take {A} (x : A) n l : x ∈ take n l -> x ∈ l.
Proof. intros (i & Hi & _)%elem_of_take. by eapply list_elem_of_lookup_2. Qed.

(** What an acknowledgement of [old] reports, and what the stack keeps. *)
Definition append_post (S : list Z) (old : Z) (s : sacker) (res : sacker * list (Z * Z)) : Prop :=
  let '(s', h) := res in
  let a := ack_ s in
  ack_ s' = a /\ base_nblocks_ s' = base_nblocks_ s /\ size_ (sf_ s') = base_nblocks_ s
  /\ Z.of_nat (length h) <= NSA
  /\ (exists L', holds (sf_ s') L' /\ runs_ok S (next_ a) a L') /\ runs_ok S (next_ a) a h
  /\ (next_ a <= old -> 0 < base_nblocks_ s -> exists l r h', h = (l, r) :: h' /\ l <= old < r).

Lemma append_post_nil S old s f :
  holds f [] -> size_ f = base_nblocks_ s -> ~ (next_ (ack_ s) <= old /\ 0 < base_nblocks_ s) ->
  append_post S old s (s <| sf_ := f |>, []).
Proof using Type.
  intros Hf Hs Hno. split_and!; [done|done|done|done| |apply runs_nil|tauto].
  exists []. split; [done|apply runs_nil].
Qed.

Lemma append_ack_ok S n old s L :
  let a := ack_ s in
  window size S a -> holds (sf_ s) L -> size_ (sf_ s) = base_nblocks_ s -> base_nblocks_ s <= NSA ->
  shown size S n a -> 0 <= n <= next_ a -> next_ a = n \/ old = n -> old ∈ S -> runs_ok S n a L ->
  returns (append_ack false old s) (append_post S old s).
Proof using size_pos.
  intros a Hw Hh Hsz Hn3 Hsh Hn Hcase Hold HL.
  pose proof Hw as [[k Hr] Hnx Hfit Hall Hhole Hmax Htop Hsn].
  pose proof (Hmax old Hold) as Ho. unfold NSA in *. pose proof (holds_size _ _ Hh) as Hle.
  assert (Hm : (maxseen_ a + 1) ∉ S) by (intros Hin%Hmax; lia).
  unfold append_ack. fold a. cbn [andb]. unfold Seqno.
  destruct (Z.ltb_spec old 0); [lia|]. case_cond.
  { (* everything is delivered: the stack is emptied *)
    apply andb_true_iff in Hc as [Hall' _]. eapply returns_bind; [by apply (stack_reset_ok _ L); [|lia]|].
    intros f [Hf Hs']. apply append_post_nil; [done|congruence|]. intros [Hge _].
    assert (next_ a = old) as <- by (unfold a in *; lia). done. }
  case_cond.
  2: { (* nothing to report *)
    destruct L as [|b L].
    - pose proof (append_post_nil S old s (sf_ s) Hh Hsz) as Hp.
      assert (Es : s <| sf_ := sf_ s |> = s) by (by destruct s). rewrite Es in Hp. apply Hp.
      intros [Hge Hb]. fold a in Hge. destruct (Z.eq_dec (next_ a) old) as [<-|]; [done|]. lia.
    - exfalso. cbn [length] in Hle. destruct Hh as [Hcnt _]. cbn [length] in Hcnt. unfold nz in Hc. lia. }
  c_ret. destruct (Z.leb_spec (base_nblocks_ s) (Z.of_nat (length (@nil (Z * Z))))) as [|Hb]; [cbn in *; lia|].
  assert (HLr : forall b, b ∈ L -> 0 <= b.1 /\ 0 <= b.2 <= maxseen_ a + 1)
    by (intros b (? & ? & _)%(ru_in _ _ _ _ HL); lia).
  assert (Hne : next_ a <> old) by (intros E; by rewrite E in Hhole).
  destruct (Z.leb_spec old (next_ a - 1)) as [Hlow|Hhigh].
  - (* the packet is below the window *)
    assert (Hright : returns (sack_right old a) (fun r => r <= next_ a /\ forall b, b ∈ kept 0 r L -> next_ a < b.1)).
    { destruct (Z.eq_dec (next_ a) n) as [En|En].
      - eapply returns_mono; [apply (sack_right_low size size_pos k S); [done|by rewrite En|done|lia|lia|done]|].
        intros r Hle'. split; [done|]. intros b Hb'%in_kept. rewrite En. by apply (ru_in _ _ _ _ HL).
      - destruct Hcase as [|<-]; [done|].
        eapply returns_mono; [apply (sack_right_run size size_pos k S old); try done; lia|].
        intros r (Hr1 & Hr2 & Hr3).
        assert (r = next_ a) as ->.
        { destruct (Z.lt_trichotomy r (next_ a)) as [Hlt|[|Hgt]]; [|done|].
          - exfalso. apply Hr2, Hall. lia.
          - exfalso. apply Hhole, Hr3. lia. }
        split; [done|]. intros b Hb'. unfold kept in Hb'. apply list_elem_of_filter in Hb' as [Hk Hb'].
        apply (ru_in _ _ _ _ HL) in Hb' as (Hb1 & Hb2 & Hb3).
        destruct (Z.lt_ge_cases (next_ a) b.1); [done|]. exfalso. apply Hhole, Hb3.
        destruct (Z.le_gt_cases b.2 (next_ a)); [|lia]. exfalso. apply Hk. lia. }
    eapply returns_bind; [exact Hright|]. intros r [Hr1 Hr2]. c_ret.
    eapply returns_bind; [by apply (older_ok (base_nblocks_ s) _ 0 r _ [] L)|].
    intros [f h] (V & U & -> & Hf & Hs' & -> & Hstop & Hlen).
    destruct (Z.ltb_spec (next_ a - 1) old); [lia|]. c_ret. cbn [app length] in *.
    assert (U = []) as ->.
    { destruct Hstop as [|Hstop]; [done|]. pose proof (holds_size _ _ Hf) as Hle'. rewrite length_app in Hle'.
      destruct U; [done|]. cbn [length] in Hle'. lia. }
    rewrite app_nil_r in *.
    assert (Hk : runs_ok S (next_ a) a (kept 0 r V)).
    { apply (runs_sub S n _ a V); [done|]. intros b Hb'. split; [by eapply in_kept|by apply Hr2]. }
    cbn [append_post sf_ ack_ base_nblocks_ set_field]. fold a.
    split_and!; [done|done|exact (eq_trans Hs' Hsz)|unfold NSA; lia|by exists (kept 0 r V)|done|intros Hx; exfalso; unfold a in *; lia].
  - (* above: its run, then the older blocks *)
    assert (En : next_ a = n) by lia.
    eapply returns_bind; [apply (sack_right_run size size_pos k S n); try done; lia|].
    intros r (Hr1 & Hr2 & Hr3).
    c_bind (fun '((l, h) : Z * list (Z * Z)) => next_ a < l <= old /\ ((l - 1) ∉ S) /\ h = [(l, r)]
      /\ forall p, l <= p < r -> p ∈ S).
    { assert (r <> old) by (by intros ->).
      eapply returns_bind; [apply (sack_left_run size size_pos k S); [done|by rewrite En|done|lia|lia|done]|].
      intros l (Hl1 & Hl2 & Hl3). cbn [returns]. split_and!; try done; [lia|].
      destruct (Z.le_gt_cases l old); [done|]. exfalso. apply Hl2, Hr3. lia. }
    intros [l h0] (Hl1 & Hl2 & -> & Hl3).
    assert (r <> old) by (by intros ->).
    eapply returns_bind; [by apply (older_ok (base_nblocks_ s) _ l r _ [(l, r)] L)|].
    intros [f h] (V & U & -> & Hf & Hs' & -> & Hstop & Hlen).
    destruct (Z.ltb_spec (next_ a - 1) old); [|lia].
    eapply returns_bind; [apply (push_ok f _ (l, r) Hf); lia|].
    intros f' [Hf' Hs'']. cbn [returns append_post ack_ base_nblocks_ sf_ set_field].
    assert (HV : runs_ok S (next_ a) a (V ++ U)) by (by rewrite En).
    assert (HLV : runs_ok S (next_ a) a V).
    { apply (runs_sub S n _ a (V ++ U)); [done|]. intros b Hb'. split; [set_solver|]. rewrite En.
      apply (ru_in _ _ _ _ HL). set_solver. }
    cbn [length app] in *. fold a.
    split_and!; [done|done|exact (eq_trans Hs'' (eq_trans Hs' Hsz))|unfold NSA; lia| | |].
    + eexists. split; [exact Hf'|]. apply (runs_cons S (next_ a) a l r V); try done; [lia|].
      intros b Hb'. destruct Hstop as [->|Hstop].
      * rewrite app_nil_r in Hb'. by eapply in_take.
      * rewrite take_app_le in Hb' by lia. by eapply in_take.
    + apply (runs_cons S (next_ a) a l r V); try done. lia.
    + intros _ _. exists l, r, (kept l r V). split; [done|lia].
Qed.
End Append.

(** ** The sink *)

Lemma runs_mono S S' n a a' L :
  runs_ok S n a L -> S ⊆ S' -> maxseen_ a <= maxseen_ a' -> runs_ok S' n a' L.
Proof.
  intros [Hi Hd] Hsub Hm. split; [|done]. intros b Hb. apply Hi in Hb as (? & ? & Hin).
  split_and!; [done|lia|lia|]. intros p Hp. by apply Hsub, Hin.
Qed.

Lemma truthful_mono S S' k : truthful S k -> S ⊆ S' -> truthful S' k.
Proof.
  intros [] Hsub. constructor; try done.
  - intros p Hp. by apply Hsub, tr_all0.
  - intros b Hb. apply tr_blocks0 in Hb as [? Hin]. split; [done|]. intros p Hp. by apply Hsub, Hin.
Qed.

Section Sink.
Variables (size : Z -> Z) (g : sink_params).
Hypothesis size_pos : forall p, 0 < size p.
Hypothesis no_dsacks : generate_dsacks_ g = false.

Lemma sink_ack_ok S n pkt s L :
  let sk := sacker_ s in
  let a := ack_ sk in
  window size S a -> holds (sf_ sk) L -> size_ (sf_ sk) = base_nblocks_ sk -> base_nblocks_ sk <= NSA ->
  shown size S n a -> 0 <= n <= next_ a -> next_ a = n \/ d_seqno pkt = n -> d_seqno pkt ∈ S -> runs_ok S n a L ->
  returns (sink_ack g pkt s) (fun '(s', k) => sacker_inv size S (sacker_ s')
    /\ q_seqno k = Seqno a /\ truthful S k
    /\ save_ s' = save_ s /\ delay_timer_ s' = delay_timer_ s /\ bytes_ s' = bytes_ s
    /\ next_ (ack_ (sacker_ s')) = next_ a /\ base_nblocks_ (sacker_ s') = base_nblocks_ sk
    /\ (next_ a <= d_seqno pkt -> 0 < base_nblocks_ sk ->
        exists l r h', q_sacks k = (l, r) :: h' /\ l <= d_seqno pkt < r)).
Proof using size_pos no_dsacks.
  intros sk a Hw Hh Hsz Hn3 Hsh Hn Hcase Hin HL. unfold sink_ack. fold sk a. rewrite no_dsacks.
  destruct (ecn_bits g s pkt _) as [echo ect]. set (u := ecn_update s pkt _).
  set (sk1 := sk <| ack_ := a <| ecn_unacked_ := u |> |>).
  assert (Hw1 : window size S (a <| ecn_unacked_ := u |>)) by (by apply (window_ext size S a)).
  pose proof (append_ack_ok size size_pos S n (d_seqno pkt) sk1 L) as Happ. cbv zeta in Happ.
  change (ack_ sk1) with (a <| ecn_unacked_ := u |>) in Happ.
  eapply returns_bind; [apply Happ; try done; destruct HL; by constructor|]. clear Happ.
  - intros [sk2 h] (Ea & Eb & Es & Hlen & (L' & HL' & Hr') & Hrh & Hfirst). cbn [returns].
    rewrite Ea. change (ack_ sk1) with (a <| ecn_unacked_ := u |>) in *.
    change (base_nblocks_ sk1) with (base_nblocks_ sk) in *.
    cbn [next_ q_seqno q_sacks sacker_ save_ delay_timer_ bytes_ ack_ base_nblocks_ set_field] in *.
    split_and!; try done.
    + constructor; cbn [ack_ sf_ base_nblocks_ set_field].
      * by apply (window_ext size S a).
      * congruence.
      * lia.
      * exists L'. split; [done|]. destruct Hr'. by constructor.
    + pose proof (wn_next _ _ _ Hw). destruct Hrh as [Hi Hd].
      constructor; cbn [q_seqno q_sacks]; unfold Seqno; try done; try lia.
      * intros p Hp. apply (wn_all _ _ _ Hw). unfold Seqno in Hp. lia.
      * intros b Hb. apply Hi in Hb as (? & ? & ?). split; [cbn in *; lia|done].
Qed.

(** The window after a packet has entered it, before the acknowledgement: the
    stack is still above the old [next_]. *)
Record accepted (S : list Z) (seq : Z) (s s' : sink) : Prop := mk_accepted {
  ac_window : window size (seq :: S) (ack_ (sacker_ s'));
  ac_shown : shown size (seq :: S) (next_ (ack_ (sacker_ s))) (ack_ (sacker_ s'));
  ac_next : next_ (ack_ (sacker_ s)) <= next_ (ack_ (sacker_ s'));
  ac_same : next_ (ack_ (sacker_ s')) = next_ (ack_ (sacker_ s)) \/ seq = next_ (ack_ (sacker_ s));
  ac_bytes : bytes_ s' = total size (next_ (ack_ (sacker_ s')));
  ac_frame : sf_ (sacker_ s') = sf_ (sacker_ s) /\ base_nblocks_ (sacker_ s') = base_nblocks_ (sacker_ s)
    /\ save_ s' = save_ s /\ delay_timer_ s' = delay_timer_ s;
  ac_runs : forall L, runs_ok S (next_ (ack_ (sacker_ s))) (ack_ (sacker_ s)) L ->
    runs_ok (seq :: S) (next_ (ack_ (sacker_ s))) (ack_ (sacker_ s')) L;
}.

Lemma accept_ok S pkt s :
  sink_inv size S s -> sink_valid size (Arrive pkt) ->
  returns (accept pkt s) (accepted S (d_seqno pkt) s).
Proof using size_pos.
  clear g no_dsacks.
  intros [Hsv Hby _] [Hseq Hsz]. unfold accept. rewrite Hsz.
  eapply returns_bind; [apply (acker_update_ok size size_pos S); [apply Hsv|done]|].
  intros [a n] (Hw & _ & -> & Hle & Hsame & Hm & Hsh & _). cbn [returns].
  constructor; cbn [ack_ sacker_ bytes_ sf_ base_nblocks_ save_ delay_timer_ set_field]; try done.
  - destruct (Z.eq_dec (d_seqno pkt) (next_ (ack_ (sacker_ s)))); [by right|left; by apply Hsame].
  - rewrite Hby. lia.
  - intros L HL. eapply runs_mono; [done|set_solver|lia].
Qed.

Lemma window_next_eq S S' a a' :
  window size S a -> window size S' a' -> S ⊆ S' -> next_ a <= next_ a' ->
  forall b L, runs_ok S' (next_ a) a' L -> b ∈ L -> next_ a' = next_ a \/ next_ a' = next_ a + 1 -> next_ a' < b.1.
Proof using Type.
  clear g no_dsacks.
  intros Hw Hw' Hsub Hle b L [Hi _] Hb Hcase. apply Hi in Hb as (Hn & Hlt & Hin).
  destruct Hcase as [->|E]; [done|]. destruct (Z.eq_dec b.1 (next_ a')) as [Eb|]; [|lia].
  exfalso. apply (wn_hole _ _ _ Hw'), Hin. lia.
Qed.

(** What a step promises of the acknowledgements it sends. *)
Definition step_post (ev : sink_event) (S : list Z) (s : sink) (res : sink * list ack_packet) : Prop :=
  let '(s', ks) := res in
  sink_inv size (arrived ev S) s'
  /\ base_nblocks_ (sacker_ s') = base_nblocks_ (sacker_ s)
  /\ Forall (fun k => truthful (arrived ev S) k /\ q_seqno k = Seqno (ack_ (sacker_ s'))) ks
  /\ match ev with
     | Arrive pkt => d_old pkt = false -> next_ (ack_ (sacker_ s')) <= d_seqno pkt ->
         0 < base_nblocks_ (sacker_ s) ->
         exists k l r h, ks = [k] /\ q_sacks k = (l, r) :: h /\ l <= d_seqno pkt < r
     | Expire => save_ s' = None
     end.

(** An arrival that is acknowledged at once. *)
Lemma ack_now_ok S pkt s s1 s2 :
  sink_inv size S s -> accepted S (d_seqno pkt) s s1 -> d_old pkt = false ->
  sacker_ s2 = sacker_ s1 -> bytes_ s2 = bytes_ s1 ->
  returns (sink_ack g pkt s2) (fun '(s', k) => save_ s' = save_ s2 /\ delay_timer_ s' = delay_timer_ s2
    /\ forall s3, sacker_ s3 = sacker_ s' -> bytes_ s3 = bytes_ s' ->
    save_ s3 = None -> delay_timer_ s3 = false -> step_post (Arrive pkt) S s (s3, [k])).
Proof using size_pos no_dsacks.
  intros [[Hw0 Hsz Hn (L & HL & HrL)] _ _] [Hw Hsh Hle Hsame Hby (Hf & Hb & _) Hruns] Hold Es Eb.
  eapply returns_mono; [apply (sink_ack_ok (d_seqno pkt :: S) (next_ (ack_ (sacker_ s))) pkt s2 L);
    rewrite ?Es, ?Hf, ?Hb; try done|].
  - pose proof (wn_next _ _ _ Hw0). lia.
  - set_solver.
  - by apply Hruns.
  - intros [s' k] (Hsv & Hseq & Htr & Hs' & Ht' & Hbs & Hnx & Hbn & Hfirst).
    split; [done|split; [done|]]. intros s3 E1 E2 E3 E4. rewrite Es in *. unfold step_post, arrived. rewrite Hold. split_and!.
    + constructor; [by rewrite E1|rewrite E1, E2, Hbs, Eb, Hnx; exact Hby|by rewrite E3].
    + by rewrite E1, Hbn, Hb.
    + constructor; [|by constructor]. split; [done|]. rewrite Hseq, E1. unfold Seqno. by rewrite Hnx.
    + intros _ Hge Hpos. rewrite E1, Hnx in Hge. rewrite Hb in Hfirst.
      destruct (Hfirst Hge Hpos) as (l & r & h & Eh & Hin). by exists k, l, r, h.
Qed.

Lemma sink_step_ok delack ev S s :
  sink_inv size S s -> sink_valid size ev -> delack = true \/ save_ s = None ->
  returns (sink_step g delack ev s) (fun '(s', ks) => step_post ev S s (s', ks) /\ (delack = true \/ save_ s' = None)).
Proof using size_pos no_dsacks.
  intros Hi Hv Hd. pose proof Hi as [[Hw Hsz Hn (L & HL & HrL)] Hby Ht].
  unfold sink_step. destruct ev as [pkt|].
  - assert (Hdrop : d_old pkt = true -> step_post (Arrive pkt) S s (s, [])).
    { intros Hold. unfold step_post, arrived. rewrite Hold.
      split_and!; [done|done|by apply Forall_nil|by intros]. }
    destruct delack; unfold delack_recv, sink_recv;
      (destruct (d_old pkt) eqn:Hold; [split; [by apply Hdrop|done]|]);
      (eapply returns_bind; [by apply (accept_ok S)|]); intros s1 Ha;
      pose proof Ha as [Hw1 Hsh Hle Hsame Hby1 (Hf & Hb & Hsv & Htm) Hruns].
    + case_cond.
      * (* the acknowledgement is delayed *)
        apply andb_true_iff in Hc as [[Hnt Heq]%andb_true_iff _]. apply Z.eqb_eq in Heq.
        cbn [returns]. split; [|by left]. unfold step_post, arrived. rewrite Hold. cbn [sacker_ save_ set_field].
        split_and!; [|done|by apply Forall_nil|].
        -- constructor; cbn [sacker_ bytes_ save_ delay_timer_ set_field]; [|done|split_and!; [done|done|set_solver]].
           constructor; [done|by rewrite Hf, Hb|by rewrite Hb|]. exists L. split; [by rewrite Hf|].
           apply (runs_sub _ (next_ (ack_ (sacker_ s))) _ _ L); [by apply Hruns|]. intros b Hbl. split; [done|].
           eapply (window_next_eq S (d_seqno pkt :: S)); [done|done|set_solver|done|by apply Hruns|done|].
           unfold Seqno in Heq. destruct Hsame as [|E]; [by left|right; lia].
        -- intros _ Hge _. unfold Seqno in Heq. lia.
      * eapply returns_bind; [by apply (ack_now_ok S pkt s s1)|]. intros [s' k] (_ & Ht' & Hp). cbn [returns].
        split; [by apply Hp|by left].
    + destruct Hd as [|Hnone]; [done|]. rewrite Hnone in Ht.
      eapply returns_bind; [by apply (ack_now_ok S pkt s s1)|]. intros [s' k] (Hs' & Ht' & Hp). cbn [returns].
      split; [apply Hp; try done; congruence|right; congruence].
  - (* the timer expires *)
    unfold delack_timeout. cbn [save_ set_field]. destruct (save_ s) as [p|] eqn:Esave.
    + destruct Ht as (Htrue & Hseq & Hin).
      eapply returns_bind; [apply (sink_ack_ok S (next_ (ack_ (sacker_ s))) p _ L); try done|].
      * exact (wn_seen _ _ _ Hw).
      * pose proof (wn_next _ _ _ Hw). cbn [sacker_]. lia.
      * by left.
      * intros [s' k] (Hsv & Hq & Htr & _ & Ht' & Hbs & Hnx & Hbn & _). cbn [returns].
        cbn [sacker_ bytes_ set_field] in *. split; [|by right]. unfold step_post, arrived.
        cbn [sacker_ save_ set_field]. split_and!; [|done| |done].
        -- constructor; cbn [sacker_ bytes_ save_ delay_timer_ set_field]; [done|by rewrite Hbs, Hnx|done].
        -- constructor; [|by apply Forall_nil]. split; [done|]. rewrite Hq. unfold Seqno. by rewrite Hnx.
    + cbn [returns]. split; [|by right]. unfold step_post, arrived. cbn [sacker_ save_ set_field].
      split_and!; [|done|by apply Forall_nil|done].
      constructor; cbn [sacker_ bytes_ save_ delay_timer_ set_field]; [by constructor; [..|exists L]|done|done].
Qed.

Lemma new_sink_inv nblocks dup : 0 <= nblocks -> sink_inv size [] (new_sink nblocks dup).
Proof using Type.
  clear g no_dsacks. intros Hn. unfold new_sink, set_nblocks.
  set (nb := if NSA <? nblocks then NSA else nblocks).
  assert (Hnb : 0 <= nb <= NSA) by (subst nb; unfold NSA; case_cond; lia).
  constructor; [|done|done]. cbn [sacker_]. constructor; cbn [ack_ sf_ base_nblocks_ set_field].
  - constructor; cbn [next_ maxseen_ wndmask_ new_acker]; try (unfold MWM, MWS, seq_max; lia).
    + exists 6. by constructor.
    + by intros ?%elem_of_nil.
    + by intros p ?%elem_of_nil.
    + intros p Hp. assert (p = 0 \/ p = 1) as [->| ->] by lia; done.
  - unfold size_, new_stack. cbn [SFE_]. rewrite length_replicate. lia.
  - lia.
  - exists []. split; [constructor; [done|by eexists]|]. apply runs_nil.
Qed.

Lemma sink_reach_inv delack S s ks :
  sink_reach size g delack S s ks ->
  sink_inv size S s /\ (delack = true \/ save_ s = None) /\ Forall (truthful S) ks.
Proof using size_pos no_dsacks.
  induction 1 as [nblocks dup Hn|S s ks ev s' ks' _ (Hi & Hd & Hks) Hv Hstep].
  - split_and!; [by apply new_sink_inv|by right|by apply Forall_nil].
  - pose proof (sink_step_ok delack ev S s Hi Hv Hd) as Hs. rewrite Hstep in Hs.
    destruct Hs as [(Hi' & _ & Hks' & _) Hd']. split_and!; [done|done|]. apply Forall_app. split.
    + eapply Forall_impl; [exact Hks|]. intros k Hk. eapply truthful_mono; [exact Hk|].
      destruct ev as [pkt|]; cbn; [|done]. destruct (d_old pkt); set_solver.
    + eapply Forall_impl; [exact Hks'|]. by intros k [? _].
Qed.
End Sink.

(** With a packet waiting, an arrival and the timer are both answered. *)
Lemma accept_timer pkt s s1 : accept pkt s = Ok s1 -> delay_timer_ s1 = delay_timer_ s.
Proof.
  unfold accept. cbv zeta. destruct (update (d_seqno pkt) (d_size pkt) (ack_ (sacker_ s))) as [[a n]|]; [|done].
  rewrite bind_Ok. by intros [= <-].
Qed.

Lemma arrival_answered g pkt s s' ks' :
  delay_timer_ s = true -> d_old pkt = false -> delack_recv g pkt s = Ok (s', ks') ->
  save_ s' = None /\ exists k, ks' = [k].
Proof.
  intros Ht Hold. unfold delack_recv. rewrite Hold. cbv zeta. destruct (accept pkt s) as [s1|] eqn:Ea; [|done].
  rewrite bind_Ok. apply accept_timer in Ea. cbv zeta. rewrite Ea, Ht. cbn [negb andb].
  destruct (sink_ack g pkt (s1 <| delay_timer_ := false |>)) as [[s2 k]|]; [|done]. rewrite bind_Ok.
  intros [= <- <-]. split; [done|by exists k].
Qed.

Lemma expiry_answered g p s s' ks' :
  save_ s = Some p -> delack_timeout g s = Ok (s', ks') -> save_ s' = None /\ exists k, ks' = [k].
Proof.
  intros Hp. unfold delack_timeout. cbv zeta. change (save_ (s <| delay_timer_ := false |>)) with (save_ s). rewrite Hp.
  destruct (sink_ack g p (s <| delay_timer_ := false |>)) as [[s2 k]|]; [|done]. rewrite bind_Ok.
  intros [= <- <-]. split; [done|by exists k].
Qed.

(** * Properties *)

(** C7: the receiver delivers in order, each byte once.  Whatever packets arrive,
    in any order and any number of times, every arrival is handled without a trap
    (the ring grows as needed); the next expected packet is the first one not
    received, and the bytes handed to the application are those of the packets
    below it. *)
Theorem sink_delivers_in_order size g delack S s ks :
  (forall p, 0 < size p) -> generate_dsacks_ g = false -> sink_reach size g delack S s ks ->
  (forall ev, sink_valid size ev -> exists s' ks', sink_step g delack ev s = Ok (s', ks'))
  /\ let n := next_ (ack_ (sacker_ s)) in
     (forall p, 0 <= p < n -> p ∈ S) /\ n ∉ S /\ bytes_ s = total size n.
Proof.
  intros Hpos Hg Hr. destruct (sink_reach_inv size g Hpos Hg _ _ _ _ Hr) as (Hi & Hd & _). split.
  - intros ev Hv. pose proof (sink_step_ok size g Hpos Hg delack ev S s Hi Hv Hd) as Hs.
    apply returns_inv in Hs as ([s' ks'] & Hs & _). by exists s', ks'.
  - destruct Hi as [[[]] Hb _]. split_and!; done.
Qed.

(** C8: acknowledgements tell the truth.  Every acknowledgement sent, immediate
    or delayed, acknowledges received packets only: those up to its number, and
    those of its SACK blocks, which lie strictly above, do not overlap, and are
    at most three. *)
Theorem acks_truthful size g delack S s ks :
  (forall p, 0 < size p) -> generate_dsacks_ g = false -> sink_reach size g delack S s ks ->
  Forall (truthful S) ks.
Proof. intros Hpos Hg Hr. by destruct (sink_reach_inv size g Hpos Hg _ _ _ _ Hr) as (_ & _ & ?). Qed.

(** A packet that arrives out of order is acknowledged at once, with the
    number of the last packet in order, and the first SACK block contains it. *)
Theorem sack_reports_arrival size g delack S s ks pkt :
  (forall p, 0 < size p) -> generate_dsacks_ g = false -> sink_reach size g delack S s ks ->
  sink_valid size (Arrive pkt) -> d_old pkt = false -> 0 < base_nblocks_ (sacker_ s) ->
  returns (sink_step g delack (Arrive pkt) s) (fun '(s', ks') =>
    next_ (ack_ (sacker_ s')) <= d_seqno pkt ->
    exists k l r h, ks' = [k] /\ q_seqno k = Seqno (ack_ (sacker_ s'))
      /\ q_sacks k = (l, r) :: h /\ l <= d_seqno pkt < r).
Proof.
  intros Hpos Hg Hr Hv Hold Hn. destruct (sink_reach_inv size g Hpos Hg _ _ _ _ Hr) as (Hi & Hd & _).
  eapply returns_mono; [by apply (sink_step_ok size g Hpos Hg delack _ S)|].
  intros [s' ks'] [(_ & _ & Hks & Hf) _] Hge. destruct (Hf Hold Hge Hn) as (k & l & r & h & -> & Hh & Hin).
  apply Forall_cons in Hks as [[_ Hq] _]. by exists k, l, r, h.
Qed.

(** An acknowledgement is delayed for one packet and until the timer at most:
    while one waits the timer runs, and both the next arrival and the timer
    send an acknowledgement of everything in order. *)
Theorem delayed_ack_sent size g S s ks p :
  (forall p, 0 < size p) -> generate_dsacks_ g = false -> sink_reach size g true S s ks ->
  save_ s = Some p ->
  delay_timer_ s = true /\ d_seqno p = Seqno (ack_ (sacker_ s))
  /\ forall ev, sink_valid size ev -> (forall pkt, ev = Arrive pkt -> d_old pkt = false) ->
     returns (sink_step g true ev s) (fun '(s', ks') =>
       save_ s' = None /\ exists k, ks' = [k] /\ q_seqno k = Seqno (ack_ (sacker_ s'))).
Proof.
  intros Hpos Hg Hr Hsave. destruct (sink_reach_inv size g Hpos Hg _ _ _ _ Hr) as (Hi & Hd & _).
  pose proof (sn_timer _ _ _ Hi) as Ht. rewrite Hsave in Ht. destruct Ht as (Ht & Hq & _).
  split; [done|]. split; [done|]. intros ev Hv Hev.
  pose proof (sink_step_ok size g Hpos Hg true ev S s Hi Hv Hd) as Hs.
  apply returns_inv in Hs as ([s' ks'] & Hstep & (_ & _ & Hks & _) & _). rewrite Hstep. cbn [returns].
  assert (Hk : save_ s' = None /\ exists k, ks' = [k]).
  { destruct ev as [pkt|]; [by apply (arrival_answered g pkt s); [|apply Hev|]|by apply (expiry_answered g p s)]. }
  destruct Hk as [Hn [k ->]]. split; [done|]. exists k. split; [done|].
  by apply Forall_cons in Hks as [[_ ?] _].
Qed.

(** ** Witnesses *)

Lemma size_ex_pos p : 0 < size_ex p.
Proof. done. Qed.

Lemma data_ex_valid n : 0 <= n < seq_max -> sink_valid size_ex (Arrive (data_ex n)).
Proof. by intros. Qed.

Lemma sink_ex_reach : sink_reach size_ex params_ex false [5; 2; 0] sink_ex acks_ex.
Proof.
  pose proof (sink_start size_ex params_ex false 3 false ltac:(lia)) as H.
  eapply (sink_next _ _ _ _ _ _ (Arrive (data_ex 0))) in H; [|by apply data_ex_valid|by vm_compute].
  eapply (sink_next _ _ _ _ _ _ (Arrive (data_ex 2))) in H; [|by apply data_ex_valid|by vm_compute].
  eapply (sink_next _ _ _ _ _ _ (Arrive (data_ex 5))) in H; [|by apply data_ex_valid|by vm_compute].
  exact H.
Qed.

Lemma sink_ex_wait_reach : sink_reach size_ex params_ex true [0] sink_ex_wait [].
Proof.
  pose proof (sink_start size_ex params_ex true 3 false ltac:(lia)) as H.
  eapply (sink_next _ _ _ _ _ _ (Arrive (data_ex 0))) in H; [|by apply data_ex_valid|by vm_compute].
  exact H.
Qed.

Lemma sink_delivers_in_order_witness :
  (forall ev, sink_valid size_ex ev -> exists s' ks', sink_step params_ex false ev sink_ex = Ok (s', ks'))
  /\ let n := next_ (ack_ (sacker_ sink_ex)) in
     (forall p, 0 <= p < n -> p ∈ [5; 2; 0]) /\ n ∉ [5; 2; 0] /\ bytes_ sink_ex = total size_ex n.
Proof. apply (sink_delivers_in_order size_ex params_ex false _ _ acks_ex); [done|done|apply sink_ex_reach]. Defined.

Lemma acks_truthful_witness : Forall (truthful [5; 2; 0]) acks_ex.
Proof. apply (acks_truthful size_ex params_ex false _ sink_ex); [done|done|apply sink_ex_reach]. Defined.

Lemma sack_reports_arrival_witness :
  returns (sink_step params_ex false (Arrive (data_ex 4)) sink_ex) (fun '(s', ks') =>
    next_ (ack_ (sacker_ s')) <= 4 ->
    exists k l r h, ks' = [k] /\ q_seqno k = Seqno (ack_ (sacker_ s')) /\ q_sacks k = (l, r) :: h /\ l <= 4 < r).
Proof.
  apply (sack_reports_arrival size_ex params_ex false [5; 2; 0] sink_ex acks_ex (data_ex 4));
    [done|done|apply sink_ex_reach|by apply data_ex_valid|done|done].
Defined.

Lemma delayed_ack_sent_witness :
  delay_timer_ sink_ex_wait = true /\ d_seqno (data_ex 0) = Seqno (ack_ (sacker_ sink_ex_wait))
  /\ forall ev, sink_valid size_ex ev -> (forall pkt, ev = Arrive pkt -> d_old pkt = false) ->
     returns (sink_step params_ex true ev sink_ex_wait) (fun '(s', ks') =>
       save_ s' = None /\ exists k, ks' = [k] /\ q_seqno k = Seqno (ack_ (sacker_ s'))).
Proof.
  apply (delayed_ack_sent size_ex params_ex [0] sink_ex_wait [] (data_ex 0)); [done|done|apply sink_ex_wait_reach|done].
Defined.
