(* ===== verification/Network.v ===== *)
(** A connection: the TCP-Linux agent with its scoreboard at one end, the
    receiver with its SACK blocks at the other, and between them a network that
    may lose, duplicate, delay and reorder both the segments and the
    acknowledgements. *)
From stdpp Require Import sets list_numbers.
From S2P Require Import Prelude Sock Reno Scoreboard Sack Send Driver Agent Sink.

(** * Definitions *)

(** The segments and the acknowledgements sent stay in the network for ever:
    any may arrive, at any time, or never.  [n_arrived] is the history of the
    segments the receiver was given. *)
Record network (P : Type) := mk_network {
  n_agent : agent P;
  n_board : ScoreBoard1;
  n_sink : sink;
  n_acks : list ack_packet;
  n_arrived : list Z;
}.
Arguments mk_network {P}. Arguments n_agent {P}. Arguments n_board {P}. Arguments n_sink {P}.
Arguments n_acks {P}. Arguments n_arrived {P}.

(** The segment [pkt] reaches the receiver, or its delay timer expires; the
    acknowledgement [k] reaches the sender, with the clock and the measured
    times of [x]; the sender's timer expires; the sending loop runs. *)
Inductive net_event : Type :=
  | NSink (ev : sink_event)
  | NAck (x : ack_in) (k : ack_packet)
  | NTimeout (E : env)
  | NSend (curseq maxburst : Z).

(** What the sender reads of an acknowledgement; [k_ece x] stands for [ecn_]. *)
Definition ack_arrives (x : ack_in) (k : ack_packet) : ack_in :=
  x <| k_seqno := q_seqno k |> <| k_ece := q_ecnecho k && k_ece x |>.

Section Network.
Context {P : Type} (ops : tcp_congestion_ops P) `{!CongModule ops} (tcp_max_burst : Z).
Variables (size : Z -> Z) (g : sink_params) (delack : bool).
Local Abbreviation network := (network P).

(** What the sender does at an event. *)
Definition sender_event (ev : net_event) : option full_event :=
  match ev with
  | NSink _ => None
  | NAck x k => Some (FAck (ack_arrives x k) (q_sacks k))
  | NTimeout E => Some (FTimeout E)
  | NSend curseq maxburst => Some (FSend curseq maxburst)
  end.

Definition net_step (ev : net_event) (n : network) : outcome network :=
  match ev, sender_event ev with
  | NSink ev, _ =>
      '(s, ks) ← sink_step g delack ev (n_sink n);
      Ok (mk_network (n_agent n) (n_board n) s (n_acks n ++ ks) (arrived ev (n_arrived n)))
  | _, Some ev =>
      '(a, b) ← full_step ops tcp_max_burst ev (n_agent n, n_board n);
      Ok (mk_network a b (n_sink n) (n_acks n) (n_arrived n))
  | _, None => Ok n
  end.

(** The times an acknowledgement brings: the clock is in range, the segment was
    sent at most 4294 seconds ago, a time stamp is less than [2^24] ms old, and
    there is an RTT sample before the module is initialised. *)
Record clock_ok (a : agent P) (x : ack_in) : Prop := mk_clock_ok {
  ck_env : wf_env (k_env x);
  ck_last : ok_last (k_env x) (k_last x);
  ck_rx : match k_rx x with
          | Some (ecr, val) => in_u32 ecr /\ in_u32 val /\ tcp_time_stamp (k_env x) ⊖ ecr < 16777216
          | None => tcp_time_stamp (k_env x) ⊖ rcv_tsecr (rx_opt (linux_ a)) < 16777216
          end;
  ck_rtt : match k_t_rtt x with Some m => m <= cm_rtt_max | None => initialized_ a = true end;
}.

(** The network delivers what was sent, no more.  Nothing is assumed of the
    numbers and the blocks of an acknowledgement.  A timeout that comes before
    the first acknowledgement finds the module's private state blank. *)
Definition net_valid (ev : net_event) (n : network) : Prop :=
  let a := n_agent n in
  match ev with
  | NSink (Arrive pkt) => 0 <= d_seqno pkt < t_seqno_ a /\ d_size pkt = size (d_seqno pkt)
  | NSink Expire => True
  | NAck x k => k ∈ n_acks n /\ clock_ok a x
  | NTimeout E => (if initialized_ a then ok_env E (linux_ a) else wf_env E) /\ blank ops a
  | NSend curseq maxburst => 0 <= maxburst /\ curseq <= seq_max /\ curseq - highest_ack_ a <= acked_max
  end.

Inductive net_reach : Z -> network -> Prop :=
  | net_start a nblocks dup :
      fresh ops a -> highest_ack_ a = -1 -> t_seqno_ a = 0 -> 0 <= nblocks ->
      net_reach 0 (mk_network a (ClearScoreBoard (board sb_init)) (new_sink nblocks dup) [] [])
  | net_next k n ev n' :
      net_reach k n -> net_valid ev n -> net_step ev n = Ok n' -> net_reach (k + 1) n'.

(** Each end is right, and each is right of the other: what the sender takes for
    acknowledged or sacked has arrived, what has arrived was sent. *)
Record net_inv (k : Z) (n : network) : Prop := mk_net_inv {
  ni_agent : full_inv ops k (n_agent n, n_board n);
  ni_sink : sink_inv size (n_arrived n) (n_sink n);
  ni_delack : delack = true \/ save_ (n_sink n) = None;
  ni_acks : Forall (truthful (n_arrived n)) (n_acks n);
  ni_sent : forall p, p ∈ n_arrived n -> p < t_seqno_ (n_agent n);
  ni_acked : forall p, 0 <= p <= highest_ack_ (n_agent n) -> p ∈ n_arrived n;
  ni_sacked : forall p, sacked (blocks (n_board n)) p -> p ∈ n_arrived n;
  ni_top : t_seqno_ (n_agent n) <= seq_max;
  ni_outstanding : t_seqno_ (n_agent n) - highest_ack_ (n_agent n) <= acked_max;
}.
End Network.

(** ** An example run: Reno sends 0 and 1, 0 is lost, the acknowledgement of 1
    with its SACK block reaches the sender *)

Definition net_ex0 : network unit :=
  mk_network (agent_ex <| t_seqno_ := 0 |>) (ClearScoreBoard (board sb_init)) (new_sink 3 false) [] [].
Definition net_run_ex (ev : net_event) (n : network unit) : network unit :=
  match net_step tcp_reno 3 params_ex false ev n with Ok n' => n' | Trap _ => n end.
Definition net_ex1 : network unit := Eval vm_compute in net_run_ex (NSend 10 0) net_ex0.
Definition net_ex2 : network unit := Eval vm_compute in net_run_ex (NSink (Arrive (data_ex 1))) net_ex1.
Definition dup_ex : ack_packet := mk_ack (-1) [(1, 2)] false false.
Definition net_ex3 : network unit := Eval vm_compute in net_run_ex (NAck ack_ex dup_ex) net_ex2.

(** * Lemmas *)

(** The packets the board learns are sacked are those of the blocks. *)
Lemma report_sacked una hi last_ack sacks b b1 f :
  sb_inv una hi b -> una <= last_ack + 1 <= hi -> -1 <= last_ack -> hi < 2147483648 ->
  valid_sacks last_ack hi sacks -> disjoint_sacks sacks ->
  board_report last_ack sacks b = Ok (b1, f) ->
  forall p, last_ack < p -> sacked (blocks b1) p ->
    sacked (blocks b) p \/ exists s, s ∈ sacks /\ s.1 <= p < s.2.
Proof.
  intros Hb Hu Hla Hhi Hv Hd Hr p Hp.
  assert (Hupd : UpdateScoreBoard last_ack sacks 3 b = Ok (b1, f) \/ b1 = b).
  { unfold board_report in Hr. destruct sacks; [destruct (blocks b)|]; [right|left; exact Hr|left; exact Hr].
    by injection Hr as <- _. }
  destruct Hupd as [Hupd| ->]; [|by left].
  pose proof (update_sacked una hi last_ack sacks 3 b Hb Hu Hla Hhi Hv Hd) as H. rewrite Hupd in H.
  intros [?|(l & r & Hin & _ & Hlr)]%H; [by left|right|done]. exists (l, r). by rewrite list_elem_of_In.
Qed.

(** An arrival is answered, at once or when the timer expires. *)
Lemma arrival_acked g delack pkt s s' ks :
  d_old pkt = false -> sink_step g delack (Arrive pkt) s = Ok (s', ks) ->
  (exists q, ks = [q]) \/ save_ s' = Some pkt.
Proof.
  intros Hold. unfold sink_step, delack_recv, sink_recv. rewrite Hold.
  destruct delack, (accept pkt s) as [s1|]; try done; rewrite !bind_Ok; cbv zeta; try case_cond.
  - intros [= <- _]. by right.
  - set (s2 := s1 <| delay_timer_ := false |>). destruct (sink_ack g pkt s2) as [[s3 q]|]; [|done].
    rewrite bind_Ok. intros [= _ <-]. left. by exists q.
  - destruct (sink_ack g pkt s1) as [[s3 q]|]; [|done]. rewrite bind_Ok. intros [= _ <-]. left. by exists q.
Qed.

Section NetLemmas.
Context {P : Type} (ops : tcp_congestion_ops P) `{!CongModule ops} (tcp_max_burst : Z).
Hypothesis burst_ok : 1 <= tcp_max_burst <= 255.
Variables (size : Z -> Z) (g : sink_params) (delack : bool).
Hypothesis size_pos : forall p, 0 < size p.
Hypothesis no_dsacks : generate_dsacks_ g = false.
Local Abbreviation net_inv := (net_inv ops size delack).

Lemma full_inv_seq k (a : agent P) b :
  full_inv ops k (a, b) -> seq_ok a /\ sb_inv (highest_ack_ a + 1) (t_seqno_ a) b.
Proof using Type. intros [[[]|[]] Hb]; done. Qed.

Lemma full_inv_mono k k' (st : agent P * ScoreBoard1) : k <= k' -> full_inv ops k st -> full_inv ops k' st.
Proof using Type. intros Hk [Ha Hb]. split; [by eapply agent_inv_mono|done]. Qed.

(** A true acknowledgement of data sent is one the sender is ready for. *)
Lemma ack_ready k n x q :
  net_inv k n -> q ∈ n_acks n -> clock_ok ops (n_agent n) x ->
  full_valid ops (FAck (ack_arrives x q) (q_sacks q)) (n_agent n, n_board n)
  /\ q_seqno q < t_seqno_ (n_agent n) /\ valid_sacks (q_seqno q) (t_seqno_ (n_agent n)) (q_sacks q).
Proof using Type.
  intros [Ha _ _ Hks Hsent _ _ Htop Hout] Hq [Henv Hlast Hrx Hrtt].
  apply full_inv_seq in Ha as [[Hh Ht] _]. rewrite Forall_forall in Hks. destruct (Hks q Hq) as [Hall Hge Hbl _ _].
  assert (Hlt : q_seqno q < t_seqno_ (n_agent n)).
  { destruct (Z.lt_ge_cases (q_seqno q) 0); [lia|]. apply Hsent, Hall. lia. }
  assert (Hv : valid_sacks (q_seqno q) (t_seqno_ (n_agent n)) (q_sacks q)).
  { intros l r Hin. apply list_elem_of_In, Hbl in Hin as [Hlr Hin]. cbn in Hlr, Hin. right.
    specialize (Hsent (r - 1) (Hin (r - 1) ltac:(lia))). lia. }
  unfold seq_max, acked_max in *. split; [|done]. split; [|split; [by intros _|unfold window_max; lia]].
  cbn [k_env k_seqno k_in_flight k_last k_rx k_t_rtt ack_arrives set_field].
  unfold window_max, acked_max. split_and!; try done; cbn [k_seqno k_in_flight set_field]; unfold acked_max, window_max; lia.
Qed.

(** The sender's half of a step. *)
Lemma ack_step_ok k n x q :
  net_inv k n -> 0 <= k < 2147483648 -> q ∈ n_acks n -> clock_ok ops (n_agent n) x ->
  returns (net_step ops tcp_max_burst g delack (NAck x q) n) (fun n' => net_inv (k + 1) n' /\ (blank ops (n_agent n) -> blank ops (n_agent n'))
    /\ (highest_ack_ (n_agent n) <= q_seqno q -> highest_ack_ (n_agent n') = q_seqno q)
    /\ t_seqno_ (n_agent n') = t_seqno_ (n_agent n)).
Proof using burst_ok.
  intros Hn Hk Hq Hck. destruct (ack_ready k n x q Hn Hq Hck) as (Hv & Hlt & Hsk).
  destruct Hn as [[Ha Hb] Hsink Hd Hks Hsent Hacked Hsacked Htop Hout]. cbn [fst snd] in Ha, Hb.
  pose proof (full_inv_seq k _ _ (conj Ha Hb)) as [[Hh Ht] _].
  rewrite Forall_forall in Hks. destruct (Hks q Hq) as [Hall Hge Hbl Hdis _].
  cbn [net_step sender_event full_step].
  eapply returns_bind.
  { apply returns_and; [by apply (recv_sb_recv ops tcp_max_burst burst_ok k)|by apply (recv_sb_ok ops tcp_max_burst burst_ok k)]. }
  intros [a' b'] [(Hb' & [Et Hrec] & _) [Hinv Hblk]]. cbn [returns].
  split; [|split; [exact Hblk|split; [|done]]].
  - constructor; cbn [n_agent n_board n_sink n_acks n_arrived]; rewrite ?Et; try done.
    + by apply Forall_forall.
    + intros p Hp. destruct Hrec as [(_ & Eh & _)|(_ & Eh & _)]; rewrite Eh in Hp; [by apply Hacked|by apply Hall].
    + intros p Hp. destruct Hrec as [(_ & _ & ->)|(Hs & Eh & b1 & f & Hrep & Hb1)]; [by apply Hsacked|].
      cbn [k_seqno ack_arrives set_field] in Hs, Eh, Hrep. destruct Hb1 as [->| ->]; [|done].
      apply (status_range _ _ _ _ _ Hb') in Hp as Hr. unfold seq_max in *.
      destruct (report_sacked (highest_ack_ (n_agent n) + 1) (t_seqno_ (n_agent n)) (q_seqno q) (q_sacks q)
        (n_board n) b1 f) with (p := p) as [?|(s & Hs' & Hin)]; try done; try lia; [by apply Hsacked|].
      by apply Hbl in Hs' as [_ Hs'']; apply Hs''.
    + destruct Hrec as [(_ & Eh & _)|(? & Eh & _)]; rewrite Eh; cbn in *; lia.
  - intros Hle. destruct Hrec as [(Hs & _)|(_ & Eh & _)]; [destruct Hs; cbn; lia|done].
Qed.

(** The receiver's half. *)
Lemma sink_event_ok k n ev :
  net_inv k n -> net_valid ops size (NSink ev) n ->
  returns (net_step ops tcp_max_burst g delack (NSink ev) n) (fun n' => net_inv (k + 1) n'
    /\ n_agent n' = n_agent n /\ n_arrived n' = arrived ev (n_arrived n)
    /\ exists ks, n_acks n' = n_acks n ++ ks
       /\ Forall (fun q => q_seqno q = Seqno (ack_ (sacker_ (n_sink n')))) ks).
Proof using burst_ok size_pos no_dsacks.
  intros [Ha Hsink Hd Hks Hsent Hacked Hsacked Htop Hout] Hv.
  assert (Hsv : sink_valid size ev) by (destruct ev as [pkt|]; [split; [cbn in Hv; lia|apply Hv]|done]).
  assert (Hsub : n_arrived n ⊆ arrived ev (n_arrived n))
    by (destruct ev as [pkt|]; cbn; [destruct (d_old pkt)|]; set_solver).
  cbn [net_step]. eapply returns_bind; [by apply (sink_step_ok size g size_pos no_dsacks delack ev (n_arrived n))|].
  intros [s ks] [(Hsink' & _ & Hks' & _) Hd']. cbn [returns].
  split; [|split_and!; [done|done|]].
  - constructor; cbn [n_agent n_board n_sink n_acks n_arrived]; try done.
    + eapply full_inv_mono; [|exact Ha]. lia.
    + apply Forall_app. split; (eapply Forall_impl; [done|]); [intros q Hq; by eapply truthful_mono|by intros q [? _]].
    + intros p Hp. destruct ev as [pkt|]; [|by apply Hsent]. cbn in Hp, Hv. destruct (d_old pkt); [by apply Hsent|].
      apply elem_of_cons in Hp as [->|Hp]; [lia|by apply Hsent].
    + intros p Hp. by apply Hsub, Hacked.
    + intros p Hp. by apply Hsub, Hsacked.
  - exists ks. split; [done|]. eapply Forall_impl; [exact Hks'|]. by intros q [_ ?].
Qed.

Lemma timeout_step_ok k n E :
  net_inv k n -> net_valid ops size (NTimeout E) n ->
  returns (net_step ops tcp_max_burst g delack (NTimeout E) n) (fun n' => net_inv (k + 1) n' /\ blank ops (n_agent n')).
Proof using Type.
  intros [[Ha Hb] Hsink Hd Hks Hsent Hacked Hsacked Htop Hout] Hv. cbn [net_step sender_event full_step].
  eapply returns_bind; [by apply (timeout_sb_ok ops k)|].
  intros [a' b'] (Hi & Hbl & [Eh Et] & Hsk). cbn [returns]. split; [|exact Hbl].
  constructor; cbn [n_agent n_board n_sink n_acks n_arrived]; rewrite ?Et, ?Eh; try done.
  - eapply full_inv_mono; [|exact Hi]. lia.
  - intros p ?%Hsk. by apply Hsacked.
Qed.

Lemma send_step_ok k n curseq maxburst :
  net_inv k n -> net_valid ops size (NSend curseq maxburst) n ->
  returns (net_step ops tcp_max_burst g delack (NSend curseq maxburst) n) (fun n' =>
    net_inv (k + 1) n' /\ (blank ops (n_agent n) -> blank ops (n_agent n'))).
Proof using Type.
  intros [[Ha Hb] Hsink Hd Hks Hsent Hacked Hsacked Htop Hout] (Hm & Hc & Ho). cbn [net_step sender_event full_step].
  eapply returns_bind; [apply (send_sb_ok ops k); try done; split; unfold seq_max in *; lia|].
  intros [a' b'] (Hi & Hbl & (Eh & Et & Hsk) & _). cbn [returns fst snd] in *. split; [|exact Hbl].
  constructor; cbn [n_agent n_board n_sink n_acks n_arrived]; rewrite ?Eh; try done; try lia.
  - eapply full_inv_mono; [|exact Hi]. lia.
  - intros p ?%Hsent. lia.
  - intros p ?%Hsk. by apply Hsacked.
Qed.

Lemma net_step_ok k n ev :
  net_inv k n -> 0 <= k < 2147483648 -> net_valid ops size ev n ->
  returns (net_step ops tcp_max_burst g delack ev n) (fun n' =>
    net_inv (k + 1) n' /\ (blank ops (n_agent n) -> blank ops (n_agent n'))).
Proof using burst_ok size_pos no_dsacks.
  intros Hn Hk Hv. destruct ev as [ev|x q|E|c m].
  - eapply returns_mono; [by apply (sink_event_ok k)|]. intros n' (? & Ea & _). split; [done|]. by rewrite Ea.
  - destruct Hv. eapply returns_mono; [by apply (ack_step_ok k)|]. by intros n' (? & ? & _).
  - eapply returns_mono; [by apply timeout_step_ok|]. by intros n' [? ?].
  - by apply send_step_ok.
Qed.

Lemma net_reach_inv k n :
  net_reach ops tcp_max_burst size g delack k n -> k <= 2147483648 -> 0 <= k /\ net_inv k n.
Proof using burst_ok size_pos no_dsacks.
  induction 1 as [a nb dup Ha Hh Ht Hnb|k n ev n' Hr IH Hv Hs]; intros Hk.
  - split; [done|]. constructor; cbn [n_agent n_board n_sink n_acks n_arrived]; rewrite ?Hh, ?Ht; try done.
    + split; [by left|]. apply sb_clear_inv. cbn. lia.
    + apply new_sink_inv. done.
    + by right.
    + by intros p ?%elem_of_nil.
    + lia.
  - destruct IH as [Hk0 Hi]; [lia|]. pose proof (net_step_ok k n ev Hi ltac:(lia) Hv) as H.
    rewrite Hs in H. split; [lia|apply H].
Qed.

(** What the sender knows acknowledged was handed to the application. *)
Lemma acked_delivered k n : net_inv k n -> highest_ack_ (n_agent n) < next_ (ack_ (sacker_ (n_sink n))) <= t_seqno_ (n_agent n).
Proof using Type.
  intros [Ha [[Hw _ _ _] _ _] _ _ Hsent Hacked _ _ _]. apply full_inv_seq in Ha as [[Hh Ht] _].
  destruct Hw as [_ Hn _ Hall Hhole _ _ _]. set (m := next_ _) in *. split.
  - destruct (Z.lt_ge_cases (highest_ack_ (n_agent n)) m); [done|]. destruct Hhole. apply Hacked. lia.
  - destruct (Z.eq_dec m 0) as [->|]; [lia|]. specialize (Hsent (m - 1) (Hall (m - 1) ltac:(lia))). lia.
Qed.

Lemma all_arrived k n :
  net_inv k n -> (forall p, 0 <= p < t_seqno_ (n_agent n) -> p ∈ n_arrived n) ->
  Seqno (ack_ (sacker_ (n_sink n))) = t_seqno_ (n_agent n) - 1.
Proof using Type.
  intros Hn Hall. pose proof (acked_delivered k n Hn) as Hle. unfold Seqno.
  destruct Hn as [_ [[[_ Hn _ _ Hhole _ _ _] _ _ _] _ _] _ _ _ _ _ _ _]. set (m := next_ _) in *.
  destruct (Z.lt_ge_cases m (t_seqno_ (n_agent n))) as [Hlt|]; [destruct Hhole; apply Hall; lia|lia].
Qed.

(** The acknowledgement of everything sent leaves nothing in flight. *)
Lemma ack_all k n x q :
  net_inv k n -> 0 <= k < 2147483648 -> q ∈ n_acks n -> clock_ok ops (n_agent n) x ->
  q_seqno q = t_seqno_ (n_agent n) - 1 ->
  returns (net_step ops tcp_max_burst g delack (NAck x q) n) (fun n' =>
    highest_ack_ (n_agent n') = t_seqno_ (n_agent n) - 1 /\ agent_in_flight (n_agent n') (n_board n') = 0).
Proof using burst_ok.
  intros Hn Hk Hq Hck Eq. eapply returns_mono; [by apply (ack_step_ok k)|].
  intros n' (Hn' & _ & Hh & Et). destruct (full_inv_seq k _ _ (ni_agent _ _ _ _ _ Hn)) as [[? ?] _].
  rewrite <- Eq, Hh by lia. split; [done|].
  destruct (full_inv_seq _ _ _ (ni_agent _ _ _ _ _ Hn')) as [[? ?] Hb].
  unfold agent_in_flight. rewrite packets_in_flight_number by done || lia.
  unfold number_in_flight. rewrite Et, Hh by lia. replace (t_seqno_ (n_agent n)) with (q_seqno q + 1) by lia.
  by rewrite Z.sub_diag.
Qed.

(** An arrival and then the timer produce an acknowledgement of all in order. *)
Lemma arrive_expire k n pkt :
  net_inv k n -> net_valid ops size (NSink (Arrive pkt)) n -> d_old pkt = false ->
  returns (net_step ops tcp_max_burst g delack (NSink (Arrive pkt)) n) (fun n1 =>
    returns (net_step ops tcp_max_burst g delack (NSink Expire) n1) (fun n2 =>
      net_inv (k + 2) n2 /\ n_agent n2 = n_agent n
      /\ ((forall p, 0 <= p < t_seqno_ (n_agent n) -> p = d_seqno pkt \/ p ∈ n_arrived n) ->
          exists q, q ∈ n_acks n2 /\ q_seqno q = t_seqno_ (n_agent n) - 1))).
Proof using burst_ok size_pos no_dsacks.
  intros Hn Hv Hold. pose proof (sink_event_ok k n (Arrive pkt) Hn Hv) as H1.
  apply returns_inv in H1 as (n1 & E1 & Hn1 & Ea1 & Es1 & ks1 & Ek1 & Hq1). rewrite E1. cbn [returns].
  pose proof (sink_event_ok (k + 1) n1 Expire Hn1 I) as H2.
  apply returns_inv in H2 as (n2 & E2 & Hn2 & Ea2 & Es2 & ks2 & Ek2 & Hq2). rewrite E2. cbn [returns].
  split; [by replace (k + 2) with (k + 1 + 1) by lia|]. split; [congruence|]. intros Hall.
  cbn [arrived] in Es1, Es2. rewrite Hold in Es1.
  assert (Hl1 : Seqno (ack_ (sacker_ (n_sink n1))) = t_seqno_ (n_agent n) - 1).
  { rewrite <- Ea1. apply (all_arrived (k + 1)); [done|]. rewrite Ea1, Es1. set_solver. }
  assert (Hl2 : Seqno (ack_ (sacker_ (n_sink n2))) = t_seqno_ (n_agent n) - 1).
  { rewrite <- Ea1, <- Ea2. apply (all_arrived (k + 1 + 1)); [done|]. rewrite Ea2, Ea1, Es2, Es1. set_solver. }
  rewrite Forall_forall in Hq1, Hq2. setoid_rewrite Ek2. setoid_rewrite Ek1.
  cbn [net_step] in E1, E2. apply bind_inv in E1 as ([s1 ks] & E1 & [= <-]).
  apply bind_inv in E2 as ([s2 ks'] & E2 & [= <-]). cbn [n_acks n_sink] in *.
  apply app_inv_head in Ek1, Ek2. subst ks ks'.
  destruct (arrival_acked g delack pkt _ _ _ Hold E1) as [[q ->]|Hs].
  - exists q. split; [set_solver|]. rewrite <- Hl1. apply Hq1. set_solver.
  - destruct (expiry_answered g pkt _ _ _ Hs E2) as [_ [q ->]].
    exists q. split; [set_solver|]. rewrite <- Hl2. apply Hq2. set_solver.
Qed.
End NetLemmas.

(** * Properties *)

(** C1: the connection is safe, end to end.  Whatever the network loses,
    duplicates, delays and reorders, and whatever congestion module meets the
    contract, both ends handle everything that arrives and every timeout: nothing
    traps, every loop ends.  A timeout before the first acknowledgement, when the
    whole initial window or its acknowledgements are lost, is handled if the
    private memory of the module, which the agent does not initialise, is blank
    ([cm_blank], as zeroed memory is for the modules of Modules.v); it then stays
    so until the module is initialised.  What the sender counts as acknowledged
    was handed to the application, in order and once; only data sent is; and
    every packet the scoreboard holds for sacked was received. *)
Theorem network_safe {P} (ops : tcp_congestion_ops P) `{!CongModule ops} tcp_max_burst size g delack k n :
  1 <= tcp_max_burst <= 255 -> (forall p, 0 < size p) -> generate_dsacks_ g = false ->
  net_reach ops tcp_max_burst size g delack k n -> k < 2147483648 ->
  let delivered := next_ (ack_ (sacker_ (n_sink n))) in
  (forall ev, net_valid ops size ev n -> exists n', net_step ops tcp_max_burst g delack ev n = Ok n'
     /\ (blank ops (n_agent n) -> blank ops (n_agent n')))
  /\ highest_ack_ (n_agent n) < delivered <= t_seqno_ (n_agent n)
  /\ bytes_ (n_sink n) = total size delivered
  /\ (forall p, sacked (blocks (n_board n)) p -> p ∈ n_arrived n)
  /\ 1 <= snd_cwnd (linux_ (n_agent n)) <= window_max.
Proof.
  intros Hb Hpos Hg Hr Hk. destruct (net_reach_inv ops tcp_max_burst Hb size g delack Hpos Hg k n Hr ltac:(lia)) as [Hk0 Hi].
  cbv zeta. split; [|split; [by eapply acked_delivered|split; [apply Hi|split; [apply Hi|]]]].
  - intros ev Hv. pose proof (net_step_ok ops tcp_max_burst Hb size g delack Hpos Hg k n ev Hi ltac:(lia) Hv) as Hs.
    apply returns_inv in Hs as (n' & -> & _ & Hbl). by exists n'.
  - destruct (ni_agent _ _ _ _ _ Hi) as [[[_ [] _ _ _ _]|[_ [] _ _ _ _]] _]; done.
Qed.

(** C9: the connection completes.  Once the last missing segment arrives, the
    receiver sends an acknowledgement of everything sent, by the time its timer
    expires, and when it reaches the sender nothing is in flight any more. *)
Theorem network_completes {P} (ops : tcp_congestion_ops P) `{!CongModule ops} tcp_max_burst size g delack k n pkt :
  1 <= tcp_max_burst <= 255 -> (forall p, 0 < size p) -> generate_dsacks_ g = false ->
  net_reach ops tcp_max_burst size g delack k n -> k < 2147483640 ->
  net_valid ops size (NSink (Arrive pkt)) n -> d_old pkt = false ->
  (forall p, 0 <= p < t_seqno_ (n_agent n) -> p = d_seqno pkt \/ p ∈ n_arrived n) ->
  let last := t_seqno_ (n_agent n) - 1 in
  exists n1 n2 q,
    net_step ops tcp_max_burst g delack (NSink (Arrive pkt)) n = Ok n1
    /\ net_step ops tcp_max_burst g delack (NSink Expire) n1 = Ok n2
    /\ q ∈ n_acks n2 /\ q_seqno q = last
    /\ forall x, clock_ok ops (n_agent n) x -> exists n3,
         net_step ops tcp_max_burst g delack (NAck x q) n2 = Ok n3
         /\ highest_ack_ (n_agent n3) = last /\ agent_in_flight (n_agent n3) (n_board n3) = 0.
Proof.
  intros Hb Hpos Hg Hr Hk Hv Hold Hall. cbv zeta.
  destruct (net_reach_inv ops tcp_max_burst Hb size g delack Hpos Hg k n Hr ltac:(lia)) as [Hk0 Hi].
  pose proof (arrive_expire ops tcp_max_burst Hb size g delack Hpos Hg k n pkt Hi Hv Hold) as H.
  apply returns_inv in H as (n1 & E1 & H). apply returns_inv in H as (n2 & E2 & Hn2 & Ea & Hq).
  destruct (Hq Hall) as (q & Hin & Eq). exists n1, n2, q. do 4 (split; [done|]). intros x Hx.
  rewrite <- Ea in Hx, Eq |- *.
  pose proof (ack_all ops tcp_max_burst Hb size g delack (k + 2) n2 x q Hn2 ltac:(lia) Hin Hx Eq) as H.
  apply returns_inv in H as (n3 & E3 & H). by exists n3.
Qed.

(** ** Witnesses *)

Lemma clock_ex_ok (a : agent unit) : clock_ok tcp_reno a ack_ex.
Proof. constructor; cbn; [apply wf_env_ex|by left|split_and!; done|done]. Qed.

Lemma net_ex3_reach : net_reach tcp_reno 3 size_ex params_ex false 3 net_ex3.
Proof.
  assert (H : net_reach tcp_reno 3 size_ex params_ex false 0 net_ex0)
    by (apply net_start; [by constructor|done|done|done]).
  eapply (net_next _ _ _ _ _ _ _ (NSend 10 0) net_ex1) in H; [|done|by vm_compute].
  eapply (net_next _ _ _ _ _ _ _ (NSink (Arrive (data_ex 1))) net_ex2) in H; [|done|by vm_compute].
  eapply (net_next _ _ _ _ _ _ _ (NAck ack_ex dup_ex) net_ex3) in H;
    [exact H|split; [by left|apply clock_ex_ok]|by vm_compute].
Qed.

Example net_ex3_sacked : sacked (blocks (n_board net_ex3)) 1 /\ highest_ack_ (n_agent net_ex3) = -1.
Proof. vm_compute. done. Qed.

(** The whole initial window is lost, and the timer expires. *)
Definition net_ex4 : network unit := Eval vm_compute in net_run_ex (NTimeout env_ex) net_ex1.

Lemma net_ex4_reach : net_reach tcp_reno 3 size_ex params_ex false 2 net_ex4.
Proof.
  assert (H : net_reach tcp_reno 3 size_ex params_ex false 0 net_ex0)
    by (apply net_start; [by constructor|done|done|done]).
  eapply (net_next _ _ _ _ _ _ _ (NSend 10 0) net_ex1) in H; [|done|by vm_compute].
  eapply (net_next _ _ _ _ _ _ _ (NTimeout env_ex) net_ex4) in H; [exact H|split; [apply wf_env_ex|by right]|by vm_compute].
Qed.

Lemma network_safe_witness :
  let n := net_ex4 in
  let delivered := next_ (ack_ (sacker_ (n_sink n))) in
  initialized_ (n_agent n) = false /\
  (forall ev, net_valid tcp_reno size_ex ev n -> exists n', net_step tcp_reno 3 params_ex false ev n = Ok n'
     /\ (blank tcp_reno (n_agent n) -> blank tcp_reno (n_agent n')))
  /\ highest_ack_ (n_agent n) < delivered <= t_seqno_ (n_agent n)
  /\ bytes_ (n_sink n) = total size_ex delivered
  /\ (forall p, sacked (blocks (n_board n)) p -> p ∈ n_arrived n)
  /\ 1 <= snd_cwnd (linux_ (n_agent n)) <= window_max.
Proof.
  split; [reflexivity|].
  apply (network_safe tcp_reno 3 size_ex params_ex false 2 net_ex4); [lia|done|done|exact net_ex4_reach|lia].
Defined.

Lemma network_completes_witness :
  exists n1 n2 q,
    net_step tcp_reno 3 params_ex false (NSink (Arrive (data_ex 0))) net_ex3 = Ok n1
    /\ net_step tcp_reno 3 params_ex false (NSink Expire) n1 = Ok n2
    /\ q ∈ n_acks n2 /\ q_seqno q = 1
    /\ forall x, clock_ok tcp_reno (n_agent net_ex3) x -> exists n3,
         net_step tcp_reno 3 params_ex false (NAck x q) n2 = Ok n3
         /\ highest_ack_ (n_agent n3) = 1 /\ agent_in_flight (n_agent n3) (n_board n3) = 0.
Proof.
  apply (network_completes tcp_reno 3 size_ex params_ex false 3 net_ex3 (data_ex 0));
    [lia|done|done|exact net_ex3_reach|lia|done|done|].
  intros p Hp. assert (p = 0 \/ p = 1) as [->| ->] by (cbn in Hp; lia); [by left|right; by left].
Defined.
