(* ===== verification/ParamList.v ===== *)
(** The module parameters of a flow (ParamList and LinuxParamManager in
    tcp-linux.cc): the parameters of a congestion module are global variables; a
    flow with values of its own loads them before it runs and puts the global
    ones back afterwards. *)
From stdpp Require Import gmap.
From S2P Require Import Prelude LinuxC.

(** * Definitions *)

(** The global variables, all of type [int], by address. *)
Abbreviation mem := (gmap ptr Z).

Definition deref (a : ptr) (m : mem) : outcome Z :=
  match m !! a with Some v => Ok v | None => Trap OutOfBounds end.

Record paramNode := mk_paramNode {
  addr : ptr;
  value : Z;
  default_value : Z;
}.
#[global] Instance eta_paramNode : Eta paramNode := fun r =>
  mk_paramNode (addr r) (value r) (default_value r).

(** ** ParamList *)

Fixpoint find_node (a : ptr) (l : list paramNode) : option paramNode :=
  match l with
  | [] => None
  | p :: l' => if decide (addr p = a) then Some p else find_node a l'
  end.

Definition list_get_param (a : ptr) (l : list paramNode) : option Z := value <$> find_node a l.

Definition list_set_param (a : ptr) (v : Z) (m : mem) (l : list paramNode)
  : outcome (list paramNode) :=
  match update_first (fun p => bool_decide (addr p = a)) (fun p => p <| value := v |>) l with
  | Some l' => Ok l'
  | None => d ← deref a m; Ok (mk_paramNode a v d :: l)
  end.

Fixpoint refresh_default (m : mem) (l : list paramNode) : outcome (list paramNode) :=
  match l with
  | [] => Ok []
  | p :: l' =>
      d ← deref (addr p) m;
      l' ← refresh_default m l';
      Ok (p <| default_value := d |> :: l')
  end.

Fixpoint restore_default (m : mem) (l : list paramNode) : outcome (mem * list paramNode) :=
  match l with
  | [] => Ok (m, [])
  | p :: l' =>
      v ← deref (addr p) m;
      '(m, l') ← restore_default (<[addr p := default_value p]> m) l';
      Ok (m, p <| value := v |> :: l')
  end.

Fixpoint load_local (m : mem) (l : list paramNode) : outcome (mem * list paramNode) :=
  match l with
  | [] => Ok (m, [])
  | p :: l' =>
      d ← deref (addr p) m;
      '(m, l') ← load_local (<[addr p := value p]> m) l';
      Ok (m, p <| default_value := d |> :: l')
  end.

(** ** LinuxParamManager *)

(** [snprintf(proto_name, 100, "tcp_%s.c", proto)] *)
Definition proto_name (prot : string) : string :=
  String.substring 0 99 ("tcp_" +:+ prot +:+ ".c").

(** The search skips parameters of another type; [strcmp] on a parameter whose
    type was never recorded reads through [NULL]. *)
Fixpoint find_int_param (name : string) (l : list cc_param_list) : outcome (option cc_param_list) :=
  match l with
  | [] => Ok None
  | q :: l' =>
      if String.eqb (p_name q) name then
        match p_type q with
        | Some t => if String.eqb t "int" then Ok (Some q) else find_int_param name l'
        | None => Trap NullDeref
        end
      else find_int_param name l'
  end.

Definition manager_find (prot name : string) (cc_list_head : list cc_list)
  : outcome (option cc_param_list) :=
  match List.find (fun p => String.eqb (proto p) (proto_name prot)) cc_list_head with
  | Some p => find_int_param name (param_head p)
  | None => Ok None
  end.

(** [(int* )p->ptr] *)
Definition param_address (q : cc_param_list) : outcome ptr :=
  match p_ptr q with Some a => Ok a | None => Trap NullDeref end.

Section Manager.
Variable cc_list_head : list cc_list.

Definition set_default_param (prot param : string) (v : Z) (m : mem) : outcome (bool * mem) :=
  q ← manager_find prot param cc_list_head;
  match q with
  | None => Ok (false, m)
  | Some q => a ← param_address q; _ ← deref a m; Ok (true, <[a := v]> m)
  end.

Definition set_param (prot param : string) (v : Z) (m : mem) (localValues : list paramNode)
  : outcome (bool * list paramNode) :=
  q ← manager_find prot param cc_list_head;
  match q with
  | None => Ok (false, localValues)
  | Some q => a ← param_address q; l ← list_set_param a v m localValues; Ok (true, l)
  end.

(** [None] for the result [false] *)
Definition get_default_param (prot param : string) (m : mem) : outcome (option Z) :=
  q ← manager_find prot param cc_list_head;
  match q with
  | None => Ok None
  | Some q => a ← param_address q; v ← deref a m; Ok (Some v)
  end.

Definition get_param (prot param : string) (m : mem) (localValues : list paramNode)
  : outcome (option Z) :=
  q ← manager_find prot param cc_list_head;
  match q with
  | None => Ok None
  | Some q =>
      a ← param_address q;
      match list_get_param a localValues with
      | Some v => Ok (Some v)
      | None => v ← deref a m; Ok (Some v)
      end
  end.
End Manager.

(** What the agent does around the callbacks of a module ([run]): load_local
    before, restore_default after. *)
Definition with_params (run : mem -> mem) (m : mem) (l : list paramNode)
  : outcome (mem * list paramNode) :=
  '(m, l) ← load_local m l;
  restore_default (run m) l.

(** ** Specification *)

(** The parameters of a list are distinct variables. *)
Definition wf_params (m : mem) (l : list paramNode) : Prop :=
  NoDup (addr <$> l) /\ forall p, In p l -> is_Some (m !! addr p).

(** What a module sees: the flow's own values over the global ones. *)
Definition overlay (m : mem) (l : list paramNode) (a : ptr) : option Z :=
  match list_get_param a l with Some v => Some v | None => m !! a end.

(** ** An example: the table of two CUBIC parameters at addresses 1 and 2, and
    a flow with a value of its own for the first *)

Definition params_ex : list cc_list :=
  record_linux_param "tcp_cubic.c" "beta" "int" 2%positive
    (record_linux_param "tcp_cubic.c" "fast_convergence" "int" 1%positive []).
Definition mem_ex : mem := <[1%positive := 1]> (<[2%positive := 819]> ∅).
Definition flow_ex : list paramNode := [mk_paramNode 1%positive 0 1].

(** * Lemmas *)

(** The memory after the assignments [*p->addr = f p] along the list. *)
Definition write (f : paramNode -> Z) (l : list paramNode) (m : mem) : mem :=
  fold_left (fun m p => <[addr p := f p]> m) l m.

Lemma find_node_None a l : a ∉ (addr <$> l) -> find_node a l = None.
Proof.
  induction l as [|p l IH]; cbn; [done|]. rewrite not_elem_of_cons. intros [Hp Hl].
  destruct (decide (addr p = a)); [congruence|auto].
Qed.

Lemma find_node_in a l p : find_node a l = Some p -> In p l /\ addr p = a.
Proof.
  induction l as [|q l IH]; cbn; [done|]. destruct (decide (addr q = a)); [|naive_solver].
  intros [= ->]. auto.
Qed.

Lemma lookup_write f l m a :
  NoDup (addr <$> l) ->
  write f l m !! a = match find_node a l with Some p => Some (f p) | None => m !! a end.
Proof.
  revert m. induction l as [|p l IH]; intros m; [done|]. cbn [fmap list_fmap].
  rewrite NoDup_cons. intros [Hp Hl]. cbn [write fold_left find_node]. fold (write f l (<[addr p := f p]> m)).
  rewrite IH by done. destruct (decide (addr p = a)) as [<-|Hne].
  - rewrite find_node_None by done. by rewrite lookup_insert_eq.
  - by rewrite lookup_insert_ne.
Qed.

Lemma deref_ok a m v : m !! a = Some v -> deref a m = Ok v.
Proof. unfold deref. by intros ->. Qed.

Lemma wf_params_insert m p l v :
  wf_params m (p :: l) -> wf_params (<[addr p := v]> m) l /\ addr p ∉ (addr <$> l)
  /\ forall q, In q l -> <[addr p := v]> m !! addr q = m !! addr q.
Proof.
  intros [Hn Hm]. apply NoDup_cons in Hn as [Hp Hn].
  assert (Hne : forall q, In q l -> addr p <> addr q).
  { intros q Hq E. apply Hp. rewrite E. by apply list_elem_of_fmap_2, list_elem_of_In. }
  split; [|split; [done|]].
  - split; [done|]. intros q Hq. rewrite lookup_insert_ne by auto. apply Hm. by right.
  - intros q Hq. by rewrite lookup_insert_ne by auto.
Qed.

Lemma load_local_ok m l :
  wf_params m l ->
  load_local m l = Ok (write value l m, (fun p => p <| default_value := default 0 (m !! addr p) |>) <$> l).
Proof.
  revert m. induction l as [|p l IH]; intros m Hwf; [done|]. cbn [load_local].
  destruct (proj2 Hwf p (or_introl eq_refl)) as [v Hv]. rewrite (deref_ok _ _ _ Hv). c_ret.
  destruct (wf_params_insert m p l (value p) Hwf) as (Hwf' & _ & Hsame).
  rewrite IH by done. c_ret. cbn [fmap list_fmap]. rewrite Hv.
  do 3 f_equal. apply list_fmap_ext. intros i q Hq. apply list_elem_of_lookup_2, list_elem_of_In in Hq.
  by rewrite Hsame.
Qed.

Lemma restore_default_ok m l :
  wf_params m l ->
  restore_default m l
  = Ok (write default_value l m, (fun p => p <| value := default 0 (m !! addr p) |>) <$> l).
Proof.
  revert m. induction l as [|p l IH]; intros m Hwf; [done|]. cbn [restore_default].
  destruct (proj2 Hwf p (or_introl eq_refl)) as [v Hv]. rewrite (deref_ok _ _ _ Hv). c_ret.
  destruct (wf_params_insert m p l (default_value p) Hwf) as (Hwf' & _ & Hsame).
  rewrite IH by done. c_ret. cbn [fmap list_fmap]. rewrite Hv.
  do 3 f_equal. apply list_fmap_ext. intros i q Hq. apply list_elem_of_lookup_2, list_elem_of_In in Hq.
  by rewrite Hsame.
Qed.

Lemma find_node_fmap f l a :
  (forall p, addr (f p) = addr p) -> find_node a (f <$> l) = f <$> find_node a l.
Proof.
  intros Hf. induction l as [|p l IH]; [done|]. cbn. rewrite Hf. by destruct (decide (addr p = a)).
Qed.

Lemma find_node_elem a l : is_Some (find_node a l) <-> a ∈ (addr <$> l).
Proof.
  split.
  - intros [p Hp]. apply find_node_in in Hp as [Hp <-]. by apply list_elem_of_fmap_2, list_elem_of_In.
  - intros Ha. induction l as [|p l IH]; cbn in *; [by apply elem_of_nil in Ha|].
    destruct (decide (addr p = a)); [done|]. apply elem_of_cons in Ha as [->|Ha]; [done|auto].
Qed.

(** A module sees the overlay. *)
Lemma seen_overlay m l a : NoDup (addr <$> l) -> write value l m !! a = overlay m l a.
Proof.
  intros Hn. rewrite lookup_write by done. unfold overlay, list_get_param.
  by destruct (find_node a l).
Qed.

(** The parameters around a run that keeps the variables allocated. *)
Lemma with_params_ok run m l :
  wf_params m l -> (forall m' a, is_Some (m' !! a) -> is_Some (run m' !! a)) ->
  exists m' l', with_params run m l = Ok (m', l')
  /\ (forall a, m' !! a = if decide (a ∈ (addr <$> l)) then m !! a else run (write value l m) !! a)
  /\ (forall a, list_get_param a l' =
        if decide (a ∈ (addr <$> l)) then run (write value l m) !! a else None)
  /\ addr <$> l' = addr <$> l /\ wf_params m' l'.
Proof.
  intros Hwf Hrun. pose proof Hwf as [Hn Hm]. unfold with_params. rewrite load_local_ok by done. c_ret.
  set (m1 := write value l m).
  set (f := fun p => p <| default_value := default 0 (m !! addr p) |>).
  set (g := fun p => p <| value := default 0 (run m1 !! addr p) |>).
  assert (Hf : forall p, addr (f p) = addr p) by done.
  assert (Hg : forall p, addr (g p) = addr p) by done.
  assert (Efl : addr <$> (f <$> l) = addr <$> l)
    by (rewrite <- list_fmap_compose; by apply list_fmap_ext).
  assert (Hm1 : forall a, a ∈ (addr <$> l) -> is_Some (m1 !! a)).
  { intros a Ha. unfold m1. rewrite lookup_write by done. apply find_node_elem in Ha as [p ->]. done. }
  assert (Hwf1 : wf_params (run m1) (f <$> l)).
  { split; [by rewrite Efl|]. intros p Hp. apply Hrun, Hm1. rewrite <- Efl.
    by apply list_elem_of_fmap_2, list_elem_of_In. }
  rewrite restore_default_ok by done. fold g. set (m' := write default_value (f <$> l) (run m1)).
  set (l' := _ <$> (f <$> l)).
  assert (El' : addr <$> l' = addr <$> l)
    by (unfold l'; rewrite <- list_fmap_compose, <- Efl; by apply list_fmap_ext).
  assert (Hm' : forall a, m' !! a = if decide (a ∈ (addr <$> l)) then m !! a else run m1 !! a).
  { intros a. unfold m'. rewrite lookup_write by (by rewrite Efl). rewrite find_node_fmap by done.
    case_decide as Ha.
    - apply find_node_elem in Ha as [p Hp]. rewrite Hp. cbn. apply find_node_in in Hp as [Hp <-].
      by destruct (Hm p Hp) as [v ->].
    - by rewrite find_node_None. }
  exists m', l'. split; [done|]. split; [done|]. split; [|split; [done|]].
  - intros a. unfold list_get_param, l'. rewrite !find_node_fmap by done. case_decide as Ha.
    + apply find_node_elem in Ha as Hp. destruct Hp as [p Hp]. rewrite Hp. cbn.
      apply find_node_in in Hp as [_ <-]. destruct (Hrun _ _ (Hm1 _ Ha)) as [v Hv].
      change (addr (f p)) with (addr p). by rewrite Hv.
    + by rewrite find_node_None.
  - split; [by rewrite El'|]. intros p Hp. rewrite Hm'.
    assert (Hin : addr p ∈ (addr <$> l)) by (rewrite <- El'; by apply list_elem_of_fmap_2, list_elem_of_In).
    rewrite decide_True by done. apply list_elem_of_fmap in Hin as (q & -> & Hq).
    apply Hm. by apply list_elem_of_In.
Qed.

Lemma update_node_find a v l :
  match update_first (fun p => bool_decide (addr p = a)) (fun p => p <| value := v |>) l with
  | Some l' => (forall b, list_get_param b l' = if decide (a = b) then Some v else list_get_param b l)
               /\ addr <$> l' = addr <$> l
  | None => a ∉ (addr <$> l)
  end.
Proof.
  induction l as [|p l IH]; cbn [update_first]; [by apply not_elem_of_nil|].
  case_bool_decide as Hp.
  - split; [|done]. intros b. unfold list_get_param. cbn [find_node]. change (addr (p <| value := v |>)) with (addr p).
    rewrite Hp. by destruct (decide (a = b)).
  - destruct (update_first _ _ l) as [l'|].
    + destruct IH as [IH1 IH2]. split; [|cbn; by rewrite IH2]. intros b. specialize (IH1 b).
      unfold list_get_param in *. cbn [find_node]. destruct (decide (addr p = b)); [|done].
      subst b. by destruct (decide (a = addr p)).
    + cbn. rewrite not_elem_of_cons. auto.
Qed.

(** Setting a parameter of a flow. *)
Lemma list_set_param_ok a v m l :
  is_Some (m !! a) -> wf_params m l ->
  exists l', list_set_param a v m l = Ok l' /\ wf_params m l'
  /\ forall b, list_get_param b l' = if decide (a = b) then Some v else list_get_param b l.
Proof.
  intros [d Hd] [Hn Hm]. unfold list_set_param. pose proof (update_node_find a v l) as Hu.
  destruct (update_first _ _ l) as [l'|].
  - destruct Hu as [Hg Ha]. exists l'. split; [done|]. split; [|done].
    split; [by rewrite Ha|]. intros p Hp.
    assert (Hin : addr p ∈ (addr <$> l)) by (rewrite <- Ha; by apply list_elem_of_fmap_2, list_elem_of_In).
    apply list_elem_of_fmap in Hin as (q & -> & Hq). apply Hm. by apply list_elem_of_In.
  - rewrite (deref_ok _ _ _ Hd). c_ret. eexists. split; [done|]. split.
    + split; [by apply NoDup_cons|]. intros p [<-|Hp]; [by exists d|auto].
    + intros b. unfold list_get_param. cbn. by destruct (decide (a = b)).
Qed.

(** * Properties *)


(** [set_ca_param] on a recorded parameter succeeds, [get_ca_param] then gives
    the value back, the module sees it in its next run, and every parameter of
    another address, and every global value, is what it was. *)
Theorem set_param_roundtrip cc_list_head prot param v m l q a :
  wf_params m l -> manager_find prot param cc_list_head = Ok (Some q) -> p_ptr q = Some a ->
  is_Some (m !! a) ->
  exists l', set_param cc_list_head prot param v m l = Ok (true, l')
  /\ wf_params m l'
  /\ get_param cc_list_head prot param m l' = Ok (Some v)
  /\ overlay m l' a = Some v
  /\ forall prot2 param2 q2, manager_find prot2 param2 cc_list_head = Ok (Some q2) -> p_ptr q2 <> Some a ->
       get_param cc_list_head prot2 param2 m l' = get_param cc_list_head prot2 param2 m l.
Proof.
  intros Hwf Hq Ha Hm. destruct (list_set_param_ok a v m l Hm Hwf) as (l' & Hl' & Hwf' & Hget).
  exists l'. unfold set_param, get_param, param_address. rewrite Hq. c_ret. rewrite Ha. c_ret.
  rewrite Hl'. c_ret. split; [done|]. split; [done|].
  assert (Ea : list_get_param a l' = Some v) by (rewrite Hget; by rewrite decide_True).
  split; [by rewrite Ea|]. split; [unfold overlay; by rewrite Ea|].
  intros prot2 param2 q2 -> Hne. c_ret. destruct (p_ptr q2) as [b|]; [|done]. c_ret.
  rewrite Hget, decide_False by congruence. done.
Qed.

(** A new default value ([set_ca_default_param]) reaches exactly the flows that
    have no value of their own. *)
Theorem default_param_shadowed cc_list_head prot param v m l q a :
  manager_find prot param cc_list_head = Ok (Some q) -> p_ptr q = Some a -> is_Some (m !! a) ->
  exists m', set_default_param cc_list_head prot param v m = Ok (true, m')
  /\ get_default_param cc_list_head prot param m' = Ok (Some v)
  /\ get_param cc_list_head prot param m' l =
       match list_get_param a l with Some w => Ok (Some w) | None => Ok (Some v) end
  /\ forall b, b <> a -> overlay m' l b = overlay m l b.
Proof.
  intros Hq Ha [d Hd]. exists (<[a := v]> m).
  unfold set_default_param, get_default_param, get_param, param_address. rewrite Hq. c_ret. rewrite Ha. c_ret.
  rewrite (deref_ok _ _ _ Hd). c_ret. rewrite (deref_ok a (<[a := v]> m) v) by by rewrite lookup_insert_eq.
  split_and!; try done. intros b Hb. unfold overlay. destruct (list_get_param b l); [done|].
  by rewrite lookup_insert_ne by done.
Qed.

(** ** Witnesses *)

Lemma flow_ex_wf : wf_params mem_ex flow_ex.
Proof. split; [apply NoDup_singleton|]. intros p [<-|[]]. by exists 1. Qed.


Lemma set_param_roundtrip_witness :
  exists l', set_param params_ex "cubic" "beta" 700 mem_ex flow_ex = Ok (true, l')
  /\ wf_params mem_ex l'
  /\ get_param params_ex "cubic" "beta" mem_ex l' = Ok (Some 700)
  /\ overlay mem_ex l' 2%positive = Some 700
  /\ forall prot2 param2 q2, manager_find prot2 param2 params_ex = Ok (Some q2) ->
       p_ptr q2 <> Some 2%positive ->
       get_param params_ex prot2 param2 mem_ex l' = get_param params_ex prot2 param2 mem_ex flow_ex.
Proof.
  apply (set_param_roundtrip params_ex "cubic" "beta" 700 mem_ex flow_ex
    (mk_param "beta" (Some "int"%string) None (Some 2%positive))); [apply flow_ex_wf|reflexivity|reflexivity|by exists 819].
Defined.

Lemma default_param_shadowed_witness :
  exists m', set_default_param params_ex "cubic" "fast_convergence" 5 mem_ex = Ok (true, m')
  /\ get_default_param params_ex "cubic" "fast_convergence" m' = Ok (Some 5)
  /\ get_param params_ex "cubic" "fast_convergence" m' flow_ex =
       match list_get_param 1%positive flow_ex with Some w => Ok (Some w) | None => Ok (Some 5) end
  /\ forall b, b <> 1%positive -> overlay m' flow_ex b = overlay mem_ex flow_ex b.
Proof.
  apply (default_param_shadowed params_ex "cubic" "fast_convergence" 5 mem_ex flow_ex
    (mk_param "fast_convergence" (Some "int"%string) None (Some 1%positive))); [reflexivity|reflexivity|by exists 1].
Defined.
