(* ===== verification/Registry.v ===== *)
(** The registry of congestion control algorithms (tcp_cong.c, the list macros
    of ns-linux-util.h, CongestionControlManager in tcp-linux.cc): a circular
    doubly linked list of operation tables, modelled as links between addresses,
    against the plain list of its elements. *)
From stdpp Require Import gmap.
From Stdlib Require Import Ascii.
From S2P Require Import Prelude LinuxC.

(** * Definitions *)

(** An operation table, as far as the registry reads it: which callbacks are
    not [NULL]. *)
Record cong_ops := mk_cong_ops {
  o_name : string;
  o_flags : Z;
  o_ssthresh : bool;
  o_cong_avoid : bool;
}.
#[global] Instance eta_cong_ops : Eta cong_ops := fun r =>
  mk_cong_ops (o_name r) (o_flags r) (o_ssthresh r) (o_cong_avoid r).

(** The list head, the links by address, the tables. *)
Definition ns_tcp_cong_list : ptr := 1%positive.
Record registry := mk_registry {
  l_next : gmap ptr ptr;
  l_prev : gmap ptr ptr;
  objs : gmap ptr cong_ops;
  last_added : ptr;
  cc_list_changed : bool;
}.
#[global] Instance eta_registry : Eta registry := fun r =>
  mk_registry (l_next r) (l_prev r) (objs r) (last_added r) (cc_list_changed r).

Definition EINVAL : Z := 1.
Definition EEXIST : Z := 2.
Definition ENOENT : Z := 3.
Definition EBUSY : Z := 4.
Definition TCP_CONG_NON_RESTRICTED : Z := 1.

Definition load {A} (p : ptr) (m : gmap ptr A) : outcome A :=
  match m !! p with Some v => Ok v | None => Trap NullDeref end.

(** ** The list *)

Definition list_add_rcu (a : ptr) (g : registry) : outcome registry :=
  n ← load ns_tcp_cong_list (l_next g);
  let g := g <| l_next := <[a := n]> (l_next g) |> in
  let g := g <| l_prev := <[a := ns_tcp_cong_list]> (l_prev g) |> in
  n ← load ns_tcp_cong_list (l_next g);
  let g := g <| l_prev := <[n := a]> (l_prev g) |> in
  Ok (g <| l_next := <[ns_tcp_cong_list := a]> (l_next g) |> <| last_added := a |>
        <| cc_list_changed := true |>).

Definition list_add_tail_rcu (a : ptr) (g : registry) : outcome registry :=
  p ← load ns_tcp_cong_list (l_prev g);
  let g := g <| l_prev := <[a := p]> (l_prev g) |> in
  let g := g <| l_next := <[a := ns_tcp_cong_list]> (l_next g) |> in
  p ← load ns_tcp_cong_list (l_prev g);
  let g := g <| l_next := <[p := a]> (l_next g) |> in
  Ok (g <| l_prev := <[ns_tcp_cong_list := a]> (l_prev g) |> <| last_added := a |>
        <| cc_list_changed := true |>).

Definition list_del_rcu (a : ptr) (g : registry) : outcome registry :=
  p ← load a (l_prev g);
  n ← load a (l_next g);
  let g := g <| l_next := <[p := n]> (l_next g) |> in
  n ← load a (l_next g);
  p ← load a (l_prev g);
  Ok (g <| l_prev := <[n := p]> (l_prev g) |> <| cc_list_changed := true |>).

Definition list_move (a : ptr) (g : registry) : outcome registry :=
  g ← list_del_rcu a g; list_add_rcu a g.

(** [list_for_each_entry_rcu]: the body says whether it leaves the loop. *)
Definition list_for_each {S} (body : ptr -> S -> outcome (S * bool)) (s : S)
  (next : gmap ptr ptr) : outcome S :=
  pos ← load ns_tcp_cong_list next;
  '(_, s, _) ← c_while (fun '(pos, _, stop) => negb stop && negb (bool_decide (pos = ns_tcp_cong_list)))
    (fun '(pos, s, _) =>
       '(s, stop) ← body pos s;
       if stop : bool then Ok (pos, s, true)
       else pos ← load pos next; Ok (pos, s, false))
    (pos, s, false);
  Ok s.

(** ** tcp_cong.c *)

Definition tcp_ca_find (name : string) (g : registry) : outcome (option ptr) :=
  list_for_each (fun e _ =>
    o ← load e (objs g);
    Ok (if String.eqb (o_name o) name then (Some e, true) else (None, false)))
    None (l_next g).

Definition tcp_register_congestion_control (ca : ptr) (g : registry) : outcome (Z * registry) :=
  o ← load ca (objs g);
  if negb (o_ssthresh o) || negb (o_cong_avoid o) then Ok (- EINVAL, g)
  else
    e ← tcp_ca_find (o_name o) g;
    match e with
    | Some _ => Ok (- EEXIST, g)
    | None => g ← list_add_tail_rcu ca g; Ok (0, g)
    end.

Definition tcp_unregister_congestion_control (ca : ptr) (g : registry) : outcome registry :=
  list_del_rcu ca g.

Definition or_flags (ca : ptr) (bits : Z) (g : registry) : outcome registry :=
  o ← load ca (objs g);
  Ok (g <| objs := <[ca := o <| o_flags := Z.lor (o_flags o) bits |>]> (objs g) |>).

Definition tcp_set_default_congestion_control (name : string) (g : registry)
  : outcome (Z * registry) :=
  ca ← tcp_ca_find name g;
  match ca with
  | Some ca =>
      g ← or_flags ca TCP_CONG_NON_RESTRICTED g;
      g ← list_move ca g;
      Ok (0, g)
  | None => Ok (- ENOENT, g)
  end.

(** [strncpy(name, ca->name, TCP_CA_NAME_MAX)]; on an empty list the head itself
    is read as a table ([BUG_ON] expands to nothing). *)
Definition tcp_get_default_congestion_control (g : registry) : outcome string :=
  ca ← load ns_tcp_cong_list (l_next g);
  o ← load ca (objs g);
  Ok (String.substring 0 16 (o_name o)).

(** [snprintf(buf + offs, maxlen - offs, "%s%s", ...)] on a buffer of [maxlen]
    bytes that holds [buf] up to [offs]: the size is an unsigned 32-bit
    difference. *)
Definition append_name (maxlen : Z) (name : string) (st : string * Z) : outcome (string * Z) :=
  let '(buf, offs) := st in
  let s := (if offs =? 0 then "" else " ") +:+ name in
  let len := Z.of_nat (String.length s) in
  let size := maxlen ⊖ offs in
  if size =? 0 then Ok (buf, u32 (offs + len))
  else if maxlen <? offs then Trap OutOfBounds
  else Ok (buf +:+ String.substring 0 (Z.to_nat (size - 1)) s, u32 (offs + len)).

Definition tcp_get_available_congestion_control (maxlen : Z) (g : registry) : outcome string :=
  '(buf, _) ← list_for_each (fun ca st =>
      o ← load ca (objs g);
      st ← append_name maxlen (o_name o) st;
      Ok (st, false)) (""%string, 0) (l_next g);
  Ok buf.

Definition tcp_get_allowed_congestion_control (maxlen : Z) (g : registry) : outcome string :=
  '(buf, _) ← list_for_each (fun ca st =>
      o ← load ca (objs g);
      if nz (Z.land (o_flags o) TCP_CONG_NON_RESTRICTED) then
        st ← append_name maxlen (o_name o) st; Ok (st, false)
      else Ok (st, false)) (""%string, 0) (l_next g);
  Ok buf.

(** The names of a list separated by single spaces, up to the first empty one
    ([while ((name = strsep(&val, " ")) && *name)]). *)
Fixpoint split_spaces (s : string) : list string :=
  match s with
  | EmptyString => [""%string]
  | String c s' =>
      if Ascii.eqb c " "%char then ""%string :: split_spaces s'
      else match split_spaces s' with
           | w :: ws => String c w :: ws
           | [] => [String c ""]
           end
  end.
Fixpoint until_empty (l : list string) : list string :=
  match l with
  | [] => []
  | w :: l' => if String.eqb w "" then [] else w :: until_empty l'
  end.

(** The three passes: every name known; all flags cleared; the names marked. *)
Fixpoint all_known (names : list string) (g : registry) : outcome bool :=
  match names with
  | [] => Ok true
  | w :: names' =>
      ca ← tcp_ca_find w g;
      match ca with Some _ => all_known names' g | None => Ok false end
  end.
Definition clear_flags (g : registry) : outcome registry :=
  o ← list_for_each (fun ca objs =>
        o ← load ca objs;
        Ok (<[ca := o <| o_flags := Z.land (o_flags o) (Z.lnot TCP_CONG_NON_RESTRICTED) |>]> objs, false))
      (objs g) (l_next g);
  Ok (g <| objs := o |>).
Fixpoint mark_names (names : list string) (g : registry) : outcome registry :=
  match names with
  | [] => Ok g
  | w :: names' =>
      ca ← tcp_ca_find w g;
      g ← (match ca with Some ca => or_flags ca TCP_CONG_NON_RESTRICTED g | None => Ok g end);
      mark_names names' g
  end.
Definition tcp_set_allowed_congestion_control (val : string) (g : registry)
  : outcome (Z * registry) :=
  let names := until_empty (split_spaces val) in
  known ← all_known names g;
  if known : bool then
    g ← clear_flags g;
    g ← mark_names names g;
    Ok (0, g)
  else Ok (- ENOENT, g).

(** The module of a socket: [try_module_get] is 0 and [capable] is 1. *)
Definition try_module_get : bool := false.
Definition tcp_set_congestion_control (name : string) (icsk_ca_ops : option ptr) (g : registry)
  : outcome (Z * option ptr) :=
  ca ← tcp_ca_find name g;
  if bool_decide (ca = icsk_ca_ops) then Ok (0, icsk_ca_ops)
  else
    match ca with
    | None => Ok (- ENOENT, icsk_ca_ops)
    | Some ca => if negb try_module_get then Ok (- EBUSY, icsk_ca_ops) else Ok (0, Some ca)
    end.

(** ** CongestionControlManager *)

Record manager := mk_manager { ops_list : list ptr }.

Definition scan (tcp_reno : ptr) (g : registry) : outcome (manager * registry) :=
  l ← list_for_each (fun e l => Ok (l ++ [e], false)) [] (l_next g);
  Ok (mk_manager (tcp_reno :: l), g <| cc_list_changed := false |>).

Fixpoint find_ops (name : string) (l : list ptr) (g : registry) : outcome (option ptr) :=
  match l with
  | [] => Ok None
  | e :: l' => o ← load e (objs g); if String.eqb name (o_name o) then Ok (Some e) else find_ops name l' g
  end.

Definition get_ops (tcp_reno : ptr) (name : string) (m : manager) (g : registry)
  : outcome (option ptr * manager * registry) :=
  '(m, g) ← (if cc_list_changed g then scan tcp_reno g else Ok (m, g));
  r ← find_ops name (ops_list m) g;
  Ok (r, m, g).

(** ** Specification: a plain list *)

(** From [x] through the elements [l] to [y], forwards and backwards. *)
Fixpoint linked (nx pv : gmap ptr ptr) (x : ptr) (l : list ptr) (y : ptr) : Prop :=
  match l with
  | [] => nx !! x = Some y /\ pv !! y = Some x
  | z :: l' => nx !! x = Some z /\ pv !! z = Some x /\ linked nx pv z l' y
  end.

(** The registry holds the list [l] of tables with distinct names. *)
Record represents (g : registry) (l : list ptr) : Prop := mk_represents {
  rp_linked : linked (l_next g) (l_prev g) ns_tcp_cong_list l ns_tcp_cong_list;
  rp_nodup : NoDup (ns_tcp_cong_list :: l);
  rp_objs : forall p, p ∈ l -> is_Some (objs g !! p);
  rp_length : Z.of_nat (length l) < 1073741824;
}.

Definition name_of (o : gmap ptr cong_ops) (p : ptr) : string := from_option o_name ""%string (o !! p).

Definition spec_find (o : gmap ptr cong_ops) (name : string) (l : list ptr) : option ptr :=
  List.find (fun p => String.eqb (name_of o p) name) l.

Inductive registry_op : Type :=
  | Register (ca : ptr)
  | Unregister (ca : ptr)
  | SetDefault (name : string)
  | GetOps (name : string).

(** What an operation answers: an error code, or a table. *)
Inductive answer : Type :=
  | Code (z : Z)
  | Table (p : option ptr).

(** The tables without the flags: no operation changes them. *)
Definition tables (o : gmap ptr cong_ops) : gmap ptr cong_ops := (fun c => c <| o_flags := 0 |>) <$> o.

(** The operations on the list, with the tables [T]. *)
Definition spec_op (tcp_reno : ptr) (T : gmap ptr cong_ops) (op : registry_op) (l : list ptr)
  : answer * list ptr :=
  match op with
  | Register ca =>
      match T !! ca with
      | Some c =>
          if negb (o_ssthresh c) || negb (o_cong_avoid c) then (Code (- EINVAL), l)
          else match spec_find T (o_name c) l with
               | Some _ => (Code (- EEXIST), l)
               | None => (Code 0, l ++ [ca])
               end
      | None => (Code 0, l)
      end
  | Unregister ca => (Code 0, filter (fun p => p <> ca) l)
  | SetDefault name =>
      match spec_find T name l with
      | Some ca => (Code 0, ca :: filter (fun p => p <> ca) l)
      | None => (Code (- ENOENT), l)
      end
  | GetOps name => (Table (spec_find T name (tcp_reno :: l)), l)
  end.

Definition run_op (tcp_reno : ptr) (op : registry_op) (st : manager * registry)
  : outcome (answer * (manager * registry)) :=
  let '(m, g) := st in
  match op with
  | Register ca => '(z, g) ← tcp_register_congestion_control ca g; Ok (Code z, (m, g))
  | Unregister ca => g ← tcp_unregister_congestion_control ca g; Ok (Code 0, (m, g))
  | SetDefault name => '(z, g) ← tcp_set_default_congestion_control name g; Ok (Code z, (m, g))
  | GetOps name => '(r, m, g) ← get_ops tcp_reno name m g; Ok (Table r, (m, g))
  end.

(** Sequences of operations. *)
Fixpoint spec_ops (tcp_reno : ptr) (T : gmap ptr cong_ops) (ops : list registry_op) (l : list ptr)
  : list answer * list ptr :=
  match ops with
  | [] => ([], l)
  | op :: ops' =>
      let '(x, l) := spec_op tcp_reno T op l in
      let '(xs, l) := spec_ops tcp_reno T ops' l in
      (x :: xs, l)
  end.
Fixpoint run_ops (tcp_reno : ptr) (ops : list registry_op) (st : manager * registry)
  : outcome (list answer * (manager * registry)) :=
  match ops with
  | [] => Ok ([], st)
  | op :: ops' =>
      '(x, st) ← run_op tcp_reno op st;
      '(xs, st) ← run_ops tcp_reno ops' st;
      Ok (x :: xs, st)
  end.

(** The modules register tables of their own, and unregister what they
    registered. *)
Fixpoint valid_ops (tcp_reno : ptr) (T : gmap ptr cong_ops) (ops : list registry_op) (l : list ptr) : Prop :=
  match ops with
  | [] => True
  | op :: ops' =>
      match op with
      | Register ca => is_Some (T !! ca) /\ ca <> ns_tcp_cong_list /\ Z.of_nat (length l) < 1073741823
      | Unregister ca => ca ∈ l
      | _ => True
      end
      /\ valid_ops tcp_reno T ops' (spec_op tcp_reno T op l).2
  end.

(** The registry [g] and the manager's cache stand for the list [l] of tables
    [T]: the cache is stale only when the flag says so. *)
Record refines (tcp_reno : ptr) (T : gmap ptr cong_ops) (m : manager) (g : registry) (l : list ptr)
  : Prop := mk_refines {
  rf_represents : represents g l;
  rf_tables : tables (objs g) = T;
  rf_reno : is_Some (objs g !! tcp_reno);
  rf_cached : cc_list_changed g = false -> ops_list m = tcp_reno :: l;
}.

(** ** An example: an empty list, and the tables of Reno, Vegas and Veno *)

Definition registry_ex : registry :=
  mk_registry (<[ns_tcp_cong_list := ns_tcp_cong_list]> ∅) (<[ns_tcp_cong_list := ns_tcp_cong_list]> ∅)
    (<[2%positive := mk_cong_ops "reno" 1 true true]>
      (<[3%positive := mk_cong_ops "vegas" 0 true true]>
        (<[4%positive := mk_cong_ops "veno" 0 true true]> ∅)))
    ns_tcp_cong_list true.

(** The same with Vegas and Veno in the list. *)
Definition registry_ex2 : registry :=
  mk_registry (list_to_map [(ns_tcp_cong_list, 3%positive); (3%positive, 4%positive); (4%positive, ns_tcp_cong_list)])
    (list_to_map [(3%positive, ns_tcp_cong_list); (4%positive, 3%positive); (ns_tcp_cong_list, 4%positive)])
    (objs registry_ex) 4%positive true.

(** Vegas and Veno are registered, Vegas is refused a second time; Veno is made
    the default, found, and removed. *)
Definition registry_run_ex : list registry_op :=
  [Register 3%positive; Register 4%positive; Register 3%positive; SetDefault "veno"; GetOps "veno";
   Unregister 4%positive; GetOps "reno"; GetOps "veno"].

(** * Lemmas *)

Lemma load_ok {A} p (m : gmap ptr A) v : m !! p = Some v -> load p m = Ok v.
Proof. unfold load. by intros ->. Qed.

(** ** Linked segments *)

Lemma linked_app nx pv x l1 z l2 y :
  linked nx pv x (l1 ++ z :: l2) y <-> linked nx pv x l1 z /\ linked nx pv z l2 y.
Proof.
  revert x. induction l1 as [|w l1 IH]; intros x; cbn [app linked]; [tauto|]. rewrite IH. tauto.
Qed.

Lemma linked_snoc nx pv x l z y :
  linked nx pv x (l ++ [z]) y <-> linked nx pv x l z /\ nx !! z = Some y /\ pv !! y = Some z.
Proof. by rewrite linked_app. Qed.

(** A segment reads the forward links of all but its end, the backward links of
    all but its start. *)
Lemma linked_ext nx pv nx' pv' x l y :
  (forall p, p ∈ x :: l -> nx' !! p = nx !! p) -> (forall p, p ∈ y :: l -> pv' !! p = pv !! p) ->
  linked nx pv x l y -> linked nx' pv' x l y.
Proof.
  revert x. induction l as [|z l IH]; intros x Hn Hp; cbn [linked].
  - by rewrite Hn, Hp by by left.
  - intros (H1 & H2 & H3). rewrite Hn, Hp by set_solver. split; [done|split; [done|]].
    apply IH; [set_solver|set_solver|done].
Qed.

Lemma linked_first nx pv x l y : linked nx pv x l y -> exists z, nx !! x = Some z /\ z = default y (head l).
Proof. destruct l; cbn; [intros [? _]|intros (? & _)]; by eexists. Qed.

Lemma linked_last nx pv x l y : linked nx pv x l y -> exists z, pv !! y = Some z /\ z = default x (last l).
Proof.
  destruct l as [|w l' _] using rev_ind; [intros [_ ?]; by eexists|].
  rewrite linked_snoc, last_snoc. intros (_ & _ & ?). by eexists.
Qed.

(** ** The loop *)

Fixpoint fold_stop {S} (body : ptr -> S -> outcome (S * bool)) (l : list ptr) (s : S) : outcome S :=
  match l with
  | [] => Ok s
  | p :: l' => '(s, stop) ← body p s; if stop : bool then Ok s else fold_stop body l' s
  end.

(** How many elements there are from [p] on. *)
Fixpoint suffix_len (p : ptr) (l : list ptr) : nat :=
  match l with
  | [] => 0
  | q :: l' => if decide (q = p) then Datatypes.S (length l') else suffix_len p l'
  end.

Lemma suffix_len_app h l1 l2 :
  NoDup (h :: l1 ++ l2) -> suffix_len (default h (head l2)) (l1 ++ l2) = length l2.
Proof.
  intros [Hh Hn]%NoDup_cons. induction l1 as [|q l1 IH]; cbn [app suffix_len] in *.
  - destruct l2 as [|p l2]; cbn; [done|]. by rewrite decide_True.
  - apply NoDup_cons in Hn as [Hq Hn]. rewrite decide_False; [apply IH; [set_solver|done]|].
    intros ->. destruct l2 as [|p l2]; cbn in *; set_solver.
Qed.

(** On a linked list the loop is the fold over its elements. *)
Lemma for_each_ok {S} (body : ptr -> S -> outcome (S * bool)) s s' g l :
  represents g l -> fold_stop body l s = Ok s' -> list_for_each body s (l_next g) = Ok s'.
Proof.
  intros [Hl Hn _ Hlen] Hfold.
  enough (H : returns (list_for_each body s (l_next g)) (fun r => r = s'))
    by (apply returns_inv in H as (r & -> & ->); done).
  unfold list_for_each.
  destruct (linked_first _ _ _ _ _ Hl) as (z & Hz & Ez). rewrite (load_ok _ _ _ Hz). c_ret.
  eapply returns_bind.
  - apply (c_while_rule (fun '(pos, r, stop) =>
      if stop : bool then r = s'
      else exists l1 l2, l = l1 ++ l2 /\ pos = default ns_tcp_cong_list (head l2)
           /\ fold_stop body l2 r = Ok s')
      (fun '(pos, _, stop) => if stop : bool then 0 else 1 + Z.of_nat (suffix_len pos l))).
    + intros [[pos r] stop] Hs Hc. apply andb_true_iff in Hc as [Hst Hp].
      destruct stop; [done|]. clear Hst. apply negb_true_iff, bool_decide_eq_false in Hp.
      destruct Hs as (l1 & l2 & -> & -> & Hf). rewrite suffix_len_app by done.
      destruct l2 as [|p l2]; [done|]. cbn [default head from_option id fold_stop] in Hp, Hf |- *.
      destruct (body p r) as [[r2 stop]|]; [|done]. cbn in Hf. c_ret. destruct stop.
      { injection Hf as ->. cbn. split; [done|lia]. }
      apply linked_app in Hl as [_ Hl]. destruct (linked_first _ _ _ _ _ Hl) as (w & Hw & Ew).
      rewrite (load_ok _ _ _ Hw). c_ret. cbn [returns]. split.
      { exists (l1 ++ [p]), l2. rewrite <- app_assoc. done. }
      replace (l1 ++ p :: l2) with ((l1 ++ [p]) ++ l2) by by rewrite <- app_assoc.
      rewrite Ew, suffix_len_app by (by rewrite <- app_assoc). cbn [length]. lia.
    + exists [], l. by rewrite Ez.
    + rewrite Ez. replace l with ([] ++ l) at 2 by done. rewrite suffix_len_app by done. lia.
  - intros [[pos r] stop] [Hs Hc]. cbn [returns].
    destruct stop; [done|]. destruct Hs as (l1 & l2 & -> & Hpos & Hf).
    destruct l2 as [|p l2]; [by injection Hf|]. exfalso. cbn in Hpos. subst pos.
    cbn in Hc. apply negb_false_iff, bool_decide_eq_true in Hc. subst p.
    apply NoDup_cons in Hn as [Hn _]. apply Hn. set_solver.
Qed.

(** ** Changing the links *)

(** The end of a segment is redirected to [n]. *)
Lemma linked_redirect nx pv x l y n p :
  linked nx pv x l y -> NoDup (x :: l) -> n ∉ l -> p = default x (last l) ->
  linked (<[p := n]> nx) (<[n := p]> pv) x l n.
Proof.
  intros Hl Hn Hnl ->. destruct l as [|z l _] using rev_ind; cbn [linked last].
  { cbn. by rewrite !lookup_insert_eq. }
  rewrite last_snoc in *. cbn [default from_option id]. apply linked_snoc in Hl as (Hl & _ & _).
  rewrite linked_snoc, !lookup_insert_eq. split; [|done].
  rewrite app_comm_cons in Hn. apply NoDup_app in Hn as (_ & Hn & _).
  eapply linked_ext; [| |exact Hl]; intros q Hq; apply lookup_insert_ne.
  - intros ->. apply (Hn q Hq). set_solver.
  - set_solver.
Qed.

(** The start of a segment is redirected to [a]. *)
Lemma linked_restart nx pv x l y a n :
  linked nx pv x l y -> NoDup (y :: l) -> a ∉ l -> n = default y (head l) ->
  linked (<[a := n]> nx) (<[n := a]> pv) a l y.
Proof.
  intros Hl Hn Ha ->. destruct l as [|z l]; cbn [linked head default from_option id] in *.
  { by rewrite !lookup_insert_eq. }
  destruct Hl as (_ & _ & Hl). rewrite !lookup_insert_eq. split; [done|split; [done|]].
  eapply linked_ext; [| |exact Hl]; intros q Hq; apply lookup_insert_ne.
  - set_solver.
  - apply NoDup_cons in Hn as [Hy Hn]. apply NoDup_cons in Hn as [Hz _]. set_solver.
Qed.

Lemma list_add_ok a g l :
  represents g l -> a <> ns_tcp_cong_list -> a ∉ l -> is_Some (objs g !! a) ->
  Z.of_nat (length l) < 1073741823 ->
  returns (list_add_rcu a g) (fun g' => represents g' (a :: l) /\ objs g' = objs g
    /\ cc_list_changed g' = true).
Proof.
  intros [Hl Hn Ho _] Hh Ha Hoa Hlen. unfold list_add_rcu.
  destruct (linked_first _ _ _ _ _ Hl) as (n & Hn1 & En). rewrite (load_ok _ _ _ Hn1). c_ret. cbv zeta.
  rewrite (load_ok ns_tcp_cong_list _ n) by (cbn; by rewrite lookup_insert_ne). c_ret. cbn [returns].
  split; [|done]. constructor; cbn [l_next l_prev objs set_field]; [| | |cbn; lia].
  - assert (Han : a <> n) by (subst n; destruct l; cbn in *; set_solver).
    cbn [linked]. rewrite lookup_insert_eq. split; [done|].
    rewrite lookup_insert_ne, lookup_insert_eq by done. split; [done|].
    pose proof (linked_restart _ _ _ _ _ a n Hl Hn Ha En) as Hr.
    eapply linked_ext; [| |exact Hr]; intros q Hq.
    + rewrite lookup_insert_ne; [done|]. apply NoDup_cons in Hn as [Hn _]. set_solver.
    + destruct (decide (q = n)) as [->|Hqn]; [by rewrite !lookup_insert_eq|].
      rewrite !lookup_insert_ne by (done || set_solver). done.
  - apply NoDup_cons in Hn as [Hn1' Hn2]. apply NoDup_cons. split; [set_solver|by apply NoDup_cons].
  - intros p [->|Hp]%elem_of_cons; [done|by apply Ho].
Qed.

Lemma list_add_tail_ok a g l :
  represents g l -> a <> ns_tcp_cong_list -> a ∉ l -> is_Some (objs g !! a) ->
  Z.of_nat (length l) < 1073741823 ->
  returns (list_add_tail_rcu a g) (fun g' => represents g' (l ++ [a]) /\ objs g' = objs g
    /\ cc_list_changed g' = true).
Proof.
  intros [Hl Hn Ho _] Hh Ha Hoa Hlen. unfold list_add_tail_rcu.
  destruct (linked_last _ _ _ _ _ Hl) as (p & Hp & Ep). rewrite (load_ok _ _ _ Hp). c_ret. cbv zeta.
  rewrite (load_ok ns_tcp_cong_list _ p) by (cbn; by rewrite lookup_insert_ne). c_ret. cbn [returns].
  split; [|done]. constructor; cbn [l_next l_prev objs set_field]; [| | |rewrite length_app; cbn; lia].
  - assert (Hap : a <> p).
    { subst p. destruct (last l) as [w|] eqn:E; [|done]. cbn. apply last_Some_elem_of in E. set_solver. }
    rewrite linked_snoc, lookup_insert_eq, lookup_insert_ne, lookup_insert_eq by done. split; [|done].
    assert (Hr : linked (<[a := ns_tcp_cong_list]> (l_next g)) (l_prev g) ns_tcp_cong_list l ns_tcp_cong_list).
    { eapply linked_ext; [| |exact Hl]; [|done]. intros q Hq. apply lookup_insert_ne. set_solver. }
    apply (linked_redirect _ _ _ _ _ a p) in Hr; [|done|done|done].
    eapply linked_ext; [| |exact Hr]; [done|]. intros q Hq. apply lookup_insert_ne.
    apply NoDup_cons in Hn as [Hn _]. set_solver.
  - apply NoDup_cons in Hn as [Hn1 Hn2]. apply NoDup_cons. split; [set_solver|].
    apply NoDup_app. split; [done|]. split; [set_solver|apply NoDup_singleton].
  - intros q [Hq| ->%list_elem_of_singleton]%elem_of_app; [by apply Ho|done].
Qed.

Lemma list_del_ok a g l1 l2 :
  represents g (l1 ++ a :: l2) ->
  returns (list_del_rcu a g) (fun g' => represents g' (l1 ++ l2) /\ objs g' = objs g
    /\ cc_list_changed g' = true).
Proof.
  intros [Hl Hn Ho Hlen]. unfold list_del_rcu. apply linked_app in Hl as [Hl1 Hl2].
  destruct (linked_last _ _ _ _ _ Hl1) as (p & Hp & Ep).
  destruct (linked_first _ _ _ _ _ Hl2) as (n & Hn1 & En).
  rewrite (load_ok _ _ _ Hp). c_ret. rewrite (load_ok _ _ _ Hn1). c_ret. cbv zeta.
  apply NoDup_cons in Hn as [Hh Hn]. apply NoDup_app in Hn as (Hd1 & Hd12 & Hd2).
  apply NoDup_cons in Hd2 as [Ha2 Hd2].
  assert (Ha1 : a ∉ l1) by (intros Hin; apply (Hd12 a Hin); set_solver).
  assert (Hpa : p <> a).
  { subst p. destruct (last l1) as [w|] eqn:E; cbn; [|set_solver]. apply last_Some_elem_of in E. set_solver. }
  rewrite (load_ok a (l_next (g <| l_next := <[p := n]> (l_next g) |>)) n) by (cbn; by rewrite lookup_insert_ne). c_ret.
  rewrite (load_ok a (l_prev (g <| l_next := <[p := n]> (l_next g) |>)) p) by done. c_ret. cbn [returns].
  assert (Hnl1 : n ∉ l1).
  { subst n. destruct l2 as [|w l2]; cbn; [set_solver|]. intros Hin. apply (Hd12 w Hin). set_solver. }
  assert (Hr : linked (<[p := n]> (l_next g)) (<[n := p]> (l_prev g)) ns_tcp_cong_list l1 n).
  { apply (linked_redirect _ _ _ _ a); [done| |done|done]. apply NoDup_cons. split; [set_solver|done]. }
  split; [|done]. constructor; cbn [l_next l_prev objs set_field].
  - destruct l2 as [|w l2]; cbn in En; subst n; [by rewrite app_nil_r|].
    apply linked_app. split; [done|]. destruct Hl2 as (_ & _ & Hl2).
    eapply linked_ext; [| |exact Hl2]; intros q Hq; apply lookup_insert_ne.
    + intros <-. subst p. destruct (last l1) as [v|] eqn:E; cbn in Hq; [|set_solver].
      apply last_Some_elem_of in E. apply (Hd12 v E). set_solver.
    + apply NoDup_cons in Hd2 as [Hw _]. set_solver.
  - apply NoDup_cons. split; [set_solver|]. apply NoDup_app. split; [done|]. split; [|done].
    intros q Hq1 Hq2. apply (Hd12 q Hq1). set_solver.
  - intros q Hq. apply Ho. set_solver.
  - rewrite length_app in *. cbn in Hlen. lia.
Qed.

Lemma list_move_ok a g l1 l2 :
  represents g (l1 ++ a :: l2) -> a <> ns_tcp_cong_list ->
  returns (list_move a g) (fun g' => represents g' (a :: l1 ++ l2) /\ objs g' = objs g
    /\ cc_list_changed g' = true).
Proof.
  intros Hr Hh. pose proof (rp_nodup _ _ Hr) as [_ Hd]%NoDup_cons. pose proof (rp_length _ _ Hr) as Hlen.
  unfold list_move. eapply returns_bind; [by apply (list_del_ok a g l1 l2)|].
  intros g2 (R2 & O2 & C2). rewrite <- O2. apply (list_add_ok a g2 (l1 ++ l2)); try done.
  - apply NoDup_app in Hd as (_ & Hd12 & Hd2). apply NoDup_cons in Hd2 as [Ha _].
    intros [Hin|Hin]%elem_of_app; [|done]. apply (Hd12 a Hin). set_solver.
  - rewrite O2. apply (rp_objs _ _ Hr). set_solver.
  - rewrite length_app in *. cbn in Hlen. lia.
Qed.

(** ** The operations *)

Lemma name_of_tables o p : name_of (tables o) p = name_of o p.
Proof. unfold name_of, tables. rewrite lookup_fmap. by destruct (o !! p). Qed.

Lemma spec_find_tables o name l : spec_find (tables o) name l = spec_find o name l.
Proof. unfold spec_find. induction l as [|p l IH]; cbn; [done|]. rewrite name_of_tables, IH. done. Qed.

Lemma spec_find_in o name l p : spec_find o name l = Some p -> p ∈ l.
Proof. intros H%List.find_some. apply list_elem_of_In, H. Qed.

Lemma tcp_ca_find_ok name g l :
  represents g l -> tcp_ca_find name g = Ok (spec_find (objs g) name l).
Proof.
  intros Hr. unfold tcp_ca_find. apply (for_each_ok _ _ _ _ l Hr).
  pose proof (rp_objs _ _ Hr) as Ho. clear Hr. induction l as [|p l IH]; [done|].
  cbn [fold_stop spec_find List.find]. destruct (Ho p) as [o Eo]; [set_solver|].
  rewrite (load_ok _ _ _ Eo). c_ret. unfold name_of at 1. rewrite Eo. cbn [from_option].
  destruct (String.eqb (o_name o) name); [done|]. apply IH. intros q Hq. apply Ho. set_solver.
Qed.

Lemma find_ops_ok name L g :
  (forall p, p ∈ L -> is_Some (objs g !! p)) -> find_ops name L g = Ok (spec_find (objs g) name L).
Proof.
  intros Ho. induction L as [|p L IH]; [done|]. cbn [find_ops spec_find List.find].
  destruct (Ho p) as [o Eo]; [set_solver|]. rewrite (load_ok _ _ _ Eo). c_ret.
  unfold name_of at 1. rewrite Eo, String.eqb_sym. cbn [from_option].
  destruct (String.eqb (o_name o) name); [done|]. apply IH. intros q Hq. apply Ho. set_solver.
Qed.

Lemma scan_ok tcp_reno g l :
  represents g l -> scan tcp_reno g = Ok (mk_manager (tcp_reno :: l), g <| cc_list_changed := false |>).
Proof.
  intros Hr. unfold scan.
  assert (H : forall acc, fold_stop (fun e l => Ok (l ++ [e], false)) l acc = Ok (acc ++ l)).
  { clear. induction l as [|p l IH]; intros acc; cbn [fold_stop]; [by rewrite app_nil_r|].
    c_ret. by rewrite IH, <- app_assoc. }
  by rewrite (for_each_ok _ _ _ _ l Hr (H [])).
Qed.

Lemma represents_ext g g' l :
  represents g l -> l_next g' = l_next g -> l_prev g' = l_prev g ->
  (forall p, is_Some (objs g !! p) -> is_Some (objs g' !! p)) -> represents g' l.
Proof. intros [] E1 E2 Ho. constructor; rewrite ?E1, ?E2; auto. Qed.

Lemma filter_without (a : ptr) l1 l2 :
  NoDup (l1 ++ a :: l2) -> filter (fun p => p <> a) (l1 ++ a :: l2) = l1 ++ l2.
Proof.
  intros Hn. assert (Hid : forall l : list ptr, a ∉ l -> filter (fun p => p <> a) l = l).
  { induction l as [|p l IH]; intros Hl; [done|]. rewrite filter_cons_True by set_solver.
    rewrite IH; set_solver. }
  apply NoDup_app in Hn as (_ & Hd & Hn). apply NoDup_cons in Hn as [Ha _].
  rewrite filter_app, filter_cons_False by (intros H; by apply H).
  rewrite !Hid; [done|done|]. intros Hin. apply (Hd a Hin). set_solver.
Qed.

Lemma or_flags_ok ca bits g l T :
  represents g l -> tables (objs g) = T -> is_Some (objs g !! ca) ->
  returns (or_flags ca bits g) (fun g' => represents g' l /\ tables (objs g') = T
    /\ (forall p, is_Some (objs g !! p) -> is_Some (objs g' !! p))
    /\ cc_list_changed g' = cc_list_changed g).
Proof.
  intros Hr HT [o Eo]. unfold or_flags. rewrite (load_ok _ _ _ Eo). c_ret. cbn [returns].
  assert (Hsome : forall p, is_Some (objs g !! p) ->
    is_Some (<[ca := o <| o_flags := Z.lor (o_flags o) bits |>]> (objs g) !! p)).
  { intros p Hp. destruct (decide (p = ca)) as [->|Hne]; [by rewrite lookup_insert_eq|].
    by rewrite lookup_insert_ne by done. }
  split; [by apply (represents_ext g)|]. split; [|done]. rewrite <- HT. unfold tables.
  cbn [objs set_field]. rewrite fmap_insert. apply insert_id. rewrite lookup_fmap, Eo. done.
Qed.

Lemma tables_lookup o T p : tables o = T -> is_Some (o !! p) <-> is_Some (T !! p).
Proof. intros <-. unfold tables. by rewrite lookup_fmap, fmap_is_Some. Qed.

Section Ops.
Variables (tcp_reno : ptr) (T : gmap ptr cong_ops).
Local Abbreviation refines := (refines tcp_reno T).
Local Abbreviation spec_op := (spec_op tcp_reno T).

(** A change of the list that raises the flag. *)
Lemma refines_changed m g g' l l' :
  refines m g l -> represents g' l' -> tables (objs g') = T ->
  cc_list_changed g' = true -> refines m g' l'.
Proof.
  intros [_ HT Hr _] Hr' HT' Hc. constructor; try done; [|congruence].
  by rewrite (tables_lookup _ T), <- (tables_lookup (objs g)).
Qed.

Lemma register_ok m g l ca :
  refines m g l -> is_Some (T !! ca) -> ca <> ns_tcp_cong_list -> Z.of_nat (length l) < 1073741823 ->
  returns (run_op tcp_reno (Register ca) (m, g)) (fun '(x, (m', g')) =>
    x = (spec_op (Register ca) l).1 /\ refines m' g' (spec_op (Register ca) l).2).
Proof.
  intros Hf Hca Hh Hlen. pose proof Hf as [Hr HT Hre Hc]. cbn [run_op Registry.spec_op].
  unfold tcp_register_congestion_control.
  destruct (proj2 (tables_lookup _ _ ca HT) Hca) as [o Eo].
  assert (ET : T !! ca = Some (o <| o_flags := 0 |>)) by (rewrite <- HT; unfold tables; by rewrite lookup_fmap, Eo).
  rewrite (load_ok _ _ _ Eo), ET. c_ret. cbn [o_ssthresh o_cong_avoid o_name set_field].
  case_cond; [by split|]. rewrite (tcp_ca_find_ok _ _ l Hr). c_ret. rewrite <- HT, spec_find_tables.
  destruct (spec_find (objs g) (o_name o) l) eqn:Ef; [by split|].
  assert (Hnl : ca ∉ l).
  { intros Hin%list_elem_of_In. pose proof (List.find_none _ _ Ef ca Hin) as Hno. cbn in Hno.
    unfold name_of in Hno. rewrite Eo in Hno. cbn in Hno. by rewrite String.eqb_refl in Hno. }
  eapply returns_bind.
  - eapply returns_bind; [by apply (list_add_tail_ok ca g l)|]. intros g' Hg'.
    apply (returns_Ok (A := Z * registry) (0, g') (fun '(z, g') => z = 0 /\ represents g' (l ++ [ca]) /\ objs g' = objs g
      /\ cc_list_changed g' = true)). done.
  - intros [z g'] (-> & H1 & H2 & H3). split; [done|]. rewrite HT.
    apply (refines_changed m g g' l); done || congruence.
Qed.

Lemma unregister_ok m g l ca :
  refines m g l -> ca ∈ l ->
  returns (run_op tcp_reno (Unregister ca) (m, g)) (fun '(x, (m', g')) =>
    x = Code 0 /\ refines m' g' (filter (fun p => p <> ca) l)).
Proof.
  intros Hf Hca. pose proof Hf as [Hr HT Hre Hc]. cbn [run_op].
  apply list_elem_of_split in Hca as (l1 & l2 & ->).
  rewrite filter_without by (by destruct (proj1 (NoDup_cons _ _) (rp_nodup _ _ Hr))).
  eapply returns_bind; [by apply (list_del_ok ca g l1 l2)|]. intros g' (H1 & H2 & H3).
  split; [done|]. apply (refines_changed m g g' (l1 ++ ca :: l2)); done || congruence.
Qed.

Lemma set_default_ok m g l name :
  refines m g l ->
  returns (run_op tcp_reno (SetDefault name) (m, g)) (fun '(x, (m', g')) =>
    x = (spec_op (SetDefault name) l).1 /\ refines m' g' (spec_op (SetDefault name) l).2).
Proof.
  intros Hf. pose proof Hf as [Hr HT Hre Hc]. cbn [run_op Registry.spec_op].
  unfold tcp_set_default_congestion_control. rewrite (tcp_ca_find_ok _ _ l Hr). c_ret.
  rewrite <- HT, spec_find_tables. destruct (spec_find (objs g) name l) as [ca|] eqn:Ef.
  2: { split; [done|]. by rewrite HT. }
  apply spec_find_in in Ef as Hin. cbn [fst snd]. rewrite HT.
  assert (Hh : ca <> ns_tcp_cong_list) by (pose proof (rp_nodup _ _ Hr) as [Hd _]%NoDup_cons; set_solver).
  apply list_elem_of_split in Hin as (l1 & l2 & ->).
  rewrite filter_without by (by destruct (proj1 (NoDup_cons _ _) (rp_nodup _ _ Hr))).
  assert (Hoca : is_Some (objs g !! ca)) by (apply (rp_objs _ _ Hr); set_solver).
  eapply returns_bind.
  - eapply returns_bind; [by apply (or_flags_ok ca _ g (l1 ++ ca :: l2) T)|].
    intros g1 (R1 & T1 & O1 & C1).
    eapply returns_bind; [apply (list_move_ok ca g1 l1 l2); auto|].
    intros g3 (R3 & O3 & C3).
    apply (returns_Ok (A := Z * registry) (0, g3) (fun '(z, g') => z = 0 /\ represents g' (ca :: l1 ++ l2)
      /\ tables (objs g') = T /\ cc_list_changed g' = true)).
    by rewrite O3.
  - intros [z g'] (-> & H1 & H2 & H3). split; [done|].
    by apply (refines_changed m g g' (l1 ++ ca :: l2)).
Qed.

Lemma get_ops_ok m g l name :
  refines m g l ->
  returns (run_op tcp_reno (GetOps name) (m, g)) (fun '(x, (m', g')) =>
    x = (spec_op (GetOps name) l).1 /\ refines m' g' l).
Proof.
  intros [Hr HT Hre Hc]. cbn [run_op Registry.spec_op]. unfold get_ops.
  assert (Hall : forall p, p ∈ tcp_reno :: l -> is_Some (objs g !! p)).
  { intros p [->|Hp]%elem_of_cons; [done|by apply (rp_objs _ _ Hr)]. }
  rewrite <- HT, spec_find_tables.
  destruct (cc_list_changed g) eqn:Ec.
  - rewrite (scan_ok tcp_reno g l Hr). c_ret. cbn [ops_list].
    rewrite find_ops_ok by done. c_ret. split; [done|].
    constructor; try done. by apply (represents_ext g).
  - c_ret. rewrite Hc by done. rewrite find_ops_ok by done. c_ret. split; [done|].
    constructor; try done. intros _. by apply Hc.
Qed.
End Ops.

Lemma run_op_ok tcp_reno T m g l op ops :
  refines tcp_reno T m g l -> valid_ops tcp_reno T (op :: ops) l ->
  returns (run_op tcp_reno op (m, g)) (fun '(x, (m', g')) =>
    x = (spec_op tcp_reno T op l).1 /\ refines tcp_reno T m' g' (spec_op tcp_reno T op l).2).
Proof.
  intros Hf [Hv _]. destruct op as [ca|ca|name|name].
  - destruct Hv as (H1 & H2 & H3). by apply register_ok.
  - by apply (unregister_ok tcp_reno T m g l ca).
  - by apply set_default_ok.
  - eapply returns_mono; [by apply get_ops_ok|]. by intros [x [m' g']].
Qed.

(** ** The list of names *)

Lemma string_app_assoc (s t u : string) : s +:+ (t +:+ u) = (s +:+ t) +:+ u.
Proof.
  induction s as [|c s IH]; [done|].
  change (String c (s +:+ (t +:+ u)) = String c ((s +:+ t) +:+ u)). by rewrite IH.
Qed.

Lemma concat_snoc l w :
  String.concat " " (l ++ [w]) = match l with [] => w | _ => String.concat " " l +:+ " " +:+ w end.
Proof.
  induction l as [|v l IH]; [done|]. destruct l as [|u l]; [done|].
  change (String.concat " " ((v :: u :: l) ++ [w])) with (v +:+ " " +:+ String.concat " " ((u :: l) ++ [w])).
  rewrite IH. change (String.concat " " (v :: u :: l)) with (v +:+ " " +:+ String.concat " " (u :: l)).
  by rewrite <- !string_app_assoc.
Qed.

Lemma length_app_string s t : String.length (s +:+ t) = (String.length s + String.length t)%nat.
Proof.
  induction s as [|c s IH]; [done|].
  change (Datatypes.S (String.length (s +:+ t)) = Datatypes.S (String.length s + String.length t)).
  by rewrite IH.
Qed.

Lemma substring_all n s : (String.length s <= n)%nat -> String.substring 0 n s = s.
Proof.
  revert n. induction s as [|c s IH]; intros [|n] Hn; cbn in *; try done; [lia|]. rewrite IH; [done|lia].
Qed.

Lemma concat_length_mono l1 l2 :
  (String.length (String.concat " " l1) <= String.length (String.concat " " (l1 ++ l2)))%nat.
Proof.
  induction l2 as [|w l2 IH] using rev_ind; [by rewrite app_nil_r|].
  rewrite app_assoc, concat_snoc. destruct (l1 ++ l2) as [|v l] eqn:E.
  - apply app_eq_nil in E as [-> ->]. cbn. lia.
  - rewrite !length_app_string. lia.
Qed.

Lemma append_name_ok maxlen done_ w :
  (forall v, In v done_ -> v <> ""%string) ->
  let buf := String.concat " " done_ in
  let buf' := String.concat " " (done_ ++ [w]) in
  Z.of_nat (String.length buf') < maxlen < 4294967296 ->
  append_name maxlen w (buf, Z.of_nat (String.length buf)) = Ok (buf', Z.of_nat (String.length buf')).
Proof.
  intros Hne. cbv zeta. intros Hlen. unfold append_name.
  set (offs := Z.of_nat (String.length (String.concat " " done_))).
  assert (Hs : String.concat " " done_ +:+ ((if offs =? 0 then "" else " ") +:+ w) = String.concat " " (done_ ++ [w])).
  { rewrite concat_snoc. destruct done_ as [|v d]; [done|].
    assert (Hv : v <> ""%string) by (apply Hne; by left).
    assert (Hpos : offs =? 0 = false).
    { apply Z.eqb_neq. subst offs. pose proof (concat_length_mono [v] d) as Hm.
      change (String.concat " " [v]) with v in Hm. change ([v] ++ d) with (v :: d) in Hm.
      destruct v; [done|]. cbn [String.length] in Hm. lia. }
    by rewrite Hpos. }
  set (s := (if offs =? 0 then "" else " ") +:+ w) in *.
  rewrite <- Hs in *. rewrite length_app_string in *.
  assert (Hof : 0 <= offs < maxlen) by (subst offs; lia).
  rewrite u32_sub_id by lia.
  destruct (Z.eqb_spec (maxlen - offs) 0); [lia|]. destruct (Z.ltb_spec maxlen offs); [lia|].
  rewrite substring_all by lia. subst offs. rewrite u32_id by lia. do 2 f_equal. lia.
Qed.

(** * Properties *)

(** C36: the registry implements a list.  Through any sequence of registrations,
    removals, changes of the default and searches, the circular doubly linked
    list with its traversal macros, and the manager's cache of it, answer exactly
    as a plain list of tables does: a table without its required callbacks or with
    a name already taken is refused, another goes to the end, the default moves
    to the front, and a search (after which the cache is up to date) finds Reno
    first, then the registered table of that name. *)
Theorem registry_refines_list tcp_reno T ops m g l :
  refines tcp_reno T m g l -> valid_ops tcp_reno T ops l ->
  exists m' g', run_ops tcp_reno ops (m, g) = Ok ((spec_ops tcp_reno T ops l).1, (m', g'))
  /\ refines tcp_reno T m' g' (spec_ops tcp_reno T ops l).2.
Proof.
  revert m g l. induction ops as [|op ops IH]; intros m g l Hf Hv; [by exists m, g|].
  pose proof (run_op_ok tcp_reno T m g l op ops Hf Hv) as Hop. destruct Hv as [_ Hv].
  apply returns_inv in Hop as ([x [m1 g1]] & Hop & Hx & Hf1). cbn [run_ops spec_ops]. rewrite Hop. c_ret.
  destruct (spec_op tcp_reno T op l) as [x' l1]. cbn [fst snd] in *. subst x'.
  destruct (IH m1 g1 l1 Hf1 Hv) as (m2 & g2 & Hrun & Hf2). rewrite Hrun. c_ret.
  destruct (spec_ops tcp_reno T ops l1) as [xs l2]. by exists m2, g2.
Qed.

(** The list of the available algorithms is their names, separated by
    spaces, when it fits in the buffer with its terminator. *)
Theorem available_names maxlen g l :
  represents g l -> (forall p, p ∈ l -> name_of (objs g) p <> ""%string) ->
  Z.of_nat (String.length (String.concat " " (name_of (objs g) <$> l))) < maxlen < 4294967296 ->
  tcp_get_available_congestion_control maxlen g = Ok (String.concat " " (name_of (objs g) <$> l)).
Proof.
  intros Hr Hne Hlen. unfold tcp_get_available_congestion_control.
  pose proof (rp_objs _ _ Hr) as Ho.
    assert (H : forall l2 l1, l = l1 ++ l2 ->
      fold_stop (fun ca st => o ← load ca (objs g); st ← append_name maxlen (o_name o) st; Ok (st, false)) l2
        (String.concat " " (name_of (objs g) <$> l1), Z.of_nat (String.length (String.concat " " (name_of (objs g) <$> l1))))
      = Ok (String.concat " " (name_of (objs g) <$> l), Z.of_nat (String.length (String.concat " " (name_of (objs g) <$> l))))).
    { induction l2 as [|p l2 IH]; intros l1 E; cbn [fold_stop]; [by rewrite E, app_nil_r|].
      destruct (Ho p) as [o Eo]; [set_solver|]. rewrite (load_ok _ _ _ Eo). c_ret.
      assert (En : o_name o = name_of (objs g) p) by (unfold name_of; by rewrite Eo).
      rewrite En, append_name_ok.
      - c_ret. specialize (IH (l1 ++ [p])). rewrite fmap_app in IH. cbn [fmap list_fmap] in IH.
        apply IH. by rewrite <- app_assoc.
      - intros v Hv%list_elem_of_In. apply list_elem_of_fmap in Hv as (q & -> & Hq). apply Hne. set_solver.
      - pose proof (concat_length_mono ((name_of (objs g) <$> l1) ++ [name_of (objs g) p]) (name_of (objs g) <$> l2)) as Hm.
        assert (E' : name_of (objs g) <$> l = ((name_of (objs g) <$> l1) ++ [name_of (objs g) p]) ++ (name_of (objs g) <$> l2))
          by (by rewrite E, fmap_app, fmap_cons, <- app_assoc).
        rewrite E' in Hlen. lia. }
  pose proof (for_each_ok _ _ _ _ l Hr (H l [] eq_refl)) as Hfor.
  change (String.concat " " (name_of (objs g) <$> [])) with ""%string in Hfor.
  change (Z.of_nat (String.length "")) with 0 in Hfor.
  by rewrite Hfor.
Qed.

(** The module of a socket can only be asked for, never changed, through
    tcp_set_congestion_control: [try_module_get] is defined as 0, and a registered
    algorithm other than the current one is answered with [-EBUSY]. *)
Theorem set_congestion_control_never name icsk_ca_ops g l :
  represents g l ->
  tcp_set_congestion_control name icsk_ca_ops g =
    Ok (if decide (spec_find (objs g) name l = icsk_ca_ops) then 0
        else match spec_find (objs g) name l with Some _ => - EBUSY | None => - ENOENT end, icsk_ca_ops).
Proof.
  intros Hr. unfold tcp_set_congestion_control. rewrite (tcp_ca_find_ok _ _ l Hr). c_ret.
  case_bool_decide as E; [by rewrite decide_True|]. rewrite decide_False by done.
  by destruct (spec_find (objs g) name l).
Qed.

(** ** Witnesses *)

Lemma registry_ex_refines : refines 2%positive (tables (objs registry_ex)) (mk_manager []) registry_ex [].
Proof.
  constructor; [|done|by eexists|done].
  constructor; [done|apply NoDup_singleton| |done]. intros p Hp. by apply elem_of_nil in Hp.
Qed.

Lemma registry_refines_list_witness :
  exists m' g', run_ops 2%positive registry_run_ex (mk_manager [], registry_ex)
    = Ok ([Code 0; Code 0; Code (- EEXIST); Code 0; Table (Some 4%positive); Code 0;
           Table (Some 2%positive); Table None], (m', g'))
  /\ refines 2%positive (tables (objs registry_ex)) m' g' [3%positive].
Proof.
  apply (registry_refines_list 2%positive (tables (objs registry_ex)) registry_run_ex (mk_manager []) registry_ex []);
    [apply registry_ex_refines|].
  unfold registry_run_ex. cbn [valid_ops]. split_and!; try done; try (by eexists); try (by vm_compute).
  apply list_elem_of_here.
Defined.

(** The registry with Vegas and Veno. *)
Lemma registry_ex2_represents : represents registry_ex2 [3%positive; 4%positive].
Proof.
  constructor; [done|by apply (bool_decide_unpack _); vm_compute| |done].
  intros p Hp. repeat (apply elem_of_cons in Hp as [->|Hp]; [by eexists|]). by apply elem_of_nil in Hp.
Qed.

Lemma available_names_witness :
  tcp_get_available_congestion_control 64 registry_ex2 = Ok "vegas veno"%string.
Proof.
  apply (available_names 64 registry_ex2 [3%positive; 4%positive]); [apply registry_ex2_represents| |done].
  intros p Hp. repeat (apply elem_of_cons in Hp as [->|Hp]; [done|]). by apply elem_of_nil in Hp.
Defined.

Lemma set_congestion_control_never_witness :
  tcp_set_congestion_control "veno" (Some 2%positive) registry_ex2 = Ok (- EBUSY, Some 2%positive).
Proof.
  apply (set_congestion_control_never "veno" (Some 2%positive) registry_ex2 [3%positive; 4%positive]).
  apply registry_ex2_represents.
Defined.


