(* ===== verification/Doubles.v ===== *)
(** Finite IEEE doubles: every one is a whole multiple of 2^-1074, and is
    represented by that integer.  Operations round the exact result to 53
    significant bits, ties to even; results of 2^1024 and above, which would be
    infinite, are left out. *)
From S2P Require Import Prelude.

(** * Definitions *)

(** The double 1.0, and the conversion of an [int]. *)
Definition one : Z := 2 ^ 1074.
Definition of_int (n : Z) : Z := n * one.

(** [n / d] to the nearest integer, a tie to the even one. *)
Definition half_even (n d : Z) : Z :=
  let q := n / d in
  let r := n mod d in
  if 2 * r <? d then q else if d <? 2 * r then q + 1 else if Z.even q then q else q + 1.

(** [n / d] to the nearest double. *)
Definition fround_pos (n d : Z) : Z :=
  let e := Z.max 0 (Z.log2 (n / d) - 52) in
  half_even n (d * 2 ^ e) * 2 ^ e.
Definition fround (n d : Z) : Z := if n <? 0 then - fround_pos (- n) d else fround_pos n d.

Definition fadd (a b : Z) : Z := fround (a + b) 1.
Definition fsub (a b : Z) : Z := fround (a - b) 1.
Definition fmul (a b : Z) : Z := fround (a * b) one.
(** for a positive divisor *)
Definition fdiv (a b : Z) : Z := fround (a * one) b.
(** of a number that is not negative: the last bit says whether the root is inexact *)
Definition fsqrt (a : Z) : Z :=
  let s := Z.sqrt (a * one) in
  fround (2 * s + (if s * s =? a * one then 0 else 1)) 2.

(** The integers that are doubles. *)
Definition double (z : Z) : Prop := exists m e, 0 <= e /\ Z.abs m <= 2 ^ 53 /\ z = m * 2 ^ e.

(** * Lemmas *)

Lemma one_pos : 0 < one.
Proof. reflexivity. Qed.
Lemma one_big : 2 ^ 60 <= one.
Proof. unfold one. apply Z.pow_le_mono_r; lia. Qed.
#[global] Opaque one.

Lemma half_even_spec n d :
  0 < d -> 2 * d * half_even n d - d <= 2 * n <= 2 * d * half_even n d + d
  /\ (2 * n = 2 * d * half_even n d - d \/ 2 * n = 2 * d * half_even n d + d -> Z.even (half_even n d) = true).
Proof.
  intros Hd. unfold half_even. pose proof (Z.div_mod n d ltac:(lia)) as E.
  pose proof (Z.mod_pos_bound n d Hd) as Hr. set (q := n / d) in *. set (r := n mod d) in *. clearbody q r.
  case_cond; [split; [nia|intros [?|?]; exfalso; nia]|]. case_cond; [split; [nia|intros [?|?]; exfalso; nia]|].
  assert (2 * r = d) by lia. case_cond; [split; [nia|done]|].
  split; [nia|]. intros _. rewrite Z.even_add. by rewrite Hc1.
Qed.

Lemma half_even_mono n1 n2 d : 0 < d -> n1 <= n2 -> half_even n1 d <= half_even n2 d.
Proof.
  intros Hd Hn. destruct (half_even_spec n1 d Hd) as [H1 T1]. destruct (half_even_spec n2 d Hd) as [H2 T2].
  set (a := half_even n1 d) in *. set (b := half_even n2 d) in *. clearbody a b.
  destruct (Z.le_gt_cases a b) as [|Hlt]; [done|exfalso].
  assert (a = b + 1) by nia. subst a.
  assert (E1 : Z.even (b + 1) = true) by (apply T1; left; nia).
  assert (E2 : Z.even b = true) by (apply T2; right; nia).
  rewrite Z.even_add, E2 in E1. done.
Qed.

Lemma half_even_exact m d : 0 < d -> half_even (m * d) d = m.
Proof.
  intros Hd. unfold half_even. rewrite Z.div_mul, Z.mod_mul by lia. case_cond; [done|lia].
Qed.

(** The exponent of a number and its bounds. *)
Lemma exponent_spec q :
  0 <= q ->
  let e := Z.max 0 (Z.log2 q - 52) in
  0 <= e /\ q < 2 ^ 53 * 2 ^ e /\ (0 < e -> 2 ^ 52 * 2 ^ e <= q).
Proof.
  intros Hq e. split; [lia|]. rewrite <- !Z.pow_add_r by lia.
  destruct (Z.eq_dec q 0) as [->|]; [subst e; split; [apply Z.pow_pos_nonneg; lia|cbn; lia]|].
  destruct (Z.log2_spec q) as [H1 H2]; [lia|]. split.
  - eapply Z.lt_le_trans; [exact H2|]. apply Z.pow_le_mono_r; lia.
  - intros He. etransitivity; [|exact H1]. apply Z.pow_le_mono_r; lia.
Qed.

Lemma fround_pos_bounds n d :
  0 <= n -> 0 < d ->
  let e := Z.max 0 (Z.log2 (n / d) - 52) in
  0 <= half_even n (d * 2 ^ e) <= 2 ^ 53 /\ (0 < e -> 2 ^ 52 <= half_even n (d * 2 ^ e)).
Proof.
  intros Hn Hd. destruct (exponent_spec (n / d)) as (He & H1 & H2); [by apply Z.div_pos|].
  set (e := Z.max 0 _) in *. cbv zeta. clearbody e.
  assert (Hp : 0 < 2 ^ e) by (apply Z.pow_pos_nonneg; lia). set (p := 2 ^ e) in *. clearbody p.
  assert (Hdp : 0 < d * p) by nia.
  split; [split|].
  - rewrite <- (half_even_exact 0 (d * p)) by done. apply half_even_mono; lia.
  - rewrite <- (half_even_exact (2 ^ 53) (d * p)) by done. apply half_even_mono; [done|].
    pose proof (Z.mul_succ_div_gt n d Hd). nia.
  - intros He'. rewrite <- (half_even_exact (2 ^ 52) (d * p)) by done. apply half_even_mono; [done|].
    pose proof (Z.mul_div_le n d Hd). specialize (H2 He'). nia.
Qed.

Lemma fround_pos_mono n1 n2 d : 0 < d -> 0 <= n1 <= n2 -> fround_pos n1 d <= fround_pos n2 d.
Proof.
  intros Hd Hn. unfold fround_pos.
  destruct (fround_pos_bounds n1 d) as [B1 _]; [lia..|]. destruct (fround_pos_bounds n2 d) as [B2 L2]; [lia..|].
  assert (Hq : n1 / d <= n2 / d) by (apply Z.div_le_mono; lia).
  set (e1 := Z.max 0 (Z.log2 (n1 / d) - 52)) in *. set (e2 := Z.max 0 (Z.log2 (n2 / d) - 52)) in *.
  assert (He : 0 <= e1 <= e2) by (pose proof (Z.log2_le_mono _ _ Hq); subst e1 e2; lia).
  destruct (Z.eq_dec e1 e2) as [E|Hne].
  - rewrite E in *. apply Z.mul_le_mono_nonneg_r; [apply Z.pow_nonneg; lia|].
    apply half_even_mono; [|lia]. apply Z.mul_pos_pos; [done|apply Z.pow_pos_nonneg; lia].
  - assert (E2 : 2 ^ e2 = 2 * 2 ^ e1 * 2 ^ (e2 - e1 - 1)).
    { rewrite <- Z.mul_assoc, <- Z.pow_add_r, <- Z.pow_succ_r by lia. f_equal. lia. }
    assert (0 < 2 ^ e1) by (apply Z.pow_pos_nonneg; lia). assert (0 < 2 ^ (e2 - e1 - 1)) by (apply Z.pow_pos_nonneg; lia).
    specialize (L2 ltac:(lia)). set (a := half_even n1 _) in *. set (b := half_even n2 _) in *. clearbody a b.
    etransitivity; [apply Z.mul_le_mono_nonneg_r; [lia|apply B1]|].
    transitivity (2 ^ 52 * 2 ^ e2); [|apply Z.mul_le_mono_nonneg_r; lia].
    rewrite E2. change (2 ^ 53) with (2 ^ 52 * 2). nia.
Qed.

Lemma fround_pos_nonneg n d : 0 <= n -> 0 < d -> 0 <= fround_pos n d.
Proof.
  intros Hn Hd. unfold fround_pos. destruct (fround_pos_bounds n d Hn Hd) as [[B _] _].
  apply Z.mul_nonneg_nonneg; [done|]. apply Z.pow_nonneg. lia.
Qed.

(** Rounding is monotone. *)
Lemma fround_mono n1 n2 d : 0 < d -> n1 <= n2 -> fround n1 d <= fround n2 d.
Proof.
  intros Hd Hn. unfold fround. do 2 case_cond.
  - pose proof (fround_pos_mono (- n2) (- n1) d Hd). lia.
  - pose proof (fround_pos_nonneg (- n1) d). pose proof (fround_pos_nonneg n2 d). lia.
  - lia.
  - apply fround_pos_mono; lia.
Qed.

(** The relative error is at most 2^-53, the absolute error of a small result at
    most one half. *)
Lemma fround_pos_error n d :
  0 <= n -> 0 < d -> 2 ^ 53 * Z.abs (d * fround_pos n d - n) <= Z.max (2 ^ 52 * d) n.
Proof.
  intros Hn Hd. unfold fround_pos. destruct (exponent_spec (n / d)) as (He & H1 & H2); [by apply Z.div_pos|].
  set (e := Z.max 0 _) in *. clearbody e.
  assert (Hp : 0 < 2 ^ e) by (apply Z.pow_pos_nonneg; lia).
  assert (He0 : e = 0 -> 2 ^ e = 1) by by intros ->.
  destruct (half_even_spec n (d * 2 ^ e)) as [H _]; [nia|]. set (h := half_even n _) in *.
  set (p := 2 ^ e) in *. clearbody p h.
  assert (Herr : 2 * Z.abs (d * (h * p) - n) <= d * p) by nia.
  change (2 ^ 53) with (2 ^ 52 * 2). destruct (Z.eq_dec e 0) as [->|].
  - rewrite He0 in Herr by done. nia.
  - specialize (H2 ltac:(lia)). pose proof (Z.mul_div_le n d Hd). nia.
Qed.

Lemma fround_error n d : 0 < d -> 2 ^ 53 * Z.abs (d * fround n d - n) <= Z.max (2 ^ 52 * d) (Z.abs n).
Proof.
  intros Hd. unfold fround. case_cond.
  - pose proof (fround_pos_error (- n) d). replace (d * - _ - n) with (- (d * fround_pos (- n) d - - n)) by lia.
    rewrite Z.abs_opp. replace (Z.abs n) with (- n) by lia. apply H; lia.
  - replace (Z.abs n) with n by lia. apply fround_pos_error; lia.
Qed.

(** A double is not rounded. *)
Lemma fround_pos_exact z d : 0 <= z -> 0 < d -> double z -> fround_pos (z * d) d = z.
Proof.
  intros Hz Hd0 (m & e & He & Hm & E). unfold fround_pos. rewrite Z.div_mul by lia.
  set (e' := Z.max 0 _).
  assert (Hd : exists k, z = k * 2 ^ e').
  { assert (0 < 2 ^ e) by (apply Z.pow_pos_nonneg; lia).
    destruct (Z.eq_dec m (2 ^ 53)) as [->|].
    - assert (z = 2 ^ (53 + e)) by (rewrite Z.pow_add_r; lia).
      assert (El : Z.log2 z = 53 + e) by (rewrite H0; apply Z.log2_pow2; lia).
      exists (2 ^ 52). rewrite <- Z.pow_add_r by lia. subst e'. rewrite H0 at 1. f_equal. lia.
    - assert (0 <= m < 2 ^ 53) by nia.
      assert (e' <= e).
      { subst e'. destruct (Z.eq_dec z 0) as [->|]; [cbn; lia|].
        assert (Z.log2 z < 53 + e); [|lia]. apply Z.log2_lt_pow2; [lia|]. rewrite Z.pow_add_r by lia. nia. }
      exists (m * 2 ^ (e - e')). rewrite <- Z.mul_assoc, <- Z.pow_add_r by lia.
      replace (e - e' + e') with e by lia. done. }
  assert (Hp : 0 < 2 ^ e') by (apply Z.pow_pos_nonneg; lia).
  destruct Hd as [k Hk]. rewrite Hk at 1. rewrite <- Z.mul_assoc, (Z.mul_comm (2 ^ e') d), half_even_exact; [by rewrite <- Hk|].
  nia.
Qed.

Lemma fround_pos_double z : 0 <= z -> double z -> fround_pos z 1 = z.
Proof. intros Hz Hd. rewrite <- (Z.mul_1_r z) at 1. by apply fround_pos_exact. Qed.

Lemma double_opp z : double (- z) -> double z.
Proof. intros (m & e & He & Hm & E). exists (- m), e. split_and!; lia. Qed.

Lemma fround_double z : double z -> fround z 1 = z.
Proof.
  intros Hz. unfold fround. case_cond; [|apply fround_pos_double; [lia|done]].
  rewrite fround_pos_double; [lia|lia|]. apply double_opp. by rewrite Z.opp_involutive.
Qed.

(** What is rounded is a double. *)
Lemma fround_is_double n d : 0 < d -> double (fround n d).
Proof.
  intros Hd. assert (H : forall n, 0 <= n -> double (fround_pos n d)).
  { intros k Hk. destruct (fround_pos_bounds k d Hk Hd) as [B _]. do 2 eexists.
    split; [|split; [|reflexivity]]; lia. }
  unfold fround. case_cond; [|apply H; lia]. apply double_opp. rewrite Z.opp_involutive. apply H. lia.
Qed.

(** Adding a delay that is not negative never goes back. *)
Lemma fadd_ge a b : double a -> 0 <= b -> a <= fadd a b.
Proof.
  intros Ha Hb. rewrite <- (fround_double a) at 1 by done. apply fround_mono; lia.
Qed.

Lemma double_0 : double 0.
Proof. exists 0, 0. done. Qed.

Lemma double_small z : Z.abs z <= 2 ^ 53 -> double z.
Proof. intros Hz. exists z, 0. split_and!; lia. Qed.
Lemma double_pow2 k : 0 <= k -> double (2 ^ k).
Proof. intros Hk. exists 1, k. split_and!; [done|done|lia]. Qed.

(** A result is at least a double below it. *)
Lemma fround_ge z n d : 0 <= z -> double z -> 0 < d -> z * d <= n -> z <= fround n d.
Proof.
  intros Hz Hdz Hd Hn. rewrite <- (fround_pos_exact z d) at 1 by done.
  unfold fround. case_cond; [nia|]. apply fround_pos_mono; nia.
Qed.
