(* ===== verification/EventQueue.v ===== *)
(** The event scheduler (common/scheduler.cc, common/scheduler.h): what a
    simulator needs of its queue of events, the simplest queue (ListScheduler),
    and the loop that dispatches the events, over any queue. *)
From stdpp Require Import gmap sorting.
From S2P Require Import Prelude Doubles.

(** * Definitions *)

(** ** Events *)

(** An event object, known by its address; its time is a double. *)
Record event := mk_event {
  e_addr : Z;
  e_handler : Z;
  e_time : Z;
  e_uid : Z;
}.
#[global] Instance eta_event : Eta event := fun r => mk_event (e_addr r) (e_handler r) (e_time r) (e_uid r).
#[global] Instance event_eq_dec : EqDecision event.
Proof. solve_decision. Defined.

(** A cancelled or dispatched event keeps its uid, negated. *)
Definition retire (e : event) : event := e <| e_uid := - e_uid e |>.

(** What a scheduler class implements: the pure virtual functions of Scheduler. *)
Class EventQueue (Q : Type) := {
  eq_init : Q;
  eq_insert : event -> Q -> outcome Q;
  eq_deque : Q -> outcome (option event * Q);
  eq_cancel : event -> Q -> outcome (Q * event);
  eq_lookup : Z -> Q -> outcome (option event * Q);
}.

(** ** ListScheduler *)

Fixpoint list_insert (e : event) (l : list event) : list event :=
  match l with
  | [] => [e]
  | x :: l' => if e_time e <? e_time x then e :: l else x :: list_insert e l'
  end.

Definition list_deque (l : list event) : option event * list event :=
  match l with [] => (None, []) | e :: l => (Some e, l) end.

(** From the head, the pointer to the event; aborts at the end of the list. *)
Fixpoint list_unlink (a : Z) (l : list event) : outcome (list event) :=
  match l with
  | [] => Trap AssertFail
  | x :: l => if e_addr x =? a then Ok l else l ← list_unlink a l; Ok (x :: l)
  end.

Definition list_cancel (e : event) (l : list event) : outcome (list event * event) :=
  if e_uid e <=? 0 then Ok (l, e) else l ← list_unlink (e_addr e) l; Ok (l, retire e).

Fixpoint list_find (uid : Z) (l : list event) : option event :=
  match l with
  | [] => None
  | x :: l => if e_uid x =? uid then Some x else list_find uid l
  end.

#[global] Instance ListScheduler : EventQueue (list event) := {
  eq_init := [];
  eq_insert e l := Ok (list_insert e l);
  eq_deque l := Ok (list_deque l);
  eq_cancel := list_cancel;
  eq_lookup uid l := Ok (list_find uid l, l);
}.

(** ** Scheduler *)

(** What the handlers of events do: schedule the event at [a] with a handler,
    cancel it, cancel an event by its uid (the OTcl command), halt. *)
Inductive command : Type :=
  | CSchedule (h a delay : Z)
  | CCancel (a : Z)
  | CCancelUid (uid : Z)
  | CHalt.

(** The simulation: the queue, the clock, the static [uid_], the event objects,
    the state of the handlers, what is left of the commands of the handler that
    runs, and the events dispatched, the latest first. *)
Record sim (Q W : Type) := mk_sim {
  s_queue : Q;
  clock_ : Z;
  halted_ : bool;
  uid_ : Z;                   (* int64_t *)
  s_mem : gmap Z event;
  s_world : W;
  s_todo : list command;
  s_trace : list event;
}.
Arguments mk_sim {Q W}. Arguments s_queue {Q W}. Arguments clock_ {Q W}. Arguments halted_ {Q W}.
Arguments uid_ {Q W}. Arguments s_mem {Q W}. Arguments s_world {Q W}. Arguments s_todo {Q W}.
Arguments s_trace {Q W}.
#[global] Instance eta_sim Q W : Eta (sim Q W) := fun r =>
  mk_sim (s_queue r) (clock_ r) (halted_ r) (uid_ r) (s_mem r) (s_world r) (s_todo r) (s_trace r).

(** The object at [a]; a new event has [time_ = 0] and [uid_ = 0]. *)
Definition event_at {Q W} (a : Z) (s : sim Q W) : event :=
  match s_mem s !! a with Some e => e | None => mk_event a 0 0 0 end.

Section Scheduler.
Context {Q W : Type} `{!EventQueue Q} (handle : Z -> event -> W -> W * list command).
Local Abbreviation sim := (sim Q W).

Definition schedule (h a delay : Z) (s : sim) : outcome sim :=
  if h =? 0 then Trap AssertFail
  else if 0 <? e_uid (event_at a s) then Trap AssertFail
  else if uid_ s <? 0 then Trap AssertFail
  else
    let e := mk_event a h (fadd (clock_ s) delay) (uid_ s) in
    q ← eq_insert e (s_queue s);
    Ok (s <| s_queue := q |> <| uid_ := s64 (uid_ s + 1) |> <| s_mem := <[a := e]> (s_mem s) |>).

Definition cancel (e : event) (s : sim) : outcome sim :=
  '(q, e') ← eq_cancel e (s_queue s);
  Ok (s <| s_queue := q |> <| s_mem := <[e_addr e := e']> (s_mem s) |>).

(** the OTcl command [cancel] *)
Definition cancel_uid (uid : Z) (s : sim) : outcome sim :=
  '(o, q) ← eq_lookup uid (s_queue s);
  let s := s <| s_queue := q |> in
  match o with Some e => cancel e s | None => Ok s end.

Definition exec (c : command) (s : sim) : outcome sim :=
  match c with
  | CSchedule h a delay => schedule h a delay s
  | CCancel a => cancel (event_at a s) s
  | CCancelUid uid => cancel_uid uid s
  | CHalt => Ok (s <| halted_ := true |>)
  end.

Definition dispatch (p : event) (t : Z) (s : sim) : sim :=
  let '(w, cs) := handle t (retire p) (s_world s) in
  s <| clock_ := t |> <| s_mem := <[e_addr p := retire p]> (s_mem s) |>
    <| s_world := w |> <| s_todo := cs |> <| s_trace := p :: s_trace s |>.

(** One step of [run]: the handler goes on, or the next event is dispatched. *)
Definition step (s : sim) : outcome sim :=
  match s_todo s with
  | c :: cs => exec c (s <| s_todo := cs |>)
  | [] =>
      if halted_ s then Ok s
      else
        '(o, q) ← eq_deque (s_queue s);
        let s := s <| s_queue := q |> in
        match o with Some p => Ok (dispatch p (e_time p) s) | None => Ok s end
  end.

Fixpoint run (n : nat) (s : sim) : outcome sim :=
  match n with O => Ok s | S n => s ← step s; run n s end.

(** A new simulator, the script still to be executed. *)
Definition boot (w : W) (script : list command) : sim := mk_sim eq_init 0 false 1 ∅ w script [].
End Scheduler.

(** ** What is required of a queue *)

(** Earlier, or at the same time and scheduled first. *)
Definition ev_lt (x y : event) : Prop :=
  e_time x < e_time y \/ e_time x = e_time y /\ e_uid x < e_uid y.

(** The laws.  [q_inv k q]: the invariant after [k] insertions; [q_events] the
    events held.  The queue takes the times [q_time], up to [q_limit]
    insertions, and finds the next event when [q_fine]. *)
Class EventQueueOk (Q : Type) `{!EventQueue Q} := {
  q_inv : Z -> Q -> Prop;
  q_events : Q -> list event;
  q_time : Z -> Prop;
  q_limit : Z;
  q_fine : Q -> Prop;
  q_init_ok : q_inv 0 eq_init /\ q_events eq_init = [];
  q_insert_ok : forall k q e, q_inv k q -> 0 <= k < q_limit -> q_time (e_time e) ->
    (forall x, x ∈ q_events q -> e_addr x <> e_addr e /\ e_uid x < e_uid e) ->
    returns (eq_insert e q) (fun q' => q_inv (k + 1) q' /\ q_events q' ≡ₚ e :: q_events q);
  q_deque_ok : forall k q, q_inv k q -> q_fine q -> NoDup (e_uid <$> q_events q) ->
    returns (eq_deque q) (fun '(o, q') => q_inv k q' /\
      match o with
      | None => q_events q = [] /\ q_events q' = []
      | Some m => q_events q ≡ₚ m :: q_events q' /\ forall y, y ∈ q_events q' -> ev_lt m y
      end);
  q_cancel_ok : forall k q e, q_inv k q -> e ∈ q_events q -> 0 < e_uid e ->
    NoDup (e_addr <$> q_events q) ->  NoDup (e_uid <$> q_events q) ->
    returns (eq_cancel e q) (fun '(q', e') => q_inv k q' /\ e' = retire e /\ q_events q ≡ₚ e :: q_events q');
  q_cancel_idle : forall q e, e_uid e <= 0 -> eq_cancel e q = Ok (q, e);
  q_lookup_ok : forall k q uid, q_inv k q ->
    returns (eq_lookup uid q) (fun '(o, q') => q_inv k q' /\ q_events q' = q_events q /\
      match o with
      | Some e => e ∈ q_events q /\ e_uid e = uid
      | None => forall e, e ∈ q_events q -> e_uid e <> uid
      end);
}.

(** ** What the list keeps *)

Record sim_inv {W} (s : sim (list event) W) : Prop := mk_sim_inv {
  si_sorted : StronglySorted ev_lt (s_queue s);
  si_uids : forall e, e ∈ s_queue s -> 0 < e_uid e /\ (e_uid e < uid_ s \/ uid_ s < 0);
  si_addrs : NoDup (e_addr <$> s_queue s);
  si_nodup : NoDup (e_uid <$> s_queue s);
  si_mem : forall e, e ∈ s_queue s -> s_mem s !! e_addr e = Some e;
  si_back : forall a e, s_mem s !! a = Some e -> e_addr e = a /\ (0 < e_uid e -> e ∈ s_queue s);
  si_uid : 0 < uid_ s < 9223372036854775808 \/ uid_ s = - 9223372036854775808;
}.

Definition with_queue {Q Q' W} (q : Q') (s : sim Q W) : sim Q' W :=
  mk_sim q (clock_ s) (halted_ s) (uid_ s) (s_mem s) (s_world s) (s_todo s) (s_trace s).

(** The simulations [s], on any queue, and [t], on the list, agree. *)
Record agree {Q W} `{EventQueueOk Q} (s : sim Q W) (t : sim (list event) W) : Prop := mk_agree {
  ag_inv : exists k, q_inv k (s_queue s) /\ 0 <= k /\ (k < uid_ t \/ uid_ t < 0);
  ag_events : q_events (s_queue s) ≡ₚ s_queue t;
  ag_rest : s = with_queue (s_queue s) t;
  ag_list : sim_inv t;
}.

(** * Lemmas *)

(** ** The order of events *)

Lemma ev_lt_trans x y z : ev_lt x y -> ev_lt y z -> ev_lt x z.
Proof. unfold ev_lt. lia. Qed.
Lemma ev_lt_irrefl x : ~ ev_lt x x.
Proof. unfold ev_lt. lia. Qed.
Lemma ev_lt_total x y : e_uid x <> e_uid y -> ev_lt x y \/ ev_lt y x.
Proof. unfold ev_lt. lia. Qed.

Lemma sorted_remove (a b : list event) e :
  StronglySorted ev_lt (a ++ e :: b) -> StronglySorted ev_lt (a ++ b).
Proof.
  rewrite !StronglySorted_app. intros (H & Ha & Hb). apply StronglySorted_cons in Hb as [_ Hb].
  split_and!; [|done|done]. intros x y Hx Hy. apply H; [done|by right].
Qed.

Lemma sorted_uids (l : list event) : StronglySorted ev_lt l -> NoDup l.
Proof.
  induction 1 as [|x l Hl IH Hx]; constructor; [|done].
  intros Hin. rewrite Forall_forall in Hx. apply Hx in Hin. by apply ev_lt_irrefl in Hin.
Qed.

(** The first of a sorted list is its minimum. *)
Lemma sorted_min (l r : list event) m :
  StronglySorted ev_lt l -> l ≡ₚ m :: r -> (forall y, y ∈ r -> ev_lt m y) -> exists l', l = m :: l' /\ r ≡ₚ l'.
Proof.
  intros Hl Hp Hm. destruct l as [|x l']; [by apply Permutation_nil_cons in Hp|].
  assert (x = m) as ->.
  { assert (Hx : x ∈ m :: r) by (rewrite <- Hp; left).
    assert (Hm' : m ∈ x :: l') by (rewrite Hp; left).
    apply elem_of_cons in Hx as [|Hx]; [done|]. apply elem_of_cons in Hm' as [|Hm']; [done|].
    apply StronglySorted_cons in Hl as [Hl _]. rewrite Forall_forall in Hl.
    destruct (ev_lt_irrefl m). apply (ev_lt_trans _ x); [by apply Hm|by apply Hl]. }
  exists l'. split; [done|]. symmetry. by apply Permutation_cons_inv in Hp.
Qed.

(** ** The list *)

Lemma list_insert_perm e l : list_insert e l ≡ₚ e :: l.
Proof.
  induction l as [|x l IH]; cbn [list_insert]; [done|]. case_cond; [done|]. rewrite IH. by constructor.
Qed.

Lemma list_insert_sorted e l :
  StronglySorted ev_lt l -> (forall x, x ∈ l -> e_uid x < e_uid e) -> StronglySorted ev_lt (list_insert e l).
Proof.
  induction 1 as [|x l Hl IH Hx]; cbn [list_insert]; intros He; [by repeat constructor|].
  assert (Hxe : e_uid x < e_uid e) by (apply He; left). case_cond.
  - constructor; [by constructor|]. assert (ev_lt e x) by (left; lia). constructor; [done|].
    eapply Forall_impl; [exact Hx|]. intros y Hy. by eapply ev_lt_trans.
  - constructor; [apply IH; intros y Hy; apply He; by right|]. rewrite Forall_forall in *.
    intros y Hy. rewrite list_insert_perm in Hy. apply elem_of_cons in Hy as [->|Hy]; [|by apply Hx].
    unfold ev_lt. lia.
Qed.

Lemma key_inj (f : event -> Z) (l : list event) x y :
  NoDup (f <$> l) -> x ∈ l -> y ∈ l -> f x = f y -> x = y.
Proof.
  induction l as [|z l IH]; cbn; [by intros _ ?%elem_of_nil|]. intros [Hz Hl]%NoDup_cons Hx Hy E.
  apply elem_of_cons in Hx as [->|Hx]; apply elem_of_cons in Hy as [->|Hy]; [done| | |by apply IH].
  - destruct Hz. rewrite E. by apply list_elem_of_fmap_2.
  - destruct Hz. rewrite <- E. by apply list_elem_of_fmap_2.
Qed.

Lemma list_unlink_ok e l :
  NoDup (e_addr <$> l) -> e ∈ l -> exists a b, l = a ++ e :: b /\ list_unlink (e_addr e) l = Ok (a ++ b).
Proof.
  induction l as [|x l IH]; intros Hnd Hin; [by apply elem_of_nil in Hin|]. cbn [list_unlink].
  destruct (Z.eqb_spec (e_addr x) (e_addr e)) as [E|E].
  - assert (x = e) as -> by (apply (key_inj e_addr (x :: l)); [done|left|done|done]). by exists [], l.
  - apply elem_of_cons in Hin as [->|Hin]; [done|]. cbn in Hnd. apply NoDup_cons in Hnd as [_ Hnd].
    destruct (IH Hnd Hin) as (a & b & -> & E'). exists (x :: a), b. split; [done|]. by rewrite E'.
Qed.

Lemma list_find_ok uid l :
  match list_find uid l with
  | Some e => e ∈ l /\ e_uid e = uid
  | None => forall e, e ∈ l -> e_uid e <> uid
  end.
Proof.
  induction l as [|x l IH]; cbn [list_find]; [by intros e ?%elem_of_nil|].
  destruct (Z.eqb_spec (e_uid x) uid); [split; [left|done]|].
  revert IH. destruct (list_find uid l); [intros [? ?]; split; [by right|done]|].
  intros IH e [->|He]%elem_of_cons; [done|by apply IH].
Qed.

(** The list meets the laws. *)
#[global] Program Instance ListScheduler_ok : EventQueueOk (list event) := {
  q_inv k l := StronglySorted ev_lt l;
  q_events l := l;
  q_time t := True;
  q_limit := 9223372036854775808;
  q_fine l := True;
}.
Next Obligation. by split; [constructor|]. Qed.
Next Obligation.
  intros k l e Hl _ _ He. cbn. split; [|apply list_insert_perm]. apply list_insert_sorted; [done|]. naive_solver.
Qed.
Next Obligation.
  intros k l Hl _ _. cbn. destruct l as [|m l]; cbn; [done|]. apply StronglySorted_cons in Hl as [Hm Hl].
  split; [done|]. split; [done|]. by rewrite Forall_forall in Hm.
Qed.
Next Obligation.
  intros k l e Hl He Hu Ha _. cbn. unfold list_cancel. case_cond; [lia|].
  destruct (list_unlink_ok e l Ha He) as (a & b & -> & ->). cbn. split; [by eapply sorted_remove|].
  split; [done|]. by rewrite Permutation_middle.
Qed.
Next Obligation. intros l e He. cbn. unfold list_cancel. case_cond; [done|lia]. Qed.
Next Obligation. intros k l uid Hl. cbn. do 2 (split; [done|]). apply list_find_ok. Qed.

(** ** The simulation on the list and on another queue *)

Section Agree.
Context {Q W : Type} `{EventQueueOk Q} (handle : Z -> event -> W -> W * list command).
Implicit Types (s : sim Q W) (t : sim (list event) W).

(** The object at an address is free, or it is the queued one. *)
Lemma event_at_cases t a :
  sim_inv t -> e_addr (event_at a t) = a
  /\ (0 < e_uid (event_at a t) /\ event_at a t ∈ s_queue t
      \/ e_uid (event_at a t) <= 0 /\ forall x, x ∈ s_queue t -> e_addr x <> a).
Proof.
  intros [_ Hu _ _ Hm Hb _]. unfold event_at. destruct (s_mem t !! a) as [e|] eqn:E.
  - destruct (Hb a e E) as [Ha Hin]. split; [done|]. destruct (Z.lt_ge_cases 0 (e_uid e)); [left; auto|right].
    split; [done|]. intros x Hx <-. rewrite (Hm x Hx) in E. injection E as ->. apply Hu in Hx. lia.
  - split; [done|]. right. split; [cbn; lia|]. intros x Hx <-. by rewrite (Hm x Hx) in E.
Qed.

Lemma event_at_agree s t a : agree s t -> event_at a s = event_at a t.
Proof. intros [_ _ -> _]. done. Qed.

Lemma agree_nodup s t :
  agree s t -> NoDup (e_addr <$> q_events (s_queue s)) /\ NoDup (e_uid <$> q_events (s_queue s)).
Proof. intros [_ Hp _ []]. by rewrite Hp. Qed.

(** The next uid, or none. *)
Lemma next_uid u :
  0 < u < 9223372036854775808 ->
  s64 (u + 1) = u + 1 /\ u + 1 < 9223372036854775808 \/ s64 (u + 1) = - 9223372036854775808.
Proof.
  intros Hu. destruct (Z.eq_dec u 9223372036854775807) as [->|]; [right; reflexivity|left].
  split; [apply s64_id|]; lia.
Qed.

(** Writing an object that is not in the queue. *)
Lemma sim_inv_write t e :
  sim_inv t -> e_uid e <= 0 -> (forall x, x ∈ s_queue t -> e_addr x <> e_addr e) ->
  sim_inv (t <| s_mem := <[e_addr e := e]> (s_mem t) |>).
Proof.
  intros [] He Hx. constructor; cbn [s_queue s_mem uid_ set_field]; try done.
  - intros x Hin. rewrite lookup_insert_ne; [by apply si_mem0|]. intros E. by apply (Hx x).
  - intros a x [[<- <-]|[Hne Ha]]%lookup_insert_Some; [split; [done|lia]|by apply si_back0].
Qed.

(** Removing an event from the list. *)
Lemma sim_inv_remove t a b e :
  sim_inv t -> s_queue t = a ++ e :: b ->
  sim_inv (t <| s_queue := a ++ b |> <| s_mem := <[e_addr e := retire e]> (s_mem t) |>).
Proof.
  intros [Hs Hu Ha Hn Hm Hb Hi] E. rewrite E in *.
  assert (Hp : a ++ e :: b ≡ₚ e :: a ++ b) by (symmetry; apply Permutation_middle).
  assert (Hsub : forall x, x ∈ a ++ b -> x ∈ a ++ e :: b) by (intros x; rewrite Hp; by right).
  rewrite Hp in Ha, Hn. cbn in Ha, Hn. apply NoDup_cons in Ha as [Hae Ha]. apply NoDup_cons in Hn as [_ Hn].
  assert (He : e ∈ a ++ e :: b) by (rewrite Hp; left).
  assert (Hne : forall x, x ∈ a ++ b -> e_addr e <> e_addr x)
    by (intros x Hx Ea; apply Hae; rewrite Ea; by apply list_elem_of_fmap_2).
  constructor; cbn [s_queue s_mem uid_ set_field]; try done.
  - by eapply sorted_remove.
  - intros x Hx. by apply Hu, Hsub.
  - intros x Hx. rewrite lookup_insert_ne by by apply Hne. by apply Hm, Hsub.
  - intros c x [[<- <-]|[Hc Hx]]%lookup_insert_Some.
    + split; [done|]. apply Hu in He. unfold retire. cbn. lia.
    + destruct (Hb c x Hx) as [Hc' Hin]. split; [done|]. intros Hpos. specialize (Hin Hpos).
      rewrite Hp in Hin. apply elem_of_cons in Hin as [->|]; [done|done].
Qed.

Lemma schedule_agree s t t' h a delay :
  agree s t -> uid_ t <= q_limit -> schedule h a delay t = Ok t' ->
  (forall x, x ∈ s_queue t' -> q_time (e_time x)) ->
  returns (schedule h a delay s) (fun s' => agree s' t').
Proof.
  intros Hag Hlim Hs Ht. pose proof Hag as [(k & Hk & Hk0 & Hku) Hp Hr Ht0]. revert Hs. unfold schedule.
  rewrite (event_at_agree s t) by done. rewrite Hr at 1. cbn [uid_ clock_ with_queue].
  destruct (Z.eqb_spec h 0); [done|]. case_cond; [done|]. case_cond; [done|].
  change (eq_insert ?e (s_queue t)) with (Ok (list_insert e (s_queue t))). rewrite bind_Ok.
  assert (Eu : uid_ s = uid_ t) by (by rewrite Hr). assert (Ec : clock_ s = clock_ t) by (by rewrite Hr).
  rewrite Eu, Ec. set (e := mk_event _ _ _ _). intros [= <-].
  destruct (event_at_cases t a Ht0) as [_ [[? _]|[_ Hfree]]]; [lia|].
  pose proof Ht0 as [Hs0 Hu0 Ha0 Hn0 Hm0 Hb0 Hi0].
  assert (Hui : 0 < uid_ t < 9223372036854775808) by lia.
  cbn [s_queue set_field] in Ht.
  assert (Hlt : forall x, x ∈ s_queue t -> e_uid x < e_uid e) by (intros x Hx; apply Hu0 in Hx; cbn; lia).
  eapply returns_bind.
  { apply (q_insert_ok k); [done|lia|apply Ht; rewrite list_insert_perm; left|].
    intros x Hx. rewrite Hp in Hx. split; [by apply Hfree|by apply Hlt]. }
  intros q' [Hq' Hp']. cbn [returns]. constructor; cbn [s_queue uid_ set_field].
  - exists (k + 1). split; [done|]. split; [lia|]. destruct (next_uid _ Hui) as [[-> _]| ->]; lia.
  - rewrite Hp', Hp, list_insert_perm. done.
  - rewrite Hr. cbn. done.
  - constructor; cbn [s_queue s_mem uid_ set_field].
    + by apply list_insert_sorted.
    + intros x Hx. rewrite list_insert_perm in Hx. apply elem_of_cons in Hx as [->|Hx].
      * cbn. destruct (next_uid _ Hui) as [[-> _]| ->]; lia.
      * apply Hu0 in Hx. destruct (next_uid _ Hui) as [[-> _]| ->]; lia.
    + rewrite list_insert_perm. cbn. constructor; [|done]. intros (x & E & Hx)%list_elem_of_fmap.
      by apply (Hfree x).
    + rewrite list_insert_perm. cbn. constructor; [|done]. intros (x & E & Hx)%list_elem_of_fmap.
      apply Hlt in Hx. cbn in Hx. lia.
    + intros x Hx. rewrite list_insert_perm in Hx. apply elem_of_cons in Hx as [->|Hx]; [by rewrite lookup_insert_eq|].
      rewrite lookup_insert_ne; [by apply Hm0|]. intros E. by apply (Hfree x).
    + intros c x [[<- <-]|[Hne Hx]]%lookup_insert_Some; [split; [done|]; intros _; rewrite list_insert_perm; left|].
      destruct (Hb0 c x Hx) as [? Hin]. split; [done|]. intros Hpos. rewrite list_insert_perm. right. by apply Hin.
    + destruct (next_uid _ Hui) as [[-> ?]| ->]; lia.
Qed.

(** Cancelling a queued object, or one that is not queued. *)
Lemma cancel_agree s t e :
  agree s t ->
  (0 < e_uid e /\ e ∈ s_queue t \/ e_uid e <= 0 /\ forall x, x ∈ s_queue t -> e_addr x <> e_addr e) ->
  exists t', cancel e t = Ok t' /\ returns (cancel e s) (fun s' => agree s' t').
Proof.
  intros Hag Hcase. pose proof Hag as [(k & Hk & Hk0 & Hku) Hp Hr Ht0]. destruct (agree_nodup _ _ Hag) as [Hna Hnu].
  unfold cancel. destruct Hcase as [[Hpos Hin]|[Hle Hfree]].
  - pose proof Ht0 as [Hs0 Hu0 Ha0 Hn0 Hm0 Hb0 Hi0].
    destruct (list_unlink_ok e (s_queue t) Ha0 Hin) as (a & b & E & El).
    assert (Ec : eq_cancel e (s_queue t) = Ok (a ++ b, retire e)).
    { cbn. unfold list_cancel. case_cond; [lia|]. by rewrite El. }
    rewrite Ec, bind_Ok. eexists. split; [done|].
    eapply returns_bind; [apply (q_cancel_ok k); try done; by rewrite Hp|].
    intros [q' e'] (Hq' & -> & Hp'). cbn [returns]. constructor; cbn [s_queue uid_ set_field].
    + by exists k.
    + rewrite Hp, E in Hp'. rewrite <- Permutation_middle in Hp'. by apply Permutation_cons_inv in Hp'.
    + rewrite Hr. done.
    + by apply sim_inv_remove.
  - rewrite !q_cancel_idle, !bind_Ok by done. eexists. split; [done|]. cbn [returns].
    constructor; cbn [s_queue uid_ set_field]; [by exists k|done|by rewrite Hr|].
    destruct t. by apply sim_inv_write.
Qed.

Lemma cancel_uid_agree s t uid :
  agree s t -> exists t', cancel_uid uid t = Ok t' /\ returns (cancel_uid uid s) (fun s' => agree s' t').
Proof.
  intros Hag. pose proof Hag as [(k & Hk & Hk0 & Hku) Hp Hr Ht0].
  unfold cancel_uid. change (eq_lookup uid (s_queue t)) with (Ok (list_find uid (s_queue t), s_queue t)). rewrite bind_Ok.
  pose proof (list_find_ok uid (s_queue t)) as Hf. pose proof (q_lookup_ok k _ uid Hk) as Hl.
  apply returns_inv in Hl as ([o q'] & El & Hk' & Ee & Ho). rewrite El, bind_Ok.
  set (s1 := s <| s_queue := q' |>). assert (Hag1 : agree s1 t).
  { constructor; [by exists k|by cbn; rewrite Ee|by subst s1; rewrite Hr|done]. }
  assert (Hnd : NoDup (e_uid <$> s_queue t)) by apply Ht0.
  destruct o as [e|], (list_find uid (s_queue t)) as [e'|].
  - destruct Ho as [Ho Eu], Hf as [Hf Eu']. rewrite Hp in Ho.
    assert (e = e') as -> by (apply (key_inj e_uid (s_queue t)); done || congruence).
    destruct (cancel_agree s1 t e' Hag1) as (t' & Et & Hs'); [|exists t'; split; [by destruct t|done]].
    left. split; [|done]. by apply (si_uids t Ht0).
  - destruct Ho as [Ho Eu]. rewrite Hp in Ho. by destruct (Hf e Ho).
  - destruct Hf as [Hf Eu]. rewrite <- Hp in Hf. by destruct (Ho e' Hf).
  - exists t. split; [by destruct t|done].
Qed.

Lemma exec_agree s t t' c :
  agree s t -> uid_ t <= q_limit -> exec c t = Ok t' ->
  (forall x, x ∈ s_queue t' -> q_time (e_time x)) ->
  returns (exec c s) (fun s' => agree s' t').
Proof.
  intros Hag Hlim Hs Ht. destruct c as [h a d|a|uid|]; cbn [exec] in *.
  - by eapply schedule_agree.
  - rewrite (event_at_agree s t) by done. pose proof (ag_list s t Hag) as Hi.
    destruct (event_at_cases t a Hi) as [Ea Hc].
    destruct (cancel_agree s t (event_at a t) Hag) as (t1 & E & H'); [by rewrite Ea|]. rewrite Hs in E. by injection E as <-.
  - destruct (cancel_uid_agree s t uid Hag) as (t1 & E & H'). rewrite Hs in E. by injection E as <-.
  - injection Hs as <-. cbn [returns]. destruct Hag as [Hk Hp Hr []].
    constructor; [exact Hk|exact Hp|by rewrite Hr|by constructor].
Qed.

Lemma dispatch_inv t q' p :
  sim_inv t -> s_queue t = p :: q' -> sim_inv (dispatch handle p (e_time p) (t <| s_queue := q' |>)).
Proof.
  intros Ht E. pose proof (sim_inv_remove t [] q' p Ht E) as [].
  unfold dispatch. destruct (handle _ _ _) as [w cs]. by constructor.
Qed.

(** One step on the list is one step on the other queue. *)
Lemma step_agree s t t' :
  agree s t -> q_fine (s_queue s) -> uid_ t <= q_limit -> step handle t = Ok t' ->
  (forall x, x ∈ s_queue t' -> q_time (e_time x)) ->
  returns (step handle s) (fun s' => agree s' t').
Proof.
  intros Hag Hfine Hlim Hs Ht. pose proof Hag as [(k & Hk & Hk0 & Hku) Hp Hr Hi].
  assert (Etodo : s_todo s = s_todo t) by by rewrite Hr. assert (Eh : halted_ s = halted_ t) by by rewrite Hr.
  revert Hs. unfold step. rewrite Etodo, Eh. destruct (s_todo t) as [|c cs] eqn:Et.
  - destruct (halted_ t) eqn:Eht; [by intros [= <-]|].
    change (eq_deque (s_queue t)) with (Ok (list_deque (s_queue t))). rewrite bind_Ok. intros Hs.
    eapply returns_bind; [apply (q_deque_ok k); [done..|apply (agree_nodup s t Hag)]|].
    intros [o q'] [Hk' Ho]. destruct o as [m|].
    + destruct Ho as [Hq Hm]. rewrite Hp in Hq. destruct (sorted_min _ _ m (si_sorted t Hi) Hq Hm) as (l' & El & Hl').
      rewrite El in Hs. cbn [list_deque] in Hs. injection Hs as <-. cbn [returns].
      pose proof (dispatch_inv t l' m Hi El) as Hi'.
      rewrite Hr. revert Hi'. unfold dispatch. cbn [s_world with_queue set_field].
      destruct (handle _ _ _) as [w cs]. intros Hi'. constructor; [by exists k|exact Hl'|done|done].
    + destruct Ho as [Hq Hq']. rewrite Hq in Hp. apply Permutation_nil in Hp. rewrite Hp in Hs.
      cbn in Hs. injection Hs as <-. cbn [returns].
      constructor; [by exists k|cbn [s_queue set_field]; by rewrite Hq'|by rewrite Hr|]. rewrite <- Hp. by destruct t.
  - intros Hs. apply (exec_agree _ (t <| s_todo := cs |>)); [|exact Hlim|exact Hs|done].
    destruct Hi. constructor; [by exists k|done|by rewrite Hr|by constructor].
Qed.

(** All the way. *)
Lemma run_agree n s t t' :
  agree s t -> run handle n t = Ok t' ->
  (forall m tm, (m <= n)%nat -> run handle m t = Ok tm ->
     uid_ tm <= q_limit /\ forall x, x ∈ s_queue tm -> q_time (e_time x)) ->
  (forall m sm, (m < n)%nat -> run handle m s = Ok sm -> q_fine (s_queue sm)) ->
  returns (run handle n s) (fun s' => agree s' t').
Proof.
  revert s t. induction n as [|n IH]; intros s t Hag Hrun Ht Hf; cbn [run] in *; [by injection Hrun as <-|].
  destruct (step handle t) as [t1|] eqn:E1; [|done]. rewrite bind_Ok in Hrun.
  assert (H1 : returns (step handle s) (fun s' => agree s' t1)).
  { apply (step_agree s t); [done|by apply (Hf O); [lia|]|by apply (Ht O t); [lia|]|done|].
    apply (Ht 1%nat t1); [lia|]. cbn [run]. by rewrite E1. }
  apply returns_inv in H1 as (s1 & Es & Hag1). rewrite Es, bind_Ok.
  apply (IH s1 t1); [done|done| |].
  - intros m tm Hm Hr. apply (Ht (S m)); [lia|]. cbn [run]. by rewrite E1.
  - intros m sm Hm Hr. apply (Hf (S m)); [lia|]. cbn [run]. by rewrite Es.
Qed.

Lemma boot_agree w script : agree (boot w script : sim Q W) (boot w script).
Proof.
  destruct q_init_ok as [Hi He]. constructor; [exists 0; split; [done|cbn; lia]|cbn [s_queue boot]; by rewrite He|done|].
  constructor; cbn [boot s_queue s_mem uid_ eq_init ListScheduler]; try (by intros ? ?%elem_of_nil); [constructor..|done|lia].
Qed.
End Agree.

(** ** Reachable states *)

Section Reachable.
Context {W : Type} (handle : Z -> event -> W -> W * list command).
Implicit Types (t : sim (list event) W).

Lemma list_agree t : sim_inv t -> agree t t.
Proof.
  intros Hi. constructor; [|done|by destruct t|done]. exists 0. pose proof (si_uid t Hi). split; [apply Hi|]. lia.
Qed.

Lemma list_step_inv t t' : sim_inv t -> step handle t = Ok t' -> sim_inv t'.
Proof.
  intros Hi Hs. pose proof (si_uid t Hi).
  assert (Hr : returns (step handle t) (fun s => agree s t'))
    by (apply (step_agree handle t t t'); [by apply list_agree|done|cbn; lia|done|done]).
  rewrite Hs in Hr. apply Hr.
Qed.

Lemma list_cancel_uid e t t' : cancel e t = Ok t' -> uid_ t' <= uid_ t + 1.
Proof.
  unfold cancel. destruct (eq_cancel e (s_queue t)) as [[q e']|]; [|done]. rewrite bind_Ok. intros [= <-]. cbn. lia.
Qed.

Lemma list_exec_uid c t t' : sim_inv t -> exec c t = Ok t' -> uid_ t' <= uid_ t + 1.
Proof.
  intros Hi. destruct c as [h a d|a|uid|]; cbn [exec].
  - unfold schedule. do 3 (case_cond; [done|]). cbn [eq_insert ListScheduler]. rewrite bind_Ok. intros [= <-]. cbn.
    destruct (next_uid (uid_ t)) as [[-> _]| ->]; pose proof (si_uid t Hi); lia.
  - apply list_cancel_uid.
  - unfold cancel_uid. cbn [eq_lookup ListScheduler]. rewrite bind_Ok.
    destruct (list_find _ _) as [e|]; [|intros [= <-]; cbn; lia]. apply (list_cancel_uid e).
  - intros [= <-]. cbn. lia.
Qed.

Lemma list_step_uid t t' : sim_inv t -> step handle t = Ok t' -> uid_ t' <= uid_ t + 1.
Proof.
  intros Hi. unfold step. destruct (s_todo t) as [|c cs].
  - case_cond; [intros [= <-]; lia|]. cbn. destruct (s_queue t) as [|p q]; cbn; intros [= <-]; cbn; [lia|].
    unfold dispatch. destruct (handle _ _ _). cbn. lia.
  - intros Hs. apply list_exec_uid in Hs; [done|]. by destruct Hi.
Qed.

Lemma list_run_inv n t t' : sim_inv t -> run handle n t = Ok t' -> sim_inv t' /\ uid_ t' <= uid_ t + Z.of_nat n.
Proof.
  revert t. induction n as [|n IH]; intros t Hi; cbn [run]; [intros [= <-]; split; [done|lia]|].
  destruct (step handle t) as [t1|] eqn:E; [|done]. rewrite bind_Ok. intros Hr.
  pose proof (list_step_uid _ _ Hi E). apply IH in Hr as [? ?]; [split; [done|lia]|by eapply list_step_inv].
Qed.

Lemma boot_inv (w : W) script : sim_inv (boot w script).
Proof. apply (ag_list _ _ (boot_agree w script : agree (boot w script : sim (list event) W) _)). Qed.
End Reachable.

(** ** Errors are the same too *)

Section Simulates.
Context {Q W : Type} `{EventQueueOk Q} (handle : Z -> event -> W -> W * list command).

(** The outcome [x], on the queue, is the outcome [y] on the list: the same
    error, or a state that is the same but for the queue. *)
Definition same_outcome (x : outcome (sim Q W)) (y : outcome (sim (list event) W)) : Prop :=
  match y with
  | Ok t => exists q, x = Ok (with_queue q t) /\ q_events q ≡ₚ s_queue t
  | Trap f => x = Trap f
  end.

Lemma agree_same x t : returns x (fun s : sim Q W => agree s t) -> same_outcome x (Ok t).
Proof. intros (s & -> & [_ Hp Hr _])%returns_inv. exists (s_queue s). by rewrite <- Hr. Qed.

Lemma exec_trap (s : sim Q W) t c f : agree s t -> exec c t = Trap f -> exec c s = Trap f.
Proof.
  intros Hag. destruct c as [h a d|a|uid|]; cbn [exec]; [| | |done].
  - unfold schedule. rewrite (event_at_agree s t) by done. pose proof (ag_rest s t Hag) as Hr.
    assert (Eu : uid_ s = uid_ t) by (by rewrite Hr). rewrite Eu. do 3 (case_cond; [by intros [= <-]|]).
    cbn [eq_insert ListScheduler]. by rewrite bind_Ok.
  - destruct (event_at_cases t a (ag_list s t Hag)) as [Ea Hc].
    destruct (cancel_agree s t (event_at a t) Hag) as (t1 & -> & _); [by rewrite Ea|done].
  - by destruct (cancel_uid_agree s t uid Hag) as (t1 & -> & _).
Qed.

Lemma step_trap (s : sim Q W) t f : agree s t -> step handle t = Trap f -> step handle s = Trap f.
Proof.
  intros Hag. pose proof (ag_rest s t Hag) as Hr. assert (E : s_todo s = s_todo t) by (by rewrite Hr).
  unfold step. rewrite E. destruct (s_todo t) as [|c cs].
  - case_cond; [done|]. cbn. by destruct (s_queue t).
  - apply exec_trap. destruct Hag as [Hk Hp _ []]. constructor; [exact Hk|done|by rewrite Hr|by constructor].
Qed.

(** As [run_agree], with the errors. *)
Lemma run_same n s t :
  agree s t -> uid_ t + Z.of_nat n <= q_limit ->
  (forall m tm, (m <= n)%nat -> run handle m t = Ok tm -> forall x, x ∈ s_queue tm -> q_time (e_time x)) ->
  (forall m sm, (m < n)%nat -> run handle m s = Ok sm -> q_fine (s_queue sm)) ->
  same_outcome (run handle n s) (run handle n t).
Proof.
  revert s t. induction n as [|n IH]; intros s t Hag Hlim Ht Hf; cbn [run].
  { destruct Hag as [_ Hp Hr _]. exists (s_queue s). by rewrite <- Hr. }
  pose proof (ag_list _ _ Hag) as Hi. destruct (step handle t) as [t1|f] eqn:E1; [|by rewrite (step_trap s t f)].
  assert (H1 : returns (step handle s) (fun s' => agree s' t1)).
  { apply (step_agree handle s t); [done|by apply (Hf O); [lia|]|lia|done|].
    apply (Ht 1%nat t1); [lia|]. cbn [run]. by rewrite E1. }
  apply returns_inv in H1 as (s1 & Es & Hag1). rewrite Es, !bind_Ok.
  pose proof (list_step_uid handle _ _ Hi E1). apply IH; [done|lia| |].
  - intros m tm Hm Hr. apply (Ht (S m)); [lia|]. cbn [run]. by rewrite E1.
  - intros m sm Hm Hr. apply (Hf (S m)); [lia|]. cbn [run]. by rewrite Es.
Qed.

(** From the start. *)
Lemma boot_same n w script :
  Z.of_nat n < q_limit ->
  (forall m tm, (m <= n)%nat -> run handle m (boot w script : sim (list event) W) = Ok tm ->
     forall x, x ∈ s_queue tm -> q_time (e_time x)) ->
  (forall m sm, (m < n)%nat -> run handle m (boot w script : sim Q W) = Ok sm -> q_fine (s_queue sm)) ->
  same_outcome (run handle n (boot w script)) (run handle n (boot w script)).
Proof. intros Hn. apply run_same; [apply boot_agree|cbn; lia]. Qed.
End Simulates.
