(* ===== verification/Heap.v ===== *)
(** HeapScheduler (common/scheduler.cc, common/heap.h): a binary heap in an
    array that doubles when it is full, ties broken by a counter of insertions,
    as a queue of events. *)
From stdpp Require Import list sorting.
From S2P Require Import Prelude Doubles EventQueue.

(** * Definitions *)

Record heap_elem := mk_elem {
  he_key : Z;                 (* double *)
  he_s_key : Z;               (* unsigned long *)
  he_elem : option event;     (* void*, NULL in a new array *)
}.
#[global] Instance heap_elem_inhabited : Inhabited heap_elem := populate (mk_elem 0 0 None).

Record heap := mk_heap {
  h_elems : list heap_elem;
  h_s_key : Z;                (* unsigned int *)
  h_size : Z;                 (* unsigned int *)
  h_maxsize : Z;              (* unsigned int *)
  h_iter : Z;                 (* unsigned int *)
}.
#[global] Instance eta_heap : Eta heap := fun r =>
  mk_heap (h_elems r) (h_s_key r) (h_size r) (h_maxsize r) (h_iter r).

Definition HEAP_DEFAULT_SIZE : Z := 32.

(** A new array; its contents are not read before they are written. *)
Definition new_elems (n : Z) : list heap_elem := replicate (Z.to_nat n) (mk_elem 0 0 None).

Definition new_heap (size : Z) : heap := mk_heap (new_elems size) 0 0 size 0.

Definition parent (i : Z) : Z := (i ⊖ 1) / 2.
Definition left (i : Z) : Z := (i ⊗ 2) ⊕ 1.
Definition right (i : Z) : Z := (i ⊕ 1) ⊗ 2.

Definition swap (i j : Z) (l : list heap_elem) : outcome (list heap_elem) :=
  he ← aread l i;
  x ← aread l j;
  l ← awrite l i x;
  awrite l j he.

Definition KEY_LESS_THAN (k1 ks1 k2 ks2 : Z) : bool :=
  (k1 <? k2) || (k1 =? k2) && (ks1 <? ks2).
Definition elem_less (a b : heap_elem) : bool :=
  KEY_LESS_THAN (he_key a) (he_s_key a) (he_key b) (he_s_key b).

(** The position of an event, plus one; zero if it is not in the heap. *)
Definition heap_member (e : event) (h : heap) : outcome Z :=
  '(_, r) ← c_while (fun '(i, r) => (i <? h_size h) && (r =? 0))
    (fun '(i, r) =>
       x ← aread (h_elems h) i;
       Ok (i + 1, match he_elem x with
                  | Some y => if e_addr y =? e_addr e then i + 1 else 0
                  | None => 0
                  end))
    (0, 0);
  Ok r.

(** The way up from [i], the elements above the new one moved down. *)
Definition sift_up (key s_key i : Z) (l : list heap_elem) : outcome (Z * list heap_elem) :=
  c_whilem
    (fun '(i, l) =>
       if 0 <? i then
         p ← aread l (parent i); Ok (KEY_LESS_THAN key s_key (he_key p) (he_s_key p))
       else Ok false)
    (fun '(i, l) =>
       p ← aread l (parent i); l ← awrite l i p; Ok (parent i, l))
    (i, l).

Definition heap_insert (key : Z) (e : event) (h : heap) : outcome heap :=
  let h := if h_maxsize h =? h_size h then
             h <| h_maxsize := h_maxsize h ⊗ 2 |>
               <| h_elems := h_elems h ++ new_elems (h_maxsize h ⊗ 2 - h_size h) |>
           else h in
  let i := h_size h in
  '(i, l) ← sift_up key (h_s_key h) i (h_elems h);
  l ← awrite l i (mk_elem key (h_s_key h) (Some e));
  Ok (h <| h_size := h_size h ⊕ 1 |> <| h_s_key := h_s_key h ⊕ 1 |> <| h_elems := l |>).

(** The smaller child of [i], [i] itself if it has none. *)
Definition smaller_child (n i : Z) (l : list heap_elem) : outcome Z :=
  if right i <? n then
    a ← aread l (left i);
    b ← aread l (right i);
    Ok (if elem_less a b then left i else right i)
  else Ok (if left i <? n then left i else i).

(** The way down from [i]; the flag is the [break]. *)
Definition sift_down (n i : Z) (l : list heap_elem) : outcome (list heap_elem) :=
  '(_, l, _) ← c_while (fun '(i, l, stop) => (i <? n) && negb stop)
    (fun '(i, l, _) =>
       x ← smaller_child n i l;
       if x =? i then Ok (i, l, true)
       else
         a ← aread l x;
         b ← aread l i;
         if elem_less a b then l ← swap i x l; Ok (x, l, false) else Ok (i, l, true))
    (i, l, false);
  Ok l.

Definition heap_extract_min (h : heap) : outcome (option event * heap) :=
  if h_size h =? 0 then Ok (None, h)
  else
    min ← aread (h_elems h) 0;
    let n := h_size h - 1 in
    x ← aread (h_elems h) n;
    l ← awrite (h_elems h) 0 x;
    l ← sift_down n 0 l;
    Ok (he_elem min, h <| h_size := n |> <| h_elems := l |>).

(** [for (--i; i; i = parent(i)) swap(i, parent(i));] *)
Definition to_root (i : Z) (l : list heap_elem) : outcome (list heap_elem) :=
  '(_, l) ← c_while (fun '(i, _) => nz i) (fun '(i, l) => l ← swap i (parent i) l; Ok (parent i, l)) (i, l);
  Ok l.

Definition heap_delete (e : event) (h : heap) : outcome heap :=
  i ← heap_member e h;
  if i =? 0 then Ok h
  else
    l ← to_root (i - 1) (h_elems h);
    '(_, h) ← heap_extract_min (h <| h_elems := l |>);
    Ok h.

Definition heap_min (h : heap) : outcome (option event) :=
  if 0 <? h_size h then x ← aread (h_elems h) 0; Ok (he_elem x) else Ok None.

Definition heap_iter (h : heap) : outcome (option event * heap) :=
  if h_size h <=? h_iter h then Ok (None, h <| h_iter := 0 |>)
  else x ← aread (h_elems h) (h_iter h); Ok (he_elem x, h <| h_iter := h_iter h + 1 |>).

(** ** HeapScheduler *)

Definition heap_lookup (uid : Z) (h : heap) : outcome (option event * heap) :=
  e ← heap_min h;
  c_while (fun '(e, h) => match e with Some x => negb (e_uid x =? uid) | None => false end)
    (fun '(_, h) => heap_iter h)
    (e, h <| h_iter := 1 |>).

Definition heap_cancel (e : event) (h : heap) : outcome (heap * event) :=
  if e_uid e <=? 0 then Ok (h, e) else h ← heap_delete e h; Ok (h, retire e).

#[global] Instance HeapScheduler : EventQueue heap := {
  eq_init := new_heap HEAP_DEFAULT_SIZE;
  eq_insert e h := heap_insert (e_time e) e h;
  eq_deque := heap_extract_min;
  eq_cancel := heap_cancel;
  eq_lookup := heap_lookup;
}.

(** ** The order of the heap *)

Definition get (l : list heap_elem) (i : Z) : heap_elem := l !!! Z.to_nat i.

(** [a] is not after [b]. *)
Definition hle (a b : heap_elem) : Prop :=
  he_key a < he_key b \/ he_key a = he_key b /\ he_s_key a <= he_s_key b.

(** The father of [i], for [0 < i]. *)
Definition father (i : Z) : Z := (i - 1) / 2.

(** In order, the links from and to [i] left out; around [i] it is in order. *)
Record heap_but (i n : Z) (l : list heap_elem) : Prop := mk_heap_but {
  hb_order : forall j, 0 < j < n -> j <> i -> father j <> i -> hle (get l (father j)) (get l j);
  hb_around : forall j, 0 < j < n -> father j = i -> 0 < i -> hle (get l (father i)) (get l j);
}.

Definition heap_ordered (n : Z) (l : list heap_elem) : Prop :=
  forall j, 0 < j < n -> hle (get l (father j)) (get l j).

(** The first [n] elements. *)
Definition first (n : Z) (l : list heap_elem) : list heap_elem := take (Z.to_nat n) l.

(** An element holds an event, under its time; of two the one with the smaller
    counter has the smaller uid. *)
Definition elem_ok (k : Z) (x : heap_elem) : Prop :=
  exists e, he_elem x = Some e /\ he_key x = e_time e /\ 0 <= he_s_key x < k.
Definition elem_uid (x : heap_elem) : Z := match he_elem x with Some e => e_uid e | None => 0 end.

Record content_ok (k : Z) (c : list heap_elem) : Prop := mk_content_ok {
  co_elems : forall x, x ∈ c -> elem_ok k x;
  co_ties : forall x y, x ∈ c -> y ∈ c -> he_s_key x < he_s_key y -> elem_uid x < elem_uid y;
  co_keys : NoDup (he_s_key <$> c);
}.

Record heap_inv (k : Z) (h : heap) : Prop := mk_heap_inv {
  hi_length : Z.of_nat (length (h_elems h)) = h_maxsize h;
  hi_size : 0 <= h_size h <= h_maxsize h;
  hi_max : 0 < h_maxsize h <= 2147483648;
  hi_count : h_size h <= k <= 1073741824 /\ h_s_key h = k;
  hi_content : content_ok k (first (h_size h) (h_elems h));
  hi_order : heap_ordered (h_size h) (h_elems h);
}.

Definition heap_events (h : heap) : list event := omap he_elem (first (h_size h) (h_elems h)).

(** * Lemmas *)

Lemma aread_get l i : 0 <= i < Z.of_nat (length l) -> aread l i = Ok (get l i).
Proof. intros Hi. apply aread_ok; [lia|]. unfold get. apply list_lookup_lookup_total_lt. lia. Qed.

Lemma get_insert l i j v :
  0 <= i < Z.of_nat (length l) -> 0 <= j -> get (<[Z.to_nat i := v]> l) j = if j =? i then v else get l j.
Proof.
  intros Hi Hj. unfold get. destruct (Z.eqb_spec j i) as [->|].
  - apply list_lookup_total_insert_eq. lia.
  - apply list_lookup_total_insert_ne. lia.
Qed.

Lemma elem_of_first n l x :
  0 <= n <= Z.of_nat (length l) -> x ∈ first n l <-> exists i, 0 <= i < n /\ get l i = x.
Proof.
  intros Hn. unfold first. rewrite elem_of_take. unfold get. split.
  - intros (i & Hi & Hlt). exists (Z.of_nat i). split; [lia|]. rewrite Nat2Z.id. by apply list_lookup_total_correct.
  - intros (i & Hi & <-). exists (Z.to_nat i). split; [apply list_lookup_lookup_total_lt; lia|lia].
Qed.

(** [i] and [j] are exchanged. *)
Record swapped (n i j : Z) (l l' : list heap_elem) : Prop := mk_swapped {
  sw_length : length l' = length l;
  sw_get : forall m, 0 <= m -> get l' m = if m =? j then get l i else if m =? i then get l j else get l m;
  sw_perm : first n l' ≡ₚ first n l;
}.

Lemma swapped_insert n i j l :
  0 <= i < n -> 0 <= j < n -> n <= Z.of_nat (length l) ->
  swapped n i j l (<[Z.to_nat j := get l i]> (<[Z.to_nat i := get l j]> l)).
Proof.
  intros Hi Hj Hn. constructor.
  - by rewrite !length_insert.
  - intros m Hm. rewrite get_insert by (rewrite ?length_insert; lia). by rewrite get_insert by lia.
  - unfold first. rewrite !take_insert_lt by lia.
    apply Permutation_insert_swap; rewrite lookup_take_lt by lia; apply list_lookup_lookup_total_lt; lia.
Qed.

Lemma swap_ok n i j l :
  0 <= i < n -> 0 <= j < n -> n <= Z.of_nat (length l) ->
  returns (swap i j l) (swapped n i j l).
Proof.
  intros Hi Hj Hn. unfold swap. rewrite !aread_get, bind_Ok by lia. rewrite bind_Ok, awrite_ok, bind_Ok by lia.
  rewrite awrite_ok by (rewrite length_insert; lia). by apply swapped_insert.
Qed.

Lemma hle_trans a b c : hle a b -> hle b c -> hle a c.
Proof. unfold hle. lia. Qed.
Lemma elem_less_true a b : elem_less a b = true -> hle a b.
Proof. unfold elem_less, KEY_LESS_THAN, hle. lia. Qed.
Lemma elem_less_false a b : elem_less a b = false -> hle b a.
Proof. unfold elem_less, KEY_LESS_THAN, hle. lia. Qed.

Lemma father_spec j : 0 < j -> 0 <= father j < j /\ (j = 2 * father j + 1 \/ j = 2 * father j + 2).
Proof. unfold father. intros Hj. Z.div_mod_to_equations. lia. Qed.
Lemma father_of i j : 0 <= i -> j = 2 * i + 1 \/ j = 2 * i + 2 -> father j = i.
Proof. unfold father. intros. Z.div_mod_to_equations. lia. Qed.

Ltac fathers :=
  repeat match goal with
  | H : 0 < ?j < _ |- _ =>
      lazymatch goal with
      | _ : 0 <= father j < j /\ _ |- _ => fail
      | |- _ => pose proof (father_spec j (proj1 H))
      end
  end.

(** The exception of the order moves up, or down to the smaller child. *)
Lemma swap_up n i l l' :
  heap_but i n l -> 0 < i < n -> swapped n i (father i) l l' -> heap_but (father i) n l'.
Proof.
  intros [Ho Ha] Hi [_ Hg _]. fathers. constructor.
  - intros j Hj H1 H2. fathers. rewrite !Hg by lia.
    destruct (Z.eqb_spec (father j) (father i)); [lia|]. destruct (Z.eqb_spec j (father i)); [lia|].
    destruct (Z.eqb_spec (father j) i) as [E|]; destruct (Z.eqb_spec j i); [lia| |congruence|by apply Ho].
    apply Ha; [done|done|lia].
  - intros j Hj E Hf. fathers. assert (0 < father i < n) by lia. fathers. rewrite !Hg by lia.
    destruct (Z.eqb_spec (father (father i)) (father i)); [lia|].
    destruct (Z.eqb_spec (father (father i)) i); [lia|]. destruct (Z.eqb_spec j (father i)); [lia|].
    assert (Hup : hle (get l (father (father i))) (get l (father i))) by (apply Ho; lia).
    destruct (Z.eqb_spec j i); [done|]. eapply hle_trans; [exact Hup|]. rewrite <- E. apply Ho; lia.
Qed.

Lemma swap_down n i x l l' :
  heap_but i n l -> 0 <= i -> 0 < x < n -> father x = i ->
  (forall j, 0 < j < n -> father j = i -> hle (get l x) (get l j)) ->
  swapped n i x l l' -> heap_but x n l'.
Proof.
  intros [Ho Ha] Hi Hx E Hmin [_ Hg _]. fathers. constructor.
  - intros j Hj H1 H2. fathers. rewrite !Hg by lia.
    destruct (Z.eqb_spec (father j) x); [done|]. destruct (Z.eqb_spec j x); [done|].
    destruct (Z.eqb_spec (father j) i) as [Ej|]; destruct (Z.eqb_spec j i) as [->|]; [lia|by apply Hmin| |by apply Ho].
    apply Ha; [done|done|lia].
  - intros j Hj Ej _. fathers. rewrite !Hg by lia. rewrite E.
    destruct (Z.eqb_spec i x); [lia|]. rewrite Z.eqb_refl. destruct (Z.eqb_spec j x); [lia|].
    destruct (Z.eqb_spec j i); [lia|]. rewrite <- Ej. apply Ho; lia.
Qed.

(** The root is the first. *)
Lemma root_min n l i : heap_ordered n l -> 0 <= i < n -> hle (get l 0) (get l i).
Proof.
  intros Ho. induction i as [i IH] using (well_founded_induction (Z.lt_wf 0)). intros Hi.
  destruct (Z.eq_dec i 0) as [->|]; [unfold hle; lia|].
  assert (Hi' : 0 < i < n) by lia. fathers. apply (hle_trans _ (get l (father i))); [apply IH; lia|by apply Ho].
Qed.

(** ** The loops *)

Lemma parent_father i : 0 < i < 4294967296 -> parent i = father i.
Proof. intros Hi. unfold parent, father. by rewrite u32_id by lia. Qed.
Lemma left_right i : 0 <= i < 1073741824 -> left i = 2 * i + 1 /\ right i = 2 * i + 2.
Proof. intros Hi. unfold left, right. rewrite !u32_id; rewrite ?u32_id; lia. Qed.

(** The order, but for the links of [i] to its children. *)
Lemma sift_down_ok n i l :
  0 <= i -> 0 <= n <= Z.of_nat (length l) -> n < 1073741824 ->
  heap_but i n l -> (0 < i < n -> hle (get l (father i)) (get l i)) ->
  returns (sift_down n i l) (fun l' => heap_ordered n l' /\ length l' = length l /\ first n l' ≡ₚ first n l).
Proof.
  intros Hi0 Hn Hn2 Hb Hup. unfold sift_down.
  set (I := fun '(i, l', stop) => 0 <= i /\ heap_but i n l' /\ (0 < i < n -> hle (get l' (father i)) (get l' i))
    /\ length l' = length l /\ first n l' ≡ₚ first n l
    /\ (stop = true -> forall j, 0 < j < n -> father j = i -> hle (get l' i) (get l' j))).
  eapply returns_bind.
  - apply (c_while_rule I (fun '(i, _, stop) => if stop then 0 else 1 + Z.max 0 (n - i))); [|by split_and!|cbn; lia].
    intros [[j l1] stop] (Hj0 & Hb1 & Hup1 & Hl1 & Hp1 & _) Hc. cbv beta iota in Hc. apply andb_true_iff in Hc as [Hlt Hstop].
    apply Z.ltb_lt in Hlt. apply negb_true_iff in Hstop. subst stop.
    eapply returns_bind with (P := fun x => x = j /\ (forall m, 0 < m < n -> father m <> j)
      \/ 0 < x < n /\ father x = j /\ forall m, 0 < m < n -> father m = j -> hle (get l1 x) (get l1 m)).
    { unfold smaller_child. destruct (left_right j) as [El Er]; [lia|]. rewrite El, Er.
      destruct (Z.ltb_spec (2 * j + 2) n).
      - rewrite !aread_get, !bind_Ok by lia. cbn [returns]. right.
        destruct (elem_less _ _) eqn:E; (split; [lia|split; [apply father_of; lia|]]); intros m Hm Em; fathers;
          (assert (m = 2 * j + 1 \/ m = 2 * j + 2) as [->| ->] by lia);
          first [by apply elem_less_true|by apply elem_less_false|unfold hle; lia].
      - cbn [returns]. destruct (Z.ltb_spec (2 * j + 1) n).
        + right. split; [lia|split; [apply father_of; lia|]]. intros m Hm Em. fathers.
          assert (m = 2 * j + 1) as -> by lia. unfold hle. lia.
        + left. split; [done|]. intros m Hm Em. fathers. lia. }
    intros x Hx. cbv beta in Hx. destruct (Z.eqb_spec x j) as [->|Hne].
    + destruct Hx as [[_ Hno]|(? & E & _)]; [|fathers; lia]. cbn [returns]. split; [|lia].
      unfold I. split_and!; try done. intros _ m Hm Em. by destruct (Hno m Hm).
    + destruct Hx as [[? _]|(Hx & E & Hmin)]; [done|]. fathers. rewrite !aread_get, !bind_Ok by lia.
      destruct (elem_less (get l1 x) (get l1 j)) eqn:El.
      * eapply returns_bind; [by apply (swap_ok n); lia|]. intros l2 Hsw. cbn [returns]. split; [|lia].
        unfold I. split_and!; [lia|by apply (swap_down n j x l1)| |by rewrite (sw_length _ _ _ _ _ Hsw)|by rewrite (sw_perm _ _ _ _ _ Hsw)|done].
        intros _. rewrite E, !(sw_get _ _ _ _ _ Hsw) by lia. rewrite Z.eqb_refl.
        destruct (Z.eqb_spec j x); [lia|]. rewrite Z.eqb_refl. by apply elem_less_true.
      * cbn [returns]. split; [|lia]. unfold I. split_and!; try done. intros _ m Hm Em.
        eapply hle_trans; [by apply elem_less_false|by apply Hmin].
  - intros [[j l1] stop] [(Hj0 & Hb1 & Hup1 & Hl1 & Hp1 & Hst) Hc]. cbn [returns]. split_and!; [|done|done].
    cbv beta iota in Hc. intros m Hm. fathers. destruct (Z.eq_dec m j) as [->|]; [by apply Hup1|].
    destruct (Z.eq_dec (father m) j) as [E|]; [|by apply Hb1].
    rewrite E. apply Hst; [|done|done]. destruct stop; [done|].
    rewrite andb_true_r in Hc. apply Z.ltb_ge in Hc. lia.
Qed.

(** An element goes up to the root, whatever its key. *)
Lemma to_root_ok n i l :
  0 <= i < n -> n <= Z.of_nat (length l) -> n <= 1073741824 -> heap_but i n l ->
  returns (to_root i l) (fun l' =>
    heap_but 0 n l' /\ length l' = length l /\ first n l' ≡ₚ first n l /\ get l' 0 = get l i).
Proof.
  intros Hi Hn Hn2 Hb. unfold to_root.
  set (I := fun '(j, l') => 0 <= j < n /\ heap_but j n l' /\ length l' = length l
    /\ first n l' ≡ₚ first n l /\ get l' j = get l i).
  eapply returns_bind.
  - apply (c_while_rule I (fun '(j, _) => j)); [|unfold I; split_and!; done || lia|lia].
    intros [j l1] (Hj & Hb1 & Hl1 & Hp1 & Hg1) Hc. cbv beta iota in Hc. apply nz_true in Hc.
    assert (Hj' : 0 < j < n) by lia. fathers. rewrite parent_father by lia.
    eapply returns_bind; [by apply (swap_ok n); lia|]. intros l2 Hsw. cbn [returns]. split; [|lia].
    unfold I. split_and!; [lia|lia|by apply (swap_up n j l1)|by rewrite (sw_length _ _ _ _ _ Hsw)|
      by rewrite (sw_perm _ _ _ _ _ Hsw)|]. rewrite (sw_get _ _ _ _ _ Hsw) by lia. by rewrite Z.eqb_refl.
  - intros [j l1] [(Hj & Hb1 & Hl1 & Hp1 & Hg1) Hc]. cbv beta iota in Hc. apply nz_false in Hc. subst j.
    by split_and!.
Qed.

(** The new element goes up to its place; the loop moves the others. *)
Lemma sift_up_ok n x l :
  0 <= n < Z.of_nat (length l) -> n < 1073741824 -> heap_ordered n l ->
  returns (sift_up (he_key x) (he_s_key x) n l) (fun '(i, l') =>
    0 <= i <= n /\ length l' = length l
    /\ heap_ordered (n + 1) (<[Z.to_nat i := x]> l')
    /\ first (n + 1) (<[Z.to_nat i := x]> l') ≡ₚ x :: first n l).
Proof.
  intros Hn Hn2 Ho. unfold sift_up.
  set (I := fun '(i, l') => 0 <= i <= n /\ length l' = length l /\ heap_but i (n + 1) (<[Z.to_nat i := x]> l')
    /\ (forall j, 0 < j < n + 1 -> father j = i -> hle x (get (<[Z.to_nat i := x]> l') j))
    /\ first (n + 1) (<[Z.to_nat i := x]> l') ≡ₚ x :: first n l).
  eapply returns_mono.
  - apply (c_whilem_rule I (fun '(i, _) => i)); [| |lia].
    + intros [i l1] (Hi & Hl1 & Hb & Hch & Hp). destruct (Z.ltb_spec 0 i); [|done].
      assert (Hi' : 0 < i < n + 1) by lia. fathers. rewrite parent_father, aread_get, bind_Ok by lia. cbn [returns].
      intros Hless. rewrite bind_Ok, awrite_ok, bind_Ok by lia. cbn [returns]. split; [|lia].
      set (L := <[Z.to_nat i := x]> l1) in *.
      assert (HL : Z.of_nat (length L) = Z.of_nat (length l)) by (subst L; rewrite length_insert; lia).
      assert (Hgi : get L i = x) by (subst L; rewrite get_insert by lia; by rewrite Z.eqb_refl).
      assert (Hgp : get L (father i) = get l1 (father i)).
      { subst L. rewrite get_insert by lia. by destruct (Z.eqb_spec (father i) i); [lia|]. }
      assert (Hsw : swapped (n + 1) i (father i) L
        (<[Z.to_nat (father i) := x]> (<[Z.to_nat i := get l1 (father i)]> l1))).
      { rewrite <- Hgi at 1. rewrite <- Hgp.
        rewrite <- (list_insert_insert_eq l1 (Z.to_nat i) (get L (father i)) x).
        apply swapped_insert; rewrite ?length_insert; lia. }
      unfold I. split_and!; [lia|lia|by rewrite length_insert|by apply (swap_up (n + 1) i L)| |
        by rewrite (sw_perm _ _ _ _ _ Hsw)].
      intros j Hj Ej. fathers. rewrite (sw_get _ _ _ _ _ Hsw) by lia.
      destruct (Z.eqb_spec j (father i)); [lia|].
      assert (Hxp : hle x (get L (father i))) by (rewrite Hgp; by apply elem_less_true).
      destruct (Z.eqb_spec j i); [done|]. eapply hle_trans; [exact Hxp|]. rewrite <- Ej. apply (hb_order _ _ _ Hb); lia.
    + unfold I. set (L := <[Z.to_nat n := x]> l).
      assert (Hg : forall j, 0 <= j < n -> get L j = get l j)
        by (intros j Hj; subst L; rewrite get_insert by lia; by destruct (Z.eqb_spec j n); [lia|]).
      split_and!; [lia|lia|done|constructor|..].
      * intros j Hj H1 H2. fathers. rewrite !Hg by lia. apply Ho. lia.
      * intros j Hj E. fathers. lia.
      * intros j Hj E. fathers. lia.
      * unfold first, L. replace (Z.to_nat (n + 1)) with (S (Z.to_nat n)) by lia.
        rewrite (take_S_r _ _ x) by (apply list_lookup_insert_eq; lia).
        rewrite take_insert_ge by lia. by rewrite Permutation_app_comm.
  - intros [i l1] [(Hi & Hl1 & Hb & Hch & Hp) Hc]. split_and!; [lia|lia|done| |done].
    intros j Hj. fathers. set (L := <[Z.to_nat i := x]> l1) in *.
    assert (Hgi : get L i = x) by (subst L; rewrite get_insert by lia; by rewrite Z.eqb_refl).
    destruct (Z.eq_dec j i) as [->|]; [|destruct (Z.eq_dec (father j) i) as [E|]; [|by apply Hb]].
    + destruct (Z.ltb_spec 0 i); [|lia]. rewrite parent_father, aread_get, bind_Ok in Hc by lia. injection Hc as Hc.
      rewrite Hgi. subst L. rewrite get_insert by lia. destruct (Z.eqb_spec (father i) i); [lia|].
      by apply elem_less_false.
    + rewrite E, Hgi. by apply Hch.
Qed.

(** ** The operations *)

Lemma content_perm k c c' : c ≡ₚ c' -> content_ok k c -> content_ok k c'.
Proof.
  intros Hp []. constructor; [| |by rewrite <- Hp].
  - intros x Hx. rewrite <- Hp in Hx. auto.
  - intros x y Hx Hy. rewrite <- Hp in Hx, Hy. auto.
Qed.

Lemma content_tail k x c : content_ok k (x :: c) -> content_ok k c.
Proof.
  intros [He Ht Hk]. constructor; [intros y Hy; apply He; by right| |].
  - intros y z Hy Hz. apply Ht; by right.
  - cbn in Hk. by apply NoDup_cons in Hk as [_ Hk].
Qed.

Lemma content_events k c x e : content_ok k c -> x ∈ c -> he_elem x = Some e -> he_key x = e_time e /\ elem_uid x = e_uid e.
Proof.
  intros [He _ _] Hx E. destruct (He x Hx) as (e' & E' & Hk & _). unfold elem_uid. rewrite E in E' |- *.
  by injection E' as <-.
Qed.

(** The root leaves; it need not be the smallest. *)
Lemma extract_ok h :
  Z.of_nat (length (h_elems h)) = h_maxsize h -> 0 < h_size h <= h_maxsize h -> h_size h <= 1073741824 ->
  heap_but 0 (h_size h) (h_elems h) ->
  returns (heap_extract_min h) (fun '(o, h') =>
    o = he_elem (get (h_elems h) 0) /\ h_size h' = h_size h - 1 /\ h_maxsize h' = h_maxsize h
    /\ h_s_key h' = h_s_key h /\ Z.of_nat (length (h_elems h')) = h_maxsize h
    /\ heap_ordered (h_size h') (h_elems h')
    /\ first (h_size h) (h_elems h) ≡ₚ get (h_elems h) 0 :: first (h_size h') (h_elems h')).
Proof.
  intros Hl Hn Hn2 Hb. unfold heap_extract_min. case_cond; [lia|].
  set (l := h_elems h) in *. set (n := h_size h) in *. clearbody n.
  rewrite !aread_get, !bind_Ok by lia. rewrite awrite_ok, bind_Ok by lia.
  set (l1 := <[Z.to_nat 0 := _]> l).
  assert (Hg : forall j, 0 < j -> get l1 j = get l j).
  { intros j Hj. subst l1. rewrite get_insert by lia. by destruct (Z.eqb_spec j 0); [lia|]. }
  assert (Hl1 : length l1 = length l) by (subst l1; apply length_insert).
  eapply returns_bind; [apply (sift_down_ok (n - 1) 0 l1); [lia|lia|lia| |lia]|].
  - constructor; [|lia]. intros j Hj H1 H2. fathers. rewrite !Hg by lia. apply (hb_order _ _ _ Hb); lia.
  - intros l2 (Ho & Hl2 & Hp). cbn [returns h_size h_elems h_maxsize h_s_key set_field].
    split_and!; [done|done|done|done|lia|done|]. rewrite Hp. unfold first.
    destruct l as [|r l']; [cbn in Hl; lia|]. change (get (r :: l') 0) with r.
    replace (Z.to_nat n) with (S (Z.to_nat (n - 1))) by lia. destruct (Z.eq_dec n 1) as [->|]; [done|].
    subst l1. change (Z.to_nat 0) with O. cbn [list_insert insert take].
    replace (Z.to_nat (n - 1)) with (S (Z.to_nat (n - 2))) by lia. cbn [take]. constructor.
    cbn [length] in Hl.
    rewrite (take_S_r _ _ (get (r :: l') (n - 1))).
    + by rewrite Permutation_app_comm.
    + unfold get. replace (Z.to_nat (n - 1)) with (S (Z.to_nat (n - 2))) by lia.
      change ((r :: l') !!! S (Z.to_nat (n - 2))) with (l' !!! Z.to_nat (n - 2)).
      apply list_lookup_lookup_total_lt. lia.
Qed.

Lemma member_ok e h :
  Z.of_nat (length (h_elems h)) = h_maxsize h -> 0 <= h_size h <= h_maxsize h -> h_size h <= 1073741824 ->
  returns (heap_member e h) (fun r => 0 <= r <= h_size h /\
    if r =? 0 then forall i y, 0 <= i < h_size h -> he_elem (get (h_elems h) i) = Some y -> e_addr y <> e_addr e
    else exists y, he_elem (get (h_elems h) (r - 1)) = Some y /\ e_addr y = e_addr e).
Proof.
  intros Hl Hn Hn2. unfold heap_member. eapply returns_bind.
  - apply (c_while_rule (fun '(i, r) => 0 <= i <= h_size h /\ 0 <= r <= h_size h /\
      (if r =? 0 then forall j y, 0 <= j < i -> he_elem (get (h_elems h) j) = Some y -> e_addr y <> e_addr e
       else exists y, he_elem (get (h_elems h) (r - 1)) = Some y /\ e_addr y = e_addr e))
      (fun '(i, r) => h_size h - i)); [|split_and!; try lia; cbn; intros; lia|lia].
    intros [i r] (Hi & Hr & H) Hc. cbv beta iota in Hc. apply andb_true_iff in Hc as [Hlt Er].
    apply Z.ltb_lt in Hlt. rewrite Er in H. rewrite aread_get, bind_Ok by lia. cbn [returns].
    split; [|lia]. split; [lia|].
    destruct (he_elem (get (h_elems h) i)) as [y|] eqn:E; [destruct (Z.eqb_spec (e_addr y) (e_addr e)) as [Ea|Ea]|].
    + split; [lia|]. destruct (Z.eqb_spec (i + 1) 0); [lia|]. exists y. by replace (i + 1 - 1) with i by lia.
    + split; [lia|]. cbn. intros j z Hj Ez. destruct (Z.eq_dec j i) as [->|]; [congruence|]. apply (H j); [lia|done].
    + split; [lia|]. cbn. intros j z Hj Ez. destruct (Z.eq_dec j i) as [->|]; [congruence|]. apply (H j); [lia|done].
  - intros [i r] [(Hi & Hr & H) Hc]. cbn [returns]. split; [done|]. cbv beta iota in Hc.
    destruct (Z.eqb_spec r 0); [|done]. intros j y Hj. apply H. apply andb_false_iff in Hc as [Hc|Hc]; lia.
Qed.

Lemma heap_root k h :
  heap_inv k h -> 0 < h_size h -> exists e, he_elem (get (h_elems h) 0) = Some e /\ get (h_elems h) 0 ∈ first (h_size h) (h_elems h).
Proof.
  intros [Hl Hs _ _ [He _ _] _] Hpos.
  assert (Hin : get (h_elems h) 0 ∈ first (h_size h) (h_elems h))
    by (apply elem_of_first; [lia|]; exists 0; split; [lia|done]).
  destruct (He _ Hin) as (e & E & _). by exists e.
Qed.

Lemma elem_of_events h e :
  e ∈ heap_events h <-> exists x, x ∈ first (h_size h) (h_elems h) /\ he_elem x = Some e.
Proof. unfold heap_events. by rewrite list_elem_of_omap. Qed.

(** What is left when an element goes. *)
Lemma heap_removed k h h' x e :
  heap_inv k h -> h_size h' = h_size h - 1 -> h_maxsize h' = h_maxsize h -> h_s_key h' = h_s_key h ->
  Z.of_nat (length (h_elems h')) = h_maxsize h -> 0 < h_size h -> heap_ordered (h_size h') (h_elems h') ->
  first (h_size h) (h_elems h) ≡ₚ x :: first (h_size h') (h_elems h') -> he_elem x = Some e ->
  heap_inv k h' /\ heap_events h ≡ₚ e :: heap_events h'.
Proof.
  intros [Hl Hs Hm Hc Hco Ho] E1 E2 E3 E4 Hpos Ho' Hp Ex. split.
  - rewrite E1 in *. constructor; rewrite ?E1, ?E2, ?E3; try done; try lia.
    by eapply content_tail, content_perm.
  - unfold heap_events. rewrite Hp. cbn. by rewrite Ex.
Qed.

Lemma heap_ordered_but n l : heap_ordered n l -> heap_but 0 n l.
Proof. intros Ho. constructor; [by intros; apply Ho|lia]. Qed.

Lemma heap_deque_ok k h :
  heap_inv k h ->
  returns (heap_extract_min h) (fun '(o, h') => heap_inv k h' /\
    match o with
    | None => heap_events h = [] /\ heap_events h' = []
    | Some m => heap_events h ≡ₚ m :: heap_events h'
        /\ (NoDup (e_uid <$> heap_events h) -> forall y, y ∈ heap_events h' -> ev_lt m y)
    end).
Proof.
  intros Hh. pose proof Hh as [Hl Hs Hm Hc Hco Ho]. destruct (Z.eqb_spec (h_size h) 0) as [E0|E0].
  { unfold heap_extract_min. rewrite E0. cbn [Z.eqb returns]. split; [done|]. unfold heap_events, first. by rewrite E0. }
  eapply returns_mono; [apply extract_ok; [done|lia|lia|by apply heap_ordered_but]|].
  intros [o h'] (-> & E1 & E2 & E3 & E4 & Ho' & Hp). destruct (heap_root k h Hh) as (m & Em & Hroot); [lia|].
  rewrite Em. destruct (heap_removed k h h' _ m Hh E1 E2 E3 E4 ltac:(lia) Ho' Hp Em) as [Hh' Hev].
  split; [done|]. split; [done|]. intros Hnd y Hy.
  assert (Huid : e_uid y <> e_uid m).
  { rewrite Hev in Hnd. cbn in Hnd. apply NoDup_cons in Hnd as [Hni _]. intros E. apply Hni. rewrite <- E.
    by apply list_elem_of_fmap_2. }
  apply elem_of_events in Hy as (x & Hx & Ex).
  assert (Hx' : x ∈ first (h_size h) (h_elems h)) by (rewrite Hp; by right).
  destruct (content_events k _ x y Hco Hx' Ex) as [Kx Ux]. destruct (content_events k _ _ m Hco Hroot Em) as [Kr Ur].
  apply elem_of_first in Hx' as (i & Hi & <-); [|lia].
  destruct (root_min (h_size h) (h_elems h) i Ho Hi) as [Hlt|[Heq Hle]]; [left; lia|right].
  split; [lia|]. destruct (Z.eq_dec (he_s_key (get (h_elems h) 0)) (he_s_key (get (h_elems h) i))) as [Es|].
  - exfalso. pose proof (co_keys _ _ Hco) as Hk. rewrite Hp in Hk. cbn in Hk. apply NoDup_cons in Hk as [Hni _].
    apply Hni. rewrite Es. by apply list_elem_of_fmap_2.
  - rewrite <- Ur, <- Ux. apply (co_ties _ _ Hco); [done| |lia]. apply elem_of_first; [lia|]. by exists i.
Qed.

Lemma delete_found_ok k h e i :
  heap_inv k h -> 0 <= i < h_size h -> he_elem (get (h_elems h) i) = Some e ->
  returns (l ← to_root i (h_elems h); '(_, h') ← heap_extract_min (h <| h_elems := l |>); Ok h')
    (fun h' => heap_inv k h' /\ heap_events h ≡ₚ e :: heap_events h').
Proof.
  intros Hh Hi Ei. pose proof Hh as [Hl Hs Hm Hc Hco Ho].
  eapply returns_bind; [apply (to_root_ok (h_size h) i); [done|lia|lia|]|].
  { constructor; [by intros; apply Ho|]. intros j Hj E Hi'. fathers.
    apply (hle_trans _ (get (h_elems h) i)); [|rewrite <- E; by apply Ho]. apply Ho. lia. }
  intros l1 (Hb & Hl1 & Hp1 & Hg1).
  pose proof (extract_ok (h <| h_elems := l1 |>)) as Hx. cbn [h_elems h_size h_maxsize h_s_key set_field] in Hx.
  eapply returns_bind; [apply Hx; [lia|lia|lia|done]|]. clear Hx.
  intros [o h'] (_ & E1 & E2 & E3 & E4 & Ho' & Hp). cbn [returns].
  apply (heap_removed k h h' (get l1 0) e); try done; try lia; [|congruence]. by rewrite <- Hp, Hp1.
Qed.

Lemma heap_delete_ok k h e :
  heap_inv k h -> e ∈ heap_events h -> NoDup (e_addr <$> heap_events h) ->
  returns (heap_delete e h) (fun h' => heap_inv k h' /\ heap_events h ≡ₚ e :: heap_events h').
Proof.
  intros Hh Hin Hnd. pose proof Hh as [Hl Hs Hm Hc Hco Ho].
  unfold heap_delete. eapply returns_bind; [apply (member_ok e h); [done|done|lia]|].
  intros r [Hr Hf]. destruct (Z.eqb_spec r 0) as [->|Hr0].
  - apply elem_of_events in Hin as (x & Hx & Ex). apply elem_of_first in Hx as (i & Hi & <-); [|lia].
    by destruct (Hf i e Hi Ex).
  - destruct Hf as (y & Ey & Ea).
    assert (y = e) as ->.
    { apply (key_inj e_addr (heap_events h)); [done| |done|done]. apply elem_of_events. exists (get (h_elems h) (r - 1)).
      split; [|done]. apply elem_of_first; [lia|]. exists (r - 1). split; [lia|done]. }
    apply delete_found_ok; [done|lia|done].
Qed.

Lemma heap_cancel_ok k h e :
  heap_inv k h -> e ∈ heap_events h -> 0 < e_uid e -> NoDup (e_addr <$> heap_events h) ->
  returns (heap_cancel e h) (fun '(h', e') => heap_inv k h' /\ e' = retire e /\ heap_events h ≡ₚ e :: heap_events h').
Proof.
  intros Hh Hin Hpos Hnd. unfold heap_cancel. case_cond; [lia|].
  eapply returns_bind; [by apply (heap_delete_ok k)|]. intros h' [? ?]. by cbn [returns].
Qed.

Lemma heap_insert_ok k h e :
  heap_inv k h -> 0 <= k < 1073741824 -> (forall x, x ∈ heap_events h -> e_uid x < e_uid e) ->
  returns (heap_insert (e_time e) e h) (fun h' => heap_inv (k + 1) h' /\ heap_events h' ≡ₚ e :: heap_events h).
Proof.
  intros [Hl Hs Hm [Hc Hk] Hco Ho] Hlim Hfresh. unfold heap_insert.
  set (h1 := if h_maxsize h =? h_size h then _ else h).
  assert (H1 : h_size h1 = h_size h /\ h_s_key h1 = k /\ Z.of_nat (length (h_elems h1)) = h_maxsize h1
    /\ h_size h < h_maxsize h1 <= 2147483648 /\ first (h_size h) (h_elems h1) = first (h_size h) (h_elems h)
    /\ heap_ordered (h_size h) (h_elems h1)).
  { subst h1. destruct (Z.eqb_spec (h_maxsize h) (h_size h)) as [E|]; [|split_and!; try done; lia].
    cbn [h_elems h_size h_maxsize h_s_key set_field]. rewrite !u32_id by lia.
    split_and!; [done|done| |lia|lia| |].
    - rewrite length_app. unfold new_elems. rewrite length_replicate. lia.
    - unfold first. by rewrite take_app_le by lia.
    - intros j Hj. fathers. unfold get. rewrite !lookup_total_app_l by lia. by apply Ho. }
  clearbody h1. destruct H1 as (E1 & E2 & E3 & Hm1 & Ef & Ho1). rewrite E1, E2.
  set (x := mk_elem (e_time e) k (Some e)).
  eapply returns_bind; [apply (sift_up_ok (h_size h) x (h_elems h1)); [lia|lia|done]|].
  intros [i l1] (Hi & Hl1 & Ho2 & Hp). rewrite awrite_ok, bind_Ok by lia. cbn [returns].
  rewrite Ef in Hp. unfold heap_events at 1. cbn [h_elems h_size h_maxsize h_s_key set_field].
  rewrite !u32_id by lia. split; [|by rewrite Hp].
  constructor; cbn [h_elems h_size h_maxsize h_s_key set_field]; rewrite ?length_insert; try done; try lia.
  eapply content_perm; [symmetry; exact Hp|]. destruct Hco as [He Ht Hkeys]. constructor.
  - intros y [->|Hy]%elem_of_cons; [exists e; split_and!; cbn; done || lia|].
    destruct (He y Hy) as (e' & ? & ? & ?). exists e'. split_and!; done || lia.
  - assert (Hnew : forall y, y ∈ first (h_size h) (h_elems h) -> he_s_key y < k /\ elem_uid y < e_uid e).
    { intros y Hy. destruct (He y Hy) as (e' & Ee & _ & ?). split; [lia|]. unfold elem_uid. rewrite Ee.
      apply Hfresh. apply elem_of_events. by exists y. }
    intros y z [->|Hy]%elem_of_cons [->|Hz]%elem_of_cons Hyz; [lia| | |by apply Ht].
    + destruct (Hnew z Hz). cbn in Hyz. lia.
    + by apply Hnew.
  - cbn. constructor; [|done]. intros (y & E & Hy)%list_elem_of_fmap. destruct (He y Hy) as (_ & _ & _ & ?). lia.
Qed.

Lemma heap_lookup_ok k h uid :
  heap_inv k h ->
  returns (heap_lookup uid h) (fun '(o, h') => heap_inv k h' /\ heap_events h' = heap_events h /\
    match o with
    | Some e => e ∈ heap_events h /\ e_uid e = uid
    | None => forall e, e ∈ heap_events h -> e_uid e <> uid
    end).
Proof.
  intros Hh. pose proof Hh as [Hl Hs Hm Hc Hco Ho]. unfold heap_lookup.
  assert (Hat : forall i, 0 <= i < h_size h -> exists e, he_elem (get (h_elems h) i) = Some e /\ e ∈ heap_events h).
  { intros i Hi. assert (Hin : get (h_elems h) i ∈ first (h_size h) (h_elems h)) by (apply elem_of_first; [lia|]; by exists i).
    destruct (co_elems _ _ Hco _ Hin) as (e & E & _). exists e. split; [done|]. apply elem_of_events. by exists (get (h_elems h) i). }
  assert (Hof : forall e, e ∈ heap_events h -> exists i, 0 <= i < h_size h /\ he_elem (get (h_elems h) i) = Some e).
  { intros e (x & Hx & E)%elem_of_events. apply elem_of_first in Hx as (i & Hi & <-); [|lia]. by exists i. }
  set (J := fun o it => match o with
    | Some e => 1 <= it <= h_size h /\ he_elem (get (h_elems h) (it - 1)) = Some e
        /\ forall j e', 0 <= j < it - 1 -> he_elem (get (h_elems h) j) = Some e' -> e_uid e' <> uid
    | None => forall e, e ∈ heap_events h -> e_uid e <> uid
    end).
  eapply returns_bind with (P := fun o => J o 1).
  { unfold heap_min. destruct (Z.ltb_spec 0 (h_size h)) as [Hpos|Hz].
    - rewrite aread_get, bind_Ok by lia. cbn [returns]. destruct (Hat 0) as (e & E & _); [lia|]. rewrite E. cbn.
      split_and!; [lia|lia|done|lia].
    - cbn. intros e (i & Hi & _)%Hof. lia. }
  intros o Hj. eapply returns_mono.
  - apply (c_while_rule (fun '(o, h') => exists it, h' = h <| h_iter := it |> /\ J o it)
      (fun '(o, h') => match o with Some _ => 1 + h_size h - h_iter h' | None => 0 end)).
    + intros [o' h'] (it & -> & Hj') Hcd. destruct o' as [e|]; [|done]. destruct Hj' as (Hit & Ee & Hpre).
      apply negb_true_iff, Z.eqb_neq in Hcd. unfold heap_iter. cbn [h_size h_iter h_elems set_field].
      assert (Hpre' : forall j e', 0 <= j < it -> he_elem (get (h_elems h) j) = Some e' -> e_uid e' <> uid).
      { intros j e' Hj' E'. destruct (Z.eq_dec j (it - 1)) as [->|]; [congruence|]. apply (Hpre j); [lia|done]. }
      destruct (Z.leb_spec (h_size h) it); cbn [returns].
      * split; [|lia]. exists 0. split; [done|]. cbn. intros e' (i & Hi & E')%Hof. apply (Hpre' i); [lia|done].
      * rewrite aread_get, bind_Ok by lia. cbn [returns]. destruct (Hat it) as (e' & E' & _); [lia|].
        rewrite E'. split; [|cbn; lia]. exists (it + 1). split; [done|]. cbn. replace (it + 1 - 1) with it by lia.
        split_and!; [lia|lia|done|done].
    + by exists 1.
    + cbn. destruct o; lia.
  - intros [o' h'] [(it & -> & Hj') Hcd]. split; [by constructor|]. split; [done|]. destruct o' as [e|]; [|exact Hj'].
    destruct Hj' as (Hit & Ee & _). apply negb_false_iff, Z.eqb_eq in Hcd. split; [|done].
    destruct (Hat (it - 1)) as (e' & E' & Hin); [lia|]. congruence.
Qed.

Lemma new_heap_inv : heap_inv 0 (new_heap HEAP_DEFAULT_SIZE).
Proof.
  constructor; cbn [h_elems h_size h_maxsize h_s_key new_heap]; try done; [|intros j Hj; lia].
  constructor; [by intros x ?%elem_of_nil|by intros x y ?%elem_of_nil|constructor].
Qed.

#[global] Program Instance HeapScheduler_ok : EventQueueOk heap := {
  q_inv := heap_inv;
  q_events := heap_events;
  q_time t := True;
  q_limit := 1073741824;
  q_fine h := True;
}.
Next Obligation. split; [apply new_heap_inv|done]. Qed.
Next Obligation. intros k h e Hh Hk _ He. apply heap_insert_ok; [done|done|]. intros x Hx. by apply He. Qed.
Next Obligation.
  intros k h Hh _ Hnd. eapply returns_mono; [by apply heap_deque_ok|]. intros [[m|] h'] [? H]; [|done]. naive_solver.
Qed.
Next Obligation. intros k h e Hh He Hu Ha _. by apply heap_cancel_ok. Qed.
Next Obligation. intros h e He. cbn. unfold heap_cancel. case_cond; [done|lia]. Qed.
Next Obligation. intros k h uid Hh. by apply heap_lookup_ok. Qed.
