(* ===== verification/Splay.v ===== *)
(** SplayScheduler (common/splay-scheduler.cc): the events in a binary search
    tree that is splayed top-down by insertions and by dequeues. *)
From stdpp Require Import list sorting sets.
From S2P Require Import Prelude Doubles EventQueue.

(** * Definitions *)

(** The fields [prev_] and [next_] of an event are the left and right pointers. *)
Inductive tree : Type :=
  | Null
  | Node (l : tree) (e : event) (r : tree).

Record splay := mk_splay {
  root_ : tree;
  lookup_uid_ : Z;            (* int64_t *)
  qsize_ : Z;                 (* int *)
}.
#[global] Instance eta_splay : Eta splay := fun r => mk_splay (root_ r) (lookup_uid_ r) (qsize_ r).

(** The tree on the left of the split, its bottom right node first; the tree on
    the right, its bottom left node first.  The pointers [l] and [r] of the code
    are the first nodes, and the new node when there is none. *)
Definition left_part : Type := list (tree * event).
Definition right_part : Type := list (event * tree).

(** [RIGHT(l) = c], respectively [LEFT(r) = c], seen from the top. *)
Fixpoint close_left (L : left_part) (c : tree) : tree :=
  match L with [] => c | (a, e) :: L => close_left L (Node a e c) end.
Fixpoint close_right (R : right_part) (c : tree) : tree :=
  match R with [] => c | (e, b) :: R => close_right R (Node c e b) end.

(** The loop of insert: the current node [t] and the child [x] on the side of
    [time]; ROTATE_RIGHT and LINK_RIGHT, or ROTATE_LEFT and LINK_LEFT. *)
Fixpoint split_loop (time : Z) (t : tree) (L : left_part) (R : right_part) : tree * tree :=
  match t with
  | Null => (close_left L Null, close_right R Null)
  | Node tl te tr =>
      if time <? e_time te then
        match tl with
        | Null => (close_left L Null, close_right R t)
        | Node xl xe xr =>
            if time <? e_time xe then
              (* t becomes x, the old t its right child *)
              split_loop time xl L ((xe, Node xr te tr) :: R)
            else split_loop time tl L ((te, tr) :: R)
        end
      else
        match tr with
        | Null => (close_left L t, close_right R Null)
        | Node xl xe xr =>
            if e_time xe <=? time then
              split_loop time xr ((Node tl te xl, xe) :: L) R
            else split_loop time tr ((tl, te) :: L) R
        end
  end.

Definition splay_insert (n : event) (s : splay) : splay :=
  let s := s <| qsize_ := qsize_ s + 1 |> in
  match root_ s with
  | Null => s <| root_ := Node Null n Null |>
  | t => let '(a, b) := split_loop (e_time n) t [] [] in s <| root_ := Node a n b |>
  end.

Fixpoint splay_head (t : tree) : option event :=
  match t with
  | Null => None
  | Node Null e _ => Some e
  | Node l _ _ => splay_head l
  end.

(** The loop of deque: [R] holds the nodes above [l], [t] first; each turn
    rotates two of them.  The node taken, and the tree. *)
Fixpoint deque_loop (l : tree) (R : right_part) : outcome (event * tree) :=
  match l with
  | Null => Trap NullDeref
  | Node ll le lr =>
      match ll with
      | Null => Ok (le, close_right R lr)
      | Node lll lle llr =>
          match lll with
          | Null => Ok (lle, close_right ((le, lr) :: R) llr)
          | Node _ _ _ => deque_loop lll ((lle, Node llr le lr) :: R)
          end
      end
  end.

Definition splay_deque (s : splay) : outcome (option event * splay) :=
  match root_ s with
  | Null => Ok (None, s)
  | Node l te tr =>
      let s := s <| qsize_ := qsize_ s - 1 |> in
      match l with
      | Null => Ok (Some te, s <| root_ := tr |>)
      | _ => '(e, t) ← deque_loop l [(te, tr)]; Ok (Some e, s <| root_ := t |>)
      end
  end.

(** The leftmost node below [p], and what is left: [q] of the search for the
    successor. *)
Fixpoint take_leftmost (ql : tree) (qe : event) (qr : tree) : event * tree :=
  match ql with
  | Null => (qe, qr)
  | Node l e r => let '(m, l') := take_leftmost l e r in (m, Node l' qe qr)
  end.

(** What [*t] becomes when the node with these children goes. *)
Definition cut_node (l r : tree) : tree :=
  match r with
  | Null => l
  | Node pl pe pr =>
      match l with
      | Null => r
      | _ =>
          match pl with
          | Null => Node l pe pr
          | Node ql qe qr => let '(q, pl) := take_leftmost ql qe qr in Node l q (Node pl pe pr)
          end
      end
  end.

Definition is_event (e : event) (t : tree) : bool :=
  match t with Null => false | Node _ x _ => e_addr x =? e_addr e end.
Definition cut_root (t : tree) : tree :=
  match t with Null => Null | Node l _ r => cut_node l r end.

(** The event is below the root; same-time events are ordered by uid. *)
Definition goes_right (e x : event) : bool :=
  (e_time x <? e_time e) || (e_time e =? e_time x) && (e_uid x <? e_uid e).
Fixpoint cut_below (e : event) (t : tree) : outcome tree :=
  match t with
  | Null => Trap AssertFail
  | Node l x r =>
      if goes_right e x then
        r ← (if is_event e r then Ok (cut_root r) else cut_below e r); Ok (Node l x r)
      else
        l ← (if is_event e l then Ok (cut_root l) else cut_below e l); Ok (Node l x r)
  end.

Definition splay_cancel (e : event) (s : splay) : outcome (splay * event) :=
  if e_uid e <=? 0 then Ok (s, e)
  else
    t ← (if is_event e (root_ s) then Ok (cut_root (root_ s)) else cut_below e (root_ s));
    Ok (s <| root_ := t |> <| qsize_ := qsize_ s - 1 |>, retire e).

Fixpoint uid_lookup (uid : Z) (t : tree) : option event :=
  match t with
  | Null => None
  | Node l e r =>
      if e_uid e =? uid then Some e
      else match uid_lookup uid l with Some res => Some res | None => uid_lookup uid r end
  end.

Definition splay_lookup (uid : Z) (s : splay) : option event * splay :=
  (uid_lookup uid (root_ s), s <| lookup_uid_ := uid |>).

(** The check the debugging code makes: the number of nodes, if each is in order
    with its children. *)
Fixpoint validate (t : tree) : outcome Z :=
  match t with
  | Null => Ok 0
  | Node l e r =>
      let ok := match l with Null => true | Node _ x _ => e_time x <=? e_time e end
                && match r with Null => true | Node _ x _ => e_time e <=? e_time x end in
      if ok then a ← validate l; b ← validate r; Ok (1 + a + b) else Trap AssertFail
  end.

#[global] Instance SplayScheduler : EventQueue splay := {
  eq_init := mk_splay Null 0 0;
  eq_insert e s := Ok (splay_insert e s);
  eq_deque := splay_deque;
  eq_cancel := splay_cancel;
  eq_lookup uid s := Ok (splay_lookup uid s);
}.

Fixpoint in_order (t : tree) : list event :=
  match t with Null => [] | Node l e r => in_order l ++ e :: in_order r end.

(** The tree is in order, and [qsize_] counts its nodes. *)
Record splay_inv (s : splay) : Prop := mk_splay_inv {
  sv_sorted : StronglySorted ev_lt (in_order (root_ s));
  sv_size : qsize_ s = Z.of_nat (length (in_order (root_ s)));
}.

(** * Lemmas *)

Fixpoint left_order (L : left_part) : list event :=
  match L with [] => [] | (a, e) :: L => left_order L ++ in_order a ++ [e] end.
Fixpoint right_order (R : right_part) : list event :=
  match R with [] => [] | (e, b) :: R => e :: in_order b ++ right_order R end.

Lemma close_left_order L c : in_order (close_left L c) = left_order L ++ in_order c.
Proof.
  revert c. induction L as [|[a e] L IH]; intros c; cbn; [done|]. rewrite IH. cbn. by rewrite <- ?app_assoc.
Qed.
Lemma close_right_order R c : in_order (close_right R c) = in_order c ++ right_order R.
Proof.
  revert c. induction R as [|[e b] R IH]; intros c; cbn; [by rewrite app_nil_r|]. rewrite IH. cbn. by rewrite <- ?app_assoc.
Qed.

(** All times at most, respectively after, [time]. *)
Definition before (time : Z) (l : list event) : Prop := Forall (fun e => e_time e <= time) l.
Definition later (time : Z) (l : list event) : Prop := Forall (fun e => time < e_time e) l.

Lemma sorted_le (a b : list event) x y :
  StronglySorted ev_lt (a ++ b) -> x ∈ a -> y ∈ b -> e_time x <= e_time y.
Proof. intros (H & _ & _)%StronglySorted_app Hx Hy. specialize (H x y Hx Hy). unfold ev_lt in H. lia. Qed.

Lemma sorted_cut (a b : list event) e time :
  StronglySorted ev_lt (a ++ e :: b) ->
  (time < e_time e -> later time (e :: b)) /\ (e_time e <= time -> before time (a ++ [e])).
Proof.
  intros Hs. split; intros He.
  - constructor; [done|]. apply Forall_forall. intros x Hx.
    rewrite cons_middle, app_assoc in Hs. assert (e ∈ a ++ [e]) by set_solver.
    pose proof (sorted_le (a ++ [e]) b e x Hs) as H'. specialize (H' ltac:(done) Hx). lia.
  - apply Forall_app. split; [|by repeat constructor]. apply Forall_forall. intros x Hx.
    pose proof (sorted_le a (e :: b) x e Hs Hx) as H'. specialize (H' ltac:(left)). lia.
Qed.

Lemma sorted_parts (a b : list event) e :
  StronglySorted ev_lt (a ++ e :: b) -> StronglySorted ev_lt a /\ StronglySorted ev_lt b.
Proof. intros (_ & Ha & Hb)%StronglySorted_app. by apply StronglySorted_cons in Hb as [_ Hb]. Qed.

(** The split keeps the order and divides it at [time]. *)
Definition split_post (time : Z) (t : tree) (L : left_part) (R : right_part) (res : tree * tree) : Prop :=
  exists lo hi, in_order t = lo ++ hi /\ before time lo /\ later time hi
    /\ in_order res.1 = left_order L ++ lo /\ in_order res.2 = hi ++ right_order R.

Lemma split_loop_ok n time t L R :
  (length (in_order t) < n)%nat -> StronglySorted ev_lt (in_order t) ->
  split_post time t L R (split_loop time t L R).
Proof.
  revert t L R. induction n as [|n IH]; intros t L R Hn Hs; [lia|].
  destruct t as [|tl te tr]; cbn [split_loop].
  { exists [], []. cbn [fst snd]. rewrite close_left_order, close_right_order. split_and!; try done; by constructor. }
  cbn [in_order] in Hn, Hs. rewrite length_app in Hn. cbn [length] in Hn.
  destruct (sorted_cut _ _ _ time Hs) as [Hlater Hbefore]. destruct (sorted_parts _ _ _ Hs) as [Hsl Hsr].
  destruct (Z.ltb_spec time (e_time te)) as [Hlt|Hge].
  - specialize (Hlater Hlt). destruct tl as [|xl xe xr].
    { exists [], (in_order (Node Null te tr)). cbn [fst snd]. rewrite close_left_order, close_right_order.
      split_and!; try done; by constructor. }
    cbn [in_order] in Hn, Hsl. rewrite length_app in Hn. cbn [length] in Hn. case_cond.
    + destruct (sorted_cut _ _ _ time Hsl) as [Hl _]. destruct (sorted_parts _ _ _ Hsl) as [Hsx _].
      destruct (IH xl L ((xe, Node xr te tr) :: R)) as (lo & hi & E & Hlo & Hhi & E1 & E2); [lia|done|].
      exists lo, (hi ++ xe :: in_order xr ++ te :: in_order tr). split_and!; [|done| |done|].
      * cbn [in_order]. rewrite E. by rewrite <- ?app_assoc.
      * apply Forall_app. split; [done|]. apply (Forall_app _ (xe :: in_order xr)). split; [apply Hl; lia|done].
      * rewrite E2. cbn [right_order in_order]. rewrite <- ?app_assoc. cbn. by rewrite <- ?app_assoc.
    + destruct (IH (Node xl xe xr) L ((te, tr) :: R)) as (lo & hi & E & Hlo & Hhi & E1 & E2);
        [cbn; rewrite length_app; cbn; lia|done|].
      exists lo, (hi ++ te :: in_order tr). split_and!; [|done| |done|].
      * cbn [in_order] in E |- *. rewrite E. by rewrite <- ?app_assoc.
      * by apply Forall_app.
      * rewrite E2. cbn [right_order]. by rewrite <- ?app_assoc.
  - specialize (Hbefore Hge). destruct tr as [|xl xe xr].
    { exists (in_order (Node tl te Null)), []. cbn [fst snd]. rewrite close_left_order, close_right_order.
      split_and!; try done; [by rewrite app_nil_r|by constructor]. }
    cbn [in_order] in Hn, Hsr. rewrite length_app in Hn. cbn [length] in Hn. case_cond.
    + destruct (sorted_cut _ _ _ time Hsr) as [_ Hl]. destruct (sorted_parts _ _ _ Hsr) as [_ Hsx].
      destruct (IH xr ((Node tl te xl, xe) :: L) R) as (lo & hi & E & Hlo & Hhi & E1 & E2); [lia|done|].
      exists (in_order tl ++ te :: in_order xl ++ xe :: lo), hi. split_and!; [| |done| |done].
      * cbn [in_order]. rewrite E. rewrite <- ?app_assoc. cbn. by rewrite <- ?app_assoc.
      * rewrite cons_middle, app_assoc. apply Forall_app. split; [done|].
        rewrite cons_middle, app_assoc. apply Forall_app. split; [apply Hl; lia|done].
      * rewrite E1. cbn [left_order in_order]. rewrite <- ?app_assoc. cbn. by rewrite <- ?app_assoc.
    + destruct (IH (Node xl xe xr) ((tl, te) :: L) R) as (lo & hi & E & Hlo & Hhi & E1 & E2);
        [cbn; rewrite length_app; cbn; lia|done|].
      exists (in_order tl ++ te :: lo), hi. split_and!; [| |done| |done].
      * cbn [in_order] in E |- *. rewrite E. by rewrite <- ?app_assoc.
      * rewrite cons_middle, app_assoc. by apply Forall_app.
      * rewrite E1. cbn [left_order]. by rewrite <- ?app_assoc.
Qed.

(** Inserting in a list that is divided at the time of the event. *)
Lemma list_insert_split e lo hi :
  before (e_time e) lo -> later (e_time e) hi -> list_insert e (lo ++ hi) = lo ++ e :: hi.
Proof.
  intros Hlo Hhi. induction Hlo as [|x lo Hx Hlo IH]; cbn [list_insert app].
  - destruct Hhi as [|x hi Hx]; cbn [list_insert]; [done|]. case_cond; [done|lia].
  - case_cond; [lia|]. by rewrite IH.
Qed.

(** Insertion is insertion in the list. *)
Lemma splay_insert_order e s :
  StronglySorted ev_lt (in_order (root_ s)) ->
  in_order (root_ (splay_insert e s)) = list_insert e (in_order (root_ s)).
Proof.
  intros Hs. unfold splay_insert. cbn [root_ set_field]. destruct (root_ s) as [|l x r]; [done|].
  pose proof (split_loop_ok (S (length (in_order (Node l x r)))) (e_time e) (Node l x r) [] [] ltac:(lia) Hs) as H.
  destruct (split_loop (e_time e) (Node l x r) [] []) as [a b].
  destruct H as (lo & hi & -> & Hlo & Hhi & E1 & E2). rewrite list_insert_split by done.
  cbn [fst snd left_order right_order] in E1, E2. cbn [root_ in_order set_field]. rewrite E1, E2. by rewrite app_nil_r.
Qed.

(** Dequeueing takes the first of the order. *)
Lemma deque_loop_ok n l R :
  (length (in_order l) < n)%nat -> l <> Null ->
  returns (deque_loop l R) (fun '(e, t) => e :: in_order t = in_order l ++ right_order R).
Proof.
  revert l R. induction n as [|n IH]; intros l R Hn Hne; [lia|].
  destruct l as [|ll le lr]; [done|]. cbn [deque_loop]. destruct ll as [|lll lle llr].
  { cbn [returns]. rewrite close_right_order. by cbn. }
  destruct lll as [|l4 l4e l4r] eqn:E.
  { cbn [returns]. rewrite close_right_order. cbn. by rewrite <- ?app_assoc. }
  rewrite <- E in Hn |- *. assert (Hne' : lll <> Null) by by rewrite E. clear E.
  eapply returns_mono; [apply IH; [|done]|].
  - cbn in Hn. rewrite !length_app in Hn. cbn in Hn. lia.
  - intros [e t] ->. cbn. rewrite <- ?app_assoc. cbn. by rewrite <- ?app_assoc.
Qed.

Lemma splay_deque_order s :
  returns (splay_deque s) (fun '(o, s') => (o, in_order (root_ s')) = list_deque (in_order (root_ s))
    /\ (o = None -> s' = s) /\ (o <> None -> qsize_ s' = qsize_ s - 1)).
Proof.
  unfold splay_deque. destruct (root_ s) as [|l te tr] eqn:Er; [cbn; by rewrite Er|].
  destruct l as [|ll le lr] eqn:El; [done|]. rewrite <- El.
  eapply returns_bind; [apply (deque_loop_ok (S (length (in_order l)))); [lia|by rewrite El]|].
  intros [e t] H. cbn [returns root_ in_order qsize_ set_field]. cbn [right_order] in H.
  rewrite app_nil_r in H. rewrite <- H. done.
Qed.

(** The first of the order is the event deque would take. *)
Lemma splay_head_order t : splay_head t = head (in_order t).
Proof.
  induction t as [|l IH e r _]; [done|]. cbn [splay_head in_order]. destruct l as [|ll le lr]; [done|].
  rewrite IH. cbn. by destruct (in_order ll).
Qed.

Lemma take_leftmost_order ql qe qr :
  let '(m, t) := take_leftmost ql qe qr in m :: in_order t = in_order ql ++ qe :: in_order qr.
Proof.
  revert qe qr. induction ql as [|l IH e r _]; intros qe qr; cbn [take_leftmost]; [done|].
  specialize (IH e r). destruct (take_leftmost l e r) as [m l']. cbn [in_order].
  rewrite app_comm_cons, IH. done.
Qed.

Lemma cut_node_order l r : in_order (cut_node l r) = in_order l ++ in_order r.
Proof.
  destruct r as [|pl pe pr]; cbn [cut_node]; [by rewrite app_nil_r|]. destruct l as [|ll le lr] eqn:El; [done|].
  rewrite <- El. destruct pl as [|ql qe qr]; [done|].
  pose proof (take_leftmost_order ql qe qr) as H. destruct (take_leftmost ql qe qr) as [q pl].
  cbn [in_order]. rewrite <- H. by rewrite <- app_comm_cons.
Qed.

Lemma is_event_true e t :
  NoDup (e_addr <$> in_order t) -> e ∈ in_order t -> is_event e t = true ->
  exists l r, t = Node l e r.
Proof.
  destruct t as [|l x r]; [done|]. intros Hnd Hin E. cbn in E. apply Z.eqb_eq in E.
  exists l, r. f_equal. apply (key_inj e_addr (in_order (Node l x r))); [done| |done|done]. cbn. set_solver.
Qed.

(** Cutting the event where the search finds it. *)
Definition cut_from (e : event) (t : tree) : outcome tree :=
  if is_event e t then Ok (cut_root t) else cut_below e t.

Lemma cut_from_ok e t :
  StronglySorted ev_lt (in_order t) -> NoDup (e_addr <$> in_order t) -> e ∈ in_order t ->
  returns (cut_from e t) (fun t' => exists a b, in_order t = a ++ e :: b /\ in_order t' = a ++ b).
Proof.
  induction t as [|l IHl x r IHr]; intros Hs Hnd Hin; [by apply elem_of_nil in Hin|]. unfold cut_from.
  destruct (is_event e (Node l x r)) eqn:Ee.
  { destruct (is_event_true _ _ Hnd Hin Ee) as (l' & r' & [= -> -> ->]). cbn [returns].
    exists (in_order l'), (in_order r'). split; [done|]. cbn [cut_root]. by rewrite cut_node_order. }
  cbn [in_order] in Hs, Hnd, Hin. rewrite fmap_app, NoDup_app in Hnd. cbn in Hnd. destruct Hnd as (Hndl & _ & Hndr).
  apply NoDup_cons in Hndr as [_ Hndr]. destruct (sorted_parts _ _ _ Hs) as [Hsl Hsr].
  assert (Hx : x <> e) by (intros ->; cbn in Ee; by rewrite Z.eqb_refl in Ee).
  cbn [cut_below]. apply StronglySorted_app in Hs as (Hlx & _ & Hxr). apply StronglySorted_cons in Hxr as [Hxr _].
  rewrite Forall_forall in Hxr. destruct (goes_right e x) eqn:Eg.
  - assert (Hg : ev_lt x e) by (unfold goes_right in Eg; unfold ev_lt; lia).
    assert (Hinr : e ∈ in_order r).
    { apply elem_of_app in Hin as [Hin|[?|Hin]%elem_of_cons]; [|done|done].
      destruct (ev_lt_irrefl x). apply (ev_lt_trans _ e); [done|]. apply Hlx; [done|left]. }
    eapply returns_bind; [exact (IHr Hsr Hndr Hinr)|]. intros r' (a & b & E1 & E2). cbn [returns in_order].
    exists (in_order l ++ x :: a), b. rewrite E1, E2. by rewrite <- ?app_assoc.
  - assert (Hg : ~ ev_lt x e) by (unfold goes_right in Eg; unfold ev_lt; lia).
    assert (Hinl : e ∈ in_order l).
    { apply elem_of_app in Hin as [Hin|[?|Hin]%elem_of_cons]; [done|done|]. by destruct Hg; apply Hxr. }
    eapply returns_bind; [exact (IHl Hsl Hndl Hinl)|]. intros l' (a & b & E1 & E2). cbn [returns in_order].
    exists a, (b ++ x :: in_order r). rewrite E1, E2. by rewrite <- ?app_assoc.
Qed.

Lemma uid_lookup_ok uid t :
  match uid_lookup uid t with
  | Some e => e ∈ in_order t /\ e_uid e = uid
  | None => forall e, e ∈ in_order t -> e_uid e <> uid
  end.
Proof.
  induction t as [|l IHl x r IHr]; cbn [uid_lookup in_order]; [by intros e ?%elem_of_nil|].
  destruct (Z.eqb_spec (e_uid x) uid); [set_solver|].
  revert IHl. destruct (uid_lookup uid l); [set_solver|]. intros IHl.
  revert IHr. destruct (uid_lookup uid r); [set_solver|]. intros IHr. set_solver.
Qed.

(** The debugging check never fails. *)
Lemma validate_ok t :
  StronglySorted ev_lt (in_order t) -> validate t = Ok (Z.of_nat (length (in_order t))).
Proof.
  induction t as [|l IHl x r IHr]; intros Hs; [done|]. cbn [validate]. cbn [in_order] in Hs.
  destruct (sorted_parts _ _ _ Hs) as [Hsl Hsr].
  assert (E : match l with Null => true | Node _ y _ => e_time y <=? e_time x end
    && match r with Null => true | Node _ y _ => e_time x <=? e_time y end = true).
  { apply andb_true_iff. split; [destruct l as [|ll y lr]|destruct r as [|rl y rr]]; try done; apply Z.leb_le.
    - apply (sorted_le _ _ _ _ Hs); cbn; set_solver.
    - rewrite cons_middle, app_assoc in Hs. apply (sorted_le _ _ _ _ Hs); cbn; set_solver. }
  rewrite E, IHl, IHr by done. rewrite !bind_Ok. cbn [in_order]. rewrite length_app. cbn [length]. f_equal. lia.
Qed.

(** The splay tree meets the laws. *)
#[global] Program Instance SplayScheduler_ok : EventQueueOk splay := {
  q_inv k s := splay_inv s;
  q_events s := in_order (root_ s);
  q_time t := True;
  q_limit := 2147483647;
  q_fine s := True;
}.
Next Obligation. by repeat constructor. Qed.
Next Obligation.
  intros k s e [Hs Hq] _ _ He. cbn. rewrite splay_insert_order by done. split; [|apply list_insert_perm].
  constructor; rewrite splay_insert_order by done.
  - apply list_insert_sorted; [done|]. intros x Hx. by apply He.
  - rewrite list_insert_perm. cbn [length]. unfold splay_insert. cbn [root_ qsize_ set_field].
    destruct (root_ s); [cbn [qsize_ set_field]; lia|]. destruct (split_loop _ _ _ _). cbn [qsize_ set_field]. lia.
Qed.
Next Obligation.
  intros k s [Hs Hq] _ _. cbn. eapply returns_mono; [apply splay_deque_order|].
  intros [o s'] (Ho & Hnone & Hsome). destruct o as [m|].
  - destruct (in_order (root_ s)) as [|x l] eqn:E; [done|]. cbn in Ho. injection Ho as -> Es.
    apply StronglySorted_cons in Hs as [Hm Hl]. rewrite Es. split; [|split; [done|by rewrite Forall_forall in Hm]].
    constructor; rewrite Es; [done|]. rewrite (Hsome ltac:(done)), Hq. cbn [length]. lia.
  - rewrite (Hnone eq_refl). split; [by constructor|]. by destruct (in_order (root_ s)).
Qed.
Next Obligation.
  intros k s e [Hs Hq] He Hu Ha _. cbn. unfold splay_cancel. case_cond; [lia|].
  eapply returns_bind; [exact (cut_from_ok e (root_ s) Hs Ha He)|]. intros t (a & b & E1 & E2). cbn [returns root_ set_field].
  rewrite E1 in Hs, Hq |- *. split_and!; [|done|by rewrite E2, Permutation_middle].
  constructor; cbn [root_ qsize_ set_field]; rewrite E2; [by eapply sorted_remove|].
  rewrite Hq, !length_app. cbn [length]. lia.
Qed.
Next Obligation. intros s e He. cbn. unfold splay_cancel. case_cond; [done|lia]. Qed.
Next Obligation.
  intros k s uid [Hs Hq]. cbn. split; [by constructor|]. split; [done|]. apply uid_lookup_ok.
Qed.
