(* ===== verification/Calendar.v ===== *)
(** CalendarScheduler (common/scheduler.cc), the default scheduler: events are
    hashed by their time into the days of a year, and the number and the length
    of the days follow the queue. *)
From stdpp Require Import gmap sorting.
From S2P Require Import Prelude Doubles EventQueue.

(** * Definitions *)

(** The circular list of a bucket, from [list_] on; [count_] its distinct times. *)
Record bucket := mk_bucket {
  list_ : list event;
  count_ : Z;                 (* int *)
}.
#[global] Instance eta_bucket : Eta bucket := fun r => mk_bucket (list_ r) (count_ r).

Record calendar := mk_calendar {
  min_bin_width_ : Z;                 (* double *)
  adjust_new_width_interval_ : Z;     (* unsigned *)
  time_to_newwidth : Z;               (* unsigned *)
  head_search_ : Z;                   (* unsigned long *)
  insert_search_ : Z;                 (* unsigned long *)
  round_num_ : Z;                     (* int *)
  gap_num_ : Z;                       (* long *)
  last_time_ : Z;                     (* double *)
  avg_gap_ : Z;                       (* double *)
  width_ : Z;                         (* double *)
  diff0_ : Z;                         (* double *)
  diff1_ : Z;                         (* double *)
  diff2_ : Z;                         (* double *)
  stat_qsize_ : Z;                    (* int *)
  nbuckets_ : Z;                      (* int *)
  lastbucket_ : Z;                    (* int *)
  top_threshold_ : Z;                 (* int *)
  bot_threshold_ : Z;                 (* int *)
  buckets_ : list bucket;
  qsize_ : Z;                         (* int *)
  cal_clock_ : Z;                     (* double *)
}.
#[global] Instance eta_calendar : Eta calendar := fun r =>
  mk_calendar (min_bin_width_ r) (adjust_new_width_interval_ r) (time_to_newwidth r) (head_search_ r)
    (insert_search_ r) (round_num_ r) (gap_num_ r) (last_time_ r) (avg_gap_ r) (width_ r) (diff0_ r)
    (diff1_ r) (diff2_ r) (stat_qsize_ r) (nbuckets_ r) (lastbucket_ r) (top_threshold_ r)
    (bot_threshold_ r) (buckets_ r) (qsize_ r) (cal_clock_ r).

(** [((int)fmod((t)/width_, nbuckets_))] *)
Definition CALENDAR_HASH (t : Z) (q : calendar) : outcome Z :=
  if width_ q <=? 0 then Trap DivByZero
  else Ok (Z.quot (Z.rem (fdiv t (width_ q)) (of_int (nbuckets_ q))) one).

Definition set_bucket (i : Z) (b : bucket) (q : calendar) : outcome calendar :=
  l ← awrite (buckets_ q) i b; Ok (q <| buckets_ := l |>).

(** A new distinct time in the bucket [b], whose list becomes [l]. *)
Definition add_distinct (i : Z) (l : list event) (b : bucket) (q : calendar) : outcome calendar :=
  set_bucket i (mk_bucket l (count_ b + 1)) (q <| stat_qsize_ := stat_qsize_ q + 1 |>).

(** The way back from the tail, here the first of the list, to the event [e]
    goes after; the events passed are counted. *)
Fixpoint search_back (e : event) (r : list event) : outcome (list event * event * Z) :=
  match r with
  | [] => Trap NullDeref
  | after :: r' =>
      if e_time e <? e_time after then
        '(r', a, n) ← search_back e r'; Ok (after :: r', a, n + 1)
      else Ok (e :: r, after, 0)
  end.

(** The bucket of a new event, the clock going back for an event in the past. *)
Definition insert_clock (newtime : Z) (q : calendar) : outcome (Z * calendar) :=
  if newtime <? cal_clock_ q then
    let q := q <| cal_clock_ := newtime |> in
    i ← CALENDAR_HASH newtime q; Ok (i, q <| lastbucket_ := i |>)
  else i ← CALENDAR_HASH newtime q; Ok (i, q).

Definition insert_bucket (i : Z) (e : event) (q : calendar) : outcome calendar :=
  let newtime := e_time e in
  b ← aread (buckets_ q) i;
  match list_ b with
  | [] => add_distinct i [e] b q
  | head :: _ =>
      let q := q <| insert_search_ := insert_search_ q ⊕ 1 |> in
      if newtime <? e_time head then add_distinct i (e :: list_ b) b q
      else
        '(r, after, n) ← search_back e (rev (list_ b));
        let q := q <| insert_search_ := insert_search_ q ⊕ n |> in
        if e_time after <? newtime then add_distinct i (rev r) b q
        else set_bucket i (mk_bucket (rev r) (count_ b)) q
  end.

(** insert, up to the test for a resize *)
Definition insert_event (e : event) (q : calendar) : outcome calendar :=
  '(i, q) ← insert_clock (e_time e) q;
  q ← insert_bucket i e q;
  Ok (q <| qsize_ := qsize_ q + 1 |>).

(** The way from the head to the event [e] goes before. *)
Fixpoint search_forth (e : event) (l : list event) : outcome (list event * event) :=
  match l with
  | [] => Trap NullDeref
  | before :: l' =>
      if e_time before <? e_time e then '(l', x) ← search_forth e l'; Ok (before :: l', x)
      else Ok (e :: l, before)
  end.

(** insert2: before the events of the same time.  [e->next_] decides if the time
    is new; at the tail it is the head. *)
Definition insert2_bucket (i : Z) (e : event) (q : calendar) : outcome calendar :=
  b ← aread (buckets_ q) i;
  match list_ b, last (list_ b) with
  | head :: _, Some tail =>
      '(l, next) ← (if e_time tail <? e_time e then Ok (list_ b ++ [e], head)
                    else search_forth e (list_ b));
      if negb (e_time next =? e_time e) then add_distinct i l b q
      else set_bucket i (mk_bucket l (count_ b)) q
  | _, _ => add_distinct i [e] b q
  end.

Definition insert2 (e : event) (q : calendar) : outcome calendar :=
  i ← CALENDAR_HASH (e_time e) q;
  q ← insert2_bucket i e q;
  Ok (q <| qsize_ := qsize_ q + 1 |>).

(** ** The next event *)

(** The search for the next event: the bucket [i], the earliest head seen and
    its bucket, the event found. *)
Record scan := mk_scan {
  c_i : Z;
  c_l : Z;
  c_min : option event;
  c_found : option event;
  c_count : Z;
}.
#[global] Instance eta_scan : Eta scan := fun r =>
  mk_scan (c_i r) (c_l r) (c_min r) (c_found r) (c_count r).

Definition is_none {A} (o : option A) : bool := match o with None => true | Some _ => false end.

Definition CAL_DEQUEUE (limit : Z) (q : calendar) (s : scan) : outcome scan :=
  match c_found s with
  | Some _ => Ok s
  | None =>
      let s := s <| c_count := c_count s + 1 |> in
      let i := c_i s in
      b ← aread (buckets_ q) i;
      let next := if i + 1 =? nbuckets_ q then 0 else i + 1 in
      match list_ b with
      | [] => Ok (s <| c_i := next |>)
      | e :: _ =>
          if fsub (e_time e) (cal_clock_ q) <? limit then Ok (s <| c_l := i |> <| c_found := Some e |>)
          else
            let earlier := match c_min s with Some m => e_time e <? e_time m | None => true end in
            Ok ((if earlier then s <| c_min := Some e |> <| c_l := i |> else s) <| c_i := next |>)
      end
  end.

(** The event and its bucket, and the number of buckets searched. *)
Definition search_head (q : calendar) : outcome (option event * Z * Z) :=
  let lastbucket_dec := if nz (lastbucket_ q) then lastbucket_ q - 1 else nbuckets_ q - 1 in
  s ← CAL_DEQUEUE (diff0_ q) q (mk_scan (lastbucket_ q) (-1) None None 0);
  s ← CAL_DEQUEUE (diff1_ q) q s;
  s ← c_while (fun s => is_none (c_found s) && negb (c_i s =? lastbucket_dec)) (CAL_DEQUEUE (diff2_ q) q) s;
  match c_found s with
  | Some e => Ok (Some e, c_l s, c_count s)
  | None =>
      b ← aread (buckets_ q) (c_i s);
      let e := head (list_ b) in
      match c_min s, e with
      | Some m, None => Ok (Some m, c_l s, c_count s)
      | Some m, Some x => if e_time m <? e_time x then Ok (Some m, c_l s, c_count s) else Ok (e, c_i s, c_count s)
      | None, _ => Ok (e, c_i s, c_count s)
      end
  end.

Definition cal_head (q : calendar) : outcome (option event * calendar) :=
  if qsize_ q =? 0 then Ok (None, q)
  else
    '(o, l, n) ← search_head q;
    let q := q <| head_search_ := head_search_ q ⊕ n |> in
    if l =? -1 then Trap AssertFail
    else
      match o with
      | Some e => Ok (o, q <| lastbucket_ := l |> <| cal_clock_ := e_time e |>)
      | None => Trap NullDeref
      end.

(** ** Resizing *)

Definition reinit (nbuck bwidth start : Z) (q : calendar) : outcome calendar :=
  let q := q <| buckets_ := replicate (Z.to_nat nbuck) (mk_bucket [] 0) |>
             <| width_ := bwidth |> <| nbuckets_ := nbuck |> <| qsize_ := 0 |> <| stat_qsize_ := 0 |> in
  i ← CALENDAR_HASH start q;
  let diff0 := fdiv (fmul bwidth (of_int nbuck)) (of_int 2) in
  Ok (q <| lastbucket_ := i |> <| diff0_ := diff0 |> <| diff1_ := fadd diff0 bwidth |>
        <| diff2_ := fmul bwidth (of_int nbuck) |>
        <| bot_threshold_ := nbuck ≫ 1 - 2 |> <| top_threshold_ := nbuck ≪ 1 |>).

(** The fullest bucket, the first of them. *)
Definition fullest (l : list bucket) : bucket :=
  match l with
  | [] => mk_bucket [] 0
  | b :: l => foldl (fun m b => if count_ m <? count_ b then b else m) b l
  end.

Definition newwidth (newsize : Z) (q : calendar) : outcome (calendar * Z) :=
  let q := if nz (adjust_new_width_interval_ q)
           then q <| time_to_newwidth := adjust_new_width_interval_ q |> else q in
  if nz (adjust_new_width_interval_ q) && (0 <? avg_gap_ q) then Ok (q, fmul (avg_gap_ q) (of_int 4))
  else
    let b := fullest (buckets_ q) in
    let nsamples := count_ b in
    if nsamples <=? 4 then Ok (q, width_ q)
    else
      match head (list_ b), last (list_ b) with
      | Some first, Some tail =>
          let nw := fsub (e_time tail) (e_time first) in
          if nw <=? 0 then Trap AssertFail
          else
            let nw := fdiv nw (of_int (if newsize <? nsamples then newsize else nsamples)) in
            Ok (q, fmul nw (of_int 4))
      | _, _ => Trap NullDeref
      end.

(** The events of the old buckets, each bucket from its tail. *)
Definition reinsert (old : list bucket) (q : calendar) : outcome calendar :=
  foldl (fun q e => q ← q; insert2 e q) (Ok q) (concat (map (fun b => rev (list_ b)) old)).

(** The width when only it is adjusted; [None] when that fails this time. *)
Definition adjusted_width (newsize : Z) (q : calendar) : outcome (calendar * option Z) :=
  let bwidth := if nz (head_search_ q) then of_int (head_search_ q) else of_int 1 in
  let bwidth := if nz (insert_search_ q) then fdiv bwidth (of_int (insert_search_ q)) else bwidth in
  let bwidth := fmul (fsqrt bwidth) (width_ q) in
  if bwidth <? min_bin_width_ q then
    if 0 <? time_to_newwidth q then
      Ok (q <| time_to_newwidth := time_to_newwidth q - 1 |> <| head_search_ := 0 |>
            <| insert_search_ := 0 |> <| round_num_ := 0 |>, None)
    else '(q, w) ← newwidth newsize q; Ok (q, Some w)
  else Ok (q, Some bwidth).

Definition resize (newsize start : Z) (q : calendar) : outcome calendar :=
  '(q, w) ← (if newsize =? nbuckets_ q then adjusted_width newsize q
             else '(q, w) ← newwidth newsize q; Ok (q, Some w));
  match w with
  | None => Ok q
  | Some bwidth =>
      let newsize := if negb (newsize =? nbuckets_ q) && (newsize <? 4) then 4 else newsize in
      let oldb := buckets_ q in
      q ← reinit newsize bwidth start q;
      q ← reinsert oldb q;
      Ok (q <| head_search_ := 0 |> <| insert_search_ := 0 |> <| round_num_ := 0 |>)
  end.

(** ** The operations *)

Definition cal_insert (e : event) (q : calendar) : outcome calendar :=
  q ← insert_event e q;
  if top_threshold_ q <? stat_qsize_ q then resize (nbuckets_ q ≪ 1) (cal_clock_ q) q else Ok q.

(** The samples of gaps between dequeued events, and the adjustment of the
    width when the searches are unbalanced. *)
Definition sample_gap (e : event) (q : calendar) : outcome calendar :=
  if nz (adjust_new_width_interval_ q) then
    if last_time_ q <? 0 then Ok (q <| last_time_ := e_time e |>)
    else
      let q := q <| gap_num_ := gap_num_ q + 1 |> in
      if qsize_ q <=? gap_num_ q then
        let tt_gap := fsub (e_time e) (last_time_ q) in
        let q := q <| avg_gap_ := fdiv tt_gap (of_int (gap_num_ q)) |> <| gap_num_ := 0 |>
                   <| last_time_ := e_time e |> <| round_num_ := round_num_ q + 1 |> in
        if (20 <? round_num_ q)
           && ((u32 (insert_search_ q ≪ 1) <? head_search_ q) || (u32 (head_search_ q ≪ 1) <? insert_search_ q))
        then q ← resize (nbuckets_ q) (cal_clock_ q) q; Ok (q <| round_num_ := 0 |>)
        else if 100 <? round_num_ q
        then Ok (q <| round_num_ := 0 |> <| head_search_ := 0 |> <| insert_search_ := 0 |>)
        else Ok q
      else Ok q
  else Ok q.

(** The head of the last bucket goes. *)
Definition unlink_head (q : calendar) : outcome calendar :=
  let l := lastbucket_ q in
  b ← aread (buckets_ q) l;
  match list_ b with
  | [] => Trap NullDeref
  | e :: rest =>
      let single := match rest with [] => true | n :: _ => negb (e_time n =? e_time e) end in
      let d := if single then 1 else 0 in
      q ← set_bucket l (mk_bucket rest (count_ b - d)) (q <| stat_qsize_ := stat_qsize_ q - d |>);
      Ok (q <| qsize_ := qsize_ q - 1 |>)
  end.

Definition cal_deque (q : calendar) : outcome (option event * calendar) :=
  '(o, q) ← cal_head q;
  match o with
  | None => Ok (None, q)
  | Some e =>
      q ← sample_gap e q;
      q ← unlink_head q;
      q ← (if stat_qsize_ q <? bot_threshold_ q then resize (nbuckets_ q ≫ 1) (cal_clock_ q) q else Ok q);
      Ok (Some e, q)
  end.

(** The events before and after the one at an address. *)
Fixpoint split_at (a : Z) (l : list event) : option (list event * list event) :=
  match l with
  | [] => None
  | x :: l =>
      if e_addr x =? a then Some ([], l)
      else match split_at a l with Some (b, c) => Some (x :: b, c) | None => None end
  end.

Definition cal_cancel (e : event) (q : calendar) : outcome (calendar * event) :=
  if e_uid e <=? 0 then Ok (q, e)
  else
    i ← CALENDAR_HASH (e_time e) q;
    b ← aread (buckets_ q) i;
    match split_at (e_addr e) (list_ b) with
    | None => Trap NullDeref
    | Some (xs, ys) =>
        let distinct := match head (ys ++ xs), last (ys ++ xs) with
          | Some next, Some prev => negb (e_time next =? e_time e) && negb (e_time prev =? e_time e)
          | _, _ => true
          end in
        let d := if distinct then 1 else 0 in
        let q := q <| stat_qsize_ := stat_qsize_ q - d |> in
        let b := mk_bucket (xs ++ ys) (count_ b - d) in
        if distinct && ((stat_qsize_ q <? 0) || (count_ b <? 0)) then Trap AssertFail
        else if (count_ b =? 0) && negb (is_none (head (list_ b))) then Trap AssertFail
        else
          q ← set_bucket i b q;
          Ok (q <| qsize_ := qsize_ q - 1 |>, retire e)
    end.

Definition cal_lookup (uid : Z) (q : calendar) : option event :=
  list_find uid (concat (map list_ (buckets_ q))).

(** The fields a new object sets; the buckets are made by reinit. *)
Definition new_calendar (adjust min_bin_width : Z) : calendar :=
  mk_calendar min_bin_width adjust adjust 0 0 0 0 (of_int (-2)) (of_int (-2)) 0 0 0 0 0 0 0 0 0 [] 0 0.

Definition cal_init (adjust min_bin_width : Z) : outcome calendar :=
  reinit 4 (of_int 1) 0 (new_calendar adjust min_bin_width).

(** The scheduler, for the two variables that are bound to OTcl. *)
Definition CalendarScheduler (adjust min_bin_width : Z) : EventQueue calendar := {|
  eq_init := match cal_init adjust min_bin_width with Ok q => q | Trap _ => new_calendar adjust min_bin_width end;
  eq_insert := cal_insert;
  eq_deque := cal_deque;
  eq_cancel := cal_cancel;
  eq_lookup uid q := Ok (cal_lookup uid q, q);
|}.

(** ** What the queue keeps *)

(** The day of a time: the quotient in doubles, rounded down. *)
Definition slot (w t : Z) : Z := fdiv t w / one.

(** The number of distinct times. *)
Definition times (l : list event) : gset Z := list_to_set (e_time <$> l).
Definition distinct (l : list event) : Z := Z.of_nat (base.size (times l)).

(** Times that are not negative and not finer than 2^-1034 seconds. *)
Definition time_ok (t : Z) : Prop := 0 <= t /\ (2 ^ 40 | t).

Definition cal_events (q : calendar) : list event := concat (map list_ (buckets_ q)).

Record bucket_ok (w n i : Z) (b : bucket) : Prop := mk_bucket_ok {
  bo_sorted : StronglySorted ev_lt (list_ b);
  bo_slot : forall e, e ∈ list_ b -> slot w (e_time e) mod n = i;
  bo_times : forall e, e ∈ list_ b -> time_ok (e_time e);
  bo_count : count_ b = distinct (list_ b);
}.

Definition total_count (l : list bucket) : Z := foldr (fun b n => count_ b + n) 0 l.

(** What a resize restores by itself. *)
Record cal_core (q : calendar) : Prop := mk_cal_core {
  cv_width : 0 < width_ q;
  cv_n : 4 <= nbuckets_ q;
  cv_length : Z.of_nat (length (buckets_ q)) = nbuckets_ q;
  cv_diff2 : diff2_ q = fmul (width_ q) (of_int (nbuckets_ q));
  cv_diff0 : diff0_ q = fdiv (diff2_ q) (of_int 2);
  cv_diff1 : diff1_ q = fadd (diff0_ q) (width_ q);
  cv_top : top_threshold_ q = 2 * nbuckets_ q;
  cv_buckets : forall i b, 0 <= i -> buckets_ q !! Z.to_nat i = Some b -> bucket_ok (width_ q) (nbuckets_ q) i b;
  cv_qsize : qsize_ q = Z.of_nat (length (cal_events q));
  cv_stat : stat_qsize_ q = total_count (buckets_ q);
  cv_min_width : 0 < min_bin_width_ q;
}.

(** The clock is in the day of the last bucket, and no event is earlier. *)
Record cal_clock (q : calendar) : Prop := mk_cal_clock {
  cc_clock : 0 <= cal_clock_ q;
  cc_last : lastbucket_ q = slot (width_ q) (cal_clock_ q) mod nbuckets_ q;
  cc_after : forall e, e ∈ cal_events q -> cal_clock_ q <= e_time e;
}.

Definition cal_inv (k : Z) (q : calendar) : Prop :=
  cal_core q /\ cal_clock q /\ nbuckets_ q <= Z.max 4 k /\ qsize_ q <= k /\ k <= 1073741824.

(** The times are less than 2^50 days away from 0, and a day is at least 2^10
    times the smallest double: the rounding errors stay below a part of a day. *)
Definition fine (q : calendar) : Prop :=
  2 ^ 10 <= width_ q /\ forall e, e ∈ cal_events q -> e_time e < 2 ^ 50 * width_ q.
