(* ===== verification/CalendarOk.v ===== *)
(** CalendarScheduler keeps the events in the order of the list: the searches in
    a bucket, the search for the next event over the days, and the resizing. *)
From stdpp Require Import gmap sorting.
From S2P Require Import Prelude Doubles EventQueue Calendar.

(** * Lemmas *)

(** ** Days in doubles *)

Lemma slot_mono w t1 t2 : 0 < w -> t1 <= t2 -> slot w t1 <= slot w t2.
Proof.
  intros Hw Ht. unfold slot. pose proof one_pos. apply Z.div_le_mono; [done|]. apply fround_mono; [done|nia].
Qed.

Lemma slot_nonneg w t : 0 < w -> 0 <= t -> 0 <= slot w t.
Proof.
  intros Hw Ht. unfold slot, fdiv. pose proof one_pos. apply Z.div_pos; [|done].
  apply fround_ge; [done|apply double_0|done|nia].
Qed.

Lemma slot_bounds w t :
  0 < w -> 0 <= t < 2 ^ 50 * w -> (8 * slot w t - 1) * w <= 8 * t /\ 8 * t < (8 * slot w t + 9) * w.
Proof.
  intros Hw Ht. unfold slot. pose proof (fround_error (t * one) w Hw) as He. fold (fdiv t w) in He.
  pose proof one_big as Hone. set (O := one) in *. clearbody O. change (2 ^ 60) with (2 ^ 10 * 2 ^ 50) in Hone.
  set (f := fdiv t w) in *. clearbody f.
  pose proof (Z.mul_div_le f O) as H1. pose proof (Z.mul_succ_div_gt f O) as H2.
  specialize (H1 ltac:(lia)). specialize (H2 ltac:(lia)). set (s := f / O) in *. clearbody s.
  assert (Herr : 8 * Z.abs (w * f - t * O) <= w * O).
  { assert (t * O < 2 ^ 50 * (w * O)) by nia. assert (2 ^ 52 * w <= 2 ^ 50 * (w * O)) by nia.
    assert (2 ^ 53 * Z.abs (w * f - t * O) <= 2 ^ 50 * (w * O)) by lia. change (2 ^ 53) with (8 * 2 ^ 50) in *. lia. }
  assert (E1 : w * (O * s) <= w * f) by nia. assert (E2 : w * f < w * (O * (s + 1))) by nia.
  split.
  - apply (Z.mul_le_mono_pos_r _ _ O); [lia|]. nia.
  - apply (Z.mul_lt_mono_pos_r O); [lia|]. nia.
Qed.

Lemma hash_ok q t :
  0 < width_ q -> 0 < nbuckets_ q -> 0 <= t ->
  CALENDAR_HASH t q = Ok (slot (width_ q) t mod nbuckets_ q).
Proof.
  intros Hw Hn Ht. unfold CALENDAR_HASH. case_cond; [lia|]. f_equal. unfold slot, of_int.
  pose proof one_pos. set (f := fdiv t (width_ q)).
  assert (Hf : 0 <= f) by (apply fround_ge; [done|apply double_0|done|nia]).
  rewrite Z.rem_mod_nonneg by nia. pose proof (Z.mod_pos_bound f (nbuckets_ q * one)).
  rewrite Z.quot_div_nonneg by nia.
  rewrite (Z.mul_comm (nbuckets_ q)), Z.rem_mul_r by lia.
  rewrite Z.add_comm, Z.mul_comm, Z.div_add_l by lia.
  rewrite (Z.div_small (f mod one)) by (apply Z.mod_pos_bound; lia). lia.
Qed.

(** ** Distinct times *)

Lemma times_perm l l' : l ≡ₚ l' -> times l = times l'.
Proof. intros Hp. unfold times. by rewrite Hp. Qed.

Lemma distinct_perm l l' : l ≡ₚ l' -> distinct l = distinct l'.
Proof. intros Hp. unfold distinct. by rewrite (times_perm l l'). Qed.

Lemma elem_of_times t l : t ∈ times l <-> exists e, e ∈ l /\ e_time e = t.
Proof. unfold times. rewrite elem_of_list_to_set, list_elem_of_fmap. naive_solver. Qed.

Lemma distinct_old e l : (exists x, x ∈ l /\ e_time x = e_time e) -> distinct (e :: l) = distinct l.
Proof.
  intros H. unfold distinct. do 2 f_equal. unfold times at 1. cbn. fold (times l).
  apply elem_of_times in H. set_solver.
Qed.

Lemma distinct_new e l : (forall x, x ∈ l -> e_time x <> e_time e) -> distinct (e :: l) = distinct l + 1.
Proof.
  intros H. unfold distinct. unfold times at 1. cbn. fold (times l).
  rewrite size_union, size_singleton; [lia|]. apply disjoint_singleton_l. intros (x & Hx & E)%elem_of_times.
  by apply (H x).
Qed.

Lemma distinct_nonneg l : 0 <= distinct l <= Z.of_nat (length l).
Proof.
  induction l as [|e l IH]; [done|]. split; [unfold distinct; lia|]. cbn [length].
  destruct (decide (e_time e ∈ times l)) as [H|H].
  - rewrite distinct_old by by apply elem_of_times. lia.
  - rewrite distinct_new; [lia|]. intros x Hx E. apply H, elem_of_times. eauto.
Qed.

Lemma distinct_pos e l : e ∈ l -> 0 < distinct l.
Proof.
  intros He. unfold distinct. assert (Ht : e_time e ∈ times l) by (apply elem_of_times; eauto).
  destruct (decide (base.size (times l) = 0%nat)) as [E|]; [|lia]. apply size_empty_inv in E. set_solver.
Qed.

(** ** The searches in a bucket *)

Lemma list_insert_last e l a :
  e_time e < e_time a -> list_insert e (l ++ [a]) = list_insert e l ++ [a].
Proof.
  intros Ha. induction l as [|x l IH]; cbn [list_insert app]; [case_cond; [done|lia]|]. case_cond; [done|]. by rewrite IH.
Qed.

Lemma list_insert_end e l : (forall x, x ∈ l -> e_time x <= e_time e) -> list_insert e l = l ++ [e].
Proof.
  intros Hl. induction l as [|x l IH]; cbn [list_insert app]; [done|].
  pose proof (Hl x ltac:(left)). case_cond; [lia|]. rewrite IH; [done|]. intros y Hy. apply Hl. by right.
Qed.

Lemma elem_of_rev {A} (x : A) l : x ∈ rev l <-> x ∈ l.
Proof. rewrite !list_elem_of_In. symmetry. apply in_rev. Qed.

(** The events from the tail: the times go down. *)
Definition later (x y : event) : Prop := e_time y <= e_time x.

Lemma rev_later l : StronglySorted ev_lt l -> StronglySorted later (rev l).
Proof.
  induction 1 as [|x l Hl IH Hx]; cbn [rev]; [constructor|]. apply StronglySorted_app. split_and!; [|done|by repeat constructor].
  intros y z Hy Hz. apply list_elem_of_singleton in Hz as ->. rewrite Forall_forall in Hx.
  apply elem_of_rev, Hx in Hy. unfold later. destruct Hy; lia.
Qed.

Lemma search_back_ok e r :
  StronglySorted later r -> (exists x, x ∈ r /\ e_time x <= e_time e) ->
  returns (search_back e r) (fun '(r', after, n) =>
    rev r' = list_insert e (rev r) /\ after ∈ r /\ e_time after <= e_time e /\ 
    forall y, y ∈ r -> e_time y <= e_time e -> e_time y <= e_time after).
Proof.
  induction 1 as [|a r Hr IH Ha]; intros (x & Hx & Hle); [by apply elem_of_nil in Hx|]. cbn [search_back].
  rewrite Forall_forall in Ha. case_cond.
  - eapply returns_bind.
    { apply IH. apply elem_of_cons in Hx as [->|Hx]; [lia|eauto]. }
    intros [[r' after] n] (E & Hin & Hle' & Hmax). cbn [returns rev]. rewrite E, list_insert_last by lia.
    split_and!; [done|by right|done|]. intros y [->|Hy]%elem_of_cons Hle2; [lia|by apply Hmax].
  - cbn [returns]. split_and!; [|left|lia|].
    + cbn [rev]. symmetry. rewrite list_insert_end; [done|]. intros y Hy. apply elem_of_app in Hy as [Hy|Hy].
      * apply elem_of_rev, Ha in Hy. unfold later in Hy. lia.
      * apply list_elem_of_singleton in Hy as ->. lia.
    + intros y [->|Hy]%elem_of_cons _; [lia|]. by apply Ha.
Qed.

(** From the head, for an event that was scheduled before those of its time. *)
Lemma search_forth_ok e l :
  StronglySorted ev_lt l -> (exists x, x ∈ l /\ e_time e <= e_time x) ->
  (forall x, x ∈ l -> e_time x = e_time e -> e_uid e < e_uid x) ->
  returns (search_forth e l) (fun '(l', before) =>
    l' ≡ₚ e :: l /\ StronglySorted ev_lt l' /\ before ∈ l /\
    (e_time before <> e_time e -> forall y, y ∈ l -> e_time y <> e_time e)).
Proof.
  induction 1 as [|x l Hl IH Hx]; intros (z & Hz & Hle) Hu; [by apply elem_of_nil in Hz|]. cbn [search_forth].
  pose proof Hx as Hx'. rewrite Forall_forall in Hx. case_cond.
  - eapply returns_bind.
    { apply IH; [|intros y Hy; apply Hu; by right]. apply elem_of_cons in Hz as [->|Hz]; [lia|eauto]. }
    intros [l' before] (Hp & Hs & Hin & Hne). cbn [returns]. split_and!.
    + rewrite Hp. constructor.
    + constructor; [done|]. rewrite Hp. constructor; [left; lia|done].
    + by right.
    + intros Hb y [->|Hy]%elem_of_cons; [lia|by apply Hne].
  - cbn [returns]. split_and!; [done| |left|].
    + assert (ev_lt e x). { destruct (Z.eq_dec (e_time x) (e_time e)) as [E|]; [right; split; [done|]; apply Hu; [left|done]|left; lia]. }
      constructor; [by constructor|]. constructor; [done|]. eapply Forall_impl; [exact Hx'|]. intros y Hy. by eapply ev_lt_trans.
    + intros Hne y [->|Hy]%elem_of_cons; [done|]. apply Hx in Hy. destruct Hy; lia.
Qed.

(** ** The buckets *)

(** What a write to the buckets leaves. *)
Record same_shape (q q' : calendar) : Prop := mk_same_shape {
  ss_width : width_ q' = width_ q;
  ss_n : nbuckets_ q' = nbuckets_ q;
  ss_diff0 : diff0_ q' = diff0_ q;
  ss_diff1 : diff1_ q' = diff1_ q;
  ss_diff2 : diff2_ q' = diff2_ q;
  ss_top : top_threshold_ q' = top_threshold_ q;
  ss_min_width : min_bin_width_ q' = min_bin_width_ q;
}.

Lemma bucket_split q i :
  cal_core q -> 0 <= i < nbuckets_ q ->
  exists xs b ys, buckets_ q = xs ++ b :: ys /\ length xs = Z.to_nat i /\ aread (buckets_ q) i = Ok b /\
    bucket_ok (width_ q) (nbuckets_ q) i b /\ forall b', awrite (buckets_ q) i b' = Ok (xs ++ b' :: ys).
Proof.
  intros Hq Hi. pose proof (cv_length q Hq) as Hlen.
  destruct (aread_in (buckets_ q) i) as (b & Hr & Hl); [lia|].
  pose proof (list_elem_of_split_length _ _ _ Hl) as (xs & ys & E & Hxs). exists xs, b, ys. split_and!; [done|done|done| |].
  - apply (cv_buckets q Hq); [lia|done].
  - intros b'. rewrite awrite_ok by lia. f_equal. rewrite E, Hxs. by rewrite insert_app_r_alt, Nat.sub_diag by lia.
Qed.

Lemma events_split q xs b ys :
  buckets_ q = xs ++ b :: ys -> cal_events q ≡ₚ list_ b ++ concat (map list_ (xs ++ ys)).
Proof.
  intros E. unfold cal_events. rewrite E, !map_app. cbn [map]. rewrite !concat_app. cbn [concat].
  by rewrite Permutation_app_swap_app.
Qed.

Lemma total_count_app l1 l2 : total_count (l1 ++ l2) = total_count l1 + total_count l2.
Proof. induction l1 as [|b l1 IH]; cbn; [done|]. unfold total_count in *. lia. Qed.

Lemma core_replace q q' i xs b b' ys :
  cal_core q -> same_shape q q' -> 0 <= i ->
  buckets_ q = xs ++ b :: ys -> length xs = Z.to_nat i -> buckets_ q' = xs ++ b' :: ys ->
  bucket_ok (width_ q) (nbuckets_ q) i b' ->
  qsize_ q' - Z.of_nat (length (list_ b')) = qsize_ q - Z.of_nat (length (list_ b)) ->
  stat_qsize_ q' - count_ b' = stat_qsize_ q - count_ b -> cal_core q'.
Proof.
  intros [Hw Hn Hl H2 H0 H1 Ht Hb Hs Hst Hm] [Ew En E0 E1 E2 Et Em] Hi E Hxs E' Hb' Hq Hc.
  constructor; try congruence; try lia.
  - rewrite En, <- Hl, E, E', !length_app. done.
  - intros j c Hj. rewrite E', Ew, En. destruct (Z.eq_dec j i) as [->|Hne].
    + rewrite <- Hxs, list_lookup_middle by done. by intros [= <-].
    + intros Hc'. apply Hb; [done|]. rewrite E. rewrite <- Hc'.
      destruct (Nat.lt_ge_cases (Z.to_nat j) (length xs)); [by rewrite !lookup_app_l by done|].
      rewrite !lookup_app_r by done. destruct (Z.to_nat j - length xs)%nat eqn:Ej; [lia|done].
  - rewrite (events_split q xs b ys) in Hs by done. rewrite (events_split q' xs b' ys) by done.
    rewrite length_app in *. lia.
  - rewrite E in Hst. rewrite E', total_count_app in *. cbn in *. lia.
Qed.

(** The bucket of an event. *)
Lemma event_bucket q e :
  cal_core q -> e ∈ cal_events q ->
  exists i xs b ys, i = slot (width_ q) (e_time e) mod nbuckets_ q /\ 0 <= i < nbuckets_ q /\
    buckets_ q = xs ++ b :: ys /\ length xs = Z.to_nat i /\ e ∈ list_ b.
Proof.
  intros Hq He. unfold cal_events in He. rewrite list_elem_of_In, in_concat in He.
  destruct He as (l & Hl & He). apply in_map_iff in Hl as (b & <- & Hb). apply list_elem_of_In in He, Hb.
  apply list_elem_of_lookup in Hb as (j & Hj). pose proof (cv_length q Hq). pose proof (lookup_lt_Some _ _ _ Hj).
  pose proof (list_elem_of_split_length _ _ _ Hj) as (xs & ys & E & Hxs).
  assert (Hok : bucket_ok (width_ q) (nbuckets_ q) (Z.of_nat j) b) by (apply (cv_buckets q Hq); [lia|by rewrite Nat2Z.id]).
  exists (Z.of_nat j), xs, b, ys. split_and!; [by rewrite (bo_slot _ _ _ _ Hok e He)|lia|lia|done|lia|done].
Qed.

Lemma event_time_ok q e : cal_core q -> e ∈ cal_events q -> time_ok (e_time e).
Proof.
  intros Hq He. destruct (event_bucket q e Hq He) as (i & xs & b & ys & Ei & Hi & E & Hxs & Hin).
  apply (bo_times (width_ q) (nbuckets_ q) i b); [|done]. apply (cv_buckets q Hq); [lia|].
  rewrite E, <- Hxs. by apply list_lookup_middle.
Qed.

Lemma bucket_events q xs b ys e : buckets_ q = xs ++ b :: ys -> e ∈ list_ b -> e ∈ cal_events q.
Proof. intros E He. rewrite (events_split q xs b ys) by done. apply elem_of_app. by left. Qed.

(** ** Insertion *)

(** Writing the list with [e] into its bucket. *)
Lemma core_insert q q' e i xs b ys l d :
  cal_core q -> same_shape q q' -> time_ok (e_time e) ->
  i = slot (width_ q) (e_time e) mod nbuckets_ q ->
  buckets_ q = xs ++ b :: ys -> length xs = Z.to_nat i -> buckets_ q' = xs ++ mk_bucket l (count_ b + d) :: ys ->
  bucket_ok (width_ q) (nbuckets_ q) i b ->
  l ≡ₚ e :: list_ b -> StronglySorted ev_lt l ->
  (d = 1 /\ (forall x, x ∈ list_ b -> e_time x <> e_time e)
   \/ d = 0 /\ exists x, x ∈ list_ b /\ e_time x = e_time e) ->
  qsize_ q' = qsize_ q + 1 -> stat_qsize_ q' = stat_qsize_ q + d ->
  cal_core q' /\ cal_events q' ≡ₚ e :: cal_events q.
Proof.
  intros Hq Hss Ht Hi E Hxs E' Hb Hl Hs Hd Eq Est. pose proof (cv_n q Hq).
  assert (0 <= i) by (subst i; apply Z.mod_pos_bound; lia).
  assert (Hlen : length l = S (length (list_ b))) by (by rewrite Hl). split.
  - apply (core_replace q q' i xs b (mk_bucket l (count_ b + d)) ys); try done; cbn [list_ count_]; [|lia|lia].
    destruct Hb as [Hbs Hbi Hbt Hbc]. constructor; cbn [list_ count_]; [done| | |].
    + intros x Hx. rewrite Hl in Hx. apply elem_of_cons in Hx as [->|Hx]; [done|by apply Hbi].
    + intros x Hx. rewrite Hl in Hx. apply elem_of_cons in Hx as [->|Hx]; [done|by apply Hbt].
    + rewrite (distinct_perm l (e :: list_ b)) by done.
      destruct Hd as [[-> Hd]|[-> Hd]]; [rewrite distinct_new by done; lia|rewrite distinct_old by done; lia].
  - rewrite (events_split q' xs (mk_bucket l (count_ b + d)) ys), (events_split q xs b ys) by done. cbn [list_]. by rewrite Hl.
Qed.

(** What an insertion gives. *)
Definition inserted (e : event) (q q' : calendar) : Prop :=
  cal_core (q' <| qsize_ := qsize_ q' + 1 |>) /\ cal_events q' ≡ₚ e :: cal_events q /\ same_shape q q' /\
  qsize_ q' = qsize_ q /\ lastbucket_ q' = lastbucket_ q /\ cal_clock_ q' = cal_clock_ q.

(** A write of a longer list is an insertion. *)
Lemma set_bucket_ok q q1 e i b l d :
  cal_core q -> same_shape q q1 -> buckets_ q1 = buckets_ q -> time_ok (e_time e) ->
  i = slot (width_ q) (e_time e) mod nbuckets_ q -> aread (buckets_ q) i = Ok b ->
  l ≡ₚ e :: list_ b -> StronglySorted ev_lt l ->
  (d = 1 /\ (forall x, x ∈ list_ b -> e_time x <> e_time e)
   \/ d = 0 /\ exists x, x ∈ list_ b /\ e_time x = e_time e) ->
  qsize_ q1 = qsize_ q -> stat_qsize_ q1 = stat_qsize_ q + d -> lastbucket_ q1 = lastbucket_ q ->
  cal_clock_ q1 = cal_clock_ q ->
  returns (set_bucket i (mk_bucket l (count_ b + d)) q1) (inserted e q).
Proof.
  intros Hq Hss Hb1 Ht Hi Hr Hl Hs Hd Eq Est El Ec. pose proof (cv_n q Hq).
  destruct (bucket_split q i Hq) as (xs & b0 & ys & E & Hxs & Hr' & Hb & Hw); [subst i; apply Z.mod_pos_bound; lia|].
  rewrite Hr' in Hr. injection Hr as ->. unfold set_bucket. rewrite Hb1, Hw, bind_Ok. cbn [returns].
  set (q' := q1 <| buckets_ := _ |>).
  assert (Hss' : same_shape q (q' <| qsize_ := qsize_ q' + 1 |>)) by by destruct Hss.
  assert (Hins : cal_core (q' <| qsize_ := qsize_ q' + 1 |>) /\
    cal_events (q' <| qsize_ := qsize_ q' + 1 |>) ≡ₚ e :: cal_events q).
  { eapply (core_insert q _ e i xs b ys l d); try done. subst q'. cbn. lia. }
  destruct Hins as [Hcore Hev]. split_and!; [done|exact Hev|by destruct Hss|done..].
Qed.

Lemma add_distinct_ok q q1 e i b l :
  cal_core q -> same_shape q q1 -> buckets_ q1 = buckets_ q -> time_ok (e_time e) ->
  i = slot (width_ q) (e_time e) mod nbuckets_ q -> aread (buckets_ q) i = Ok b ->
  l ≡ₚ e :: list_ b -> StronglySorted ev_lt l -> (forall x, x ∈ list_ b -> e_time x <> e_time e) ->
  qsize_ q1 = qsize_ q -> stat_qsize_ q1 = stat_qsize_ q -> lastbucket_ q1 = lastbucket_ q ->
  cal_clock_ q1 = cal_clock_ q ->
  returns (add_distinct i l b q1) (inserted e q).
Proof.
  intros Hq Hss ** . unfold add_distinct. apply set_bucket_ok; try done; [by destruct Hss|by left|cbn; lia].
Qed.

(** A time that is in the bucket already. *)
Lemma set_bucket_same_ok q q1 e i b l :
  cal_core q -> same_shape q q1 -> buckets_ q1 = buckets_ q -> time_ok (e_time e) ->
  i = slot (width_ q) (e_time e) mod nbuckets_ q -> aread (buckets_ q) i = Ok b ->
  l ≡ₚ e :: list_ b -> StronglySorted ev_lt l -> (exists x, x ∈ list_ b /\ e_time x = e_time e) ->
  qsize_ q1 = qsize_ q -> stat_qsize_ q1 = stat_qsize_ q -> lastbucket_ q1 = lastbucket_ q ->
  cal_clock_ q1 = cal_clock_ q ->
  returns (set_bucket i (mk_bucket l (count_ b)) q1) (inserted e q).
Proof.
  intros Hq Hss ** . rewrite <- (Z.add_0_r (count_ b)). apply set_bucket_ok; try done; [by right|lia].
Qed.

Lemma insert_bucket_ok q e i :
  cal_core q -> time_ok (e_time e) -> i = slot (width_ q) (e_time e) mod nbuckets_ q ->
  (forall x, x ∈ cal_events q -> e_uid x < e_uid e) ->
  returns (insert_bucket i e q) (inserted e q).
Proof.
  intros Hq Ht Hi Hu. pose proof (cv_n q Hq).
  destruct (bucket_split q i Hq) as (xs & b & ys & E & Hxs & Hr & [Hbs Hbi Hbt Hbc] & _); [subst i; apply Z.mod_pos_bound; lia|].
  unfold insert_bucket. rewrite Hr, bind_Ok. destruct (list_ b) as [|hd l] eqn:El.
  { apply (add_distinct_ok q); try done; rewrite ?El; [done|by repeat constructor|by intros x ?%elem_of_nil]. }
  assert (Hub : forall x, x ∈ list_ b -> e_uid x < e_uid e) by (intros x Hx; by apply Hu, (bucket_events q xs b ys)).
  rewrite <- El in *. 
  assert (Hins : StronglySorted ev_lt (list_insert e (list_ b))) by by apply list_insert_sorted.
  assert (Hh : forall x, x ∈ list_ b -> x = hd \/ ev_lt hd x).
  { intros x Hx. rewrite El in Hx, Hbs. apply StronglySorted_cons in Hbs as [Hh _]. rewrite Forall_forall in Hh.
    apply elem_of_cons in Hx as [->|Hx]; [by left|right; by apply Hh]. }
  case_cond.
  - apply (add_distinct_ok q); try done.
    + constructor; [done|]. rewrite Forall_forall. intros x Hx. left. destruct (Hh x Hx) as [->|[?|[? _]]]; lia.
    + intros x Hx. destruct (Hh x Hx) as [->|[?|[? _]]]; lia.
  - eapply returns_bind.
    { apply search_back_ok; [by apply rev_later|]. exists hd. rewrite elem_of_rev, El. split; [left|lia]. }
    intros [[r after] n] (E' & Hin & Hle & Hmax). rewrite rev_involutive in E'. rewrite E'.
    rewrite elem_of_rev in Hin. case_cond.
    + apply (add_distinct_ok q); try done; [by rewrite list_insert_perm|].
      intros x Hx Ex. specialize (Hmax x). rewrite elem_of_rev in Hmax. specialize (Hmax Hx). lia.
    + apply (set_bucket_same_ok q); try done; [by rewrite list_insert_perm|]. exists after. split; [done|lia].
Qed.

Lemma insert_clock_ok q t :
  cal_core q -> cal_clock q -> 0 <= t ->
  returns (insert_clock t q) (fun '(i, q1) =>
    i = slot (width_ q) t mod nbuckets_ q /\ cal_core q1 /\ cal_clock q1 /\ cal_events q1 = cal_events q /\
    same_shape q q1 /\ qsize_ q1 = qsize_ q /\ cal_clock_ q1 <= t).
Proof.
  intros Hq [Hc0 Hl Ha] Ht. pose proof (cv_width q Hq) as Hw. pose proof (cv_n q Hq) as Hn. unfold insert_clock. case_cond.
  - rewrite hash_ok, bind_Ok by (cbn; lia). cbn [returns]. split_and!; [done|by destruct Hq| |done|done|done|cbn; lia].
    constructor; [done|done|]. intros e He. cbn. specialize (Ha e He). lia.
  - rewrite hash_ok, bind_Ok by lia. cbn [returns]. split_and!; [done..|lia].
Qed.

Lemma same_shape_trans q1 q2 q3 : same_shape q1 q2 -> same_shape q2 q3 -> same_shape q1 q3.
Proof. intros [] []. constructor; congruence. Qed.

Lemma insert_event_ok q e :
  cal_core q -> cal_clock q -> time_ok (e_time e) -> (forall x, x ∈ cal_events q -> e_uid x < e_uid e) ->
  returns (insert_event e q) (fun q' =>
    cal_core q' /\ cal_clock q' /\ cal_events q' ≡ₚ e :: cal_events q /\ same_shape q q' /\ qsize_ q' = qsize_ q + 1).
Proof.
  intros Hq Hc Ht Hu. unfold insert_event.
  eapply returns_bind; [apply insert_clock_ok; [done|done|apply Ht]|].
  intros [i q1] (Hi & Hq1 & [Hc0 Hl Ha] & Hev & Hss & Hqs & Hct).
  eapply returns_bind; [apply insert_bucket_ok; [done|done| |by rewrite Hev]|].
  { destruct Hss. congruence. }
  intros q2 (Hcore & Hev2 & Hss2 & Hqs2 & Hl2 & Hc2). cbn [returns]. rewrite Hev in Hev2.
  split_and!; [done| |done|destruct (same_shape_trans _ _ _ Hss Hss2); by constructor|cbn; lia].
  constructor.
  - cbn. congruence.
  - cbn. destruct Hss2. congruence.
  - intros x Hx. change (x ∈ cal_events q2) in Hx. rewrite Hev2 in Hx. cbn. rewrite Hc2.
    apply elem_of_cons in Hx as [->|Hx]; [done|]. apply Ha. by rewrite Hev.
Qed.

Lemma sorted_bounds (l : list event) hd tl x :
  StronglySorted ev_lt l -> head l = Some hd -> last l = Some tl -> x ∈ l -> e_time hd <= e_time x <= e_time tl.
Proof.
  intros Hl Hh Ht Hx. split.
  - destruct l as [|y l]; [done|]. injection Hh as ->. apply StronglySorted_cons in Hl as [Hy _]. rewrite Forall_forall in Hy.
    apply elem_of_cons in Hx as [->|Hx]; [lia|]. apply Hy in Hx. destruct Hx; lia.
  - apply last_Some in Ht as (l' & ->). apply StronglySorted_app in Hl as (H & _ & _).
    apply elem_of_app in Hx as [Hx|Hx]; [|apply list_elem_of_singleton in Hx as ->; lia].
    destruct (H x tl Hx ltac:(left)); lia.
Qed.

Lemma head_in {A} (l : list A) x : head l = Some x -> x ∈ l.
Proof. destruct l; [done|]. intros [= ->]. left. Qed.
Lemma last_in {A} (l : list A) x : last l = Some x -> x ∈ l.
Proof. intros (l' & ->)%last_Some. apply elem_of_app. right. left. Qed.

Lemma insert2_bucket_ok q e i :
  cal_core q -> time_ok (e_time e) -> i = slot (width_ q) (e_time e) mod nbuckets_ q ->
  (forall x, x ∈ cal_events q -> e_time x = e_time e -> e_uid e < e_uid x) ->
  returns (insert2_bucket i e q) (inserted e q).
Proof.
  intros Hq Ht Hi Hu. pose proof (cv_n q Hq).
  destruct (bucket_split q i Hq) as (xs & b & ys & E & Hxs & Hr & [Hbs Hbi Hbt Hbc] & _); [subst i; apply Z.mod_pos_bound; lia|].
  unfold insert2_bucket. rewrite Hr, bind_Ok.
  assert (Hadd : list_ b = [] -> returns (add_distinct i [e] b q) (inserted e q)).
  { intros El. apply (add_distinct_ok q); try done; rewrite ?El; [done|by repeat constructor|by intros x ?%elem_of_nil]. }
  destruct (list_ b) as [|hd l] eqn:El; [by apply Hadd|]. rewrite <- El in *.
  destruct (last (list_ b)) as [tl|] eqn:Elast; [|apply last_None in Elast; by apply Hadd].
  assert (Hh : head (list_ b) = Some hd) by by rewrite El.
  pose proof (sorted_bounds (list_ b) hd tl) as Hbd.
  assert (Hub : forall x, x ∈ list_ b -> e_time x = e_time e -> e_uid e < e_uid x)
    by (intros x Hx; by apply Hu, (bucket_events q xs b ys)).
  eapply (returns_bind _ _ (fun '(l', next) => l' ≡ₚ e :: list_ b /\ StronglySorted ev_lt l' /\ next ∈ list_ b /\
    (e_time next <> e_time e -> forall y, y ∈ list_ b -> e_time y <> e_time e))).
  { case_cond.
    - cbn [returns]. assert (Hlt : forall x, x ∈ list_ b -> e_time x < e_time e).
      { intros x Hx. specialize (Hbd x Hbs Hh Elast Hx). lia. }
      split_and!; [by rewrite Permutation_app_comm| |by apply head_in|].
      + apply StronglySorted_app. split_and!; [|done|by repeat constructor].
        intros x y Hx Hy. apply list_elem_of_singleton in Hy as ->. left. by apply Hlt.
      + intros _ y Hy. specialize (Hlt y Hy). lia.
    - apply search_forth_ok; [done| |done]. exists tl. split; [by apply last_in|lia]. }
  intros [l' next] (Hp & Hs & Hin & Hne). destruct (Z.eqb_spec (e_time next) (e_time e)) as [En|En]; cbn [negb].
  - apply (set_bucket_same_ok q); try done. by exists next.
  - apply (add_distinct_ok q); try done. by apply Hne.
Qed.

Lemma insert2_ok q e :
  cal_core q -> time_ok (e_time e) -> (forall x, x ∈ cal_events q -> e_time x = e_time e -> e_uid e < e_uid x) ->
  returns (insert2 e q) (fun q' => cal_core q' /\ cal_events q' ≡ₚ e :: cal_events q /\ same_shape q q' /\
    qsize_ q' = qsize_ q + 1 /\ lastbucket_ q' = lastbucket_ q /\ cal_clock_ q' = cal_clock_ q).
Proof.
  intros Hq Ht Hu. pose proof (cv_width q Hq). pose proof (cv_n q Hq). unfold insert2. 
  rewrite hash_ok, bind_Ok by (try apply Ht; lia).
  eapply returns_bind; [by apply insert2_bucket_ok|].
  intros q2 (Hcore & Hev2 & [] & Hqs2 & Hl2 & Hc2). cbn [returns]. split_and!; try done. cbn. lia.
Qed.

(** Going through [l], the events of a time come from the latest on. *)
Definition backwards : list event -> Prop := StronglySorted (fun x y => e_time y = e_time x -> e_uid y < e_uid x).

Lemma reinsert_list_ok l q :
  cal_core q -> (forall x, x ∈ l -> time_ok (e_time x)) -> backwards l ->
  (forall x y, x ∈ l -> y ∈ cal_events q -> e_time y = e_time x -> e_uid x < e_uid y) ->
  returns (foldl (fun q e => q ← q; insert2 e q) (Ok q) l) (fun q' =>
    cal_core q' /\ cal_events q' ≡ₚ l ++ cal_events q /\ same_shape q q' /\
    lastbucket_ q' = lastbucket_ q /\ cal_clock_ q' = cal_clock_ q).
Proof.
  revert q. induction l as [|e l IH]; intros q Hq Ht Hl Hu; cbn [foldl]; [cbn [returns]; by split_and!|].
  rewrite bind_Ok. pose proof (insert2_ok q e Hq) as He. apply returns_inv in He as (q1 & -> & Hq1 & Hev & Hss & Hqs & Hlb & Hc);
    [|apply Ht; left|intros x Hx; apply Hu; [left|done]].
  apply StronglySorted_cons in Hl as [He Hl]. rewrite Forall_forall in He. eapply returns_mono; [apply (IH q1)|].
  - done.
  - intros x Hx. apply Ht. by right.
  - done.
  - intros x y Hx Hy Ey. rewrite Hev in Hy. apply elem_of_cons in Hy as [->|Hy]; [by apply He|]. apply Hu; [by right|done|done].
  - intros q' (Hq' & Hev' & Hss' & Hlb' & Hc'). split_and!; [done| |by eapply same_shape_trans|congruence|congruence].
    rewrite Hev', Hev. cbn. by rewrite Permutation_middle.
Qed.

(** ** Resizing *)

(** Only the samples and the search counters change. *)
Record same_queue (q q' : calendar) : Prop := mk_same_queue {
  sq_shape : same_shape q q';
  sq_buckets : buckets_ q' = buckets_ q;
  sq_qsize : qsize_ q' = qsize_ q;
  sq_stat : stat_qsize_ q' = stat_qsize_ q;
  sq_last : lastbucket_ q' = lastbucket_ q;
  sq_clock : cal_clock_ q' = cal_clock_ q;
}.

Lemma same_queue_refl q : same_queue q q.
Proof. done. Qed.

Lemma same_queue_trans q1 q2 q3 : same_queue q1 q2 -> same_queue q2 q3 -> same_queue q1 q3.
Proof. intros [] []. constructor; [by eapply same_shape_trans|congruence..]. Qed.

Lemma same_queue_events q q' : same_queue q q' -> cal_events q' = cal_events q.
Proof. intros []. unfold cal_events. congruence. Qed.

Lemma same_queue_core q q' : same_queue q q' -> cal_core q -> cal_core q'.
Proof.
  intros Hs. pose proof (same_queue_events _ _ Hs) as E. destruct Hs as [[Ew En E0 E1 E2 Et Em] Eb Eq Est El Ec].
  intros []. constructor; try congruence. by rewrite Eb, Ew, En.
Qed.

Lemma same_queue_clock q q' : same_queue q q' -> cal_clock q -> cal_clock q'.
Proof.
  intros Hs. pose proof (same_queue_events _ _ Hs) as E. destruct Hs as [[Ew En E0 E1 E2 Et Em] Eb Eq Est El Ec].
  intros []. constructor; try congruence. by rewrite E, Ec.
Qed.

Lemma backwards_rev l : StronglySorted ev_lt l -> backwards (rev l).
Proof.
  induction 1 as [|x l Hl IH Hx]; cbn [rev]; [constructor|]. apply StronglySorted_app. split_and!; [|done|by repeat constructor].
  intros y z Hy Hz. apply list_elem_of_singleton in Hz as ->. rewrite Forall_forall in Hx.
  rewrite elem_of_rev in Hy. apply Hx in Hy. destruct Hy; lia.
Qed.

Lemma backwards_buckets w n bs k :
  (forall j b, bs !! j = Some b -> bucket_ok w n (k + Z.of_nat j) b) ->
  backwards (concat (map (fun b => rev (list_ b)) bs)).
Proof.
  revert k. induction bs as [|b bs IH]; intros k Hb; cbn [map concat]; [constructor|].
  pose proof (Hb O b eq_refl) as H0. apply StronglySorted_app. split_and!.
  - intros x y Hx Hy E. exfalso. rewrite elem_of_rev in Hx. apply list_elem_of_In, in_concat in Hy as (l & Hl & Hy).
    apply in_map_iff in Hl as (c & <- & Hc). apply list_elem_of_In in Hc, Hy. rewrite elem_of_rev in Hy.
    apply list_elem_of_lookup in Hc as (j & Hj). pose proof (Hb (S j) c Hj) as Hc.
    pose proof (bo_slot _ _ _ _ H0 x Hx). pose proof (bo_slot _ _ _ _ Hc y Hy) as Hs. rewrite E in Hs. lia.
  - by apply backwards_rev, H0.
  - apply (IH (k + 1)). intros j c Hj. specialize (Hb (S j) c Hj). replace (k + 1 + Z.of_nat j) with (k + Z.of_nat (S j)) by lia. done.
Qed.

Lemma rev_buckets_perm bs : concat (map (fun b => rev (list_ b)) bs) ≡ₚ concat (map list_ bs).
Proof. induction bs as [|b bs IH]; cbn [map concat]; [done|]. rewrite IH. by rewrite <- Permutation_rev. Qed.

Lemma concat_replicate_nil {A} n : concat (replicate n ([] : list A)) = [].
Proof. by induction n. Qed.

Lemma reinit_events n : concat (map list_ (replicate n (mk_bucket [] 0))) = [].
Proof. by induction n. Qed.

Lemma reinit_count n : total_count (replicate n (mk_bucket [] 0)) = 0.
Proof. by induction n. Qed.

Lemma reinit_ok q n w start :
  0 < min_bin_width_ q -> 0 < w -> 4 <= n -> 0 <= start ->
  returns (reinit n w start q) (fun q' => cal_core q' /\ cal_events q' = [] /\
    width_ q' = w /\ nbuckets_ q' = n /\ lastbucket_ q' = slot w start mod n /\ cal_clock_ q' = cal_clock_ q).
Proof.
  intros Hm Hw Hn Ht. unfold reinit. rewrite hash_ok, bind_Ok by (cbn; lia). cbn [returns].
  split_and!; [|by apply reinit_events|done..]. constructor; try done.
  - cbn. rewrite length_replicate. lia.
  - intros i b Hi Hb. cbn in Hb. apply lookup_replicate in Hb as [-> _].
    constructor; cbn; [constructor|by intros e ?%elem_of_nil..|done].
  - cbn. by rewrite reinit_events.
  - cbn. by rewrite reinit_count.
Qed.

Lemma fullest_in l : l <> [] -> fullest l ∈ l.
Proof.
  destruct l as [|b l]; [done|]. intros _. cbn [fullest]. revert b. induction l as [|c l IH]; intros b; cbn [foldl]; [left|].
  case_cond; [right; apply IH|]. specialize (IH b). apply elem_of_cons in IH as [IH|IH]; [rewrite IH; left|by do 2 right].
Qed.

Lemma fmul4_pos a : 0 < a -> 0 < fmul a (of_int 4).
Proof.
  intros Ha. unfold fmul, of_int. pose proof one_pos. enough (1 <= fround (a * (4 * one)) one) by lia.
  apply fround_ge; [lia|by apply double_small|done|nia].
Qed.

(** Five distinct times are 2^40 units apart. *)
Lemma distinct_spread l hd tl :
  StronglySorted ev_lt l -> (forall e, e ∈ l -> time_ok (e_time e)) -> 1 < distinct l ->
  head l = Some hd -> last l = Some tl -> e_time hd + 2 ^ 40 <= e_time tl.
Proof.
  intros Hs Ht Hd Hh Hl. pose proof (sorted_bounds l hd tl) as Hb.
  assert (Hin : tl ∈ l) by by apply last_in. assert (Hin' : hd ∈ l) by by apply head_in.
  destruct (Ht _ Hin) as [_ [a Ea]]. destruct (Ht _ Hin') as [_ [b Eb]].
  assert (Hle : e_time hd <= e_time tl) by (specialize (Hb tl Hs Hh Hl Hin); lia).
  assert (Hne : e_time hd <> e_time tl).
  { intros E. enough (distinct l <= 1) by lia. unfold distinct.
    assert (Hsub : times l ⊆ {[ e_time hd ]}).
    { intros t (x & Hx & <-)%elem_of_times. specialize (Hb x Hs Hh Hl Hx). apply elem_of_singleton. lia. }
    apply subseteq_size in Hsub. rewrite size_singleton in Hsub. lia. }
  rewrite Ea, Eb in *. assert (b < a) by nia. lia.
Qed.

Lemma newwidth_ok q newsize :
  cal_core q -> 0 < newsize -> qsize_ q <= 1073741824 ->
  returns (newwidth newsize q) (fun '(q', w) => same_queue q q' /\ 0 < w).
Proof.
  intros Hq Hn Hqs. unfold newwidth. set (q1 := if nz (adjust_new_width_interval_ q) then _ else _).
  assert (Hsq : same_queue q q1) by (subst q1; by case_cond).
  pose proof (same_queue_core _ _ Hsq Hq) as Hq1. pose proof (sq_qsize _ _ Hsq) as Eqs.
  clearbody q1. pose proof (cv_width q1 Hq1). case_cond; [cbn [returns]; split; [done|apply fmul4_pos; lia]|].
  case_cond; [by cbn [returns]|]. set (b := fullest (buckets_ q1)) in *.
  assert (Hb : b ∈ buckets_ q1).
  { apply fullest_in. intros E. pose proof (cv_length q1 Hq1) as Hl. rewrite E in Hl. pose proof (cv_n q1 Hq1). cbn in Hl. lia. }
  clearbody b. apply list_elem_of_lookup in Hb as (j & Hj).
  assert (Hbok : bucket_ok (width_ q1) (nbuckets_ q1) (Z.of_nat j) b) by (apply (cv_buckets q1 Hq1); [lia|by rewrite Nat2Z.id]).
  pose proof (list_elem_of_split_length _ _ _ Hj) as (xs & ys & E & Hxs).
  pose proof (cv_qsize q1 Hq1) as Hlen. rewrite (events_split q1 xs b ys E), length_app in Hlen.
  destruct Hbok as [Hs _ Ht Hcnt]. pose proof (distinct_nonneg (list_ b)) as Hd.
  destruct (head (list_ b)) as [hd|] eqn:Eh; [|destruct (list_ b); [cbn in Hd; lia|done]].
  destruct (last (list_ b)) as [tl|] eqn:Et; [|apply last_None in Et; rewrite Et in *; done].
  pose proof (distinct_spread (list_ b) hd tl Hs Ht ltac:(lia) Eh Et) as Hsp.
  assert (Hnw : 2 ^ 40 <= fsub (e_time tl) (e_time hd)).
  { apply fround_ge; [lia|by apply double_pow2|lia|lia]. }
  set (nw := fsub _ _) in *. clearbody nw. case_cond; [lia|]. cbn [returns]. split; [done|].
  apply fmul4_pos. set (m := if newsize <? count_ b then newsize else count_ b).
  assert (Hm : 0 < m <= 2 ^ 30) by (subst m; case_cond; lia). pose proof one_pos. unfold fdiv, of_int.
  enough (1 <= fround (nw * one) (m * one)) by lia. apply fround_ge; [lia|by apply double_small|nia|].
  enough (m <= nw) by nia. lia.
Qed.

Lemma adjusted_width_ok q newsize :
  cal_core q -> 0 < newsize -> qsize_ q <= 1073741824 ->
  returns (adjusted_width newsize q) (fun '(q', w) => same_queue q q' /\ match w with Some w => 0 < w | None => True end).
Proof.
  intros Hq Hn Hqs. unfold adjusted_width. set (bw := fmul _ _). clearbody bw. pose proof (cv_min_width q Hq).
  case_cond; [|cbn [returns]; split; [done|lia]]. case_cond; [by cbn [returns]|].
  eapply returns_bind; [by apply newwidth_ok|]. intros [q' w] [Hs Hw]. by cbn [returns].
Qed.

(** A resize keeps the events, the clock and the number of days that is asked for. *)
Lemma cal_resize_ok q newsize :
  cal_core q -> cal_clock q -> 2 <= newsize -> qsize_ q <= 1073741824 ->
  returns (resize newsize (cal_clock_ q) q) (fun q' => cal_core q' /\ cal_clock q' /\ cal_events q' ≡ₚ cal_events q /\
    cal_clock_ q' = cal_clock_ q /\ (nbuckets_ q' = nbuckets_ q \/ nbuckets_ q' = Z.max 4 newsize)).
Proof.
  intros Hq Hc Hn Hqs. unfold resize.
  eapply (returns_bind _ _ (fun '(q', w) => same_queue q q' /\ match w with Some w => 0 < w | None => True end)).
  { case_cond; [by apply adjusted_width_ok; [|lia|]|].
    eapply returns_bind; [apply newwidth_ok; [done|lia|done]|]. intros [q' w] [Hs Hw]. by cbn [returns]. }
  intros [q1 w] [Hsq Hw]. pose proof (same_queue_core _ _ Hsq Hq) as Hq1. pose proof (same_queue_clock _ _ Hsq Hc) as Hc1.
  pose proof (same_queue_events _ _ Hsq) as Ev.
  destruct w as [w|]; [|cbn [returns]; split_and!; [done|done|by rewrite Ev|apply Hsq|left; apply Hsq]].
  set (m := if negb _ && _ then 4 else newsize).
  assert (Hm : 4 <= m /\ (m = nbuckets_ q \/ m = Z.max 4 newsize)).
  { pose proof (cv_n q Hq). pose proof (ss_n _ _ (sq_shape _ _ Hsq)). subst m. case_cond; lia. }
  clearbody m. destruct Hm as [Hm4 Hm].
  eapply returns_bind; [apply reinit_ok; [apply Hq1|done|done|apply Hc]|].
  intros q2 (Hq2 & Ev2 & Ew2 & En2 & El2 & Ec2).
  eapply returns_bind.
  { unfold reinsert. apply reinsert_list_ok; [done| | |].
    - intros x Hx. rewrite rev_buckets_perm in Hx. by apply (event_time_ok q1).
    - apply (backwards_buckets (width_ q1) (nbuckets_ q1) _ 0). intros j b Hj. apply (cv_buckets q1 Hq1); [lia|].
      by replace (Z.to_nat (0 + Z.of_nat j)) with j by lia.
    - intros x y _ Hy. rewrite Ev2 in Hy. by apply elem_of_nil in Hy. }
  intros q3 (Hq3 & Ev3 & Hss & El3 & Ec3). cbn [returns].
  rewrite Ev2, app_nil_r, rev_buckets_perm in Ev3. fold (cal_events q1) in Ev3. rewrite Ev in Ev3.
  assert (Ec : cal_clock_ q3 = cal_clock_ q) by (rewrite Ec3, Ec2; apply Hsq).
  destruct Hss as [Ew3 En3 _ _ _ _ _].
  split_and!; [by destruct Hq3| |exact Ev3|exact Ec|cbn; rewrite En3, En2; done].
  constructor; cbn; rewrite Ec; [apply Hc|rewrite El3, El2, Ew3, En3; congruence|].
  intros x Hx. change (x ∈ cal_events q3) in Hx. rewrite Ev3 in Hx. by apply Hc.
Qed.

Lemma stat_bounds q : cal_core q -> 0 <= stat_qsize_ q <= qsize_ q.
Proof.
  intros Hq. rewrite (cv_stat q Hq), (cv_qsize q Hq). unfold cal_events.
  assert (Hb : forall b, b ∈ buckets_ q -> 0 <= count_ b <= Z.of_nat (length (list_ b))).
  { intros b Hb. apply list_elem_of_lookup in Hb as (j & Hj).
    assert (Hok : bucket_ok (width_ q) (nbuckets_ q) (Z.of_nat j) b) by (apply (cv_buckets q Hq); [lia|by rewrite Nat2Z.id]).
    rewrite (bo_count _ _ _ _ Hok). apply distinct_nonneg. }
  revert Hb. generalize (buckets_ q) as l. induction l as [|b l IH]; intros Hb; [done|].
  cbn [map concat total_count foldr]. fold (total_count l). rewrite length_app.
  pose proof (Hb b ltac:(left)). specialize (IH ltac:(intros c Hc; apply Hb; by right)). lia.
Qed.

Lemma cal_insert_ok k q e :
  cal_inv k q -> 0 <= k < 1073741824 -> time_ok (e_time e) ->
  (forall x, x ∈ cal_events q -> e_uid x < e_uid e) ->
  returns (cal_insert e q) (fun q' => cal_inv (k + 1) q' /\ cal_events q' ≡ₚ e :: cal_events q).
Proof.
  intros (Hq & Hc & Hn & Hqs & Hk) Hk' Ht Hu. unfold cal_insert.
  eapply returns_bind; [by apply insert_event_ok|].
  intros q1 (Hq1 & Hc1 & Hev & Hss & Hqs1). pose proof (ss_n _ _ Hss) as En.
  case_cond; [|cbn [returns]; split; [split_and!; [done|done|lia|lia|lia]|done]].
  pose proof (cv_top q1 Hq1). pose proof (stat_bounds q1 Hq1). pose proof (cv_n q1 Hq1).
  assert (Es : nbuckets_ q1 ≪ 1 = 2 * nbuckets_ q1) by (rewrite Z.shiftl_mul_pow2 by lia; lia). rewrite Es.
  eapply returns_mono; [apply cal_resize_ok; [done|done|lia|lia]|].
  intros q2 (Hq2 & Hc2 & Hev2 & _ & Hn2). split; [|by rewrite Hev2].
  assert (qsize_ q2 = qsize_ q1) by (rewrite (cv_qsize q2 Hq2), (cv_qsize q1 Hq1), Hev2; done).
  split_and!; [done|done|lia|lia|lia].
Qed.

(** ** Cancellation *)

Lemma split_at_ok e l :
  NoDup (e_addr <$> l) -> e ∈ l -> exists xs ys, split_at (e_addr e) l = Some (xs, ys) /\ l = xs ++ e :: ys.
Proof.
  induction l as [|x l IH]; intros Hnd Hin; [by apply elem_of_nil in Hin|]. cbn [split_at].
  destruct (Z.eqb_spec (e_addr x) (e_addr e)) as [E|E].
  - assert (x = e) as -> by (apply (key_inj e_addr (x :: l)); [done|left|done|done]). by exists [], l.
  - apply elem_of_cons in Hin as [->|Hin]; [done|]. cbn in Hnd. apply NoDup_cons in Hnd as [_ Hnd].
    destruct (IH Hnd Hin) as (xs & ys & -> & ->). by exists (x :: xs), ys.
Qed.

(** The neighbours on the circle tell if the time of [e] stays. *)
Lemma neighbours_ok xs e ys :
  StronglySorted ev_lt (xs ++ e :: ys) ->
  let distinct := match head (ys ++ xs), last (ys ++ xs) with
    | Some next, Some prev => negb (e_time next =? e_time e) && negb (e_time prev =? e_time e)
    | _, _ => true
    end in
  if distinct then forall x, x ∈ xs ++ ys -> e_time x <> e_time e else exists x, x ∈ xs ++ ys /\ e_time x = e_time e.
Proof.
  intros (H & Hxs & [He Hys]%StronglySorted_cons)%StronglySorted_app. cbv zeta. rewrite Forall_forall in He.
  assert (Hp : forall x, x ∈ ys ++ xs <-> x ∈ xs ++ ys) by (intros x; rewrite !elem_of_app; tauto).
  destruct (head (ys ++ xs)) as [next|] eqn:Eh.
  2: { destruct ys; [|done]. destruct xs; [|done]. intros x Hx. by apply elem_of_nil in Hx. }
  destruct (last (ys ++ xs)) as [prev|] eqn:El; [|apply last_None in El; by rewrite El in Eh].
  destruct (Z.eqb_spec (e_time next) (e_time e)) as [En|En]; cbn [negb andb].
  { exists next. split; [|done]. rewrite <- Hp. by apply head_in. }
  destruct (Z.eqb_spec (e_time prev) (e_time e)) as [Ep|Ep]; cbn [negb].
  { exists prev. split; [|done]. rewrite <- Hp. by apply last_in. }
  intros x Hx Ex. apply elem_of_app in Hx as [Hx|Hx].
  - apply Ep. assert (Hl : last xs = Some prev). { rewrite <- El, last_app. destruct xs as [|y xs']; [by apply elem_of_nil in Hx|].
      by destruct (last (y :: xs')) eqn:E; [|apply last_None in E]. }
    destruct (head xs) as [hd|] eqn:Ehd; [|destruct xs; [by apply elem_of_nil in Hx|done]].
    pose proof (sorted_bounds xs hd prev x Hxs Ehd Hl Hx). destruct (H prev e (last_in _ _ Hl) ltac:(left)) as [?|[? _]]; lia.
  - apply En. destruct ys as [|y ys]; [by apply elem_of_nil in Hx|]. injection Eh as ->.
    destruct (last (next :: ys)) as [tl|] eqn:Etl; [|by apply last_None in Etl].
    pose proof (sorted_bounds (next :: ys) next tl x Hys eq_refl Etl Hx). destruct (He next ltac:(left)) as [?|[? _]]; lia.
Qed.

Lemma cal_cancel_ok k q e :
  cal_inv k q -> e ∈ cal_events q -> 0 < e_uid e -> NoDup (e_addr <$> cal_events q) ->
  returns (cal_cancel e q) (fun '(q', e') => cal_inv k q' /\ e' = retire e /\ cal_events q ≡ₚ e :: cal_events q').
Proof.
  intros (Hq & Hc & Hn & Hqs & Hk) He Hu Hnd. pose proof (cv_n q Hq) as Hn4. pose proof (cv_width q Hq) as Hw.
  pose proof (event_time_ok q e Hq He) as [Ht _]. unfold cal_cancel. case_cond; [lia|].
  rewrite hash_ok, bind_Ok by lia.
  destruct (event_bucket q e Hq He) as (i & xs & b & ys & Ei & Hi & E & Hxs & Hin). rewrite <- Ei.
  destruct (bucket_split q i Hq Hi) as (xs0 & b0 & ys0 & E0 & Hxs0 & Hr & Hb & Hwr).
  rewrite E in E0. apply app_inj_1 in E0 as [<- [= <- <-]]; [|lia]. rewrite Hr, bind_Ok.
  pose proof (events_split q xs b ys E) as Hev. rewrite Hev, fmap_app in Hnd. apply NoDup_app in Hnd as (Hnd & _ & _).
  destruct (split_at_ok e (list_ b) Hnd Hin) as (l1 & l2 & Esp & El). rewrite Esp.
  destruct Hb as [Hs Hsl Htm Hcn]. rewrite El in Hs. pose proof (neighbours_ok l1 e l2 Hs) as Hd. cbv zeta in Hd.
  set (distinct_ := match head (l2 ++ l1) with Some _ => _ | None => _ end) in *. clearbody distinct_.
  set (d := if distinct_ then 1 else 0).
  assert (Hp : list_ b ≡ₚ e :: l1 ++ l2) by (rewrite El; symmetry; apply Permutation_middle).
  assert (Hcount : count_ b - d = distinct (l1 ++ l2)).
  { rewrite Hcn, (distinct_perm _ _ Hp). subst d. destruct distinct_; [rewrite distinct_new by done|rewrite distinct_old by done]; lia. }
  assert (Hstat : stat_qsize_ q - d = total_count (xs ++ mk_bucket (l1 ++ l2) (count_ b - d) :: ys)).
  { rewrite (cv_stat q Hq), E, !total_count_app. cbn. lia. }
  set (q1 := q <| stat_qsize_ := stat_qsize_ q - d |>).
  set (q' := q1 <| buckets_ := xs ++ mk_bucket (l1 ++ l2) (count_ b - d) :: ys |> <| qsize_ := qsize_ q1 - 1 |>).
  assert (Hbok : bucket_ok (width_ q) (nbuckets_ q) i (mk_bucket (l1 ++ l2) (count_ b - d))).
  { constructor; cbn [list_ count_]; [by eapply sorted_remove| | |done]; intros x Hx; [apply Hsl|apply Htm]; rewrite Hp; by right. }
  assert (Hev' : cal_events q ≡ₚ e :: cal_events q').
  { rewrite Hev, Hp, (events_split q' xs (mk_bucket (l1 ++ l2) (count_ b - d)) ys) by done. done. }
  assert (Hcore : cal_core q').
  { apply (core_replace q q' i xs b (mk_bucket (l1 ++ l2) (count_ b - d)) ys); try done; try lia; cbn.
    - rewrite Hp. cbn. lia.
    - lia. }
  pose proof (distinct_nonneg (l1 ++ l2)) as Hdn.
  pose proof (stat_bounds q' Hcore) as [Htot _].
  change (stat_qsize_ q') with (stat_qsize_ q - d) in Htot.
  case_cond; [cbn in *; lia|]. case_cond.
  { exfalso. cbn [count_ list_] in *. destruct (head (l1 ++ l2)) as [x|] eqn:Eh; [|cbn in *; lia].
    apply head_in, distinct_pos in Eh. lia. }
  change (set_bucket i (mk_bucket (l1 ++ l2) (count_ b - d)) q1 ≫= _) with
    (set_bucket i (mk_bucket (l1 ++ l2) (count_ b - d)) q1 ≫= fun q => Ok (q <| qsize_ := qsize_ q - 1 |>, retire e)).
  unfold set_bucket. change (buckets_ q1) with (buckets_ q). rewrite Hwr, !bind_Ok. cbn [returns].
  split; [|split; [done|exact Hev']]. split; [exact Hcore|]. split; [|split_and!; [done|cbn; lia|lia]].
  destruct Hc as [? ? Ha]. constructor; [done|done|]. intros x Hx. apply Ha. rewrite Hev'. by right.
Qed.

(** ** The search over the days *)

(** A limit that tells the day [j] of this year from the one of the next. *)
Definition good_limit (q : calendar) (j d : Z) : Prop :=
  (8 * j + 11) * width_ q <= 8 * d /\ 8 * d <= (8 * (j + nbuckets_ q) - 11) * width_ q.

Lemma round_near n w : 2 ^ 10 <= w -> Z.abs n <= 2 ^ 50 * w -> 8 * Z.abs (fround n 1 - n) <= w.
Proof.
  intros Hw Hn. pose proof (fround_error n 1 ltac:(lia)) as He. rewrite !Z.mul_1_l in He.
  change (2 ^ 53) with (8 * 2 ^ 50) in He. change (2 ^ 52) with (4 * 2 ^ 50) in He. lia.
Qed.

Lemma limits_ok q :
  cal_core q -> 2 ^ 10 <= width_ q -> nbuckets_ q <= 2 ^ 30 ->
  8 * Z.abs (diff2_ q - width_ q * nbuckets_ q) <= width_ q /\
  8 * Z.abs (2 * diff0_ q - width_ q * nbuckets_ q) <= 2 * width_ q /\
  8 * Z.abs (diff1_ q - diff0_ q - width_ q) <= width_ q.
Proof.
  intros Hq Hw Hn. pose proof (cv_n q Hq). rewrite (cv_diff1 q Hq), (cv_diff0 q Hq), (cv_diff2 q Hq).
  pose proof one_pos. set (w := width_ q) in *. set (n := nbuckets_ q) in *. clearbody w n.
  assert (Hwn : 0 <= w * n <= 2 ^ 30 * w) by nia.
  assert (E2 : 8 * Z.abs (fmul w (of_int n) - w * n) <= w).
  { unfold fmul, of_int. pose proof (fround_error (w * (n * one)) one ltac:(lia)) as He.
    replace (w * (n * one)) with (w * n * one) in He |- * by lia. set (f := fround _ _) in *. clearbody f.
    replace (one * f - w * n * one) with (one * (f - w * n)) in He by lia. rewrite (Z.abs_mul one), (Z.abs_eq one) in He by lia.
    rewrite (Z.abs_eq (w * n * one)) in He by nia.
    assert (Hm : one * (2 ^ 53 * Z.abs (f - w * n)) <= one * Z.max (2 ^ 52) (w * n)) by nia.
    apply Z.mul_le_mono_pos_l in Hm; [|done]. change (2 ^ 53) with (8 * 2 ^ 50) in Hm. change (2 ^ 52) with (4 * 2 ^ 50) in Hm. lia. }
  set (d2 := fmul w (of_int n)) in *. clearbody d2.
  assert (E0 : 8 * Z.abs (2 * fdiv d2 (of_int 2) - d2) <= w).
  { unfold fdiv, of_int. pose proof (fround_error (d2 * one) (2 * one) ltac:(lia)) as He. set (f := fround _ _) in *. clearbody f.
    replace (2 * one * f - d2 * one) with (one * (2 * f - d2)) in He by lia. rewrite !Z.abs_mul in He.
    rewrite !(Z.abs_eq one) in He by lia. 
    assert (Hm : one * (2 ^ 53 * Z.abs (2 * f - d2)) <= one * Z.max (2 ^ 53) (Z.abs d2)) by nia.
    apply Z.mul_le_mono_pos_l in Hm; [|done]. change (2 ^ 53) with (8 * 2 ^ 50) in Hm. lia. }
  set (d0 := fdiv d2 (of_int 2)) in *. clearbody d0.
  pose proof (round_near (d0 + w) w Hw ltac:(lia)) as E1. unfold fadd. split_and!; [lia|lia|].
  replace (fround (d0 + w) 1 - d0 - w) with (fround (d0 + w) 1 - (d0 + w)) by lia. done.
Qed.

Lemma good_limits q :
  cal_core q -> 2 ^ 10 <= width_ q -> nbuckets_ q <= 2 ^ 30 ->
  good_limit q 0 (diff0_ q) /\ good_limit q 1 (diff1_ q) /\
  forall j, 2 <= j <= nbuckets_ q - 2 -> good_limit q j (diff2_ q).
Proof.
  intros Hq Hw Hn. destruct (limits_ok q Hq Hw Hn) as (H2 & H0 & H1). pose proof (cv_n q Hq). unfold good_limit.
  set (w := width_ q) in *. set (n := nbuckets_ q) in *. clearbody w n.
  assert (4 * w <= w * n) by nia. split_and!; [lia|lia|lia|lia|]. intros j Hj. split; nia.
Qed.

Lemma probe_near q t j :
  cal_core q -> 2 ^ 10 <= width_ q -> 0 <= cal_clock_ q <= t -> t < 2 ^ 50 * width_ q -> 
  let s := slot (width_ q) (cal_clock_ q) in
  (slot (width_ q) t <= s + j -> 8 * fsub t (cal_clock_ q) < (8 * j + 11) * width_ q) /\
  (s + j + nbuckets_ q <= slot (width_ q) t -> (8 * (j + nbuckets_ q) - 11) * width_ q < 8 * fsub t (cal_clock_ q)).
Proof.
  intros Hq Hw Hc Ht. cbv zeta. set (w := width_ q) in *. set (c := cal_clock_ q) in *. set (n := nbuckets_ q) in *.
  pose proof (slot_bounds w c ltac:(lia) ltac:(lia)) as [Hc1 Hc2].
  pose proof (slot_bounds w t ltac:(lia) ltac:(lia)) as [Ht1 Ht2].
  set (sc := slot w c) in *. set (st := slot w t) in *. clearbody sc st w c n.
  pose proof (round_near (t - c) w Hw ltac:(lia)) as Hr. unfold fsub. set (f := fround (t - c) 1) in *. clearbody f.
  split; intros Hs.
  - assert (8 * st * w <= 8 * (sc + j) * w) by nia. lia.
  - assert (8 * (sc + j + n) * w <= 8 * st * w) by nia. lia.
Qed.

Lemma mod_eq a b n : 0 < n -> a mod n = b mod n -> exists d, a - b = n * d.
Proof.
  intros Hn E. pose proof (Z.div_mod a n ltac:(lia)) as Ha. pose proof (Z.div_mod b n ltac:(lia)) as Hb.
  exists (a / n - b / n). rewrite E in Ha. revert Ha Hb. generalize (a / n), (b / n), (b mod n). intros. lia.
Qed.

(** The bucket of the day [j] from the clock. *)
Definition day (q : calendar) (j : Z) : Z := (slot (width_ q) (cal_clock_ q) + j) mod nbuckets_ q.
Definition in_day (q : calendar) (j : Z) (e : event) : Prop :=
  exists b, buckets_ q !! Z.to_nat (day q j) = Some b /\ e ∈ list_ b.

(** The first of the bucket [l], and of all the events. *)
Definition head_of (q : calendar) (l : Z) (e : event) : Prop :=
  exists b, buckets_ q !! Z.to_nat l = Some b /\ head (list_ b) = Some e.
Definition first (q : calendar) (l : Z) (e : event) : Prop :=
  0 <= l < nbuckets_ q /\ head_of q l e /\ forall x, x ∈ cal_events q -> x = e \/ ev_lt e x.

(** After [j] days. *)
Definition probed (q : calendar) (j : Z) (s : scan) : Prop :=
  match c_found s with
  | Some e => first q (c_l s) e
  | None =>
      c_i s = day q j /\
      (forall j' e, 0 <= j' < j -> in_day q j' e ->
         slot (width_ q) (cal_clock_ q) + j' + nbuckets_ q <= slot (width_ q) (e_time e)) /\
      match c_min s with
      | None => forall j' e, 0 <= j' < j -> ~ in_day q j' e
      | Some m => (exists j', 0 <= j' < j /\ c_l s = day q j' /\ head_of q (c_l s) m) /\
          forall j' e, 0 <= j' < j -> in_day q j' e -> e = m \/ ev_lt m e
      end
  end.

Section Scan.
Context (q : calendar) (Hq : cal_core q) (Hc : cal_clock q).
Let n := nbuckets_ q.
Let S0 := slot (width_ q) (cal_clock_ q).

Lemma day_bound j : 0 <= day q j < n.
Proof. pose proof (cv_n q Hq). apply Z.mod_pos_bound. lia. Qed.

Lemma day_bucket j : exists b, aread (buckets_ q) (day q j) = Ok b /\ buckets_ q !! Z.to_nat (day q j) = Some b
  /\ bucket_ok (width_ q) n (day q j) b.
Proof.
  pose proof (day_bound j). pose proof (cv_length q Hq). destruct (aread_in (buckets_ q) (day q j)) as (b & Hr & Hl); [lia|].
  exists b. split_and!; [done|done|]. apply (cv_buckets q Hq); [lia|done].
Qed.

Lemma day_inj i j : 0 <= i < n -> 0 <= j < n -> day q i = day q j -> i = j.
Proof.
  intros Hi Hj E. unfold day in E. fold n in E. fold S0 in E. clearbody n S0.
  apply mod_eq in E as (d & E); [|lia]. destruct (Z.lt_trichotomy d 0) as [?|[->|?]]; nia.
Qed.

Lemma day_next j : (if day q j + 1 =? n then 0 else day q j + 1) = day q (j + 1).
Proof.
  pose proof (day_bound j) as Hb. unfold day in *. fold n in Hb |- *. fold S0 in Hb |- *. clearbody n S0.
  replace (S0 + (j + 1)) with (S0 + j + 1) by lia. rewrite <- (Z.add_mod_idemp_l (S0 + j)) by lia.
  revert Hb. generalize ((S0 + j) mod n) as r. intros r Hb.
  destruct (Z.eqb_spec (r + 1) n) as [E|E]; [rewrite E, Z.mod_same by lia; done|]. by rewrite Z.mod_small by lia.
Qed.

Lemma in_day_event j e : in_day q j e -> e ∈ cal_events q.
Proof. intros (b & Hb & He). apply list_elem_of_split_length in Hb as (xs & ys & E & _). by eapply bucket_events. Qed.

Lemma event_day e : e ∈ cal_events q -> exists j, 0 <= j < n /\ in_day q j e.
Proof.
  intros He. destruct (event_bucket q e Hq He) as (i & xs & b & ys & Ei & Hi & E & Hxs & Hin). pose proof (cv_n q Hq).
  exists ((slot (width_ q) (e_time e) - S0) mod n). split; [apply Z.mod_pos_bound; lia|].
  exists b. split; [|done]. replace (day q _) with i; [rewrite E, <- Hxs; by apply list_lookup_middle|].
  unfold day. fold n S0. rewrite Z.add_mod_idemp_r by lia. rewrite Ei. f_equal. lia.
Qed.

(** An event of the day's bucket is of that day, or of a later year. *)
Lemma in_day_slot j e :
  0 <= j < n -> in_day q j e -> slot (width_ q) (e_time e) = S0 + j \/ S0 + j + n <= slot (width_ q) (e_time e).
Proof.
  intros Hj He. pose proof (in_day_event j e He) as Hev. pose proof (cc_after q Hc e Hev) as Hle.
  pose proof (slot_mono (width_ q) _ _ (cv_width q Hq) Hle) as Hs. fold S0 in Hs. destruct He as (b & Hb & He).
  destruct (day_bucket j) as (b' & _ & Hb' & Hok). rewrite Hb in Hb'. injection Hb' as <-.
  pose proof (bo_slot _ _ _ _ Hok e He) as Hm. unfold day in Hm. fold n in Hm. fold S0 in Hm.
  apply mod_eq in Hm as (d & E); [|lia]. destruct (Z.lt_trichotomy d 0) as [?|[->|?]]; [nia|left; lia|right; nia].
Qed.

Lemma in_day_differ i j x y :
  0 <= i < n -> 0 <= j < n -> i <> j -> in_day q i x -> in_day q j y -> e_time x <> e_time y.
Proof.
  intros Hi Hj Hne (b & Hb & Hx) (c & Hcb & Hy) E.
  destruct (day_bucket i) as (b' & _ & Hb' & Hok). rewrite Hb in Hb'. injection Hb' as <-.
  destruct (day_bucket j) as (c' & _ & Hc' & Hok'). rewrite Hcb in Hc'. injection Hc' as <-.
  apply Hne, day_inj; [done|done|]. rewrite <- (bo_slot _ _ _ _ Hok x Hx), <- (bo_slot _ _ _ _ Hok' y Hy). by rewrite E.
Qed.

Lemma head_day j b e :
  buckets_ q !! Z.to_nat (day q j) = Some b -> head (list_ b) = Some e ->
  in_day q j e /\ forall x, in_day q j x -> x = e \/ ev_lt e x.
Proof.
  intros Hb He. split; [exists b; split; [done|by apply head_in]|]. intros x (b' & Hb' & Hx). rewrite Hb in Hb'.
  injection Hb' as <-. destruct (day_bucket j) as (b' & _ & Hb' & Hok). rewrite Hb in Hb'. injection Hb' as <-.
  pose proof (bo_sorted _ _ _ _ Hok) as Hs. destruct (list_ b) as [|y l]; [done|]. injection He as ->.
  apply StronglySorted_cons in Hs as [Hs _]. rewrite Forall_forall in Hs. apply elem_of_cons in Hx as [->|Hx]; auto.
Qed.

(** The head of a bucket, of this year's day, after days without one. *)
Lemma found_first j b e :
  0 <= j < n -> buckets_ q !! Z.to_nat (day q j) = Some b -> head (list_ b) = Some e ->
  slot (width_ q) (e_time e) = S0 + j ->
  (forall j' x, 0 <= j' < j -> in_day q j' x -> S0 + j' + n <= slot (width_ q) (e_time x)) ->
  first q (day q j) e.
Proof.
  intros Hj Hl Hh Hslot Hold. destruct (head_day j b e Hl Hh) as [Hin Hfirst].
  split; [apply day_bound|]. split; [by exists b|].
  intros x Hx. destruct (event_day x Hx) as (jx & Hjx & Hinx). destruct (Z.eq_dec jx j) as [->|Hne]; [by apply Hfirst|].
  right. left. enough (slot (width_ q) (e_time e) < slot (width_ q) (e_time x)).
  { apply Z.nle_gt. intros Hle. apply (slot_mono (width_ q)) in Hle; [lia|apply Hq]. }
  rewrite Hslot. destruct (Z.lt_ge_cases jx j) as [Hlt|Hge]; [specialize (Hold jx x ltac:(lia) Hinx); lia|].
  destruct (in_day_slot jx x Hjx Hinx); lia.
Qed.

(** If the head is of a later year, so is the bucket. *)
Lemma older_day j e :
  0 <= j < n -> (forall x, in_day q j x -> x = e \/ ev_lt e x) -> S0 + j + n <= slot (width_ q) (e_time e) ->
  forall x, in_day q j x -> S0 + j + n <= slot (width_ q) (e_time x).
Proof.
  intros Hj Hfirst Hslot x Hx. destruct (in_day_slot j x Hj Hx) as [Hs|]; [|done]. exfalso.
  destruct (Hfirst x Hx) as [->|Hlt]; [lia|]. assert (Hle : e_time e <= e_time x) by (destruct Hlt; lia).
  apply (slot_mono (width_ q)) in Hle; [lia|apply Hq].
Qed.

(** The earlier of the minimum [m] of the days before and the head [e] of this one. *)
Lemma min_step j m e :
  0 <= j < n -> (forall j' x, 0 <= j' < j -> in_day q j' x -> x = m \/ ev_lt m x) ->
  (forall x, in_day q j x -> x = e \/ ev_lt e x) ->
  (e_time e < e_time m -> forall j' x, 0 <= j' < j + 1 -> in_day q j' x -> x = e \/ ev_lt e x) /\
  (e_time m < e_time e -> forall j' x, 0 <= j' < j + 1 -> in_day q j' x -> x = m \/ ev_lt m x).
Proof.
  intros Hj Hmin Hfirst. split; intros Hlt jx x Hjx Hx; (destruct (Z.eq_dec jx j) as [->|]).
  - by apply Hfirst.
  - right. destruct (Hmin jx x ltac:(lia) Hx) as [->|H1]; [by left|]. by apply (ev_lt_trans _ m); [left|].
  - right. destruct (Hfirst x Hx) as [->|H1]; [by left|]. by apply (ev_lt_trans _ e); [left|].
  - by apply (Hmin jx); [lia|].
Qed.

(** Day by day. *)
Lemma probe_ok j limit s :
  fine q -> 0 <= j < n -> good_limit q j limit -> probed q j s ->
  returns (CAL_DEQUEUE limit q s) (probed q (j + 1)).
Proof.
  intros [Hw Hfar] Hj [Hg1 Hg2] Hs. unfold CAL_DEQUEUE. unfold probed in Hs.
  destruct (c_found s) as [e|] eqn:Ef; [cbn [returns]; unfold probed; by rewrite Ef|].
  destruct Hs as (Ei & Hold & Hmin). cbn [c_i c_count set_field]. rewrite Ei.
  destruct (day_bucket j) as (b & Hr & Hl & Hok). rewrite Hr, bind_Ok. rewrite day_next.
  destruct (list_ b) as [|e l] eqn:El.
  { assert (Hno : forall x, ~ in_day q j x).
    { intros x (b' & Hb' & Hx). rewrite Hl in Hb'. injection Hb' as <-. rewrite El in Hx. by apply elem_of_nil in Hx. }
    cbn [returns]. unfold probed. cbn [c_found c_i c_min c_l set_field]. rewrite Ef. split_and!; [done| |].
    - intros j' x Hj' Hx. destruct (Z.eq_dec j' j) as [->|]; [by destruct (Hno x)|apply Hold; [lia|done]].
    - destruct (c_min s) as [m|].
      + destruct Hmin as ((j' & Hj' & Hm) & Hmin). split; [exists j'; split; [lia|done]|].
        intros j'' x Hj'' Hx. destruct (Z.eq_dec j'' j) as [->|]; [by destruct (Hno x)|apply (Hmin j''); [lia|done]].
      + intros j' x Hj' Hx. destruct (Z.eq_dec j' j) as [->|]; [by destruct (Hno x)|apply (Hmin j' x); [lia|done]]. }
  assert (Hh : head (list_ b) = Some e) by by rewrite El.
  destruct (head_day j b e Hl Hh) as [Hin Hfirst]. pose proof (in_day_event j e Hin) as Hev.
  destruct (probe_near q (e_time e) j Hq Hw (conj (cc_clock q Hc) (cc_after q Hc e Hev)) (Hfar e Hev)) as [Hnear Hnext].
  case_cond.
  - (* this year *)
    assert (Hslot : slot (width_ q) (e_time e) = S0 + j).
    { destruct (in_day_slot j e Hj Hin) as [|Hs]; [done|]. specialize (Hnext Hs). lia. }
    cbn [returns]. unfold probed. cbn [c_found c_l set_field]. by apply (found_first j b).
  - (* a later year *)
    assert (Hslot : S0 + j + n <= slot (width_ q) (e_time e)).
    { destruct (in_day_slot j e Hj Hin) as [Hs|]; [|done]. specialize (Hnear ltac:(unfold S0 in Hs; lia)). lia. }
    assert (Hold' : forall j' x, 0 <= j' < j + 1 -> in_day q j' x -> S0 + j' + n <= slot (width_ q) (e_time x)).
    { intros j' x Hj' Hx. destruct (Z.eq_dec j' j) as [->|]; [by apply (older_day j e)|apply Hold; [lia|done]]. }
    cbn [returns]. unfold probed. destruct (c_min s) as [m|] eqn:Em.
    + destruct Hmin as ((j' & Hj' & Hcl & b' & Hb' & Hm) & Hmin). rewrite Hcl in Hb'.
      destruct (head_day j' b' m Hb' Hm) as [Hinm _]. destruct (min_step j m e Hj Hmin Hfirst) as [He1 Hm1].
      pose proof (in_day_differ j' j m e ltac:(lia) Hj ltac:(lia) Hinm Hin) as Hdiff.
      cbn [c_min]. case_cond; cbn [c_found c_i c_min c_l set_field]; rewrite Ef, ?Em; (split; [done|]; split; [exact Hold'|]).
      * split; [exists j; split; [lia|]; split; [done|by exists b]|apply He1; lia].
      * split; [exists j'; split; [lia|]; split; [done|exists b'; by rewrite Hcl]|apply Hm1; lia].
    + cbn [c_found c_i c_min c_l set_field]. rewrite Ef. split; [done|]. split; [exact Hold'|].
      split; [exists j; split; [lia|]; split; [done|by exists b]|].
      intros jx x Hjx Hx. destruct (Z.eq_dec jx j) as [->|]; [by apply Hfirst|]. by destruct (Hmin jx x ltac:(lia)).
Qed.

Lemma day_last : (if nz (lastbucket_ q) then lastbucket_ q - 1 else nbuckets_ q - 1) = day q (n - 1).
Proof.
  pose proof (day_next (n - 1)) as E. pose proof (day_bound (n - 1)) as Hb. replace (n - 1 + 1) with n in E by lia.
  assert (Ed : day q n = lastbucket_ q).
  { unfold day. rewrite (cc_last q Hc). pose proof (cv_n q Hq). fold n. rewrite <- Z.add_mod_idemp_r, Z.mod_same, Z.add_0_r by lia. done. }
  rewrite Ed in E. rewrite <- E. fold n. destruct (Z.eqb_spec (day q (n - 1) + 1) n); [cbn [nz Z.eqb negb]; lia|].
  unfold nz. destruct (Z.eqb_spec (day q (n - 1) + 1) 0); cbn [negb]; lia.
Qed.

(** The loop over the other days but the last. *)
Lemma search_loop_ok s :
  fine q -> n <= 2 ^ 30 -> probed q 2 s ->
  returns (c_while (fun s => is_none (c_found s) && negb (c_i s =? day q (n - 1))) (CAL_DEQUEUE (diff2_ q) q) s)
    (fun s => probed q (n - 1) s).
Proof.
  intros Hf Hn Hs. pose proof (proj1 Hf) as Hw. pose proof (cv_n q Hq) as Hn4. fold n in Hn4.
  set (m s := if is_none (c_found s) then n - (c_i s - S0) mod n else 0).
  assert (Hm : forall j s, 0 <= j < n -> probed q j s -> c_found s = None -> m s = n - j).
  { intros j t Hj Ht Ef. unfold m. unfold probed in Ht. rewrite Ef in *. destruct Ht as [-> _]. cbn [is_none].
    unfold day. fold n. fold S0. rewrite Zminus_mod_idemp_l. replace (S0 + j - S0) with j by lia. by rewrite Z.mod_small by lia. }
  assert (Hm0 : forall s, c_found s <> None -> m s = 0) by (intros t Ht; unfold m; by destruct (c_found t)).
  eapply returns_mono.
  { apply (c_while_rule (fun s => exists j, 2 <= j <= n - 1 /\ probed q j s) m).
    - intros t (j & Hj & Ht) Hcond. destruct (c_found t) eqn:Ef; [done|]. cbn [is_none andb] in Hcond.
      assert (Hlt : j <= n - 2).
      { destruct (Z.eq_dec j (n - 1)) as [->|]; [|lia]. unfold probed in Ht. rewrite Ef in Ht. destruct Ht as [Ei _]. lia. }
      rewrite (Hm j t) by (done || lia). eapply returns_mono; [apply (probe_ok j); [done|lia|apply (good_limits q Hq Hw Hn); fold n; lia|done]|].
      intros t' Ht'. split; [exists (j + 1); split; [lia|done]|]. destruct (c_found t') eqn:Ef'.
      + rewrite Hm0 by congruence. lia.
      + rewrite (Hm (j + 1)) by (done || lia). lia.
    - exists 2. split; [lia|done].
    - destruct (c_found s) eqn:Ef; [rewrite Hm0 by congruence; lia|rewrite (Hm 2) by (done || lia); lia]. }
  intros t [(j & Hj & Ht) Hcond]. cbv beta in Hcond. unfold probed in *. destruct (c_found t); [done|]. cbn [is_none andb] in Hcond.
  destruct Ht as [Ei Ht]. assert (E : c_i t = day q (n - 1)) by lia. rewrite Ei in E.
  apply day_inj in E; [|lia|lia]. by subst j.
Qed.

(** The event is the first, with its bucket. *)
Lemma search_head_ok :
  fine q -> n <= 2 ^ 30 -> cal_events q <> [] ->
  returns (search_head q) (fun '(o, l, _) => exists e, o = Some e /\ first q l e).
Proof.
  intros Hf Hn Hne. pose proof (cv_n q Hq) as Hn4. fold n in Hn4. destruct (good_limits q Hq (proj1 Hf) Hn) as (G0 & G1 & _).
  unfold search_head. cbv zeta. rewrite day_last.
  eapply returns_bind; [apply (probe_ok 0); [done|lia|done|]|].
  { unfold probed. cbn [c_found c_i c_min]. split; [|split; intros; lia].
    unfold day. rewrite Z.add_0_r. apply Hc. }
  intros s1 Hs1. eapply returns_bind; [apply (probe_ok 1); [done|lia|done|done]|].
  intros s2 Hs2. eapply returns_bind; [by apply search_loop_ok|].
  intros s Hs. unfold probed in Hs. destruct (c_found s) as [e|]; [cbn [returns]; by exists e|].
  destruct Hs as (Ei & _ & Hmin). rewrite Ei. destruct (day_bucket (n - 1)) as (b & Hr & Hl & _). rewrite Hr, bind_Ok.
  assert (Hall : forall x, x ∈ cal_events q -> in_day q (n - 1) x \/ exists j, 0 <= j < n - 1 /\ in_day q j x).
  { intros x Hx. destruct (event_day x Hx) as (j & Hj & Hin). destruct (Z.eq_dec j (n - 1)) as [->|]; [by left|right].
    exists j. split; [lia|done]. }
  assert (Hempty : head (list_ b) = None -> forall x, ~ in_day q (n - 1) x).
  { intros E x (b' & Hb' & Hx). rewrite Hl in Hb'. injection Hb' as <-. destruct (list_ b); [by apply elem_of_nil in Hx|done]. }
  destruct (head (list_ b)) as [e|] eqn:Eh.
  - destruct (head_day (n - 1) b e Hl Eh) as [Hin Hfirst].
    destruct (c_min s) as [m|].
    + destruct Hmin as ((j & Hj & Hcl & b' & Hb' & Hm) & Hmin). rewrite Hcl in Hb'.
      destruct (head_day j b' m Hb' Hm) as [Hinm _].
      pose proof (in_day_differ j (n - 1) m e ltac:(lia) ltac:(lia) ltac:(lia) Hinm Hin) as Hdiff.
      case_cond; cbn [returns]; (eexists; split; [done|]).
      * split; [rewrite Hcl; apply day_bound|]. split; [exists b'; by rewrite Hcl|]. intros x Hx.
        destruct (Hall x Hx) as [Hx'|(jx & Hjx & Hx')]; [|by apply (Hmin jx)]. right.
        destruct (Hfirst x Hx') as [->|Hlt]; [left; lia|]. apply (ev_lt_trans _ e); [left; lia|done].
      * split; [apply day_bound|]. split; [by exists b|]. intros x Hx.
        destruct (Hall x Hx) as [Hx'|(jx & Hjx & Hx')]; [by apply Hfirst|]. right.
        destruct (Hmin jx x Hjx Hx') as [->|Hlt]; [left; lia|]. apply (ev_lt_trans _ m); [left; lia|done].
    + cbn [returns]. eexists. split; [done|]. split; [apply day_bound|]. split; [by exists b|]. intros x Hx.
      destruct (Hall x Hx) as [Hx'|(jx & Hjx & Hx')]; [by apply Hfirst|]. by destruct (Hmin jx x Hjx).
  - specialize (Hempty eq_refl). destruct (c_min s) as [m|].
    + destruct Hmin as ((j & Hj & Hcl & b' & Hb' & Hm) & Hmin). cbn [returns]. eexists. split; [done|].
      split; [rewrite Hcl; apply day_bound|]. split; [by exists b'|]. intros x Hx.
      destruct (Hall x Hx) as [Hx'|(jx & Hjx & Hx')]; [by destruct (Hempty x)|by apply (Hmin jx)].
    + exfalso. destruct (cal_events q) as [|x l] eqn:E; [done|].
      destruct (Hall x) as [Hx'|(jx & Hjx & Hx')]; [left|by destruct (Hempty x)|by destruct (Hmin jx x Hjx)].
Qed.
End Scan.

(** ** The operations *)

(** [e] is the first of the events. *)
Definition earliest (q : calendar) (e : event) : Prop :=
  e ∈ cal_events q /\ forall x, x ∈ cal_events q -> x = e \/ ev_lt e x.

Lemma first_earliest q l e :
  cal_core q -> first q l e -> earliest q e /\ l = slot (width_ q) (e_time e) mod nbuckets_ q.
Proof.
  intros Hq (Hl & (b & Hb & He) & Hfirst). apply head_in in He.
  pose proof (cv_buckets q Hq l b ltac:(lia) Hb) as Hok. split; [|by rewrite (bo_slot _ _ _ _ Hok e He)].
  split; [|done]. apply list_elem_of_split_length in Hb as (xs & ys & E & _). by eapply bucket_events.
Qed.

Lemma cal_head_ok q :
  cal_core q -> cal_clock q -> fine q -> nbuckets_ q <= 2 ^ 30 -> cal_events q <> [] ->
  returns (cal_head q) (fun '(o, q') => exists e, o = Some e /\ earliest q e /\ cal_core q' /\ cal_clock q' /\
    cal_events q' = cal_events q /\ nbuckets_ q' = nbuckets_ q /\ cal_clock_ q' = e_time e).
Proof.
  intros Hq Hc Hf Hn Hne. unfold cal_head. pose proof (cv_qsize q Hq) as Hs.
  case_cond; [destruct (cal_events q); [done|cbn in Hs; lia]|].
  eapply returns_bind; [by apply search_head_ok|]. intros [[o l] c] (e & -> & Hfirst).
  pose proof (proj1 Hfirst) as Hl. apply first_earliest in Hfirst as [He El]; [|done]. case_cond; [lia|].
  cbn [returns]. exists e. split_and!; [done|done|by destruct Hq| |done|done|done].
  constructor; cbn; [|exact El|].
  - by apply (event_time_ok q e Hq), He.
  - intros x Hx. destruct He as [_ He]. destruct (He x Hx) as [->|[?|[? _]]]; lia.
Qed.

(** Sampling may resize, to as many buckets. *)
Definition resampled (q q' : calendar) : Prop :=
  cal_core q' /\ cal_clock q' /\ cal_events q' ≡ₚ cal_events q /\ cal_clock_ q' = cal_clock_ q /\ nbuckets_ q' = nbuckets_ q.

Lemma same_resampled q q' : cal_core q -> cal_clock q -> same_queue q q' -> resampled q q'.
Proof.
  intros Hq Hc Hs. split_and!; [by eapply same_queue_core|by eapply same_queue_clock|by rewrite (same_queue_events q q')| |]; apply Hs.
Qed.

Lemma sample_gap_ok q e :
  cal_core q -> cal_clock q -> qsize_ q <= 1073741824 -> returns (sample_gap e q) (resampled q).
Proof.
  intros Hq Hc Hs. unfold sample_gap.
  case_cond; [|by apply same_resampled]. case_cond; [by apply same_resampled|]. case_cond; [|by apply same_resampled].
  set (q1 := _ <| round_num_ := _ |>). assert (Hsame : same_queue q q1) by done.
  pose proof (same_resampled _ _ Hq Hc Hsame) as (Hq1 & Hk1 & Hev & Hcl & Hn). clearbody q1.
  case_cond; [|case_cond; cbn [returns]; refine (same_resampled q _ Hq Hc _); by destruct Hsame as [[]]; repeat constructor].
  eapply returns_bind; [apply cal_resize_ok; [done|done|pose proof (cv_n q1 Hq1); lia|rewrite (sq_qsize _ _ Hsame); lia]|].
  intros q2 (Hq2 & Hk2 & Hev2 & Hcl2 & Hn2). cbn [returns]. pose proof (cv_n q1 Hq1).
  assert (Hs2 : same_queue q2 (q2 <| round_num_ := 0 |>)) by done.
  destruct (same_resampled _ _ Hq2 Hk2 Hs2) as (Hq3 & Hk3 & Hev3 & Hcl3 & Hn3).
  split_and!; [done|done|by rewrite Hev3, Hev2|congruence|lia].
Qed.

Lemma unlink_head_ok q e :
  cal_core q -> cal_clock q -> earliest q e -> cal_clock_ q = e_time e ->
  returns (unlink_head q) (fun q' => cal_core q' /\ cal_clock q' /\ cal_events q ≡ₚ e :: cal_events q' /\
    nbuckets_ q' = nbuckets_ q /\ qsize_ q' = qsize_ q - 1).
Proof.
  intros Hq Hc [He Hfirst] Hclk. unfold unlink_head. 
  destruct (event_bucket q e Hq He) as (i & xs & b & ys & Ei & Hi & E & Hxs & Hin).
  rewrite (cc_last q Hc), Hclk, <- Ei.
  destruct (bucket_split q i Hq Hi) as (xs0 & b0 & ys0 & E0 & Hxs0 & Hr & Hb & Hwr).
  rewrite E in E0. apply app_inj_1 in E0 as [<- [= <- <-]]; [|lia]. rewrite Hr, bind_Ok.
  pose proof Hb as [Hs Hsl Htm Hcn].
  destruct (list_ b) as [|x rest] eqn:El; [by apply elem_of_nil in Hin|].
  assert (x = e) as ->.
  { assert (Hx : x ∈ cal_events q) by (apply (bucket_events q xs b ys); [done|rewrite El; left]).
    destruct (Hfirst x Hx) as [|Hlt]; [done|]. apply elem_of_cons in Hin as [|Hin]; [done|].
    apply StronglySorted_cons in Hs as [Hs _]. rewrite Forall_forall in Hs.
    destruct (ev_lt_irrefl e). by apply (ev_lt_trans _ x); [|apply Hs]. }
  apply StronglySorted_cons in Hs as [Hlt Hs]. rewrite Forall_forall in Hlt.
  set (single := match rest with [] => true | _ => _ end). set (d := if single then 1 else 0).
  assert (Hd : distinct (e :: rest) = distinct rest + d).
  { subst d. destruct rest as [|y rest]; [apply distinct_new; by intros y ?%elem_of_nil|]. cbn in single. subst single.
    destruct (Z.eqb_spec (e_time y) (e_time e)) as [Ey|Ey]; cbn [negb].
    - rewrite distinct_old; [lia|]. exists y. split; [left|done].
    - apply distinct_new. apply StronglySorted_cons in Hs as [Hy _]. rewrite Forall_forall in Hy.
      pose proof (Hlt y ltac:(left)) as H1. intros z [->|Hz]%elem_of_cons; [done|]. apply Hy in Hz.
      unfold ev_lt in *. lia. }
  set (q1 := q <| stat_qsize_ := stat_qsize_ q - d |>).
  set (q' := q1 <| buckets_ := xs ++ mk_bucket rest (count_ b - d) :: ys |> <| qsize_ := qsize_ q1 - 1 |>).
  assert (Hcore : cal_core q').
  { apply (core_replace q q' i xs b (mk_bucket rest (count_ b - d)) ys); try done; try lia; [| |cbn; lia].
    - constructor; cbn [list_ count_]; [done| | |lia]; intros y Hy; [apply Hsl|apply Htm]; by right.
    - rewrite El. cbn [list_ length qsize_ set_field q']. cbn. lia. }
  assert (Hev : cal_events q ≡ₚ e :: cal_events q').
  { rewrite (events_split q xs b ys E), (events_split q' xs (mk_bucket rest (count_ b - d)) ys) by done. by rewrite El. }
  eapply (returns_bind _ _ (fun q2 => q2 = q1 <| buckets_ := xs ++ mk_bucket rest (count_ b - d) :: ys |>)).
  { unfold set_bucket. change (buckets_ _) with (buckets_ q). rewrite Hwr, bind_Ok. done. }
  intros q2 ->. cbn [returns]. split_and!; [exact Hcore| |exact Hev|done|done].
  destruct Hc as [Hc0 Hl Ha]. constructor; [done|cbn; congruence|]. intros y Hy. apply Ha. rewrite Hev. by right.
Qed.

Lemma cal_deque_ok k q :
  cal_inv k q -> fine q -> NoDup (e_uid <$> cal_events q) ->
  returns (cal_deque q) (fun '(o, q') => cal_inv k q' /\
    match o with
    | None => cal_events q = [] /\ cal_events q' = []
    | Some m => cal_events q ≡ₚ m :: cal_events q' /\ forall y, y ∈ cal_events q' -> ev_lt m y
    end).
Proof.
  intros (Hq & Hc & Hn & Hqs & Hk) Hf Hnd. unfold cal_deque.
  destruct (decide (cal_events q = [])) as [Hnil|Hne].
  { assert (E : cal_head q = Ok (None, q)) by (unfold cal_head; by rewrite (cv_qsize q Hq), Hnil).
    rewrite E, bind_Ok. by cbn [returns]. }
  eapply returns_bind; [apply cal_head_ok; [done|done|done|lia|done]|].
  intros [o q1] (e & -> & He & Hq1 & Hc1 & Ev1 & En1 & Ec1).
  assert (Eq1 : qsize_ q1 = qsize_ q) by (by rewrite (cv_qsize q1 Hq1), (cv_qsize q Hq), Ev1).
  eapply returns_bind; [apply sample_gap_ok; [done|done|lia]|].
  intros q2 (Hq2 & Hc2 & Hev2 & Ec2 & En2). rewrite Ev1 in Hev2.
  assert (He2 : earliest q2 e).
  { destruct He as [He Hlt]. split; [by rewrite Hev2|]. intros x Hx. apply Hlt. by rewrite <- Hev2. }
  eapply returns_bind; [apply (unlink_head_ok q2 e); [done|done|done|congruence]|].
  intros q3 (Hq3 & Hc3 & Hev3 & En3 & Eq3).
  assert (Eq2 : qsize_ q2 = qsize_ q) by (by rewrite (cv_qsize q2 Hq2), (cv_qsize q Hq), Hev2).
  eapply (returns_bind _ _ (fun q4 => cal_core q4 /\ cal_clock q4 /\ cal_events q4 ≡ₚ cal_events q3 /\ nbuckets_ q4 <= nbuckets_ q3)).
  { case_cond; [|by cbn [returns]]. pose proof (cv_n q3 Hq3).
    assert (Es : nbuckets_ q3 ≫ 1 = nbuckets_ q3 / 2) by by rewrite Z.shiftr_div_pow2 by lia. rewrite Es.
    pose proof (Z.div_le_lower_bound (nbuckets_ q3) 2 2). pose proof (Z.div_lt (nbuckets_ q3) 2).
    eapply returns_mono; [apply cal_resize_ok; [done|done|lia|lia]|].
    intros q4 (Hq4 & Hc4 & Hev4 & _ & Hn4). split_and!; [done|done|done|lia]. }
  intros q4 (Hq4 & Hc4 & Hev4 & Hn4). cbn [returns].
  assert (Hp : cal_events q ≡ₚ e :: cal_events q4) by by rewrite <- Hev2, Hev3, Hev4.
  split; [|split; [done|]].
  - split_and!; [done|done|lia| |done]. rewrite (cv_qsize q4 Hq4), Hev4, <- (cv_qsize q3 Hq3). lia.
  - intros y Hy. destruct He as [_ He]. destruct (He y) as [->|]; [rewrite Hp; by right| |done].
    rewrite Hp in Hnd. cbn in Hnd. apply NoDup_cons in Hnd as [Hnd _]. destruct Hnd. by apply list_elem_of_fmap_2.
Qed.

(** ** The laws *)

Lemma cal_init_ok adjust min_bin_width :
  0 < min_bin_width ->
  returns (cal_init adjust min_bin_width) (fun q => cal_inv 0 q /\ cal_events q = []).
Proof.
  intros Hm. unfold cal_init. pose proof one_pos. eapply returns_mono; [apply reinit_ok; [done| |lia|lia]|].
  { unfold of_int. lia. }
  intros q (Hq & Hev & Ew & En & El & Ec). split; [|done]. split; [done|]. split.
  - constructor; [by rewrite Ec|by rewrite El, Ec, Ew, En|]. intros e He. rewrite Hev in He. by apply elem_of_nil in He.
  - rewrite (cv_qsize q Hq), Hev, En. done.
Qed.

Section Laws.
Context (adjust min_bin_width : Z) (Hm : 0 < min_bin_width).
Let cal : EventQueue calendar := CalendarScheduler adjust min_bin_width.
#[local] Existing Instance cal.

Program Definition CalendarScheduler_ok : @EventQueueOk calendar cal := {|
  q_inv := cal_inv;
  q_events := cal_events;
  q_time := time_ok;
  q_limit := 1073741824;
  q_fine := fine;
|}.
Next Obligation.
  pose proof (cal_init_ok adjust min_bin_width Hm) as (q & E & Hq)%returns_inv. cbn [eq_init cal CalendarScheduler].
  by rewrite E.
Qed.
Next Obligation.
  intros k q e Hq Hk Ht Hx. apply cal_insert_ok; [done|done|done|]. intros x Hin. by apply Hx.
Qed.
Next Obligation. intros k q Hq Hf Hnd. by apply cal_deque_ok. Qed.
Next Obligation. intros k q e Hq He Hu Ha _. by apply cal_cancel_ok. Qed.
Next Obligation. intros q e He. cbn. unfold cal_cancel. case_cond; [done|lia]. Qed.
Next Obligation. intros k q uid Hq. cbn. split; [done|]. split; [done|]. apply (list_find_ok uid (cal_events q)). Qed.
End Laws.
