(* ===== verification/Schedulers.v ===== *)
(** The schedulers: heap, splay tree and calendar dispatch what the list does,
    in the order of time and, at one time, of scheduling. *)
From stdpp Require Import gmap sorting.
From S2P Require Import Prelude Doubles EventQueue Heap Splay Calendar CalendarOk.

(** * Definitions *)

(** A delay that is not negative; OTcl and the timers see to it. *)
Definition forward (c : command) : Prop := match c with CSchedule _ _ d => 0 <= d | _ => True end.

(** ** What the clock keeps *)

Record ordered {W} (t : sim (list event) W) : Prop := mk_ordered {
  od_inv : sim_inv t;
  od_clock : double (clock_ t);
  od_todo : Forall forward (s_todo t);
  od_times : forall e, e ∈ s_queue t -> double (e_time e) /\ clock_ t <= e_time e;
  od_next : forall p e, p ∈ s_trace t -> e ∈ s_queue t -> ev_lt p e;
  od_past : forall p, p ∈ s_trace t -> e_time p <= clock_ t /\ (e_uid p < uid_ t \/ uid_ t < 0);
  od_trace : StronglySorted (fun x y => ev_lt y x) (s_trace t);
  od_last : clock_ t = match s_trace t with p :: _ => e_time p | [] => 0 end;
}.

(** * Lemmas *)

Section Order.
Context {W : Type} (handle : Z -> event -> W -> W * list command).
Context (Hhandle : forall now e w, Forall forward (handle now e w).2).
Implicit Types (t : sim (list event) W).

Lemma ordered_shrink t t' :
  ordered t -> sim_inv t' -> (forall e, e ∈ s_queue t' -> e ∈ s_queue t) -> Forall forward (s_todo t') ->
  clock_ t' = clock_ t -> uid_ t' = uid_ t -> s_trace t' = s_trace t -> ordered t'.
Proof.
  intros [Hi Hc Htd Ht Hn Hp Hs Hl] Hi' Hsub Htd' Ec Eu Et.
  constructor; rewrite ?Ec, ?Eu, ?Et; auto.
Qed.

Lemma list_cancel_sub e l l' e' : list_cancel e l = Ok (l', e') -> forall x, x ∈ l' -> x ∈ l.
Proof.
  unfold list_cancel. case_cond; [by intros [= <- _]|]. destruct (list_unlink (e_addr e) l) as [l1|] eqn:E; [|done].
  rewrite bind_Ok. intros [= <- _]. revert l1 E. induction l as [|y l IH]; intros l1; cbn [list_unlink]; [done|].
  case_cond; [intros [= <-] x; by right|]. destruct (list_unlink (e_addr e) l) as [l2|]; [|done].
  rewrite bind_Ok. intros [= <-] x [->|Hx]%elem_of_cons; [left|right; by apply (IH l2)].
Qed.

Lemma cancel_shape e t t' :
  cancel e t = Ok t' -> (forall x, x ∈ s_queue t' -> x ∈ s_queue t) /\ s_todo t' = s_todo t /\
    clock_ t' = clock_ t /\ uid_ t' = uid_ t /\ s_trace t' = s_trace t.
Proof.
  unfold cancel. destruct (eq_cancel e (s_queue t)) as [[q e']|] eqn:E; [|done]. rewrite bind_Ok. intros [= <-].
  split; [|done]. cbn. by apply (list_cancel_sub e _ _ e').
Qed.

Lemma cancel_uid_shape uid t t' :
  cancel_uid uid t = Ok t' -> (forall x, x ∈ s_queue t' -> x ∈ s_queue t) /\ s_todo t' = s_todo t /\
    clock_ t' = clock_ t /\ uid_ t' = uid_ t /\ s_trace t' = s_trace t.
Proof.
  unfold cancel_uid. cbn [eq_lookup ListScheduler]. rewrite bind_Ok. 
  destruct (list_find uid (s_queue t)) as [e|]; [|by intros [= <-]].
  intros H%cancel_shape. exact H.
Qed.

Lemma ordered_exec t t' c : ordered t -> forward c -> exec c t = Ok t' -> sim_inv t' -> ordered t'.
Proof.
  intros Ht Hc Hs Hi'. destruct c as [h a d|a|uid|]; cbn [exec] in Hs.
  - unfold schedule in Hs. do 3 (case_cond_in Hs; [done|]). cbn [eq_insert ListScheduler] in Hs. rewrite bind_Ok in Hs.
    injection Hs as <-. destruct Ht as [Hi Hcl Htd Ht Hn Hp Hs Hl]. cbn [forward] in Hc.
    pose proof (fadd_ge (clock_ t) d Hcl Hc) as Hge. set (e := mk_event _ _ _ _) in *.
    assert (Hu : e_uid e < s64 (uid_ t + 1) \/ s64 (uid_ t + 1) < 0).
    { cbn. destruct (next_uid (uid_ t)) as [[-> _]| ->]; [|lia|lia]. destruct (si_uid t Hi); lia. }
    constructor; cbn [clock_ uid_ s_queue s_trace s_todo set_field]; try done.
    + intros x Hx. rewrite list_insert_perm in Hx. apply elem_of_cons in Hx as [->|Hx]; [|by apply Ht].
      split; [by apply fround_is_double|done].
    + intros p x Hpin Hx. rewrite list_insert_perm in Hx. apply elem_of_cons in Hx as [->|Hx]; [|by apply Hn].
      destruct (Hp p Hpin). unfold ev_lt. cbn in *. lia.
    + intros p Hpin. destruct (Hp p Hpin) as [? ?]. split; [done|]. cbn in Hu. lia.
  - apply cancel_shape in Hs as (? & Et & ? & ? & ?). eapply ordered_shrink; try done. rewrite Et. apply Ht.
  - apply cancel_uid_shape in Hs as (? & Et & ? & ? & ?). eapply ordered_shrink; try done. rewrite Et. apply Ht.
  - injection Hs as <-. by apply (ordered_shrink t); try done; apply Ht.
Qed.

Lemma ordered_dispatch t p q' :
  ordered t -> s_queue t = p :: q' -> sim_inv (dispatch handle p (e_time p) (t <| s_queue := q' |>)) ->
  ordered (dispatch handle p (e_time p) (t <| s_queue := q' |>)).
Proof.
  intros [Hi Hcl Htd Ht Hn Hp Hs _] E Hi'. rewrite E in *. pose proof (Hhandle (e_time p) (retire p) (s_world t)) as Hh.
  revert Hi'. unfold dispatch. cbn [s_world set_field]. destruct (handle (e_time p) (retire p) (s_world t)) as [w cs]. intros Hi'.
  pose proof (si_sorted t Hi) as Hsort. pose proof (si_uids t Hi) as Hu. rewrite E in Hsort, Hu.
  apply StronglySorted_cons in Hsort as [Hpq _]. rewrite Forall_forall in Hpq.
  assert (Hple : forall e, e ∈ q' -> e_time p <= e_time e).
  { intros e He. destruct (Hpq e He) as [?|[? _]]; lia. }
  constructor; cbn [clock_ uid_ s_queue s_trace s_todo set_field]; try done.
  - apply Ht. left.
  - intros e He. split; [apply Ht; by right|by apply Hple].
  - intros x e Hx He. apply elem_of_cons in Hx as [->|Hx]; [by apply Hpq|]. apply Hn; [done|by right].
  - intros x [->|Hx]%elem_of_cons; [split; [lia|apply Hu; left]|].
    destruct (Hp x Hx) as [? ?]. destruct (Ht p ltac:(left)). split; [lia|done].
  - constructor; [done|]. rewrite Forall_forall. intros x Hx. apply Hn; [done|left].
Qed.

Lemma ordered_step t t' : ordered t -> step handle t = Ok t' -> ordered t'.
Proof.
  intros Ht Hs. pose proof (list_step_inv handle _ _ (od_inv t Ht) Hs) as Hi'. revert Hs. unfold step.
  destruct (s_todo t) as [|c cs] eqn:Etd.
  - case_cond; [by intros [= <-]|]. cbn [eq_deque ListScheduler]. rewrite bind_Ok.
    destruct (s_queue t) as [|p q'] eqn:Eq; cbn [list_deque]; intros [= <-].
    + apply (ordered_shrink t); try done; [cbn; by rewrite Eq|apply Ht].
    + by apply ordered_dispatch.
  - intros Hs. pose proof (od_todo t Ht) as Hf. rewrite Etd in Hf. apply Forall_cons in Hf as [Hf Hf'].
    eapply ordered_exec; [|exact Hf|exact Hs|done]. apply (ordered_shrink t); try done. by destruct Ht as [[] _ _ _ _ _ _ _].
Qed.

Lemma ordered_run n t t' : ordered t -> run handle n t = Ok t' -> ordered t'.
Proof.
  revert t. induction n as [|n IH]; intros t Ht; cbn [run]; [by intros [= <-]|].
  destruct (step handle t) as [t1|] eqn:E; [|done]. rewrite bind_Ok. apply IH. by eapply ordered_step.
Qed.

(** The time of the last event moves on. *)
Lemma clock_run n t t' : ordered t -> run handle n t = Ok t' -> clock_ t <= clock_ t'.
Proof.
  revert t. induction n as [|n IH]; intros t Ht; cbn [run]; [by intros [= <-]|].
  destruct (step handle t) as [t1|] eqn:E; [|done]. rewrite bind_Ok. intros Hr.
  pose proof (ordered_step t t1 Ht E) as Ht1. specialize (IH t1 Ht1 Hr). enough (clock_ t <= clock_ t1) by lia.
  clear Hr IH. revert E. unfold step. destruct (s_todo t) as [|c cs].
  - case_cond; [by intros [= <-]|]. cbn [eq_deque ListScheduler]. rewrite bind_Ok.
    pose proof (od_times t Ht) as Hq. destruct (s_queue t) as [|p q]; cbn [list_deque]; intros [= <-]; [done|].
    destruct (Hq p ltac:(left)) as [_ Hp]. unfold dispatch. by destruct (handle _ _ _).
  - destruct c as [h a d|a|uid|]; cbn [exec]; [|intros (_ & _ & Ec & _)%cancel_shape|intros (_ & _ & Ec & _)%cancel_uid_shape|];
      [|cbn in Ec; lia..|by intros [= <-]].
    unfold schedule. do 3 (case_cond; [done|]). cbn [eq_insert ListScheduler]. rewrite bind_Ok. by intros [= <-].
Qed.
End Order.

Lemma run_split {Q W} `{EventQueue Q} (handle : Z -> event -> W -> W * list command) m k (s s' : sim Q W) :
  run handle (m + k) s = Ok s' -> exists s1, run handle m s = Ok s1 /\ run handle k s1 = Ok s'.
Proof.
  revert s. induction m as [|m IH]; intros s; cbn [Nat.add run]; [by exists s|].
  destruct (step handle s) as [s1|]; [|done]. rewrite bind_Ok. apply IH.
Qed.

Lemma ordered_boot {W} (w : W) script : Forall forward script -> ordered (boot w script).
Proof.
  intros Hf. constructor; cbn; try done; [apply boot_inv|apply double_0|set_solver..|constructor].
Qed.

(** The events that were dispatched stay in the trace. *)
Lemma trace_run {W} (handle : Z -> event -> W -> W * list command) n (t t' : sim (list event) W) :
  run handle n t = Ok t' -> exists ps, s_trace t' = ps ++ s_trace t.
Proof.
  revert t. induction n as [|n IH]; intros t; cbn [run]; [intros [= <-]; by exists []|].
  destruct (step handle t) as [t1|] eqn:E; [|done]. rewrite bind_Ok. intros (ps & ->)%IH.
  enough (exists p, s_trace t1 = p ++ s_trace t) as (p & ->) by (exists (ps ++ p); by rewrite app_assoc).
  revert E. unfold step. destruct (s_todo t) as [|c cs].
  - case_cond; [intros [= <-]; by exists []|]. cbn [eq_deque ListScheduler]. rewrite bind_Ok.
    destruct (list_deque (s_queue t)) as [[p|] q]; intros [= <-]; [|by exists []].
    exists [p]. unfold dispatch. by destruct (handle _ _ _).
  - destruct c as [h a d|a|uid|]; cbn [exec];
      [|intros (_ & _ & _ & _ & ->)%cancel_shape; by exists []|intros (_ & _ & _ & _ & ->)%cancel_uid_shape; by exists []|intros [= <-]; by exists []].
    unfold schedule. do 3 (case_cond; [done|]). cbn [eq_insert ListScheduler]. rewrite bind_Ok. intros [= <-]. by exists [].
Qed.

(** ** What a command does *)

Lemma remove_spec (f : event -> Z) l l' x :
  NoDup (f <$> l) -> l ≡ₚ x :: l' -> forall e, e ∈ l' <-> e ∈ l /\ f e <> f x.
Proof.
  intros Hnd Hp e. rewrite Hp in Hnd |- *. cbn in Hnd. apply NoDup_cons in Hnd as [Hx _]. split.
  - intros He. split; [by right|]. intros E. apply Hx. rewrite <- E. by apply list_elem_of_fmap_2.
  - by intros [[->|He]%elem_of_cons Hne].
Qed.

Section Commands.
Context {W : Type}.
Implicit Types (t : sim (list event) W).

Lemma cancel_queued t x :
  sim_inv t -> x ∈ s_queue t -> exists t', cancel x t = Ok t' /\ s_queue t ≡ₚ x :: s_queue t'.
Proof.
  intros [Hs Hu Ha Hn Hm Hb Hi] Hx. destruct (list_unlink_ok x _ Ha Hx) as (a & b & E & El). unfold cancel.
  cbn [eq_cancel ListScheduler]. unfold list_cancel. pose proof (Hu x Hx). case_cond; [lia|].
  rewrite El, !bind_Ok. eexists. split; [done|]. cbn [s_queue set_field]. rewrite E. symmetry. apply Permutation_middle.
Qed.

Lemma cancel_command t a t' :
  sim_inv t -> cancel (event_at a t) t = Ok t' -> forall e, e ∈ s_queue t' <-> e ∈ s_queue t /\ e_addr e <> a.
Proof.
  intros Hi Hc. destruct (event_at_cases t a Hi) as [Ea [[Hu Hin]|[Hu Hfree]]].
  - destruct (cancel_queued t _ Hi Hin) as (t1 & E & Hp). rewrite Hc in E. injection E as <-. rewrite <- Ea.
    apply remove_spec; [apply Hi|done].
  - revert Hc. unfold cancel. rewrite q_cancel_idle by done. rewrite bind_Ok. intros [= <-] e. cbn [s_queue set_field].
    split; [intros He; split; [done|by apply Hfree]|tauto].
Qed.

Lemma cancel_uid_command t uid t' :
  sim_inv t -> cancel_uid uid t = Ok t' -> forall e, e ∈ s_queue t' <-> e ∈ s_queue t /\ e_uid e <> uid.
Proof.
  intros Hi. unfold cancel_uid. cbn [eq_lookup ListScheduler]. rewrite bind_Ok. pose proof (list_find_ok uid (s_queue t)) as Hf.
  destruct (list_find uid (s_queue t)) as [x|].
  - destruct Hf as [Hx <-]. intros Hc. destruct (cancel_queued t x Hi Hx) as (t1 & E & Hp).
    assert (Hc' : cancel x t = Ok t') by (destruct t; exact Hc). rewrite E in Hc'. injection Hc' as <-. apply remove_spec; [apply Hi|done].
  - intros [= <-] e. cbn [s_queue set_field]. split; [intros He; split; [done|by apply Hf]|tauto].
Qed.

Lemma cancel_total t c : sim_inv t -> (forall h a d, c <> CSchedule h a d) -> exists t', exec c t = Ok t'.
Proof.
  intros Hi Hc. destruct c as [h a d|a|uid|]; cbn [exec]; [by destruct (Hc h a d)| | |by eexists].
  - destruct (event_at_cases t a Hi) as [Ea Hcase].
    destruct (cancel_agree t t _ (list_agree t Hi) (ltac:(by rewrite Ea))) as (t' & E & _). by exists t'.
  - destruct (cancel_uid_agree t t uid (list_agree t Hi)) as (t' & E & _). by exists t'.
Qed.
End Commands.

(** ** Checking the states that are met *)

Section Met.
Context {Q W : Type} `{EventQueue Q} (handle : Z -> event -> W -> W * list command) (P : sim Q W -> bool).

Fixpoint all_met (n : nat) (s : sim Q W) : bool :=
  P s && match n with
         | O => true
         | S n => match step handle s with Ok s' => all_met n s' | Trap _ => true end
         end.

Lemma all_met_ok n s m sm : all_met n s = true -> (m <= n)%nat -> run handle m s = Ok sm -> P sm = true.
Proof.
  revert s m. induction n as [|n IH]; intros s m H1 Hm; cbn [all_met] in H1; apply andb_prop in H1 as [Hp H1].
  - assert (m = O) as -> by lia. by intros [= <-].
  - destruct m as [|m]; cbn [run]; [by intros [= <-]|]. destruct (step handle s) as [s1|]; [|done]. rewrite bind_Ok.
    apply IH; [done|lia].
Qed.
End Met.

Definition time_okb (t : Z) : bool := (0 <=? t) && (t mod 2 ^ 40 =? 0).
Lemma time_okb_ok t : time_okb t = true -> time_ok t.
Proof. unfold time_okb. intros [Ht Hm]%andb_prop. split; [lia|]. apply Z.mod_divide; lia. Qed.

Definition fineb (q : calendar) : bool :=
  (2 ^ 10 <=? width_ q) && forallb (fun e => e_time e <? 2 ^ 50 * width_ q) (cal_events q).
Lemma fineb_ok q : fineb q = true -> fine q.
Proof.
  unfold fineb. intros [Hw Hf]%andb_prop. split; [lia|]. rewrite forallb_forall in Hf. intros e He.
  apply list_elem_of_In, Hf in He. lia.
Qed.

(** * Properties *)

(** ** A client for the examples: two sources of events and a canceller *)

(** Handler 1 schedules its event again, half a second later, until the state
    is 0; handler 2 cancels the event 4 by its address and the one of uid 5; handler
    3 does nothing. *)
Definition demo (now : Z) (e : event) (w : Z) : Z * list command :=
  if e_handler e =? 1 then
    if w =? 0 then (w, []) else (w - 1, [CSchedule 1 (e_addr e) (of_int 1 / 2); CSchedule 3 (10 + w) (of_int 1)])
  else if e_handler e =? 2 then (w, [CCancel 4; CCancelUid 5; CCancel 99])
  else (w, []).

Definition demo_script : list command :=
  [CSchedule 1 1 (of_int 1); CSchedule 2 2 (of_int 1); CSchedule 3 4 (of_int 3); CSchedule 3 5 (of_int 3);
   CSchedule 3 6 (of_int 2); CSchedule 3 8 (of_int 9)].

(** What is dispatched: the addresses, and the times in half seconds. *)
Definition dispatched {Q} (x : outcome (sim Q Z)) : list (Z * Z) :=
  match x with Ok s => map (fun e => (e_addr e, e_time e * 2 / one)) (rev (s_trace s)) | Trap _ => [] end.
Definition demo_trace : list (Z * Z) := [(1, 2); (2, 2); (1, 3); (11, 4); (5, 6); (8, 18)].

(** ** The same events in the same order *)

Section Dispatch.
Context {W : Type} (handle : Z -> event -> W -> W * list command).

(** C22: whatever the handlers schedule, cancel or halt, the simulator on a
    binary heap (HeapScheduler) is after [n] < 2^30 steps where the simulator on
    the sorted list (ListScheduler) is: the same events dispatched in the same
    order, the same clock, event objects and handler states, or the same abort;
    the heap never fails where the list does not. *)
Theorem heap_dispatches_as_list n (w : W) script :
  Z.of_nat n < 1073741824 ->
  same_outcome (run handle n (boot w script : sim heap W)) (run handle n (boot w script)).
Proof. intros Hn. by apply boot_same. Qed.

(** C23: so is the simulator on the top-down splay tree (SplayScheduler), for
    fewer than 2^31 - 1 steps. *)
Theorem splay_dispatches_as_list n (w : W) script :
  Z.of_nat n < 2147483647 ->
  same_outcome (run handle n (boot w script : sim splay W)) (run handle n (boot w script)).
Proof. intros Hn. by apply boot_same. Qed.

(** C21: so is the simulator on the calendar queue (CalendarScheduler), whatever
    the resizes, with any interval of the adjustment and any positive minimum
    width, if the times that are met are multiples of 2^-1034 s and stay below
    2^50 widths of a bucket, where the hash and the year tests in doubles err by
    less than a quarter of a day. *)
Theorem calendar_dispatches_as_list adjust min_bin_width n (w : W) script :
  let calendar_sim := @boot calendar W (CalendarScheduler adjust min_bin_width) w script in
  0 < min_bin_width -> Z.of_nat n < 1073741824 ->
  (forall m t, (m <= n)%nat -> run handle m (boot w script : sim (list event) W) = Ok t ->
     forall e, e ∈ s_queue t -> time_ok (e_time e)) ->
  (forall m s, (m < n)%nat -> @run calendar W (CalendarScheduler adjust min_bin_width) handle m calendar_sim = Ok s ->
     fine (s_queue s)) ->
  match run handle n (boot w script : sim (list event) W) with
  | Ok t => exists q, @run calendar W (CalendarScheduler adjust min_bin_width) handle n calendar_sim = Ok (with_queue q t)
      /\ cal_events q ≡ₚ s_queue t
  | Trap f => @run calendar W (CalendarScheduler adjust min_bin_width) handle n calendar_sim = Trap f
  end.
Proof.
  intros c Hm Hn Ht Hf. apply (@boot_same calendar W _ (CalendarScheduler_ok adjust min_bin_width Hm)); [done| |done].
  intros m t Hle Hr. by apply (Ht m).
Qed.

(** C24: with delays that are not negative the events are dispatched in the
    strict order of their times and, at one time, of their scheduling.  The
    clock is the time of the last event that was dispatched, 0 before the first;
    it is where it was after any smaller number of steps or later, no event that
    was dispatched is after it, and none that is queued is before it or before
    an event that was dispatched. *)
Theorem dispatch_order n (w : W) script t :
  (forall now e w, Forall forward (handle now e w).2) -> Forall forward script ->
  run handle n (boot w script : sim (list event) W) = Ok t ->
  StronglySorted (fun x y => ev_lt y x) (s_trace t) /\
  clock_ t = match s_trace t with p :: _ => e_time p | [] => 0 end /\
  (forall m, (m <= n)%nat -> exists t0, run handle m (boot w script : sim (list event) W) = Ok t0 /\
     clock_ t0 <= clock_ t /\ exists ps, s_trace t = ps ++ s_trace t0) /\
  (forall e, e ∈ s_trace t -> e_time e <= clock_ t) /\
  (forall e, e ∈ s_queue t -> clock_ t <= e_time e /\ forall p, p ∈ s_trace t -> ev_lt p e).
Proof.
  intros Hh Hs Hr. pose proof (ordered_run handle Hh n _ _ (ordered_boot w script Hs) Hr) as Ht.
  split; [apply Ht|]. split; [apply Ht|]. split.
  { intros m Hm. replace n with (m + (n - m))%nat in Hr by lia. apply run_split in Hr as (t0 & H0 & Hr). exists t0.
    pose proof (ordered_run handle Hh m _ _ (ordered_boot w script Hs) H0) as Ht0.
    split; [done|]. split; [by eapply clock_run|by apply (trace_run handle (n - m))]. }
  split; [intros e He; by apply Ht|]. intros e He. split; [by apply Ht|].
  intros p Hp. by apply (od_next t Ht).
Qed.

(** C28: in every state that is reached, an event object has a positive uid iff
    it is queued, with the time and handler it was scheduled with; the uids in
    the queue are distinct and smaller than the next one, unless they ran out. *)
Theorem queued_iff_positive_uid n (w : W) script t a :
  run handle n (boot w script : sim (list event) W) = Ok t ->
  let e := event_at a t in
  (0 < e_uid e <-> e ∈ s_queue t) /\ (forall x, x ∈ s_queue t -> e_addr x = a -> x = e) /\
  NoDup (e_uid <$> s_queue t) /\
  (forall x, x ∈ s_queue t -> 0 < e_uid x /\ (e_uid x < uid_ t \/ uid_ t < 0)).
Proof.
  intros Hr. cbv zeta. destruct (list_run_inv handle n _ _ (boot_inv w script) Hr) as [Hi _].
  pose proof Hi as [Hs Hu Ha Hn Hm Hb Hid].
  assert (Hmem : forall x, x ∈ s_queue t -> e_addr x = a -> x = event_at a t).
  { intros x Hx <-. unfold event_at. by rewrite (Hm x Hx). }
  split; [|split; [done|split; [done|exact Hu]]].
  destruct (event_at_cases t a Hi) as [Ea [[? ?]|[? Hfree]]]; [by split|]. split; [lia|].
  intros Hin. by destruct (Hfree _ Hin).
Qed.

(** C26: what a command does in any state that is reached.  schedule aborts
    exactly for a null handler, for an event that is queued already and when
    the uids ran out, and otherwise adds the one event, at the clock plus the
    delay, with the next uid; the two cancels never abort and remove exactly
    the event at the address, if it is queued, or with the uid. *)
Theorem commands_correct n (w : W) script t c :
  run handle n (boot w script : sim (list event) W) = Ok t ->
  let refused h a := h = 0 \/ (exists e, e ∈ s_queue t /\ e_addr e = a) \/ uid_ t < 0 in
  match exec c t with
  | Trap f => f = AssertFail /\ exists h a d, c = CSchedule h a d /\ refused h a
  | Ok t' =>
      match c with
      | CSchedule h a d => ~ refused h a /\ s_queue t' ≡ₚ mk_event a h (fadd (clock_ t) d) (uid_ t) :: s_queue t
      | CCancel a => forall e, e ∈ s_queue t' <-> e ∈ s_queue t /\ e_addr e <> a
      | CCancelUid u => forall e, e ∈ s_queue t' <-> e ∈ s_queue t /\ e_uid e <> u
      | CHalt => t' = t <| halted_ := true |>
      end
  end.
Proof.
  intros Hr. cbv zeta. destruct (list_run_inv handle n _ _ (boot_inv w script) Hr) as [Hi _].
  destruct c as [h a d|a|u|].
  - cbn [exec]. destruct (event_at_cases t a Hi) as [Ea Hcase]. unfold schedule.
    case_cond; [split; [done|]; exists h, a, d; split; [done|left; lia]|].
    case_cond. { split; [done|]. exists h, a, d. split; [done|]. right. left. exists (event_at a t). split; [|done]. destruct Hcase; [tauto|lia]. }
    case_cond; [split; [done|]; exists h, a, d; split; [done|right; right; lia]|].
    cbn [eq_insert ListScheduler]. rewrite bind_Ok. cbn [s_queue set_field]. split; [|apply list_insert_perm].
    intros [?|[(e & He & E)|?]]; [lia| |lia]. destruct Hcase as [[? _]|[_ Hfree]]; [lia|by destruct (Hfree e)].
  - destruct (cancel_total t (CCancel a) Hi) as (t' & E); [done|]. rewrite E. by apply cancel_command.
  - destruct (cancel_total t (CCancelUid u) Hi) as (t' & E); [done|]. rewrite E. by apply cancel_uid_command.
  - done.
Qed.
End Dispatch.

(** ** The examples *)

Lemma demo_list : dispatched (run demo 20 (boot 1 demo_script : sim (list event) Z)) = demo_trace.
Proof. vm_compute. reflexivity. Qed.

(** What agrees with the list on the demo dispatches the same. *)
Lemma demo_same {Q} `{EventQueueOk Q} (x : outcome (sim Q Z)) :
  same_outcome x (run demo 20 (boot 1 demo_script)) -> dispatched x = demo_trace.
Proof.
  pose proof demo_list as Hl. unfold dispatched in Hl. destruct (run demo 20 (boot 1 demo_script)) as [t|f]; [|discriminate Hl].
  intros (q & -> & _). exact Hl.
Qed.

Lemma heap_dispatches_as_list_witness :
  Z.of_nat 20 < 1073741824 /\ dispatched (run demo 20 (boot 1 demo_script : sim heap Z)) = demo_trace.
Proof.
  split; [lia|]. apply demo_same, (heap_dispatches_as_list demo 20 1 demo_script). lia.
Defined.

Lemma splay_dispatches_as_list_witness :
  Z.of_nat 20 < 2147483647 /\ dispatched (run demo 20 (boot 1 demo_script : sim splay Z)) = demo_trace.
Proof.
  split; [lia|]. apply demo_same, (splay_dispatches_as_list demo 20 1 demo_script). lia.
Defined.

(** The variables of the calendar as ns-default.tcl sets them; 1e-18 is this double. *)
Definition min_width : Z := fdiv (of_int 1) (of_int 1000000000000000000).
Definition demo_calendar : sim calendar Z := @boot calendar Z (CalendarScheduler 10 min_width) 1 demo_script.

Lemma demo_times :
  @all_met _ _ ListScheduler demo (fun t => forallb (fun e => time_okb (e_time e)) (s_queue t)) 20 (boot 1 demo_script) = true.
Proof. vm_compute. reflexivity. Qed.

Lemma demo_fine :
  @all_met _ _ (CalendarScheduler 10 min_width) demo (fun s => fineb (s_queue s)) 20 demo_calendar = true.
Proof. vm_compute. reflexivity. Qed.

Lemma calendar_dispatches_as_list_witness :
  0 < min_width /\ Z.of_nat 20 < 1073741824 /\
  dispatched (@run calendar Z (CalendarScheduler 10 min_width) demo 20 demo_calendar) = demo_trace.
Proof.
  assert (Hm : 0 < min_width) by (vm_compute; reflexivity). split; [exact Hm|]. split; [lia|].
  pose proof (calendar_dispatches_as_list demo 10 min_width 20 1 demo_script Hm ltac:(lia)) as H.
  apply (@demo_same _ _ (CalendarScheduler_ok 10 min_width Hm)). apply H.
  - intros m tm Hle Hr e He. pose proof (all_met_ok _ _ _ _ _ _ demo_times Hle Hr) as Hb. cbv beta in Hb.
    rewrite forallb_forall in Hb. apply time_okb_ok, Hb. by apply list_elem_of_In.
  - intros m sm Hlt Hr. apply fineb_ok. by apply (@all_met_ok _ _ (CalendarScheduler 10 min_width) _ _ _ _ m sm demo_fine); [lia|].
Defined.

Lemma demo_forward now e w : Forall forward (demo now e w).2.
Proof. unfold demo. repeat case_cond; repeat constructor; vm_compute; discriminate. Qed.

Definition demo_end : sim (list event) Z :=
  Eval vm_compute in match run demo 16 (boot 1 demo_script : sim (list event) Z) with Ok t => t | Trap _ => boot 0 [] end.

Lemma demo_runs : run demo 16 (boot 1 demo_script : sim (list event) Z) = Ok demo_end.
Proof. vm_compute. reflexivity. Qed.

Lemma dispatch_order_witness :
  (forall now e w, Forall forward (demo now e w).2) /\ Forall forward demo_script /\
  run demo 16 (boot 1 demo_script : sim (list event) Z) = Ok demo_end /\
  StronglySorted (fun x y => ev_lt y x) (s_trace demo_end) /\ (length (s_trace demo_end) = 5)%nat.
Proof.
  assert (Hs : Forall forward demo_script) by (repeat constructor; vm_compute; discriminate).
  split; [exact demo_forward|]. split; [exact Hs|]. split; [exact demo_runs|]. split; [|reflexivity].
  exact (proj1 (dispatch_order demo 16 1 demo_script demo_end demo_forward Hs demo_runs)).
Defined.

Lemma queued_iff_positive_uid_witness :
  run demo 16 (boot 1 demo_script : sim (list event) Z) = Ok demo_end /\
  (0 < e_uid (event_at 8 demo_end) <-> event_at 8 demo_end ∈ s_queue demo_end) /\ e_uid (event_at 8 demo_end) = 6 /\
  e_uid (event_at 4 demo_end) = -3.
Proof.
  split; [exact demo_runs|]. split; [|split; reflexivity].
  exact (proj1 (queued_iff_positive_uid demo 16 1 demo_script demo_end 8 demo_runs)).
Defined.

Lemma commands_correct_witness :
  run demo 16 (boot 1 demo_script : sim (list event) Z) = Ok demo_end /\
  exec (CSchedule 1 8 0) demo_end = Trap AssertFail /\
  (exists e, e ∈ s_queue demo_end /\ e_addr e = 8).
Proof.
  split; [exact demo_runs|]. assert (E : exec (CSchedule 1 8 0) demo_end = Trap AssertFail) by (vm_compute; reflexivity).
  split; [exact E|]. pose proof (commands_correct demo 16 1 demo_script demo_end (CSchedule 1 8 0) demo_runs) as H.
  cbv zeta in H. rewrite E in H. destruct H as (_ & h & a & d & Ec & Hr). injection Ec as <- <- <-.
  destruct Hr as [Hr|[Hr|Hr]]; [discriminate|exact Hr|discriminate].
Defined.

(** The second key of the heap is an unsigned int: it orders the events of one
    time only until it wraps. *)
Definition first_of_two (s_key : Z) (e1 e2 : event) : outcome (option event) :=
  h ← heap_insert (e_time e1) e1 ((new_heap 32) <| h_s_key := s_key |>);
  h ← heap_insert (e_time e2) e2 h;
  '(e, _) ← heap_extract_min h; Ok e.

Example heap_fifo_wraps :
  let e1 := mk_event 1 1 7 4294967295 in
  let e2 := mk_event 2 1 7 4294967296 in
  first_of_two 4294967294 e1 e2 = Ok (Some e1) /\ first_of_two 4294967295 e1 e2 = Ok (Some e2).
Proof. vm_compute. by split. Qed.
