(* ===== verification/Timer.v ===== *)
(** TimerHandler (common/timer-handler.cc, common/timer-handler.h): timers over
    the event scheduler.  A timer schedules the one event it contains with
    itself as the handler; here its address [a] is that of the event too. *)
From stdpp Require Import gmap sorting.
From S2P Require Import Prelude Doubles EventQueue.

(** * Definitions *)

Inductive TimerStatus : Set := TIMER_IDLE | TIMER_PENDING | TIMER_HANDLING.
#[global] Instance TimerStatus_eq_dec : EqDecision TimerStatus.
Proof. solve_decision. Defined.

(** The statuses of the timers, and the state of their owner. *)
Record timers (C : Type) := mk_timers {
  w_status : gmap Z TimerStatus;
  w_client : C;
}.
Arguments mk_timers {C}. Arguments w_status {C}. Arguments w_client {C}.
#[global] Instance eta_timers C : Eta (timers C) := fun r => mk_timers (w_status r) (w_client r).

Section Timer.
Context {Q C : Type} `{!EventQueue Q}.
Local Abbreviation sim := (sim Q (timers C)).

(** [status_], TIMER_IDLE in a new object *)
Definition status_ (a : Z) (s : sim) : TimerStatus :=
  match w_status (s_world s) !! a with Some x => x | None => TIMER_IDLE end.
Definition set_status (a : Z) (x : TimerStatus) (s : sim) : sim :=
  s <| s_world := (s_world s) <| w_status := <[a := x]> (w_status (s_world s)) |> |>.

Definition _sched (a delay : Z) (s : sim) : outcome sim := schedule a a delay s.
Definition _cancel (a : Z) (s : sim) : outcome sim := cancel (event_at a s) s.

Definition timer_cancel (a : Z) (s : sim) : outcome sim :=
  if decide (status_ a s <> TIMER_PENDING) then Trap AssertFail
  else s ← _cancel a s; Ok (set_status a TIMER_IDLE s).

Definition sched (a delay : Z) (s : sim) : outcome sim :=
  if decide (status_ a s <> TIMER_IDLE) then Trap AssertFail
  else s ← _sched a delay s; Ok (set_status a TIMER_PENDING s).

Definition resched (a delay : Z) (s : sim) : outcome sim :=
  s ← (if decide (status_ a s = TIMER_PENDING) then _cancel a s else Ok s);
  s ← _sched a delay s;
  Ok (set_status a TIMER_PENDING s).

Definition force_cancel (a : Z) (s : sim) : outcome sim :=
  if decide (status_ a s = TIMER_PENDING) then s ← _cancel a s; Ok (set_status a TIMER_IDLE s) else Ok s.

(** What the owner of the timers calls. *)
Inductive call : Type :=
  | Sched (a delay : Z)
  | Resched (a delay : Z)
  | Cancel (a : Z)
  | ForceCancel (a : Z).

Definition timer_call (c : call) (s : sim) : outcome sim :=
  match c with
  | Sched a d => sched a d s
  | Resched a d => resched a d s
  | Cancel a => timer_cancel a s
  | ForceCancel a => force_cancel a s
  end.

Fixpoint timer_calls (cs : list call) (s : sim) : outcome sim :=
  match cs with [] => Ok s | c :: cs => s ← timer_call c s; timer_calls cs s end.

(** The virtual function expire of the owner: its new state and its calls. *)
Context (expire : Z -> Z -> C -> C * list call).

Definition timer_handle (a : Z) (s : sim) : outcome sim :=
  if decide (status_ a s <> TIMER_PENDING) then Trap AssertFail
  else
    let s := set_status a TIMER_HANDLING s in
    let '(c, cs) := expire (clock_ s) a (w_client (s_world s)) in
    s ← timer_calls cs (s <| s_world := (s_world s) <| w_client := c |> |>);
    Ok (if decide (status_ a s = TIMER_HANDLING) then set_status a TIMER_IDLE s else s).

(** The next event is dispatched, to its timer. *)
Definition fire (s : sim) : outcome sim :=
  '(o, q) ← eq_deque (s_queue s);
  let s := s <| s_queue := q |> in
  match o with
  | Some p => timer_handle (e_handler p) (dispatch (fun _ _ w => (w, [])) p (e_time p) s)
  | None => Ok s
  end.

Fixpoint timer_run (n : nat) (s : sim) : outcome sim :=
  match n with O => Ok s | S n => s ← fire s; timer_run n s end.

(** A new simulator with its timers; the owner's first calls, then the events. *)
Definition timer_sim (n : nat) (c : C) (script : list call) : outcome sim :=
  s ← timer_calls script (boot (mk_timers ∅ c) []); timer_run n s.
End Timer.

(** ** What the timers keep *)

(** [h]: the timer whose expire runs. *)
Record timers_inv {C} (h : option Z) (s : sim (list event) (timers C)) : Prop := mk_timers_inv {
  tv_sim : sim_inv s;
  tv_pending : forall a, status_ a s = TIMER_PENDING <-> 0 < e_uid (event_at a s);
  tv_handling : forall a, status_ a s = TIMER_HANDLING <-> h = Some a;
  tv_own : forall e, e ∈ s_queue s -> e_handler e = e_addr e /\ e_addr e <> 0;
}.

(** The calls that need not know the status. *)
Definition careful (c : call) : Prop :=
  match c with Resched a _ => a <> 0 | ForceCancel _ => True | Sched _ _ | Cancel _ => False end.

(** The call gives the timer [a] the status [x] and the one event [o] in the
    queue, and touches no other timer. *)
Record effect {C} (a : Z) (x : TimerStatus) (o : option event) (s s' : sim (list event) (timers C)) : Prop := mk_effect {
  ef_status : forall b, status_ b s' = if decide (a = b) then x else status_ b s;
  ef_queue : forall e, e ∈ s_queue s' <-> o = Some e \/ e ∈ s_queue s /\ e_addr e <> a;
  ef_clock : clock_ s' = clock_ s;
  ef_client : w_client (s_world s') = w_client (s_world s);
  ef_uid : uid_ s' = match o with Some _ => s64 (uid_ s + 1) | None => uid_ s end;
}.

(** * Lemmas *)

Section Lemmas.
Context {C : Type}.
Local Abbreviation tsim := (sim (list event) (timers C)).
Implicit Types (s : tsim).

Lemma set_status_inv a x s : sim_inv s -> sim_inv (set_status a x s).
Proof. by intros []. Qed.

Lemma status_set a b x s : status_ b (set_status a x s) = if decide (a = b) then x else status_ b s.
Proof.
  unfold status_, set_status. cbn [s_world w_status set_field]. case_decide as E; [subst; by rewrite lookup_insert_eq|].
  by rewrite lookup_insert_ne.
Qed.

Lemma event_at_set a b x s : event_at b (set_status a x s) = event_at b s.
Proof. done. Qed.

(** The objects after one is written. *)
Lemma event_at_write b e s (m : gmap Z event) :
  s_mem s = <[e_addr e := e]> m ->
  event_at b s = if decide (e_addr e = b) then e else match m !! b with Some x => x | None => mk_event b 0 0 0 end.
Proof.
  intros E. unfold event_at. rewrite E. case_decide as Eb; [subst; by rewrite lookup_insert_eq|]. by rewrite lookup_insert_ne.
Qed.

(** Cancelling a pending timer. *)
Lemma _cancel_ok a s :
  sim_inv s -> 0 < e_uid (event_at a s) ->
  returns (_cancel a s) (fun s' => sim_inv s' /\ s_queue s ≡ₚ event_at a s :: s_queue s' /\
    e_uid (event_at a s') < 0 /\ (forall b, b <> a -> event_at b s' = event_at b s) /\
    s_world s' = s_world s /\ clock_ s' = clock_ s /\ uid_ s' = uid_ s).
Proof.
  intros Hi Hu. destruct (event_at_cases s a Hi) as [Ea [[_ Hin]|[? _]]]; [|lia].
  set (e := event_at a s) in *. pose proof Hi as [Hs Huid Ha Hn Hm Hb Hid].
  destruct (list_unlink_ok e _ Ha Hin) as (xs & ys & E & El). unfold _cancel, cancel. fold e.
  cbn [eq_cancel ListScheduler]. unfold list_cancel. case_cond; [lia|]. rewrite El, !bind_Ok. cbn [returns].
  pose proof (sim_inv_remove s xs ys e Hi E) as Hi'.
  assert (Ew : s_mem (s <| s_queue := xs ++ ys |> <| s_mem := <[e_addr e := retire e]> (s_mem s) |>) =
    <[e_addr (retire e) := retire e]> (s_mem s)) by done.
  split; [exact Hi'|]. split; [rewrite E; symmetry; apply Permutation_middle|]. split; [|split; [|done]].
  - rewrite (event_at_write a (retire e) _ _ Ew). change (e_addr (retire e)) with (e_addr e). 
    rewrite decide_True by done. unfold retire. cbn. lia.
  - intros b Hb'. rewrite (event_at_write b (retire e) _ _ Ew). change (e_addr (retire e)) with (e_addr e).
    rewrite decide_False by congruence. done.
Qed.

(** Scheduling one that is not. *)
Lemma _sched_ok a d s :
  sim_inv s -> a <> 0 -> e_uid (event_at a s) <= 0 -> 0 <= uid_ s ->
  returns (_sched a d s) (fun s' => sim_inv s' /\ s_queue s' ≡ₚ mk_event a a (fadd (clock_ s) d) (uid_ s) :: s_queue s /\
    event_at a s' = mk_event a a (fadd (clock_ s) d) (uid_ s) /\ (forall b, b <> a -> event_at b s' = event_at b s) /\
    s_world s' = s_world s /\ clock_ s' = clock_ s /\ uid_ s' = s64 (uid_ s + 1)).
Proof.
  intros Hi Ha Hu Hid. set (e := mk_event a a (fadd (clock_ s) d) (uid_ s)).
  set (s' := s <| s_queue := list_insert e (s_queue s) |> <| uid_ := s64 (uid_ s + 1) |> <| s_mem := <[a := e]> (s_mem s) |>).
  assert (E : schedule a a d s = Ok s').
  { unfold schedule. destruct (Z.eqb_spec a 0); [done|]. do 2 (case_cond; [lia|]).
    cbn [eq_insert ListScheduler]. by rewrite bind_Ok. }
  unfold _sched. pose proof (schedule_agree s s s' a a d (list_agree s Hi)) as Hag.
  pose proof (si_uid s Hi). rewrite E in Hag |- *. cbn [returns] in *.
  assert (Hi' : sim_inv s') by (apply (ag_list s' s'), Hag; [cbn; lia|done|done]).
  assert (Ew : s_mem s' = <[e_addr e := e]> (s_mem s)) by done.
  split; [exact Hi'|]. split; [apply list_insert_perm|]. split; [|split; [|done]].
  - rewrite (event_at_write a e s' _ Ew). by rewrite decide_True.
  - intros b Hb. rewrite (event_at_write b e s' _ Ew). rewrite decide_False; [done|]. cbn. congruence.
Qed.

Lemma status_idle h a s :
  timers_inv h s -> status_ a s <> TIMER_PENDING -> e_uid (event_at a s) <= 0 /\ forall e, e ∈ s_queue s -> e_addr e <> a.
Proof.
  intros Hs Hne. rewrite (tv_pending h s Hs) in Hne. destruct (event_at_cases s a (tv_sim h s Hs)) as [_ [[? _]|Hf]]; [done|exact Hf].
Qed.

Lemma queue_others s a l :
  sim_inv s -> s_queue s ≡ₚ event_at a s :: l -> forall e, e ∈ l <-> e ∈ s_queue s /\ e_addr e <> a.
Proof.
  intros Hi Hp e. destruct (event_at_cases s a Hi) as [Ea _]. pose proof (si_addrs s Hi) as Hnd. rewrite Hp in Hnd |- *.
  cbn in Hnd. apply NoDup_cons in Hnd as [Hn _]. rewrite Ea in Hn. split.
  - intros He. split; [by right|]. intros E. apply Hn. rewrite <- E. by apply list_elem_of_fmap_2.
  - by intros [[->|He]%elem_of_cons Hne].
Qed.

(** From the effect on the queue and the objects to the invariant. *)
Lemma effect_inv h a x s s' :
  timers_inv h s -> sim_inv s' -> (forall b, status_ b s' = if decide (a = b) then x else status_ b s) ->
  (x = TIMER_PENDING <-> 0 < e_uid (event_at a s')) -> (forall b, b <> a -> event_at b s' = event_at b s) ->
  (forall e, e ∈ s_queue s' -> e ∈ s_queue s \/ e_handler e = a /\ e_addr e = a /\ a <> 0) ->
  x <> TIMER_HANDLING -> timers_inv (if decide (h = Some a) then None else h) s'.
Proof.
  intros [Hi Hp Hh Ho] Hi' Hst Hx He Hq Hne. constructor; [done| | |].
  - intros b. rewrite Hst. case_decide as E; [by subst|]. by rewrite He.
  - intros b. rewrite Hst. destruct (decide (a = b)) as [->|E].
    + case_decide; [by split|]. split; [done|]. by intros ->.
    + rewrite Hh. case_decide as Eh; [|done]. rewrite Eh. split; [by intros [= ?]|done].
  - intros e Hin. destruct (Hq e Hin) as [|(E1 & E2 & ?)]; [by apply Ho|]. split; congruence.
Qed.

(** The second half of sched and resched. *)
Lemma schedule_part h a d s :
  timers_inv h s -> a <> 0 -> status_ a s <> TIMER_PENDING -> 0 <= uid_ s ->
  returns (s ← _sched a d s; Ok (set_status a TIMER_PENDING s)) (fun s' =>
    timers_inv (if decide (h = Some a) then None else h) s' /\
    effect a TIMER_PENDING (Some (mk_event a a (fadd (clock_ s) d) (uid_ s))) s s').
Proof.
  intros Hs Ha Hst Hid. destruct (status_idle h a s Hs Hst) as [Hu Hfree].
  eapply returns_bind; [by apply _sched_ok; [apply (tv_sim h)| | |]|].
  intros s1 (Hi1 & Hp & Hev & Hoth & Ew & Ec & Eu). cbn [returns].
  assert (Estat : forall b, status_ b (set_status a TIMER_PENDING s1) = if decide (a = b) then TIMER_PENDING else status_ b s).
  { intros b. rewrite status_set. unfold status_. by rewrite Ew. }
  assert (Equeue : forall e, e ∈ s_queue s1 <-> Some (mk_event a a (fadd (clock_ s) d) (uid_ s)) = Some e \/ e ∈ s_queue s /\ e_addr e <> a).
  { intros e. rewrite Hp, elem_of_cons. split.
    - intros [->|He]; [by left|right]. split; [done|by apply Hfree].
    - intros [[= <-]|[He _]]; [by left|by right]. }
  pose proof (si_uid s (tv_sim h s Hs)). split.
  - apply (effect_inv h a TIMER_PENDING s); [done|by apply set_status_inv|done| |done| |done].
    + rewrite event_at_set, Hev. cbn. split; [lia|done].
    + intros e He. apply Equeue in He as [[= <-]|[He _]]; [right; done|by left].
  - constructor; [done|done|done|cbn; by rewrite Ew|done].
Qed.

(** The first half of resched, and the two cancels. *)
Lemma cancel_part h a x s :
  timers_inv h s -> status_ a s = TIMER_PENDING -> x <> TIMER_PENDING -> x <> TIMER_HANDLING ->
  returns (s ← _cancel a s; Ok (set_status a x s)) (fun s' => timers_inv h s' /\ effect a x None s s').
Proof.
  intros Hs Hst Hx Hx'. pose proof (tv_sim h s Hs) as Hi. pose proof (proj1 (tv_pending h s Hs a) Hst) as Hu.
  eapply returns_bind; [by apply _cancel_ok|].
  intros s1 (Hi1 & Hp & Hev & Hoth & Ew & Ec & Eu). cbn [returns]. pose proof (queue_others s a _ Hi Hp) as Hq.
  assert (Estat : forall b, status_ b (set_status a x s1) = if decide (a = b) then x else status_ b s).
  { intros b. rewrite status_set. unfold status_. by rewrite Ew. }
  assert (Hh : h <> Some a) by (intros E; apply (tv_handling h s Hs) in E; congruence). split.
  - replace h with (if decide (h = Some a) then None else h) by by rewrite decide_False.
    apply (effect_inv h a x s); [done|by apply set_status_inv|done| |done| |done].
    + rewrite event_at_set. split; [done|lia].
    + intros e He. left. by apply Hq.
  - constructor; [done| |done|cbn; by rewrite Ew|done]. intros e. cbn [s_queue set_status set_field].
    rewrite Hq. split; [by right|by intros [|]].
Qed.

Lemma sched_ok h a d s :
  timers_inv h s -> a <> 0 -> status_ a s = TIMER_IDLE -> 0 <= uid_ s ->
  returns (sched a d s) (fun s' => timers_inv (if decide (h = Some a) then None else h) s' /\
    effect a TIMER_PENDING (Some (mk_event a a (fadd (clock_ s) d) (uid_ s))) s s').
Proof.
  intros Hs Ha Hst Hid. unfold sched. rewrite decide_False by (rewrite Hst; tauto).
  apply schedule_part; [done|done|by rewrite Hst|done].
Qed.

Lemma resched_ok h a d s :
  timers_inv h s -> a <> 0 -> 0 <= uid_ s ->
  returns (resched a d s) (fun s' => timers_inv (if decide (h = Some a) then None else h) s' /\
    effect a TIMER_PENDING (Some (mk_event a a (fadd (clock_ s) d) (uid_ s))) s s').
Proof.
  intros Hs Ha Hid. unfold resched. case_decide as Hst; [|rewrite bind_Ok; by apply schedule_part].
  pose proof (tv_sim h s Hs) as Hi. pose proof (proj1 (tv_pending h s Hs a) Hst) as Hu.
  eapply returns_bind; [by apply _cancel_ok|]. intros s1 (Hi1 & Hp & Hev & Hoth & Ew & Ec & Eu).
  pose proof (queue_others s a _ Hi Hp) as Hq.
  eapply returns_bind; [apply _sched_ok; [done|done|lia|by rewrite Eu]|].
  intros s2 (Hi2 & Hp2 & Hev2 & Hoth2 & Ew2 & Ec2 & Eu2). rewrite Ec, Eu in *. cbn [returns].
  assert (Estat : forall b, status_ b (set_status a TIMER_PENDING s2) = if decide (a = b) then TIMER_PENDING else status_ b s).
  { intros b. rewrite status_set. unfold status_. by rewrite Ew2, Ew. }
  assert (Equeue : forall e, e ∈ s_queue s2 <-> Some (mk_event a a (fadd (clock_ s) d) (uid_ s)) = Some e \/ e ∈ s_queue s /\ e_addr e <> a).
  { intros e. rewrite Hp2, elem_of_cons, Hq. split; (intros [E|]; [left; congruence|by right]). }
  pose proof (si_uid s Hi). split.
  - apply (effect_inv h a TIMER_PENDING s); [done|by apply set_status_inv|done| | | |done].
    + rewrite event_at_set, Hev2. cbn. split; [lia|done].
    + intros b Hb. rewrite event_at_set, Hoth2 by done. by apply Hoth.
    + intros e He. apply Equeue in He as [[= <-]|[He _]]; [right; done|by left].
  - constructor; [done|done|done|cbn; by rewrite Ew2, Ew|done].
Qed.

Lemma timer_cancel_ok h a s :
  timers_inv h s -> status_ a s = TIMER_PENDING ->
  returns (timer_cancel a s) (fun s' => timers_inv h s' /\ effect a TIMER_IDLE None s s').
Proof.
  intros Hs Hst. unfold timer_cancel. rewrite decide_False by (rewrite Hst; tauto). by apply cancel_part.
Qed.

Lemma force_cancel_ok h a s :
  timers_inv h s ->
  returns (force_cancel a s) (fun s' => timers_inv h s' /\
    effect a (if decide (status_ a s = TIMER_PENDING) then TIMER_IDLE else status_ a s) None s s').
Proof.
  intros Hs. unfold force_cancel. case_decide as Hst; [by apply cancel_part|]. cbn [returns]. split; [done|].
  destruct (status_idle h a s Hs Hst) as [_ Hfree]. constructor; [|intros e; split|done|done|done].
  - intros b. by case_decide; [subst|].
  - intros He. right. split; [done|by apply Hfree].
  - by intros [|[? _]].
Qed.

(** ** A whole run *)

(** The calls of an owner that is careful. *)
Lemma careful_calls cs h s :
  timers_inv h s -> Forall careful cs -> uid_ s + Z.of_nat (length cs) < 9223372036854775807 -> 0 <= uid_ s ->
  returns (timer_calls cs s) (fun s' => (exists h', (h' = h \/ h' = None) /\ timers_inv h' s') /\
    0 <= uid_ s' <= uid_ s + Z.of_nat (length cs)).
Proof.
  revert h s. induction cs as [|c cs IH]; intros h s Hs Hcs Hlim Hid; cbn [timer_calls].
  { cbn [returns length]. split; [exists h; split; [by left|done]|lia]. }
  apply Forall_cons in Hcs as [Hc Hcs]. cbn [length] in Hlim.
  eapply (returns_bind _ _ (fun s1 => exists h', (h' = h \/ h' = None) /\ timers_inv h' s1 /\ 0 <= uid_ s1 <= uid_ s + 1)).
  { destruct c as [a d|a d|a|a]; cbn [careful] in Hc; [done| |done|]; cbn [timer_call].
    - eapply returns_mono; [by apply (resched_ok h)|]. intros s1 [Hs1 He]. pose proof (ef_uid _ _ _ _ _ He) as Eu.
      cbn in Eu. rewrite s64_id in Eu by lia. eexists. split; [|split; [exact Hs1|lia]]. case_decide; [by right|by left].
    - eapply returns_mono; [by apply (force_cancel_ok h)|]. intros s1 [Hs1 He]. pose proof (ef_uid _ _ _ _ _ He) as Eu.
      cbn in Eu. exists h. split; [by left|]. split; [done|lia]. }
  intros s1 (h1 & Hh1 & Hs1 & Hu). eapply returns_mono; [apply (IH h1); [done|done|lia|lia]|].
  intros s' [(h' & Hh' & Hs') Hu']. split; [|cbn [length]; lia]. exists h'. split; [|done].
  destruct Hh' as [->| ->]; [done|by right].
Qed.

Section Run.
Context (expire : Z -> Z -> C -> C * list call) (k : nat).
Context (Hexpire : forall now a c, Forall careful (expire now a c).2 /\ (length (expire now a c).2 <= k)%nat).

(** The event dispatched, before its timer handles it. *)
Lemma dispatched_inv s p l :
  timers_inv None s -> s_queue s = p :: l ->
  let s1 := dispatch (fun _ _ w => (w, [])) p (e_time p) (s <| s_queue := l |>) in
  status_ (e_addr p) s1 = TIMER_PENDING /\ timers_inv (Some (e_addr p)) (set_status (e_addr p) TIMER_HANDLING s1).
Proof.
  intros [Hi Hp Hh Ho] E. cbv zeta. set (a := e_addr p). set (s1 := dispatch _ _ _ _).
  assert (Hin : p ∈ s_queue s) by (rewrite E; left).
  assert (Ep : event_at a s = p) by (unfold event_at, a; by rewrite (si_mem s Hi p Hin)).
  assert (Hu : 0 < e_uid p) by by apply (si_uids s Hi).
  assert (Hst : status_ a s = TIMER_PENDING) by (apply Hp; by rewrite Ep).
  assert (Ew : s_mem s1 = <[e_addr (retire p) := retire p]> (s_mem s)) by done.
  assert (Eo : forall b, status_ b s1 = status_ b s) by done. split; [by rewrite Eo|].
  assert (Hi1 : sim_inv s1) by by apply dispatch_inv. constructor.
  - by apply set_status_inv.
  - intros b. rewrite status_set, event_at_set, (event_at_write b (retire p) s1 _ Ew), Eo.
    change (e_addr (retire p)) with a. case_decide; [|by rewrite Hp]. unfold retire. cbn. split; [done|lia].
  - intros b. rewrite status_set, Eo. case_decide as Eb; [split; congruence|]. rewrite Hh. split; [done|congruence].
  - intros e He. apply Ho. rewrite E. by right.
Qed.

Lemma timer_handle_ok s p l :
  timers_inv None s -> s_queue s = p :: l -> 0 <= uid_ s -> uid_ s + Z.of_nat k < 9223372036854775807 ->
  returns (timer_handle expire (e_handler p) (dispatch (fun _ _ w => (w, [])) p (e_time p) (s <| s_queue := l |>)))
    (fun s' => timers_inv None s' /\ 0 <= uid_ s' <= uid_ s + Z.of_nat k).
Proof.
  intros Hs E Hid Hlim. destruct (tv_own None s Hs p) as [Eh _]; [rewrite E; left|]. rewrite Eh.
  destruct (dispatched_inv s p l Hs E) as [Hst Hinv]. set (s1 := dispatch _ _ _ _) in *. unfold timer_handle.
  rewrite decide_False by (rewrite Hst; tauto). cbv zeta. set (a := e_addr p) in *. set (s2 := set_status _ _ _) in *.
  assert (Eu : uid_ s2 = uid_ s) by done. clearbody s2. clear s1 Hst.
  destruct (Hexpire (clock_ s2) a (w_client (s_world s2))) as [Hc Hlen]. destruct (expire _ _ _) as [c cs]. cbn [snd] in *.
  assert (Hinv' : timers_inv (Some a) (s2 <| s_world := (s_world s2) <| w_client := c |> |>)).
  { destruct Hinv as [[] Hp Hh Ho]. by constructor. }
  eapply returns_bind; [apply (careful_calls cs _ _ Hinv' Hc); cbn; lia|].
  intros s3 [(h & Hh & Hs3) Hu3]. cbn [returns uid_ set_field] in *. split; [|case_decide; cbn; lia].
  case_decide as Hst.
  - destruct Hs3 as [Hi Hp Hhd Ho]. constructor; [by apply set_status_inv| | |done].
    + intros b. rewrite status_set, event_at_set. case_decide as Eb; [|by rewrite Hp]. subst b. rewrite <- Hp. split; [done|congruence].
    + intros b. rewrite status_set. case_decide as Eb; [done|]. rewrite Hhd. apply Hhd in Hst. rewrite Hst. split; [congruence|done].
  - destruct Hh as [->| ->]; [|done]. by destruct Hst; apply (tv_handling _ _ Hs3).
Qed.

Lemma timer_run_ok n s :
  timers_inv None s -> 0 <= uid_ s -> uid_ s + Z.of_nat (n * k) < 9223372036854775807 ->
  returns (timer_run expire n s) (timers_inv None).
Proof.
  revert s. induction n as [|n IH]; intros s Hs Hid Hlim; cbn [timer_run]; [by cbn [returns]|].
  eapply (returns_bind _ _ (fun s' => timers_inv None s' /\ 0 <= uid_ s' <= uid_ s + Z.of_nat k)).
  - unfold fire. cbn [eq_deque ListScheduler]. rewrite bind_Ok. destruct (s_queue s) as [|p l] eqn:E; cbn [list_deque].
    + cbn [returns]. split; [|cbn; lia]. destruct s. cbn in E. by subst.
    + apply timer_handle_ok; [done|done|done|lia].
  - intros s' [Hs' Hu']. apply IH; [done|lia|lia].
Qed.
End Run.

Lemma timers_boot (c : C) : timers_inv None (boot (mk_timers ∅ c) [] : tsim).
Proof. constructor; [apply boot_inv|done|done|by intros e ?%elem_of_nil]. Qed.
End Lemmas.

(** * Properties *)

(** C25: whatever timers the owner restarts (resched) and stops (force_cancel),
    in expire or before, for as long as there are uids: no check aborts, so a
    handler is only ever run for a pending timer; between two events each
    timer is pending iff its event is queued, and none is being handled. *)
Theorem timers_safe {C} (expire : Z -> Z -> C -> C * list call) k n c script :
  (forall now a c, Forall careful (expire now a c).2 /\ (length (expire now a c).2 <= k)%nat) ->
  Forall careful script -> Z.of_nat (length script + n * k) < 9223372036854775806 ->
  returns (timer_sim expire n c script : outcome (sim (list event) (timers C))) (fun s =>
    (forall a, status_ a s = TIMER_PENDING <-> exists e, e ∈ s_queue s /\ e_addr e = a) /\
    (forall a, status_ a s <> TIMER_HANDLING) /\
    forall e, e ∈ s_queue s -> e_handler e = e_addr e).
Proof.
  intros He Hs Hlim. unfold timer_sim.
  eapply returns_bind; [apply (careful_calls script _ _ (timers_boot c) Hs); cbn; lia|].
  intros s1 [(h & Hh & Hs1) Hu]. assert (h = None) as -> by (by destruct Hh).
  eapply returns_mono; [apply (timer_run_ok expire k He); [done|lia|cbn in Hu; lia]|].
  intros s [Hi Hp Hhd Ho]. split; [|split; [intros a Ha; by apply Hhd in Ha|intros e Hin; by apply Ho]].
  intros a. rewrite Hp. destruct (event_at_cases s a Hi) as [Ea [[Hu' Hin]|[Hu' Hfree]]].
  - split; [intros _; by exists (event_at a s)|done].
  - split; [lia|]. intros (e & Hin & E). by destruct (Hfree e).
Qed.

(** C27: the four calls in every state the timers can be in, also inside expire
    ([h] is the timer that expires).  sched aborts unless the timer is idle,
    also for the timer that expires; resched always leaves the timer pending
    with one event, at the clock plus the delay, in place of the old one;
    cancel aborts unless the timer is pending; force_cancel never aborts; after
    both the event is gone.  No call touches another timer. *)
Theorem timer_calls_correct {C} h (s : sim (list event) (timers C)) a d :
  timers_inv h s -> a <> 0 -> 0 <= uid_ s ->
  let pending := effect a TIMER_PENDING (Some (mk_event a a (fadd (clock_ s) d) (uid_ s))) s in
  match status_ a s with
  | TIMER_IDLE => returns (sched a d s) pending
  | _ => sched a d s = Trap AssertFail
  end /\
  returns (resched a d s) pending /\
  match status_ a s with
  | TIMER_PENDING => returns (timer_cancel a s) (effect a TIMER_IDLE None s) /\ returns (force_cancel a s) (effect a TIMER_IDLE None s)
  | x => timer_cancel a s = Trap AssertFail /\ returns (force_cancel a s) (effect a x None s)
  end.
Proof.
  intros Hs Ha Hid. cbv zeta. split; [|split].
  - destruct (status_ a s) eqn:E; [eapply returns_mono; [by apply (sched_ok h)|by intros s' [_ ?]]| |];
      unfold sched; by rewrite decide_True by by rewrite E.
  - eapply returns_mono; [by apply (resched_ok h)|by intros s' [_ ?]].
  - assert (Hf : returns (force_cancel a s) (effect a (if decide (status_ a s = TIMER_PENDING) then TIMER_IDLE else status_ a s) None s))
      by (eapply returns_mono; [by apply (force_cancel_ok h)|by intros s' [_ ?]]).
    destruct (status_ a s) eqn:E; [|split; [eapply returns_mono; [by apply (timer_cancel_ok h)|by intros s' [_ ?]]|done]|];
      (split; [unfold timer_cancel; by rewrite decide_True by by rewrite E|done]).
Qed.

(** ** The examples *)

(** Timer 1 restarts itself a second later until the count is 0; timer 2 stops
    it and restarts timer 3. *)
Definition demo_expire (now a : Z) (c : Z) : Z * list call :=
  if a =? 1 then (c - 1, if c =? 0 then [] else [Resched 1 (of_int 1)])
  else if a =? 2 then (c, [ForceCancel 1; Resched 3 (of_int 1); Resched 3 (of_int 2)])
  else (c, []).
Definition demo_calls : list call := [Resched 1 (of_int 1); Resched 2 (of_int 5); Resched 2 (of_int 2)].

Lemma demo_expire_ok now a c : Forall careful (demo_expire now a c).2 /\ (length (demo_expire now a c).2 <= 3)%nat.
Proof. unfold demo_expire. repeat case_cond; cbn; (split; [by repeat constructor|lia]). Qed.

Lemma timers_safe_witness :
  (forall now a c, Forall careful (demo_expire now a c).2 /\ (length (demo_expire now a c).2 <= 3)%nat) /\
  Forall careful demo_calls /\
  returns (timer_sim demo_expire 4 9 demo_calls : outcome (sim (list event) (timers Z))) (fun s =>
    (forall a, status_ a s = TIMER_PENDING <-> exists e, e ∈ s_queue s /\ e_addr e = a) /\
    (forall a, status_ a s <> TIMER_HANDLING) /\
    forall e, e ∈ s_queue s -> e_handler e = e_addr e).
Proof.
  assert (Hc : Forall careful demo_calls) by by repeat constructor.
  split; [exact demo_expire_ok|]. split; [exact Hc|].
  apply (timers_safe demo_expire 3 4 9 demo_calls demo_expire_ok Hc). cbn. lia.
Defined.

Lemma timer_calls_correct_witness :
  exists s : sim (list event) (timers Z), timers_inv None s /\ status_ 5 s = TIMER_IDLE /\
    returns (sched 5 (of_int 1) s) (fun s' => s_queue s' = [mk_event 5 5 (of_int 1) 1]) /\
    returns (resched 5 (of_int 1) s) (effect 5 TIMER_PENDING (Some (mk_event 5 5 (fadd 0 (of_int 1)) 1)) s).
Proof.
  exists (boot (mk_timers ∅ 9) []). split; [apply timers_boot|]. split; [reflexivity|]. split; [vm_compute; reflexivity|].
  refine (proj1 (proj2 (timer_calls_correct None (boot (mk_timers ∅ 9) []) 5 (of_int 1) (timers_boot 9) _ _))); [lia|cbn; lia].
Defined.
