(* ===== verification/PacketQueue.v ===== *)
(** PacketQueue (queue/queue.h, queue/queue.cc): the linked list of packets under
    the queueing disciplines, over the packets in memory, against a list. *)
From stdpp Require Import gmap.
From S2P Require Import Prelude.

(** * Definitions *)

(** A packet: the size in its common header, the source address in its IP
    header, and the link [next_] that whoever holds the packet may use.
    Address 0 is the null pointer. *)
Record packet := mk_packet {
  p_size : Z;                 (* int *)
  p_saddr : Z;                (* nsaddr_t *)
  p_next : Z;
}.
#[global] Instance eta_packet : Eta packet := fun r => mk_packet (p_size r) (p_saddr r) (p_next r).

Abbreviation memory := (gmap Z packet).

Definition access (p : Z) (m : memory) : outcome packet :=
  match m !! p with Some x => Ok x | None => Trap NullDeref end.
Definition set_next (p next : Z) (m : memory) : outcome memory :=
  x ← access p m; Ok (<[p := x <| p_next := next |>]> m).

Record pqueue := mk_pqueue {
  head_ : Z;
  tail_ : Z;
  len_ : Z;                   (* int *)
  bytes_ : Z;                 (* int *)
  iter : Z;
}.
#[global] Instance eta_pqueue : Eta pqueue := fun r =>
  mk_pqueue (head_ r) (tail_ r) (len_ r) (bytes_ r) (iter r).

Definition new_queue : pqueue := mk_pqueue 0 0 0 0 0.

(** The previous tail is returned. *)
Definition pq_enque (p : Z) (m : memory) (q : pqueue) : outcome (Z * memory * pqueue) :=
  let pt := tail_ q in
  '(m, q) ← (if tail_ q =? 0 then Ok (m, q <| head_ := p |> <| tail_ := p |>)
             else m ← set_next (tail_ q) p m; Ok (m, q <| tail_ := p |>));
  m ← set_next (tail_ q) 0 m;
  x ← access p m;
  Ok (pt, m, q <| len_ := len_ q + 1 |> <| bytes_ := bytes_ q + p_size x |>).

(** The head, 0 if the queue is empty; its link is left as it is. *)
Definition pq_deque (m : memory) (q : pqueue) : outcome (Z * pqueue) :=
  if head_ q =? 0 then Ok (0, q)
  else
    let p := head_ q in
    x ← access p m;
    let q := q <| head_ := p_next x |> in
    let q := if p =? tail_ q then q <| head_ := 0 |> <| tail_ := 0 |> else q in
    Ok (p, q <| len_ := len_ q - 1 |> <| bytes_ := bytes_ q - p_size x |>).

(** The loop of lookup: the packet reached, and what is left of [n]. *)
Definition lookup_ (n : Z) (m : memory) (q : pqueue) : outcome Z :=
  '(p, _, found) ← c_while (fun '(p, _, found) => negb (p =? 0) && negb found)
    (fun '(p, n, _) =>
       let n := n - 1 in
       if n <? 0 then Ok (p, n, true) else x ← access p m; Ok (p_next x, n, false))
    (head_ q, n, false);
  if found : bool then Ok p else Ok 0.

(** The loop of remove: the packets [pp] and [p]. *)
Definition remove_target (target : Z) (m : memory) (q : pqueue) : outcome (memory * pqueue) :=
  '(pp, p) ← c_while (fun '(pp, p) => negb (p =? 0) && negb (p =? target))
    (fun '(pp, p) => x ← access p m; Ok (p, p_next x))
    (0, head_ q);
  if p =? 0 then Trap AssertFail
  else if pp =? 0 then '(_, q) ← pq_deque m q; Ok (m, q)
  else
    let q := if p =? tail_ q then q <| tail_ := pp |> else q in
    x ← access p m;
    m ← set_next pp (p_next x) m;
    Ok (m, q <| len_ := len_ q - 1 |> <| bytes_ := bytes_ q - p_size x |>).

(** remove(pkt, prev), for a packet whose predecessor is known *)
Definition remove_after (pkt prev : Z) (m : memory) (q : pqueue) : outcome (memory * pqueue) :=
  if pkt =? 0 then Ok (m, q)
  else if head_ q =? pkt then '(_, q) ← pq_deque m q; Ok (m, q)
  else
    x ← access pkt m;
    m ← set_next prev (p_next x) m;
    let q := if tail_ q =? pkt then q <| tail_ := prev |> else q in
    Ok (m, q <| len_ := len_ q - 1 |> <| bytes_ := bytes_ q - p_size x |>).

Definition enqueHead (p : Z) (m : memory) (q : pqueue) : outcome (memory * pqueue) :=
  let q := if head_ q =? 0 then q <| tail_ := p |> else q in
  m ← set_next p (head_ q) m;
  x ← access p m;
  Ok (m, q <| head_ := p |> <| len_ := len_ q + 1 |> <| bytes_ := bytes_ q + p_size x |>).

Definition resetIterator (q : pqueue) : pqueue := q <| iter := head_ q |>.
Definition getNext (m : memory) (q : pqueue) : outcome (Z * pqueue) :=
  if iter q =? 0 then Ok (0, q)
  else x ← access (iter q) m; Ok (iter q, q <| iter := p_next x |>).

(** ** The list it stands for *)

(** The links lead from [p] through the packets [l] to [e]. *)
Fixpoint seg (m : memory) (p : Z) (l : list Z) (e : Z) : Prop :=
  match l with
  | [] => p = e
  | a :: l => p = a /\ exists x, m !! a = Some x /\ seg m (p_next x) l e
  end.

Definition size_of (m : memory) (p : Z) : Z := match m !! p with Some x => p_size x | None => 0 end.
Definition saddr_of (m : memory) (p : Z) : Z := match m !! p with Some x => p_saddr x | None => 0 end.
Definition total_size (m : memory) (l : list Z) : Z := foldr (fun p n => size_of m p + n) 0 l.

Record holds (m : memory) (q : pqueue) (l : list Z) : Prop := mk_holds {
  ho_seg : seg m (head_ q) l 0;
  ho_tail : tail_ q = match last l with Some p => p | None => 0 end;
  ho_nodup : NoDup l;
  ho_null : 0 ∉ l;
  ho_len : len_ q = Z.of_nat (length l);
  ho_bytes : bytes_ q = total_size m l;
}.

(** The operations of a queueing discipline, and what they return; 0 for none. *)
Inductive pq_op : Type :=
  | OEnque (p : Z)
  | ODeque
  | ORemove (p : Z)
  | OEnqueHead (p : Z)
  | OLookup (n : Z).

Definition pq_step (o : pq_op) (m : memory) (q : pqueue) : outcome (Z * memory * pqueue) :=
  match o with
  | OEnque p => pq_enque p m q
  | ODeque => '(p, q) ← pq_deque m q; Ok (p, m, q)
  | ORemove p => '(m, q) ← remove_target p m q; Ok (0, m, q)
  | OEnqueHead p => '(m, q) ← enqueHead p m q; Ok (0, m, q)
  | OLookup n => p ← lookup_ n m q; Ok (p, m, q)
  end.

Fixpoint pq_run (os : list pq_op) (m : memory) (q : pqueue) : outcome (list Z * memory * pqueue) :=
  match os with
  | [] => Ok ([], m, q)
  | o :: os => '(r, m, q) ← pq_step o m q; '(rs, m, q) ← pq_run os m q; Ok (r :: rs, m, q)
  end.

(** The same on a list; [None] is the abort. *)
Definition or_null (o : option Z) : Z := match o with Some p => p | None => 0 end.
Definition list_step (o : pq_op) (l : list Z) : option (Z * list Z) :=
  match o with
  | OEnque p => Some (or_null (last l), l ++ [p])
  | ODeque => Some (or_null (head l), tail l)
  | ORemove p => if decide (p ∈ l) then Some (0, filter (fun x => x <> p) l) else None
  | OEnqueHead p => Some (0, p :: l)
  | OLookup n => Some (or_null (l !! Z.to_nat n), l)
  end.

Fixpoint list_run (os : list pq_op) (l : list Z) : option (list Z * list Z) :=
  match os with
  | [] => Some ([], l)
  | o :: os =>
      match list_step o l with
      | None => None
      | Some (r, l) => match list_run os l with Some (rs, l) => Some (r :: rs, l) | None => None end
      end
  end.

(** A packet that is put in is allocated, and not in the queue. *)
Definition may_put (m : memory) (o : pq_op) (l : list Z) : Prop :=
  match o with OEnque p | OEnqueHead p => p <> 0 /\ p ∈ dom m /\ p ∉ l | _ => True end.
Fixpoint may_run (m : memory) (os : list pq_op) (l : list Z) : Prop :=
  match os with
  | [] => True
  | o :: os => may_put m o l /\ match list_step o l with Some (_, l) => may_run m os l | None => True end
  end.

(** The packets that are put in. *)
Definition put_in (o : pq_op) : option Z := match o with OEnque p | OEnqueHead p => Some p | _ => None end.
Definition puts (os : list pq_op) : list Z := omap put_in os.

(** The memory is the same but for the links of the packets [l]. *)
Definition only_links (l : list Z) (m m' : memory) : Prop :=
  (forall p, size_of m' p = size_of m p) /\ (forall p, p ∉ l -> m' !! p = m !! p) /\ dom m' = dom m /\
  (forall p, saddr_of m' p = saddr_of m p).

(** * Lemmas *)

Lemma access_ok p m x : m !! p = Some x -> access p m = Ok x.
Proof. intros E. unfold access. by rewrite E. Qed.

Lemma set_next_ok p v m x : m !! p = Some x -> set_next p v m = Ok (<[p := x <| p_next := v |>]> m).
Proof. intros E. unfold set_next. by rewrite (access_ok p m x E). Qed.

Lemma size_of_ok m p x : m !! p = Some x -> size_of m p = p_size x.
Proof. intros E. unfold size_of. by rewrite E. Qed.

Lemma only_links_set p v m x : m !! p = Some x -> only_links [p] m (<[p := x <| p_next := v |>]> m).
Proof.
  intros E. split_and!.
  - intros a. unfold size_of. destruct (decide (p = a)) as [->|]; [by rewrite lookup_insert_eq, E|by rewrite lookup_insert_ne].
  - intros a Ha. rewrite lookup_insert_ne; [done|]. intros ->. apply Ha. left.
  - rewrite dom_insert_L. apply elem_of_dom_2 in E. set_solver.
  - intros a. unfold saddr_of. destruct (decide (p = a)) as [->|]; [by rewrite lookup_insert_eq, E|by rewrite lookup_insert_ne].
Qed.

Lemma only_links_sub l l' m m' : (forall p, p ∈ l -> p ∈ l') -> only_links l m m' -> only_links l' m m'.
Proof. intros Hl (H1 & H2 & H3 & H4). split_and!; [done| |done|done]. intros p Hp. apply H2. auto. Qed.

Lemma only_links_trans l m1 m2 m3 : only_links l m1 m2 -> only_links l m2 m3 -> only_links l m1 m3.
Proof.
  intros (H1 & H2 & H3 & H4) (H1' & H2' & H3' & H4').
  split_and!; [intros p; by rewrite H1'|intros p Hp; by rewrite H2', H2|congruence|intros p; by rewrite H4'].
Qed.

Lemma only_links_refl l m : only_links l m m.
Proof. done. Qed.

Lemma total_size_links l0 m m' l : only_links l0 m m' -> total_size m' l = total_size m l.
Proof. intros (H & _ & _). unfold total_size. induction l as [|a l IH]; cbn; [done|]. by rewrite H, IH. Qed.

Lemma total_size_app m l1 l2 : total_size m (l1 ++ l2) = total_size m l1 + total_size m l2.
Proof. induction l1 as [|a l1 IH]; cbn; [done|]. unfold total_size in *. lia. Qed.

(** Links outside of the segment do not matter. *)
Lemma seg_frame m m' p l e : seg m p l e -> (forall a, a ∈ l -> m' !! a = m !! a) -> seg m' p l e.
Proof.
  revert p. induction l as [|a l IH]; intros p; cbn; [done|]. intros (-> & x & Ex & Hl) Hm. split; [done|].
  exists x. split; [rewrite Hm; [done|left]|]. apply IH; [done|]. intros b Hb. apply Hm. by right.
Qed.

Lemma seg_in m p l e a : seg m p l e -> a ∈ l -> exists x, m !! a = Some x.
Proof.
  revert p. induction l as [|b l IH]; intros p; cbn; [by intros _ ?%elem_of_nil|]. intros (-> & x & Ex & Hl) Ha.
  apply elem_of_cons in Ha as [->|Ha]; [by exists x|by apply (IH (p_next x))].
Qed.

Lemma seg_app m p l1 l2 e : seg m p (l1 ++ l2) e <-> exists c, seg m p l1 c /\ seg m c l2 e.
Proof.
  revert p. induction l1 as [|a l1 IH]; intros p; cbn [app seg].
  - split; [intros H; by exists p|by intros (c & -> & H)].
  - split.
    + intros (-> & x & Ex & (c & H1 & H2)%IH). exists c. split; [|done]. split; [done|]. by exists x.
    + intros (c & (-> & x & Ex & H1) & H2). split; [done|]. exists x. split; [done|]. apply IH. by exists c.
Qed.

(** Redirecting the last link. *)
Lemma seg_redirect m p l a x e v :
  seg m p (l ++ [a]) e -> a ∉ l -> m !! a = Some x -> seg (<[a := x <| p_next := v |>]> m) p (l ++ [a]) v.
Proof.
  intros (c & H1 & (-> & y & Ey & Hy))%seg_app Hn Ex. apply seg_app. exists a. split.
  - apply (seg_frame m); [done|]. intros b Hb. rewrite lookup_insert_ne; [done|]. by intros ->.
  - split; [done|]. exists (x <| p_next := v |>). by rewrite lookup_insert_eq.
Qed.

Lemma seg_snoc_inv m p l a e : seg m p (l ++ [a]) e -> exists x, m !! a = Some x /\ p_next x = e /\ seg m p l a.
Proof. intros (c & H1 & (-> & y & Ey & Hy))%seg_app. by exists y. Qed.

(** The two ends. *)
Lemma holds_head m q l : holds m q l -> head_ q = match l with p :: _ => p | [] => 0 end.
Proof. intros [Hs _ _ _ _ _]. destruct l; [done|]. apply Hs. Qed.

Lemma holds_empty m q l : holds m q l -> (head_ q =? 0) = match l with [] => true | _ => false end.
Proof.
  intros Hq. rewrite (holds_head m q l Hq). destruct l as [|p l]; [done|]. pose proof (ho_null _ _ _ Hq) as H0.
  apply Z.eqb_neq. intros ->. apply H0. left.
Qed.

Lemma holds_tail0 m q l : holds m q l -> (tail_ q =? 0) = match l with [] => true | _ => false end.
Proof.
  intros Hq. rewrite (ho_tail _ _ _ Hq). destruct l as [|p l]; [done|]. pose proof (ho_null _ _ _ Hq) as H0.
  destruct (last (p :: l)) as [t|] eqn:E; [|by apply last_None in E]. apply last_Some in E as (l' & E). rewrite E in H0.
  apply Z.eqb_neq. intros ->. apply H0. apply elem_of_app. right. left.
Qed.

(** Writing the links of the last packet, or of another. *)
Lemma holds_frame m m' q l : holds m q l -> (forall a, a ∈ l -> m' !! a = m !! a) -> holds m' q l.
Proof.
  intros [Hs Ht Hn H0 Hl Hb] Hm. constructor; try done; [by apply (seg_frame m)|]. rewrite Hb. clear - Hm.
  unfold total_size. induction l as [|a l IH]; cbn; [done|]. rewrite IH by (intros b Hb; apply Hm; by right). unfold size_of at 3.
  unfold size_of at 1. by rewrite Hm by left.
Qed.

(** ** The operations *)

Lemma pq_enque_ok m q l p x :
  holds m q l -> m !! p = Some x -> p <> 0 -> p ∉ l ->
  returns (pq_enque p m q) (fun '(pt, m', q') => pt = tail_ q /\ holds m' q' (l ++ [p]) /\ only_links (p :: l) m m').
Proof.
  intros Hq Ex Hp Hnl. unfold pq_enque. rewrite (holds_tail0 m q l Hq). pose proof (ho_tail _ _ _ Hq) as Et.
  destruct Hq as [Hs _ Hn H0 Hl Hb]. destruct l as [|a l0 _] using rev_ind.
  - unfold total_size in Hb. cbn in Hl, Hb. cbv iota. rewrite bind_Ok. cbn [tail_ set_field]. rewrite (set_next_ok p 0 m x Ex), bind_Ok.
    assert (E' : <[p := x <| p_next := 0 |>]> m !! p = Some (x <| p_next := 0 |>)) by by rewrite lookup_insert_eq.
    rewrite (access_ok _ _ _ E'), bind_Ok. cbn [returns]. split; [done|]. split.
    + constructor; [split; [done|]; eexists; split; [exact E'|done]|done|apply NoDup_singleton|set_solver|cbn; lia|].
      rewrite (total_size_links [p] m) by by apply only_links_set. unfold total_size. cbn [app foldr bytes_ set_field].
      rewrite (size_of_ok _ _ _ Ex). cbn [p_size]. lia.
    + by apply only_links_set.
  - assert (Ht : tail_ q = a) by by rewrite Et, last_snoc. clear Et.
    assert (Hmatch : (match l0 ++ [a] with [] => true | _ => false end) = false) by by destruct l0. rewrite Hmatch.
    destruct (seg_snoc_inv _ _ _ _ _ Hs) as (y & Ey & Ny & Hs0). rewrite Ht, (set_next_ok a p m y Ey), !bind_Ok.
    set (m1 := <[a := y <| p_next := p |>]> m). cbn [tail_ set_field].
    assert (Hpa : p <> a) by (intros ->; apply Hnl; set_solver).
    assert (Ex1 : m1 !! p = Some x) by (subst m1; by rewrite lookup_insert_ne).
    rewrite (set_next_ok p 0 m1 x Ex1), bind_Ok. set (m2 := <[p := x <| p_next := 0 |>]> m1).
    assert (E' : m2 !! p = Some (x <| p_next := 0 |>)) by (subst m2; by rewrite lookup_insert_eq).
    rewrite (access_ok _ _ _ E'), bind_Ok. cbn [returns]. apply NoDup_app in Hn as Hn'. destruct Hn' as (Hn0 & Hna & _).
    assert (Hlinks : only_links (p :: l0 ++ [a]) m m2).
    { apply (only_links_trans _ _ m1); (eapply only_links_sub; [|by apply only_links_set]); set_solver. }
    split; [done|]. split; [|done]. constructor.
    + apply seg_app. exists p. split.
      * apply (seg_frame m1).
        { apply (seg_redirect m _ _ _ _ _ _ Hs); [|done]. intros Ha. apply (Hna a Ha). left. }
        intros b Hb'. subst m2. rewrite lookup_insert_ne; [done|]. intros ->. done.
      * split; [done|]. eexists. split; [exact E'|done].
    + cbn [tail_ set_field]. by rewrite last_snoc.
    + apply NoDup_app. split; [done|]. split; [|apply NoDup_singleton]. set_solver.
    + set_solver.
    + rewrite !length_app in *. cbn in *. lia.
    + rewrite (total_size_links _ m m2) by exact Hlinks. rewrite total_size_app. unfold total_size at 2.
      cbn [foldr bytes_ set_field]. rewrite (size_of_ok _ _ _ Ex), Hb. cbn [p_size]. lia.
Qed.

Lemma pq_deque_ok m q l :
  holds m q l ->
  returns (pq_deque m q) (fun '(p, q') =>
    match l with [] => p = 0 /\ q' = q | a :: l' => p = a /\ holds m q' l' end).
Proof.
  intros Hq. unfold pq_deque. rewrite (holds_empty m q l Hq). destruct l as [|a l]; [by cbn [returns]|].
  rewrite (holds_head m q (a :: l) Hq). destruct Hq as [Hs Ht Hn H0 Hl Hb]. destruct Hs as (_ & x & Ex & Hs).
  rewrite (access_ok a m x Ex), bind_Ok. cbn [returns]. split; [done|]. cbn [tail_ set_field].
  apply NoDup_cons in Hn as [Hna Hn]. assert (H0' : 0 ∉ l) by set_solver. cbn [length] in Hl. unfold total_size in Hb. cbn [foldr] in Hb.
  rewrite (size_of_ok _ _ _ Ex) in Hb. fold (total_size m l) in Hb.
  destruct l as [|b l].
  - rewrite Ht. cbn [last]. rewrite Z.eqb_refl. constructor; try done; [cbn in *; lia|]. cbn [bytes_ set_field]. lia.
  - assert (Hne : (a =? tail_ q) = false).
    { apply Z.eqb_neq. intros E. rewrite Ht in E. destruct (last (a :: b :: l)) as [t|] eqn:El; [|by apply last_None in El].
      apply Hna. rewrite <- E in El. cbn [last] in El. apply last_Some in El as (l' & ->). apply elem_of_app. right. left. }
    rewrite Hne. constructor; try done; [cbn [len_ set_field]; lia|cbn [bytes_ set_field]; lia].
Qed.

(** Taking out a packet that has a predecessor. *)
Lemma unlink_ok m q l1 pp p l2 x :
  holds m q (l1 ++ pp :: p :: l2) -> m !! p = Some x ->
  exists m', set_next pp (p_next x) m = Ok m' /\ only_links (l1 ++ pp :: p :: l2) m m' /\
    holds m' ((if p =? tail_ q then q <| tail_ := pp |> else q) <| len_ := len_ q - 1 |> <| bytes_ := bytes_ q - p_size x |>)
      (l1 ++ pp :: l2).
Proof.
  intros [Hs Ht Hn H0 Hl Hb] Ex. apply seg_app in Hs as (c & Hs1 & (-> & y & Ey & (Ep & x' & Ex' & Hs2))).
  rewrite Ex in Ex'. injection Ex' as <-. rewrite (set_next_ok pp _ m y Ey). eexists. split; [done|].
  set (m' := <[pp := y <| p_next := p_next x |>]> m).
  assert (Hlinks : only_links (l1 ++ pp :: p :: l2) m m').
  { eapply only_links_sub; [|by apply only_links_set]. set_solver. }
  split; [exact Hlinks|]. apply NoDup_app in Hn as (Hn1 & Hn12 & Hn2). apply NoDup_cons in Hn2 as [Hpp Hn2].
  apply NoDup_cons in Hn2 as [Hp Hn2].
  assert (Etail : tail_ (if p =? tail_ q then q <| tail_ := pp |> else q) = match last (l1 ++ pp :: l2) with Some t => t | None => 0 end).
  { rewrite last_app_cons. destruct l2 as [|b l2].
    - rewrite Ht, last_app_cons. cbn [last]. by rewrite Z.eqb_refl.
    - rewrite Ht, last_app_cons. change (last (pp :: p :: b :: l2)) with (last (b :: l2)).
      change (last (pp :: b :: l2)) with (last (b :: l2)). destruct (last (b :: l2)) as [t|] eqn:El; [|by apply last_None in El].
      destruct (Z.eqb_spec p t) as [->|]; [|by rewrite Ht, last_app_cons; cbn [last] in El |- *; rewrite El].
      destruct Hp. apply last_Some in El as (l' & ->). apply elem_of_app. right. left. }
  assert (Eh : head_ (if p =? tail_ q then q <| tail_ := pp |> else q) = head_ q) by by case_match.
  revert Etail Eh. generalize (if p =? tail_ q then q <| tail_ := pp |> else q) as q1. intros q1 Etail Eh.
  constructor.
  - cbn [head_ set_field]. rewrite Eh. apply seg_app. exists pp. split.
    + apply (seg_frame m); [done|]. intros a Ha. subst m'. rewrite lookup_insert_ne; [done|]. intros ->. apply (Hn12 a Ha). left.
    + split; [done|]. exists (y <| p_next := p_next x |>). split; [subst m'; by rewrite lookup_insert_eq|]. cbn [p_next set_field].
      apply (seg_frame m); [done|]. intros a Ha. subst m'. rewrite lookup_insert_ne; [done|]. intros ->. apply Hpp. by right.
  - cbn [tail_ set_field]. exact Etail.
  - apply NoDup_app. split; [done|]. split; [|apply NoDup_cons; split; [set_solver|done]]. set_solver.
  - set_solver.
  - cbn [len_ set_field]. rewrite !length_app in *. cbn [length] in *. lia.
  - cbn [bytes_ set_field]. rewrite (total_size_links _ m m') by exact Hlinks. rewrite Hb, !total_size_app. unfold total_size.
    cbn [foldr]. rewrite (size_of_ok _ _ _ Ex). lia.
Qed.

(** The packets from [p] on. *)
Fixpoint remaining (p : Z) (l : list Z) : Z :=
  match l with [] => 0 | a :: l' => if a =? p then Z.of_nat (length l) else remaining p l' end.

Lemma remaining_at l1 a l2 l : NoDup (l1 ++ a :: l2) -> l = l1 ++ a :: l2 -> remaining a l = Z.of_nat (length (a :: l2)).
Proof.
  intros Hn ->. induction l1 as [|b l1 IH]; cbn [app remaining]; [by rewrite Z.eqb_refl|].
  cbn in Hn. apply NoDup_cons in Hn as [Hnb Hn]. destruct (Z.eqb_spec b a) as [->|]; [|by apply IH].
  destruct Hnb. apply elem_of_app. right. left.
Qed.

Lemma remaining_out p l : p ∉ l -> remaining p l = 0.
Proof.
  induction l as [|a l IH]; cbn [remaining]; [done|]. intros Hp. destruct (Z.eqb_spec a p) as [->|]; [destruct Hp; left|].
  apply IH. intros H. apply Hp. by right.
Qed.

Lemma remove_walk_ok m q l target :
  holds m q l -> Z.of_nat (length l) < 1099511627776 ->
  returns (c_while (fun '(pp, p) => negb (p =? 0) && negb (p =? target))
    (fun '(pp, p) => x ← access p m; Ok (p, p_next x)) (0, head_ q)) (fun '(pp, p) =>
    if decide (target ∈ l) then
      p = target /\ exists l1 l2, l = l1 ++ target :: l2 /\ pp = match last l1 with Some a => a | None => 0 end
    else p = 0).
Proof.
  intros [Hs Ht Hn H0 Hl Hb] Hlen.
  set (I := fun '(pp, p) => exists l1 l2, l = l1 ++ l2 /\ seg m p l2 0 /\ target ∉ l1 /\
    pp = match last l1 with Some a => a | None => 0 end).
  assert (Hleft : forall l1 a l2, l = l1 ++ a :: l2 -> remaining a l = Z.of_nat (length (a :: l2))).
  { intros l1 a l2 E. apply (remaining_at l1 a l2 l); [by rewrite <- E|done]. }
  assert (Hnone : remaining 0 l = 0) by by apply remaining_out.
  eapply returns_mono.
  { apply (c_while_rule I (fun '(_, p) => remaining p l)).
    - intros [pp p] (l1 & l2 & E & Hs2 & Hnt & Epp) Hc. cbv beta iota in Hc.
      destruct l2 as [|a l2]; [cbn in Hs2; subst p; done|]. destruct Hs2 as (-> & x & Ex & Hs2).
      rewrite (access_ok a m x Ex), bind_Ok. cbn [returns]. split.
      + exists (l1 ++ [a]), l2. rewrite <- app_assoc. split; [done|]. split; [done|]. split; [|by rewrite last_snoc].
        intros [|Ha]%elem_of_app; [done|]. apply list_elem_of_singleton in Ha. subst a. rewrite Z.eqb_refl in Hc. lia.
      + rewrite (Hleft l1 a l2 E). destruct l2 as [|b l2].
        * cbn in Hs2. rewrite Hs2, Hnone. cbn [length]. lia.
        * destruct Hs2 as (-> & _). rewrite (Hleft (l1 ++ [a]) b l2) by (by rewrite <- app_assoc). cbn [length]. lia.
    - exists [], l. split; [done|]. split; [done|]. split; [set_solver|done].
    - destruct l as [|a l']; [cbn in Hs; rewrite Hs, Hnone; lia|].
      destruct Hs as (-> & _). rewrite (Hleft [] a l') by done. lia. }
  intros [pp p] [(l1 & l2 & E & Hs2 & Hnt & Epp) Hc]. cbv beta iota in Hc. destruct l2 as [|a l2].
  - cbn in Hs2. subst p. rewrite app_nil_r in E. subst l1. by rewrite decide_False.
  - destruct Hs2 as (-> & _). assert (Ha : a = target).
    { destruct (Z.eqb_spec a target); [done|]. assert (a = 0) as -> by lia. destruct H0. rewrite E. set_solver. }
    subst a. rewrite decide_True by (rewrite E; set_solver). split; [done|]. by exists l1, l2.
Qed.

Lemma remove_target_ok m q l target :
  holds m q l -> Z.of_nat (length l) < 1099511627776 ->
  if decide (target ∈ l) then
    returns (remove_target target m q) (fun '(m', q') =>
      only_links l m m' /\ exists l1 l2, l = l1 ++ target :: l2 /\ holds m' q' (l1 ++ l2))
  else remove_target target m q = Trap AssertFail.
Proof.
  intros Hq Hlen. pose proof (remove_walk_ok m q l target Hq Hlen) as Hw. apply returns_inv in Hw as ([pp p] & Ew & Hw).
  unfold remove_target. rewrite Ew, bind_Ok. case_decide as Hin; [|by rewrite Hw]. destruct Hw as (-> & l1 & l2 & E & Epp).
  assert (Ht0 : (target =? 0) = false) by (apply Z.eqb_neq; intros ->; by apply (ho_null _ _ _ Hq)). rewrite Ht0.
  destruct l1 as [|a l1 _] using rev_ind.
  - cbn [last] in Epp. subst pp. rewrite Z.eqb_refl. pose proof (pq_deque_ok m q l Hq) as Hd. rewrite E in Hd |- *. cbn [app] in *.
    eapply returns_bind; [exact Hd|]. intros [p' q'] [_ Hq']. cbn [returns]. split; [done|]. by exists [], l2.
  - rewrite last_snoc in Epp. subst pp.
    assert (Ha0 : (a =? 0) = false).
    { apply Z.eqb_neq. intros ->. apply (ho_null _ _ _ Hq). rewrite E. set_solver. }
    rewrite Ha0. destruct (seg_in m (head_ q) l 0 target (ho_seg _ _ _ Hq) Hin) as (x & Ex).
    rewrite (access_ok _ _ _ Ex), bind_Ok. rewrite E, <- app_assoc in Hq. cbn [app] in Hq.
    destruct (unlink_ok m q l1 a target l2 x Hq Ex) as (m' & Em & Hlinks & Hq'). rewrite Em, bind_Ok. cbn [returns].
    rewrite E, <- app_assoc. cbn [app]. split; [exact Hlinks|]. exists (l1 ++ [a]), l2. rewrite <- !app_assoc. split; [done|].
    cbn [app]. revert Hq'. by case_match.
Qed.

Lemma remove_after_ok m q l1 l2 pkt prev :
  holds m q (l1 ++ pkt :: l2) -> (l1 <> [] -> last l1 = Some prev) ->
  returns (remove_after pkt prev m q) (fun '(m', q') => only_links (l1 ++ pkt :: l2) m m' /\ holds m' q' (l1 ++ l2)).
Proof.
  intros Hq Hprev. unfold remove_after. pose proof (holds_head _ _ _ Hq) as Hh.
  assert (Ht0 : (pkt =? 0) = false) by (apply Z.eqb_neq; intros ->; apply (ho_null _ _ _ Hq); set_solver). rewrite Ht0.
  destruct l1 as [|a l1 _] using rev_ind.
  - cbn [app] in *. rewrite Hh, Z.eqb_refl. eapply returns_bind; [apply (pq_deque_ok m q _ Hq)|].
    intros [p' q'] [_ Hq']. by cbn [returns].
  - rewrite last_snoc in Hprev. injection (Hprev ltac:(by destruct l1)) as <-. rewrite <- app_assoc in Hq, Hh. cbn [app] in Hq, Hh.
    assert (Hne : (head_ q =? pkt) = false).
    { apply Z.eqb_neq. intros E. pose proof (ho_nodup _ _ _ Hq) as Hn. rewrite Hh in E. destruct l1 as [|b l1]; cbn [app] in Hn, E.
      - subst a. apply NoDup_cons in Hn as [Hn _]. apply Hn. left.
      - subst b. apply NoDup_cons in Hn as [Hn _]. apply Hn. set_solver. }
    rewrite Hne. destruct (seg_in m (head_ q) _ 0 pkt (ho_seg _ _ _ Hq) ltac:(set_solver)) as (x & Ex).
    rewrite (access_ok _ _ _ Ex), bind_Ok. destruct (unlink_ok m q l1 a pkt l2 x Hq Ex) as (m' & Em & Hlinks & Hq').
    rewrite Em, bind_Ok. cbn [returns]. rewrite <- !app_assoc. cbn [app]. split; [exact Hlinks|]. rewrite Z.eqb_sym.
    revert Hq'. by destruct (pkt =? tail_ q).
Qed.

Lemma enqueHead_ok m q l p x :
  holds m q l -> m !! p = Some x -> p <> 0 -> p ∉ l ->
  returns (enqueHead p m q) (fun '(m', q') => holds m' q' (p :: l) /\ only_links [p] m m').
Proof.
  intros Hq Ex Hp Hnl. unfold enqueHead. rewrite (holds_empty m q l Hq). pose proof (holds_head m q l Hq) as Hh.
  set (q1 := if match l with [] => true | _ => false end then _ else q).
  assert (E1 : head_ q1 = head_ q /\ len_ q1 = len_ q /\ bytes_ q1 = bytes_ q /\
    tail_ q1 = match last (p :: l) with Some t => t | None => 0 end).
  { subst q1. destruct l as [|a l]; [done|]. split_and!; [done..|]. rewrite (ho_tail _ _ _ Hq). done. }
  clearbody q1. destruct E1 as (E1 & E2 & E3 & E4). rewrite (set_next_ok p _ m x Ex), bind_Ok. set (m' := <[p := _]> m).
  assert (E' : m' !! p = Some (x <| p_next := head_ q1 |>)) by (subst m'; by rewrite lookup_insert_eq).
  rewrite (access_ok _ _ _ E'), bind_Ok. cbn [returns]. assert (Hlinks : only_links [p] m m') by by apply only_links_set.
  split; [|done]. destruct Hq as [Hs Ht Hn H0 Hl Hb]. constructor.
  - split; [done|]. eexists. split; [exact E'|]. cbn [p_next set_field]. rewrite E1. apply (seg_frame m); [done|].
    intros a Ha. subst m'. rewrite lookup_insert_ne; [done|]. by intros ->.
  - exact E4.
  - by constructor.
  - set_solver.
  - cbn [len_ set_field length]. lia.
  - cbn [bytes_ set_field]. rewrite (total_size_links _ m m') by exact Hlinks. unfold total_size. cbn [foldr].
    rewrite (size_of_ok _ _ _ Ex). fold (total_size m l). cbn [p_size]. lia.
Qed.

Lemma lookup_ok m q l n :
  holds m q l -> Z.of_nat (length l) < 1099511627775 ->
  returns (lookup_ n m q) (fun p => p = or_null (l !! Z.to_nat n)).
Proof.
  intros Hq Hlen. unfold lookup_. pose proof (remaining_out 0 l (ho_null _ _ _ Hq)) as Hnone.
  pose proof (ho_nodup _ _ _ Hq) as Hn. pose proof (ho_seg _ _ _ Hq) as Hs.
  set (I := fun '(p, n', found) => if found : bool then p = or_null (l !! Z.to_nat n) else
    exists l1 l2, l = l1 ++ l2 /\ seg m p l2 0 /\ n' = n - Z.of_nat (length l1) /\ (l1 = [] \/ 0 <= n')).
  set (left_ := fun s : Z * Z * bool => let '(p, _, found) := s in if found then 0 else 1 + remaining p l).
  assert (Hleft : forall l1 l2 p, l = l1 ++ l2 -> seg m p l2 0 -> remaining p l = Z.of_nat (length l2)).
  { intros l1 [|a l2] p E Hp; cbn in Hp; [by subst p|]. destruct Hp as (-> & _). by apply (remaining_at l1 a l2); [rewrite <- E|]. }
  eapply returns_bind; [apply (c_while_rule I left_)|].
  - intros [[p n'] found] HI Hc. cbv beta iota in Hc. destruct found; [by rewrite andb_false_r in Hc|].
    destruct HI as (l1 & l2 & E & Hp & En & Hor). pose proof (Hleft l1 l2 p E Hp) as Hrem.
    destruct l2 as [|a l2]; [cbn in Hp; by subst p|]. destruct Hp as (-> & x & Ex & Hp).
    assert (Hat : l !! length l1 = Some a) by (rewrite E; by apply list_lookup_middle). case_cond.
    + cbn [returns]. split; [|unfold left_; lia]. unfold I.
      assert (Hi : Z.to_nat n = length l1) by (destruct Hor as [->|]; cbn [length] in *; lia). by rewrite Hi, Hat.
    + rewrite (access_ok _ _ _ Ex), bind_Ok. cbn [returns]. pose proof (Hleft (l1 ++ [a]) l2 (p_next x) ltac:(by rewrite <- app_assoc) Hp) as Hrem'.
      split; [|unfold left_; rewrite Hrem, Hrem'; cbn [length]; lia].
      exists (l1 ++ [a]), l2. rewrite <- app_assoc, length_app. cbn [length]. split_and!; [done|done|lia|right; lia].
  - exists [], l. cbn [length]. split_and!; [done|done|lia|by left].
  - unfold left_. rewrite (Hleft [] l (head_ q) eq_refl Hs). lia.
  - intros [[p n'] found] [HI Hc]. cbv beta iota in Hc. destruct found; [by cbn [returns]|].
    destruct HI as (l1 & l2 & E & Hp & En & Hor). cbn [returns]. destruct l2 as [|a l2].
    + rewrite app_nil_r in E. subst l1. rewrite lookup_ge_None_2; [done|]. destruct Hor as [->|]; cbn [length] in *; lia.
    + destruct Hp as (-> & _). assert (a = 0) as -> by lia. destruct (ho_null _ _ _ Hq). rewrite E. set_solver.
Qed.

(** The iterator goes through what is left of the list. *)
Lemma getNext_ok m q l :
  seg m (iter q) l 0 -> 0 ∉ l ->
  returns (getNext m q) (fun '(p, q') => p = or_null (head l) /\ seg m (iter q') (tail l) 0).
Proof.
  intros Hs H0. unfold getNext. destruct l as [|a l]; [cbn in Hs; by rewrite Hs|]. destruct Hs as (-> & x & Ex & Hs).
  assert (Ha : (a =? 0) = false) by (apply Z.eqb_neq; intros ->; apply H0; left). by rewrite Ha, (access_ok _ _ _ Ex).
Qed.

Lemma filter_others (l : list Z) p : p ∉ l -> filter (fun x => x <> p) l = l.
Proof.
  induction l as [|a l IH]; intros Hp; [done|]. rewrite filter_cons_True by (intros ->; apply Hp; left).
  f_equal. apply IH. intros H. apply Hp. by right.
Qed.

Lemma filter_out (l1 l2 : list Z) p :
  NoDup (l1 ++ p :: l2) -> filter (fun x => x <> p) (l1 ++ p :: l2) = l1 ++ l2.
Proof.
  intros (Hn1 & H12 & [Hp Hn2]%NoDup_cons)%NoDup_app. rewrite filter_app, filter_cons_False by tauto.
  rewrite !filter_others; [done|done|]. intros H. apply (H12 p H). left.
Qed.

Lemma pq_step_ok o m q l :
  holds m q l -> may_put m o l -> Z.of_nat (length l) < 1099511627775 ->
  match list_step o l with
  | Some (r, l') => returns (pq_step o m q) (fun '(r', m', q') => r' = r /\ holds m' q' l' /\ dom m' = dom m /\
      forall p, size_of m' p = size_of m p)
  | None => pq_step o m q = Trap AssertFail
  end.
Proof.
  intros Hq Hp Hlen. destruct o as [p| |p|p|n]; cbn [list_step pq_step may_put] in *.
  - destruct Hp as (Hp0 & (x & Ex)%elem_of_dom & Hnl). eapply returns_mono; [by apply (pq_enque_ok m q l p x)|].
    intros [[pt m'] q'] (-> & Hq' & (Hsz & _ & Hd & _)). by rewrite (ho_tail _ _ _ Hq).
  - eapply returns_bind; [by apply (pq_deque_ok m q l)|]. intros [p q'] H. cbn [returns].
    destruct l as [|a l]; destruct H as [-> H]; [by subst q'|done].
  - pose proof (remove_target_ok m q l p Hq ltac:(lia)) as Hr. case_decide; [|by rewrite Hr].
    eapply returns_bind; [exact Hr|]. intros [m' q'] ((Hsz & _ & Hd & _) & l1 & l2 & -> & Hq'). cbn [returns].
    split; [done|]. rewrite filter_out; [done|apply Hq].
  - destruct Hp as (Hp0 & (x & Ex)%elem_of_dom & Hnl). eapply returns_bind; [by apply (enqueHead_ok m q l p x)|].
    intros [m' q'] [Hq' (Hsz & _ & Hd & _)]. by cbn [returns].
  - eapply returns_bind; [by apply (lookup_ok m q l n)|]. intros p ->. by cbn [returns].
Qed.

Lemma list_step_length o l r l' : list_step o l = Some (r, l') -> (length l' <= length l + 1)%nat.
Proof.
  destruct o; cbn [list_step]; [| |case_decide; [|done]| |]; intros [= <- <-]; rewrite ?length_app; cbn [length]; [lia|destruct l; cbn; lia| |lia|lia].
  pose proof (length_filter (fun x => x <> p) l). lia.
Qed.

#[global] Instance total_size_proper m : Proper ((≡ₚ) ==> (=)) (total_size m).
Proof. intros l l' H. induction H; unfold total_size in *; cbn [foldr]; lia. Qed.

Lemma total_size_nonneg m l : (forall p, p ∈ l -> 0 <= size_of m p) -> 0 <= total_size m l.
Proof.
  intros H. unfold total_size. induction l as [|a l IH]; cbn [foldr]; [done|].
  assert (0 <= size_of m a) by (apply H; left). enough (0 <= foldr (fun p n => size_of m p + n) 0 l) by lia.
  apply IH. intros p Hp. apply H. by right.
Qed.

(** The list holds packets that were put in. *)
Lemma list_step_puts o l r l' : list_step o l = Some (r, l') -> exists R, puts [o] ++ l ≡ₚ l' ++ R.
Proof.
  destruct o as [p| |p|p|n]; cbn [list_step]; [| |case_decide as Hp; [|done]| |]; intros [= <- <-]; cbn.
  - exists []. rewrite app_nil_r. apply Permutation_cons_append.
  - destruct l as [|a l]; [by exists []|]. exists [a]. apply Permutation_cons_append.
  - exists (filter (fun x => ~ x <> p) l). by rewrite filter_app_complement.
  - exists []. by rewrite app_nil_r.
  - exists []. by rewrite app_nil_r.
Qed.

Lemma puts_length os : (length (puts os) <= length os)%nat.
Proof. induction os as [|o os IH]; [done|]. unfold puts in *. cbn. destruct (put_in o); cbn; lia. Qed.

Lemma list_run_puts os l rs l' : list_run os l = Some (rs, l') -> exists R, puts os ++ l ≡ₚ l' ++ R.
Proof.
  revert l rs. induction os as [|o os IH]; intros l rs; cbn [list_run]; [intros [= <- <-]; exists []; by rewrite app_nil_r|].
  destruct (list_step o l) as [[r l1]|] eqn:E; [|done]. destruct (list_run os l1) as [[rs1 l2]|] eqn:E2; [|done].
  intros [= <- <-]. destruct (IH _ _ E2) as (R2 & H2). destruct (list_step_puts _ _ _ _ E) as (R1 & H1).
  exists (R2 ++ R1). change (puts (o :: os)) with (omap put_in ([o] ++ os)). rewrite omap_app. fold (puts [o]) (puts os).
  rewrite (Permutation_app_comm (puts [o])), <- app_assoc, H1, !app_assoc. by rewrite H2.
Qed.

Lemma may_run_dom m m' os l : dom m' = dom m -> may_run m os l -> may_run m' os l.
Proof.
  intros Hd. revert l. induction os as [|o os IH]; intros l; cbn [may_run]; [done|]. intros [Hp Hrun]. split.
  - destruct o; cbn [may_put] in *; by rewrite ?Hd.
  - destruct (list_step o l) as [[r2 l2]|]; [by apply IH|done].
Qed.

Lemma pq_run_ok os m q l :
  holds m q l -> may_run m os l -> Z.of_nat (length l + length os) < 1099511627775 ->
  match list_run os l with
  | Some (rs, l') => returns (pq_run os m q) (fun '(rs', m', q') => rs' = rs /\ holds m' q' l' /\ forall p, size_of m' p = size_of m p)
  | None => pq_run os m q = Trap AssertFail
  end.
Proof.
  revert m q l. induction os as [|o os IH]; intros m q l Hq Hrun Hlen; cbn [list_run pq_run]; [by cbn [returns]|].
  destruct Hrun as [Hp Hrun]. cbn [length] in Hlen. pose proof (pq_step_ok o m q l Hq Hp ltac:(lia)) as Hs.
  destruct (list_step o l) as [[r l1]|] eqn:E; [|by rewrite Hs].
  pose proof (list_step_length o l r l1 E). apply returns_inv in Hs as ([[r' m1] q1] & Es & -> & Hq1 & Hd & Hsz). rewrite Es, bind_Ok.
  specialize (IH m1 q1 l1 Hq1 (may_run_dom m m1 os l1 Hd Hrun) ltac:(lia)). destruct (list_run os l1) as [[rs l2]|]; [|by rewrite IH].
  eapply returns_bind; [exact IH|]. intros [[rs' m2] q2] (-> & Hq2 & Hsz2). cbn [returns]. split; [done|]. split; [done|].
  intros p. by rewrite Hsz2.
Qed.

(** * Properties *)

(** C33: PacketQueue is a list.  In any sequence of fewer than 2^31 operations,
    each packet that is put in being allocated and not in the queue, and the
    sizes of those that are put in not negative and together below 2^31 bytes,
    every operation returns what it does on the list (the previous tail, the
    head, the n-th packet), remove aborts exactly for a packet that is not
    queued, and at the end the links, the two ends and the counts of packets
    and of bytes are those of the list; both counts are in the range of the int
    that keeps them. *)
Theorem packet_queue_refines os m :
  may_run m os [] -> Z.of_nat (length os) < 2147483648 ->
  (forall p, p ∈ puts os -> 0 <= size_of m p) -> total_size m (puts os) < 2147483648 ->
  match list_run os [] with
  | Some (rs, l) => returns (pq_run os m new_queue) (fun '(rs', m', q') => rs' = rs /\ holds m' q' l /\
      0 <= len_ q' < 2147483648 /\ 0 <= bytes_ q' < 2147483648)
  | None => pq_run os m new_queue = Trap AssertFail
  end.
Proof.
  intros Hrun Hlen Hpos Hsum.
  assert (Hnew : holds m new_queue []) by (constructor; [done|done|constructor|set_solver|done|done]).
  pose proof (pq_run_ok os m new_queue [] Hnew Hrun ltac:(cbn [length]; lia)) as H.
  destruct (list_run os []) as [[rs l]|] eqn:E; [|done]. eapply returns_mono; [exact H|].
  intros [[rs' m'] q'] (-> & Hq & Hsz). split; [done|]. split; [done|]. destruct (list_run_puts _ _ _ _ E) as (R & HR).
  rewrite app_nil_r in HR. assert (Hin : forall p, p ∈ l ++ R -> 0 <= size_of m p) by (intros p; rewrite <- HR; apply Hpos).
  rewrite HR, total_size_app in Hsum. rewrite (ho_len _ _ _ Hq), (ho_bytes _ _ _ Hq).
  replace (total_size m' l) with (total_size m l) by (unfold total_size; clear - Hsz; induction l as [|a l IH]; cbn; [done|by rewrite Hsz, IH]).
  assert (0 <= total_size m l) by (apply total_size_nonneg; set_solver).
  assert (0 <= total_size m R) by (apply total_size_nonneg; set_solver).
  apply Permutation_length in HR. rewrite length_app in HR. pose proof (puts_length os). lia.
Qed.

(** ** The example: three packets come, one is removed from the middle, one is put back. *)
Definition demo_memory : memory :=
  <[1 := mk_packet 40 0 7]> (<[2 := mk_packet 1000 0 1]> (<[3 := mk_packet 500 0 0]> ∅)).
Definition demo_ops : list pq_op := [OEnque 1; OEnque 2; OEnque 3; ORemove 2; OLookup 1; ODeque; OEnqueHead 1; ODeque; ODeque; ODeque].

Lemma packet_queue_refines_witness :
  may_run demo_memory demo_ops [] /\
  exists m' q', pq_run demo_ops demo_memory new_queue = Ok ([0; 1; 2; 0; 3; 1; 0; 1; 3; 0], m', q') /\ holds m' q' [] /\
  0 <= bytes_ q' < 2147483648.
Proof.
  assert (Hr : may_run demo_memory demo_ops []).
  { assert (H1 : 1 ∈ dom demo_memory) by (unfold demo_memory; set_solver).
    assert (H2 : 2 ∈ dom demo_memory) by (unfold demo_memory; set_solver).
    assert (H3 : 3 ∈ dom demo_memory) by (unfold demo_memory; set_solver).
    revert H1 H2 H3. generalize demo_memory. intros m H1 H2 H3. unfold demo_ops. 
    cbn [may_run may_put list_step app].
    replace (if decide (2 ∈ [1; 2; 3]) then Some (0, filter (fun x => x <> 2) [1; 2; 3]) else None)
      with (Some (0, [1; 3])) by reflexivity.
    cbn [tail]. split_and!; first [done|set_solver]. }
  split; [exact Hr|].
  assert (E : list_run demo_ops [] = Some ([0; 1; 2; 0; 3; 1; 0; 1; 3; 0], [])) by reflexivity.
  assert (Hpos : forall p, p ∈ puts demo_ops -> 0 <= size_of demo_memory p).
  { apply Forall_forall. repeat constructor; vm_compute; discriminate. }
  pose proof (packet_queue_refines demo_ops demo_memory Hr ltac:(vm_compute; reflexivity) Hpos ltac:(vm_compute; reflexivity)) as H.
  rewrite E in H. revert H. generalize (pq_run demo_ops demo_memory new_queue). intros x H.
  destruct (proj1 (returns_inv x _) H) as ([[rs m'] q'] & Er & -> & Hq & _ & Hb). exists m', q'. split; [exact Er|]. split; [exact Hq|exact Hb].
Defined.
