(* ===== verification/DropTail.v ===== *)
(** DropTail (queue/drop-tail.cc) on its PacketQueue, and the link it feeds:
    Queue::recv and Queue::resume (queue/queue.cc). *)
From stdpp Require Import gmap.
From S2P Require Import Prelude PacketQueue.

(** * Definitions *)

Record droptail := mk_droptail {
  mem : memory;
  q_ : pqueue;
  qlim_ : Z;                  (* int *)
  drop_front_ : bool;
  qib_ : bool;
  mean_pktsize_ : Z;          (* int *)
  dropped : list Z;           (* what was given to drop, the first first *)
}.
#[global] Instance eta_droptail : Eta droptail := fun r =>
  mk_droptail (mem r) (q_ r) (qlim_ r) (drop_front_ r) (qib_ r) (mean_pktsize_ r) (dropped r).

(** Connector::drop: the packet goes to the drop target or back to the free list. *)
Definition drop (p : Z) (s : droptail) : outcome droptail :=
  if p =? 0 then Trap NullDeref else Ok (s <| dropped := dropped s ++ [p] |>).

Definition qlimBytes (s : droptail) : Z := s32 (qlim_ s * mean_pktsize_ s).

Definition overflows (p : Z) (s : droptail) : outcome bool :=
  if negb (qib_ s) then Ok (qlim_ s <=? len_ (q_ s) + 1)
  else x ← access p (mem s); Ok (qlimBytes s <=? bytes_ (q_ s) + p_size x).

Definition dt_enque (p : Z) (s : droptail) : outcome droptail :=
  full ← overflows p s;
  if full : bool then
    if drop_front_ s then
      '(_, m, q) ← pq_enque p (mem s) (q_ s);
      '(pp, q) ← pq_deque m q;
      drop pp (s <| mem := m |> <| q_ := q |>)
    else drop p s
  else '(_, m, q) ← pq_enque p (mem s) (q_ s); Ok (s <| mem := m |> <| q_ := q |>).

Definition dt_deque (s : droptail) : outcome (Z * droptail) :=
  '(p, q) ← pq_deque (mem s) (q_ s); Ok (p, s <| q_ := q |>).

Definition excess (s : droptail) : bool :=
  negb (qib_ s) && (qlim_ s <? len_ (q_ s)) || qib_ s && (qlimBytes s <? bytes_ (q_ s)).

Definition shrink_queue (s : droptail) : outcome droptail :=
  c_while excess
    (fun s =>
       if drop_front_ s then '(pp, s) ← dt_deque s; drop pp s
       else
         let pp := tail_ (q_ s) in
         '(m, q) ← remove_target pp (mem s) (q_ s);
         drop pp (s <| mem := m |> <| q_ := q |>))
    s.

(** Queue::reset *)
Definition reset (s : droptail) : outcome droptail :=
  x ← dt_deque s;
  '(_, s) ← c_while (fun '(p, _) => negb (p =? 0)) (fun '(p, s) => s ← drop p s; dt_deque s) x;
  Ok s.

(** ** The link *)

(** The queue, whether the link is busy, and the packets handed to it. *)
Record link := mk_link {
  queue_ : droptail;
  blocked_ : bool;
  unblock_on_resume_ : bool;
  sent : list Z;
}.
#[global] Instance eta_link : Eta link := fun r => mk_link (queue_ r) (blocked_ r) (unblock_on_resume_ r) (sent r).

Definition recv (p : Z) (s : link) : outcome link :=
  d ← dt_enque p (queue_ s);
  let s := s <| queue_ := d |> in
  if negb (blocked_ s) then
    '(p, d) ← dt_deque (queue_ s);
    let s := s <| queue_ := d |> in
    Ok (if negb (p =? 0) then s <| blocked_ := true |> <| sent := sent s ++ [p] |> else s)
  else Ok s.

Definition resume (s : link) : outcome link :=
  '(p, d) ← dt_deque (queue_ s);
  let s := s <| queue_ := d |> in
  Ok (if negb (p =? 0) then s <| sent := sent s ++ [p] |>
      else s <| blocked_ := negb (unblock_on_resume_ s) |>).

(** A packet arrives; the link has sent the last one. *)
Inductive link_event : Type :=
  | Arrive (p : Z)
  | Resume.

Definition link_step (e : link_event) (s : link) : outcome link :=
  match e with Arrive p => recv p s | Resume => resume s end.
Fixpoint link_run (es : list link_event) (s : link) : outcome link :=
  match es with [] => Ok s | e :: es => s ← link_step e s; link_run es s end.

Definition new_link (m : memory) (qlim mean : Z) (front qib : bool) : link :=
  mk_link (mk_droptail m new_queue qlim front qib mean []) false true [].

(** ** What is kept *)

(** The arrivals of a run. *)
Fixpoint arrivals (es : list link_event) : list Z :=
  match es with [] => [] | Arrive p :: es => p :: arrivals es | Resume :: es => arrivals es end.

(** Each packet is allocated and arrives once, and the link resumes once for
    each packet it was given; [busy] is the number it still has to resume for. *)
Fixpoint link_valid (es : list link_event) (s : link) : Prop :=
  match es with
  | [] => True
  | e :: es =>
      match e with Arrive p => p <> 0 /\ p ∈ dom (mem (queue_ s)) | Resume => blocked_ s = true end /\
      forall s', link_step e s = Ok s' -> link_valid es s'
  end.

(** [arr]: the packets that arrived; [l]: those in the queue. *)
Record link_inv (arr : list Z) (s : link) (l : list Z) : Prop := mk_link_inv {
  li_holds : holds (mem (queue_ s)) (q_ (queue_ s)) l;
  li_order : (sent s ++ l) `sublist_of` arr;
  li_all : arr ≡ₚ sent s ++ l ++ dropped (queue_ s);
  li_work : blocked_ s = false -> l = [];
  li_unblock : unblock_on_resume_ s = true;
}.

(** * Lemmas *)

(** The list after the packet [p] arrives, and what is dropped. *)
Definition after_enque (front full : bool) (l : list Z) (p : Z) : list Z * list Z :=
  if full then
    if front then (tail (l ++ [p]), match head (l ++ [p]) with Some a => [a] | None => [] end) else (l, [p])
  else (l ++ [p], []).

Definition is_full (s : droptail) (l : list Z) (p : Z) : bool :=
  if qib_ s then qlimBytes s <=? total_size (mem s) l + size_of (mem s) p
  else qlim_ s <=? Z.of_nat (length l) + 1.

(** The settings stay. *)
Definition same_settings (s s' : droptail) : Prop :=
  qlim_ s' = qlim_ s /\ drop_front_ s' = drop_front_ s /\ qib_ s' = qib_ s /\ mean_pktsize_ s' = mean_pktsize_ s /\
  dom (mem s') = dom (mem s) /\ forall p, size_of (mem s') p = size_of (mem s) p.

Lemma same_settings_trans s1 s2 s3 : same_settings s1 s2 -> same_settings s2 s3 -> same_settings s1 s3.
Proof.
  intros (? & ? & ? & ? & ? & Ha) (? & ? & ? & ? & ? & Hb). split_and!; try congruence.
Qed.

Lemma overflows_ok p s l :
  holds (mem s) (q_ s) l -> p ∈ dom (mem s) -> overflows p s = Ok (is_full s l p).
Proof.
  intros Hq (x & Ex)%elem_of_dom. unfold overflows, is_full. rewrite (ho_len _ _ _ Hq), (ho_bytes _ _ _ Hq).
  destruct (qib_ s); [|done]. cbn [negb]. by rewrite (access_ok _ _ _ Ex), (size_of_ok _ _ _ Ex).
Qed.

Lemma dt_enque_ok p s l :
  holds (mem s) (q_ s) l -> p <> 0 -> p ∈ dom (mem s) -> p ∉ l ->
  returns (dt_enque p s) (fun s' =>
    let '(l', d) := after_enque (drop_front_ s) (is_full s l p) l p in
    holds (mem s') (q_ s') l' /\ dropped s' = dropped s ++ d /\ same_settings s s').
Proof.
  intros Hq Hp Hd Hnl. unfold dt_enque. rewrite (overflows_ok p s l Hq Hd), bind_Ok. unfold after_enque.
  pose proof Hd as (x & Ex)%elem_of_dom. pose proof (pq_enque_ok (mem s) (q_ s) l p x Hq Ex Hp Hnl) as He.
  destruct (is_full s l p); [destruct (drop_front_ s) eqn:Ef|].
  - eapply returns_bind; [exact He|]. intros [[pt m] q] (_ & Hq' & (Hsz & _ & Hdom & _)).
    eapply returns_bind; [by apply (pq_deque_ok m q)|]. intros [pp q'] H.
    destruct (l ++ [p]) as [|a l'] eqn:E; [by destruct l|]. destruct H as [-> H].
    assert (Ha : (a =? 0) = false) by (apply Z.eqb_neq; intros ->; apply (ho_null _ _ _ Hq'); left).
    unfold drop. rewrite Ha. cbn [returns]. by split_and!.
  - unfold drop. destruct (Z.eqb_spec p 0); [done|]. cbn [returns]. by split_and!.
  - eapply returns_bind; [exact He|]. intros [[pt m] q] (_ & Hq' & (Hsz & _ & Hdom & _)). cbn [returns].
    split_and!; try done. cbn. by rewrite app_nil_r.
Qed.

Lemma dt_deque_ok s l :
  holds (mem s) (q_ s) l ->
  returns (dt_deque s) (fun '(p, s') =>
    p = or_null (head l) /\ holds (mem s') (q_ s') (tail l) /\ dropped s' = dropped s /\ same_settings s s').
Proof.
  intros Hq. unfold dt_deque. eapply returns_bind; [by apply (pq_deque_ok (mem s) (q_ s) l)|].
  intros [p q] H. cbn [returns]. destruct l as [|a l]; destruct H as [-> H]; [subst q|]; by split_and!.
Qed.

Lemma head_null m q l : holds m q l -> (or_null (head l) =? 0) = match l with [] => true | _ => false end.
Proof. intros Hq. rewrite <- (holds_empty m q l Hq), (holds_head m q l Hq). by destruct l. Qed.

Lemma after_enque_sublist front full l p :
  (after_enque front full l p).1 `sublist_of` (l ++ [p]) /\
  l ++ [p] ≡ₚ (after_enque front full l p).1 ++ (after_enque front full l p).2.
Proof.
  unfold after_enque. destruct full; [destruct front|]; cbn [fst snd].
  - destruct (l ++ [p]) as [|a l'] eqn:E; [by destruct l|]. cbn [tail head]. split; [by apply sublist_cons|]. by rewrite Permutation_app_comm.
  - split; [by apply sublist_inserts_r|done].
  - split; [done|by rewrite app_nil_r].
Qed.

(** ** The link *)

Lemma link_step_inv e arr s l :
  link_inv arr s l -> NoDup (arr ++ arrivals [e]) ->
  match e with Arrive p => p <> 0 /\ p ∈ dom (mem (queue_ s)) | Resume => blocked_ s = true end ->
  returns (link_step e s) (fun s' => same_settings (queue_ s) (queue_ s') /\ exists l', link_inv (arr ++ arrivals [e]) s' l' /\
    l' = match e with
         | Arrive p =>
             let l1 := (after_enque (drop_front_ (queue_ s)) (is_full (queue_ s) l p) l p).1 in
             if blocked_ s then l1 else tail l1
         | Resume => tail l
         end).
Proof.
  intros [Hq Ho Ha Hw Hu] Hnd Hv. destruct e as [p|]; cbn [link_step arrivals] in *.
  - destruct Hv as [Hp Hd]. unfold recv.
    assert (Hnl : p ∉ l).
    { apply NoDup_app in Hnd as (_ & Hnd & _). intros Hin. apply (Hnd p); [rewrite Ha, !elem_of_app; tauto|left]. }
    eapply returns_bind; [by apply (dt_enque_ok p (queue_ s) l)|]. intros d Hd'.
    pose proof (after_enque_sublist (drop_front_ (queue_ s)) (is_full (queue_ s) l p) l p) as [Hsub Hperm].
    destruct (after_enque _ _ l p) as [l1 dr] eqn:E. destruct Hd' as (Hq' & Hdr & Hset). cbn [fst snd] in *.
    assert (Ho' : (sent s ++ l1) `sublist_of` (arr ++ [p])).
    { transitivity (sent s ++ l ++ [p]); [by apply sublist_app|]. rewrite app_assoc. by apply sublist_app. }
    assert (Ha' : arr ++ [p] ≡ₚ sent s ++ l1 ++ dropped d).
    { rewrite Hdr, Ha. rewrite (app_assoc l1). rewrite (Permutation_app_comm (l1 ++ dropped (queue_ s)) dr).
      rewrite app_assoc, (Permutation_app_comm dr), <- !app_assoc. rewrite (Permutation_app_comm (dropped (queue_ s)) [p]).
      rewrite (app_assoc l [p]), Hperm, <- !app_assoc. f_equiv. f_equiv. by rewrite Permutation_app_comm. }
    cbv zeta. change (blocked_ (s <| queue_ := d |>)) with (blocked_ s). change (queue_ (s <| queue_ := d |>)) with d.
    destruct (blocked_ s) eqn:Eb; cbn [negb].
    + cbn [returns queue_ set_field]. split; [done|]. exists l1. split; [|done]. constructor; [done|done|done|cbn; by rewrite Eb|done].
    + eapply returns_bind; [by apply (dt_deque_ok d l1)|]. intros [pp d'] (-> & Hq2 & Hdr2 & Hset2). cbn [returns].
      rewrite (head_null _ _ _ Hq'). split; [by case_match; cbn; eapply same_settings_trans|].
      exists (tail l1). split; [|done]. destruct l1 as [|a l1]; cbn [negb tail head or_null] in *.
      * constructor; cbn; [done|done|by rewrite Hdr2|done|done].
      * constructor; cbn; [done|by rewrite <- app_assoc|rewrite Hdr2, <- app_assoc; exact Ha'|done|done].
  - unfold resume. rewrite app_nil_r in *. eapply returns_bind; [by apply (dt_deque_ok (queue_ s) l)|].
    intros [pp d] (-> & Hq2 & Hdr2 & Hset2). cbn [returns]. rewrite (head_null _ _ _ Hq).
    split; [by case_match|]. exists (tail l). split; [|done]. destruct l as [|a l]; cbn [negb tail head or_null] in *.
    + constructor; cbn; [done|done|by rewrite Hdr2|done|done].
    + constructor; cbn; [done|by rewrite <- app_assoc|rewrite Hdr2, <- app_assoc; exact Ha|by rewrite Hv|done].
Qed.

(** ** The bound *)

(** One packet less than [qlim_], or one byte less than the limit in bytes. *)
Definition bounded (s : droptail) (l : list Z) : Prop :=
  if qib_ s then drop_front_ s = false -> total_size (mem s) l <= Z.max 0 (qlimBytes s - 1)
  else Z.of_nat (length l) <= Z.max 0 (qlim_ s - 1).

Lemma bounded_settings s s' l : same_settings s s' -> bounded s l -> bounded s' l.
Proof.
  intros (E1 & E2 & E3 & E4 & _ & Hsz). unfold bounded, qlimBytes. rewrite E1, E2, E3, E4.
  assert (Et : total_size (mem s') l = total_size (mem s) l).
  { unfold total_size. induction l as [|a l IH]; cbn; [done|]. by rewrite IH, Hsz. }
  by rewrite Et.
Qed.

Lemma bounded_tail s l : (forall p, 0 <= size_of (mem s) p) -> bounded s l -> bounded s (tail l).
Proof.
  intros Hsz. unfold bounded. destruct l as [|a l]; [done|]. cbn [tail length]. case_cond.
  - intros H Hf. specialize (H Hf). unfold total_size in *. cbn [foldr] in H. specialize (Hsz a). lia.
  - lia.
Qed.

Lemma bounded_enque s l p :
  (forall p, 0 <= size_of (mem s) p) -> bounded s l -> bounded s (after_enque (drop_front_ s) (is_full s l p) l p).1.
Proof.
  intros Hsz H. unfold after_enque, is_full, bounded in *. destruct (qib_ s).
  - intros Hf. rewrite Hf. specialize (H Hf). case_cond; cbn [fst]; [done|].
    rewrite total_size_app. unfold total_size at 2. cbn [foldr]. lia.
  - case_cond; [|cbn [fst]; rewrite length_app; cbn; lia]. case_cond; cbn [fst]; [|done].
    destruct l; cbn; rewrite ?length_app; cbn in *; lia.
Qed.

Lemma link_run_inv es arr s l :
  link_inv arr s l -> NoDup (arr ++ arrivals es) -> link_valid es s ->
  (forall p, 0 <= size_of (mem (queue_ s)) p) -> bounded (queue_ s) l ->
  returns (link_run es s) (fun s' => same_settings (queue_ s) (queue_ s') /\
    exists l', link_inv (arr ++ arrivals es) s' l' /\ bounded (queue_ s') l').
Proof.
  revert arr s l. induction es as [|e es IH]; intros arr s l Hi Hnd Hv Hsz Hb; cbn [link_run].
  { cbn [returns arrivals]. rewrite app_nil_r. split; [done|]. by exists l. }
  destruct Hv as [Hv Hvs].
  assert (Earr : arrivals (e :: es) = arrivals [e] ++ arrivals es) by by destruct e. rewrite Earr, app_assoc in Hnd |- *.
  assert (Hnd1 : NoDup (arr ++ arrivals [e])) by by apply NoDup_app in Hnd as (? & _).
  pose proof (link_step_inv e arr s l Hi Hnd1 Hv) as Hs. apply returns_inv in Hs as (s1 & E1 & Hset & l1 & Hi1 & El1).
  rewrite E1, bind_Ok. assert (Hb1 : bounded (queue_ s1) l1).
  { apply (bounded_settings (queue_ s)); [done|]. rewrite El1. destruct e as [p|]; [|by apply bounded_tail].
    cbv zeta. pose proof (bounded_enque (queue_ s) l p Hsz Hb). case_cond; [done|]. by apply bounded_tail. }
  eapply returns_mono; [apply (IH _ s1 l1 Hi1 Hnd); [by apply Hvs| |done]|].
  - intros p. destruct Hset as (_ & _ & _ & _ & _ & Hsz1). by rewrite Hsz1.
  - intros s' [Hset' Hl']. split; [by eapply same_settings_trans|done].
Qed.

Lemma new_link_inv m qlim mean front qib :
  link_inv [] (new_link m qlim mean front qib) [] /\ bounded (queue_ (new_link m qlim mean front qib)) [].
Proof.
  split; [constructor; [constructor; cbn|..]; try done; [constructor|set_solver]|].
  unfold bounded. cbn [queue_ new_link qib_]. case_cond; cbn; lia.
Qed.

(** ** Shrinking *)

(** The list from the end the packets are taken from. *)
Definition orient (front : bool) (l : list Z) : list Z := if front then l else rev l.

Lemma length_orient front l : length (orient front l) = length l.
Proof. unfold orient. case_match; [done|apply length_rev]. Qed.

(** What is kept of the list, and what is taken from its end, while it exceeds the limit. *)
Fixpoint trim (ex : list Z -> bool) (l : list Z) : list Z * list Z :=
  match l with
  | [] => ([], [])
  | a :: l' => if ex l then let '(k, g) := trim ex l' in (k, a :: g) else (l, [])
  end.

Definition exceeds (s : droptail) (l : list Z) : bool :=
  if qib_ s then qlimBytes s <? total_size (mem s) l else qlim_ s <? Z.of_nat (length l).

Lemma excess_ok s l : holds (mem s) (q_ s) l -> excess s = exceeds s l.
Proof.
  intros Hq. unfold excess, exceeds. rewrite (ho_len _ _ _ Hq), (ho_bytes _ _ _ Hq).
  destruct (qib_ s); cbn [negb andb orb]; [done|by rewrite orb_false_r].
Qed.

Lemma total_settings s s' l : same_settings s s' -> total_size (mem s') l = total_size (mem s) l.
Proof.
  intros (_ & _ & _ & _ & _ & Hsz). unfold total_size. induction l as [|a l IH]; cbn; [done|]. by rewrite IH, Hsz.
Qed.

Lemma exceeds_settings s s' l : same_settings s s' -> exceeds s' l = exceeds s l.
Proof.
  intros Hs. unfold exceeds, qlimBytes. rewrite (total_settings s s' l Hs). destruct Hs as (-> & _ & -> & -> & _). done.
Qed.

Lemma total_rev m l : total_size m (rev l) = total_size m l.
Proof.
  induction l as [|a l IH]; cbn [rev]; [done|]. rewrite total_size_app, IH. unfold total_size. cbn [foldr]. lia.
Qed.

Lemma exceeds_rev s l : exceeds s (rev l) = exceeds s l.
Proof. unfold exceeds. by rewrite total_rev, length_rev. Qed.

(** One packet less. *)
Lemma shrink_body_ok s a r :
  holds (mem s) (q_ s) (orient (drop_front_ s) (a :: r)) -> Z.of_nat (length (a :: r)) < 1099511627775 ->
  returns (if drop_front_ s then '(pp, s) ← dt_deque s; drop pp s
           else let pp := tail_ (q_ s) in
             '(m, q) ← remove_target pp (mem s) (q_ s); drop pp (s <| mem := m |> <| q_ := q |>))
    (fun s' => holds (mem s') (q_ s') (orient (drop_front_ s) r) /\ dropped s' = dropped s ++ [a] /\ same_settings s s').
Proof.
  intros Hq Hlen. assert (Ha : (a =? 0) = false).
  { apply Z.eqb_neq. intros ->. apply (ho_null _ _ _ Hq). unfold orient. case_match; [left|]. cbn. apply elem_of_app. right. left. }
  destruct (drop_front_ s) eqn:Ef; cbn [orient] in *.
  - eapply returns_bind; [by apply (dt_deque_ok s (a :: r))|]. intros [pp t] (-> & Hq' & Hd & Hset).
    cbn [head or_null tail] in *. unfold drop. rewrite Ha. cbn [returns]. split; [done|]. split; [cbn; by rewrite Hd|done].
  - cbv zeta. rewrite (ho_tail _ _ _ Hq). cbn [rev] in *. rewrite last_snoc. pose proof (remove_target_ok (mem s) (q_ s) _ a Hq) as Hr.
    rewrite decide_True in Hr by (apply elem_of_app; right; left). rewrite length_app, length_rev in Hr. cbn [length] in *.
    eapply returns_bind; [apply Hr; lia|]. intros [m q] ((Hsz & _ & Hdom & _) & l1 & l2 & E & Hq'). unfold drop. rewrite Ha. cbn [returns].
    split; [|by split_and!]. cbn [mem q_ set_field]. replace (rev r) with (l1 ++ l2); [done|].
    pose proof (ho_nodup _ _ _ Hq) as Hn. destruct l2 as [|b l2 _] using rev_ind.
    + apply app_inj_tail in E as [-> _]. by rewrite app_nil_r.
    + rewrite app_comm_cons, app_assoc in E. apply app_inj_tail in E as [E <-]. exfalso.
      apply NoDup_app in Hn as (_ & Hn & _). apply (Hn a); [|left]. rewrite E. apply elem_of_app. right. left.
Qed.

Lemma shrink_ok s l :
  holds (mem s) (q_ s) l -> Z.of_nat (length l) < 1099511627775 -> 0 <= qlim_ s -> 0 <= qlimBytes s ->
  returns (shrink_queue s) (fun s' =>
    let '(kept, gone) := trim (exceeds s) (orient (drop_front_ s) l) in
    holds (mem s') (q_ s') (orient (drop_front_ s) kept) /\ dropped s' = dropped s ++ gone /\ same_settings s s').
Proof.
  intros Hq Hlen Hq0 Hb0. unfold shrink_queue. set (r0 := orient (drop_front_ s) l). set (ex := exceeds s).
  assert (Hinv : forall k, orient (drop_front_ s) (orient (drop_front_ s) k) = k).
  { intros k. unfold orient. case_match; [done|apply rev_involutive]. }
  assert (Hexo : forall k, exceeds s (orient (drop_front_ s) k) = ex k).
  { intros k. unfold orient. case_match; [done|apply exceeds_rev]. }
  set (I := fun t => same_settings s t /\ exists r g, holds (mem t) (q_ t) (orient (drop_front_ s) r) /\
    dropped t = dropped s ++ g /\ trim ex r0 = ((trim ex r).1, g ++ (trim ex r).2) /\ (length r <= length l)%nat).
  eapply returns_mono.
  { apply (c_while_rule I (fun t => len_ (q_ t))).
    - intros t (Hset & r & g & Hr & Hd & Etr & Hlr) Hex. rewrite (excess_ok _ _ Hr), (exceeds_settings s t _ Hset), Hexo in Hex.
      destruct r as [|a r].
      { exfalso. unfold ex, exceeds, total_size in Hex. cbn [length foldr] in Hex. revert Hex. case_cond; intros HH. all: apply Z.ltb_lt in HH; clear - HH Hq0 Hb0; lia. }
      assert (Ef : drop_front_ t = drop_front_ s) by apply Hset. rewrite <- Ef in Hr. pose proof (ho_len _ _ _ Hr) as Hl.
      eapply returns_mono; [apply (shrink_body_ok t a r Hr); cbn [length] in *; lia|].
      intros t' (Hr' & Hd' & Hset'). pose proof (ho_len _ _ _ Hr') as Hl'. rewrite Ef in Hr'.
      split; [|rewrite Hl, Hl', !length_orient; cbn [length]; lia].
      split; [by eapply same_settings_trans|]. exists r, (g ++ [a]). split; [done|]. split; [by rewrite Hd', Hd, app_assoc|].
      cbn [trim] in Etr. rewrite Hex in Etr. destruct (trim ex r) as [k g']. cbn [fst snd] in *. split; [by rewrite <- app_assoc|cbn in Hlr; lia].
    - split; [done|]. exists r0, []. unfold r0 at 1. rewrite Hinv. split; [done|]. split; [by rewrite app_nil_r|].
      split; [by destruct (trim ex r0)|]. unfold r0. by rewrite length_orient.
    - rewrite (ho_len _ _ _ Hq). lia. }
  intros t [(Hset & r & g & Hr & Hd & Etr & _) Hex]. rewrite (excess_ok _ _ Hr), (exceeds_settings s t _ Hset), Hexo in Hex.
  assert (Et : trim ex r = (r, [])) by (destruct r; cbn [trim]; [done|by rewrite Hex]). rewrite Et in Etr. cbn [fst snd] in Etr.
  rewrite app_nil_r in Etr. by rewrite Etr.
Qed.

Lemma reset_ok s l :
  holds (mem s) (q_ s) l -> Z.of_nat (length l) < 1099511627775 ->
  returns (reset s) (fun s' => holds (mem s') (q_ s') [] /\ dropped s' = dropped s ++ l).
Proof.
  intros Hq Hlen. unfold reset. eapply returns_bind; [by apply (dt_deque_ok s l)|]. intros [p1 s1] (-> & Hq1 & Hd1 & _).
  pose proof (ho_nodup _ _ _ Hq) as Hn.
  set (I := fun '(p, t) => exists r, holds (mem t) (q_ t) (tail r) /\ p = or_null (head r) /\ dropped t ++ r = dropped s ++ l /\ 0 ∉ r).
  eapply returns_bind; [apply (c_while_rule I (fun '(p, t) => if p =? 0 then 0 else 1 + len_ (q_ t)))|].
  - intros [p t] (r & Hr & -> & Hd & H0) Hc. cbv beta iota in Hc. destruct r as [|a r]; [done|]. cbn [head or_null tail] in *.
    unfold drop. apply negb_true_iff in Hc. rewrite Hc, bind_Ok.
    eapply returns_mono; [by apply (dt_deque_ok (t <| dropped := dropped t ++ [a] |>) r)|].
    intros [p' t'] (-> & Hr' & Hd' & _). cbn [dropped set_field] in Hd'. split.
    + exists r. split; [done|]. split; [done|]. split; [by rewrite Hd', <- app_assoc|set_solver].
    + rewrite (ho_len _ _ _ Hr), (ho_len _ _ _ Hr'). destruct r as [|b r]; cbn [head or_null tail length]; [|case_match]; cbn; lia.
  - exists l. rewrite Hd1. by pose proof (ho_null _ _ _ Hq).
  - rewrite (ho_len _ _ _ Hq1). destruct l as [|a l]; cbn [head or_null tail length] in *; [|case_match]; cbn; lia.
  - intros [p t] [(r & Hr & -> & Hd & H0) Hc]. cbv beta iota in Hc. cbn [returns]. destruct r as [|a r].
    + by rewrite <- Hd, app_nil_r.
    + cbn [head or_null] in Hc. apply negb_false_iff, Z.eqb_eq in Hc. subst a. set_solver.
Qed.

(** * Properties *)

(** C34: what DropTail does with the list of its packets.  enque takes the packet
    unless there would be [qlim_] packets or more with it (or the limit in
    bytes, at [queue_in_bytes_]); then the packet is dropped or, with
    [drop_front_], it is taken and the head is dropped.  deque takes the head.
    shrink_queue drops from one end, and only while the queue exceeds the
    limit; reset drops everything, the head first. *)
Theorem drop_tail_correct s l p :
  holds (mem s) (q_ s) l -> p <> 0 -> p ∈ dom (mem s) -> p ∉ l ->
  Z.of_nat (length l) < 1099511627775 -> 0 <= qlim_ s -> 0 <= qlimBytes s ->
  returns (dt_enque p s) (fun s' =>
    let '(l', d) := after_enque (drop_front_ s) (is_full s l p) l p in
    holds (mem s') (q_ s') l' /\ dropped s' = dropped s ++ d) /\
  returns (dt_deque s) (fun '(pp, s') => pp = or_null (head l) /\ holds (mem s') (q_ s') (tail l) /\ dropped s' = dropped s) /\
  returns (shrink_queue s) (fun s' =>
    let '(kept, gone) := trim (exceeds s) (orient (drop_front_ s) l) in
    holds (mem s') (q_ s') (orient (drop_front_ s) kept) /\ dropped s' = dropped s ++ gone) /\
  returns (reset s) (fun s' => holds (mem s') (q_ s') [] /\ dropped s' = dropped s ++ l).
Proof.
  intros Hq Hp Hd Hnl Hlen H0 Hb. split; [|split; [|split; [|by apply reset_ok]]].
  - eapply returns_mono; [by apply (dt_enque_ok p s l)|]. intros s'. case_match. tauto.
  - eapply returns_mono; [by apply (dt_deque_ok s l)|]. intros [pp s']. tauto.
  - eapply returns_mono; [by apply (shrink_ok s l)|]. intros s'. case_match. tauto.
Qed.

(** C32: a link behind a DropTail queue, whatever arrives and whenever it resumes:
    nothing aborts; the packets are sent in the order they arrived, each at most
    once; each packet that arrived is sent, queued or dropped; the link is not
    idle while a packet waits; and the queue never holds [qlim_] packets (or,
    in bytes without [drop_front_], the limit in bytes), one less than the
    [limit_] of the script. *)
Theorem link_fifo es m qlim mean front qib :
  let s := new_link m qlim mean front qib in
  NoDup (arrivals es) -> link_valid es s -> (forall p, 0 <= size_of m p) ->
  returns (link_run es s) (fun s' => exists l, holds (mem (queue_ s')) (q_ (queue_ s')) l /\
    (sent s' ++ l) `sublist_of` arrivals es /\
    arrivals es ≡ₚ sent s' ++ l ++ dropped (queue_ s') /\
    (blocked_ s' = false -> l = []) /\
    if qib then front = false -> total_size m l <= Z.max 0 (s32 (qlim * mean) - 1)
    else Z.of_nat (length l) <= Z.max 0 (qlim - 1)).
Proof.
  cbv zeta. intros Hnd Hv Hsz. destruct (new_link_inv m qlim mean front qib) as [Hi Hb].
  eapply returns_mono; [by apply (link_run_inv es [] _ [])|].
  intros s' (Hset & l & [Hq Ho Ha Hw _] & Hbd). exists l. split; [done|]. split; [done|]. split; [done|]. split; [done|].
  unfold bounded, qlimBytes in Hbd. rewrite (total_settings _ _ l Hset) in Hbd. destruct Hset as (E1 & E2 & E3 & E4 & _).
  rewrite E1, E2, E3, E4 in Hbd. exact Hbd.
Qed.

(** ** The examples *)

Definition demo_packets : memory :=
  <[1 := mk_packet 40 0 0]> (<[2 := mk_packet 1000 0 0]> (<[3 := mk_packet 500 0 0]> (<[4 := mk_packet 1500 0 0]> ∅))).

(** A queue for three: the link takes 1, two packets wait, 4 is dropped. *)
Definition demo_events : list link_event := [Arrive 1; Arrive 2; Arrive 3; Arrive 4; Resume; Resume].

Lemma demo_sizes p : 0 <= size_of demo_packets p.
Proof.
  unfold size_of. destruct (demo_packets !! p) as [x|] eqn:E; [|lia]. unfold demo_packets in E.
  repeat (apply lookup_insert_Some in E as [[_ <-]|[_ E]]; [cbn; lia|]). by rewrite lookup_empty in E.
Qed.

Lemma link_fifo_witness :
  NoDup (arrivals demo_events) /\ link_valid demo_events (new_link demo_packets 3 1000 false false) /\
  (forall p, 0 <= size_of demo_packets p) /\
  exists s, link_run demo_events (new_link demo_packets 3 1000 false false) = Ok s /\ sent s = [1; 2; 3] /\
    dropped (queue_ s) = [4] /\ exists l, arrivals demo_events ≡ₚ sent s ++ l ++ dropped (queue_ s).
Proof.
  assert (Hnd : NoDup (arrivals demo_events)) by (cbn; repeat constructor; set_solver).
  assert (Hv : link_valid demo_events (new_link demo_packets 3 1000 false false)).
  { repeat (split; [vm_compute; split; [discriminate|by eexists]|intros s' E; vm_compute in E; injection E as <-]).
    do 2 (split; [reflexivity|intros s' E; vm_compute in E; injection E as <-]). exact I. }
  split; [exact Hnd|]. split; [exact Hv|]. split; [exact demo_sizes|].
  pose proof (link_fifo demo_events demo_packets 3 1000 false false Hnd Hv demo_sizes) as H.
  destruct (link_run demo_events (new_link demo_packets 3 1000 false false)) as [s|f] eqn:E; [|vm_compute in E; discriminate E].
  exists s. split; [reflexivity|]. vm_compute in E. injection E as <-. split; [reflexivity|]. split; [reflexivity|].
  destruct H as (l & _ & _ & Hp & _). by exists l.
Defined.

(** Three packets fill a queue for three; the fourth is dropped from the front. *)
Definition demo_queue : droptail :=
  mk_droptail (<[1 := mk_packet 40 0 2]> (<[2 := mk_packet 1000 0 0]> demo_packets)) (mk_pqueue 1 2 2 1040 0) 3 true false 1000 [].

Lemma drop_tail_correct_witness :
  holds (mem demo_queue) (q_ demo_queue) [1; 2] /\
  (exists s', dt_enque 3 demo_queue = Ok s' /\ holds (mem s') (q_ s') [2; 3] /\ dropped s' = [1]) /\
  (exists s', reset demo_queue = Ok s' /\ dropped s' = [1; 2]).
Proof.
  assert (Hq : holds (mem demo_queue) (q_ demo_queue) [1; 2]).
  { constructor; [|done|repeat constructor; set_solver|set_solver|done|done].
    split; [done|]. exists (mk_packet 40 0 2). split; [reflexivity|]. split; [done|]. by exists (mk_packet 1000 0 0). }
  split; [exact Hq|].
  destruct (drop_tail_correct demo_queue [1; 2] 3 Hq ltac:(done) ltac:(by eapply elem_of_dom_2; vm_compute)
    ltac:(set_solver) ltac:(cbn; lia) ltac:(done) ltac:(done)) as (He & _ & _ & Hr).
  rewrite returns_inv in He. rewrite returns_inv in Hr. destruct He as (s1 & E1 & H1), Hr as (s2 & E2 & _ & H2).
  split; [|by exists s2]. exists s1. split; [exact E1|]. exact H1.
Defined.

(** With [queue_in_bytes_] and [drop_front_] a large packet displaces a small one:
    the queue for 1000 bytes holds 1500. *)
Example drop_front_exceeds_bytes :
  match link_run [Arrive 1; Arrive 2; Arrive 4] ((new_link demo_packets 1 1000 true true) <| blocked_ := true |>) with
  | Ok s => qlimBytes (queue_ s) = 1000 /\ bytes_ (q_ (queue_ s)) = 1500
  | Trap _ => False
  end.
Proof. by vm_compute. Qed.
