(* ===== verification/Drr.v ===== *)
(** Deficit round robin (queue/drr.cc): the array of flows, the ring that links
    the active ones, enque with its buffer limit, deque, and the commands. *)
From stdpp Require Import gmap.
From S2P Require Import Prelude PacketQueue.

(** * Definitions *)

(** ** Flows: PacketDRR *)

(** A pointer to a flow is its index in the array, [None] the null pointer. *)
Record flow := mk_flow {
  pq : pqueue;
  pkts : Z;                   (* int *)
  src : Z;                    (* int *)
  bcount : Z;                 (* int *)
  prev : option nat;
  next : option nat;
  deficitCounter : Z;         (* int *)
  turn : Z;                   (* int *)
}.
#[global] Instance eta_flow : Eta flow := fun r =>
  mk_flow (pq r) (pkts r) (src r) (bcount r) (prev r) (next r) (deficitCounter r) (turn r).

Definition new_flow : flow := mk_flow new_queue 0 (-1) 0 None None 0 0.

Record drr_queue := mk_drr {
  mem : memory;
  buckets_ : Z;               (* int *)
  blimit_ : Z;                (* int *)
  quantum_ : Z;               (* int *)
  mask_ : Z;                  (* int *)
  bytecnt : Z;                (* int *)
  pktcnt : Z;                 (* int *)
  flwcnt : Z;                 (* int *)
  curr : option nat;
  drr : option (list flow);   (* the array, null until the first packet *)
  dropped : list Z;           (* what was given to drop, the first first *)
}.
#[global] Instance eta_drr_queue : Eta drr_queue := fun r =>
  mk_drr (mem r) (buckets_ r) (blimit_ r) (quantum_ r) (mask_ r) (bytecnt r) (pktcnt r) (flwcnt r) (curr r) (drr r) (dropped r).

Definition deref (i : option nat) (s : drr_queue) : outcome flow :=
  match drr s, i with
  | Some fs, Some i => match fs !! i with Some f => Ok f | None => Trap OutOfBounds end
  | _, _ => Trap NullDeref
  end.
Definition modify (i : option nat) (g : flow -> flow) (s : drr_queue) : outcome drr_queue :=
  match drr s, i with
  | Some fs, Some i =>
      match fs !! i with Some _ => Ok (s <| drr := Some (alter g i fs) |>) | None => Trap OutOfBounds end
  | _, _ => Trap NullDeref
  end.

(** The flow [this] joins the ring before [head]; the new head is returned. *)
Definition activate (this head : option nat) (s : drr_queue) : outcome (option nat * drr_queue) :=
  match head with
  | Some _ =>
      h ← deref head s;
      s ← modify this (fun f => f <| prev := prev h |>) s;
      s ← modify this (fun f => f <| next := head |>) s;
      h ← deref head s;
      s ← modify (prev h) (fun f => f <| next := this |>) s;
      s ← modify head (fun f => f <| prev := this |>) s;
      Ok (head, s)
  | None =>
      s ← modify this (fun f => f <| prev := this |>) s;
      s ← modify this (fun f => f <| next := this |>) s;
      Ok (this, s)
  end.

(** The two writes by which a flow leaves the ring. *)
Definition unlink_flow (this : option nat) (s : drr_queue) : outcome drr_queue :=
  f ← deref this s;
  s ← modify (next f) (fun g => g <| prev := prev f |>) s;
  f ← deref this s;
  modify (prev f) (fun g => g <| next := next f |>) s.

Definition idle (this head : option nat) (s : drr_queue) : outcome (option nat * drr_queue) :=
  if decide (head = this) then
    f ← deref this s;
    if decide (next f = this) then Ok (None, s)
    else s ← unlink_flow this s; f ← deref this s; Ok (next f, s)
  else s ← unlink_flow this s; Ok (head, s).

(** ** The queue: DRR *)

Definition new_drr (m : memory) (buckets blimit quantum mask : Z) : drr_queue :=
  mk_drr m buckets blimit quantum mask 0 0 0 None None [].

Fixpoint max_walk (n : nat) (maxflow tmp : option nat) (s : drr_queue) : outcome (option nat) :=
  match n with
  | O => Ok maxflow
  | S n =>
      m ← deref maxflow s;
      t ← deref tmp s;
      max_walk n (if bcount m <? bcount t then tmp else maxflow) (next t) s
  end.
Definition getMaxflow (c : option nat) (s : drr_queue) : outcome (option nat) :=
  max_walk (Z.to_nat (flwcnt s)) c c s.

(** The source address a flow is known by. *)
Definition address (x : packet) (mask : Z) : Z :=
  if nz mask then Z.land (p_saddr x) 65520 else p_saddr x.

(** [%] is the remainder towards zero. *)
Definition hash (pkt : Z) (s : drr_queue) : outcome Z :=
  x ← access pkt (mem s);
  let i := address x (mask_ s) in
  Ok (Z.rem (s32 (s32 (i + i ≫ 8) + Z.lnot (i ≫ 4))) 16777215 + 1).

Definition drr_drop (p : Z) (s : drr_queue) : outcome drr_queue :=
  if p =? 0 then Trap NullDeref else Ok (s <| dropped := dropped s ++ [p] |>).

(** The loop that drops from the longest flow. *)
Definition drop_max (s : drr_queue) : outcome drr_queue :=
  remq ← getMaxflow (curr s) s;
  f ← deref remq s;
  '(p, q) ← pq_deque (mem s) (pq f);
  s ← modify remq (fun f => f <| pq := q |>) s;
  x ← access p (mem s);
  s ← modify remq (fun f => f <| bcount := bcount f - p_size x |>) s;
  s ← drr_drop p (s <| bytecnt := bytecnt s - p_size x |>);
  s ← modify remq (fun f => f <| pkts := pkts f - 1 |>) s;
  let s := s <| pktcnt := pktcnt s - 1 |> in
  f ← deref remq s;
  if pkts f =? 0 then
    '(c, s) ← idle remq (curr s) s;
    Ok (s <| curr := c |> <| flwcnt := flwcnt s - 1 |>)
  else Ok s.

(** The array, made at the first packet, and the flow of a packet. *)
Definition with_flows (s : drr_queue) : drr_queue :=
  match drr s with
  | Some _ => s
  | None => s <| drr := Some (replicate (Z.to_nat (buckets_ s)) new_flow) |>
  end.
Definition bucket (pkt : Z) (s : drr_queue) : outcome (option nat) :=
  h ← hash pkt s;
  if buckets_ s =? 0 then Trap DivByZero
  else let which := Z.rem h (buckets_ s) in
       if which <? 0 then Trap OutOfBounds else Ok (Some (Z.to_nat which)).

(** enque up to its loop *)
Definition drr_arrive (pkt : Z) (s : drr_queue) : outcome drr_queue :=
  x ← access pkt (mem s);
  let s := with_flows s in
  q ← bucket pkt s;
  s ← modify q (fun f => if src f =? -1 then f <| src := address x (mask_ s) |> else f) s;
  f ← deref q s;
  '(_, m, q') ← pq_enque pkt (mem s) (pq f);
  s ← modify q (fun f => f <| pq := q' |> <| pkts := pkts f + 1 |> <| bcount := bcount f + p_size x |>) (s <| mem := m |>);
  let s := s <| pktcnt := pktcnt s + 1 |> <| bytecnt := bytecnt s + p_size x |> in
  f ← deref q s;
  if pkts f =? 1 then
    '(c, s) ← activate q (curr s) s;
    s ← modify q (fun f => f <| deficitCounter := 0 |>) (s <| curr := c |>);
    Ok (s <| flwcnt := flwcnt s + 1 |>)
  else Ok s.

Definition drr_enque (pkt : Z) (s : drr_queue) : outcome drr_queue :=
  s ← drr_arrive pkt s;
  c_while (fun s => blimit_ s <? bytecnt s) drop_max s.

(** The loop of deque: the quantum at the start of a turn, the first packet
    [x] of the flow sent, and the turn passed on. *)
Definition grant (s : drr_queue) : outcome drr_queue :=
  f ← deref (curr s) s;
  if turn f =? 0 then modify (curr s) (fun f => f <| deficitCounter := deficitCounter f + quantum_ s |> <| turn := 1 |>) s
  else Ok s.

Definition send_first (x : packet) (s : drr_queue) : outcome (Z * drr_queue) :=
  s ← modify (curr s) (fun f => f <| deficitCounter := deficitCounter f - p_size x |>) s;
  f ← deref (curr s) s;
  '(pkt, q) ← pq_deque (mem s) (pq f);
  s ← modify (curr s) (fun f => f <| pq := q |>) s;
  s ← modify (curr s) (fun f => f <| bcount := bcount f - p_size x |> <| pkts := pkts f - 1 |>) s;
  let s := s <| pktcnt := pktcnt s - 1 |> <| bytecnt := bytecnt s - p_size x |> in
  f ← deref (curr s) s;
  if pkts f =? 0 then
    s ← modify (curr s) (fun f => f <| turn := 0 |>) s;
    s ← modify (curr s) (fun f => f <| deficitCounter := 0 |>) (s <| flwcnt := flwcnt s - 1 |>);
    '(c, s) ← idle (curr s) (curr s) s;
    Ok (pkt, s <| curr := c |>)
  else Ok (pkt, s).

Definition pass (s : drr_queue) : outcome drr_queue :=
  s ← modify (curr s) (fun f => f <| turn := 0 |>) s;
  f ← deref (curr s) s;
  Ok (s <| curr := next f |>).

(** One round: the packet that is returned, or [None]. *)
Definition serve (s : drr_queue) : outcome (option Z * drr_queue) :=
  s ← grant s;
  f ← deref (curr s) s;
  pkt ← lookup_ 0 (mem s) (pq f);
  x ← access pkt (mem s);
  if p_size x <=? deficitCounter f then '(pkt, s) ← send_first x s; Ok (Some pkt, s)
  else s ← pass s; Ok (None, s).

Definition drr_deque (s : drr_queue) : outcome (Z * drr_queue) :=
  if bytecnt s =? 0 then Ok (0, s)
  else
    '(r, s) ← c_while (fun '(r, _) => match r with None => true | Some _ => false end) (fun '(_, s) => serve s) (None, s);
    Ok (match r with Some pkt => pkt | None => 0 end, s).

(** ** The commands *)

(** The scan of clear over the first [n] flows; exit(1) is [AssertFail]. *)
Fixpoint clear_scan (n i : nat) (s : drr_queue) : outcome drr_queue :=
  match n with
  | O => Ok (s <| drr := None |>)
  | S n => f ← deref (Some i) s; if nz (pkts f) then Trap AssertFail else clear_scan n (S i) s
  end.
Definition clear (s : drr_queue) : outcome drr_queue :=
  match drr s with None => Ok s | Some _ => clear_scan (Z.to_nat (buckets_ s)) 0 s end.

Inductive drr_command : Type :=
  | CBlimit (n : Z)
  | CBuckets (n : Z)
  | CQuantum (n : Z)
  | CMask (n : Z).

Definition drr_cmd (c : drr_command) (s : drr_queue) : outcome drr_queue :=
  match c with
  | CBlimit n => if n <? bytecnt s then Trap AssertFail else Ok (s <| blimit_ := n |>)
  | CBuckets n => s ← clear s; Ok (s <| buckets_ := n |>)
  | CQuantum n => Ok (s <| quantum_ := n |>)
  | CMask n => Ok (s <| mask_ := n |>)
  end.

(** ** Runs *)

Inductive drr_event : Type :=
  | EArrive (p : Z)
  | EDeque.

(** A step returns the packet that is taken from the queue, or 0. *)
Definition drr_step (e : drr_event) (s : drr_queue) : outcome (Z * drr_queue) :=
  match e with
  | EArrive p => s ← drr_enque p s; Ok (0, s)
  | EDeque => drr_deque s
  end.

Fixpoint drr_run (es : list drr_event) (s : drr_queue) : outcome (list Z * drr_queue) :=
  match es with
  | [] => Ok ([], s)
  | e :: es =>
      '(p, s) ← drr_step e s;
      '(ps, s) ← drr_run es s;
      Ok (if p =? 0 then ps else p :: ps, s)
  end.

Fixpoint drr_arrivals (es : list drr_event) : list Z :=
  match es with [] => [] | EArrive p :: es => p :: drr_arrivals es | EDeque :: es => drr_arrivals es end.

(** ** Rings *)

Section Ring.
Context (nx pv : nat -> option nat).

Definition linked (a b : nat) : Prop := nx a = Some b /\ pv b = Some a.
(** The links lead from [a] through [l], both ways. *)
Fixpoint chain (a : nat) (l : list nat) : Prop :=
  match l with [] => True | b :: l => linked a b /\ chain b l end.
Definition ring (l : list nat) : Prop :=
  NoDup l /\ match l with [] => True | a :: l => chain a (l ++ [a]) end.
End Ring.

Definition nx (fs : list flow) (i : nat) : option nat := fs !! i ≫= next.
Definition pv (fs : list flow) (i : nat) : option nat := fs !! i ≫= prev.

(** The flow but for its links. *)
Definition body (f : flow) : flow := f <| prev := None |> <| next := None |>.

(** * Lemmas *)

Lemma links_app nx pv a l1 b l2 : chain nx pv a (l1 ++ b :: l2) <-> chain nx pv a (l1 ++ [b]) /\ chain nx pv b l2.
Proof. revert a. induction l1 as [|c l1 IH]; intros a; cbn [app chain]; [tauto|]. rewrite IH. tauto. Qed.

Section RingLemmas.
Context (nx pv nx' pv' : nat -> option nat).

(** What is written outside of a chain does not matter. *)
Lemma chain_frame a l b :
  chain nx pv a (l ++ [b]) -> (forall c, c ∈ a :: l -> nx' c = nx c) -> (forall c, c ∈ l ++ [b] -> pv' c = pv c) ->
  chain nx' pv' a (l ++ [b]).
Proof.
  revert a. induction l as [|c l IH]; intros a; cbn [app chain].
  - intros [[Hn Hp] _] Hnx Hpv. split; [|done]. split; [rewrite Hnx by left; done|rewrite Hpv by left; done].
  - intros [[Hn Hp] Hc] Hnx Hpv. split.
    + split; [rewrite Hnx by left; done|rewrite Hpv by left; done].
    + apply IH; [done| |]; intros d Hd; [apply Hnx|apply Hpv]; by right.
Qed.

(** The ring may be read from any of its flows. *)
Lemma ring_rotate l1 l2 : ring nx pv (l1 ++ l2) -> ring nx pv (l2 ++ l1).
Proof.
  intros [Hn Hc]. split; [by rewrite Permutation_app_comm|]. destruct l2 as [|b l2]; [by rewrite app_nil_r in Hc|].
  destruct l1 as [|a l1]; [by rewrite app_nil_r|]. cbn [app] in *. rewrite <- app_assoc in Hc. cbn [app] in Hc.
  apply links_app in Hc as [H1 H2]. rewrite <- app_assoc. cbn [app]. by apply links_app.
Qed.

Lemma ring_next a l : ring nx pv (a :: l) -> nx a = head (l ++ [a]).
Proof. intros [_ Hc]. destruct l as [|b l]; apply Hc. Qed.

Lemma ring_prev a l : ring nx pv (a :: l) -> pv a = last (a :: l).
Proof.
  intros [_ Hc]. destruct l as [|p l _] using rev_ind; [apply Hc|]. rewrite <- app_assoc in Hc. cbn [app] in Hc.
  apply links_app in Hc as [_ [[_ Hp] _]]. by rewrite app_comm_cons, last_snoc.
Qed.

(** A flow [x] joins before the head. *)
Lemma ring_join a l x p :
  ring nx pv (a :: l) -> x ∉ a :: l -> last (a :: l) = Some p ->
  nx' p = Some x -> pv' x = Some p -> nx' x = Some a -> pv' a = Some x ->
  (forall c, c <> p -> c <> x -> nx' c = nx c) -> (forall c, c <> a -> c <> x -> pv' c = pv c) ->
  ring nx' pv' (a :: l ++ [x]).
Proof.
  intros [Hn Hc] Hx Hlast H1 H2 H3 H4 Hnx Hpv. split.
  - rewrite app_comm_cons. apply NoDup_app. split; [done|]. split; [set_solver|apply NoDup_singleton].
  - rewrite <- app_assoc. cbn [app]. apply links_app. split; [|by repeat split].
    destruct l as [|q l _] using rev_ind; [injection Hlast as <-; by repeat split|].
    rewrite app_comm_cons, last_snoc in Hlast. injection Hlast as ->. rewrite <- app_assoc in *. cbn [app] in *.
    apply links_app in Hc as [Hc _]. apply links_app. split; [|by repeat split].
    apply NoDup_cons in Hn as [Ha Hn]. apply NoDup_app in Hn as (_ & Hp & _). apply chain_frame; [done| |]; intros c Hc'.
    + apply Hnx; [|set_solver]. intros ->. apply elem_of_cons in Hc' as [->|Hc']; [set_solver|]. apply (Hp p Hc'). left.
    + apply Hpv; [|set_solver]. intros ->. set_solver.
Qed.

(** The head [x] leaves. *)
Lemma ring_leave x a l p :
  ring nx pv (x :: a :: l) -> last (a :: l) = Some p ->
  nx' p = Some a -> pv' a = Some p ->
  (forall c, c <> p -> nx' c = nx c) -> (forall c, c <> a -> pv' c = pv c) ->
  ring nx' pv' (a :: l).
Proof.
  intros [Hn Hc] Hlast H1 H2 Hnx Hpv. apply NoDup_cons in Hn as [Hx Hn]. split; [done|]. cbn [app chain] in Hc.
  destruct Hc as [_ Hc]. destruct l as [|q l _] using rev_ind; [injection Hlast as <-; by repeat split|].
  rewrite app_comm_cons, last_snoc in Hlast. injection Hlast as ->. rewrite <- app_assoc in *. cbn [app] in *.
  apply links_app in Hc as [Hc _]. apply links_app. split; [|by repeat split].
  apply NoDup_cons in Hn as [Ha Hn]. apply NoDup_app in Hn as (_ & Hp & _). apply chain_frame; [done| |]; intros c Hc'.
  - apply Hnx. intros ->. apply elem_of_cons in Hc' as [->|Hc']; [set_solver|]. apply (Hp p Hc'). left.
  - apply Hpv. intros ->. set_solver.
Qed.
End RingLemmas.

Lemma ring_links_ext nx pv nx' pv' l :
  ring nx pv l -> (forall c, nx' c = nx c) -> (forall c, pv' c = pv c) -> ring nx' pv' l.
Proof.
  intros [Hn Hc] Hnx Hpv. split; [done|]. destruct l as [|a l]; [done|]. by apply (chain_frame nx pv).
Qed.

(** ** The flows in memory *)

Lemma flow_deref_ok s fs i f : drr s = Some fs -> fs !! i = Some f -> deref (Some i) s = Ok f.
Proof. intros E Ef. unfold deref. by rewrite E, Ef. Qed.

Lemma modify_ok s fs i g : drr s = Some fs -> is_Some (fs !! i) -> modify (Some i) g s = Ok (s <| drr := Some (alter g i fs) |>).
Proof. intros E [f Ef]. unfold modify. by rewrite E, Ef. Qed.

Lemma lookup_alter_Some (fs : list flow) i j g : is_Some (fs !! i) -> is_Some (alter g j fs !! i).
Proof. by rewrite !lookup_lt_is_Some, length_alter. Qed.

Lemma nx_set_prev fs i v c : nx (alter (fun f => f <| prev := v |>) i fs) c = nx fs c.
Proof. unfold nx. rewrite list_lookup_alter. case_decide as Hc; [|done]. subst c. by destruct (fs !! i). Qed.
Lemma pv_set_next fs i v c : pv (alter (fun f => f <| next := v |>) i fs) c = pv fs c.
Proof. unfold pv. rewrite list_lookup_alter. case_decide as Hc; [|done]. subst c. by destruct (fs !! i). Qed.
Lemma nx_set_next fs i v c : is_Some (fs !! i) -> nx (alter (fun f => f <| next := v |>) i fs) c = if decide (i = c) then v else nx fs c.
Proof. intros [f Ef]. unfold nx. rewrite list_lookup_alter. case_decide as Hc; [|done]. subst c. by rewrite Ef. Qed.
Lemma pv_set_prev fs i v c : is_Some (fs !! i) -> pv (alter (fun f => f <| prev := v |>) i fs) c = if decide (i = c) then v else pv fs c.
Proof. intros [f Ef]. unfold pv. rewrite list_lookup_alter. case_decide as Hc; [|done]. subst c. by rewrite Ef. Qed.

Lemma nx_at fs i f : fs !! i = Some f -> nx fs i = next f.
Proof. intros E. unfold nx. by rewrite E. Qed.
Lemma pv_at fs i f : fs !! i = Some f -> pv fs i = prev f.
Proof. intros E. unfold pv. by rewrite E. Qed.

Lemma body_alter (fs : list flow) i g : (forall f, body (g f) = body f) -> body <$> alter g i fs = body <$> fs.
Proof.
  intros Hg. rewrite (list_fmap_alter _ _ id); [|by apply Forall_true]. apply list_eq. intros j.
  rewrite list_lookup_alter. case_decide as Hj; [|done]. subst j. by destruct ((body <$> fs) !! i).
Qed.

(** Every flow of the ring is in the array. *)
Lemma ring_in fs l i : ring (nx fs) (pv fs) l -> i ∈ l -> is_Some (fs !! i).
Proof.
  intros Hr (l1 & l2 & ->)%list_elem_of_split. apply ring_rotate in Hr. cbn [app] in Hr.
  pose proof (ring_next _ _ _ _ Hr) as E. unfold nx in E. destruct (fs !! i); [done|]. by destruct (l2 ++ l1).
Qed.

(** The next write to a flow that is in the array. *)
Ltac write_flow :=
  erewrite modify_ok; [|reflexivity|repeat apply lookup_alter_Some; assumption]; rewrite bind_Ok.

Lemma activate_ok s fs l x :
  drr s = Some fs -> ring (nx fs) (pv fs) l -> x ∉ l -> is_Some (fs !! x) ->
  exists fs', activate (Some x) (head l) s = Ok (head (l ++ [x]), s <| drr := Some fs' |>) /\
    ring (nx fs') (pv fs') (l ++ [x]) /\ body <$> fs' = body <$> fs.
Proof.
  intros Es Hr Hx Hin. destruct l as [|a l]; cbn [head app]; unfold activate.
  - rewrite (modify_ok s fs x _ Es Hin), bind_Ok. write_flow. eexists. split; [reflexivity|].
    split; [|by rewrite !body_alter]. split; [apply NoDup_singleton|]. split; [|done].
    split; [rewrite nx_set_next, decide_True by (try apply lookup_alter_Some; done); done|].
    by rewrite pv_set_next, pv_set_prev, decide_True by done.
  - destruct (ring_in _ _ a Hr ltac:(left)) as [ha Ea]. destruct (last (a :: l)) as [p|] eqn:El; [|by apply last_None in El].
    assert (Hp : p ∈ a :: l) by (apply last_Some in El as (l' & ->); set_solver).
    pose proof (ring_in _ _ p Hr Hp) as Hinp. pose proof (ring_prev _ _ _ _ Hr) as Epv. rewrite (pv_at _ _ _ Ea), El in Epv.
    assert (Hax : a <> x) by (intros ->; apply Hx; left). assert (Hina : is_Some (fs !! a)) by done.
    rewrite (flow_deref_ok s fs a ha Es Ea), bind_Ok, (modify_ok s fs x _ Es Hin), bind_Ok. write_flow.
    erewrite flow_deref_ok; [|reflexivity|rewrite !list_lookup_alter_ne by done; exact Ea]. rewrite bind_Ok, Epv. do 2 write_flow.
    eexists. split; [reflexivity|]. split; [|by rewrite !body_alter].
    assert (Hpx : p <> x) by (intros ->; done).
    apply (ring_join (nx fs) (pv fs) _ _ _ _ _ p); try done.
    + rewrite nx_set_prev, nx_set_next, decide_True by (repeat apply lookup_alter_Some; done). done.
    + rewrite pv_set_prev, decide_False, pv_set_next, pv_set_next, pv_set_prev, decide_True by (repeat apply lookup_alter_Some; done). done.
    + rewrite nx_set_prev, nx_set_next, decide_False, nx_set_next, decide_True by (repeat apply lookup_alter_Some; done). done.
    + rewrite pv_set_prev, decide_True by (repeat apply lookup_alter_Some; done). done.
    + intros c Hcp Hcx. rewrite nx_set_prev, nx_set_next, decide_False, nx_set_next, decide_False, nx_set_prev
        by (repeat apply lookup_alter_Some; done). done.
    + intros c Hca Hcx. rewrite pv_set_prev, decide_False, pv_set_next, pv_set_next, pv_set_prev, decide_False
        by (repeat apply lookup_alter_Some; done). done.
Qed.

Lemma unlink_flow_ok s fs x a l :
  drr s = Some fs -> ring (nx fs) (pv fs) (x :: a :: l) ->
  exists fs', unlink_flow (Some x) s = Ok (s <| drr := Some fs' |>) /\
    ring (nx fs') (pv fs') (a :: l) /\ body <$> fs' = body <$> fs /\ fs' !! x = fs !! x.
Proof.
  intros Es Hr. destruct (ring_in _ _ x Hr ltac:(left)) as [f Ef]. destruct (last (a :: l)) as [p|] eqn:El; [|by apply last_None in El].
  assert (Hp : p ∈ a :: l) by (apply last_Some in El as (l' & ->); set_solver).
  pose proof (ring_in _ _ p Hr ltac:(by right)) as Hinp. pose proof (ring_in _ _ a Hr ltac:(right; left)) as Hina.
  pose proof (ring_prev _ _ _ _ Hr) as Epv. pose proof (ring_next _ _ _ _ Hr) as Enx. cbn [last] in El, Epv.
  rewrite (pv_at _ _ _ Ef), El in Epv. rewrite (nx_at _ _ _ Ef) in Enx. cbn [app head] in Enx.
  pose proof (proj1 Hr) as Hx. apply NoDup_cons in Hx as [Hx _].
  assert (Hax : a <> x) by (intros ->; apply Hx; left). assert (Hpx : p <> x) by (intros ->; done).
  unfold unlink_flow. rewrite (flow_deref_ok s fs x f Es Ef), bind_Ok, Enx, (modify_ok s fs a _ Es Hina), bind_Ok.
  erewrite flow_deref_ok; [|reflexivity|by rewrite list_lookup_alter_ne]. rewrite bind_Ok, Epv, Enx.
  erewrite modify_ok; [|reflexivity|by apply lookup_alter_Some]. eexists. split; [reflexivity|].
  split; [|by rewrite !body_alter, !list_lookup_alter_ne].
  eapply (ring_leave (nx fs) (pv fs)); [exact Hr|exact El|..].
  - rewrite nx_set_next, decide_True by (repeat apply lookup_alter_Some; done). done.
  - rewrite pv_set_next, pv_set_prev, decide_True by done. done.
  - intros c Hc. rewrite nx_set_next, decide_False, nx_set_prev by (try apply lookup_alter_Some; done). done.
  - intros c Hc. rewrite pv_set_next, pv_set_prev, decide_False by done. done.
Qed.

(** A flow [x] leaves the ring, wherever it is. *)
Lemma idle_ok s fs l1 x l2 :
  drr s = Some fs -> ring (nx fs) (pv fs) (l1 ++ x :: l2) ->
  exists fs', idle (Some x) (head (l1 ++ x :: l2)) s = Ok (head (l1 ++ l2), s <| drr := Some fs' |>) /\
    ring (nx fs') (pv fs') (l1 ++ l2) /\ body <$> fs' = body <$> fs.
Proof.
  intros Es Hr. pose proof (ring_rotate _ _ _ _ Hr) as Hr2. cbn [app] in Hr2.
  destruct (ring_in _ _ x Hr ltac:(set_solver)) as [f Ef]. unfold idle.
  pose proof (ring_next _ _ _ _ Hr2) as Enx. rewrite (nx_at _ _ _ Ef) in Enx.
  destruct (l2 ++ l1) as [|a l] eqn:El.
  - apply app_eq_nil in El as [-> ->]. cbn [app head] in *. rewrite decide_True, (flow_deref_ok s fs x f Es Ef), bind_Ok, decide_True by done.
    exists fs. split; [by destruct s; cbn in *; subst|]. split; [by split; [constructor|]|done].
  - assert (Hne : head (l1 ++ l2) = head (l1 ++ l2)) by done.
    destruct (unlink_flow_ok s fs x a l Es Hr2) as (fs' & Eu & Hr' & Hb & Ex). rewrite <- El in Hr'.
    apply ring_rotate in Hr'. exists fs'. split; [|done]. destruct Hr as [Hn _].
    destruct l1 as [|b l1]; cbn [app head] in *.
    + rewrite decide_True, (flow_deref_ok s fs x f Es Ef), bind_Ok by done. rewrite app_nil_r in El. subst l2. cbn [app head] in *.
      rewrite decide_False by (rewrite Enx; intros [= ->]; apply NoDup_cons in Hn as [Hn _]; apply Hn; left).
      rewrite Eu, bind_Ok. erewrite flow_deref_ok; [|reflexivity|by rewrite Ex]. by rewrite bind_Ok, Enx.
    + rewrite decide_False, Eu by (intros [= ->]; apply NoDup_cons in Hn as [Hn _]; apply Hn; set_solver). done.
Qed.
