(* ===== verification/RoundRobin.v ===== *)
(** Deficit round robin as a step relation on lists of packets, the refinement
    of it by the code of Drr, and what it promises: order, no packet lost or
    left behind, fair shares. *)
From stdpp Require Import gmap.
From S2P Require Import Prelude PacketQueue Drr.

(** * Definitions *)

(** What waits in a flow, what it may still send in this round, and whether it
    has had its quantum. *)
Record row := mk_row {
  waiting : list Z;
  credit : Z;
  served : Z;
}.

(** The flows with packets, the one in turn first, and all flows. *)
Record sched := mk_sched {
  rr : list nat;
  rows : list row;
}.

Inductive label : Type :=
  | LArrive (i : nat) (p : Z)
  | LDrop (i : nat) (p : Z)
  | LPass (i : nat)
  | LSend (i : nat) (p : Z).

#[global] Instance label_eq_dec : EqDecision label.
Proof. solve_decision. Defined.

(** The packets of all flows. *)
Definition queued (a : sched) : list Z := concat (waiting <$> rows a).

Section Steps.
(** The sizes of the packets, and the quantum. *)
Context (sz : Z -> Z) (q : Z).

Definition bytes (l : list Z) : Z := foldr (fun p n => sz p + n) 0 l.
(** The credit of the flow in turn. *)
Definition budget (d t : Z) : Z := if t =? 0 then d + q else d.

(** A packet arrives at an idle flow, or at one that waits; the longest flow
    drops its first packet; the flow in turn cannot afford its first packet,
    and the turn passes; or it can, and sends it. *)
Inductive rr_step : sched -> label -> sched -> Prop :=
  | step_first a i p d t :
      rows a !! i = Some (mk_row [] d t) ->
      rr_step a (LArrive i p) (mk_sched (rr a ++ [i]) (<[i := mk_row [p] 0 t]> (rows a)))
  | step_more a i p l d t :
      rows a !! i = Some (mk_row l d t) -> l <> [] ->
      rr_step a (LArrive i p) (mk_sched (rr a) (<[i := mk_row (l ++ [p]) d t]> (rows a)))
  | step_drop a r1 i r2 p l d t :
      rr a = r1 ++ i :: r2 -> rows a !! i = Some (mk_row (p :: l) d t) ->
      (forall j r, j ∈ rr a -> rows a !! j = Some r -> bytes (waiting r) <= bytes (p :: l)) ->
      rr_step a (LDrop i p) (mk_sched (match l with [] => r1 ++ r2 | _ => rr a end) (<[i := mk_row l d t]> (rows a)))
  | step_pass a i r p l d t :
      rr a = i :: r -> rows a !! i = Some (mk_row (p :: l) d t) -> budget d t < sz p ->
      rr_step a (LPass i) (mk_sched (r ++ [i]) (<[i := mk_row (p :: l) (budget d t) 0]> (rows a)))
  | step_send a i r p l d t :
      rr a = i :: r -> rows a !! i = Some (mk_row (p :: l) d t) -> sz p <= budget d t ->
      rr_step a (LSend i p)
        (mk_sched (match l with [] => r | _ => i :: r end)
           (<[i := match l with [] => mk_row [] 0 0 | _ => mk_row l (budget d t - sz p) 1 end]> (rows a))).

Inductive rr_steps : sched -> list label -> sched -> Prop :=
  | steps_nil a : rr_steps a [] a
  | steps_cons a x b xs c : rr_step a x b -> rr_steps b xs c -> rr_steps a (x :: xs) c.

(** The longest flows drop, each of them because more than [lim] bytes wait, until
    at most [lim] bytes do; and an arrival, with the drops it causes. *)
Inductive rr_drops (lim : Z) : sched -> list (nat * Z) -> sched -> Prop :=
  | drops_done a : bytes (queued a) <= lim -> rr_drops lim a [] a
  | drops_more a j p b ds c :
      lim < bytes (queued a) -> rr_step a (LDrop j p) b -> rr_drops lim b ds c -> rr_drops lim a ((j, p) :: ds) c.
Definition rr_arrival (lim : Z) (a : sched) (i : nat) (p : Z) (ds : list (nat * Z)) (b : sched) : Prop :=
  exists a1, rr_step a (LArrive i p) a1 /\ rr_drops lim a1 ds b.

(** What every step keeps. *)
Record rr_ok (a : sched) : Prop := mk_rr_ok {
  ro_ring : NoDup (rr a);
  ro_active : forall i, i ∈ rr a <-> exists r, rows a !! i = Some r /\ waiting r <> [];
  ro_nodup : NoDup (queued a);
  ro_null : 0 ∉ queued a;
  ro_pos : forall p, p ∈ queued a -> 0 < sz p;
  ro_rows : forall i r, rows a !! i = Some r -> 0 <= credit r /\ (served r = 0 \/ served r = 1);
}.
End Steps.

(** ** The code stands for such a state *)

Definition flows (s : drr_queue) : list flow :=
  match drr s with Some fs => fs | None => replicate (Z.to_nat (buckets_ s)) new_flow end.

Record flow_ok (m : memory) (f : flow) (r : row) : Prop := mk_flow_ok {
  fo_holds : holds m (pq f) (waiting r);
  fo_pkts : pkts f = Z.of_nat (length (waiting r));
  fo_bcount : bcount f = bytes (size_of m) (waiting r);
  fo_credit : deficitCounter f = credit r;
  fo_served : turn f = served r;
}.

Record refines (s : drr_queue) (a : sched) : Prop := mk_refines {
  rf_flows : Forall2 (flow_ok (mem s)) (flows s) (rows a);
  rf_buckets : Z.of_nat (length (rows a)) = buckets_ s;
  rf_array : rr a <> [] -> is_Some (drr s);
  rf_ring : ring (nx (flows s)) (pv (flows s)) (rr a);
  rf_curr : curr s = head (rr a);
  rf_flwcnt : flwcnt s = Z.of_nat (length (rr a));
  rf_pktcnt : pktcnt s = Z.of_nat (length (queued a));
  rf_bytecnt : bytecnt s = bytes (size_of (mem s)) (queued a);
}.

(** The settings stay, and the sizes and addresses of the packets. *)
Definition same_drr (s s' : drr_queue) : Prop :=
  buckets_ s' = buckets_ s /\ blimit_ s' = blimit_ s /\ quantum_ s' = quantum_ s /\ mask_ s' = mask_ s /\
  dom (mem s') = dom (mem s) /\ (forall p, size_of (mem s') p = size_of (mem s) p) /\
  (forall p, saddr_of (mem s') p = saddr_of (mem s) p).

(** The flow of a packet that comes from a node with address [addr]. *)
Definition index_of (buckets mask addr : Z) : nat :=
  let i := if nz mask then Z.land addr 65520 else addr in
  Z.to_nat (Z.rem (Z.rem (i + i / 256 - i / 16 - 1) 16777215 + 1) buckets).
Definition flow_index (s : drr_queue) (p : Z) : nat := index_of (buckets_ s) (mask_ s) (saddr_of (mem s) p).

(** * Lemmas *)

(** ** Lists of packets *)

Lemma bytes_cons sz p l : bytes sz (p :: l) = sz p + bytes sz l.
Proof. done. Qed.

Lemma bytes_app sz l1 l2 : bytes sz (l1 ++ l2) = bytes sz l1 + bytes sz l2.
Proof. induction l1 as [|a l1 IH]; [done|]. cbn [app bytes foldr] in *. unfold bytes in *. lia. Qed.

#[global] Instance bytes_proper sz : Proper ((≡ₚ) ==> (=)) (bytes sz).
Proof. intros l l' H. induction H; cbn [bytes foldr] in *; unfold bytes in *; cbn [foldr]; lia. Qed.

Lemma bytes_ext sz sz' l : (forall p, sz' p = sz p) -> bytes sz' l = bytes sz l.
Proof. intros H. unfold bytes. induction l as [|a l IH]; cbn [foldr]; [done|]. by rewrite H, IH. Qed.

Lemma bytes_pos sz l : (forall p, p ∈ l -> 0 < sz p) -> 0 <= bytes sz l /\ (bytes sz l = 0 -> l = []).
Proof.
  intros H. induction l as [|a l IH]; [done|]. assert (0 < sz a) by (apply H; left).
  destruct IH as [IH _]; [intros p Hp; apply H; by right|]. unfold bytes in *. cbn [foldr]. split; [lia|]. lia.
Qed.

(** The queue of a flow among the others. *)
Lemma rows_at (rs : list row) i r :
  rs !! i = Some r -> exists R, concat (waiting <$> rs) ≡ₚ waiting r ++ R /\
    forall r', concat (waiting <$> <[i := r']> rs) ≡ₚ waiting r' ++ R.
Proof.
  intros (l1 & l2 & -> & ->)%list_elem_of_split_length.
  exists (concat (waiting <$> l1) ++ concat (waiting <$> l2)). split; [|intros r'; rewrite insert_app_r_alt, Nat.sub_diag by done; cbn [list_insert insert]];
    rewrite fmap_app, concat_app; cbn; rewrite !app_assoc; apply Permutation_app_tail, Permutation_app_comm.
Qed.

Lemma rows_elem (rs : list row) i r p : rs !! i = Some r -> p ∈ waiting r -> p ∈ concat (waiting <$> rs).
Proof. intros E Hp. destruct (rows_at rs i r E) as (R & -> & _). set_solver. Qed.

Lemma rows_disjoint (rs : list row) i j r r' p :
  NoDup (concat (waiting <$> rs)) -> rs !! i = Some r -> rs !! j = Some r' -> i <> j -> p ∈ waiting r -> p ∉ waiting r'.
Proof.
  intros Hn Ei Ej Hij Hp Hp'. destruct (rows_at rs i r Ei) as (R & ER & Hins). rewrite ER in Hn.
  apply NoDup_app in Hn as (_ & Hn & _). apply (Hn p Hp). specialize (Hins (mk_row [] 0 0)). cbn [waiting app] in Hins. rewrite <- Hins.
  apply (rows_elem _ j r'); [by rewrite list_lookup_insert_ne|done].
Qed.

(** ** Flows *)

Lemma alter_insert (fs : list flow) i f g : fs !! i = Some f -> alter g i fs = <[i := g f]> fs.
Proof.
  intros E. apply list_eq. intros j. rewrite list_lookup_alter. case_decide as Hj.
  - subst j. rewrite E, list_lookup_insert_eq; [done|by eapply lookup_lt_Some].
  - by rewrite list_lookup_insert_ne.
Qed.

Lemma flow_frame m m' f r :
  flow_ok m f r -> (forall p, p ∈ waiting r -> m' !! p = m !! p) -> (forall p, size_of m' p = size_of m p) -> flow_ok m' f r.
Proof.
  intros [Hh Hp Hb Hc Hs] Hm Hsz. constructor; [by apply (holds_frame m)|done| |done|done]. by rewrite Hb, (bytes_ext (size_of m) (size_of m')).
Qed.

(** One flow changes, and with it the links of its packets. *)
Lemma flows_alter m m' fs rs i f r r' g l :
  Forall2 (flow_ok m) fs rs -> fs !! i = Some f -> rs !! i = Some r -> flow_ok m' (g f) r' ->
  NoDup (concat (waiting <$> rs)) -> only_links l m m' -> (forall p, p ∈ l -> p ∈ waiting r \/ p ∉ concat (waiting <$> rs)) ->
  Forall2 (flow_ok m') (alter g i fs) (<[i := r']> rs).
Proof.
  intros HF Ef Er Hok Hn (Hsz & Hout & _) Hl. rewrite (alter_insert fs i f g Ef). apply Forall2_lookup. intros j.
  pose proof (proj1 (Forall2_lookup _ _ _) HF j) as Hj. destruct (decide (i = j)) as [<-|Hij].
  - rewrite !list_lookup_insert_eq by (by eapply lookup_lt_Some). by constructor.
  - rewrite !list_lookup_insert_ne by done. destruct (rs !! j) as [rj|] eqn:Ej; [|by inversion Hj; constructor].
    inversion Hj as [fj ? Hfj E1|]; subst. constructor. apply (flow_frame m); [done| |done]. intros p Hp. apply Hout. intros Hpl.
    destruct (Hl p Hpl) as [Hpi|Hpq]; [by apply (rows_disjoint rs i j r rj p Hn Er Ej Hij)|]. apply Hpq. by apply (rows_elem rs j rj).
Qed.

Lemma flow_body m f f' r : body f' = body f -> flow_ok m f r -> flow_ok m f' r.
Proof. destruct f, f'. unfold body. cbn. intros [= -> -> -> -> -> ->] [Hh Hp Hb Hc Hs]. by constructor. Qed.

Lemma flows_body m fs fs' rs : body <$> fs' = body <$> fs -> Forall2 (flow_ok m) fs rs -> Forall2 (flow_ok m) fs' rs.
Proof.
  intros Hb HF. revert fs' Hb. induction HF as [|f r fs rs Hf HF IH]; intros [|f' fs'] Hb; try done.
  rewrite !fmap_cons in Hb. assert (H1 : body f' = body f) by congruence. assert (H2 : body <$> fs' = body <$> fs) by congruence.
  constructor; [by apply (flow_body m f)|by apply IH].
Qed.

Lemma ring_alter fs i g l :
  ring (nx fs) (pv fs) l -> (forall f, next (g f) = next f /\ prev (g f) = prev f) -> ring (nx (alter g i fs)) (pv (alter g i fs)) l.
Proof.
  intros Hr Hg. apply (ring_links_ext (nx fs) (pv fs)); [done|..]; intros c; unfold nx, pv; rewrite list_lookup_alter; case_decide as Hc;
    [|done| |done]; subst c; destruct (fs !! i) as [f|]; cbn; [apply Hg|done|apply Hg|done].
Qed.

Lemma size_of_access m p x : m !! p = Some x -> size_of m p = p_size x /\ saddr_of m p = p_saddr x.
Proof. intros E. unfold size_of, saddr_of. by rewrite E. Qed.

Lemma index_range buckets mask addr :
  0 < buckets -> 0 <= addr < 2147483648 ->
  let i := if nz mask then Z.land addr 65520 else addr in
  0 <= i < 2147483648 /\ 0 <= Z.rem (Z.rem (i + i / 256 - i / 16 - 1) 16777215 + 1) buckets < buckets.
Proof.
  intros Hb Ha i. assert (Hi : 0 <= i < 2147483648).
  { subst i. destruct (nz mask); [|done]. split; [apply Z.land_nonneg; lia|].
    destruct (Z.eq_dec (Z.land addr 65520) 0) as [->|]; [done|].
    assert (0 <= Z.land addr 65520) by (apply Z.land_nonneg; lia). change 2147483648 with (2 ^ 31).
    apply Z.log2_lt_pow2; [lia|]. pose proof (Z.log2_land addr 65520 ltac:(lia) ltac:(lia)).
    change (Z.log2 65520) with 15 in *. lia. }
  split; [done|]. clearbody i. assert (Ht : -1 <= i + i / 256 - i / 16 - 1) by (Z.div_mod_to_equations; lia).
  apply Z.rem_bound_pos; [|done]. set (t := i + i / 256 - i / 16 - 1) in *. clearbody t.
  destruct (Z.eq_dec t (-1)) as [->|]; [done|]. pose proof (Z.rem_bound_pos t 16777215 ltac:(lia) ltac:(lia)). lia.
Qed.

Lemma bucket_ok s p x :
  mem s !! p = Some x -> 0 <= p_saddr x < 2147483648 -> 0 < buckets_ s ->
  bucket p s = Ok (Some (flow_index s p)) /\ Z.of_nat (flow_index s p) < buckets_ s.
Proof.
  intros Ex Ha Hb. destruct (size_of_access _ _ _ Ex) as [_ Es]. unfold flow_index, index_of. rewrite Es.
  destruct (index_range (buckets_ s) (mask_ s) (p_saddr x) Hb Ha) as [Hi Hr].
  unfold bucket, hash, address. rewrite (access_ok _ _ _ Ex), !bind_Ok. revert Hi Hr.
  set (i := if nz (mask_ s) then Z.land (p_saddr x) 65520 else p_saddr x). clearbody i. intros Hi Hr.
  assert (E : s32 (s32 (i + i ≫ 8) + Z.lnot (i ≫ 4)) = i + i / 256 - i / 16 - 1).
  { rewrite !Z.shiftr_div_pow2 by lia. unfold Z.lnot. change (2 ^ 8) with 256. change (2 ^ 4) with 16. c_lia. }
  rewrite E. set (h := Z.rem (i + i / 256 - i / 16 - 1) 16777215 + 1) in *. clearbody h.
  destruct (Z.eqb_spec (buckets_ s) 0); [lia|]. destruct (Z.ltb_spec (Z.rem h (buckets_ s)) 0); [lia|]. split; [done|lia].
Qed.

Lemma same_drr_refl s : same_drr s s.
Proof. done. Qed.
Lemma same_drr_trans s1 s2 s3 : same_drr s1 s2 -> same_drr s2 s3 -> same_drr s1 s3.
Proof.
  intros (? & ? & ? & ? & ? & Ha & Hb) (? & ? & ? & ? & ? & Hc & Hd).
  unfold same_drr. split_and!; congruence.
Qed.

Lemma with_flows_ok s a :
  refines s a -> refines (with_flows s) a /\ drr (with_flows s) = Some (flows s) /\ same_drr s (with_flows s) /\
    mem (with_flows s) = mem s /\ dropped (with_flows s) = dropped s.
Proof.
  intros [HF Hbk Har Hring Hc H1 H2 H3]. unfold with_flows, flows in *. destruct (drr s) as [fs|] eqn:E.
  - split; [|done]. constructor; unfold flows; by rewrite ?E.
  - split; [|done]. by constructor.
Qed.

Lemma row_at s a i : refines s a -> Z.of_nat i < buckets_ s -> exists f l d t,
  flows s !! i = Some f /\ rows a !! i = Some (mk_row l d t) /\ flow_ok (mem s) f (mk_row l d t).
Proof.
  intros Hs Hi. destruct (lookup_lt_is_Some_2 (rows a) i) as [[l d t] Er]; [pose proof (rf_buckets _ _ Hs); lia|].
  pose proof (proj1 (Forall2_lookup _ _ _) (rf_flows _ _ Hs) i) as H. rewrite Er in H. inversion H as [f ? Hf E|]; subst.
  by exists f, l, d, t.
Qed.

Lemma flows_some s fs : drr s = Some fs -> flows s = fs.
Proof. intros E. unfold flows. by rewrite E. Qed.

(** The counts after a change of one queue. *)
Lemma queued_at a i r :
  rows a !! i = Some r -> exists R, queued a ≡ₚ waiting r ++ R /\
    forall l r', queued (mk_sched l (<[i := r']> (rows a))) ≡ₚ waiting r' ++ R.
Proof. intros E. destruct (rows_at _ _ _ E) as (R & H1 & H2). exists R. split; [done|]. intros l r'. apply H2. Qed.

(** The flow joins the ring, if it had nothing. *)
Lemma join_ok q s a i p l d t s2 fs2 f2 :
  refines s a -> rr_ok (size_of (mem s)) a -> rows a !! i = Some (mk_row l d t) ->
  drr s2 = Some fs2 -> Forall2 (flow_ok (mem s2)) fs2 (<[i := mk_row (l ++ [p]) d t]> (rows a)) -> fs2 !! i = Some f2 ->
  ring (nx fs2) (pv fs2) (rr a) -> same_drr s s2 -> curr s2 = curr s -> flwcnt s2 = flwcnt s ->
  pktcnt s2 = pktcnt s + 1 -> bytecnt s2 = bytecnt s + size_of (mem s) p ->
  returns (if pkts f2 =? 1 then
    '(c, s) ← activate (Some i) (curr s2) s2;
    s ← modify (Some i) (fun f => f <| deficitCounter := 0 |>) (s <| curr := c |>);
    Ok (s <| flwcnt := flwcnt s + 1 |>)
  else Ok s2) (fun s' => exists a', rr_step (size_of (mem s)) q a (LArrive i p) a' /\
    refines s' a' /\ same_drr s s' /\ dropped s' = dropped s2).
Proof.
  intros Hs Hok Er E2 HF Ef2 Hr Hsame Ec Efl Epk Eby. destruct (queued_at a i _ Er) as (R & HR & Hins).
  assert (Hq : forall L d', queued (mk_sched L (<[i := mk_row (l ++ [p]) d' t]> (rows a))) ≡ₚ p :: queued a).
  { intros L d'. rewrite Hins, HR. cbn [waiting]. rewrite <- app_assoc. symmetry. apply Permutation_middle. }
  assert (Hsz : forall p, size_of (mem s2) p = size_of (mem s) p) by apply Hsame.
  assert (Hby : bytecnt s2 = bytes (size_of (mem s2)) (p :: queued a)).
  { rewrite (bytes_ext (size_of (mem s)) (size_of (mem s2))), Eby, (rf_bytecnt _ _ Hs), bytes_cons by done. lia. }
  assert (Hf2 : flow_ok (mem s2) f2 (mk_row (l ++ [p]) d t)).
  { pose proof (proj1 (Forall2_lookup _ _ _) HF i) as H. rewrite Ef2, list_lookup_insert_eq in H by (by eapply lookup_lt_Some).
    by inversion H. }
  rewrite (fo_pkts _ _ _ Hf2). cbn [waiting]. destruct l as [|b l]; cbn [app length] in *.
  - rewrite Z.eqb_refl, Ec, (rf_curr _ _ Hs). assert (Hi : i ∉ rr a).
    { intros (r & E & Hr0)%(ro_active _ _ Hok). rewrite Er in E. by injection E as <-. }
    destruct (activate_ok s2 fs2 (rr a) i E2 Hr Hi ltac:(by exists f2)) as (fs3 & -> & Hr3 & Hb3). rewrite bind_Ok.
    assert (Ei3 : exists f3, fs3 !! i = Some f3 /\ body f3 = body f2).
    { assert (E : (body <$> fs3) !! i = Some (body f2)) by (by rewrite Hb3, list_lookup_fmap, Ef2).
      rewrite list_lookup_fmap in E. destruct (fs3 !! i) as [f3|]; [|done]. apply (inj Some) in E. by exists f3. }
    destruct Ei3 as (f3 & Ef3 & Hf3). erewrite modify_ok; [|reflexivity|by exists f3]. rewrite bind_Ok. cbn [returns].
    eexists. split; [by apply (step_first _ _ a i p d t)|]. split; [|split; [exact Hsame|reflexivity]].
    assert (HF3 : Forall2 (flow_ok (mem s2)) (alter (fun f => f <| deficitCounter := 0 |>) i fs3) (<[i := mk_row [p] 0 t]> (rows a))).
    { rewrite (alter_insert _ _ _ _ Ef3), <- (list_insert_insert_eq (rows a) i (mk_row [p] 0 t) (mk_row [p] d t)).
      apply Forall2_insert; [by apply (flows_body _ fs2)|]. by destruct (flow_body _ _ f3 _ Hf3 Hf2). }
    constructor; cbn; try done.
    + destruct Hsame as [-> _]. by rewrite length_insert, (rf_buckets _ _ Hs).
    + by apply ring_alter.
    + rewrite Efl, (rf_flwcnt _ _ Hs), length_app. cbn. lia.
    + rewrite Epk, (rf_pktcnt _ _ Hs). specialize (Hq (rr a ++ [i]) 0). rewrite Hq. cbn. lia.
    + rewrite Hby. by specialize (Hq (rr a ++ [i]) 0) as <-.
  - destruct (Z.eqb_spec (Z.of_nat (S (length (l ++ [p])))) 1) as [H|_]; [rewrite length_app in H; cbn in H; lia|]. cbn [returns].
    eexists. split; [by apply (step_more _ _ a i p (b :: l) d t)|]. split; [|by split].
    constructor; cbn; rewrite ?(flows_some s2 fs2 E2); try done.
    + destruct Hsame as [-> _]. by rewrite length_insert, (rf_buckets _ _ Hs).
    + by rewrite Ec, (rf_curr _ _ Hs).
    + by rewrite Efl, (rf_flwcnt _ _ Hs).
    + rewrite Epk, (rf_pktcnt _ _ Hs). specialize (Hq (rr a) d). rewrite Hq. cbn. lia.
    + rewrite Hby. by specialize (Hq (rr a) d) as <-.
Qed.

Lemma drr_arrive_ok q s a p x :
  refines s a -> rr_ok (size_of (mem s)) a -> mem s !! p = Some x -> p <> 0 -> p ∉ queued a ->
  0 <= p_saddr x < 2147483648 -> 0 < buckets_ s ->
  returns (drr_arrive p s) (fun s' => exists a', rr_step (size_of (mem s)) q a (LArrive (flow_index s p) p) a' /\
    refines s' a' /\ same_drr s s' /\ dropped s' = dropped s).
Proof.
  intros Hs Hok Ex Hp0 Hp Ha Hb. unfold drr_arrive. rewrite (access_ok _ _ _ Ex), bind_Ok.
  destruct (with_flows_ok s a Hs) as (Hs1 & Edrr & Hset & Em & Ed). cbv zeta.
  assert (Ei : flow_index (with_flows s) p = flow_index s p).
  { destruct Hset as (E1 & _ & _ & E2 & _ & _ & E3). unfold flow_index. by rewrite E1, E2, E3. }
  rewrite <- Ei, <- Em, <- Ed in *. assert (Hb1 : 0 < buckets_ (with_flows s)) by (destruct Hset as [-> _]; done).
  assert (Hset' : forall s', same_drr (with_flows s) s' -> same_drr s s') by (intros s'; by apply same_drr_trans).
  revert Hs1 Edrr Ex Hb1 Hset' Hok. generalize (same_drr s) as P, (flows s) as fs, (with_flows s) as s1. clear Hs Hset Em Ed Ei Hb s.
  intros P fs s Hs E Ex Hb Hset Hok. destruct (bucket_ok s p x Ex Ha Hb) as [-> Hlt]. rewrite bind_Ok.
  destruct (row_at s a _ Hs Hlt) as (f & l & d & t & Ef & Er & Hf). rewrite (flows_some s fs E) in Ef.
  set (i := flow_index s p) in *. clearbody i. rewrite (modify_ok s fs i _ E) by done. rewrite bind_Ok.
  set (g := fun f0 : flow => if src f0 =? -1 then _ else f0).
  erewrite flow_deref_ok; [|reflexivity|rewrite list_lookup_alter_eq, Ef; reflexivity]. rewrite bind_Ok.
  assert (Eg : pq (g f) = pq f /\ pkts (g f) = pkts f /\ bcount (g f) = bcount f /\ deficitCounter (g f) = deficitCounter f /\ turn (g f) = turn f)
    by (unfold g; by case_match).
  destruct Eg as (Eg1 & Eg2 & Eg3 & Eg4 & Eg5). change (mem (s <| drr := Some (alter g i fs) |>)) with (mem s). rewrite Eg1.
  pose proof (fo_holds _ _ _ Hf) as Hh. cbn [waiting] in Hh.
  assert (Hpl : p ∉ l) by (intros Hpl; apply Hp; by apply (rows_elem _ i _ p Er)).
  eapply returns_bind; [by apply (pq_enque_ok (mem s) (pq f) l p x)|]. intros [[pt m] q'] (_ & Hq' & Hlinks).
  cbv beta iota. erewrite modify_ok; [|reflexivity|apply lookup_alter_Some; by exists f]. rewrite bind_Ok. cbv zeta.
  rewrite list_alter_alter_eq. set (g2 := (fun f : flow => _) ∘ g).
  destruct (size_of_access _ _ _ Ex) as [Esz _].
  assert (Hf2 : flow_ok m (g2 f) (mk_row (l ++ [p]) d t)).
  { destruct Hf as [_ F1 F2 F3 F4]. cbn [waiting credit served] in *. destruct Hlinks as (Hsz & _).
    constructor; cbn [waiting credit served]; [done|..]; unfold g2; cbn; rewrite ?Eg2, ?Eg3, ?Eg4, ?Eg5; try done.
    - rewrite F1, length_app. cbn. lia.
    - rewrite F2, bytes_app, (bytes_ext (size_of (mem s)) (size_of m)), (bytes_ext (size_of (mem s)) (size_of m) [p]) by done. cbn. lia. }
  assert (Hg2 : forall f, next (g2 f) = next f /\ prev (g2 f) = prev f).
  { intros f0. unfold g2, g. cbn. by case_match. }
  erewrite flow_deref_ok; [|reflexivity|rewrite list_lookup_alter_eq, Ef; reflexivity]. rewrite bind_Ok.
  eapply returns_mono; [eapply (join_ok q s a i p l d t _ (alter g2 i fs) (g2 f))|]; try done.
  - apply (flows_alter (mem s) m fs (rows a) i f (mk_row l d t) _ g2 (p :: l)); [|done|done|exact Hf2|apply Hok|exact Hlinks|].
    + rewrite <- (flows_some s fs E). apply Hs.
    + intros p' [->|Hp']%elem_of_cons; [by right|by left].
  - by rewrite list_lookup_alter_eq, Ef.
  - apply ring_alter; [|done]. rewrite <- (flows_some s fs E). apply Hs.
  - destruct Hlinks as (Hsz & _ & Hd & Had). split_and!; done.
  - cbn. by rewrite Esz.
  - intros s' (a' & Ha' & Hs' & Hsame & Hdr). exists a'. split; [done|]. split; [done|]. split; [by apply Hset|done].
Qed.

(** ** Leaving *)

Lemma max_walk_ok s fs c l1 l2 m fm :
  drr s = Some fs -> ring (nx fs) (pv fs) (l1 ++ l2) -> head (l1 ++ l2) = Some c -> m ∈ l1 ++ l2 -> fs !! m = Some fm ->
  returns (max_walk (length l2) (Some m) (head (l2 ++ [c])) s) (fun o => exists i f, o = Some i /\ i ∈ l1 ++ l2 /\ fs !! i = Some f /\
    bcount fm <= bcount f /\ forall j fj, j ∈ l2 -> fs !! j = Some fj -> bcount fj <= bcount f).
Proof.
  intros E. revert l1 m fm. induction l2 as [|b l2 IH]; intros l1 m fm Hr Hc Hm Em; cbn [length max_walk app head].
  - cbn [returns]. exists m, fm. split_and!; try done. by intros j fj ?%elem_of_nil.
  - destruct (ring_in fs _ b Hr ltac:(set_solver)) as [fb Eb].
    rewrite (flow_deref_ok s fs m fm E Em), (flow_deref_ok s fs b fb E Eb), !bind_Ok.
    assert (En : next fb = head (l2 ++ [c])).
    { pose proof (ring_rotate _ _ _ _ Hr) as Hr'. cbn [app] in Hr'. apply ring_next in Hr'. rewrite (nx_at _ _ _ Eb) in Hr'. rewrite Hr'.
      destruct l2; [|done]. by destruct l1. }
    rewrite En. specialize (IH (l1 ++ [b])). rewrite <- app_assoc in IH. cbn [app] in IH.
    assert (Hpick : exists m' fm', (if bcount fm <? bcount fb then Some b else Some m) = Some m' /\ m' ∈ l1 ++ b :: l2 /\ fs !! m' = Some fm' /\
      bcount fm <= bcount fm' /\ bcount fb <= bcount fm').
    { case_cond; [exists b, fb|exists m, fm]; split_and!; try done; [set_solver|lia..]. }
    destruct Hpick as (m' & fm' & -> & Hm' & Em' & H1 & H2). eapply returns_mono; [by apply (IH m' fm')|].
    intros o (i & f & -> & Hi & Ei & Hf & Hall). exists i, f. split_and!; try done; [lia|].
    intros j fj [->|Hj]%elem_of_cons Ej; [|by apply (Hall j)]. rewrite Eb in Ej. injection Ej as <-. lia.
Qed.

Lemma getMaxflow_ok s a :
  refines s a -> rr_ok (size_of (mem s)) a -> rr a <> [] ->
  returns (getMaxflow (curr s) s) (fun o => exists r1 i r2 p l d t, o = Some i /\ rr a = r1 ++ i :: r2 /\
    rows a !! i = Some (mk_row (p :: l) d t) /\
    forall j r, j ∈ rr a -> rows a !! j = Some r -> bytes (size_of (mem s)) (waiting r) <= bytes (size_of (mem s)) (p :: l)).
Proof.
  intros Hs Hok Hne. destruct (rf_array _ _ Hs Hne) as [fs E]. pose proof (rf_ring _ _ Hs) as Hr. pose proof (rf_flows _ _ Hs) as HF.
  rewrite (flows_some s fs E) in *. unfold getMaxflow. rewrite (rf_curr _ _ Hs), (rf_flwcnt _ _ Hs), Nat2Z.id.
  destruct (rr a) as [|c L] eqn:EL; [done|]. destruct (ring_in fs _ c Hr ltac:(left)) as [fc Efc].
  eapply returns_mono; [apply (max_walk_ok s fs c [] (c :: L) c fc E Hr); [done|left|done]|].
  intros o (i & f & -> & Hi & Ef & _ & Hall). cbn [app] in Hi. rewrite <- EL in Hi. apply (ro_active _ _ Hok) in Hi as Hi'.
  destruct Hi' as ([[|p l] d t] & Er & Hw); [done|]. rewrite EL in Hi. apply list_elem_of_split in Hi as (r1 & r2 & E2).
  exists r1, i, r2, p, l, d, t. split; [done|]. split; [done|]. split; [done|]. intros j r Hj Ej.
  destruct (ring_in fs _ j Hr Hj) as [fj Efj]. specialize (Hall j fj Hj Efj).
  pose proof (proj1 (Forall2_lookup _ _ _) HF j) as Hrj. pose proof (proj1 (Forall2_lookup _ _ _) HF i) as Hri.
  rewrite Efj, Ej in Hrj. rewrite Ef, Er in Hri. inversion Hrj as [? ? Hoj|]; inversion Hri as [? ? Hoi|]; subst.
  by rewrite <- (fo_bcount _ _ _ Hoj), <- (fo_bcount _ _ _ Hoi : bcount f = bytes _ (p :: l)).
Qed.

(** The counters after a packet has been taken out. *)
Lemma removed_ok s a i p l d t d' t' L s4 fs4 :
  refines s a -> rows a !! i = Some (mk_row (p :: l) d t) ->
  drr s4 = Some fs4 -> mem s4 = mem s -> buckets_ s4 = buckets_ s ->
  Forall2 (flow_ok (mem s)) fs4 (<[i := mk_row l d' t']> (rows a)) -> ring (nx fs4) (pv fs4) L ->
  curr s4 = head L -> flwcnt s4 = Z.of_nat (length L) -> pktcnt s4 = pktcnt s - 1 -> bytecnt s4 = bytecnt s - size_of (mem s) p ->
  refines s4 (mk_sched L (<[i := mk_row l d' t']> (rows a))).
Proof.
  intros Hs Er E4 Em Eb HF Hr Ec Efl Epk Eby. destruct (queued_at a i _ Er) as (R & HR & Hins). cbn [waiting app] in HR.
  specialize (Hins L (mk_row l d' t')). cbn [waiting] in Hins.
  constructor; rewrite ?(flows_some s4 fs4 E4), ?Em, ?E4; try done.
  - cbn [rows]. by rewrite length_insert, Eb, (rf_buckets _ _ Hs).
  - rewrite Epk, (rf_pktcnt _ _ Hs), Hins, HR. cbn [length]. lia.
  - rewrite Eby, (rf_bytecnt _ _ Hs), Hins, HR, bytes_cons. lia.
Qed.

Lemma drop_max_ok q s a :
  refines s a -> rr_ok (size_of (mem s)) a -> rr a <> [] ->
  returns (drop_max s) (fun s' => exists i p a', rr_step (size_of (mem s)) q a (LDrop i p) a' /\
    refines s' a' /\ same_drr s s' /\ dropped s' = dropped s ++ [p]).
Proof.
  intros Hs Hok Hne. unfold drop_max. eapply returns_bind; [by apply (getMaxflow_ok s a)|].
  intros o (r1 & i & r2 & p & l & d & t & -> & ER & Er & Hmax).
  destruct (rf_array _ _ Hs Hne) as [fs E]. pose proof (rf_flows _ _ Hs) as HF. pose proof (rf_ring _ _ Hs) as Hr.
  rewrite (flows_some s fs E) in *. destruct (ring_in fs _ i Hr ltac:(rewrite ER; set_solver)) as [f Ef].
  pose proof (proj1 (Forall2_lookup _ _ _) HF i) as Hf. rewrite Ef, Er in Hf. inversion Hf as [? ? Hfl|]; subst. clear Hf.
  rewrite (flow_deref_ok s fs i f E Ef), bind_Ok. eapply returns_bind; [apply (pq_deque_ok _ _ _ (fo_holds _ _ _ Hfl))|].
  cbn [waiting]. intros [p' q'] [-> Hq']. cbv beta iota. rewrite (modify_ok s fs i _ E) by done. rewrite bind_Ok.
  assert (Hp : p ∈ queued a) by (eapply (rows_elem _ i); [exact Er|left]).
  destruct (seg_in _ _ _ _ p (ho_seg _ _ _ (fo_holds _ _ _ Hfl)) ltac:(left)) as [x Ex]. destruct (size_of_access _ _ _ Ex) as [Esz _].
  erewrite (access_ok p); [|exact Ex]. rewrite bind_Ok. erewrite modify_ok; [|reflexivity|by apply lookup_alter_Some].
  rewrite bind_Ok, list_alter_alter_eq. unfold drr_drop.
  destruct (Z.eqb_spec p 0) as [->|_]; [by destruct (ro_null _ _ Hok)|]. rewrite bind_Ok.
  erewrite modify_ok; [|reflexivity|by apply lookup_alter_Some]. rewrite bind_Ok, list_alter_alter_eq. cbv zeta.
  match goal with |- context [alter ?h i fs] => set (g := h) end.
  assert (Hg : flow_ok (mem s) (g f) (mk_row l d t)).
  { destruct Hfl as [_ F1 F2 F3 F4]. cbn [waiting credit served length] in *. rewrite bytes_cons in F2.
    constructor; cbn [waiting credit served]; [exact Hq'|unfold g; cbn; lia..]. }
  erewrite flow_deref_ok; [|reflexivity|rewrite list_lookup_alter_eq, Ef; reflexivity]. rewrite bind_Ok, (fo_pkts _ _ _ Hg). cbn [waiting].
  match goal with |- context [idle _ _ ?u] => set (s2 := u) end.
  assert (E2 : drr s2 = Some (alter g i fs)) by reflexivity.
  assert (Ec2 : curr s2 = head (r1 ++ i :: r2)) by (rewrite <- ER; apply Hs).
  assert (HF2 : Forall2 (flow_ok (mem s)) (alter g i fs) (<[i := mk_row l d t]> (rows a))).
  { rewrite (alter_insert _ _ _ _ Ef). by apply Forall2_insert. }
  assert (Hr2 : ring (nx (alter g i fs)) (pv (alter g i fs)) (r1 ++ i :: r2)) by (rewrite <- ER; by apply ring_alter).
  pose proof (removed_ok s a i p l d t d t) as Hrem. rewrite Esz in Hrem.
  pose proof (rf_flwcnt _ _ Hs) as Efl. rewrite ER, length_app in Efl. cbn [length] in Efl.
  pose proof (step_drop _ q a r1 i r2 p l d t ER Er Hmax) as Hstep.
  destruct l as [|b l]; cbn [length] in *.
  - rewrite Z.eqb_refl, Ec2. destruct (idle_ok s2 _ r1 i r2 E2 Hr2) as (fs3 & -> & Hr3 & Hb3). rewrite bind_Ok. cbn [returns].
    exists i, p, (mk_sched (r1 ++ r2) (<[i := mk_row [] d t]> (rows a))). split; [exact Hstep|]. split; [|by split].
    apply (Hrem _ _ fs3); try done; [by apply (flows_body _ _ _ _ Hb3)|].
    cbn. rewrite length_app. lia.
  - destruct (Z.eqb_spec (Z.of_nat (S (length l))) 0); [lia|]. cbn [returns].
    exists i, p, (mk_sched (rr a) (<[i := mk_row (b :: l) d t]> (rows a))). split; [exact Hstep|]. split; [|by split].
    apply (Hrem _ _ (alter g i fs)); try done; [by rewrite ER|by rewrite ER|by rewrite ER, length_app].
Qed.

(** ** The round of deque *)

(** A flow after its first packet has been taken. *)
Lemma flow_taken m f f' p l d t :
  flow_ok m f (mk_row (p :: l) d t) -> holds m (pq f') l -> pkts f' = pkts f - 1 -> bcount f' = bcount f - size_of m p ->
  flow_ok m f' (mk_row l (deficitCounter f') (turn f')).
Proof.
  intros [_ F1 F2 _ _] Hq H1 H2. cbn [waiting credit served length] in *. rewrite bytes_cons in F2.
  constructor; cbn [waiting credit served]; [done|lia|lia|done|done].
Qed.

(** The same when the pointer is computed from the state. *)
Lemma deref_at i c s fs f : c = Some i -> drr s = Some fs -> fs !! i = Some f -> deref c s = Ok f.
Proof. intros ->. apply flow_deref_ok. Qed.
Lemma modify_at i c s fs g : c = Some i -> drr s = Some fs -> is_Some (fs !! i) -> modify c g s = Ok (s <| drr := Some (alter g i fs) |>).
Proof. intros ->. apply modify_ok. Qed.

(** What a round starts from: the flow in turn, and its first packet. *)
Lemma head_ok s a :
  refines s a -> rr_ok (size_of (mem s)) a -> rr a <> [] -> exists fs i R f p l d t x,
  drr s = Some fs /\ rr a = i :: R /\ curr s = Some i /\ fs !! i = Some f /\ rows a !! i = Some (mk_row (p :: l) d t) /\
  flow_ok (mem s) f (mk_row (p :: l) d t) /\ mem s !! p = Some x /\ size_of (mem s) p = p_size x.
Proof.
  intros Hs Hok Hne. destruct (rf_array _ _ Hs Hne) as [fs E]. pose proof (rf_flows _ _ Hs) as HF. pose proof (rf_curr _ _ Hs) as Ec.
  pose proof (rf_ring _ _ Hs) as Hr. rewrite (flows_some s fs E) in *. destruct (rr a) as [|i R] eqn:ER; [done|].
  destruct (ring_in fs _ i Hr ltac:(left)) as [f Ef]. assert (Hi : i ∈ rr a) by (rewrite ER; left).
  apply (ro_active _ _ Hok) in Hi as ([[|p l] d t] & Er & Hw); [done|].
  pose proof (proj1 (Forall2_lookup _ _ _) HF i) as Hf. rewrite Ef, Er in Hf. inversion Hf as [? ? Hfl|]; subst.
  destruct (seg_in _ _ _ _ p (ho_seg _ _ _ (fo_holds _ _ _ Hfl)) ltac:(left)) as [x Ex].
  destruct (size_of_access _ _ _ Ex) as [Esz _]. by exists fs, i, R, f, p, l, d, t, x.
Qed.

Lemma lookup_first m q p l : holds m q (p :: l) -> lookup_ 0 m q = Ok p.
Proof.
  intros Hq. assert (H : returns (lookup_ 0 m q) (fun r => r = p)); [|by destruct (lookup_ 0 m q); [cbn in H; subst|]].
  unfold lookup_. rewrite (holds_head _ _ _ Hq). pose proof (holds_empty _ _ _ Hq) as Hp. rewrite (holds_head _ _ _ Hq) in Hp.
  eapply returns_bind; [apply (c_while_rule (fun '(a, n, b) => a = p /\ (b = false -> n = 0)) (fun '(_, _, b) => if b : bool then 0 else 1))|].
  - intros [[a n] [] ] [-> Hn] Hc; cbv beta iota in Hc; [by rewrite andb_false_r in Hc|]. rewrite Hn by done. by cbn.
  - done.
  - done.
  - intros [[a n] [] ] [[-> Hn] Hc]; [by cbn|]. cbv beta iota in Hc. by rewrite Hp in Hc.
Qed.

(** The state once the flow in turn has had its quantum. *)
Lemma grant_ok s fs i f r d t :
  drr s = Some fs -> curr s = Some i -> fs !! i = Some f -> flow_ok (mem s) f (mk_row r d t) -> exists g,
  grant s = Ok (s <| drr := Some (alter g i fs) |>) /\
  flow_ok (mem s) (g f) (mk_row r (budget (quantum_ s) d t) (if t =? 0 then 1 else t)) /\
  (forall f, next (g f) = next f /\ prev (g f) = prev f).
Proof.
  intros E Ec Ef [Hh H1 H2 H3 H4]. cbn [waiting credit served] in *. unfold grant. rewrite Ec, (flow_deref_ok s fs i f E Ef), bind_Ok, H4.
  unfold budget. destruct (t =? 0) eqn:Ht.
  - rewrite (modify_ok s fs i _ E) by done. eexists. split; [reflexivity|]. split; [|done].
    constructor; cbn; try done. by rewrite H3.
  - exists id. split; [|split; [by constructor|done]]. assert (Eid : alter id i fs = fs).
    { rewrite (alter_insert fs i f id Ef). by apply list_insert_id. }
    rewrite Eid. by destruct s; cbn in *; subst.
Qed.

(** A turn is passed: [s2] is the state after the quantum. *)
Lemma pass_ok s a i R p l d t d' t' f2 fs2 :
  refines s a -> rr a = i :: R -> rows a !! i = Some (mk_row (p :: l) d t) -> curr s = Some i ->
  fs2 !! i = Some f2 -> flow_ok (mem s) f2 (mk_row (p :: l) d' t') ->
  Forall2 (flow_ok (mem s)) fs2 (<[i := mk_row (p :: l) d' t']> (rows a)) -> ring (nx fs2) (pv fs2) (i :: R) ->
  returns (pass (s <| drr := Some fs2 |>)) (fun s' => same_drr s s' /\ dropped s' = dropped s /\
    refines s' (mk_sched (R ++ [i]) (<[i := mk_row (p :: l) d' 0]> (rows a)))).
Proof.
  intros Hs ER Er Ec Ef2 Hf2 HF2 Hr2. unfold pass.
  erewrite (modify_at i); [|exact Ec|reflexivity|done]. rewrite bind_Ok. set (g := fun f : flow => f <| turn := 0 |>).
  erewrite (deref_at i); [|exact Ec|reflexivity|by rewrite list_lookup_alter_eq, Ef2]. rewrite bind_Ok. cbn [returns].
  split; [done|]. split; [done|].
  pose proof (ring_next _ _ _ _ Hr2) as En. rewrite (nx_at _ _ _ Ef2) in En.
  destruct (queued_at a i _ Er) as (Q & HQ & Hins). specialize (Hins (R ++ [i]) (mk_row (p :: l) d' 0)). cbn [waiting] in *.
  assert (Ep : queued (mk_sched (R ++ [i]) (<[i:=mk_row (p :: l) d' 0]> (rows a))) ≡ₚ queued a) by by rewrite Hins, HQ.
  constructor; rewrite ?(flows_some _ (alter g i fs2)) by done; try done.
  - change (mem _) with (mem s). rewrite (alter_insert _ _ _ _ Ef2).
    rewrite <- (list_insert_insert_eq (rows a) i (mk_row (p :: l) d' 0) (mk_row (p :: l) d' t')).
    apply Forall2_insert; [done|]. destruct Hf2 as [? ? ? ? ?]. by constructor.
  - cbn [rows]. by rewrite length_insert, (rf_buckets _ _ Hs).
  - by apply ring_alter; [apply (ring_rotate _ _ [i])|].
  - cbn. rewrite (rf_flwcnt _ _ Hs), ER, length_app. cbn. lia.
  - cbn. by rewrite (rf_pktcnt _ _ Hs), Ep.
  - rewrite Ep. apply Hs.
Qed.

(** What the flow in turn is left with. *)
Definition sent_row (l : list Z) (d : Z) (t : Z) : row := match l with [] => mk_row [] 0 0 | _ => mk_row l d t end.

(** The first packet is sent: [s2] is the state after the quantum. *)
Lemma send_first_ok s a i R p l d t d' t' f2 fs2 x :
  refines s a -> rr a = i :: R -> rows a !! i = Some (mk_row (p :: l) d t) -> curr s = Some i ->
  fs2 !! i = Some f2 -> flow_ok (mem s) f2 (mk_row (p :: l) d' t') ->
  Forall2 (flow_ok (mem s)) fs2 (<[i := mk_row (p :: l) d' t']> (rows a)) -> ring (nx fs2) (pv fs2) (i :: R) ->
  size_of (mem s) p = p_size x ->
  returns (send_first x (s <| drr := Some fs2 |>)) (fun '(pkt, s') => pkt = p /\ same_drr s s' /\ dropped s' = dropped s /\
    refines s' (mk_sched (match l with [] => R | _ => i :: R end) (<[i := sent_row l (d' - p_size x) t']> (rows a)))).
Proof.
  intros Hs ER Er Ec Ef2 Hf2 HF2 Hr2 Esz. unfold send_first.
  erewrite (modify_at i); [|exact Ec|reflexivity|done]. rewrite bind_Ok.
  erewrite (deref_at i); [|exact Ec|reflexivity|rewrite list_lookup_alter_eq, Ef2; reflexivity]. rewrite bind_Ok.
  eapply returns_bind; [apply (pq_deque_ok _ _ _ (fo_holds _ _ _ Hf2))|]. cbn [waiting]. intros [p' q'] [-> Hq']. cbv beta iota.
  erewrite (modify_at i); [|exact Ec|reflexivity|by apply lookup_alter_Some]. rewrite bind_Ok.
  erewrite (modify_at i); [|exact Ec|reflexivity|by repeat apply lookup_alter_Some]. rewrite bind_Ok, !list_alter_alter_eq. cbv zeta.
  match goal with |- context [alter ?h i fs2] => set (g := h) end.
  erewrite (deref_at i); [|exact Ec|reflexivity|rewrite list_lookup_alter_eq, Ef2; reflexivity]. rewrite bind_Ok.
  match goal with |- context [modify _ _ ?u] => set (s3 := u) end.
  assert (E3 : drr s3 = Some (alter g i fs2)) by reflexivity. assert (Ec3 : curr s3 = Some i) by exact Ec.
  assert (Hg : flow_ok (mem s) (g f2) (mk_row l (d' - p_size x) t')).
  { pose proof (flow_taken _ f2 (g f2) p l _ _ Hf2 Hq' eq_refl) as H. rewrite Esz in H. specialize (H eq_refl).
    destruct Hf2 as [_ _ _ F3 F4]. cbn in F3, F4, H. by rewrite F3, F4 in H. }
  rewrite (fo_pkts _ _ _ Hg). cbn [waiting].
  pose proof (removed_ok s a i p l d t) as Hrem. rewrite Esz in Hrem.
  pose proof (rf_flwcnt _ _ Hs) as Efl. rewrite ER in Efl. cbn [length] in Efl.
  destruct l as [|b l]; cbn [length sent_row] in *.
  - rewrite Z.eqb_refl, (modify_at i _ _ _ _ Ec3 E3), bind_Ok by (by apply lookup_alter_Some).
    erewrite (modify_at i); [|exact Ec|reflexivity|by repeat apply lookup_alter_Some]. rewrite bind_Ok, !list_alter_alter_eq.
    match goal with |- context [idle _ _ ?u] => set (s4 := u) end.
    set (g' := (fun f : flow => f <| deficitCounter := 0 |>) ∘ ((fun f : flow => f <| turn := 0 |>) ∘ g)).
    assert (E4 : drr s4 = Some (alter g' i fs2)) by reflexivity. assert (Ec4 : curr s4 = Some i) by exact Ec.
    assert (Hr4 : ring (nx (alter g' i fs2)) (pv (alter g' i fs2)) ([] ++ i :: R)) by (by apply ring_alter).
    rewrite Ec4. destruct (idle_ok s4 _ [] i R E4 Hr4) as (fs5 & Hi5 & Hr5 & Hb5). cbn [app head] in Hi5. rewrite Hi5, bind_Ok.
    cbn [returns]. split; [done|]. split; [exact (same_drr_refl s)|]. split; [done|].
    apply (Hrem _ _ _ _ fs5); try done.
    + apply (flows_body _ (alter g' i fs2)); [done|]. rewrite (alter_insert _ _ _ _ Ef2).
      rewrite <- (list_insert_insert_eq (rows a) i (mk_row [] 0 0) (mk_row [p] d' t')).
      apply Forall2_insert; [done|]. destruct Hg as [? ? ? ? ?]. by constructor.
    + cbn. lia.
  - destruct (Z.eqb_spec (Z.of_nat (S (length l))) 0); [lia|]. cbn [returns]. split; [done|]. split; [exact (same_drr_refl s)|].
    split; [done|]. apply (Hrem _ _ _ _ (alter g i fs2)); try done.
    + rewrite (alter_insert _ _ _ _ Ef2).
      rewrite <- (list_insert_insert_eq (rows a) i (mk_row (b :: l) (d' - p_size x) t') (mk_row (p :: b :: l) d' t')).
      by apply Forall2_insert.
    + by apply ring_alter.
Qed.

Lemma serve_ok s a :
  refines s a -> rr_ok (size_of (mem s)) a -> rr a <> [] ->
  returns (serve s) (fun '(r, s') => exists i a',
    rr_step (size_of (mem s)) (quantum_ s) a (match r with Some p => LSend i p | None => LPass i end) a' /\
    refines s' a' /\ same_drr s s' /\ dropped s' = dropped s).
Proof.
  intros Hs Hok Hne. destruct (head_ok s a Hs Hok Hne) as (fs & i & R & f & p & l & d & t & x & E & ER & Ec & Ef & Er & Hfl & Ex & Esz).
  unfold serve. destruct (grant_ok s fs i f _ d t E Ec Ef Hfl) as (g & -> & Hg & Hgl). rewrite bind_Ok.
  assert (Ht : (if t =? 0 then 1 else t) = 1) by (destruct (ro_rows _ _ Hok _ _ Er) as [_ [Ht|Ht]]; cbn in Ht; by subst t).
  rewrite Ht in Hg.
  set (b := budget (quantum_ s) d t) in *.
  pose proof (rf_flows _ _ Hs) as HF. pose proof (rf_ring _ _ Hs) as Hr. rewrite (flows_some s fs E), ER in *.
  assert (Ef2 : alter g i fs !! i = Some (g f)) by (by rewrite list_lookup_alter_eq, Ef).
  assert (HF2 : Forall2 (flow_ok (mem s)) (alter g i fs) (<[i := mk_row (p :: l) b 1]> (rows a))).
  { rewrite (alter_insert _ _ _ _ Ef). by apply Forall2_insert. }
  assert (Hr2 : ring (nx (alter g i fs)) (pv (alter g i fs)) (i :: R)) by (by apply ring_alter).
  erewrite (deref_at i); [|exact Ec|reflexivity|exact Ef2]. rewrite bind_Ok.
  change (mem (s <| drr := Some (alter g i fs) |>)) with (mem s).
  rewrite (lookup_first _ _ _ _ (fo_holds _ _ _ Hg)), bind_Ok, (access_ok _ _ _ Ex), bind_Ok, (fo_credit _ _ _ Hg). cbn [credit].
  case_cond.
  - eapply returns_bind; [by apply (send_first_ok s a i R p l d t b 1 (g f))|]. intros [pkt s'] (-> & Hsame & Hd & Hs'). cbn [returns].
    exists i. eexists. split; [|by split]. rewrite <- Esz. unfold sent_row. apply (step_send _ _ a i R p l d t ER Er). fold b. lia.
  - eapply returns_bind; [by apply (pass_ok s a i R p l d t b 1 (g f))|]. intros s' (Hsame & Hd & Hs'). cbn [returns].
    exists i. eexists. split; [|by split]. apply (step_pass _ _ a i R p l d t ER Er). fold b. lia.
Qed.

(** ** What every step keeps *)

(** The packets that come in with a label, and those that go out. *)
Definition label_in (x : label) : list Z := match x with LArrive _ p => [p] | _ => [] end.
Definition label_out (x : label) : list Z := match x with LSend _ p => [p] | LDrop _ p => [p] | _ => [] end.

Lemma rr_step_queued sz q a x a' : rr_step sz q a x a' -> label_in x ++ queued a ≡ₚ label_out x ++ queued a'.
Proof.
  intros [b i p d t Er|b i p l d t Er Hl|b r1 i r2 p l d t ER Er _|b i r p l d t ER Er _|b i r p l d t ER Er _];
    destruct (queued_at b i _ Er) as (R & -> & Hins); cbn [label_in label_out waiting app] in *; rewrite Hins; cbn [waiting app].
  - done.
  - rewrite <- app_assoc. apply Permutation_middle.
  - done.
  - done.
  - by destruct l.
Qed.

(** A step gives one flow another row. *)
Lemma active_insert (rs : list row) (L L' : list nat) i r r' :
  (forall j, j ∈ L <-> exists r, rs !! j = Some r /\ waiting r <> []) -> rs !! i = Some r ->
  (forall j, j <> i -> j ∈ L' <-> j ∈ L) -> (i ∈ L' <-> waiting r' <> []) ->
  forall j, j ∈ L' <-> exists r, <[i := r']> rs !! j = Some r /\ waiting r <> [].
Proof.
  intros Hact Ei Hne Hi j. destruct (decide (j = i)) as [->|Hj].
  - rewrite Hi, list_lookup_insert_eq by (by eapply lookup_lt_Some). naive_solver.
  - by rewrite Hne, Hact, list_lookup_insert_ne.
Qed.

Lemma rr_step_ok sz q a x a' :
  0 <= q -> rr_step sz q a x a' -> rr_ok sz a ->
  (forall p, p ∈ label_in x -> p <> 0 /\ 0 < sz p /\ p ∉ queued a) -> rr_ok sz a'.
Proof.
  intros Hq Hx [Hring Hact Hnd Hnull Hpos Hrows] Hin. pose proof (rr_step_queued _ _ _ _ _ Hx) as Hp.
  assert (Hnd' : NoDup (label_in x ++ queued a)).
  { apply NoDup_app. split; [destruct x; cbn; repeat constructor; set_solver|]. split; [|done]. intros p Hp1. by apply Hin. }
  assert (Hall : forall p, p ∈ queued a' -> p ∈ label_in x ++ queued a) by (intros p Hp1; rewrite Hp; set_solver).
  rewrite Hp in Hnd'. apply NoDup_app in Hnd' as (_ & _ & Hnd').
  assert (H0 : 0 ∉ queued a') by (intros [?%Hin|]%Hall%elem_of_app; naive_solver).
  assert (Hp' : forall p, p ∈ queued a' -> 0 < sz p) by (intros p [?%Hin|]%Hall%elem_of_app; naive_solver).
  clear Hp Hall Hin Hnd Hnull.
  assert (Hrow : forall rs i r', rs = rows a -> 0 <= credit r' /\ (served r' = 0 \/ served r' = 1) ->
    forall j r, <[i := r']> rs !! j = Some r -> 0 <= credit r /\ (served r = 0 \/ served r = 1)).
  { intros rs i r' -> Hr' j r [(-> & <- & _)|[_ E]]%list_lookup_insert_Some; [done|by apply (Hrows j)]. }
  destruct Hx as [a i p d t Er|a i p l d t Er Hl|a r1 i r2 p l d t ER Er _|a i r p l d t ER Er Hb|a i r p l d t ER Er Hb];
    specialize (Hrows i _ Er) as Hri; cbn [credit served] in Hri.
  - assert (Hi : i ∉ rr a) by (rewrite Hact; intros (r & E & Hr); rewrite Er in E; by injection E as <-).
    constructor; try done; cbn [rr rows].
    + apply NoDup_app. split; [done|]. split; [set_solver|apply NoDup_singleton].
    + by apply (active_insert _ _ _ _ _ _ Hact Er); [set_solver|set_solver].
    + by apply Hrow; [|cbn; lia].
  - constructor; try done; cbn [rr rows].
    + apply (active_insert _ _ _ _ _ _ Hact Er); [done|]. cbn [waiting]. rewrite Hact, Er. destruct l; [done|]. naive_solver.
    + by apply Hrow.
  - constructor; try done; cbn [rr rows].
    + rewrite ER in Hring. destruct l; [|by rewrite ER]. apply NoDup_app in Hring as (? & ? & [? ?]%NoDup_cons). apply NoDup_app. set_solver.
    + rewrite ER in Hring, Hact |- *. apply NoDup_app in Hring as (? & ? & [? ?]%NoDup_cons).
      apply (active_insert _ _ _ _ _ _ Hact Er); destruct l; cbn [waiting]; set_solver.
    + by apply Hrow.
  - rewrite ER in Hring, Hact. apply NoDup_cons in Hring as [? ?]. constructor; try done; cbn [rr rows].
    + apply NoDup_app. split; [done|]. split; [set_solver|apply NoDup_singleton].
    + apply (active_insert _ _ _ _ _ _ Hact Er); cbn [waiting]; set_solver.
    + apply Hrow; [done|]. cbn. unfold budget. case_match; lia.
  - rewrite ER in Hring, Hact. pose proof (proj1 (NoDup_cons _ _) Hring) as [Hir Hr']. constructor; try done; cbn [rr rows].
    + by destruct l.
    + apply (active_insert _ _ _ _ _ _ Hact Er); destruct l; cbn [waiting]; set_solver.
    + apply Hrow; [done|]. unfold sent_row. destruct l; cbn; lia.
Qed.

Lemma rr_ok_ext sz sz' a : (forall p, sz' p = sz p) -> rr_ok sz a -> rr_ok sz' a.
Proof. intros E [H1 H2 H3 H4 H5 H6]. constructor; try done. intros p Hp. rewrite E. by apply H5. Qed.

Lemma rr_step_ext sz sz' q a x b : (forall p, sz' p = sz p) -> rr_step sz q a x b -> rr_step sz' q a x b.
Proof.
  intros E [c i p d t Er|c i p l d t Er Hl|c r1 i r2 p l d t ER Er Hm|c i r p l d t ER Er Hb|c i r p l d t ER Er Hb].
  - by apply (step_first _ _ c i p d t).
  - by apply step_more.
  - apply (step_drop _ _ c r1 i r2 p l d t); [done|done|]. intros j r. rewrite !(bytes_ext sz sz') by done. apply Hm.
  - apply (step_pass _ _ c i r p l d t); [done|done|by rewrite E].
  - rewrite <- E. apply (step_send _ _ c i r p l d t); [done|done|by rewrite E].
Qed.

Lemma rr_steps_snoc sz q a xs b x c : rr_steps sz q a xs b -> rr_step sz q b x c -> rr_steps sz q a (xs ++ [x]) c.
Proof.
  intros Hs Hx. induction Hs as [a|a y b xs d Hy Hs IH]; cbn [app]; [eapply steps_cons; [done|constructor]|].
  eapply steps_cons; [done|by apply IH].
Qed.

Lemma queued_elem (rs : list row) p : p ∈ concat (waiting <$> rs) -> exists i r, rs !! i = Some r /\ p ∈ waiting r.
Proof.
  induction rs as [|r rs IH]; [by intros ?%elem_of_nil|]. rewrite fmap_cons. cbn [concat].
  intros [Hp|(i & r' & E & Hp)%IH]%elem_of_app; [by exists 0%nat, r|by exists (S i), r'].
Qed.

(** The flows in the ring have the packets. *)
Lemma ring_empty sz a : rr_ok sz a -> (rr a = [] <-> queued a = []).
Proof.
  intros [_ Hact _ _ _ _]. split; intros E.
  - destruct (queued a) as [|p l] eqn:Eq; [done|]. destruct (queued_elem (rows a) p) as (i & r & Ei & Hp).
    { unfold queued in Eq. rewrite Eq. left. }
    assert (Hi : i ∈ rr a) by (apply Hact; exists r; split; [done|]; intros H; rewrite H in Hp; set_solver).
    rewrite E in Hi. set_solver.
  - destruct (rr a) as [|i L] eqn:ER; [done|]. destruct (proj1 (Hact i) ltac:(left)) as (r & Ei & Hr).
    destruct (waiting r) as [|p l] eqn:Ew; [done|]. assert (Hp : p ∈ queued a) by (apply (rows_elem _ i r); [done|rewrite Ew; left]).
    rewrite E in Hp. set_solver.
Qed.

(** ** The loops *)

(** What the flows may still get before each of them can send. *)
Definition lacking (M : Z) (r : row) : Z := Z.max 0 (M - credit r) + served r.
Definition potential (M : Z) (rs : list row) : Z := foldr (fun r n => lacking M r + n) 0 rs.
Definition flow_potential (M : Z) (fs : list flow) : Z :=
  foldr (fun f n => Z.max 0 (M - deficitCounter f) + turn f + n) 0 fs.

Lemma potential_insert M rs i r r' :
  rs !! i = Some r -> potential M (<[i := r']> rs) = potential M rs - lacking M r + lacking M r'.
Proof.
  revert i. induction rs as [|b rs IH]; intros [|i] E; try done.
  - injection E as ->. change (<[0%nat := r']> (r :: rs)) with (r' :: rs). unfold potential. cbn [foldr]. lia.
  - specialize (IH i E). change (<[S i := r']> (b :: rs)) with (b :: <[i := r']> rs). unfold potential in *. cbn [foldr]. lia.
Qed.

Lemma potential_flows M m fs rs : Forall2 (flow_ok m) fs rs -> flow_potential M fs = potential M rs.
Proof.
  intros HF. induction HF as [|f r fs rs [_ _ _ H1 H2] HF IH]; [done|]. unfold potential, flow_potential, lacking in *.
  cbn [foldr]. by rewrite IH, H1, H2.
Qed.

Lemma potential_range M rs :
  0 <= M -> (forall i r, rs !! i = Some r -> 0 <= credit r /\ (served r = 0 \/ served r = 1)) ->
  0 <= potential M rs <= Z.of_nat (length rs) * (M + 1).
Proof.
  intros HM. induction rs as [|r rs IH]; intros Hr; [done|].
  destruct IH as [IH1 IH2]; [intros i r' E; by apply (Hr (S i))|]. destruct (Hr 0%nat r eq_refl) as [Hc Hs].
  unfold potential, lacking in *. cbn [foldr length]. lia.
Qed.

(** Passing the turn uses it up. *)
Lemma pass_potential sz q a i a' M :
  0 < q -> rr_step sz q a (LPass i) a' -> rr_ok sz a -> (forall p, p ∈ queued a -> sz p <= M) ->
  potential M (rows a') < potential M (rows a).
Proof.
  intros Hq Hx Hok HM. inversion Hx as [| | |? ? R p l d t ER Er Hb|]; subst. cbn [rows].
  rewrite (potential_insert M _ _ _ _ Er). unfold lacking. cbn [credit served].
  destruct (ro_rows _ _ Hok _ _ Er) as [Hd Ht]. cbn [credit served] in *.
  assert (sz p <= M) by (apply HM; apply (rows_elem _ i _ p Er); left). unfold budget in *. case_match; lia.
Qed.

(** deque: the turn passes along the flows [is], and a packet is sent. *)
Definition round (is_ : list nat) (i : nat) (p : Z) : list label := (LPass <$> is_) ++ [LSend i p].

Lemma bytes_queued s a : refines s a -> rr_ok (size_of (mem s)) a -> (bytecnt s = 0 <-> queued a = []).
Proof.
  intros Hs Hok. rewrite (rf_bytecnt _ _ Hs). split; [|by intros ->]. apply bytes_pos. apply Hok.
Qed.

Lemma drr_deque_ok s a M :
  refines s a -> rr_ok (size_of (mem s)) a -> 0 < quantum_ s ->
  (forall p, p ∈ queued a -> size_of (mem s) p <= M) -> 0 <= M -> buckets_ s * (M + 1) < 1099511627775 ->
  returns (drr_deque s) (fun '(p, s') => exists a' xs, rr_steps (size_of (mem s)) (quantum_ s) a xs a' /\
    rr_ok (size_of (mem s)) a' /\ refines s' a' /\ same_drr s s' /\ dropped s' = dropped s /\
    if decide (queued a = []) then p = 0 /\ xs = [] else exists is_ i, xs = round is_ i p).
Proof.
  intros Hs Hok Hq HM HM0 Hfuel. unfold drr_deque. destruct (Z.eqb_spec (bytecnt s) 0) as [E0|E0].
  { cbn [returns]. exists a, []. split; [constructor|]. do 4 (split; [done|]). rewrite decide_True; [done|]. by apply (bytes_queued s a). }
  rewrite (bytes_queued s a Hs Hok) in E0.
  set (sz := size_of (mem s)) in *. set (q := quantum_ s) in *.
  set (I := fun '(r, t) => exists a' xs, rr_steps sz q a xs a' /\ rr_ok sz a' /\ refines t a' /\ same_drr s t /\ dropped t = dropped s /\
    match r with Some p => exists is_ i, xs = round is_ i p | None => exists is_, xs = LPass <$> is_ /\ queued a' ≡ₚ queued a end).
  assert (Hpot : forall t b, refines t b -> flow_potential M (flows t) = potential M (rows b)).
  { intros t b [HF _ _ _ _ _ _ _]. by apply (potential_flows M (mem t)). }
  assert (Hrange : forall b, rr_ok sz b -> 0 <= potential M (rows b) <= Z.of_nat (length (rows b)) * (M + 1)).
  { intros b Hb. apply potential_range; [done|apply Hb]. }
  eapply returns_bind; [apply (c_while_rule I (fun '(r, t) => match r with Some _ => 0 | None => 1 + flow_potential M (flows t) end))|].
  - intros [r t] (a1 & xs & Hxs & Hok1 & Ht & Hsame & Hd & Hr) Hc. cbv beta iota in Hc. destruct r; [done|].
    destruct Hr as (is_ & -> & Hp). assert (Hsz : forall p, size_of (mem t) p = sz p) by apply Hsame.
    assert (Hok2 : rr_ok (size_of (mem t)) a1) by by apply (rr_ok_ext sz).
    assert (Hne : rr a1 <> []).
    { rewrite (ring_empty _ _ Hok1). intros E. rewrite E in Hp. by apply E0, Permutation_nil_r. }
    eapply returns_mono; [by apply (serve_ok t a1)|]. intros [r t'] (i & a2 & Hx & Ht' & Hsame' & Hd').
    assert (Eq : quantum_ t = q) by apply Hsame. rewrite Eq in Hx. apply (rr_step_ext _ sz) in Hx; [|done].
    assert (Hok3 : rr_ok sz a2) by (apply (rr_step_ok sz q a1 _ a2 ltac:(lia) Hx Hok1); destruct r; by intros p ?%elem_of_nil).
    pose proof (rr_steps_snoc _ _ _ _ _ _ _ Hxs Hx) as Hxs2. pose proof (same_drr_trans _ _ _ Hsame Hsame') as Hsame2.
    rewrite (Hpot _ _ Ht), ?(Hpot _ _ Ht'). pose proof (Hrange a1 Hok1). destruct r as [p|]; (split; [|try lia]).
    + exists a2, (round is_ i p). do 4 (split; [done|]). split; [by rewrite Hd'|]. by exists is_, i.
    + exists a2, (LPass <$> (is_ ++ [i])). rewrite fmap_app. do 4 (split; [done|]). split; [by rewrite Hd'|].
      exists (is_ ++ [i]). split; [by rewrite fmap_app|]. pose proof (rr_step_queued _ _ _ _ _ Hx) as Hp'. cbn in Hp'. by rewrite <- Hp'.
    + assert (potential M (rows a2) < potential M (rows a1)); [|pose proof (Hrange a2 Hok3); lia].
      apply (pass_potential sz q a1 i); [done..|]. intros p. rewrite Hp. apply HM.
  - exists a, []. split; [constructor|]. do 4 (split; [done|]). by exists [].
  - rewrite (Hpot _ _ Hs). pose proof (Hrange a Hok) as H. rewrite (rf_buckets _ _ Hs) in H. lia.
  - intros [r t] [(a1 & xs & Hxs & Hok1 & Ht & Hsame & Hd & Hr) Hc]. cbv beta iota in Hc. destruct r as [p|]; [|done]. cbn [returns].
    exists a1, xs. by rewrite decide_False.
Qed.

(** enque: the packet comes in, and flows drop while more than [lim] bytes wait. *)
Definition arrival (i : nat) (p : Z) (ds : list (nat * Z)) : list label := LArrive i p :: (uncurry LDrop <$> ds).

Lemma rr_drops_ext sz sz' q lim a ds b : (forall p, sz' p = sz p) -> rr_drops sz q lim a ds b -> rr_drops sz' q lim a ds b.
Proof.
  intros E Hd. induction Hd as [a Ha|a j p b ds c Ha Hx Hd IH]; [apply drops_done; by rewrite (bytes_ext sz sz')|].
  apply (drops_more _ _ _ a j p b); [by rewrite (bytes_ext sz sz')|by eapply rr_step_ext|done].
Qed.

Lemma rr_arrival_ext sz sz' q lim a i p ds b :
  (forall p, sz' p = sz p) -> rr_arrival sz q lim a i p ds b -> rr_arrival sz' q lim a i p ds b.
Proof. intros E (a1 & Hx & Hd). exists a1. split; [by eapply rr_step_ext|by eapply rr_drops_ext]. Qed.

Lemma rr_drops_limit sz q lim a ds b : rr_drops sz q lim a ds b -> bytes sz (queued b) <= lim.
Proof. by induction 1. Qed.

Lemma rr_arrival_steps sz q lim a i p ds b : rr_arrival sz q lim a i p ds b -> rr_steps sz q a (arrival i p ds) b.
Proof.
  intros (a1 & Hx & Hd). apply (steps_cons _ _ _ _ a1); [done|]. clear Hx.
  induction Hd as [c Hc|c j p' d ds e Hc Hx Hd IH]; [constructor|]. cbn. by apply (steps_cons _ _ _ _ d).
Qed.

Lemma drr_enque_ok q s a p x :
  refines s a -> rr_ok (size_of (mem s)) a -> mem s !! p = Some x -> p <> 0 -> p ∉ queued a ->
  0 <= p_saddr x < 2147483648 -> 0 < p_size x -> 0 < buckets_ s -> 0 <= blimit_ s -> 0 <= q ->
  Z.of_nat (length (queued a)) < 1099511627775 ->
  returns (drr_enque p s) (fun s' => exists a' ds, rr_arrival (size_of (mem s)) q (blimit_ s) a (flow_index s p) p ds a' /\
    rr_ok (size_of (mem s)) a' /\ refines s' a' /\ same_drr s s' /\ dropped s' = dropped s ++ ds.*2).
Proof.
  intros Hs Hok Ex Hp0 Hp Ha Hx0 Hb Hbl Hq Hlen. destruct (size_of_access _ _ _ Ex) as [Esz _]. unfold drr_enque.
  set (sz := size_of (mem s)) in *. set (i := flow_index s p). set (lim := blimit_ s).
  eapply returns_bind; [by apply (drr_arrive_ok q s a p x)|]. intros s1 (a1 & Hx & Hs1 & Hsame1 & Hd1). fold sz i in Hx.
  assert (Hok1 : rr_ok sz a1).
  { apply (rr_step_ok _ _ _ _ _ Hq Hx Hok). intros p' Hp'. cbn in Hp'. apply list_elem_of_singleton in Hp' as ->. split; [done|]. split; [lia|done]. }
  pose proof (rr_step_queued _ _ _ _ _ Hx) as Hperm. cbn [label_in label_out app] in Hperm.
  set (I := fun t => exists a' ds, (forall ds' b, rr_drops sz q lim a' ds' b -> rr_drops sz q lim a1 (ds ++ ds') b) /\
    rr_ok sz a' /\ refines t a' /\ same_drr s t /\ dropped t = dropped s ++ ds.*2).
  assert (Hbytes : forall t b, refines t b -> same_drr s t -> bytecnt t = bytes sz (queued b)).
  { intros t b Ht Hsame. rewrite (rf_bytecnt _ _ Ht). apply bytes_ext. apply Hsame. }
  eapply returns_mono; [apply (c_while_rule I pktcnt)|].
  - intros t (a2 & ds & Hxs & Hok2 & Ht & Hsame & Hd) Hc. cbv beta in Hc.
    assert (Hsz : forall p, size_of (mem t) p = sz p) by apply Hsame. assert (Ebl : blimit_ t = lim) by apply Hsame.
    assert (Hok2' : rr_ok (size_of (mem t)) a2) by by apply (rr_ok_ext sz).
    assert (Hne : rr a2 <> []).
    { rewrite (ring_empty _ _ Hok2). intros E. apply (bytes_queued t a2 Ht Hok2') in E. lia. }
    eapply returns_mono; [by apply (drop_max_ok q t a2)|]. intros t' (j & p' & a3 & Hx' & Ht' & Hsame' & Hd').
    apply (rr_step_ext _ sz) in Hx'; [|done].
    assert (Hok3 : rr_ok sz a3) by (apply (rr_step_ok _ _ _ _ _ Hq Hx' Hok2); by intros ? ?%elem_of_nil). split.
    + exists a3, (ds ++ [(j, p')]). split; [|split; [done|]; split; [done|]; split; [by apply (same_drr_trans _ t)|]; by rewrite Hd', Hd, fmap_app, app_assoc].
      intros ds' b Hb'. rewrite <- app_assoc. apply Hxs. apply (drops_more _ _ _ a2 j p' a3); [|done|done].
      rewrite <- (Hbytes t a2 Ht Hsame). lia.
    + rewrite (rf_pktcnt _ _ Ht), (rf_pktcnt _ _ Ht'). pose proof (rr_step_queued _ _ _ _ _ Hx') as H. cbn [label_in label_out] in H.
      rewrite H. cbn [length app]. lia.
  - exists a1, []. split; [done|]. do 3 (split; [done|]). by rewrite app_nil_r.
  - rewrite (rf_pktcnt _ _ Hs1), <- Hperm. cbn [length]. lia.
  - intros t [(a2 & ds & Hxs & Hok2 & Ht & Hsame & Hd) Hc]. cbv beta in Hc. assert (Ebl : blimit_ t = lim) by apply Hsame.
    exists a2, ds. split; [|done]. exists a1. split; [done|]. rewrite <- (app_nil_r ds). apply Hxs, drops_done.
    rewrite <- (Hbytes t a2 Ht Hsame). lia.
Qed.
