(* ===== verification/DrrOk.v ===== *)
(** What deficit round robin promises of any run: the refinement, the order and
    the count of packets, and the shares of two flows that always have packets. *)
From stdpp Require Import gmap.
From S2P Require Import Prelude PacketQueue Drr RoundRobin.

(** * Definitions *)

Section Runs.
Context (sz : Z -> Z) (q lim : Z) (idx : Z -> nat).

(** A run of the step relation: events, packets sent, packets dropped.  A
    packet comes in at its flow, and the longest flows drop exactly while more
    than [lim] bytes wait; a queue with packets sends
    one, after a number of flows have passed their turn; an empty one sends
    nothing. *)
Inductive rr_run : sched -> list drr_event -> list Z -> list Z -> sched -> Prop :=
  | run_nil a : rr_run a [] [] [] a
  | run_arrive a p ds b es ps drs c :
      rr_arrival sz q lim a (idx p) p ds b -> rr_run b es ps drs c ->
      rr_run a (EArrive p :: es) ps (ds.*2 ++ drs) c
  | run_idle a es ps drs c :
      queued a = [] -> rr_run a es ps drs c -> rr_run a (EDeque :: es) ps drs c
  | run_round a is_ i p b es ps drs c :
      rr_steps sz q a (round is_ i p) b -> rr_run b es ps drs c ->
      rr_run a (EDeque :: es) (p :: ps) drs c.

(** The packets of a flow, in a list of packets. *)
Definition of_flow (i : nat) (ps : list Z) : list Z := filter (fun p => idx p = i) ps.

Definition sorted (a : sched) : Prop := forall i r p, rows a !! i = Some r -> p ∈ waiting r -> idx p = i.

(** The arrivals [arr] against what was sent, what waits and what was dropped. *)
Record accounted (arr ps drs : list Z) (a : sched) : Prop := mk_accounted {
  ac_sorted : sorted a;
  ac_order : forall i r, rows a !! i = Some r -> (of_flow i ps ++ waiting r) `sublist_of` of_flow i arr;
  ac_all : arr ≡ₚ ps ++ queued a ++ drs;
}.

(** *** Shares *)

Fixpoint before (i j : nat) (l : list nat) : Prop :=
  match l with [] => False | a :: l => (a = i /\ j ∈ l) \/ before i j l end.

(** The credit of a flow but for the quantum it has had in this turn. *)
Definition carried (a : sched) (i : nat) : Z :=
  match rows a !! i with Some r => credit r - q * served r | None => 0 end.

(** The credit is below the largest packet, and only the flow in turn has had
    its quantum. *)
Definition limited (M : Z) (a : sched) : Prop := forall i r, rows a !! i = Some r -> credit r < M + q * served r.
Definition unserved (a : sched) (i : nat) : Prop :=
  forall r, rows a !! i = Some r -> served r = 1 -> head (rr a) = Some i.

Definition sent_by (i : nat) (xs : list label) : Z :=
  foldr (fun x n => match x with LSend k p => if decide (k = i) then sz p else 0 | _ => 0 end + n) 0 xs.

(** Since [a0], where [i] comes before [j], [i] has sent [si] bytes and [j] [sj];
    [u] and [v] are the turns they have passed. *)
Definition shared (i j : nat) (a0 : sched) (si sj : Z) (a : sched) : Prop :=
  unserved a i /\ unserved a j /\ exists u v,
    si + carried a i - carried a0 i = q * u /\ sj + carried a j - carried a0 j = q * v /\
    ((before i j (rr a) /\ u = v) \/ (before j i (rr a) /\ u = v + 1)).
End Runs.

(** The run of the code: the state it starts from, and what may come. *)
Definition idle_sched (n : Z) : sched := mk_sched [] (replicate (Z.to_nat n) (mk_row [] 0 0)).

Record drr_settings (M : Z) (s : drr_queue) : Prop := mk_drr_settings {
  ds_buckets : 0 < buckets_ s;
  ds_blimit : 0 <= blimit_ s;
  ds_quantum : 0 < quantum_ s;
  ds_size : 0 < M;
  ds_fuel : buckets_ s * (M + 1) < 1099511627775;
}.

(** A packet that may come: sizes up to [M], and an address that is not negative. *)
Definition may_arrive (M : Z) (m : memory) (p : Z) : Prop :=
  p <> 0 /\ exists x, m !! p = Some x /\ 0 < p_size x <= M /\ 0 <= p_saddr x < 2147483648.

(** The flow has packets. *)
Definition backlogged (i : nat) (s : drr_queue) : Prop :=
  match flows s !! i with Some f => 0 < pkts f | None => False end.
(** It has packets before and after every event. *)
Fixpoint stays_backlogged (i : nat) (es : list drr_event) (s : drr_queue) : Prop :=
  backlogged i s /\
  match es with
  | [] => True
  | e :: es => match drr_step e s with Ok (_, s') => stays_backlogged i es s' | Trap _ => True end
  end.
(** The flow has had its quantum only if it is in turn. *)
Definition unserved_flow (i : nat) (s : drr_queue) : Prop :=
  forall f, flows s !! i = Some f -> turn f = 0 \/ curr s = Some i.

(** * Lemmas *)

Lemma rr_steps_cons_inv sz q a x xs c : rr_steps sz q a (x :: xs) c -> exists b, rr_step sz q a x b /\ rr_steps sz q b xs c.
Proof. intros H. inversion H; subst. by eexists. Qed.
Lemma rr_steps_nil_inv sz q a c : rr_steps sz q a [] c -> a = c.
Proof. intros H. by inversion H. Qed.

(** ** Order *)

Section Order.
Context (sz : Z -> Z) (q : Z) (idx : Z -> nat).

Definition sends (x : label) : list Z := match x with LSend _ p => [p] | _ => [] end.
Definition drops (x : label) : list Z := match x with LDrop _ p => [p] | _ => [] end.

Lemma of_flow_app i l1 l2 : of_flow idx i (l1 ++ l2) = of_flow idx i l1 ++ of_flow idx i l2.
Proof. apply filter_app. Qed.
Lemma of_flow_one p : of_flow idx (idx p) [p] = [p].
Proof. unfold of_flow. by rewrite filter_cons_True. Qed.
Lemma of_flow_other p i : idx p <> i -> of_flow idx i [p] = [].
Proof. intros H. unfold of_flow. by rewrite filter_cons_False. Qed.

(** A step changes the queue of one flow, in one of four ways. *)
Lemma rr_step_row a x b :
  rr_step sz q a x b -> exists i r r', rows a !! i = Some r /\ rows b = <[i := r']> (rows a) /\
  match x with
  | LArrive j p => i = j /\ waiting r' = waiting r ++ [p]
  | LPass _ => waiting r' = waiting r
  | LDrop j p | LSend j p => i = j /\ waiting r = p :: waiting r'
  end.
Proof.
  intros [c i p d t Er|c i p l d t Er Hl|c r1 i r2 p l d t ER Er Hm|c i r p l d t ER Er Hb|c i r p l d t ER Er Hb];
    exists i; do 2 eexists; (split; [exact Er|]); (split; [reflexivity|]); try done.
  split; [done|]. by destruct l.
Qed.

Lemma sorted_step a x b :
  rr_step sz q a x b -> (forall i p, x = LArrive i p -> i = idx p) -> sorted idx a -> sorted idx b.
Proof.
  intros (i & r & r' & Er & Eb & Hx)%rr_step_row Hidx Hs j r2 p E Hp. rewrite Eb in E.
  apply list_lookup_insert_Some in E as [(-> & -> & _)|[_ E]]; [|by apply (Hs j r2)]. specialize (Hs j r p Er).
  destruct x as [k p'|k p'|k|k p']; [|apply Hs..].
  - destruct Hx as [<- Hx]. rewrite Hx in Hp. apply elem_of_app in Hp as [Hp|Hp]; [by apply Hs|].
    apply list_elem_of_singleton in Hp as ->. symmetry. by apply Hidx.
  - destruct Hx as [_ ->]. by right.
  - by rewrite <- Hx.
  - destruct Hx as [_ ->]. by right.
Qed.

Lemma accounted_step arr ps drs a x b :
  rr_step sz q a x b -> (forall i p, x = LArrive i p -> i = idx p) -> accounted idx arr ps drs a ->
  accounted idx (arr ++ label_in x) (ps ++ sends x) (drs ++ drops x) b.
Proof.
  intros Hx Hidx [Hs Ho Ha]. pose proof (rr_step_queued _ _ _ _ _ Hx) as Hq.
  split; [by apply (sorted_step a x)| |].
  - intros j r2 E. apply rr_step_row in Hx as (i & r & r' & Er & Eb & Hx). rewrite Eb in E. rewrite !of_flow_app.
    apply list_lookup_insert_Some in E as [(-> & -> & _)|[Hij E]].
    + specialize (Ho j r Er). specialize (Hs j r). destruct x as [k p|k p|k|k p]; cbn [label_in sends].
      * destruct Hx as [<- ->]. rewrite (Hidx _ _ eq_refl) in *. rewrite of_flow_one, app_nil_r, app_assoc. by apply sublist_app.
      * destruct Hx as [_ Hw]. rewrite !app_nil_r. etransitivity; [|exact Ho]. rewrite Hw. apply sublist_app; [done|]. by apply sublist_cons.
      * by rewrite !app_nil_r, Hx.
      * destruct Hx as [_ Hw]. assert (Ej : idx p = j) by (apply Hs; [done|rewrite Hw; left]). subst j.
        rewrite of_flow_one, app_nil_r, <- app_assoc. cbn [app]. by rewrite <- Hw.
    + specialize (Ho j r2 E). destruct x as [k p|k p|k|k p]; cbn [label_in sends]; rewrite ?app_nil_r; try done.
      * destruct Hx as [<- _]. rewrite of_flow_other, app_nil_r by (rewrite <- (Hidx _ _ eq_refl); done). by rewrite ?app_nil_r.
      * destruct Hx as [<- Hw]. rewrite of_flow_other; [by rewrite app_nil_r|]. rewrite (Hs i r p Er); [done|rewrite Hw; left].
  - rewrite Ha. destruct x as [k p|k p|k|k p]; cbn [label_in label_out sends drops app] in *; rewrite ?app_nil_r, <- ?Hq.
    + rewrite (Permutation_app_comm _ [p]). exact (Permutation_middle ps (queued a ++ drs) p).
    + rewrite Hq. apply Permutation_app_head. rewrite (app_assoc _ drs). rewrite (Permutation_app_comm _ [p]). done.
    + done.
    + rewrite Hq, <- app_assoc. done.
Qed.

Lemma accounted_steps arr ps drs a xs b :
  rr_steps sz q a xs b -> (forall i p, LArrive i p ∈ xs -> i = idx p) -> accounted idx arr ps drs a ->
  accounted idx (arr ++ (xs ≫= label_in)) (ps ++ (xs ≫= sends)) (drs ++ (xs ≫= drops)) b.
Proof.
  intros Hs. revert arr ps drs. induction Hs as [a|a x b xs c Hx Hs IH]; intros arr ps drs Hidx Ha; [by rewrite !app_nil_r|].
  rewrite !bind_cons, !app_assoc. apply IH; [intros i p Hp; apply Hidx; by right|].
  apply (accounted_step _ _ _ a); [done| |done]. intros i p ->. apply Hidx. left.
Qed.

Lemma arrival_labels i p ds :
  (arrival i p ds ≫= label_in) = [p] /\ (arrival i p ds ≫= sends) = [] /\ (arrival i p ds ≫= drops) = ds.*2.
Proof.
  unfold arrival. rewrite !bind_cons. cbn [label_in sends drops app]. induction ds as [|[j d] ds IH]; [done|].
  rewrite !fmap_cons, !bind_cons. cbn. cbn in IH. destruct IH as (H1 & H2 & H3). by rewrite H2, <- H3.
Qed.

Lemma round_labels is_ i p :
  (round is_ i p ≫= label_in) = [] /\ (round is_ i p ≫= sends) = [p] /\ (round is_ i p ≫= drops) = [].
Proof. unfold round. by induction is_ as [|j is_ (H1 & H2 & H3)]. Qed.

Lemma arrival_idx p ds : forall i p', LArrive i p' ∈ arrival (idx p) p ds -> i = idx p'.
Proof.
  intros i p' [[= -> ->]|([j d] & ? & _)%list_elem_of_fmap]%elem_of_cons; done.
Qed.
Lemma round_idx is_ k p : forall i p', LArrive i p' ∈ round is_ k p -> i = idx p'.
Proof. intros i p' [(j & ? & _)%list_elem_of_fmap|?%list_elem_of_singleton]%elem_of_app; done. Qed.

Lemma accounted_run lim arr0 ps0 drs0 a es ps drs c :
  rr_run sz q lim idx a es ps drs c -> accounted idx arr0 ps0 drs0 a ->
  accounted idx (arr0 ++ drr_arrivals es) (ps0 ++ ps) (drs0 ++ drs) c.
Proof.
  intros Hr. revert arr0 ps0 drs0.
  induction Hr as [a|a p ds b es ps drs c Hs _ IH|a es ps drs c _ _ IH|a is_ i p b es ps drs c Hs _ IH]; intros arr0 ps0 drs0 Ha;
    cbn [drr_arrivals]; rewrite ?app_nil_r; [done| |by apply IH|].
  - apply rr_arrival_steps in Hs. pose proof (accounted_steps _ _ _ _ _ _ Hs (arrival_idx p ds) Ha) as H. destruct (arrival_labels (idx p) p ds) as (E1 & E2 & E3).
    rewrite E1, E2, E3, app_nil_r in H. apply IH in H. rewrite <- !app_assoc in H. exact H.
  - pose proof (accounted_steps _ _ _ _ _ _ Hs (round_idx is_ i p) Ha) as H. destruct (round_labels is_ i p) as (E1 & E2 & E3).
    rewrite E1, E2, E3, !app_nil_r in H. apply IH in H. rewrite <- !app_assoc in H. exact H.
Qed.
End Order.

Lemma rr_steps_ext sz sz' q a xs b : (forall p, sz' p = sz p) -> rr_steps sz q a xs b -> rr_steps sz' q a xs b.
Proof. intros E Hs. induction Hs as [a|a x b xs c Hx Hs IH]; [constructor|]. eapply steps_cons; [by eapply rr_step_ext|done]. Qed.

Lemma rr_steps_queued sz q a xs b :
  rr_steps sz q a xs b -> (xs ≫= label_in) ++ queued a ≡ₚ (xs ≫= label_out) ++ queued b.
Proof.
  intros Hs. induction Hs as [a|a x b xs c Hx Hs IH]; [done|]. apply rr_step_queued in Hx. rewrite !bind_cons, <- !app_assoc, <- IH.
  by rewrite !(Permutation_app_swap_app _ (xs ≫= label_in)), Hx.
Qed.

(** ** The code *)

Lemma same_index s s' p : same_drr s s' -> flow_index s' p = flow_index s p.
Proof. intros (E1 & _ & _ & E2 & _ & _ & E3). unfold flow_index. by rewrite E1, E2, E3. Qed.

Lemma same_arrive M s s' p : same_drr s s' -> may_arrive M (mem s) p -> may_arrive M (mem s') p.
Proof.
  intros (_ & _ & _ & _ & Hd & Hsz & Hsa) (Hp & x & Ex & Hx). split; [done|].
  assert (Hin : p ∈ dom (mem s')) by (rewrite Hd; by eapply elem_of_dom_2). apply elem_of_dom in Hin as [y Ey]. exists y. split; [done|].
  destruct (size_of_access _ _ _ Ex) as [E1 E2], (size_of_access _ _ _ Ey) as [F1 F2].
  rewrite <- F1, <- F2, Hsz, Hsa, E1, E2. done.
Qed.

Lemma same_settings_drr M s s' : same_drr s s' -> drr_settings M s -> drr_settings M s'.
Proof. intros (E1 & E2 & E3 & _) [H1 H2 H3 H4 H5]. constructor; congruence. Qed.

(** What a run starts from: sizes and number of the packets in the queue. *)
Record drr_ready (M : Z) (sz : Z -> Z) (s : drr_queue) (a : sched) : Prop := mk_drr_ready {
  dr_refines : refines s a;
  dr_ok : rr_ok sz a;
  dr_sz : forall p, size_of (mem s) p = sz p;
  dr_settings : drr_settings M s;
  dr_max : forall p, p ∈ queued a -> sz p <= M;
}.

Lemma drr_step_ok M sz s a e :
  drr_ready M sz s a -> (forall p, e = EArrive p -> may_arrive M (mem s) p /\ p ∉ queued a) ->
  Z.of_nat (length (queued a)) < 1099511627775 ->
  returns (drr_step e s) (fun '(p, s') => exists a' xs, rr_steps sz (quantum_ s) a xs a' /\ drr_ready M sz s' a' /\ same_drr s s' /\
    bytecnt s' <= Z.max (bytecnt s) (blimit_ s) /\ (xs ≫= label_in) = drr_arrivals [e] /\
    match e with
    | EArrive p' => p = 0 /\ exists ds, xs = arrival (flow_index s p') p' ds /\ rr_arrival sz (quantum_ s) (blimit_ s) a (flow_index s p') p' ds a' /\
        dropped s' = dropped s ++ ds.*2
    | EDeque => dropped s' = dropped s /\ (queued a = [] -> p = 0 /\ xs = []) /\ (queued a <> [] -> p <> 0 /\ exists is_ i, xs = round is_ i p)
    end).
Proof.
  intros [Hs Hok Hsz Hset HM] Hv Hlen. pose proof Hset as [Hb Hbl Hq HM0 Hfuel].
  assert (Hok' : rr_ok (size_of (mem s)) a) by by apply (rr_ok_ext sz).
  assert (Hready : forall s' a' xs, rr_steps sz (quantum_ s) a xs a' -> refines s' a' -> rr_ok (size_of (mem s)) a' -> same_drr s s' ->
    (forall p, p ∈ xs ≫= label_in -> sz p <= M) -> drr_ready M sz s' a').
  { intros s' a' xs Hxs Hs' Hok1 Hsame Hin. constructor; [done|by apply (rr_ok_ext (size_of (mem s)))| |by apply (same_settings_drr _ s)|].
    - intros p. rewrite <- Hsz. apply Hsame.
    - intros p Hp. assert (H : p ∈ (xs ≫= label_in) ++ queued a) by (rewrite (rr_steps_queued _ _ _ _ _ Hxs); set_solver).
      apply elem_of_app in H as [H|H]; [by apply Hin|by apply HM]. }
  destruct e as [p|]; cbn [drr_step].
  - destruct (Hv p eq_refl) as [(Hp & x & Ex & Hx & Ha) Hnq]. destruct (size_of_access _ _ _ Ex) as [Esz _].
    eapply returns_bind; [apply (drr_enque_ok (quantum_ s) s a p x); try done; lia|].
    intros s' (a' & ds & Harr & Hok1 & Hs' & Hsame & Hd). cbn [returns]. apply (rr_arrival_ext _ sz) in Harr; [|done].
    pose proof (rr_arrival_steps _ _ _ _ _ _ _ _ Harr) as Hxs.
    assert (Hby : bytecnt s' <= blimit_ s).
    { rewrite (rf_bytecnt _ _ Hs'), (bytes_ext sz (size_of (mem s'))) by (intros p'; rewrite <- Hsz; apply Hsame).
      destruct Harr as (a1 & _ & Hd1). by eapply rr_drops_limit. }
    exists a', (arrival (flow_index s p) p ds). split; [done|]. 
    split; [|split; [done|]; split; [lia|]; split; [apply arrival_labels|]; split; [done|]; by exists ds].
    apply (Hready s' a' _ Hxs); try done. destruct (arrival_labels (flow_index s p) p ds) as (-> & _).
    intros p' ->%list_elem_of_singleton. rewrite <- Hsz, Esz. lia.
  - eapply returns_mono; [apply (drr_deque_ok s a M); try done; [intros p; rewrite Hsz; apply HM|lia]|].
    intros [p s'] (a' & xs & Hxs & Hok1 & Hs' & Hsame & Hd & Hcase). apply (rr_steps_ext _ sz) in Hxs; [|done].
    exists a', xs. split; [done|]. split; [|split; [done|]; split; [|split; [|split; [done|]]]].
    + apply (Hready s' a' _ Hxs); try done. case_decide.
      * destruct Hcase as [_ ->]. by intros p' ?%elem_of_nil.
      * destruct Hcase as (is_ & i & ->). destruct (round_labels is_ i p) as (-> & _). by intros p' ?%elem_of_nil.
    + pose proof (rr_steps_queued _ _ _ _ _ Hxs) as Hp. rewrite (rf_bytecnt _ _ Hs), (rf_bytecnt _ _ Hs').
      rewrite (bytes_ext (size_of (mem s)) (size_of (mem s'))) by apply Hsame. case_decide; destruct Hcase as [-> ->] || destruct Hcase as (is_ & i & ->).
      * cbn in Hp. rewrite Hp. lia.
      * destruct (round_labels is_ i p) as (E & _). rewrite E in Hp. cbn [app] in Hp. rewrite Hp, bytes_app.
        assert (0 <= bytes (size_of (mem s)) (round is_ i p ≫= label_out)); [|lia]. apply bytes_pos.
        intros p' Hp'. apply (ro_pos _ _ Hok'). rewrite Hp. apply elem_of_app. by left.
    + case_decide; [by destruct Hcase as [_ ->]|]. destruct Hcase as (is_ & i & ->). apply round_labels.
    + case_decide; [done|]. split; [done|]. intros _. destruct Hcase as (is_ & i & ->). split; [|by exists is_, i].
      intros ->. apply (ro_null _ _ Hok). pose proof (rr_steps_queued _ _ _ _ _ Hxs) as Hp.
      destruct (round_labels is_ i 0) as (E & _). rewrite E in Hp. cbn [app] in Hp. rewrite Hp. apply elem_of_app. left.
      unfold round. rewrite bind_app. set_solver.
Qed.

(** What is still to come: new packets, and not too many. *)
Definition fresh (M : Z) (s : drr_queue) (a : sched) (es : list drr_event) : Prop :=
  NoDup (drr_arrivals es) /\ (forall p, p ∈ drr_arrivals es -> may_arrive M (mem s) p /\ p ∉ queued a) /\
  Z.of_nat (length es + length (queued a)) < 1099511627776.

Lemma drr_arrivals_app es1 es2 : drr_arrivals (es1 ++ es2) = drr_arrivals es1 ++ drr_arrivals es2.
Proof. induction es1 as [|[p|] es1 IH]; cbn; by rewrite ?IH. Qed.

Lemma steps_queued sz q a xs a' e :
  rr_steps sz q a xs a' -> (xs ≫= label_in) = drr_arrivals [e] ->
  (forall p, p ∈ queued a' -> p ∈ drr_arrivals [e] ++ queued a) /\ (length (queued a') <= 1 + length (queued a))%nat.
Proof.
  intros Hxs Hin. pose proof (rr_steps_queued _ _ _ _ _ Hxs) as Hp. rewrite Hin in Hp. split.
  - intros p Hp'. rewrite Hp. apply elem_of_app. by right.
  - apply Permutation_length in Hp. rewrite !length_app in Hp.
    assert ((length (drr_arrivals [e]) <= 1)%nat) by (destruct e; cbn; lia). lia.
Qed.

Lemma fresh_next M s a e es sz q xs s' a' :
  fresh M s a (e :: es) -> rr_steps sz q a xs a' -> (xs ≫= label_in) = drr_arrivals [e] -> same_drr s s' -> fresh M s' a' es.
Proof.
  intros (Hnd & Hv & Hlen) Hxs Hin Hsame. destruct (steps_queued _ _ _ _ _ _ Hxs Hin) as [Hp Hn].
  assert (Earr : drr_arrivals (e :: es) = drr_arrivals [e] ++ drr_arrivals es) by apply (drr_arrivals_app [e]).
  rewrite Earr in *. apply NoDup_app in Hnd as (_ & Hdis & Hnd). split; [done|]. split; [|cbn [length] in Hlen; lia].
  intros p' Hp'. destruct (Hv p') as [Hm Hnq]; [set_solver|]. split; [by apply (same_arrive M s)|].
  intros [H|H]%Hp%elem_of_app; [by apply (Hdis p')|done].
Qed.

Lemma drr_run_ok M sz q lim idx es s a :
  drr_ready M sz s a -> quantum_ s = q -> blimit_ s = lim -> (forall p, flow_index s p = idx p) -> fresh M s a es ->
  returns (drr_run es s) (fun '(ps, s') => exists a' drs, rr_run sz q lim idx a es ps drs a' /\ drr_ready M sz s' a' /\ same_drr s s' /\
    dropped s' = dropped s ++ drs /\ bytecnt s' <= Z.max (bytecnt s) (blimit_ s)).
Proof.
  revert s a. induction es as [|e es IH]; intros s a Hs Hq Hlim Hidx Hfr; cbn [drr_run].
  { cbn [returns]. exists a, []. split; [constructor|]. do 2 (split; [done|]). split; [by rewrite app_nil_r|lia]. }
  eapply returns_bind; [apply (drr_step_ok M sz s a e Hs)|].
  { intros p ->. apply Hfr. left. }
  { destruct Hfr as (_ & _ & Hlen). cbn in Hlen. lia. }
  intros [p s1] (a1 & xs & Hxs & Hs1 & Hsame & Hby & Hin & He).
  eapply returns_bind; [apply (IH s1 a1 Hs1)|].
  { rewrite <- Hq. apply Hsame. }
  { rewrite <- Hlim. apply Hsame. }
  { intros p'. by rewrite (same_index s). }
  { by apply (fresh_next M s a e es _ _ _ _ _ Hfr Hxs). }
  intros [ps s2] (a2 & drs & Hrun & Hs2 & Hsame2 & Hd & Hby2). cbn [returns].
  assert (Hby3 : bytecnt s2 <= Z.max (bytecnt s) (blimit_ s)) by (destruct Hsame as (_ & E & _); rewrite E in Hby2; lia).
  pose proof (same_drr_trans _ _ _ Hsame Hsame2) as Hsame3. rewrite Hq in Hxs. destruct e as [p0|].
  - destruct He as (-> & ds & -> & Harr & Hd1). rewrite Z.eqb_refl. exists a2, (ds.*2 ++ drs). rewrite Hidx, Hq, Hlim in Harr.
    split; [by eapply run_arrive|]. do 2 (split; [done|]). split; [by rewrite Hd, Hd1, app_assoc|done].
  - destruct He as (Hd1 & He1 & He2). exists a2, drs. destruct (decide (queued a = [])) as [E|E].
    + destruct (He1 E) as [-> ->]. apply rr_steps_nil_inv in Hxs. subst a1. rewrite Z.eqb_refl.
      split; [by apply run_idle|]. do 2 (split; [done|]). split; [by rewrite Hd, Hd1|done].
    + destruct (He2 E) as (Hp0 & is_ & i & ->). destruct (Z.eqb_spec p 0); [done|].
      split; [by eapply run_round|]. do 2 (split; [done|]). split; [by rewrite Hd, Hd1|done].
Qed.

(** The start. *)
Lemma idle_queued buckets : queued (idle_sched buckets) = [].
Proof. unfold queued, idle_sched. cbn [rows]. induction (Z.to_nat buckets) as [|n IH]; [done|]. by cbn. Qed.

Lemma idle_ok_rr sz buckets : rr_ok sz (idle_sched buckets).
Proof.
  assert (Hrow : forall i r, rows (idle_sched buckets) !! i = Some r -> r = mk_row [] 0 0).
  { intros i r [-> _]%lookup_replicate. done. }
  constructor; rewrite ?(idle_queued buckets); try done; [constructor| |constructor|set_solver|set_solver|].
  - intros i. split; [set_solver|]. intros (r & ->%Hrow & H). done.
  - intros i r ->%Hrow. cbn. lia.
Qed.

Lemma idle_refines s n :
  drr s = None -> 0 <= n -> buckets_ s = n -> curr s = None -> flwcnt s = 0 -> pktcnt s = 0 -> bytecnt s = 0 -> refines s (idle_sched n).
Proof.
  intros E Hn Eb Ec E1 E2 E3. constructor; rewrite ?(idle_queued n); try done.
  - unfold flows. rewrite E, Eb. cbn [rows idle_sched]. apply Forall2_replicate. constructor; try done.
    constructor; [done|done|constructor|set_solver|done|done].
  - cbn [rows idle_sched]. rewrite length_replicate. lia.
  - split; [constructor|done].
Qed.

Lemma new_drr_ready M m buckets blimit quantum mask :
  drr_settings M (new_drr m buckets blimit quantum mask) ->
  drr_ready M (size_of m) (new_drr m buckets blimit quantum mask) (idle_sched buckets).
Proof.
  intros Hset. pose proof (ds_buckets _ _ Hset) as Hb. cbn in Hb.
  constructor; [|apply idle_ok_rr|done|done|by rewrite idle_queued; intros p ?%elem_of_nil]. apply idle_refines; done || lia.
Qed.

(** ** Shares *)

Lemma before_app i j l1 l2 : before i j (l1 ++ l2) <-> before i j l1 \/ (i ∈ l1 /\ j ∈ l2) \/ before i j l2.
Proof. induction l1 as [|a l1 IH]; cbn [app before]; [set_solver|]. rewrite IH, elem_of_app. set_solver. Qed.

Lemma before_in i j l : before i j l -> i ∈ l /\ j ∈ l.
Proof. induction l as [|a l IH]; cbn [before]; [done|]. intros [[-> Hj]|[Hi Hj]%IH]; set_solver. Qed.

Lemma before_head i j l : NoDup l -> before i j l -> head l <> Some j.
Proof.
  destruct l as [|a l]; [done|]. intros [Ha _]%NoDup_cons [[_ Hj]|[_ Hj]%before_in] [= ->]; done.
Qed.

Lemma before_total i j l : i <> j -> i ∈ l -> j ∈ l -> before i j l \/ before j i l.
Proof.
  intros Hij. induction l as [|a l IH]; [set_solver|]. intros Hi Hj. cbn [before].
  apply elem_of_cons in Hi as [->|Hi]; apply elem_of_cons in Hj as [->|Hj]; [done|tauto|tauto|]. destruct IH; tauto.
Qed.

Section Shares.
Context (sz : Z -> Z) (q : Z).

Definition passed (k : nat) (x : label) : Z := match x with LPass i => if decide (i = k) then 1 else 0 | _ => 0 end.

(** The flow in turn passes to the end; the others keep their order. *)
Lemma before_step a x b i j :
  rr_step sz q a x b -> NoDup (rr a) -> i ∈ rr b -> j ∈ rr b -> before i j (rr a) ->
  if decide (x = LPass i) then before j i (rr b) else x <> LPass j /\ before i j (rr b).
Proof.
  intros Hx Hnd Hi Hj Hb. pose proof (before_head _ _ _ Hnd Hb) as Hhead. pose proof (before_in _ _ _ Hb) as [Hia Hja].
  destruct Hx as [c k p d t Er|c k p l d t Er Hl|c r1 k r2 p l d t ER Er Hm|c k r p l d t ER Er Hbd|c k r p l d t ER Er Hbd]; cbn [rr] in *.
  - rewrite decide_False by done. split; [done|]. apply before_app. by left.
  - by rewrite decide_False.
  - rewrite decide_False by done. split; [done|]. destruct l; [|done]. rewrite ER in Hb. apply before_app in Hb. apply before_app.
    rewrite ER in Hnd. apply NoDup_app in Hnd as (_ & H12 & [Hk _]%NoDup_cons). cbn [before] in Hb.
    assert (Hk1 : k ∉ r1 ++ r2) by (rewrite elem_of_app; intros [H|H]; [apply (H12 k H); left|done]).
    assert (k <> i) by (by intros ->). assert (k <> j) by (by intros ->). set_solver.
  - rewrite ER in *. cbn [head before] in *. apply NoDup_cons in Hnd as [Hk Hnd]. case_decide as Hd.
    + injection Hd as ->. apply before_app. right. left. set_solver.
    + assert (k <> j) by congruence. split; [congruence|]. apply before_app. left. destruct Hb as [[-> _]|]; [done|done].
  - rewrite decide_False by done. split; [done|]. rewrite ER in *. destruct l; [|done]. cbn [before] in Hb.
    destruct Hb as [[-> _]|]; [|done]. apply NoDup_cons in Hnd as [Hk _]. done.
Qed.

(** What a step does to the flow [k]. *)
Lemma carried_step a x b k :
  rr_step sz q a x b -> rr_ok sz a -> k ∈ rr a -> k ∈ rr b ->
  carried q b k + sent_by sz k [x] = carried q a k + q * passed k x.
Proof.
  intros Hx Hok Hka Hkb. unfold carried, sent_by, passed. cbn [foldr].
  destruct Hx as [c i p d t Er|c i p l d t Er Hl|c r1 i r2 p l d t ER Er Hm|c i r p l d t ER Er Hbd|c i r p l d t ER Er Hbd];
    cbn [rows]; (destruct (decide (i = k)) as [->|Hik];
      [rewrite list_lookup_insert_eq, Er by (by eapply lookup_lt_Some)|by rewrite list_lookup_insert_ne by done; lia]);
    destruct (ro_rows _ _ Hok _ _ Er) as [_ Ht]; cbn [credit served] in *.
  - apply (ro_active _ _ Hok) in Hka as (r & E & Hr). rewrite Er in E. by injection E as <-.
  - lia.
  - lia.
  - unfold budget. destruct Ht as [-> | ->]; cbn; lia.
  - destruct l as [|p' l]; cbn [credit served].
    + cbn [rr] in Hkb. pose proof (ro_ring _ _ Hok) as Hn. rewrite ER in Hn. by apply NoDup_cons in Hn as [Hn _].
    + unfold budget. destruct Ht as [-> | ->]; cbn; lia.
Qed.

Lemma unserved_step a x b k :
  rr_step sz q a x b -> NoDup (rr a) -> k ∈ rr a -> k ∈ rr b -> unserved a k -> unserved b k.
Proof.
  intros Hx Hn Hka Hkb Hu r E Hr. unfold unserved in Hu.
  destruct Hx as [c i p d t Er|c i p l d t Er Hl|c r1 i r2 p l d t ER Er Hm|c i R p l d t ER Er Hbd|c i R p l d t ER Er Hbd]; cbn [rows rr] in *;
    apply list_lookup_insert_Some in E as [(<- & <- & _)|[Hik E]]; cbn [served] in *; try specialize (Hu _ Er Hr); try specialize (Hu _ E Hr).
  - by destruct (rr c).
  - by destruct (rr c).
  - done.
  - done.
  - destruct l; [|done]. rewrite ER in Hn. apply NoDup_app in Hn as (_ & H12 & [Hk _]%NoDup_cons).
    apply elem_of_app in Hkb as [H|H]; [destruct (H12 i H); left|done].
  - destruct l; [|done]. rewrite ER in Hu. destruct r1 as [|a0 r1]; cbn in *; [by injection Hu|done].
  - done.
  - rewrite ER in Hu. by injection Hu.
  - rewrite ER in Hn. destruct l; [by apply NoDup_cons in Hn as [Hn _]|done].
  - rewrite ER in Hu. by injection Hu.
Qed.

Lemma limited_step M a x b :
  rr_step sz q a x b -> rr_ok sz a -> 0 <= q -> 0 < M -> (forall p, p ∈ queued a -> sz p <= M) -> limited q M a -> limited q M b.
Proof.
  intros Hx Hok Hq HM Hsz Hl k r E.
  destruct Hx as [c i p d t Er|c i p l d t Er _|c r1 i r2 p l d t ER Er Hm|c i R p l d t ER Er Hbd|c i R p l d t ER Er Hbd]; cbn [rows] in *;
    (apply list_lookup_insert_Some in E as [(<- & <- & _)|[Hik E]]; [|by apply (Hl k)]);
    pose proof (Hl _ _ Er) as Hi; destruct (ro_rows _ _ Hok _ _ Er) as [_ Ht]; cbn [credit served] in *.
  - nia.
  - done.
  - done.
  - assert (sz p <= M) by (apply Hsz; apply (rows_elem _ i _ p Er); left). lia.
  - assert (0 < sz p) by (apply (ro_pos _ _ Hok); apply (rows_elem _ i _ p Er); left).
    destruct l; cbn [credit served]; [lia|]. unfold budget. destruct Ht as [-> | ->]; cbn; lia.
Qed.

Lemma sent_by_app i xs ys : sent_by sz i (xs ++ ys) = sent_by sz i xs + sent_by sz i ys.
Proof. unfold sent_by. induction xs as [|x xs IH]; cbn [app foldr]; [done|]. rewrite IH. lia. Qed.

Lemma shared_step i j a0 si sj a x b :
  rr_step sz q a x b -> rr_ok sz a -> i <> j -> i ∈ rr b -> j ∈ rr b -> shared q i j a0 si sj a ->
  shared q i j a0 (si + sent_by sz i [x]) (sj + sent_by sz j [x]) b.
Proof.
  intros Hx Hok Hij Hib Hjb (Hui & Huj & u & v & Hu & Hv & Hpos). pose proof (ro_ring _ _ Hok) as Hn.
  assert (Hin : i ∈ rr a /\ j ∈ rr a) by (destruct Hpos as [[[? ?]%before_in _]|[[? ?]%before_in _]]; done). destruct Hin as [Hia Hja].
  split; [by apply (unserved_step a x)|]. split; [by apply (unserved_step a x)|].
  exists (u + passed i x), (v + passed j x).
  pose proof (carried_step a x b i Hx Hok Hia Hib) as Hci. pose proof (carried_step a x b j Hx Hok Hja Hjb) as Hcj.
  split; [lia|]. split; [lia|]. destruct Hpos as [[Hb ->]|[Hb ->]].
  - pose proof (before_step a x b i j Hx Hn Hib Hjb Hb) as Hs. case_decide as Hd.
    + subst x. cbn [passed]. rewrite decide_True, decide_False by done. right. split; [done|lia].
    + destruct Hs as [Hd' Hs]. left. split; [done|]. destruct x; cbn [passed]; try done.
      by rewrite !decide_False by congruence.
  - pose proof (before_step a x b j i Hx Hn Hjb Hib Hb) as Hs. case_decide as Hd.
    + subst x. cbn [passed]. rewrite (decide_False (P := j = i)), decide_True by done. left. split; [done|lia].
    + destruct Hs as [Hd' Hs]. right. split; [done|]. destruct x; cbn [passed]; try lia.
      rewrite !decide_False by congruence. lia.
Qed.

(** The bound: the two turns differ by one at most. *)
Lemma shared_bound M i j a0 si sj a :
  shared q i j a0 si sj a -> before i j (rr a0) -> 0 <= q -> rr_ok sz a0 -> rr_ok sz a -> limited q M a0 -> limited q M a ->
  unserved a0 i -> unserved a0 j -> - (q + 2 * M) < si - sj < q + 2 * M.
Proof.
  intros (Hui & Huj & u & v & Hu & Hv & Hpos) Hb0 Hq Hok0 Hok Hl0 Hl Hui0 Huj0.
  assert (Hrange : forall c k, rr_ok sz c -> limited q M c -> unserved c k -> k ∈ rr c ->
    carried q c k < M /\ - q <= carried q c k /\ (head (rr c) <> Some k -> 0 <= carried q c k)).
  { intros c k Hokc Hlc Huc (r & E & _)%(ro_active _ _ Hokc). unfold carried. rewrite E. pose proof (Hlc k r E).
    destruct (ro_rows _ _ Hokc _ _ E) as [Hc [Hs|Hs]]; rewrite Hs in *; split_and!; try lia. intros Hh. by destruct (Hh (Huc r E Hs)). }
  pose proof (before_in _ _ _ Hb0) as [Hi0 Hj0]. pose proof (before_head _ _ _ (ro_ring _ _ Hok0) Hb0) as Hh0.
  pose proof (Hrange a0 i Hok0 Hl0 Hui0 Hi0) as (H1 & H2 & _). pose proof (Hrange a0 j Hok0 Hl0 Huj0 Hj0) as (H3 & H4 & H5). specialize (H5 Hh0).
  destruct Hpos as [[Hb ->]|[Hb ->]]; pose proof (before_in _ _ _ Hb) as [Hi Hj];
    pose proof (before_head _ _ _ (ro_ring _ _ Hok) Hb) as Hh.
  - destruct (Hrange a i Hok Hl Hui Hi) as (? & ? & _), (Hrange a j Hok Hl Huj Hj) as (? & _ & Hlow). specialize (Hlow Hh). lia.
  - destruct (Hrange a i Hok Hl Hui Hj) as (? & _ & Hlow), (Hrange a j Hok Hl Huj Hi) as (? & ? & _). specialize (Hlow Hh). lia.
Qed.

(** Steps without an arrival. *)
Definition quiet (xs : list label) : Prop := Forall (fun x => label_in x = []) xs.

Lemma quiet_drops ds : quiet (uncurry LDrop <$> ds).
Proof. apply Forall_fmap, Forall_true. by intros [k p]. Qed.
Lemma quiet_round is_ i p : quiet (round is_ i p).
Proof. apply Forall_app. split; [apply Forall_fmap, Forall_true; done|by constructor]. Qed.

Lemma quiet_step a x b k : rr_step sz q a x b -> label_in x = [] -> k ∈ rr b -> k ∈ rr a.
Proof.
  intros [c i p d t Er|c i p l d t Er Hl|c r1 i r2 p l d t ER Er Hm|c i R p l d t ER Er Hbd|c i R p l d t ER Er Hbd] Hq;
    cbn [rr]; try done; rewrite ER; try destruct l; set_solver.
Qed.

Lemma quiet_steps M i j a0 si sj a xs b :
  rr_steps sz q a xs b -> quiet xs -> rr_ok sz a -> 0 <= q -> 0 < M -> (forall p, p ∈ queued a -> sz p <= M) -> i <> j ->
  limited q M a -> limited q M b /\
  (i ∈ rr b -> j ∈ rr b -> i ∈ rr a /\ j ∈ rr a /\
    (shared q i j a0 si sj a -> shared q i j a0 (si + sent_by sz i xs) (sj + sent_by sz j xs) b)).
Proof.
  intros Hs. revert si sj. induction Hs as [a|a x b xs c Hx Hs IH]; intros si sj Hqu Hok Hq HM Hsz Hij Hl.
  { split; [done|]. intros Hi Hj. do 2 (split; [done|]). by rewrite !Z.add_0_r. }
  apply Forall_cons in Hqu as [Hqx Hqu]. assert (Hokb : rr_ok sz b).
  { apply (rr_step_ok sz q a x b Hq Hx Hok). rewrite Hqx. by intros p ?%elem_of_nil. }
  assert (Hszb : forall p, p ∈ queued b -> sz p <= M).
  { intros p Hp. apply Hsz. pose proof (rr_step_queued _ _ _ _ _ Hx) as Hp'. rewrite Hqx in Hp'. cbn [app] in Hp'. rewrite Hp'. set_solver. }
  destruct (IH (si + sent_by sz i [x]) (sj + sent_by sz j [x]) Hqu Hokb Hq HM Hszb Hij) as [Hlc Hsh]; [by apply (limited_step M a x)|].
  split; [done|]. intros Hi Hj. destruct (Hsh Hi Hj) as (Hib & Hjb & Hsh').
  pose proof (quiet_step a x b i Hx Hqx Hib). pose proof (quiet_step a x b j Hx Hqx Hjb). do 2 (split; [done|]).
  intros Ha. apply (shared_step i j a0 si sj a x b) in Ha; try done. apply Hsh' in Ha.
  change (x :: xs) with ([x] ++ xs). rewrite !sent_by_app, !Z.add_assoc. exact Ha.
Qed.

Lemma arrive_keeps a i p b k : rr_step sz q a (LArrive i p) b -> k ∈ rr a -> k ∈ rr b.
Proof. intros H Hk. inversion H; subst; cbn [rr]; [set_solver|done]. Qed.

Lemma arrival_steps M i j a0 si sj a k p ds b :
  rr_steps sz q a (arrival k p ds) b -> rr_ok sz a -> 0 <= q -> 0 < M -> (forall p, p ∈ queued a -> sz p <= M) -> i <> j ->
  p <> 0 -> 0 < sz p <= M -> p ∉ queued a -> limited q M a -> limited q M b /\
  (i ∈ rr a -> j ∈ rr a -> i ∈ rr b -> j ∈ rr b -> shared q i j a0 si sj a -> shared q i j a0 si sj b).
Proof.
  intros (a1 & Hx & Hs)%rr_steps_cons_inv Hok Hq HM Hsz Hij Hp0 Hp Hpq Hl.
  pose proof (rr_step_queued _ _ _ _ _ Hx) as Hperm. cbn [label_in label_out app] in Hperm.
  assert (Hok1 : rr_ok sz a1).
  { apply (rr_step_ok sz q a _ a1 Hq Hx Hok). cbn. intros p' ->%list_elem_of_singleton. split; [done|]. split; [lia|done]. }
  assert (Hsz1 : forall p, p ∈ queued a1 -> sz p <= M).
  { intros p'. rewrite <- Hperm. intros [->|Hp']%elem_of_cons; [lia|by apply Hsz]. }
  pose proof (limited_step M a _ a1 Hx Hok Hq HM Hsz Hl) as Hl1.
  destruct (quiet_steps M i j a0 si sj a1 _ b Hs (quiet_drops ds) Hok1 Hq HM Hsz1 Hij Hl1) as [Hlb Hsh].
  split; [done|]. intros Hia Hja Hib Hjb Ha. destruct (Hsh Hib Hjb) as (Hi1 & Hj1 & Hsh').
  apply (shared_step i j a0 si sj a _ a1 Hx Hok Hij Hi1 Hj1) in Ha. rewrite !Z.add_0_r in Ha. apply Hsh' in Ha.
  assert (E : forall k, sent_by sz k (uncurry LDrop <$> ds) = 0) by (intros k'; clear; induction ds as [|[? ?] ds IH]; [done|exact IH]).
  by rewrite !E, !Z.add_0_r in Ha.
Qed.

Lemma round_sent idx is_ k p a b i :
  rr_steps sz q a (round is_ k p) b -> sorted idx a -> sent_by sz i (round is_ k p) = bytes sz (of_flow idx i [p]).
Proof.
  intros Hs Hso. assert (E : idx p = k).
  { clear i. unfold round in Hs. revert a Hs Hso. induction is_ as [|k' is_ IH]; intros a (c & Hx & Hs)%rr_steps_cons_inv Hso.
    - apply rr_step_row in Hx as (i' & r & r' & Er & _ & E & Hw). subst i'. apply (Hso k r p Er). rewrite Hw. left.
    - apply (IH c Hs). by apply (sorted_step sz q idx a _ c Hx). }
  unfold round. rewrite sent_by_app. assert (E0 : sent_by sz i (LPass <$> is_) = 0) by (clear; induction is_ as [|k' is_ IH]; [done|exact IH]).
  rewrite E0. unfold sent_by, of_flow. cbn [foldr]. case_decide as Hd.
  - rewrite filter_cons_True by congruence. cbn. lia.
  - rewrite filter_cons_False by congruence. done.
Qed.
End Shares.

(** ** Shares in a run of the code *)

Lemma backlogged_ring s a i sz : refines s a -> rr_ok sz a -> backlogged i s -> i ∈ rr a.
Proof.
  intros Hs Hok Hb. unfold backlogged in Hb. destruct (flows s !! i) as [f|] eqn:Ef; [|done].
  pose proof (proj1 (Forall2_lookup _ _ _) (rf_flows _ _ Hs) i) as H. rewrite Ef in H. inversion H as [? r Hf E1 E2|]; subst.
  apply (ro_active _ _ Hok). exists r. split; [done|]. rewrite (fo_pkts _ _ _ Hf) in Hb. intros E. by rewrite E in Hb.
Qed.

Lemma fair_step M sz idx i j a0 si sj e s a :
  drr_ready M sz s a -> (forall p, flow_index s p = idx p) -> fresh M s a [e] -> i <> j ->
  sorted idx a -> limited (quantum_ s) M a ->
  returns (drr_step e s) (fun '(p, s') => exists a' xs, rr_steps sz (quantum_ s) a xs a' /\ (xs ≫= label_in) = drr_arrivals [e] /\
    drr_ready M sz s' a' /\ same_drr s s' /\ sorted idx a' /\ limited (quantum_ s) M a' /\
    (backlogged i s -> backlogged j s -> backlogged i s' -> backlogged j s' -> shared (quantum_ s) i j a0 si sj a ->
     shared (quantum_ s) i j a0 (si + bytes sz (of_flow idx i (if p =? 0 then [] else [p])))
       (sj + bytes sz (of_flow idx j (if p =? 0 then [] else [p]))) a')).
Proof.
  intros Hs Hidx Hfr Hij Hso Hl. eapply returns_mono; [apply (drr_step_ok M sz s a e Hs)|].
  { intros p ->. apply Hfr. left. }
  { destruct Hfr as (_ & _ & Hlen). cbn in Hlen. lia. }
  intros [p s1] (a1 & xs & Hxs & Hs1 & Hsame & Hby & Hin & He). exists a1, xs. do 4 (split; [done|]).
  destruct Hs as [Hr Hok Hsz Hset HM]. pose proof (ds_quantum _ _ Hset) as Hq. pose proof (ds_size _ _ Hset) as HM0.
  pose proof (fun k => backlogged_ring s a k sz Hr Hok) as Hra.
  pose proof (fun k => backlogged_ring s1 a1 k sz (dr_refines _ _ _ _ Hs1) (dr_ok _ _ _ _ Hs1)) as Hrb.
  assert (Hidxs : forall k p', LArrive k p' ∈ xs -> k = idx p').
  { destruct e as [p0|].
    - destruct He as (_ & ds & -> & _). rewrite Hidx. apply arrival_idx.
    - destruct He as (_ & He1 & He2). destruct (decide (queued a = [])) as [E|E]; [destruct (He1 E) as [_ ->]; by intros k p' ?%elem_of_nil|].
      destruct (He2 E) as (_ & is_ & k & ->). apply round_idx. }
  split.
  { clear - Hxs Hso Hidxs. induction Hxs as [a|a x b xs c Hx Hs IH]; [done|].
    apply IH; [|intros k p' Hp; apply Hidxs; by right]. apply (sorted_step sz (quantum_ s) idx a x); [done| |done].
    intros k p' ->. apply Hidxs. left. }
  destruct e as [p0|].
  - destruct He as (-> & ds & -> & _). destruct Hfr as (_ & Hv & _). destruct (Hv p0 ltac:(left)) as [(Hp0 & x & Ex & Hx & _) Hnq].
    destruct (size_of_access _ _ _ Ex) as [Ep _]. rewrite Hsz in Ep.
    destruct (arrival_steps sz (quantum_ s) M i j a0 si sj a _ p0 ds a1 Hxs Hok) as [Hl1 Hsh]; try done; [lia|lia|].
    split; [done|]. intros Hbi Hbj Hbi1 Hbj1 Ha. rewrite !Z.add_0_r. apply Hsh; auto.
  - destruct He as (_ & He1 & He2). destruct (decide (queued a = [])) as [E|E].
    + destruct (He1 E) as [-> ->]. apply rr_steps_nil_inv in Hxs. subst a1. split; [done|]. intros _ _ _ _ Ha. by rewrite !Z.add_0_r.
    + destruct (He2 E) as (Hp & is_ & k & ->). destruct (Z.eqb_spec p 0); [done|].
      destruct (quiet_steps sz (quantum_ s) M i j a0 si sj a _ a1 Hxs (quiet_round is_ k p) Hok) as [Hl1 Hsh]; try done; [lia|].
      split; [done|]. intros Hbi Hbj Hbi1 Hbj1 Ha. destruct (Hsh (Hrb i Hbi1) (Hrb j Hbj1)) as (_ & _ & Hsh').
      rewrite <- !(round_sent sz (quantum_ s) idx is_ k p a a1) by done. by apply Hsh'.
Qed.

Lemma fair_run M sz q idx i j a0 si sj es s a :
  drr_ready M sz s a -> quantum_ s = q -> (forall p, flow_index s p = idx p) -> fresh M s a es -> i <> j ->
  sorted idx a -> limited q M a ->
  returns (drr_run es s) (fun '(ps, s') => exists a', drr_ready M sz s' a' /\ same_drr s s' /\ sorted idx a' /\ limited q M a' /\
    (forall p, p ∈ queued a' -> p ∈ drr_arrivals es ++ queued a) /\ (length (queued a') <= length es + length (queued a))%nat /\
    (stays_backlogged i es s -> stays_backlogged j es s -> shared q i j a0 si sj a ->
     shared q i j a0 (si + bytes sz (of_flow idx i ps)) (sj + bytes sz (of_flow idx j ps)) a')).
Proof.
  revert s a si sj. induction es as [|e es IH]; intros s a si sj Hs Hq Hidx Hfr Hij Hso Hl; cbn [drr_run].
  { cbn [returns]. exists a. do 6 (split; [done|]). intros _ _ Ha. by rewrite !Z.add_0_r. }
  subst q. assert (Hfr1 : fresh M s a [e]).
  { destruct Hfr as (Hn & Hv & Hlen).
    assert (E : drr_arrivals (e :: es) = drr_arrivals [e] ++ drr_arrivals es) by apply (drr_arrivals_app [e]). rewrite E in Hn, Hv. apply NoDup_app in Hn as (Hn & _).
    split; [done|]. split; [intros p Hp; apply Hv; set_solver|]. cbn in Hlen |- *. lia. }
  pose proof (fair_step M sz idx i j a0 si sj e s a Hs Hidx Hfr1 Hij Hso Hl) as Hstep.
  apply returns_inv in Hstep as ([p s1] & Es & a1 & xs & Hxs & Hin & Hs1 & Hsame & Hso1 & Hl1 & Hsh). rewrite Es, bind_Ok.
  assert (Hq1 : quantum_ s1 = quantum_ s) by apply Hsame.
  eapply returns_bind; [apply (IH s1 a1 (si + bytes sz (of_flow idx i (if p =? 0 then [] else [p])))
    (sj + bytes sz (of_flow idx j (if p =? 0 then [] else [p]))) Hs1 Hq1)|]; try done.
  { intros p'. by rewrite (same_index s). }
  { by apply (fresh_next M s a e es _ _ _ _ _ Hfr Hxs). }
  intros [ps s2] (a2 & Hs2 & Hsame2 & Hso2 & Hl2 & Hq2 & Hn2 & Hsh2). cbn [returns]. exists a2. split; [done|].
  split; [by apply (same_drr_trans _ s1)|]. do 2 (split; [done|]). destruct (steps_queued _ _ _ _ _ _ Hxs Hin) as [Hq3 Hn3].
  split; [|split; [cbn [length]; lia|]].
  { intros p' [Hp'|Hp']%Hq2%elem_of_app; [|apply Hq3 in Hp']; rewrite (drr_arrivals_app [e] es : drr_arrivals (e :: es) = _); set_solver. }
  intros [Hbi Hsi] [Hbj Hsj] Ha.
  rewrite Es in Hsi, Hsj.
  assert (Hbi1 : backlogged i s1) by (destruct es; apply Hsi). assert (Hbj1 : backlogged j s1) by (destruct es; apply Hsj).
  specialize (Hsh2 Hsi Hsj (Hsh Hbi Hbj Hbi1 Hbj1 Ha)).
  destruct (p =? 0); [by rewrite !Z.add_0_r in Hsh2|]. change (p :: ps) with ([p] ++ ps).
  by rewrite !of_flow_app, !bytes_app, !Z.add_assoc.
Qed.

Lemma fresh_new M s buckets es :
  NoDup (drr_arrivals es) -> (forall p, p ∈ drr_arrivals es -> may_arrive M (mem s) p) -> Z.of_nat (length es) < 1099511627776 ->
  fresh M s (idle_sched buckets) es.
Proof.
  intros Hnd Hv Hlen. split; [done|]. rewrite idle_queued. split; [|cbn; lia]. intros p Hp. split; [by apply Hv|set_solver].
Qed.

(** The state after the first part of a run. *)
Lemma fair_ready M m buckets blimit quantum mask es1 es2 ps1 s1 :
  let s := new_drr m buckets blimit quantum mask in
  drr_settings M s -> NoDup (drr_arrivals (es1 ++ es2)) -> (forall p, p ∈ drr_arrivals (es1 ++ es2) -> may_arrive M m p) ->
  Z.of_nat (length (es1 ++ es2)) < 1099511627776 -> drr_run es1 s = Ok (ps1, s1) ->
  exists a1, drr_ready M (size_of m) s1 a1 /\ same_drr s s1 /\ sorted (flow_index s) a1 /\ limited quantum M a1 /\ fresh M s1 a1 es2.
Proof.
  cbv zeta. intros Hset Hnd Hv Hlen E1. pose proof (new_drr_ready M m buckets blimit quantum mask Hset) as Hs.
  set (s := new_drr m buckets blimit quantum mask) in *. rewrite drr_arrivals_app in Hnd, Hv. rewrite length_app in Hlen.
  apply NoDup_app in Hnd as (Hn1 & H12 & Hn2).
  pose proof (fair_run M (size_of m) quantum (flow_index s) 0 1 (idle_sched buckets) 0 0 es1 s (idle_sched buckets) Hs) as H.
  rewrite E1 in H. destruct H as (a1 & Hs1 & Hsame & Hso & Hl & Hq & Hn & _); try done.
  - apply fresh_new; [done| |lia]. intros p Hp. apply Hv. set_solver.
  - intros i r p [-> _]%lookup_replicate. by intros ?%elem_of_nil.
  - intros i r [-> _]%lookup_replicate. cbn. pose proof (ds_size _ _ Hset). lia.
  - rewrite idle_queued, app_nil_r in Hq. rewrite idle_queued in Hn. cbn [length] in Hn. exists a1. do 4 (split; [done|]). split; [done|]. split; [|lia].
    intros p Hp. split; [apply (same_arrive M s); [done|]; apply Hv; set_solver|]. intros Hpq%Hq. by apply (H12 p).
Qed.

Lemma unserved_ok M sz s a : drr_ready M sz s a -> forall i, unserved_flow i s -> unserved a i.
Proof.
  intros Hs i Hu r E Hr. pose proof (dr_refines _ _ _ _ Hs) as Hre.
  pose proof (proj1 (Forall2_lookup _ _ _) (rf_flows _ _ Hre) i) as H. rewrite E in H. inversion H as [f ? Hf E1|]; subst.
  rewrite <- (rf_curr _ _ Hre). destruct (Hu f) as [Ht|Ht]; [done| |done]. rewrite (fo_served _ _ _ Hf) in Ht. lia.
Qed.

(** From a state with [i] before [j] in the ring. *)
Lemma fair_between M sz q idx i j es s a :
  drr_ready M sz s a -> quantum_ s = q -> (forall p, flow_index s p = idx p) -> fresh M s a es -> i <> j ->
  sorted idx a -> limited q M a -> unserved a i -> unserved a j -> before i j (rr a) ->
  stays_backlogged i es s -> stays_backlogged j es s ->
  returns (drr_run es s) (fun '(ps, _) =>
    - (q + 2 * M) < bytes sz (of_flow idx i ps) - bytes sz (of_flow idx j ps) < q + 2 * M).
Proof.
  intros Hs Hq Hidx Hfr Hij Hso Hl Hui Huj Hb Hbi Hbj.
  eapply returns_mono; [by apply (fair_run M sz q idx i j a 0 0 es s a)|].
  intros [ps s2] (a2 & Hs2 & Hsame & _ & Hl2 & _ & _ & Hsh). pose proof (ds_quantum _ _ (dr_settings _ _ _ _ Hs)).
  assert (H0 : shared q i j a 0 0 a) by (split; [done|]; split; [done|]; exists 0, 0; split_and!; [lia|lia|by left]).
  specialize (Hsh Hbi Hbj H0). rewrite !Z.add_0_l in Hsh.
  apply (shared_bound sz q M i j a _ _ a2 Hsh Hb); try done; [lia|apply Hs|apply Hs2].
Qed.

(** ** The commands *)

Lemma clear_scan_ok s a n i fs :
  refines s a -> drr s = Some fs -> (i + n = length (rows a))%nat ->
  match clear_scan n i s with
  | Ok s' => s' = s <| drr := None |> /\ forall j r, (i <= j)%nat -> rows a !! j = Some r -> waiting r = []
  | Trap u => u = AssertFail /\ exists j r, rows a !! j = Some r /\ waiting r <> []
  end.
Proof.
  intros Hs E. revert i. induction n as [|n IH]; intros i Hn; cbn [clear_scan].
  - split; [done|]. intros j r Hj Er. apply lookup_lt_Some in Er. lia.
  - destruct (lookup_lt_is_Some_2 (rows a) i) as [r Er]; [lia|].
    pose proof (proj1 (Forall2_lookup _ _ _) (rf_flows _ _ Hs) i) as H. rewrite Er, (flows_some s fs E) in H.
    inversion H as [f ? Hf Ef|]; subst. rewrite (flow_deref_ok s fs i f E) by done. rewrite bind_Ok, (fo_pkts _ _ _ Hf).
    destruct (waiting r) as [|p l] eqn:Ew; cbn [length nz].
    + change (nz (Z.of_nat 0)) with false. cbv iota. specialize (IH (S i) ltac:(lia)). destruct (clear_scan n (S i) s); [|done].
      destruct IH as [-> IH]. split; [done|]. intros j r' Hj Er'.
      destruct (decide (j = i)) as [->|]; [rewrite Er in Er'; by injection Er' as <-|apply (IH j); [lia|done]].
    + split; [done|]. exists i, r. by rewrite Ew.
Qed.

(** * Properties *)

(** C29: the code of DRR is deficit round robin.  From an empty queue, whatever
    arrives (packets of at most [M] bytes from addresses that are not negative)
    and whenever a packet is taken, nothing aborts or loops, and the run is one
    of the step relation: an arrival joins its flow, at the end of the ring if
    the flow was idle, and while the buffer holds more than [blimit_] bytes, and no
    longer, the longest flow drops its first packet; a deque passes the turn along flows that cannot afford their
    first packet, and sends one as soon as a flow can: never nothing while a
    packet waits.  The array of linked queues, the ring of prev and next and the
    counters stand for the lists of the relation. *)
Theorem drr_refines_round_robin M m buckets blimit quantum mask es :
  let s := new_drr m buckets blimit quantum mask in
  drr_settings M s -> NoDup (drr_arrivals es) -> (forall p, p ∈ drr_arrivals es -> may_arrive M m p) ->
  Z.of_nat (length es) < 1099511627776 ->
  returns (drr_run es s) (fun '(ps, s') => exists a,
    rr_run (size_of m) quantum blimit (flow_index s) (idle_sched buckets) es ps (dropped s') a /\ refines s' a /\ bytecnt s' <= blimit).
Proof.
  cbv zeta. intros Hset Hnd Hv Hlen. pose proof (new_drr_ready M m buckets blimit quantum mask Hset) as Hs.
  eapply returns_mono; [apply (drr_run_ok M (size_of m) quantum blimit (flow_index (new_drr m buckets blimit quantum mask)) es _ _ Hs)|]; try done.
  { by apply fresh_new. }
  intros [ps s'] (a & drs & Hrun & Hs' & Hsame & Hd & Hby). exists a. cbn in Hd, Hby. subst drs. split; [done|]. split; [apply Hs'|].
  pose proof (ds_blimit _ _ Hset) as Hbl. cbn in Hbl. lia.
Qed.

(** C31: the packets of a flow are sent in the order they arrived; and each packet
    that arrived is sent, waits in its own flow, or was dropped, once. *)
Theorem drr_keeps_order M m buckets blimit quantum mask es :
  let s := new_drr m buckets blimit quantum mask in
  drr_settings M s -> NoDup (drr_arrivals es) -> (forall p, p ∈ drr_arrivals es -> may_arrive M m p) ->
  Z.of_nat (length es) < 1099511627776 ->
  returns (drr_run es s) (fun '(ps, s') => exists a, refines s' a /\ accounted (flow_index s) (drr_arrivals es) ps (dropped s') a).
Proof.
  cbv zeta. intros Hset Hnd Hv Hlen. pose proof (new_drr_ready M m buckets blimit quantum mask Hset) as Hs.
  set (idx := flow_index (new_drr m buckets blimit quantum mask)).
  eapply returns_mono; [apply (drr_run_ok M (size_of m) quantum blimit idx es _ _ Hs)|]; try done.
  { by apply fresh_new. }
  intros [ps s'] (a & drs & Hrun & Hs' & Hsame & Hd & Hby). exists a. split; [apply Hs'|]. cbn in Hd. subst drs.
  apply (accounted_run _ _ _ _ [] [] []) in Hrun; [exact Hrun|]. constructor.
  - intros i r p [-> _]%lookup_replicate. by intros ?%elem_of_nil.
  - intros i r [-> _]%lookup_replicate. done.
  - by rewrite idle_queued.
Qed.

(** C30: fair shares.  While two flows both have packets, from any moment at which
    neither has had its quantum out of turn, the bytes they send differ by less
    than the quantum and two packets of the largest size [M], whatever the other
    flows do, whatever is dropped and however long it lasts. *)
Theorem drr_fair M m buckets blimit quantum mask es1 es2 ps1 s1 i j :
  let s := new_drr m buckets blimit quantum mask in
  drr_settings M s -> NoDup (drr_arrivals (es1 ++ es2)) -> (forall p, p ∈ drr_arrivals (es1 ++ es2) -> may_arrive M m p) ->
  Z.of_nat (length (es1 ++ es2)) < 1099511627776 ->
  drr_run es1 s = Ok (ps1, s1) -> i <> j -> unserved_flow i s1 -> unserved_flow j s1 ->
  stays_backlogged i es2 s1 -> stays_backlogged j es2 s1 ->
  returns (drr_run es2 s1) (fun '(ps, _) =>
    Z.abs (bytes (size_of m) (of_flow (flow_index s) i ps) - bytes (size_of m) (of_flow (flow_index s) j ps)) < quantum + 2 * M).
Proof.
  cbv zeta. intros Hset Hnd Hv Hlen E1 Hij Hui Huj Hbi Hbj. pose proof (new_drr_ready M m buckets blimit quantum mask Hset) as Hs.
  set (s := new_drr m buckets blimit quantum mask) in *. destruct (fair_ready M m buckets blimit quantum mask es1 es2 ps1 s1 Hset Hnd Hv Hlen E1) as (a1 & Hs1 & Hsame & Hso & Hl & Hfr).
  fold s in Hs1, Hsame, Hso, Hl, Hfr. assert (Hq : quantum_ s1 = quantum) by apply Hsame.
  assert (Hidx : forall p, flow_index s1 p = flow_index s p) by (intros p; by apply same_index).
  pose proof (unserved_ok _ _ _ _ Hs1) as Hun. pose proof (dr_refines _ _ _ _ Hs1) as Hr1. pose proof (dr_ok _ _ _ _ Hs1) as Hok1.
  assert (Hi : i ∈ rr a1) by (destruct es2; eapply backlogged_ring; by try apply Hbi).
  assert (Hj : j ∈ rr a1) by (destruct es2; eapply backlogged_ring; by try apply Hbj).
  destruct (before_total i j (rr a1) Hij Hi Hj) as [Hb|Hb].
  - eapply returns_mono; [by apply (fair_between M (size_of m) quantum (flow_index s) i j es2 s1 a1); auto|]. intros [ps s2]. lia.
  - eapply returns_mono; [apply (fair_between M (size_of m) quantum (flow_index s) j i es2 s1 a1); auto|]. intros [ps s2]. lia.
Qed.

(** The commands of DRR.  blimit ends the program (AssertFail) if the buffer
    holds more than the new limit; buckets ends it if any packet is queued, and
    otherwise leaves an idle queue of [n] flows; the others do not touch the
    queue. *)
Theorem drr_commands_correct sz s a n :
  refines s a -> rr_ok sz a -> 0 <= n ->
  match drr_cmd (CBlimit n) s with
  | Ok s' => refines s' a /\ bytecnt s' <= blimit_ s'
  | Trap u => u = AssertFail /\ n < bytecnt s
  end /\
  match drr_cmd (CBuckets n) s with
  | Ok s' => queued a = [] /\ refines s' (idle_sched n) /\ rr_ok sz (idle_sched n)
  | Trap u => u = AssertFail /\ queued a <> []
  end /\
  returns (drr_cmd (CQuantum n) s) (fun s' => refines s' a) /\ returns (drr_cmd (CMask n) s) (fun s' => refines s' a).
Proof.
  intros Hs Hok Hn. split; [|split; [|destruct Hs as [H1 H2 H3 H4 H5 H6 H7 H8]; cbn; split; by constructor]].
  - cbn [drr_cmd]. case_cond; [split; [done|lia]|]. split; [destruct Hs as [H1 H2 H3 H4 H5 H6 H7 H8]; by constructor|cbn; lia].
  - assert (Hidle : queued a = [] -> forall t, bytecnt t = bytecnt s -> pktcnt t = pktcnt s -> flwcnt t = flwcnt s -> curr t = curr s ->
      drr t = None -> buckets_ t = n -> refines t (idle_sched n) /\ rr_ok sz (idle_sched n)).
    { intros Hq t E1 E2 E3 E4 E5 E6. pose proof (proj2 (ring_empty sz a Hok) Hq) as Hrr. split; [|apply (idle_ok_rr sz n)].
      apply idle_refines; [by rewrite E5|lia|by rewrite E6| | | |].
      - by rewrite E4, (rf_curr _ _ Hs), Hrr.
      - by rewrite E3, (rf_flwcnt _ _ Hs), Hrr.
      - by rewrite E2, (rf_pktcnt _ _ Hs), Hq.
      - by rewrite E1, (rf_bytecnt _ _ Hs), Hq. }
    cbn [drr_cmd]. unfold clear. destruct (drr s) as [fs|] eqn:E.
    + pose proof (clear_scan_ok s a (Z.to_nat (buckets_ s)) 0 fs Hs E ltac:(pose proof (rf_buckets _ _ Hs); lia)) as Hc.
      destruct (clear_scan _ _ _) as [s1|u]; cbn [mbind outcome_bind].
      * destruct Hc as [-> Hall]. assert (Hq : queued a = []).
        { apply elem_of_nil_inv. intros p (i & r & Er & Hp)%queued_elem. rewrite (Hall i r ltac:(lia) Er) in Hp. set_solver. }
        split; [done|]. by apply Hidle.
      * destruct Hc as (-> & j & r & Er & Hr). split; [done|]. intros Hq. destruct (waiting r) as [|p l] eqn:Ew; [done|].
        assert (Hp : p ∈ queued a) by (apply (rows_elem _ j r _ Er); rewrite Ew; left). rewrite Hq in Hp. set_solver.
    + rewrite bind_Ok. assert (Hq : queued a = []).
      { apply (ring_empty sz a Hok). destruct (rr a) eqn:Er; [done|]. destruct (rf_array _ _ Hs); [by rewrite Er|congruence]. }
      split; [done|]. by apply Hidle.
Qed.

(** ** The examples *)

(** Two sources with three packets each; the first sends small packets. *)
Definition demo_memory : memory := Eval vm_compute in
  <[1 := mk_packet 100 1 0]> (<[2 := mk_packet 200 1 0]> (<[3 := mk_packet 100 1 0]>
  (<[4 := mk_packet 500 2 0]> (<[5 := mk_packet 300 2 0]> (<[6 := mk_packet 400 2 0]> ∅))))).
Definition demo_arrivals : list drr_event := [EArrive 1; EArrive 4; EArrive 2; EArrive 5; EArrive 3; EArrive 6].
Definition demo_drr : drr_queue := new_drr demo_memory 16 1600 250 0.

Lemma demo_settings : drr_settings 500 demo_drr.
Proof. by constructor. Qed.
Lemma demo_fresh : NoDup (drr_arrivals demo_arrivals) /\ forall p, p ∈ drr_arrivals demo_arrivals -> may_arrive 500 demo_memory p.
Proof.
  split; [repeat constructor; set_solver|]. intros p Hp. unfold demo_arrivals in Hp. cbn in Hp.
  repeat (apply elem_of_cons in Hp as [->|Hp]; [split; [done|]; eexists; split; [reflexivity|cbn; lia]|]). by apply elem_of_nil in Hp.
Qed.

(** A buffer for 1500 bytes: the longest flow drops its first packet. *)
Definition tight_drr : drr_queue := new_drr demo_memory 16 1500 250 0.
Definition demo_deques : list drr_event := [EDeque; EDeque; EDeque; EDeque; EDeque; EDeque].

Lemma drr_refines_round_robin_witness :
  drr_settings 500 tight_drr /\ NoDup (drr_arrivals (demo_arrivals ++ demo_deques)) /\
  exists s a, drr_run (demo_arrivals ++ demo_deques) tight_drr = Ok ([1; 2; 3; 5; 6], s) /\
    rr_run (size_of demo_memory) 250 1500 (flow_index tight_drr) (idle_sched 16) (demo_arrivals ++ demo_deques) [1; 2; 3; 5; 6] [4] a /\
    bytecnt s = 0 /\ refines s a.
Proof.
  assert (Hset : drr_settings 500 tight_drr) by (constructor; reflexivity || discriminate).
  split; [exact Hset|]. split; [exact (proj1 demo_fresh)|].
  assert (E : match drr_run (demo_arrivals ++ demo_deques) tight_drr with
    | Ok (ps, s) => ps = [1; 2; 3; 5; 6] /\ dropped s = [4] /\ bytecnt s = 0 | Trap _ => False end) by (by vm_compute).
  pose proof (drr_refines_round_robin 500 demo_memory 16 1500 250 0 (demo_arrivals ++ demo_deques)
    Hset (proj1 demo_fresh) (proj2 demo_fresh) ltac:(reflexivity)) as H. cbv zeta in H. fold tight_drr in H. revert E H.
  generalize (drr_run (demo_arrivals ++ demo_deques) tight_drr). intros [[ps s]|u] E H; [|destruct E].
  destruct E as (-> & Ed & E). destruct H as (a & Hr & Hs & _). rewrite Ed in Hr. exists s, a. split; [reflexivity|].
  split; [exact Hr|]. split; [exact E|exact Hs].
Defined.

Lemma drr_keeps_order_witness :
  exists s a, drr_run (demo_arrivals ++ [EDeque; EDeque]) (new_drr demo_memory 16 1500 250 0) = Ok ([1; 2], s) /\
    dropped s = [4] /\ drr_arrivals demo_arrivals ≡ₚ [1; 2] ++ queued a ++ [4].
Proof.
  assert (E : match drr_run (demo_arrivals ++ [EDeque; EDeque]) (new_drr demo_memory 16 1500 250 0) with
    | Ok (ps, s) => ps = [1; 2] /\ dropped s = [4] | Trap _ => False end) by (by vm_compute).
  pose proof (drr_keeps_order 500 demo_memory 16 1500 250 0 (demo_arrivals ++ [EDeque; EDeque])
    ltac:(constructor; reflexivity || discriminate) (proj1 demo_fresh) (proj2 demo_fresh) ltac:(reflexivity)) as H. cbv zeta in H. revert E H.
  generalize (drr_run (demo_arrivals ++ [EDeque; EDeque]) (new_drr demo_memory 16 1500 250 0)). intros [[ps s]|u] E H; [|destruct E].
  destruct E as [-> E]. destruct H as (a & _ & [_ _ Ha]). exists s, a. split; [reflexivity|]. split; [exact E|]. rewrite E in Ha. exact Ha.
Defined.

Definition demo_busy : drr_queue := Eval vm_compute in match drr_run demo_arrivals demo_drr with Ok (_, s) => s | Trap _ => demo_drr end.

Lemma demo_busy_run : drr_run demo_arrivals demo_drr = Ok ([], demo_busy).
Proof. vm_compute. reflexivity. Qed.
Lemma demo_busy_flows : stays_backlogged 1 [EDeque; EDeque] demo_busy /\ stays_backlogged 2 [EDeque; EDeque] demo_busy.
Proof. vm_compute. auto. Qed.
Lemma demo_busy_turns : unserved_flow 1 demo_busy /\ unserved_flow 2 demo_busy.
Proof. split; intros f Ef; vm_compute in Ef; injection Ef as <-; by left. Qed.

(** Flows 1 and 2 have packets before and after two deques. *)
Lemma drr_fair_witness :
  stays_backlogged 1 [EDeque; EDeque] demo_busy /\ stays_backlogged 2 [EDeque; EDeque] demo_busy /\
  returns (drr_run [EDeque; EDeque] demo_busy) (fun '(ps, _) =>
    Z.abs (bytes (size_of demo_memory) (of_flow (flow_index (new_drr demo_memory 16 1600 250 0)) 1 ps) -
           bytes (size_of demo_memory) (of_flow (flow_index (new_drr demo_memory 16 1600 250 0)) 2 ps)) < 250 + 2 * 500).
Proof.
  split; [exact (proj1 demo_busy_flows)|]. split; [exact (proj2 demo_busy_flows)|].
  exact (drr_fair 500 demo_memory 16 1600 250 0 demo_arrivals [EDeque; EDeque] [] demo_busy 1 2 demo_settings
    (proj1 demo_fresh) (proj2 demo_fresh) ltac:(reflexivity) demo_busy_run ltac:(discriminate)
    (proj1 demo_busy_turns) (proj2 demo_busy_turns) (proj1 demo_busy_flows) (proj2 demo_busy_flows)).
Defined.

(** enque leaves [turn] set when it drops the last packet of the flow in turn:
    the flow 1 sends 1, loses 2 to the buffer, comes back with 3, and then has to
    pass a turn without a quantum, so that 4 is sent before 3. *)
Definition stale_memory : memory := Eval vm_compute in
  <[1 := mk_packet 100 1 0]> (<[2 := mk_packet 900 1 0]> (<[3 := mk_packet 100 1 0]> (<[4 := mk_packet 500 2 0]> ∅))).
Example drr_stale_turn :
  match drr_run [EArrive 1; EArrive 2; EDeque; EArrive 4; EArrive 3; EDeque] (new_drr stale_memory 16 1000 250 0) with
  | Ok (ps, s) => ps = [1; 4] /\ dropped s = [2]
  | Trap _ => False
  end /\
  match drr_run [EArrive 4; EArrive 3; EDeque] (new_drr stale_memory 16 1000 250 0) with
  | Ok (ps, _) => ps = [3]
  | Trap _ => False
  end.
Proof. by vm_compute. Qed.

(** An address with the top bit set has a negative index. *)
Definition far_memory : memory := Eval vm_compute in <[1 := mk_packet 100 (-2147483648) 0]> ∅.
Example drr_negative_index : drr_enque 1 (new_drr far_memory 16 1000 250 0) = Trap OutOfBounds.
Proof. by vm_compute. Qed.

Lemma drr_commands_correct_witness :
  exists s a, drr_run demo_arrivals demo_drr = Ok ([], s) /\ refines s a /\ drr_cmd (CBuckets 8) s = Trap AssertFail /\
    drr_cmd (CBlimit 1599) s = Trap AssertFail /\ queued a <> [].
Proof.
  assert (E : match drr_run demo_arrivals demo_drr with
    | Ok (ps, s) => ps = [] /\ drr_cmd (CBuckets 8) s = Trap AssertFail /\ drr_cmd (CBlimit 1599) s = Trap AssertFail
    | Trap _ => False end) by (by vm_compute).
  pose proof (drr_run_ok 500 (size_of demo_memory) 250 1600 (flow_index demo_drr) demo_arrivals demo_drr (idle_sched 16)
    (new_drr_ready _ _ _ _ _ _ demo_settings) eq_refl eq_refl (fun _ => eq_refl)
    (fresh_new 500 demo_drr 16 demo_arrivals (proj1 demo_fresh) (proj2 demo_fresh) ltac:(reflexivity))) as H.
  revert E H. generalize (drr_run demo_arrivals demo_drr). intros [[ps s]|u] E H; [|destruct E].
  destruct E as (-> & E1 & E2). destruct H as (a & drs & _ & Hs & _). exists s, a. split; [reflexivity|]. split; [apply Hs|].
  split; [exact E1|]. split; [exact E2|].
  destruct (drr_commands_correct (size_of demo_memory) s a 8 (dr_refines _ _ _ _ Hs) (dr_ok _ _ _ _ Hs) ltac:(discriminate)) as (_ & Hb & _).
  rewrite E1 in Hb. apply Hb.
Defined.
