(* ===== verification/Hop.v ===== *)
(** * The Bluetooth hop selection kernel and the set of channels in use

    bluetooth/baseband.cc and baseband.h: class BTChannelUseSet (the AFH channel
    map, its hexadecimal form and the table of the channels in use computed
    from it), Baseband::FH_kernel, which maps a clock and an address to one
    of 79 channels, and Baseband::_interlaceClk.

    [clk_t] and [bd_addr_t] are [int]: clocks and addresses are plain integers
    and every use of them is masked.  The arrays of BTChannelUseSet are lists of
    their 80 elements; before the first _expand their contents are arbitrary. *)
From S2P Require Import Prelude.
From stdpp Require Import strings.
From Stdlib Require Import Ascii.
#[local] Open Scope Z_scope.

(** * Definitions *)

(** ** [for (i = 0; i < n; i++)] with a body that may trap *)

Fixpoint for_from {S} (n : nat) (i : Z) (body : Z -> S -> outcome S) (s : S) : outcome S :=
  match n with
  | O => Ok s
  | Datatypes.S n' => s' ← body i s; for_from n' (i + 1) body s'
  end.
Definition for_loop {S} (n : nat) (body : Z -> S -> outcome S) (s : S) : outcome S := for_from n 0 body s.

(** ** BTChannelUseSet *)

(** [map] is the view [_u.map] of the union as ten bytes. *)
Record BTChannelUseSet : Type := mkChannels {
  map : list Z;
  _numUsedCh : Z;
  _usedCh : list Z;
  _notUsedCh : list Z }.

#[global] Instance eta_channels : Eta BTChannelUseSet := fun s =>
  mkChannels (map s) (_numUsedCh s) (_usedCh s) (_notUsedCh s).

(** The body of the inner loop of _expand; [odd] is the local [oddCh] with
    [numOddCh]. *)
Definition expand_bit (i j : Z) (st : BTChannelUseSet * (list Z * Z)) : outcome (BTChannelUseSet * (list Z * Z)) :=
  let '(s, (oddCh, numOddCh)) := st in
  byte ← aread (map s) i;
  if nz (Z.land (byte ≫ j) 1) then
    st' ← (if nz (Z.land j 1) then
             odd ← awrite oddCh numOddCh (i * 8 + j);
             Ok (s, (odd, numOddCh + 1))
           else
             used ← awrite (_usedCh s) (_numUsedCh s) (i * 8 + j);
             Ok (s <| _usedCh := used |> <| _numUsedCh := _numUsedCh s + 1 |>, (oddCh, numOddCh)));
    let '(s', odd) := st' in
    notUsed ← awrite (_notUsedCh s') (i * 8 + j) 0;
    Ok (s' <| _notUsedCh := notUsed |>, odd)
  else
    notUsed ← awrite (_notUsedCh s) (i * 8 + j) 1;
    Ok (s <| _notUsedCh := notUsed |>, (oddCh, numOddCh)).

(** [memcpy(&dst[at], src, n)] *)
Definition memcpy_at (dst : list Z) (at_ : Z) (src : list Z) (n : Z) : outcome (list Z) :=
  if (0 <=? at_) && (0 <=? n) && (at_ + n <=? Z.of_nat (length dst)) && (n <=? Z.of_nat (length src)) then
    Ok (take (Z.to_nat at_) dst ++ take (Z.to_nat n) src ++ drop (Z.to_nat (at_ + n)) dst)
  else Trap OutOfBounds.

(** [odd0] is the uninitialised local array [oddCh] of 40 elements. *)
Definition _expand (odd0 : list Z) (s : BTChannelUseSet) : outcome BTChannelUseSet :=
  top ← aread (map s) 9;
  m ← awrite (map s) 9 (Z.land top 127);
  let s := s <| _numUsedCh := 0 |> <| map := m |> in
  st ← for_loop 10 (fun i => for_loop 8 (expand_bit i)) (s, (odd0, 0));
  let '(s, (oddCh, numOddCh)) := st in
  used ← memcpy_at (_usedCh s) (_numUsedCh s) oddCh numOddCh;
  Ok (s <| _usedCh := used |> <| _numUsedCh := _numUsedCh s + numOddCh |>).

Definition reset_body (i : Z) (m : list Z) : outcome (list Z) := awrite m i 255.

Definition reset (odd0 : list Z) (s : BTChannelUseSet) : outcome BTChannelUseSet :=
  m ← for_loop 9 reset_body (map s);
  m ← awrite m 9 127;
  _expand odd0 (s <| map := m |>).

(** The code of a character; [char] is signed, which does not matter here: a
    code above 127 is neither a digit nor a letter either way. *)
Definition char_code (c : ascii) : Z := Z.of_N (N_of_ascii c).

(** The value of a hexadecimal digit, [None] where the code calls abort(). *)
Definition hex_digit (c : Z) : option Z :=
  if (48 <=? c) && (c <=? 57) then Some (c - 48)
  else if (65 <=? c) && (c <=? 70) then Some (c - 65 + 10)
  else if (97 <=? c) && (c <=? 102) then Some (c - 97 + 10)
  else None.

Definition read_digit (ch : list Z) (i : Z) : outcome Z :=
  c ← aread ch i;
  match hex_digit c with Some v => Ok v | None => Trap AssertFail end.

Definition import_byte (ch : list Z) (i : Z) (m : list Z) : outcome (list Z) :=
  hi ← read_digit ch (2 * i);
  m ← awrite m (9 - i) (u8 hi);
  b ← aread m (9 - i);
  m ← awrite m (9 - i) (u8 (b ≪ 4));
  lo ← read_digit ch (2 * i + 1);
  b ← aread m (9 - i);
  awrite m (9 - i) (u8 (b + lo)).

Definition importMapByHexString (odd0 : list Z) (ch : string) (s : BTChannelUseSet) : outcome BTChannelUseSet :=
  let codes := char_code <$> String.list_ascii_of_string ch in
  let len := Z.of_nat (length codes) in
  digits ← (match codes with
            | c0 :: c1 :: rest =>
                if (len =? 22) && (c0 =? 48) && ((c1 =? 120) || (c1 =? 88)) then Ok rest
                else if negb (len =? 20) then Trap AssertFail else Ok codes
            | _ => Trap AssertFail
            end);
  m ← for_loop 10 (import_byte digits) (map s);
  _expand odd0 (s <| map := m |>).

(** [memcpy(_u.map, map, 10)] *)
Definition importMap (odd0 : list Z) (m : list Z) (s : BTChannelUseSet) : outcome BTChannelUseSet :=
  m' ← memcpy_at (map s) 0 m 10;
  _expand odd0 (s <| map := m' |>).

Definition exportMap (s : BTChannelUseSet) : list Z := map s.

(** ntohl and ntohs put the first byte of the network order first in memory. *)
Definition big_endian (n : nat) (v : Z) : list Z :=
  (fun k => u8 (v ≫ (8 * (Z.of_nat n - 1 - k)))) <$> seqZ 0 (Z.of_nat n).

Definition channels_of_words (odd0 : list Z) (map_h map_m map_l : Z) (s : BTChannelUseSet) : outcome BTChannelUseSet :=
  _expand odd0 (s <| map := big_endian 4 map_l ++ big_endian 4 map_m ++ big_endian 2 map_h |>).

Definition hex_char (v : Z) : ascii :=
  ascii_of_N (Z.to_N (if v <? 10 then 48 + v else 97 + (v - 10))).

(** printf's [%02x] on a byte *)
Definition hex_byte (b : Z) : list ascii := [hex_char (b / 16); hex_char (b mod 16)].

Definition toHexString (s : BTChannelUseSet) : string :=
  String.string_of_list_ascii (concat (hex_byte <$> reverse (map s))).

Definition notUsed (s : BTChannelUseSet) (ch : Z) : outcome Z := aread (_notUsedCh s) ch.
Definition numUsedCh (s : BTChannelUseSet) : Z := _numUsedCh s.
Definition usedCh (s : BTChannelUseSet) (ind : Z) : outcome Z := aread (_usedCh s) ind.

(** ** The hop selection kernel *)

Inductive TrainType : Set := Train_A | Train_B.

Inductive FH_sequence_type : Set :=
  | FHChannel | FHPage | FHInquiry | FHPageScan | FHInqScan
  | FHMasterResp | FHSlaveResp | FHInqResp | FHAFH.

#[global] Instance FH_sequence_type_eq_dec : EqDecision FH_sequence_type.
Proof. solve_decision. Defined.

(** What the kernel reads of the Baseband. *)
Record baseband : Type := mkBaseband {
  train_ : TrainType;
  master_rsps_count_ : Z;
  slave_rsps_count_ : Z;
  inquiry_rsps_count_ : Z;
  usedChSet_ : BTChannelUseSet }.

#[global] Instance eta_baseband : Eta baseband := fun b =>
  mkBaseband (train_ b) (master_rsps_count_ b) (slave_rsps_count_ b) (inquiry_rsps_count_ b) (usedChSet_ b).

(** The locals of FH_kernel after the switch. *)
Record hop_in : Type := mkHop { hX : Z; hY1 : Z; hY2 : Z; hA : Z; hC : Z; hD : Z; hF : Z }.

Definition addr_A (bd_addr : Z) : Z := Z.land (bd_addr ≫ 23) 31.
Definition addr_B (bd_addr : Z) : Z := Z.land (bd_addr ≫ 19) 15.
Definition addr_C (bd_addr : Z) : Z :=
  Z.land (bd_addr ≫ 4) 16 + Z.land (bd_addr ≫ 3) 8 + Z.land (bd_addr ≫ 2) 4
  + Z.land (bd_addr ≫ 1) 2 + Z.land bd_addr 1.
Definition addr_D (bd_addr : Z) : Z := Z.land (bd_addr ≫ 10) 511.
Definition addr_E (bd_addr : Z) : Z :=
  Z.land (bd_addr ≫ 7) 64 + Z.land (bd_addr ≫ 6) 32 + Z.land (bd_addr ≫ 5) 16
  + Z.land (bd_addr ≫ 4) 8 + Z.land (bd_addr ≫ 3) 4 + Z.land (bd_addr ≫ 2) 2 + Z.land (bd_addr ≫ 1) 1.

Definition k_offset (t : TrainType) : Z := match t with Train_A => 24 | Train_B => 8 end.

(** [((c >> 12) & 0x1F) + k_offset + (((c >> 1) & 0x0E) + (c & 0x01) + 64 -
    ((c >> 12) & 0x1F)) % 16] *)
Definition page_phase (t : TrainType) (c : Z) : Z :=
  Z.land (c ≫ 12) 31 + k_offset t
  + Z.rem (Z.land (c ≫ 1) 14 + Z.land c 1 + 64 - Z.land (c ≫ 12) 31) 16.

(** The switch over the kind of sequence. *)
Definition FH_inputs (b : baseband) (CLK CLKF : Z) (FH_seq : FH_sequence_type) (bd_addr : Z) : hop_in :=
  let A := addr_A bd_addr in
  let C := addr_C bd_addr in
  let D := addr_D bd_addr in
  let Y1 := Z.land (CLK ≫ 1) 1 in
  let F := Z.rem (Z.land (CLK ≫ 7) 2097151 * 16) 79 in
  let connection X Y1 :=
    mkHop X Y1 (Y1 * 32) (Z.lxor A (Z.land (CLK ≫ 21) 31)) (Z.lxor C (Z.land (CLK ≫ 16) 31))
          (Z.lxor D (Z.land (CLK ≫ 7) 511)) F in
  match FH_seq with
  | FHPage | FHInquiry => mkHop (Z.land (Z.rem (page_phase (train_ b) CLK) 32) 31) Y1 (Y1 * 32) A C D 0
  | FHPageScan => mkHop (Z.land (CLK ≫ 12) 31) 0 0 A C D 0
  | FHMasterResp =>
      mkHop (Z.land (Z.rem (page_phase (train_ b) CLKF + master_rsps_count_ b) 32) 31) Y1 (Y1 * 32) A C D 0
  | FHSlaveResp =>
      mkHop (Z.land (Z.rem (Z.land (CLKF ≫ 12) 31 + slave_rsps_count_ b) 32) 31) Y1 (Y1 * 32) A C D 0
  | FHInqScan => mkHop (Z.land (Z.rem (Z.land (CLK ≫ 12) 31 + inquiry_rsps_count_ b) 32) 31) 0 0 A C D 0
  | FHInqResp => mkHop (Z.land (Z.rem (Z.land (CLK ≫ 12) 31 + inquiry_rsps_count_ b) 32) 31) 1 32 A C D 0
  | FHChannel => connection (Z.land (CLK ≫ 2) 31) Y1
  | FHAFH => connection (Z.land (CLK ≫ 2) 31) 0
  end.

(** [Ze[i] = Z & 0x01; Z >>= 1;] five times *)
Fixpoint expand_Z (n : nat) (z : Z) : list Z :=
  match n with O => [] | S n' => Z.land z 1 :: expand_Z n' (z ≫ 1) end.

Definition ze (Ze : list Z) (i : nat) : Z := nth i Ze 0.

(** [BUTTERFLY(k, i, j)] *)
Definition BUTTERFLY (P : Z) (k : Z) (i j : nat) (Ze : list Z) : list Z :=
  if nz (Z.land (P ≫ k) 1) then <[j := ze Ze i]> (<[i := ze Ze j]> Ze) else Ze.

Definition butterflies : list (Z * (nat * nat)) :=
  [(13, (1, 2)%nat); (12, (0, 3)%nat); (11, (1, 3)%nat); (10, (2, 4)%nat); (9, (0, 3)%nat); (8, (1, 4)%nat); (7, (3, 4)%nat);
   (6, (0, 2)%nat); (5, (1, 3)%nat); (4, (0, 4)%nat); (3, (3, 4)%nat); (2, (1, 2)%nat); (1, (2, 3)%nat); (0, (0, 1)%nat)].

Definition permute (P : Z) (Ze : list Z) : list Z :=
  foldl (fun l '(k, (i, j)) => BUTTERFLY P k i j l) Ze butterflies.

Definition collect (Ze : list Z) : Z :=
  (ze Ze 4 ≪ 4) + (ze Ze 3 ≪ 3) + (ze Ze 2 ≪ 2) + (ze Ze 1 ≪ 1) + ze Ze 0.

(** The first addition, the XOR and the permutation: from the inputs to Z. *)
Definition permuted (h : hop_in) (B : Z) : Z :=
  let Z0 := Z.lxor (Z.rem (hX h + hA h) 32) B in
  let Y1 := hY1 h in
  let Y1 := (Y1 ≪ 4) + (Y1 ≪ 3) + (Y1 ≪ 2) + (Y1 ≪ 1) + Y1 in
  let P := (Z.lxor (hC h) Y1 ≪ 9) + hD h in
  collect (permute P (expand_Z 5 Z0)).

(** The register bank: the even channels, then the odd ones. *)
Definition register_bank (i : Z) : Z := if i <=? 39 then i * 2 else (i - 39) * 2 - 1.

Definition FH_kernel (b : baseband) (CLK CLKF : Z) (FH_seq : FH_sequence_type) (bd_addr : Z) : outcome Z :=
  let h := FH_inputs b CLK CLKF FH_seq bd_addr in
  let z := permuted h (addr_B bd_addr) in
  let E := addr_E bd_addr in
  let ret := register_bank (Z.rem (z + E + hF h + hY2 h) 79) in
  let n := numUsedCh (usedChSet_ b) in
  if bool_decide (FH_seq = FHAFH) then
    unused ← notUsed (usedChSet_ b) ret;
    if nz unused then
      if n =? 0 then Trap DivByZero else
      let F := Z.rem (Z.land (CLK ≫ 7) 2097151 * 16) n in
      usedCh (usedChSet_ b) (Z.rem (z + E + F + hY2 h) n)
    else Ok ret
  else Ok ret.

(** [clk & 0xFFFE0FFF] is computed on [unsigned int] and converted back. *)
Definition _interlaceClk (clk : Z) : Z :=
  let clk_16_12 := Z.rem (Z.land (clk ≫ 12) 31 + 16) 32 in
  s32 (Z.lor (Z.land (u32 clk) 4294840319) (clk_16_12 ≪ 12)).

(** ** What the definitions are compared with *)

(** The channel is in the map. *)
Definition in_map (m : list Z) (ch : Z) : bool := Z.testbit (nth (Z.to_nat (ch / 8)) m 0) (ch mod 8).

(** The channels below [k] of one parity that are in the map. *)
Definition evens (m : list Z) (k : Z) : list Z := List.filter (fun c => in_map m c && Z.even c) (seqZ 0 k).
Definition odds (m : list Z) (k : Z) : list Z := List.filter (fun c => in_map m c && Z.odd c) (seqZ 0 k).

(** The table of AFH: the even channels of the map in order, then the odd ones. *)
Definition used_channels (m : list Z) : list Z := evens m 80 ++ odds m 80.
Definition unused_flags (m : list Z) (k : Z) : list Z := (fun c => if in_map m c then 0 else 1) <$> seqZ 0 k.

(** The bytes a string of hexadecimal digits stands for. *)
Fixpoint parse_bytes (l : list Z) : option (list Z) :=
  match l with
  | [] => Some []
  | h :: d :: rest =>
      hi ← hex_digit h; lo ← hex_digit d; bs ← parse_bytes rest; Some (16 * hi + lo :: bs)
  | _ => None
  end.

(** Twenty digits, or twenty digits after [0x]. *)
Definition parse_hex (ch : string) : option (list Z) :=
  match char_code <$> String.list_ascii_of_string ch with
  | c0 :: c1 :: rest =>
      if (Z.of_nat (length (c0 :: c1 :: rest)) =? 22) && (c0 =? 48) && ((c1 =? 120) || (c1 =? 88)) then parse_bytes rest
      else if Z.of_nat (length (c0 :: c1 :: rest)) =? 20 then parse_bytes (c0 :: c1 :: rest) else None
  | _ => None
  end.

Arguments evens : simpl never.
Arguments odds : simpl never.
Arguments unused_flags : simpl never.
Arguments in_map : simpl never.

Record map_ok (m : list Z) : Prop := mkMapOk {
  mo_len : length m = 10%nat;
  mo_bytes : Forall (fun b => in_u8 b) m;
  mo_top : nth 9 m 0 < 128 }.

Record set_ok (s : BTChannelUseSet) : Prop := mkSetOk {
  so_map : map_ok (map s);
  so_num : _numUsedCh s = Z.of_nat (length (used_channels (map s)));
  so_len : length (_usedCh s) = 80%nat;
  so_used : take (length (used_channels (map s))) (_usedCh s) = used_channels (map s);
  so_unused : _notUsedCh s = unused_flags (map s) 80 }.

(** * Lemmas *)

(** ** Loops and arrays *)

Lemma for_from_rule {S} (I : Z -> S -> Prop) body n i s :
  (forall j s, i <= j < i + Z.of_nat n -> I j s -> returns (body j s) (I (j + 1))) ->
  I i s -> returns (for_from n i body s) (I (i + Z.of_nat n)).
Proof.
  revert i s. induction n as [|n IH]; intros i s Hb Hi; cbn [for_from].
  - by replace (i + Z.of_nat 0) with i by lia.
  - eapply returns_bind; [apply Hb; [lia|done]|]. intros s' Hs'. cbv beta.
    replace (i + Z.of_nat (Datatypes.S n)) with (i + 1 + Z.of_nat n) by lia.
    apply IH; [|done]. intros j s0 Hj. apply Hb. lia.
Qed.

Lemma for_loop_rule {S} (I : Z -> S -> Prop) body n s :
  (forall j s, 0 <= j < Z.of_nat n -> I j s -> returns (body j s) (I (j + 1))) ->
  I 0 s -> returns (for_loop n body s) (I (Z.of_nat n)).
Proof. intros Hb Hi. apply (for_from_rule I); [|done]. intros j s0 Hj. apply Hb. lia. Qed.

Lemma take_insert_snoc {A} (l : list A) n v : (n < length l)%nat -> take (S n) (<[n := v]> l) = take n l ++ [v].
Proof.
  intros Hn. rewrite (take_S_r _ _ v) by by apply list_lookup_insert_eq. by rewrite take_insert_ge.
Qed.

Lemma nth_at {A} (l : list A) i d x : l !! i = Some x -> nth i l d = x.
Proof. intros H. rewrite nth_lookup. by rewrite H. Qed.

Lemma aread_nth (l : list Z) i : 0 <= i < Z.of_nat (length l) -> aread l i = Ok (nth (Z.to_nat i) l 0).
Proof.
  intros Hi. destruct (aread_in l i Hi) as (v & Hv & Hl). by rewrite Hv, (nth_at _ _ _ _ Hl).
Qed.

(** ** Masks *)

Lemma land_mask a m : 0 <= m -> 0 <= Z.land a m <= m.
Proof.
  intros Hm. split; [apply Z.land_nonneg; lia|].
  assert (H : m - Z.land a m = Z.ldiff m (Z.land a m)).
  { apply Z.sub_nocarry_ldiff. apply Z.bits_inj'. intros k _.
    rewrite Z.ldiff_spec, Z.land_spec, Z.bits_0. by destruct (Z.testbit a k), (Z.testbit m k). }
  pose proof (proj2 (Z.ldiff_nonneg m (Z.land a m)) (or_introl Hm)). lia.
Qed.

(** A mask below a power of two reads the low bits only. *)
Lemma land_low x y n m : 0 <= n -> 0 <= m < 2 ^ n -> x mod 2 ^ n = y mod 2 ^ n -> Z.land x m = Z.land y m.
Proof.
  intros Hn Hm E. rewrite <- (Z.mod_small m (2 ^ n)) by done. rewrite <- !Z.land_ones in * by done.
  rewrite (Z.land_comm m), !Z.land_assoc. by rewrite E.
Qed.

Lemma land_one x : Z.land x 1 = Z.b2z (Z.odd x).
Proof. change 1 with (Z.ones 1) at 1. rewrite Z.land_ones by lia. change (2 ^ 1) with 2. by rewrite Zmod_odd; destruct (Z.odd x). Qed.

Lemma shift_land_bit x j : 0 <= j -> Z.land (x ≫ j) 1 = Z.b2z (Z.testbit x j).
Proof. intros Hj. by rewrite land_one, <- Z.bit0_odd, Z.shiftr_spec, Z.add_0_l. Qed.

Lemma nz_b2z b : nz (Z.b2z b) = b.
Proof. by destruct b. Qed.

(** ** The table of the channels in use *)

Lemma seqZ_snoc k : 0 <= k -> seqZ 0 (k + 1) = seqZ 0 k ++ [k].
Proof. intros Hk. by rewrite seqZ_app by lia. Qed.

Lemma in_map_bit m i j : 0 <= i -> 0 <= j < 8 -> in_map m (i * 8 + j) = Z.testbit (nth (Z.to_nat i) m 0) j.
Proof.
  intros Hi Hj. unfold in_map. replace ((i * 8 + j) / 8) with i by (Z.div_mod_to_equations; lia).
  by replace ((i * 8 + j) mod 8) with j by (Z.div_mod_to_equations; lia).
Qed.

Lemma evens_snoc m k : 0 <= k -> evens m (k + 1) = evens m k ++ (if in_map m k && Z.even k then [k] else []).
Proof. intros Hk. unfold evens. rewrite seqZ_snoc, List.filter_app by done. done. Qed.
Lemma odds_snoc m k : 0 <= k -> odds m (k + 1) = odds m k ++ (if in_map m k && Z.odd k then [k] else []).
Proof. intros Hk. unfold odds. rewrite seqZ_snoc, List.filter_app by done. done. Qed.
Lemma flags_snoc m k : 0 <= k -> unused_flags m (k + 1) = unused_flags m k ++ [if in_map m k then 0 else 1].
Proof. intros Hk. unfold unused_flags. by rewrite seqZ_snoc, fmap_app by done. Qed.

Lemma even_step j : Z.even (j + 1) = negb (Z.even j).
Proof. change (j + 1) with (Z.succ j). by rewrite Z.even_succ, Z.negb_even. Qed.

Lemma filled_bounds m k : 0 <= k ->
  Z.of_nat (length (evens m k)) <= (k + 1) / 2 /\ Z.of_nat (length (odds m k)) <= k / 2.
Proof.
  revert k. apply natlike_ind; [by vm_compute|]. intros k Hk [IH1 IH2].
  change (Z.succ k) with (k + 1). rewrite evens_snoc, odds_snoc by done. rewrite !length_app.
  rewrite (Zeven_mod k), (Zodd_mod k).
  destruct (in_map m k); cbn [andb length];
    destruct (Z.eqb_spec (k mod 2) 0), (Z.eqb_spec (k mod 2) 1); cbn [length]; Z.div_mod_to_equations; lia.
Qed.

(** What _expand has done when it comes to channel [k]. *)
Record expanded (m : list Z) (k : Z) (st : BTChannelUseSet * (list Z * Z)) : Prop := mkExpanded {
  ex_map : map st.1 = m;
  ex_len : length (_usedCh st.1) = 80%nat /\ length (_notUsedCh st.1) = 80%nat /\ length st.2.1 = 40%nat;
  ex_even : _numUsedCh st.1 = Z.of_nat (length (evens m k)) /\ take (length (evens m k)) (_usedCh st.1) = evens m k;
  ex_odd : st.2.2 = Z.of_nat (length (odds m k)) /\ take (length (odds m k)) st.2.1 = odds m k;
  ex_unused : take (Z.to_nat k) (_notUsedCh st.1) = unused_flags m k }.

Lemma channel_pushed (l p : list Z) v : (length p < length l)%nat -> take (length p) l = p ->
  take (length (p ++ [v])) (<[length p := v]> l) = p ++ [v].
Proof. intros Hn Hp. rewrite length_app, Nat.add_1_r, take_insert_snoc by lia. by rewrite Hp. Qed.

Lemma flag_ok m l k : 0 <= k < Z.of_nat (length l) -> take (Z.to_nat k) l = unused_flags m k ->
  take (Z.to_nat (k + 1)) (<[Z.to_nat k := if in_map m k then 0 else 1]> l) = unused_flags m (k + 1).
Proof.
  intros Hk Hp. rewrite flags_snoc, <- Hp by lia. replace (Z.to_nat (k + 1)) with (Datatypes.S (Z.to_nat k)) by lia.
  apply take_insert_snoc. lia.
Qed.

Lemma parity_bit i j : Z.odd (i * 8 + j) = Z.odd j.
Proof. replace (i * 8 + j) with (j + 2 * (i * 4)) by lia. apply Z.odd_add_mul_2. Qed.

Lemma expand_bit_ok m i j st : length m = 10%nat -> 0 <= i < 10 -> 0 <= j < 8 -> expanded m (i * 8 + j) st ->
  returns (expand_bit i j st) (expanded m (i * 8 + (j + 1))).
Proof.
  intros Hm Hi Hj. destruct st as [s [odd n]]. intros [Em (L1 & L2 & L3) (E1 & E2) (O1 & O2) Eu]. cbn [fst snd] in *.
  destruct (filled_bounds m (i * 8 + j)) as [B1 B2]; [lia|].
  assert (Ek : i * 8 + (j + 1) = i * 8 + j + 1) by lia. rewrite Ek. clear Ek.
  pose proof (flag_ok m (_notUsedCh s) (i * 8 + j) ltac:(lia) Eu) as Hf.
  unfold expand_bit. rewrite Em, aread_nth, bind_Ok, shift_land_bit, nz_b2z, <- (in_map_bit m i j) by lia.
  rewrite land_one, nz_b2z, <- (parity_bit i j).
  set (k := i * 8 + j) in *. assert (Hk : 0 <= k < 80) by lia. clearbody k. clear i j Hi Hj.
  pose proof (evens_snoc m k ltac:(lia)) as Ev. pose proof (odds_snoc m k ltac:(lia)) as Ov.
  rewrite <- Z.negb_odd in Ev.
  destruct (in_map m k) eqn:Eb; [destruct (Z.odd k) eqn:Eo|]; cbn [andb negb] in Ev, Ov; rewrite ?app_nil_r in Ev; rewrite ?app_nil_r in Ov.
  - rewrite awrite_ok, !bind_Ok, awrite_ok, bind_Ok by (rewrite ?O1, ?L3; cbn; Z.div_mod_to_equations; lia).
    apply returns_Ok. rewrite O1, Nat2Z.id. split; cbn; rewrite ?length_insert, ?Ev; try done.
    rewrite Ov. split; [rewrite length_app; cbn; lia|]. apply channel_pushed; [|done]. rewrite L3. Z.div_mod_to_equations; lia.
  - rewrite awrite_ok, !bind_Ok, awrite_ok, bind_Ok by (rewrite ?E1, ?L1; cbn; Z.div_mod_to_equations; lia).
    apply returns_Ok. rewrite E1, Nat2Z.id. split; cbn; rewrite ?length_insert, ?Ov; try done.
    rewrite Ev. split; [rewrite length_app; cbn; lia|]. apply channel_pushed; [|done]. rewrite L1. Z.div_mod_to_equations; lia.
  - rewrite awrite_ok, bind_Ok by lia. apply returns_Ok. split; cbn; rewrite ?length_insert, ?Ev, ?Ov; done.
Qed.

Lemma evens_0 m : evens m 0 = [] /\ odds m 0 = [].
Proof. done. Qed.

Lemma expand_loop_ok m s odd0 : length m = 10%nat -> map s = m -> _numUsedCh s = 0 ->
  length (_usedCh s) = 80%nat -> length (_notUsedCh s) = 80%nat -> length odd0 = 40%nat ->
  returns (for_loop 10 (fun i => for_loop 8 (expand_bit i)) (s, (odd0, 0))) (expanded m 80).
Proof.
  intros Hm Em En L1 L2 L3. apply (for_loop_rule (fun i => expanded m (i * 8))).
  - intros i st Hi Hst. replace ((i + 1) * 8) with (i * 8 + Z.of_nat 8) by lia.
    apply (for_loop_rule (fun j => expanded m (i * 8 + j))); [|by replace (i * 8 + 0) with (i * 8) by lia].
    intros j st' Hj Hst'. apply expand_bit_ok; [done|lia|lia|done].
  - split; cbn; done.
Qed.

(** The arrays have the sizes of their declarations. *)
Record sized (s : BTChannelUseSet) : Prop := mkSized {
  sz_map : length (map s) = 10%nat;
  sz_used : length (_usedCh s) = 80%nat;
  sz_unused : length (_notUsedCh s) = 80%nat }.

(** The map with the bit of the missing channel 79 cleared. *)
Definition trimmed (m : list Z) : list Z := <[9%nat := Z.land (nth 9 m 0) 127]> m.

Lemma trimmed_ok m : length m = 10%nat -> Forall (fun b => in_u8 b) m -> map_ok (trimmed m).
Proof.
  intros Hl Hb. pose proof (land_mask (nth 9 m 0) 127 ltac:(lia)) as Hr. unfold trimmed. split.
  - by rewrite length_insert.
  - apply Forall_insert; [done|lia].
  - erewrite (nth_at (<[_ := _]> m)); [|apply list_lookup_insert_eq; lia]. lia.
Qed.

Lemma trimmed_id m : map_ok m -> trimmed m = m.
Proof.
  intros [Hl Hb Ht]. unfold trimmed. destruct (lookup_lt_is_Some_2 m 9) as [v Hv]; [lia|].
  rewrite (nth_at _ _ _ _ Hv) in *. pose proof (Forall_lookup_1 _ _ _ _ Hb Hv) as H.
  cbv beta in H. change 127 with (Z.ones 7). rewrite Z.land_ones by lia. change (2 ^ 7) with 128. rewrite Z.mod_small by lia.
  by apply list_insert_id.
Qed.

Lemma used_length m : (length (used_channels m) <= 80)%nat.
Proof. destruct (filled_bounds m 80) as [H1 H2]; [lia|]. unfold used_channels. rewrite length_app. Z.div_mod_to_equations; lia. Qed.

Lemma memcpy_ok dst a src n : 0 <= a -> 0 <= n <= Z.of_nat (length src) -> a + n <= Z.of_nat (length dst) ->
  memcpy_at dst a src n = Ok (take (Z.to_nat a) dst ++ take (Z.to_nat n) src ++ drop (Z.to_nat (a + n)) dst).
Proof.
  intros Ha Hn Hd. unfold memcpy_at. by rewrite (proj2 (Z.leb_le 0 a)), (proj2 (Z.leb_le 0 n)), !(proj2 (Z.leb_le _ _)) by lia.
Qed.

Lemma expand_ok odd0 s : sized s -> Forall (fun b => in_u8 b) (map s) -> length odd0 = 40%nat ->
  returns (_expand odd0 s) (fun r => set_ok r /\ map r = trimmed (map s)).
Proof.
  intros [Hm Hu Hn] Hb Ho. unfold _expand. rewrite aread_nth, bind_Ok, awrite_ok, bind_Ok by lia. cbv zeta.
  change (Z.to_nat 9) with 9%nat. fold (trimmed (map s)).
  eapply returns_bind; [apply (expand_loop_ok (trimmed (map s))); try done; by apply mo_len, trimmed_ok|].
  cbv beta. intros [s' [odd n]] [Em (L1 & L2 & L3) [E1 E2] [O1 O2] Eu]. cbn [fst snd] in *.
  destruct (filled_bounds (trimmed (map s)) 80) as [B1 B2]; [lia|].
  rewrite E1, O1, memcpy_ok, bind_Ok by (rewrite ?L1, ?L3; Z.div_mod_to_equations; lia). apply returns_Ok. cbn. rewrite !Nat2Z.id. split; [|done].
  split; cbn; rewrite ?Em.
  - by apply trimmed_ok.
  - unfold used_channels. rewrite length_app. lia.
  - rewrite !length_app, !length_take, length_drop, L1, L3. Z.div_mod_to_equations; lia.
  - rewrite E2, O2. unfold used_channels. rewrite app_assoc. apply take_app_length.
  - rewrite <- Eu. change (Z.to_nat 80) with 80%nat. symmetry. apply take_ge. lia.
Qed.

(** ** The hexadecimal form *)

Lemma hex_digit_char v : 0 <= v < 16 -> hex_digit (char_code (hex_char v)) = Some v.
Proof.
  intros Hv. assert (E : forallb (fun v => bool_decide (hex_digit (char_code (hex_char v)) = Some v)) (seqZ 0 16) = true)
    by (vm_compute; reflexivity).
  rewrite forallb_forall in E. eapply bool_decide_eq_true, E, list_elem_of_In, elem_of_seqZ. lia.
Qed.

Lemma hex_digit_range c v : hex_digit c = Some v -> 0 <= v < 16.
Proof. unfold hex_digit. repeat case_cond; intros E; simplify_eq; lia. Qed.

Lemma read_digit_at ch i c : 0 <= i -> ch !! Z.to_nat i = Some c ->
  read_digit ch i = match hex_digit c with Some v => Ok v | None => Trap AssertFail end.
Proof. intros Hi Hc. unfold read_digit. by rewrite (aread_ok _ _ _ Hi Hc), bind_Ok. Qed.

(** The ten bytes, in the order of the string, written from the last one down. *)
Fixpoint write_bytes (i : Z) (bs m : list Z) : list Z :=
  match bs with [] => m | b :: bs' => write_bytes (i + 1) bs' (<[Z.to_nat (9 - i) := b]> m) end.

Lemma write_bytes_all bs m : length bs = 10%nat -> length m = 10%nat -> write_bytes 0 bs m = reverse bs.
Proof. intros Hb Hm. do 11 (destruct bs as [|? bs]; try done). do 11 (destruct m as [|? m]; try done). Qed.

Lemma import_byte_eq ch i m h l : 0 <= i < 10 -> length m = 10%nat ->
  ch !! Z.to_nat (2 * i) = Some h -> ch !! Z.to_nat (2 * i + 1) = Some l ->
  import_byte ch i m = match hex_digit h, hex_digit l with
                       | Some hi, Some lo => Ok (<[Z.to_nat (9 - i) := 16 * hi + lo]> m)
                       | _, _ => Trap AssertFail end.
Proof.
  intros Hi Hm E1 E2. unfold import_byte. rewrite (read_digit_at ch (2 * i) h), (read_digit_at ch (2 * i + 1) l) by (done || lia).
  destruct (hex_digit h) as [hi|] eqn:Eh; [|done]. apply hex_digit_range in Eh. rewrite bind_Ok, awrite_ok, bind_Ok by lia.
  rewrite (aread_ok _ _ (u8 hi)), bind_Ok, awrite_ok, bind_Ok
    by (rewrite ?length_insert; first [lia|apply list_lookup_insert_eq; lia]).
  destruct (hex_digit l) as [lo|] eqn:El; [|done]. apply hex_digit_range in El. rewrite bind_Ok.
  rewrite (aread_ok _ _ (u8 (u8 hi ≪ 4))), bind_Ok, awrite_ok
    by (rewrite ?length_insert; first [lia|apply list_lookup_insert_eq; rewrite ?length_insert; lia]).
  rewrite !list_insert_insert_eq. do 2 f_equal. rewrite Z.shiftl_mul_pow2, (u8_id hi) by lia. c_lia.
Qed.

Lemma parse_bytes_length l bs : parse_bytes l = Some bs -> length l = (2 * length bs)%nat /\ Forall (fun b => in_u8 b) bs.
Proof.
  revert bs. induction l as [l IH] using (induction_ltof1 _ (@length Z)); unfold ltof in IH. intros bs.
  destruct l as [|h [|d l]]; cbn [parse_bytes]; intros E; simplify_eq; [done|].
  destruct (hex_digit h) as [hi|] eqn:Eh; [|done]. destruct (hex_digit d) as [lo|] eqn:Ed; [|done]. cbn in E.
  destruct (parse_bytes l) as [bs'|] eqn:El; [|done]. cbn in E. simplify_eq.
  apply IH in El as [El Hb]; [|cbn; lia]. apply hex_digit_range in Eh, Ed. split; [cbn; lia|]. constructor; [lia|done].
Qed.

Lemma import_loop_eq ch n i m :
  0 <= i -> i + Z.of_nat n = 10 -> length ch = 20%nat -> length m = 10%nat ->
  for_from n i (import_byte ch) m =
  match parse_bytes (drop (Z.to_nat (2 * i)) ch) with Some bs => Ok (write_bytes i bs m) | None => Trap AssertFail end.
Proof.
  revert i m. induction n as [|n IH]; intros i m Hi Hn Hc Hm; cbn [for_from].
  - rewrite drop_ge by lia. done.
  - destruct (lookup_lt_is_Some_2 ch (Z.to_nat (2 * i))) as [h E1]; [lia|].
    destruct (lookup_lt_is_Some_2 ch (Z.to_nat (2 * i + 1))) as [d E2]; [lia|].
    rewrite (import_byte_eq _ _ _ h d) by (done || lia). rewrite (drop_S _ _ _ E1).
    replace (Datatypes.S (Z.to_nat (2 * i))) with (Z.to_nat (2 * i + 1)) by lia. rewrite (drop_S _ _ _ E2).
    replace (Datatypes.S (Z.to_nat (2 * i + 1))) with (Z.to_nat (2 * (i + 1))) by lia. cbn [parse_bytes].
    destruct (hex_digit h) as [hi|]; [|done]. destruct (hex_digit d) as [lo|]; [|done]. rewrite bind_Ok.
    rewrite IH by (rewrite ?length_insert; lia). cbn. by destruct (parse_bytes _).
Qed.

Lemma import_eq odd0 ch s : sized s -> importMapByHexString odd0 ch s =
  match parse_hex ch with Some bs => _expand odd0 (s <| map := reverse bs |>) | None => Trap AssertFail end.
Proof.
  intros [Hm _ _]. unfold importMapByHexString, parse_hex. set (codes := char_code <$> _). clearbody codes.
  assert (Hl : forall ch, length ch = 20%nat -> for_loop 10 (import_byte ch) (map s) =
    match parse_bytes ch with Some bs => Ok (reverse bs) | None => Trap AssertFail end).
  { intros ch0 H20. unfold for_loop. rewrite import_loop_eq by lia. change (drop (Z.to_nat (2 * 0)) ch0) with ch0.
    destruct (parse_bytes ch0) as [bs|] eqn:E; [|done]. apply parse_bytes_length in E as [E _].
    by rewrite write_bytes_all by lia. }
  destruct codes as [|c0 [|c1 rest]]; [done..|].
  destruct ((Z.of_nat (length (c0 :: c1 :: rest)) =? 22) && (c0 =? 48) && ((c1 =? 120) || (c1 =? 88))) eqn:Hc.
  - rewrite !andb_true_iff, Z.eqb_eq in Hc. cbn [length] in Hc. rewrite bind_Ok, Hl by lia. by destruct (parse_bytes rest).
  - destruct (Z.eqb_spec (Z.of_nat (length (c0 :: c1 :: rest))) 20) as [E|E]; cbn [negb]; [|done].
    rewrite bind_Ok, Hl by lia. by destruct (parse_bytes _).
Qed.

Lemma parse_hex_bytes l : Forall (fun b => in_u8 b) l -> parse_bytes (char_code <$> concat (hex_byte <$> l)) = Some l.
Proof.
  induction 1 as [|b l Hb Hl IH]; [done|]. cbn [fmap list_fmap concat hex_byte app parse_bytes].
  cbn [fmap list_fmap] in IH. rewrite !hex_digit_char by (Z.div_mod_to_equations; lia). cbn. rewrite IH. cbn. do 2 f_equal.
  Z.div_mod_to_equations; lia.
Qed.

Lemma hex_length l : length (concat (hex_byte <$> l)) = (2 * length l)%nat.
Proof. induction l as [|b l IH]; [done|]. cbn [fmap list_fmap concat]. rewrite length_app. cbn in *. lia. Qed.

Lemma parse_toHex s : set_ok s -> parse_hex (toHexString s) = Some (reverse (map s)).
Proof.
  intros [[Hl Hb _] _ _ _ _]. unfold parse_hex, toHexString. rewrite String.list_ascii_of_string_of_list_ascii.
  pose proof (hex_length (reverse (map s))) as H. rewrite length_reverse, Hl in H.
  rewrite <- (parse_hex_bytes (reverse (map s))) by by apply Forall_reverse.
  set (codes := concat _) in *. clearbody codes. do 20 (destruct codes as [|? codes]; [done|]). destruct codes; [|done].
  done.
Qed.

(** ** The kernel *)

Lemma seqZ_all (P : Z -> bool) n i : forallb P (seqZ 0 n) = true -> 0 <= i < n -> P i = true.
Proof. rewrite forallb_forall. intros HP Hi. apply HP, list_elem_of_In, elem_of_seqZ. lia. Qed.

(** Five bits. *)
Definition bits5 (l : list Z) : Prop := length l = 5%nat /\ Forall (fun b => b = 0 \/ b = 1) l.

Lemma expand_bits n z : length (expand_Z n z) = n /\ Forall (fun b => b = 0 \/ b = 1) (expand_Z n z).
Proof.
  revert z. induction n as [|n IH]; intros z; [done|]. cbn. destruct (IH (z ≫ 1)) as [H1 H2]. split; [lia|].
  constructor; [|done]. rewrite land_one. destruct (Z.odd z); auto.
Qed.

Lemma bits5_cases l (Q : list Z -> Prop) : bits5 l -> (forall a b c d e, a = 0 \/ a = 1 -> b = 0 \/ b = 1 -> c = 0 \/ c = 1 ->
  d = 0 \/ d = 1 -> e = 0 \/ e = 1 -> Q [a; b; c; d; e]) -> Q l.
Proof.
  intros [Hl Hb] HQ. do 5 (destruct l as [|? l]; [done|]). destruct l; [|done]. repeat (apply Forall_cons in Hb as [? Hb]). auto.
Qed.

Lemma collect_range l : bits5 l -> 0 <= collect l < 32.
Proof. intros Hl. apply (bits5_cases l); [done|]. intros. destruct_or!; subst; by vm_compute. Qed.

Lemma collect_inj l l' : bits5 l -> bits5 l' -> collect l = collect l' -> l = l'.
Proof.
  assert (H : forall l, bits5 l -> expand_Z 5 (collect l) = l).
  { intros l0 Hl. apply (bits5_cases l0); [done|]. intros. destruct_or!; subst; by vm_compute. }
  intros Hl Hl' E. by rewrite <- (H l Hl), E, H.
Qed.

Lemma expand_inj z z' : 0 <= z < 32 -> 0 <= z' < 32 -> expand_Z 5 z = expand_Z 5 z' -> z = z'.
Proof.
  assert (H : forall z, 0 <= z < 32 -> collect (expand_Z 5 z) = z).
  { intros z0 Hz. apply Z.eqb_eq. revert z0 Hz. intros z0. apply (seqZ_all (fun z => collect (expand_Z 5 z) =? z)). by vm_compute. }
  intros Hz Hz' E. by rewrite <- (H z Hz), E, H.
Qed.

(** A butterfly exchanges two of the five wires: it is its own inverse. *)
Lemma butterfly_wires k i j : In (k, (i, j)) butterflies -> (i < j < 5)%nat.
Proof. cbn. intros H. repeat destruct H as [H|H]; simplify_eq; lia. Qed.

Lemma BUTTERFLY_bits P k i j l : (i < j < 5)%nat -> bits5 l -> bits5 (BUTTERFLY P k i j l).
Proof.
  intros Hij [Hl Hb]. unfold BUTTERFLY. case_cond; [|done]. split; [by rewrite !length_insert|].
  assert (H : forall n, (fun b => b = 0 \/ b = 1) (ze l n)).
  { intros n. unfold ze. destruct (nth_in_or_default n l 0) as [H| ->]; [|by left].
    rewrite Forall_forall in Hb. by apply Hb, list_elem_of_In. }
  apply Forall_insert; [apply Forall_insert; [done|apply H]|apply H].
Qed.

Lemma BUTTERFLY_twice P k i j l : (i < j < 5)%nat -> length l = 5%nat -> BUTTERFLY P k i j (BUTTERFLY P k i j l) = l.
Proof.
  intros Hij Hl. unfold BUTTERFLY. case_cond; [|done]. do 5 (destruct l as [|? l]; [done|]). destruct l; [|done].
  destruct i as [|[|[|[|[|i]]]]]; try lia; destruct j as [|[|[|[|[|j]]]]]; try lia; reflexivity.
Qed.

Lemma permute_rule (ws : list (Z * (nat * nat))) P l : Forall (fun w => (w.2.1 < w.2.2 < 5)%nat) ws -> bits5 l ->
  bits5 (foldl (fun l '(k, (i, j)) => BUTTERFLY P k i j l) l ws).
Proof.
  intros Hw. revert l. induction Hw as [|[k [i j]] ws H Hw IH]; intros l Hl; [done|]. cbn. apply IH. by apply BUTTERFLY_bits.
Qed.

Lemma permute_inj_from (ws : list (Z * (nat * nat))) P l l' : Forall (fun w => (w.2.1 < w.2.2 < 5)%nat) ws -> bits5 l -> bits5 l' ->
  foldl (fun l '(k, (i, j)) => BUTTERFLY P k i j l) l ws = foldl (fun l '(k, (i, j)) => BUTTERFLY P k i j l) l' ws -> l = l'.
Proof.
  intros Hw. revert l l'. induction Hw as [|[k [i j]] ws H Hw IH]; intros l l' Hl Hl' E; [done|]. cbn in *.
  apply IH in E; [|by apply BUTTERFLY_bits..]. rewrite <- (BUTTERFLY_twice P k i j l), E by first [done|apply Hl].
  apply BUTTERFLY_twice; [done|apply Hl'].
Qed.

Lemma wires_ok : Forall (fun w => (w.2.1 < w.2.2 < 5)%nat) butterflies.
Proof. repeat constructor. Qed.

Lemma lxor_range a b : 0 <= a < 32 -> 0 <= b < 16 -> 0 <= Z.lxor a b < 32.
Proof.
  intros Ha Hb.
  assert (E : forallb (fun a => forallb (fun b => (0 <=? Z.lxor a b) && (Z.lxor a b <? 32)) (seqZ 0 16)) (seqZ 0 32) = true)
    by (vm_compute; reflexivity).
  apply (seqZ_all _ _ a) in E; [|done]. cbv beta in E. apply (seqZ_all _ _ b) in E; [|done]. cbv beta in E. lia.
Qed.

(** The inputs are in the ranges of the data path. *)
Record hop_ok (h : hop_in) : Prop := mkHopOk {
  ho_X : 0 <= hX h < 32; ho_A : 0 <= hA h; ho_F : 0 <= hF h; ho_Y2 : 0 <= hY2 h }.

Lemma permuted_range h B : 0 <= permuted h B < 32.
Proof. apply collect_range, permute_rule; [apply wires_ok|apply expand_bits]. Qed.

Lemma permuted_inj h h' B : hop_ok h -> hop_ok h' -> 0 <= B < 16 ->
  hA h = hA h' -> hC h = hC h' -> hD h = hD h' -> hY1 h = hY1 h' -> permuted h B = permuted h' B -> hX h = hX h'.
Proof.
  intros [HX HA _ _] [HX' _ _ _] HB EA EC ED EY E. unfold permuted in E. rewrite EC, ED, EY, <- EA in E.
  apply collect_inj in E; [|apply permute_rule; [apply wires_ok|apply expand_bits]..].
  apply permute_inj_from in E; [|apply wires_ok|apply expand_bits..].
  assert (Hr : forall x, 0 <= x -> 0 <= Z.rem (x + hA h) 32 < 32) by (intros x Hx; apply Z.rem_bound_pos; lia).
  apply expand_inj in E; [|apply lxor_range; [apply Hr; lia|done]..].
  apply (f_equal (fun z => Z.lxor z B)) in E. rewrite !Z.lxor_assoc, Z.lxor_nilpotent, !Z.lxor_0_r in E.
  rewrite !Z.rem_mod_nonneg in E by lia. Z.div_mod_to_equations; lia.
Qed.

Lemma register_bank_range i : 0 <= i < 79 -> 0 <= register_bank i < 79.
Proof. unfold register_bank. destruct (Z.leb_spec i 39); lia. Qed.

Lemma register_bank_inj i j : 0 <= i < 79 -> 0 <= j < 79 -> register_bank i = register_bank j -> i = j.
Proof. unfold register_bank. destruct (Z.leb_spec i 39), (Z.leb_spec j 39); lia. Qed.

(** The channel of the basic sequences. *)
Definition basic_hop (h : hop_in) (bd_addr : Z) : Z :=
  register_bank (Z.rem (permuted h (addr_B bd_addr) + addr_E bd_addr + hF h + hY2 h) 79).

Lemma addr_ranges a : 0 <= addr_A a < 32 /\ 0 <= addr_B a < 16 /\ 0 <= addr_E a < 128.
Proof.
  unfold addr_A, addr_B, addr_E.
  pose proof (land_mask (a ≫ 23) 31). pose proof (land_mask (a ≫ 19) 15). pose proof (land_mask (a ≫ 7) 64).
  pose proof (land_mask (a ≫ 6) 32). pose proof (land_mask (a ≫ 5) 16). pose proof (land_mask (a ≫ 4) 8).
  pose proof (land_mask (a ≫ 3) 4). pose proof (land_mask (a ≫ 2) 2). pose proof (land_mask (a ≫ 1) 1). lia.
Qed.

Lemma basic_hop_range h a : hop_ok h -> 0 <= basic_hop h a < 79.
Proof.
  intros [_ _ HF HY]. apply register_bank_range, Z.rem_bound_pos; [|lia].
  pose proof (permuted_range h (addr_B a)). pose proof (addr_ranges a). lia.
Qed.

Lemma bank_inj z z' e f y : 0 <= z < 32 -> 0 <= z' < 32 -> 0 <= e -> 0 <= f -> 0 <= y ->
  register_bank (Z.rem (z + e + f + y) 79) = register_bank (Z.rem (z' + e + f + y) 79) -> z = z'.
Proof.
  intros Hz Hz' He Hf Hy E. apply register_bank_inj in E; [|apply Z.rem_bound_pos; lia..].
  rewrite !Z.rem_mod_nonneg in E by lia. Z.div_mod_to_equations; lia.
Qed.

Lemma basic_hop_eq h a : basic_hop h a =
  register_bank (Z.rem (permuted h (addr_B a) + addr_E a + hF h + hY2 h) 79).
Proof. reflexivity. Qed.

Lemma basic_hop_inj h h' a : hop_ok h -> hop_ok h' -> hA h = hA h' -> hC h = hC h' -> hD h = hD h' -> hY1 h = hY1 h' ->
  hF h = hF h' -> hY2 h = hY2 h' -> basic_hop h a = basic_hop h' a -> hX h = hX h'.
Proof.
  intros Hh Hh' EA EC ED EY EF EY2 E. destruct (addr_ranges a) as (_ & HB & HE).
  apply (permuted_inj h h' (addr_B a) Hh Hh' HB EA EC ED EY). rewrite !basic_hop_eq, <- EF, <- EY2 in E.
  exact (bank_inj _ _ _ _ _ (permuted_range h (addr_B a)) (permuted_range h' (addr_B a)) (proj1 HE) (ho_F h Hh) (ho_Y2 h Hh) E).
Qed.

Lemma Ok_inj {A} (x y : A) : Ok x = Ok y -> x = y.
Proof. congruence. Qed.

Lemma basic_kernel b CLK CLKF seq a : seq <> FHAFH -> FH_kernel b CLK CLKF seq a = Ok (basic_hop (FH_inputs b CLK CLKF seq a) a).
Proof. intros H. unfold FH_kernel. rewrite bool_decide_false by exact H. cbv zeta. rewrite basic_hop_eq. reflexivity. Qed.

Lemma land31 x : 0 <= Z.land x 31 < 32.
Proof. pose proof (land_mask x 31). lia. Qed.

Lemma bit_range x : 0 <= Z.land x 1 <= 1.
Proof. apply land_mask. lia. Qed.

Lemma FH_inputs_ok b CLK CLKF seq a : hop_ok (FH_inputs b CLK CLKF seq a).
Proof.
  destruct (addr_ranges a) as (HA & _ & _). pose proof (bit_range (CLK ≫ 1)) as HY.
  assert (HF : 0 <= Z.rem (Z.land (CLK ≫ 7) 2097151 * 16) 79)
    by (apply Z.rem_bound_pos; [pose proof (land_mask (CLK ≫ 7) 2097151); lia|lia]).
  assert (HX : 0 <= Z.lxor (addr_A a) (Z.land (CLK ≫ 21) 31))
    by (apply Z.lxor_nonneg; pose proof (land31 (CLK ≫ 21)); split; lia).
  destruct seq; split; cbn; try apply land31; try assumption; try lia.
Qed.

(** The channels of the table are those of the map. *)
Lemma elem_of_used m ch : ch ∈ used_channels m <-> 0 <= ch < 80 /\ in_map m ch = true.
Proof.
  unfold used_channels, evens, odds. rewrite elem_of_app, !list_elem_of_In, !filter_In, <- !list_elem_of_In, elem_of_seqZ, !andb_true_iff.
  rewrite <- Z.negb_odd. destruct (Z.odd ch); cbn; intuition (try lia; discriminate).
Qed.

Lemma in_map_top m ch : map_ok m -> 0 <= ch < 80 -> in_map m ch = true -> ch < 79.
Proof.
  intros [Hl Hb Ht] Hch Hin. destruct (decide (ch = 79)) as [->|]; [|lia]. unfold in_map in Hin. change (Z.to_nat (79 / 8)) with 9%nat in Hin.
  change (79 mod 8) with 7 in Hin. destruct (lookup_lt_is_Some_2 m 9) as [v Hv]; [lia|]. rewrite (nth_at _ _ _ _ Hv) in *.
  pose proof (Forall_lookup_1 _ _ _ _ Hb Hv) as H. cbv beta in H.
  apply Z.testbit_true in Hin; [|lia]. rewrite Z.div_small in Hin by (cbn; lia). done.
Qed.

Lemma notUsed_ok s ch : set_ok s -> 0 <= ch < 80 -> notUsed s ch = Ok (if in_map (map s) ch then 0 else 1).
Proof.
  intros Hs Hch. unfold notUsed. rewrite (so_unused _ Hs). apply aread_ok; [lia|]. unfold unused_flags.
  rewrite list_lookup_fmap, lookup_seqZ_lt by lia. by replace (0 + Z.of_nat (Z.to_nat ch)) with ch by lia.
Qed.

Lemma usedCh_ok s i : set_ok s -> 0 <= i < _numUsedCh s -> returns (usedCh s i) (fun ch => used_channels (map s) !! Z.to_nat i = Some ch).
Proof.
  intros Hs Hi. rewrite (so_num _ Hs) in Hi. unfold usedCh.
  destruct (aread_in (_usedCh s) i) as (v & -> & Hv); [pose proof (used_length (map s)); rewrite (so_len _ Hs); lia|].
  cbn. rewrite <- (so_used _ Hs), lookup_take_lt by lia. exact Hv.
Qed.

Lemma FH_kernel_AFH b CLK CLKF a : FH_kernel b CLK CLKF FHAFH a =
  let h := FH_inputs b CLK CLKF FHAFH a in
  let n := numUsedCh (usedChSet_ b) in
  unused ← notUsed (usedChSet_ b) (basic_hop h a);
  if nz unused then
    if n =? 0 then Trap DivByZero else
    usedCh (usedChSet_ b) (Z.rem (permuted h (addr_B a) + addr_E a + Z.rem (Z.land (CLK ≫ 7) 2097151 * 16) n + hY2 h) n)
  else Ok (basic_hop h a).
Proof. unfold FH_kernel. rewrite bool_decide_true by reflexivity. cbv zeta. rewrite basic_hop_eq. reflexivity. Qed.

(** ** The pager and the scanner *)

(** The five low bits of the clock at the [v]-th transmit slot of a train. *)
Definition train_tick (v : Z) : Z := Z.land v 1 + (v ≫ 1) * 4.

Lemma low_bits q r : 0 <= r < 32 -> Z.land ((32 * q + r) ≫ 1) 14 + Z.land (32 * q + r) 1 = Z.land (r ≫ 1) 14 + Z.land r 1
  /\ Z.land ((32 * q + r) ≫ 1) 1 = Z.land (r ≫ 1) 1 /\ (32 * q + r) ≫ 12 = q ≫ 7 /\ (32 * q + r) ≫ 5 = q.
Proof.
  intros Hr. rewrite !Z.shiftr_div_pow2 by lia. change (2 ^ 1) with 2. change (2 ^ 12) with 4096. change (2 ^ 7) with 128. change (2 ^ 5) with 32.
  rewrite (land_low ((32 * q + r) / 2) (r / 2) 4 14), (land_low (32 * q + r) r 4 1), (land_low ((32 * q + r) / 2) (r / 2) 4 1)
    by (change (2 ^ 4) with 16; Z.div_mod_to_equations; lia).
  split; [done|]. split; [done|]. Z.div_mod_to_equations; lia.
Qed.

Lemma tick_bits r : 0 <= r < 32 -> Z.land (r ≫ 1) 1 = 0 ->
  0 <= Z.land (r ≫ 1) 14 + Z.land r 1 < 16 /\ r = train_tick (Z.land (r ≫ 1) 14 + Z.land r 1).
Proof.
  intros Hr H1.
  assert (E : forallb (fun r => negb (Z.land (r ≫ 1) 1 =? 0) || ((0 <=? Z.land (r ≫ 1) 14 + Z.land r 1) &&
    (Z.land (r ≫ 1) 14 + Z.land r 1 <? 16) && (r =? train_tick (Z.land (r ≫ 1) 14 + Z.land r 1)))) (seqZ 0 32) = true)
    by (vm_compute; reflexivity).
  apply (seqZ_all _ _ r) in E; [|done]. cbv beta in E. rewrite H1 in E. cbn [Z.eqb negb orb] in E.
  rewrite !andb_true_iff, Z.leb_le, Z.ltb_lt, Z.eqb_eq in E. tauto.
Qed.

Lemma tick_value v : 0 <= v < 16 -> 0 <= train_tick v < 32 /\ Z.land (train_tick v ≫ 1) 1 = 0 /\
  Z.land (train_tick v ≫ 1) 14 + Z.land (train_tick v) 1 = v.
Proof.
  intros Hv.
  assert (E : forallb (fun v => (0 <=? train_tick v) && (train_tick v <? 32) && (Z.land (train_tick v ≫ 1) 1 =? 0) &&
    (Z.land (train_tick v ≫ 1) 14 + Z.land (train_tick v) 1 =? v)) (seqZ 0 16) = true) by (vm_compute; reflexivity).
  apply (seqZ_all _ _ v) in E; [|done]. cbv beta in E. rewrite !andb_true_iff, Z.leb_le, Z.ltb_lt, !Z.eqb_eq in E. tauto.
Qed.

(** The phase the pager uses at its tick [v], when its clock says [x]. *)
Definition phase (t : TrainType) (x v : Z) : Z := (x + k_offset t + (v - x) mod 16) mod 32.

Lemma page_X b q r CLKF a : 0 <= r < 32 ->
  hX (FH_inputs b (32 * q + r) CLKF FHPage a) = phase (train_ b) (Z.land (q ≫ 7) 31) (Z.land (r ≫ 1) 14 + Z.land r 1).
Proof.
  intros Hr. destruct (low_bits q r Hr) as (E1 & _ & E2 & _). cbn [FH_inputs hX]. unfold page_phase, phase. rewrite E1, E2.
  pose proof (land31 (q ≫ 7)) as Hx. set (x := Z.land (q ≫ 7) 31) in *.
  assert (Hv : 0 <= Z.land (r ≫ 1) 14 + Z.land r 1) by (pose proof (land_mask (r ≫ 1) 14); pose proof (bit_range r); lia).
  set (v := Z.land (r ≫ 1) 14 + Z.land r 1) in *. clearbody x v.
  rewrite (Z.rem_mod_nonneg (v + 64 - x) 16) by lia. replace ((v + 64 - x) mod 16) with ((v - x) mod 16) by (Z.div_mod_to_equations; lia).
  assert (0 <= k_offset (train_ b)) by (destruct (train_ b); cbn; lia).
  pose proof (Z.mod_pos_bound (v - x) 16 ltac:(lia)). rewrite Z.rem_mod_nonneg by lia.
  change 31 with (Z.ones 5). rewrite Z.land_ones by lia. change (2 ^ 5) with 32. by rewrite Zmod_mod.
Qed.

(** The sixteen phases around the pager's are in train A, the others in train B,
    and each is used once. *)
Definition train_of (x xs : Z) : TrainType := if (xs - x + 8) mod 32 <? 16 then Train_A else Train_B.

Lemma phase_iff t x v xs : 0 <= x < 32 -> 0 <= xs < 32 -> 0 <= v < 16 ->
  phase t x v = xs <-> t = train_of x xs /\ v = (xs + 8) mod 16.
Proof.
  intros Hx Hs Hv. unfold phase, train_of.
  set (d := (v - x) mod 16). assert (Hd : 0 <= d < 16) by (apply Z.mod_pos_bound; lia).
  assert (Ed : exists k, v = x + d + 16 * k) by (exists ((v - x) / 16); unfold d; Z.div_mod_to_equations; lia).
  clearbody d. destruct Ed as [k ->].
  destruct (Z.ltb_spec ((xs - x + 8) mod 32) 16), t; cbn [k_offset]; (split; [intros H1; split; [|]|intros [H1 H2]]);
    try done; try discriminate H1; try (exfalso; Z.div_mod_to_equations; lia); Z.div_mod_to_equations; lia.
Qed.

(** The second half of an interlaced scan listens 16 phases away, so that it is
    found by the other train. *)
Lemma interlace_phase c : Z.land (_interlaceClk c ≫ 12) 31 = (Z.land (c ≫ 12) 31 + 16) mod 32.
Proof.
  unfold _interlaceClk. pose proof (land31 (c ≫ 12)) as Hx. rewrite Z.rem_mod_nonneg by lia.
  pose proof (Z.mod_pos_bound (Z.land (c ≫ 12) 31 + 16) 32 ltac:(lia)) as Hp. set (p := (Z.land (c ≫ 12) 31 + 16) mod 32) in *.
  clearbody p. set (y := Z.lor _ _). rewrite (land_low (s32 y ≫ 12) (y ≫ 12) 5 31).
  - unfold y. rewrite Z.shiftr_lor, Z.shiftr_land, Z.shiftr_shiftl_l, Z.shiftl_0_r by lia. change (4294840319 ≫ 12) with 1048544.
    rewrite Z.land_lor_distr_l, <- Z.land_assoc. change (Z.land 1048544 31) with 0. rewrite Z.land_0_r, Z.lor_0_l.
    change 31 with (Z.ones 5). rewrite Z.land_ones by lia. apply Z.mod_small. exact Hp.
  - lia.
  - cbn. lia.
  - rewrite !Z.shiftr_div_pow2 by lia. unfold s32. change (2 ^ 12) with 4096. change (2 ^ 5) with 32. clearbody y. Z.div_mod_to_equations; lia.
Qed.

Lemma interlaced_train x c : train_of x (Z.land (_interlaceClk c ≫ 12) 31) <> train_of x (Z.land (c ≫ 12) 31).
Proof.
  rewrite interlace_phase. pose proof (land31 (c ≫ 12)) as Hx. set (xs := Z.land (c ≫ 12) 31) in *. clearbody xs. unfold train_of.
  replace (((xs + 16) mod 32 - x + 8) mod 32) with (((xs - x + 8) mod 32 + 16) mod 32) by (Z.div_mod_to_equations; lia).
  pose proof (Z.mod_pos_bound (xs - x + 8) 32 ltac:(lia)) as Hd. set (d := (xs - x + 8) mod 32) in *. clearbody d.
  destruct (Z.ltb_spec ((d + 16) mod 32) 16), (Z.ltb_spec d 16); try done; exfalso; Z.div_mod_to_equations; lia.
Qed.

Lemma parse_hex_length ch bs : parse_hex ch = Some bs -> length bs = 10%nat /\ Forall (fun b => in_u8 b) bs.
Proof.
  unfold parse_hex. destruct (char_code <$> _) as [|c0 [|c1 rest]]; [done..|]. set (l := c0 :: c1 :: rest).
  destruct (_ && _ && _) eqn:Hc.
  - intros E. apply parse_bytes_length in E as [E Hb]. rewrite !andb_true_iff, Z.eqb_eq in Hc. cbn [length l] in Hc. split; [lia|done].
  - destruct (Z.eqb_spec (Z.of_nat (length l)) 20); [|done]. intros E. apply parse_bytes_length in E as [E Hb]. split; [lia|done].
Qed.

(** The next slot, two ticks later, when the clock stands at a master's slot. *)
Lemma slave_slot CLK : Z.land (CLK ≫ 1) 1 = 0 -> (CLK + 2) ≫ 2 = CLK ≫ 2 /\ (CLK + 2) ≫ 7 = CLK ≫ 7.
Proof.
  rewrite land_one. destruct (Z.odd (CLK ≫ 1)) eqn:Eo; [done|]. intros _. rewrite Z.shiftr_div_pow2 in Eo by lia.
  change (2 ^ 1) with 2 in Eo. rewrite Zodd_mod in Eo. apply Z.eqb_neq in Eo. rewrite !Z.shiftr_div_pow2 by lia.
  change (2 ^ 2) with 4. change (2 ^ 7) with 128. Z.div_mod_to_equations; lia.
Qed.

Lemma shiftr_more x y n k : 0 <= n -> 0 <= k -> x ≫ n = y ≫ n -> x ≫ (n + k) = y ≫ (n + k).
Proof. intros Hn Hk E. rewrite <- !Z.shiftr_shiftr by lia. by rewrite E. Qed.

(** * Properties *)

(** C17: every hop is one of the 79 channels, whatever the clocks, the address, the
    counters and the kind of sequence; an adaptive hop is a channel of the map.
    The kernel needs at least one channel in the map only for AFH, where it
    divides by their number. *)
Theorem hop_in_map b CLK CLKF seq a :
  set_ok (usedChSet_ b) -> (seq = FHAFH -> 0 < _numUsedCh (usedChSet_ b)) ->
  returns (FH_kernel b CLK CLKF seq a) (fun ch => 0 <= ch < 79 /\ (seq = FHAFH -> in_map (map (usedChSet_ b)) ch = true)).
Proof.
  intros Hs Hn. pose proof (basic_hop_range (FH_inputs b CLK CLKF seq a) a (FH_inputs_ok _ _ _ _ _)) as Hr.
  destruct (decide (seq = FHAFH)) as [->|Hne]; [|by rewrite basic_kernel].
  rewrite FH_kernel_AFH. cbv zeta. rewrite notUsed_ok, bind_Ok by (done || lia).
  destruct (in_map _ _) eqn:Em; [done|]. cbn [nz Z.eqb negb]. specialize (Hn eq_refl). unfold numUsedCh.
  destruct (Z.eqb_spec (_numUsedCh (usedChSet_ b)) 0) as [E0|E0]; [lia|].
  eapply returns_mono; [apply usedCh_ok; [done|]|].
  - destruct (FH_inputs_ok b CLK CLKF FHAFH a) as [_ _ _ HY]. pose proof (permuted_range (FH_inputs b CLK CLKF FHAFH a) (addr_B a)).
    pose proof (addr_ranges a). apply Z.rem_bound_pos; [|lia].
    assert (0 <= Z.rem (Z.land (CLK ≫ 7) 2097151 * 16) (_numUsedCh (usedChSet_ b)))
      by (apply Z.rem_nonneg; [lia|pose proof (land_mask (CLK ≫ 7) 2097151); lia]). lia.
  - cbv beta. intros ch Hch. apply list_elem_of_lookup_2, elem_of_used in Hch as [H1 H2].
    pose proof (in_map_top _ ch (so_map _ Hs) H1 H2). split; [lia|done].
Qed.

(** C19: AFH moves only the hops that would fall on a channel that is not in the
    map, and answers in the channel of the question: the slave's slot, two ticks
    later, has the hop of the master's. *)
Theorem afh_conservative b CLK CLKF a :
  set_ok (usedChSet_ b) -> Z.land (CLK ≫ 1) 1 = 0 ->
  (returns (FH_kernel b CLK CLKF FHChannel a) (fun ch => in_map (map (usedChSet_ b)) ch = true) ->
    FH_kernel b CLK CLKF FHAFH a = FH_kernel b CLK CLKF FHChannel a) /\
  FH_kernel b (CLK + 2) CLKF FHAFH a = FH_kernel b CLK CLKF FHAFH a.
Proof.
  intros Hs H1. split.
  - assert (E : FH_inputs b CLK CLKF FHAFH a = FH_inputs b CLK CLKF FHChannel a) by (cbn [FH_inputs]; by rewrite H1).
    rewrite (basic_kernel b CLK CLKF FHChannel a) by done. intros Hin. unfold returns in Hin.
    rewrite FH_kernel_AFH. cbv zeta. rewrite E.
    pose proof (basic_hop_range (FH_inputs b CLK CLKF FHChannel a) a (FH_inputs_ok _ _ _ _ _)) as Hr.
    rewrite notUsed_ok, bind_Ok by (done || lia). by rewrite Hin.
  - destruct (slave_slot CLK H1) as [E2 E7]. rewrite !FH_kernel_AFH. cbn [FH_inputs].
    pose proof (shiftr_more _ _ 7 14 ltac:(lia) ltac:(lia) E7) as E21. pose proof (shiftr_more _ _ 7 9 ltac:(lia) ltac:(lia) E7) as E16.
    change (7 + 14) with 21 in E21. change (7 + 9) with 16 in E16. by rewrite E2, E7, E21, E16.
Qed.

(** Within a segment of the channel hopping sequence, where the clock changes
    in its bits 2 to 6 only, no channel comes twice: 32 slots, 32 channels. *)
Theorem hop_distinct b c1 c2 CLKF a :
  c1 ≫ 7 = c2 ≫ 7 -> Z.land (c1 ≫ 1) 1 = Z.land (c2 ≫ 1) 1 ->
  FH_kernel b c1 CLKF FHChannel a = FH_kernel b c2 CLKF FHChannel a -> Z.land (c1 ≫ 2) 31 = Z.land (c2 ≫ 2) 31.
Proof.
  intros E7 E1 E. rewrite !basic_kernel in E by done. apply Ok_inj in E.
  pose proof (shiftr_more _ _ 7 14 ltac:(lia) ltac:(lia) E7) as E21. pose proof (shiftr_more _ _ 7 9 ltac:(lia) ltac:(lia) E7) as E16.
  change (7 + 14) with 21 in E21. change (7 + 9) with 16 in E16.
  exact (basic_hop_inj _ _ a (FH_inputs_ok b c1 CLKF FHChannel a) (FH_inputs_ok b c2 CLKF FHChannel a)
    ltac:(cbn; by rewrite E21) ltac:(cbn; by rewrite E16) ltac:(cbn; by rewrite E7) E1 ltac:(cbn; by rewrite E7) ltac:(cbn; by rewrite E1) E).
Qed.

(** C18: a pager finds the scanner.  Whatever the two clocks, the scanner's channel
    is, among the two trains of 16 transmit slots the pager has for its estimate,
    the hop of exactly one slot of one train; and that train is A when the
    scanner's phase is within -8 to +7 of the pager's. *)
Theorem page_finds_scanner b b' q cs CLKF CLKF' a t r :
  0 <= r < 32 -> Z.land (r ≫ 1) 1 = 0 ->
  let x := Z.land (q ≫ 7) 31 in
  let xs := Z.land (cs ≫ 12) 31 in
  FH_kernel (b <| train_ := t |>) (32 * q + r) CLKF FHPage a = FH_kernel b' cs CLKF' FHPageScan a <->
  t = train_of x xs /\ r = train_tick ((xs + 8) mod 16).
Proof.
  intros Hr H1. cbv zeta. rewrite !basic_kernel by done. destruct (low_bits q r Hr) as (_ & EY & _).
  pose proof (page_X (b <| train_ := t |>) q r CLKF a Hr) as EX. change (train_ (b <| train_ := t |>)) with t in EX.
  destruct (tick_bits r Hr H1) as [Hv Er]. set (v := Z.land (r ≫ 1) 14 + Z.land r 1) in *. clearbody v.
  pose proof (phase_iff t _ v _ (land31 (q ≫ 7)) (land31 (cs ≫ 12)) Hv) as Hp. rewrite <- EX in Hp.
  set (h := FH_inputs (b <| train_ := t |>) (32 * q + r) CLKF FHPage a) in *.
  set (h' := FH_inputs b' cs CLKF' FHPageScan a) in *.
  assert (E : h = mkHop (hX h) 0 0 (hA h') (hC h') (hD h') 0) by (unfold h, h'; cbn [FH_inputs]; by rewrite EY, H1).
  assert (E' : h' = mkHop (Z.land (cs ≫ 12) 31) 0 0 (hA h') (hC h') (hD h') 0) by done.
  transitivity (hX h = Z.land (cs ≫ 12) 31); [split|].
  - intros Eh. apply Ok_inj in Eh.
    exact (basic_hop_inj h h' a (FH_inputs_ok _ _ _ _ _) (FH_inputs_ok _ _ _ _ _) ltac:(by rewrite E) ltac:(by rewrite E) ltac:(by rewrite E)
      ltac:(by rewrite E) ltac:(by rewrite E) ltac:(by rewrite E) Eh).
  - intros EXs. rewrite E, E', EXs. done.
  - rewrite Hp, Er. split; intros [-> Ev]; (split; [done|]); [by rewrite Ev|].
    destruct (tick_value v Hv) as (_ & _ & T1). destruct (tick_value ((Z.land (cs ≫ 12) 31 + 8) mod 16)) as (_ & _ & T2);
      [apply Z.mod_pos_bound; lia|]. by rewrite <- T1, Ev, T2.
Qed.

(** C20: the hexadecimal form.  importMapByHexString reads back what toHexString
    wrote: the same map, with the table of its channels. *)
Theorem hex_roundtrip s r odd0 :
  set_ok s -> sized r -> length odd0 = 40%nat ->
  returns (importMapByHexString odd0 (toHexString s) r) (fun r' => set_ok r' /\ map r' = map s).
Proof.
  intros Hs Hr Ho. rewrite import_eq, (parse_toHex s Hs) by done. rewrite reverse_involutive.
  destruct (so_map s Hs) as [Hl Hb _]. eapply returns_mono; [apply expand_ok; [by destruct Hr|done|done]|].
  intros r' [H1 H2]. split; [done|]. rewrite H2. apply trimmed_id, (so_map s Hs).
Qed.

(** ImportMapByHexString accepts twenty digits, or twenty digits after 0x, and
    then the table lists the even channels of the map and then the odd ones; it
    calls abort() on any other string. *)
Theorem hex_import_correct ch r odd0 :
  sized r -> length odd0 = 40%nat ->
  match importMapByHexString odd0 ch r with
  | Ok r' => exists bs, parse_hex ch = Some bs /\ set_ok r' /\ map r' = trimmed (reverse bs)
  | Trap u => u = AssertFail /\ parse_hex ch = None
  end.
Proof.
  intros Hr Ho. rewrite import_eq by done. destruct (parse_hex ch) as [bs|] eqn:E; [|done].
  pose proof (parse_hex_length ch bs E) as [Hl Hb].
  pose proof (expand_ok odd0 (r <| map := reverse bs |>)) as H. destruct (_expand _ _) as [r'|u].
  - destruct H as [H1 H2]; [destruct Hr; split; cbn; rewrite ?length_reverse; done|by apply Forall_reverse|done|]. by exists bs.
  - destruct H; [destruct Hr; split; cbn; rewrite ?length_reverse; done|by apply Forall_reverse|done].
Qed.

(** ** The examples *)

Definition blank : BTChannelUseSet := mkChannels (replicate 10 0) 0 (replicate 80 0) (replicate 80 0).
Lemma blank_sized : sized blank.
Proof. by split. Qed.

(** All the channels, and the even ones. *)
Definition all_channels : BTChannelUseSet := Eval vm_compute in
  match reset (replicate 40 0) blank with Ok s => s | Trap _ => blank end.
Definition even_channels : BTChannelUseSet := Eval vm_compute in
  match importMapByHexString (replicate 40 0) "0x55555555555555555555" blank with Ok s => s | Trap _ => blank end.

Lemma even_channels_ok : set_ok even_channels.
Proof. split; [|vm_compute; reflexivity..]. split; [done| |done]. repeat (constructor; [lia|]). constructor. Qed.

Definition demo_baseband : baseband := mkBaseband Train_A 0 0 0 even_channels.

Lemma hop_in_map_witness : returns (FH_kernel demo_baseband 18 0 FHAFH 708243237)
  (fun ch => 0 <= ch < 79 /\ (FHAFH = FHAFH -> in_map (map even_channels) ch = true)).
Proof. apply (hop_in_map demo_baseband 18 0 FHAFH 708243237 even_channels_ok). done. Defined.

Lemma afh_conservative_witness :
  FH_kernel demo_baseband 24 0 FHAFH 0 = Ok 12 /\ FH_kernel demo_baseband 26 0 FHAFH 0 = Ok 12.
Proof.
  destruct (afh_conservative demo_baseband 24 0 0 even_channels_ok eq_refl) as [H1 H2]. split; [|change 26 with (24 + 2); rewrite H2];
    (rewrite H1; [vm_compute; reflexivity|vm_compute; reflexivity]).
Defined.

Lemma hop_distinct_witness : FH_kernel demo_baseband 16 0 FHChannel 0 <> FH_kernel demo_baseband 20 0 FHChannel 0.
Proof. intros E. assert (H := hop_distinct demo_baseband 16 20 0 0 eq_refl eq_refl E). vm_compute in H. discriminate H. Defined.

Lemma page_finds_scanner_witness :
  FH_kernel (demo_baseband <| train_ := Train_B |>) (32 * 1000 + 4) 0 FHPage 708243237 =
  FH_kernel demo_baseband 110000 0 FHPageScan 708243237.
Proof. apply page_finds_scanner; [lia|reflexivity|]. vm_compute. split; reflexivity. Defined.

Lemma hex_roundtrip_witness :
  toHexString even_channels = "55555555555555555555"%string /\
  returns (importMapByHexString (replicate 40 0) "55555555555555555555" blank) (fun r => set_ok r /\ map r = map even_channels).
Proof. split; [vm_compute; reflexivity|]. exact (hex_roundtrip even_channels blank (replicate 40 0) even_channels_ok blank_sized eq_refl). Defined.

Lemma hex_import_correct_witness : importMapByHexString (replicate 40 0) "0x7fffffffffffffffffg0" blank = Trap AssertFail.
Proof.
  assert (H := hex_import_correct "0x7fffffffffffffffffg0" blank (replicate 40 0) blank_sized eq_refl).
  destruct (importMapByHexString _ _ _) as [r|u]; [destruct H as (bs & H & _); vm_compute in H; discriminate H|].
  destruct H as [-> _]. reflexivity.
Defined.

(** The beginning of the sample data of the Bluetooth specification that
    Baseband::test_fh prints: the channel hopping sequence of address 0. *)
Example spec_sample :
  (fun i => FH_kernel demo_baseband (16 + 2 * i) 0 FHChannel 0) <$> seqZ 0 16 =
  Ok <$> [8; 66; 10; 70; 12; 19; 14; 23; 16; 1; 18; 5; 20; 33; 22; 37].
Proof. vm_compute. reflexivity. Qed.

(** A map without channels is accepted, and then AFH divides by zero. *)
Example empty_map_traps :
  match importMapByHexString (replicate 40 0) "00000000000000000000" blank with
  | Ok s => FH_kernel (demo_baseband <| usedChSet_ := s |>) 16 0 FHAFH 0 = Trap DivByZero
  | Trap _ => False
  end.
Proof. vm_compute. reflexivity. Qed.
