(* ===== verification/BtPacket.v ===== *)
(** * Bluetooth baseband packets

    bluetooth/hdr-bt.h: the packet types, the tables of their slots, payloads and
    lengths, and the header fields that the link layer reads and writes. *)
From S2P Require Import Prelude.

(** * Definitions *)

(** ** Packet types *)

Inductive packet_type : Set :=
  | Null | Poll | FHS | DM1 | DH1 | HV1 | HV2 | HV3 | DV | AUX1
  | DM3 | DH3 | EV4 | EV5 | DM5 | DH5 | Id | EV3 | DH1_2 | DH1_3
  | DH3_2 | DH3_3 | DH5_2 | DH5_3 | EV3_2 | EV3_3 | EV5_2 | EV5_3
  | HLO | NotSpecified | Invalid.

#[global] Instance packet_type_eq_dec : EqDecision packet_type.
Proof. solve_decision. Defined.

(** The value of an enumerator. *)
Definition type_code (p : packet_type) : Z :=
  match p with
  | Null => 0 | Poll => 1 | FHS => 2 | DM1 => 3 | DH1 => 4 | HV1 => 5 | HV2 => 6 | HV3 => 7 | DV => 8 | AUX1 => 9
  | DM3 => 10 | DH3 => 11 | EV4 => 12 | EV5 => 13 | DM5 => 14 | DH5 => 15 | Id => 16 | EV3 => 17 | DH1_2 => 18
  | DH1_3 => 19 | DH3_2 => 20 | DH3_3 => 21 | DH5_2 => 22 | DH5_3 => 23 | EV3_2 => 24 | EV3_3 => 25 | EV5_2 => 26
  | EV5_3 => 27 | HLO => 28 | NotSpecified => 29 | Invalid => 30
  end.

Definition is_type (p q : packet_type) : bool := type_code p =? type_code q.

Definition isCRCAclPkt (pt : packet_type) : bool :=
  is_type pt DH1 || is_type pt DH3 || is_type pt DH5 || is_type pt DM1 || is_type pt DM3 || is_type pt DM5
  || ((type_code DH1_2 <=? type_code pt) && (type_code pt <=? type_code DH5_3)).

Definition isNonCRCPkt (pt : packet_type) : bool :=
  (type_code pt <=? type_code FHS) || is_type pt HV1 || is_type pt HV2 || is_type pt HV3
  || is_type pt AUX1 || is_type pt Id.

Definition isCRCPkt (pt : packet_type) : bool := negb (isNonCRCPkt pt).

Definition isScoPkt (pt : packet_type) : bool :=
  is_type pt HV3 || is_type pt HV2 || is_type pt HV1 || is_type pt DM1 || is_type pt DV.

Definition scoOnly (pt : packet_type) : bool := is_type pt HV3 || is_type pt HV2 || is_type pt HV1.

(** ** Slots, payloads and lengths *)

Definition slot_table : list Z :=
  [1; 1; 1; 1; 1; 1; 1; 1; 1; 1; 3; 3; 3; 3; 5; 5; 1; 1; 1; 1; 3; 3; 5; 5; 1; 1; 3; 3; 1; 1; 1].
Definition slot_num (p : packet_type) : outcome Z := aread slot_table (type_code p).

Definition payload_table : list Z :=
  [0; 0; 0; 17; 27; 10; 20; 30; 9; 29; 121; 183; 120; 180; 224; 339; 0; 30; 54; 83; 367; 552; 679; 1021; 60; 90; 360; 540;
   27; 0; 0].
(** exit(-1) is [AssertFail]. *)
Definition payload_size (p : packet_type) : outcome Z :=
  if type_code NotSpecified <=? type_code p then Trap AssertFail else aread payload_table (type_code p).

(** [if (bytes < lo || bytes > max) bytes = dflt;] *)
Definition clamp_bytes (lo max dflt bytes : Z) : Z := if (bytes <? lo) || (max <? bytes) then dflt else bytes.

(** The 2/3 rate code: ten information bits become fifteen. *)
Definition fec_2_3 (payload : Z) : Z := ((payload + 9) / 10 * 10) * 3 / 2.

(** The length of a packet in symbols, at one symbol a microsecond. *)
Definition packet_size (p : packet_type) (bytes : Z) : outcome Z :=
  match p with
  | NotSpecified | Invalid => Trap AssertFail
  | Id => Ok 68
  | Null | Poll => Ok 126
  | FHS | HV1 | HV2 | HV3 => Ok 366
  | DM1 => Ok (fec_2_3 ((clamp_bytes 0 17 17 bytes + 3) * 8) + 126)
  | DH1 => Ok ((clamp_bytes 0 27 27 bytes + 3) * 8 + 126)
  | DM3 => Ok (fec_2_3 ((clamp_bytes 0 121 121 bytes + 4) * 8) + 126)
  | DM5 => Ok (fec_2_3 ((clamp_bytes 0 224 224 bytes + 4) * 8) + 126)
  | DH3 => Ok ((clamp_bytes 0 183 183 bytes + 4) * 8 + 126)
  | DH5 => Ok ((clamp_bytes 0 339 339 bytes + 4) * 8 + 126)
  | AUX1 => Ok ((clamp_bytes 0 29 29 bytes + 3) * 8 + 126)
  | DV => Ok (fec_2_3 ((clamp_bytes 0 9 9 bytes + 3) * 8) + 126 + 80)
  | EV3 => Ok ((clamp_bytes 1 30 30 bytes + 2) * 8 + 126)
  | EV4 => Ok (fec_2_3 ((clamp_bytes 1 120 120 bytes + 2) * 8) + 126)
  | EV5 => Ok ((clamp_bytes 1 180 180 bytes + 2) * 8 + 126)
  | DH1_2 => Ok ((clamp_bytes 0 54 54 bytes + 4) * 4 + 126 + 18)
  | DH1_3 => Ok (((clamp_bytes 0 83 83 bytes + 4) * 8 + 2) / 3 + 126 + 18)
  | DH3_2 => Ok ((clamp_bytes 0 367 367 bytes + 4) * 4 + 126 + 18)
  | DH3_3 => Ok (((clamp_bytes 0 552 552 bytes + 4) * 8 + 2) / 3 + 126 + 18)
  | DH5_2 => Ok ((clamp_bytes 0 679 679 bytes + 4) * 4 + 126 + 18)
  | DH5_3 => Ok (((clamp_bytes 0 1021 1021 bytes + 4) * 8 + 2) / 3 + 126 + 18)
  | EV3_2 => Ok ((clamp_bytes 1 60 60 bytes + 2) * 4 + 126 + 18)
  | EV3_3 => Ok (((clamp_bytes 1 90 90 bytes + 2) * 8 + 2) / 3 + 126 + 18)
  | EV5_2 => Ok ((clamp_bytes 1 360 360 bytes + 2) * 4 + 126 + 18)
  | EV5_3 => Ok (((clamp_bytes 1 540 540 bytes + 2) * 8 + 2) / 3 + 126 + 18)
  | HLO => Ok ((clamp_bytes 1 180 27 bytes + 2) * 8 + 126)
  end.

(** [packet_size(p)] *)
Definition packet_size_max (p : packet_type) : outcome Z := packet_size p (-1).

(** ** The header *)

(** Logical channels (bt.h). *)
Definition L_CH_UD : Z := 0.
Definition L_CH_L2CAP_CONT : Z := 1.
Definition L_CH_L2CAP_START : Z := 2.
Definition L_CH_LM : Z := 3.

(** struct hdr_bt, with [ch_size] the size in the common header and [lh_length]
    the length in the L2CAP header; [ph_length] is [ph.length] and [opcode] is
    [u.lmpcmd.opcode].  [content] stands for the data of the packet. *)
Record bt_packet : Type := mkBtPacket {
  type : packet_type;
  arqn : Z;
  seqn : Z;
  l_ch : Z;
  ph_length : Z;
  bcast : bool;
  transmitCount : Z;
  seqno : Z;
  size : Z;
  ch_size : Z;
  lh_length : Z;
  opcode : Z;
  srcTxSlot : Z;
  dstTxSlot : Z;
  clk : Z;
  content : Z }.

#[global] Instance eta_bt_packet : Eta bt_packet := fun p =>
  mkBtPacket (type p) (arqn p) (seqn p) (l_ch p) (ph_length p) (bcast p) (transmitCount p) (seqno p) (size p) (ch_size p)
    (lh_length p) (opcode p) (srcTxSlot p) (dstTxSlot p) (clk p) (content p).

(** Packet::alloc(): the headers are zero. *)
Definition alloc (c : Z) : bt_packet := mkBtPacket Null 0 0 0 0 false 0 0 0 0 0 0 0 0 0 c.

Definition int16 (z : Z) : Z := (z + 32768) mod 65536 - 32768.

(** * Lemmas *)

Lemma clamp_range lo max dflt b : lo <= dflt <= max -> lo <= clamp_bytes lo max dflt b <= max.
Proof. intros H. unfold clamp_bytes. destruct (Z.ltb_spec b lo), (Z.ltb_spec max b); cbn; lia. Qed.

(** The receiver's test of a CRC packet and the sender's agree on ACL data. *)
Lemma crc_acl p : isCRCAclPkt p = true -> isCRCPkt p = true.
Proof. by destruct p. Qed.

(** * Properties *)

(** Every packet is over at least 233 microseconds before the slots of its
    type are, whatever length is asked for; HLO is the exception. *)
Theorem packet_fits_slots p bytes :
  p <> HLO -> p <> NotSpecified -> p <> Invalid ->
  returns (packet_size p bytes) (fun n => returns (slot_num p) (fun k => 0 < n /\ n + 233 <= 625 * k)).
Proof.
  intros H1 H2 H3. destruct p; try done; unfold packet_size, slot_num, fec_2_3;
    match goal with |- context [aread slot_table ?c] => let v := eval vm_compute in (aread slot_table c) in change (aread slot_table c) with v end;
    unfold returns; first [lia | match goal with |- context [clamp_bytes ?a ?b ?c bytes] =>
      pose proof (clamp_range a b c bytes ltac:(lia)); Z.div_mod_to_equations; lia end].
Qed.

Lemma packet_fits_slots_witness : returns (packet_size DH5_3 5000) (fun n => returns (slot_num DH5_3) (fun k => 0 < n /\ n + 233 <= 625 * k)).
Proof. apply (packet_fits_slots DH5_3 5000); discriminate. Defined.

(** The largest payload of a type fills it. *)
Lemma payload_fills p n : payload_size p = Ok n -> p <> HLO -> packet_size p n = packet_size_max p.
Proof. intros H1 H2. destruct p; try done; vm_compute in H1; injection H1 as <-; reflexivity. Qed.

(** An HLO packet may have 180 bytes, and is then longer than its slot. *)
Example hlo_overruns : packet_size HLO 180 = Ok 1582 /\ slot_num HLO = Ok 1 /\ payload_size HLO = Ok 27.
Proof. by vm_compute. Qed.
