(* ===== verification/BtLink.v ===== *)
(** * A Bluetooth link: the transmit buffer and the link's queues

    bluetooth/baseband.cc, class TxBuffer (the two packets of a link that are
    being sent, the 1-bit sequence and acknowledgement numbers, transmit and
    handle_recv), and of bluetooth/lmp-link.cc the part of LMPLink that feeds it
    (callback, enqueue, getAL2capPktFragment, sendACK, ...), with L2CAPChannel's
    send (l2cap.cc).

    A station is one end of a link: its TxBuffer, its LMPLink, and what they read
    of the Baseband.  Packets are sent as copies (Baseband::sendDown), so they are
    values.  [accepted] and [detach_acks] are not in the code: they record the
    packets that went into the buffer and the calls of recv_detach_ack. *)
From S2P Require Import Prelude BtPacket.

(** * Definitions *)

(** Link types (bt.h), and the first slot of a dynamic buffer (baseband.h). *)
Definition ACL : Z := 0.
Definition SCO : Z := 1.
Definition BBSIG : Z := 2.
Definition MinTxBufferSlot : Z := 9.
Definition FAILS_SCHRED_FOR_TPOLL_DBL : Z := 8.
Definition TPOLLUPDATE_PKTNUM : Z := 8.
Definition LMP_DETACH : Z := 7.

Record TxBuffer : Type := mkTx {
  current_ : option bt_packet;
  next_ : option bt_packet;
  slot_ : Z;
  dstTxSlot_ : Z;
  send_ack_ : bool;
  seqn_rx_ : Z;
  seqn_tx_ : Z;
  arqn_ : Z;
  scoStarted_ : bool;
  T_ : list Z;
  t_index_ : Z;
  t_cntr_ : Z;
  lastPktRecvT_ : Z;
  lastDataPktRecvT_ : Z;
  ttlFails_ : Z;
  fails_ : Z;
  ttlSent_ : Z;
  nullCntr_ : Z;
  suspended_ : bool;
  hasData_ : bool;
  deficit_ : Z;
  ttlSlots_ : Z;
  T_poll_ : Z;
  T_poll_max_ : Z;
  T_poll_default_ : Z;
  txType_ : packet_type;
  rxType_ : packet_type }.

#[global] Instance eta_tx : Eta TxBuffer := fun t =>
  mkTx (current_ t) (next_ t) (slot_ t) (dstTxSlot_ t) (send_ack_ t) (seqn_rx_ t) (seqn_tx_ t) (arqn_ t) (scoStarted_ t)
    (T_ t) (t_index_ t) (t_cntr_ t) (lastPktRecvT_ t) (lastDataPktRecvT_ t) (ttlFails_ t) (fails_ t) (ttlSent_ t)
    (nullCntr_ t) (suspended_ t) (hasData_ t) (deficit_ t) (ttlSlots_ t) (T_poll_ t) (T_poll_max_ t) (T_poll_default_ t)
    (txType_ t) (rxType_ t).

(** An L2CAP channel of the link: [ready_], and its interface queue. *)
Record channel : Type := mkChannel { ready_ : bool; queue : list bt_packet }.

Record LMPLink : Type := mkLink {
  _type : Z;
  _lmpQ : list bt_packet;
  _l2capQ : list bt_packet;
  _curL2capPkt : option bt_packet;
  _curL2capPkt_remain_len : Z;
  _fragno : Z;
  pt : packet_type;
  suspended : bool;
  _parked : bool;
  link_T_poll_ : Z;
  (** [connhand->head] and its ring, when connected *)
  channels : list channel }.

#[global] Instance eta_link : Eta LMPLink := fun l =>
  mkLink (_type l) (_lmpQ l) (_l2capQ l) (_curL2capPkt l) (_curL2capPkt_remain_len l) (_fragno l) (pt l) (suspended l)
    (_parked l) (link_T_poll_ l) (channels l).

Record station : Type := mkStation {
  tx : TxBuffer;
  link : LMPLink;
  isMaster : bool;
  clk_ : Z;
  polling_ : bool;
  polled_ : option Z;
  _max_num_retran : Z;
  _num_Broadcast_Retran : Z;
  failTriggerSchred_ : Z;
  accepted : list bt_packet;
  detach_acks : Z }.

#[global] Instance eta_station : Eta station := fun s =>
  mkStation (tx s) (link s) (isMaster s) (clk_ s) (polling_ s) (polled_ s) (_max_num_retran s) (_num_Broadcast_Retran s)
    (failTriggerSchred_ s) (accepted s) (detach_acks s).

(** [s] with its buffer, or its link, changed. *)
Definition on_tx (f : TxBuffer -> TxBuffer) (s : station) : station := s <| tx := f (tx s) |>.
Definition on_link (f : LMPLink -> LMPLink) (s : station) : station := s <| link := f (link s) |>.

(** ** The buffer *)

Definition is_null {A} (o : option A) : bool := match o with None => true | Some _ => false end.

Definition available (t : TxBuffer) : bool := is_null (next_ t) || is_null (current_ t).

(** [push]: 0 when the buffer is full. *)
Definition push (p : bt_packet) (s : station) : Z * station :=
  let t := tx s in
  if available t then
    let t' :=
      if is_null (current_ t) && is_null (next_ t) then t <| current_ := Some p |>
      else if is_null (next_ t) then t <| next_ := Some p |>
      else (t <| current_ := next_ t |>) <| next_ := Some p |> in
    (1, (s <| tx := t' |>) <| accepted := accepted s ++ [p] |>)
  else (0, s).

(** ** Fragments *)

(** The packet type for the last fragment of a packet (VARIABLE_PKT). *)
Definition variable_type (t : packet_type) (n : Z) : packet_type :=
  if is_type t DH5 && (n <=? 183) then if n <=? 27 then DH1 else DH3
  else if is_type t DM5 && (n <=? 121) then if n <=? 17 then DM1 else DM3
  else if is_type t DH3 && (n <=? 27) then DH1
  else if is_type t DM3 && (n <=? 17) then DM1
  else if is_type t DH5_3 && (n <=? 552) then if n <=? 83 then DH1_3 else DH3_3
  else if is_type t DH5_2 && (n <=? 367) then if n <=? 54 then DH1_2 else DH3_2
  else if is_type t DH3_3 && (n <=? 83) then DH1_3
  else if is_type t DH3_2 && (n <=? 54) then DH1_2
  else t.

(** The end of getAL2capPktFragment: the fragment of [p], when [remain] bytes are left. *)
Definition fragment (p : bt_packet) (l : LMPLink) : outcome (option bt_packet * LMPLink) :=
  payload ← payload_size (pt l);
  let remain := _curL2capPkt_remain_len l in
  let n := int16 (if payload <? remain then payload else remain) in
  let t := variable_type (pt l) n in
  sz ← packet_size t n;
  let p := p <| ph_length := n |> <| size := int16 sz |> <| type := t |> in
  let p := p <| ch_size := Z.quot (size p) 8 |> <| seqno := _fragno l |> in
  let l := l <| _fragno := _fragno l + 1 |> in
  let p := if _fragno l =? 1 then p <| transmitCount := 0 |> <| l_ch := L_CH_L2CAP_START |>
           else p <| l_ch := L_CH_L2CAP_CONT |> in
  let l := l <| _curL2capPkt_remain_len := _curL2capPkt_remain_len l - n |> in
  Ok (Some p, l <| _curL2capPkt := if 0 <? _curL2capPkt_remain_len l then Some p else None |>).

(** getAL2capPktFragment after the polling of the channels. *)
Definition take_fragment (l : LMPLink) : outcome (option bt_packet * LMPLink) :=
  let l := match _curL2capPkt l, _l2capQ l with
           | None, p :: q => l <| _l2capQ := q |> <| _curL2capPkt := Some p |> <| _curL2capPkt_remain_len := ch_size p |> <| _fragno := 0 |>
           | _, _ => l
           end in
  match _curL2capPkt l with
  | None => Ok (None, l)
  | Some p => fragment p l
  end.

(** enqueue.  When it asks for a fragment either a packet is being sent or
    [_l2capQ] is not empty, so that getAL2capPktFragment does not poll the
    channels, and the buffer is available. *)
Definition enqueue (p : bt_packet) (s : station) : outcome station :=
  let s := if l_ch p =? L_CH_LM then on_link (fun l => l <| _lmpQ := _lmpQ l ++ [p] |>) s
           else on_link (fun l => l <| _l2capQ := _l2capQ l ++ [p] |>) s in
  if available (tx s) then
    match _lmpQ (link s) with
    | q :: rest => Ok (push q (on_link (fun l => l <| _lmpQ := rest |>) s)).2
    | [] =>
        if _type (link s) =? ACL then
          '(o, l) ← take_fragment (link s);
          let s := s <| link := l |> in
          Ok (match o with Some q => (push q s).2 | None => s end)
        else if _type (link s) =? SCO then
          match _l2capQ (link s) with
          | q :: rest => Ok (push q (on_link (fun l => l <| _l2capQ := rest |>) s)).2
          | [] => Ok s
          end
        else Ok s
    end
  else Ok s.

(** L2CAPChannel::send(), for the channel at place [i] of the ring. *)
Definition chan_send (i : nat) (s : station) : outcome station :=
  match channels (link s) !! i with
  | None => Ok s
  | Some c =>
      if negb (ready_ c) || suspended (link s) || _parked (link s) then Ok s
      else match queue c with
           | [] => Ok s
           | p :: q =>
               let s := on_link (fun l => l <| channels := <[i := mkChannel (ready_ c) q]> (channels l) |>) s in
               let p := p <| lh_length := ch_size p |> in
               let p := p <| ch_size := ch_size p + 4 |> <| l_ch := L_CH_L2CAP_START |> in
               enqueue p s
           end
  end.

(** The loop over the channels, from [connhand->head]. *)
Fixpoint poll_channels (n i : nat) (s : station) : outcome station :=
  match n with
  | O => Ok s
  | S n =>
      s ← chan_send i s;
      match _l2capQ (link s) with [] => poll_channels n (S i) s | _ :: _ => Ok s end
  end.

Definition getAL2capPktFragment (s : station) : outcome (option bt_packet * station) :=
  match _curL2capPkt (link s) with
  | Some _ => '(o, l) ← take_fragment (link s); Ok (o, s <| link := l |>)
  | None =>
      s ← (match _l2capQ (link s) with [] => poll_channels (length (channels (link s))) 0 s | _ :: _ => Ok s end);
      if available (tx s) then '(o, l) ← take_fragment (link s); Ok (o, s <| link := l |>)
      else Ok (None, s)
  end.

(** LMPLink::callback: a packet for the buffer, if there is one and room for it. *)
Definition callback (s : station) : outcome (Z * station) :=
  if negb (available (tx s)) then Ok (0, s)
  else if suspended (link s) || _parked (link s) then Ok (0, s)
  else
    '(o, s) ← (match _lmpQ (link s) with
               | q :: rest => Ok (Some q, on_link (fun l => l <| _lmpQ := rest |>) s)
               | [] =>
                   if _type (link s) =? ACL then getAL2capPktFragment s
                   else match _l2capQ (link s) with
                        | q :: rest => Ok (Some q, on_link (fun l => l <| _l2capQ := rest |>) s)
                        | [] => Ok (None, s)
                        end
               end);
    Ok (match o with Some p => push p s | None => (0, s) end).

(** ** Control packets *)

Definition null_pkt : outcome bt_packet :=
  sz ← packet_size_max Null;
  Ok ((alloc 0) <| type := Null |> <| arqn := 1 |> <| size := sz |> <| l_ch := L_CH_LM |>).
Definition genPollPkt (ack : Z) : outcome bt_packet :=
  sz ← packet_size_max Poll;
  Ok ((alloc 0) <| type := Poll |> <| arqn := ack |> <| size := sz |> <| l_ch := L_CH_LM |>).

Definition sendNull (s : station) : outcome station :=
  if available (tx s) then p ← null_pkt; Ok (push p s).2 else Ok s.
Definition sendPoll (ack : Z) (s : station) : outcome station :=
  if available (tx s) then p ← genPollPkt ack; Ok (push p s).2 else Ok s.

Definition mark_ack (s : station) : station := on_tx (fun t => t <| send_ack_ := true |>) s.
Definition sendACK (s : station) : outcome station :=
  '(r, s) ← callback s;
  Ok (if r =? 0 then mark_ack s else s).

(** flushL2CAPPkt *)
Fixpoint drop_cont (q : list bt_packet) : list bt_packet :=
  match q with
  | p :: rest => if l_ch p =? L_CH_L2CAP_CONT then drop_cont rest else q
  | [] => []
  end.
Definition flushL2CAPPkt (s : station) : station := on_link (fun l => l <| _l2capQ := drop_cont (_l2capQ l) |>) s.

(** failTrigger: the master suspends the buffer.  nullTrigger and
    recvd_in_sniff_attempt do nothing. *)
Definition failTrigger (s : station) : station :=
  if isMaster s then on_tx (fun t => t <| suspended_ := true |>) s else s.

Definition switch_reg (s : station) : outcome station :=
  let s := on_tx (fun t => (t <| current_ := next_ t |>) <| next_ := None |>) s in
  '(_, s) ← callback s;
  Ok s.

(** The packet that replaces one that is given up. *)
Definition flush_pkt : outcome bt_packet :=
  sz ← packet_size DM1 0;
  Ok ((alloc 0) <| type := DM1 |> <| l_ch := L_CH_L2CAP_CONT |> <| ph_length := 0 |> <| size := sz |>).
Definition flush (s : station) : outcome station :=
  let s := match next_ (tx s) with
           | None => flushL2CAPPkt s
           | Some p => if l_ch p =? L_CH_L2CAP_CONT
                       then on_tx (fun t => t <| next_ := None |>) (flushL2CAPPkt s) else s
           end in
  p ← flush_pkt;
  Ok (on_tx (fun t => t <| current_ := Some p |>) s).

Definition reset_seqn (s : station) : station :=
  on_tx (fun t => (t <| seqn_tx_ := 0 |>) <| seqn_rx_ := 0 |> <| arqn_ := 0 |> <| current_ := None |> <| next_ := None |>) s.

Definition hasBcast (s : station) : outcome (bool * station) :=
  s ← (match current_ (tx s) with
       | Some p => if _num_Broadcast_Retran s <=? transmitCount p then switch_reg s else Ok s
       | None => Ok s
       end);
  Ok (negb (is_null (current_ (tx s))), s).

(** ** Transmission *)

(** Baseband::stamp, the fields of the model. *)
Definition stamp (p : bt_packet) (s : station) : bt_packet :=
  p <| srcTxSlot := slot_ (tx s) |> <| dstTxSlot := dstTxSlot_ (tx s) |>
    <| transmitCount := int16 (transmitCount p + 1) |> <| clk := clk_ s |>.

(** Is the current packet done with?  Otherwise retransmit it. *)
Definition retire (s : station) : outcome station :=
  match current_ (tx s) with
  | Some p =>
      if bcast p && (_num_Broadcast_Retran s <=? transmitCount p) then switch_reg s
      else if (0 <? transmitCount p) && negb (isCRCPkt (type p)) then switch_reg s
      else if _max_num_retran s <=? transmitCount p then flush s
      else Ok s
  | None => Ok s
  end.

(** A packet for the current slot when there is none. *)
Definition refill (s : station) : outcome station :=
  s ← (if is_null (current_ (tx s)) then
         '(_, s) ← callback (on_tx (fun t => t <| current_ := next_ t |>) s); Ok s
       else Ok s);
  s ← (if is_null (current_ (tx s)) && send_ack_ (tx s) then
         if isMaster s then sendPoll 1 s else sendNull s
       else Ok s);
  let s := on_tx (fun t => t <| send_ack_ := false |>) s in
  if is_null (current_ (tx s)) && polling_ s && (_type (link s) =? ACL) && (MinTxBufferSlot <=? slot_ (tx s)) then sendPoll 0 s
  else Ok s.

(** The sequence number of a packet that is sent for the first time. *)
Definition number (p : bt_packet) (s : station) : bt_packet * station :=
  if transmitCount p =? 1 then
    if (l_ch p =? L_CH_L2CAP_CONT) && (ph_length p =? 0) then (p <| seqn := seqn_tx_ (tx s) |>, s)
    else if isCRCPkt (type p) then
      let n := if nz (seqn_tx_ (tx s)) then 0 else 1 in
      (p <| seqn := n |>, on_tx (fun t => t <| seqn_tx_ := n |>) s)
    else (p, s)
  else (p, s).

(** T_poll grows after [FAILS_SCHRED_FOR_TPOLL_DBL] failures. *)
Definition double_T_poll (t : TxBuffer) : TxBuffer :=
  t <| T_poll_ := if T_poll_max_ t <? T_poll_ t + T_poll_ t then T_poll_max_ t else T_poll_ t + T_poll_ t |>.

Definition count_failures (p : bt_packet) (s : station) : station :=
  let s := on_tx (fun t => t <| fails_ := if bcast p then fails_ t else fails_ t + 1 |>) s in
  let s := on_tx (fun t => t <| ttlSent_ := ttlSent_ t + 1 |>) s in
  if negb (_type (link s) =? SCO) then
    let s := if FAILS_SCHRED_FOR_TPOLL_DBL <? fails_ (tx s) then on_tx double_T_poll s else s in
    if failTriggerSchred_ s <=? fails_ (tx s) then failTrigger s else s
  else s.

Definition send_current (p : bt_packet) (s : station) : bt_packet * station :=
  let '(p, s) := number (stamp p s) s in
  let s := if isMaster s && (0 <? fails_ (tx s)) then on_tx (fun t => t <| arqn_ := 0 |>) s else s in
  let p := p <| arqn := arqn_ (tx s) |> in
  (p, count_failures p (on_tx (fun t => t <| current_ := Some p |>) s)).

Definition transmit (s : station) : outcome (option bt_packet * station) :=
  if suspended_ (tx s) then p ← genPollPkt 0; Ok (Some (stamp p s), s)
  else
    s ← retire s;
    s ← refill s;
    match current_ (tx s) with
    | None => Ok (None, s)
    | Some p => let '(p, s) := send_current p s in Ok (Some p, s)
    end.

(** What handle_clk does after the master has sent [p]. *)
Definition master_sent (p : bt_packet) (s : station) : outcome station :=
  if isMaster s then
    k ← slot_num (type p);
    Ok (on_tx (fun t => t <| txType_ := type p |> <| deficit_ := deficit_ t - k |> <| ttlSlots_ := ttlSlots_ t + k |>) s)
  else Ok s.

(** ** Reception *)

(** The sums of update_T_poll: over the first [n] intervals, and over [n]
    intervals back from [j] in the ring of eight. *)
Fixpoint sum_first (n : nat) (i : Z) (T : list Z) : outcome Z :=
  match n with
  | O => Ok 0
  | S n => a ← aread T (i + 1); b ← aread T i; r ← sum_first n (i + 1) T; Ok (a - b + r)
  end.
Fixpoint sum_back (n : nat) (j : Z) (T : list Z) : outcome Z :=
  match n with
  | O => Ok 0
  | S n =>
      if j =? 0 then a ← aread T 0; b ← aread T (TPOLLUPDATE_PKTNUM - 1); r ← sum_back n 7 T; Ok (a - b + r)
      else a ← aread T j; b ← aread T (j - 1); r ← sum_back n (j - 1) T; Ok (a - b + r)
  end.

Definition update_T_poll (s : station) : outcome station :=
  let t := tx s in
  let i := if t_index_ t + 1 =? TPOLLUPDATE_PKTNUM then 0 else t_index_ t + 1 in
  T ← awrite (T_ t) i (clk_ s);
  let t := t <| t_index_ := i |> <| T_ := T |> in
  if t_cntr_ t <? TPOLLUPDATE_PKTNUM - 1 then
    s ← (if 0 <? t_cntr_ t then
           sum ← sum_first (Z.to_nat (t_cntr_ t)) 0 T;
           Ok (on_link (fun l => l <| link_T_poll_ := Z.quot (Z.quot sum (t_cntr_ t)) 2 |>) s)
         else Ok s);
    Ok (s <| tx := (t <| t_cntr_ := t_cntr_ t + 1 |>) |>)
  else
    sum ← sum_back (Z.to_nat (t_cntr_ t)) i T;
    Ok (on_link (fun l => l <| link_T_poll_ := Z.quot (Z.quot sum (t_cntr_ t)) 2 |>) (s <| tx := t |>)).

Definition ack (a : Z) (s : station) : outcome station :=
  if nz a then
    let s := match current_ (tx s) with
             | Some p => if opcode p =? LMP_DETACH then s <| detach_acks := detach_acks s + 1 |> else s
             | None => s
             end in
    switch_reg s
  else Ok s.

(** [ttlFails_ += (fails_ > 1 ? fails_ - 1 : 0); fails_ = 0;] *)
Definition clear_failures (t : TxBuffer) : TxBuffer :=
  t <| ttlFails_ := ttlFails_ t + (if 1 <? fails_ t then fails_ t - 1 else 0) |> <| fails_ := 0 |>.

(** The counters of handle_recv, before the acknowledgement. *)
Definition note_recv (p : bt_packet) (s : station) : outcome station :=
  let s := on_tx (fun t => t <| suspended_ := false |>) s in
  s ← (if isMaster s then
         k ← slot_num (type p);
         Ok (on_tx (fun t => t <| hasData_ := negb (is_type (type p) Null && is_type (txType_ t) Poll) |>
                               <| deficit_ := deficit_ t - k |> <| ttlSlots_ := ttlSlots_ t + k |>) s)
       else update_T_poll (s <| polled_ := Some (slot_ (tx s)) |>));
  let s := on_tx clear_failures s in
  if negb (is_type (type p) Poll) && negb (is_type (type p) Null) then
    Ok (on_tx (fun t => t <| lastDataPktRecvT_ := clk_ s |> <| nullCntr_ := 0 |> <| T_poll_ := T_poll_default_ t |>) s)
  else
    let s := on_tx (fun t => t <| nullCntr_ := nullCntr_ t + 1 |>) s in
    Ok (if negb (hasData_ (tx s)) && isMaster s then on_tx double_T_poll s else s).

(** The acknowledgement part of handle_recv: does the packet go up? *)
Definition arq_recv (p : bt_packet) (s : station) : outcome (bool * station) :=
  if isCRCAclPkt (type p) then
    let s := on_tx (fun t => t <| arqn_ := 1 |>) s in
    if seqn p =? seqn_rx_ (tx s) then
      s ← sendACK s; s ← ack (arqn p) s; Ok (false, s)
    else
      let s := on_tx (fun t => t <| seqn_rx_ := seqn p |>) s in
      s ← ack (arqn p) s; s ← sendACK s; Ok (true, s)
  else
    let s := on_tx (fun t => t <| arqn_ := 0 |>) s in
    s ← ack (arqn p) s;
    s ← (if is_type (type p) Poll then sendACK s else Ok s);
    Ok (is_type (type p) AUX1, s).

(** exit(1) on a DV packet is [AssertFail]. *)
Definition handle_recv (p : bt_packet) (s : station) : outcome (bool * station) :=
  let s := on_tx (fun t => t <| lastPktRecvT_ := clk_ s |>
                             <| dstTxSlot_ := if dstTxSlot_ t =? 0 then srcTxSlot p else dstTxSlot_ t |>
                             <| rxType_ := type p |>) s in
  if _type (link s) =? SCO then
    if negb (scoStarted_ (tx s)) && negb (scoOnly (type p)) then Ok (false, s)
    else
      let s := on_tx (fun t => t <| scoStarted_ := true |>) s in
      if isScoPkt (type p) then
        if is_type (type p) DV then Trap AssertFail else Ok (true, on_tx clear_failures s)
      else Ok (false, s)
  else if negb (_type (link s) =? ACL) then Ok (false, s)
  else s ← note_recv p s; arq_recv p s.
