(* ===== verification/BtArq.v ===== *)
(** * The 1-bit ARQ of a Bluetooth link

    The two ends of an ACL link (BtLink) and a channel that loses packets, as a
    transition system: the master transmits in its slot, the slave answers in the
    slot after a packet of the master has reached it (Baseband::polled gives it
    one slot), upper layers add packets at any time. *)
From S2P Require Import Prelude BtPacket BtLink.

(** * Definitions *)

(** Baseband's reception of a packet on a link (recv_handler): the slot of the
    sender, and handle_recv; a packet for which it answers 1 goes up. *)
Definition receive (c : Z) (p : bt_packet) (s : station) : outcome (bool * station) :=
  let s := s <| clk_ := c |> in
  let s := on_tx (fun t => if dstTxSlot_ t <? MinTxBufferSlot then t <| dstTxSlot_ := srcTxSlot p |> else t) s in
  handle_recv p s.

(** What is on the air: nothing, a packet of the master, nothing but the slave
    has been polled, a packet of the slave. *)
Inductive phase : Type :=
  | Idle
  | Down (p : bt_packet)
  | Polled
  | Up (p : bt_packet).

Record system : Type := mkSystem {
  master : station;
  slave : station;
  on_air : phase;
  up_master : list bt_packet;
  up_slave : list bt_packet }.

#[global] Instance eta_system : Eta system := fun y =>
  mkSystem (master y) (slave y) (on_air y) (up_master y) (up_slave y).

(** The upper layers give a packet to the link, or to the queue of a channel; the
    link manager suspends the buffer; the transmitter's slot comes; the packet on
    the air is lost, or arrives. *)
Inductive arq_event : Type :=
  | EPush (at_master : bool) (p : bt_packet)
  | EQueue (at_master : bool) (i : nat) (p : bt_packet)
  | ESuspend (at_master : bool)
  | ESlot (c : Z)
  | ELose
  | EArrive (c : Z).

Definition at_station (m : bool) (f : station -> outcome station) (y : system) : outcome system :=
  if m then s ← f (master y); Ok (y <| master := s |>) else s ← f (slave y); Ok (y <| slave := s |>).

Definition queue_packet (i : nat) (p : bt_packet) (s : station) : station :=
  on_link (fun l => l <| channels := alter (fun c => mkChannel (ready_ c) (queue c ++ [p])) i (channels l) |>) s.

Definition goes_up (up : bool) (p : bt_packet) (l : list bt_packet) : list bt_packet := if up then l ++ [p] else l.

Definition arq_step (e : arq_event) (y : system) : outcome system :=
  match e, on_air y with
  | EPush m p, _ => at_station m (enqueue p) y
  | EQueue m i p, _ => at_station m (fun s => Ok (queue_packet i p s)) y
  | ESuspend m, _ => at_station m (fun s => Ok (on_tx (fun t => t <| suspended_ := true |>) s)) y
  | ESlot c, Idle =>
      '(o, s) ← transmit ((master y) <| clk_ := c |>);
      match o with
      | None => Ok (y <| master := s |>)
      | Some p => s ← master_sent p s; Ok (y <| master := s |> <| on_air := Down p |>)
      end
  | ESlot c, Polled =>
      '(o, s) ← transmit ((slave y) <| clk_ := c |>);
      Ok (y <| slave := s |> <| on_air := match o with None => Idle | Some p => Up p end |>)
  | ELose, (Down _ | Up _) => Ok (y <| on_air := Idle |>)
  | EArrive c, Down p =>
      '(up, s) ← receive c p (slave y);
      Ok (y <| slave := s |> <| on_air := Polled |> <| up_slave := goes_up up p (up_slave y) |>)
  | EArrive c, Up p =>
      '(up, s) ← receive c p (master y);
      Ok (y <| master := s |> <| on_air := Idle |> <| up_master := goes_up up p (up_master y) |>)
  | _, _ => Ok y
  end.

Fixpoint arq_run (es : list arq_event) (y : system) : outcome system :=
  match es with
  | [] => Ok y
  | e :: es => y ← arq_step e y; arq_run es y
  end.

(** ** A new link *)

Definition BT_TRANSMIT_MAX_RETRAN : Z := 9999999.
Definition BT_NUM_BCAST_RETRAN : Z := 2.
Definition DEF_POLL_TRGR_SCHRED : Z := 4.
Definition MAX_T_POLL : Z := 400.
Definition T_POLL_DEFAULT : Z := 6.

(** TxBuffer's constructor; the ring of eight times [T] is not initialised. *)
Definition TxBuffer_new (s : Z) (T : list Z) : TxBuffer :=
  mkTx None None s 0 false 0 0 0 false T (-1) 0 0 0 0 0 0 0 false true 0 0 T_POLL_DEFAULT MAX_T_POLL T_POLL_DEFAULT Invalid Invalid.

(** LMPLink::_init, with the packet type that has been negotiated and the
    channels of the connection. *)
Definition LMPLink_init (t : packet_type) (poll : Z) (chs : list bool) : LMPLink :=
  mkLink ACL [] [] None 0 0 t false false poll ((fun r => mkChannel r []) <$> chs).

Definition station_new (m : bool) (s : Z) (T : list Z) (l : LMPLink) : station :=
  mkStation (TxBuffer_new s T) l m 0 false None BT_TRANSMIT_MAX_RETRAN BT_NUM_BCAST_RETRAN DEF_POLL_TRGR_SCHRED [] 0.

(** An ACL link that has just been made, between stations with the buffers in
    slots [im] and [is_], the packet types [tm] and [ts] and the channels [cm] and
    [cs]. *)
Definition new_link (im is_ : Z) (Tm Ts : list Z) (tm ts : packet_type) (pm ps : Z) (cm cs : list bool) : system :=
  mkSystem (station_new true im Tm (LMPLink_init tm pm cm)) (station_new false is_ Ts (LMPLink_init ts ps cs)) Idle [] [].

(** ** What the theorems speak of *)

(** The packets in the buffer, the one being sent first. *)
Definition buf (s : station) : list bt_packet := option_list (current_ (tx s)) ++ option_list (next_ (tx s)).

(** A packet without the fields that the link writes when it sends it. *)
Definition body (p : bt_packet) : bt_packet :=
  p <| arqn := 0 |> <| seqn := 0 |> <| transmitCount := 0 |> <| srcTxSlot := 0 |> <| dstTxSlot := 0 |> <| clk := 0 |>.

Definition crc (p : bt_packet) : bool := isCRCPkt (type p).

(** The data of a list of packets. *)
Definition data (l : list bt_packet) : list bt_packet := body <$> List.filter crc l.

(** A packet of an ACL link: not a broadcast, and with a CRC only if the receiver
    takes it for ACL data; not the empty continuation that flush() sends. *)
Record usable (p : bt_packet) : Prop := mkUsable {
  us_bcast : bcast p = false;
  us_type : isCRCPkt (type p) = isCRCAclPkt (type p);
  us_cont : crc p = true -> (l_ch p =? L_CH_L2CAP_CONT) && (ph_length p =? 0) = false }.

Definition fresh (p : bt_packet) : Prop := usable p /\ transmitCount p = 0.

(** An L2CAP packet before it is cut. *)
Definition whole (p : bt_packet) : Prop := bcast p = false /\ 0 <= ch_size p.

Record queues_ok (l : LMPLink) : Prop := mkQueuesOk {
  lo_type : _type l = ACL;
  lo_pt : isCRCAclPkt (pt l) = true;
  lo_lmp : Forall fresh (_lmpQ l);
  lo_l2cap : Forall whole (_l2capQ l);
  lo_chan : Forall (fun c => Forall whole (queue c)) (channels l) }.

(** A packet that is being cut has bytes left. *)
Record link_ok (l : LMPLink) : Prop := mkLinkOk {
  lo_queues : queues_ok l;
  lo_cur : forall p, _curL2capPkt l = Some p -> bcast p = false /\ transmitCount p = 0 /\ 0 < _curL2capPkt_remain_len l /\ 1 <= _fragno l }.

(** A station after [n] slots at most; the retransmission limit is beyond the
    range of the 16-bit counter, as the default one. *)
Record station_ok (n : Z) (s : station) : Prop := mkStationOk {
  st_link : link_ok (link s);
  st_shape : current_ (tx s) = None -> next_ (tx s) = None;
  st_buf : Forall (fun p => usable p /\ 0 <= transmitCount p <= n) (buf s);
  st_next : Forall fresh (tail (buf s));
  st_ring : length (T_ (tx s)) = 8%nat /\ -1 <= t_index_ (tx s) <= 7 /\ 0 <= t_cntr_ (tx s) <= 7;
  st_fails : 0 <= fails_ (tx s);
  st_retran : 32768 <= _max_num_retran s }.

(** The first packet of the buffer is a CRC packet that has been sent. *)
Definition in_flight (b : list bt_packet) : bool :=
  match b with p :: _ => crc p && (0 <? transmitCount p) | [] => false end.

(** What the receiver, whose last number is [r], still has to get from a sender
    with the buffer [b] and the last number [t]. *)
Definition waiting (b : list bt_packet) (t r : Z) : list bt_packet := if in_flight b && (r =? t) then tail b else b.

(** One direction of the link: [acc] is what has entered the sender's buffer, [up]
    what the receiver has passed up. *)
Record dir (b acc up : list bt_packet) (t r : Z) : Prop := mkDir {
  d_tx : t = 0 \/ t = 1;
  d_rx : r = 0 \/ r = 1;
  d_head : in_flight b = true -> forall p, head b = Some p -> seqn p = t;
  d_sync : in_flight b = false -> r = t;
  d_data : data acc = data up ++ data (waiting b t r) }.

Definition sends (x y : station) (up : list bt_packet) : Prop :=
  dir (buf x) (accepted x) up (seqn_tx_ (tx x)) (seqn_rx_ (tx y)).

(** The packet that [x] is sending has arrived at [y]. *)
Definition arrived (x y : station) : Prop := in_flight (buf x) = true /\ seqn_rx_ (tx y) = seqn_tx_ (tx x).

Arguments isCRCPkt : simpl never.
Arguments isCRCAclPkt : simpl never.
Arguments variable_type : simpl never.
Arguments int16 : simpl never.

(** * Lemmas *)

(** ** Packets and fragments *)

Lemma payload_ok t : isCRCAclPkt t = true -> exists n, payload_size t = Ok n /\ 0 < n <= 1021.
Proof. intros H. destruct t; try discriminate H; eexists; (split; [reflexivity|lia]). Qed.

Lemma size_ok t n : isCRCAclPkt t = true -> exists k, packet_size t n = Ok k.
Proof. intros H. destruct t; try discriminate H; by eexists. Qed.

Lemma slot_num_ok t : exists k, slot_num t = Ok k.
Proof. destruct t; by eexists. Qed.

Lemma variable_type_acl t n : isCRCAclPkt t = true -> isCRCAclPkt (variable_type t n) = true.
Proof. intros H. destruct t; try discriminate H; unfold variable_type; cbn; repeat case_cond; reflexivity. Qed.

Lemma acl_usable_type t : isCRCAclPkt t = true -> isCRCPkt t = isCRCAclPkt t.
Proof. intros H. by rewrite H, crc_acl. Qed.

Lemma int16_id z : -32768 <= z < 32768 -> int16 z = z.
Proof. intros H. unfold int16. rewrite Z.mod_small; lia. Qed.

(** The fragment of a packet, and what is left of it. *)
Lemma fragment_ok p l : queues_ok l -> bcast p = false -> 0 <= _curL2capPkt_remain_len l ->
  0 <= _fragno l -> (1 <= _fragno l -> transmitCount p = 0 /\ 0 < _curL2capPkt_remain_len l) ->
  returns (fragment p l) (fun '(o, l') => link_ok l' /\ exists q, o = Some q /\ fresh q).
Proof.
  intros [H1 H2 H3 H4 H5] Hb Hr Hf Hc. unfold fragment. destruct (payload_ok _ H2) as (n & -> & Hn). rewrite bind_Ok.
  set (len := if n <? _curL2capPkt_remain_len l then n else _curL2capPkt_remain_len l).
  assert (Hlen : 0 <= len <= 1021 /\ (0 < _curL2capPkt_remain_len l -> 0 < len)) by (unfold len; destruct (Z.ltb_spec n (_curL2capPkt_remain_len l)); lia).
  rewrite (int16_id len) by lia. pose proof (variable_type_acl _ len H2) as Ht.
  destruct (size_ok _ len Ht) as (k & ->). rewrite bind_Ok. apply returns_Ok. cbn.
  pose proof (acl_usable_type _ Ht) as Hu. destruct (Z.eqb_spec (_fragno l + 1) 1) as [E|E]; cbn.
  - split; [split; [by split|]; cbn; intros q; case_cond; [|done]; intros [= <-]; cbn; repeat split; done || lia|].
    eexists. split; [reflexivity|]. by repeat split.
  - destruct Hc as [Ht0 Hr0]; [lia|].
    split; [split; [by split|]; cbn; intros q; case_cond; [|done]; intros [= <-]; cbn; repeat split; done || lia|].
    eexists. split; [reflexivity|]. split; [split; cbn; [done|done|]|done]. intros _. apply Z.eqb_neq. lia.
Qed.

Lemma take_fragment_ok l : link_ok l ->
  returns (take_fragment l) (fun '(o, l') => link_ok l' /\ forall q, o = Some q -> fresh q).
Proof.
  intros H. unfold take_fragment. destruct (_curL2capPkt l) as [p|] eqn:Ep.
  - cbn. rewrite Ep. destruct (lo_cur _ H p Ep) as (A & B & C & D).
    eapply returns_mono; [apply fragment_ok; try done; [apply H|lia..]|]. intros [o l'] (Hl & q & -> & Hq). split; [done|]. by intros q' [= <-].
  - destruct (_l2capQ l) as [|p q] eqn:Eq; cbn; [by rewrite Ep|]. destruct (lo_queues _ H) as [H1 H2 H3 H4 H5].
    rewrite Eq in H4. apply Forall_cons in H4 as [[Hp1 Hp2] H4].
    eapply returns_mono; [apply fragment_ok; cbn; try done; try lia; by split|].
    intros [o l'] (Hl & r & -> & Hr). split; [done|]. by intros r' [= <-].
Qed.

(** ** Packets that enter the buffer *)

(** The registers that entering packets do not change. *)
Definition regs (s : station) :=
  ((seqn_rx_ (tx s), seqn_tx_ (tx s), arqn_ (tx s), fails_ (tx s), suspended_ (tx s)),
   (T_ (tx s), t_index_ (tx s), t_cntr_ (tx s)), (isMaster s, _max_num_retran s)).

Definition shape (s : station) : Prop := current_ (tx s) = None -> next_ (tx s) = None.

(** The station has something to answer with: the note that it owes an
    acknowledgement, or a packet that it has not sent. *)
Definition answers (s : station) : Prop := send_ack_ (tx s) = true \/ exists p, p ∈ buf s /\ transmitCount p = 0.

(** [new] has entered the buffer. *)
Record fills (s s' : station) : Prop := mkFills {
  fi_new : exists new, Forall fresh new /\ buf s' = buf s ++ new /\ accepted s' = accepted s ++ new;
  fi_regs : regs s' = regs s;
  fi_shape : shape s';
  fi_link : link_ok (link s');
  fi_owes : buf s' = [] -> send_ack_ (tx s) = true -> send_ack_ (tx s') = true }.

Lemma fills_refl s : shape s -> link_ok (link s) -> fills s s.
Proof. intros H1 H2. split; try done. exists []. by rewrite !app_nil_r. Qed.

Lemma fills_trans s1 s2 s3 : fills s1 s2 -> fills s2 s3 -> fills s1 s3.
Proof.
  intros [(n1 & F1 & B1 & A1) R1 S1 L1 O1] [(n2 & F2 & B2 & A2) R2 S2 L2 O2]. split; try done; [|congruence|].
  - exists (n1 ++ n2). split; [by apply Forall_app|]. by rewrite B2, B1, A2, A1, !app_assoc.
  - intros E H. apply O2; [done|]. apply O1; [|done]. rewrite B2 in E. by apply app_eq_nil in E as [E _].
Qed.

(** A change of the link, or of what the ARQ does not read, is no change. *)
Lemma fills_link s s' l : fills s s' -> link_ok l -> fills s (s' <| link := l |>).
Proof. intros [H1 H2 H3 H4 H5] Hl. by split. Qed.

Lemma push_fills p s : shape s -> link_ok (link s) -> fresh p -> fills s (push p s).2.
Proof.
  intros Hs Hl Hp. unfold push. destruct (available (tx s)) eqn:Ea; [|by apply fills_refl].
  unfold shape in Hs. destruct (current_ (tx s)) as [c|] eqn:Ec, (next_ (tx s)) as [n|] eqn:En; cbn;
    unfold available in Ea; rewrite Ec, En in Ea; try discriminate Ea; [|discriminate (Hs eq_refl)|];
    (split; [exists [p]; split; [by constructor|]; unfold buf; cbn; rewrite ?Ec, ?En; done|done|unfold shape; cbn; congruence|done|done]).
Qed.

(** [push] answers 1 when the packet has entered the buffer. *)
Lemma push_pushed p s : shape s -> fresh p -> (push p s).1 <> 0 -> answers (push p s).2.
Proof.
  intros Hs Hp. unfold push. destruct (available (tx s)) eqn:Ea; [|done]. intros _. right. exists p. split; [|apply Hp].
  unfold shape in Hs. unfold available in Ea. destruct (current_ (tx s)) as [c|] eqn:Ec, (next_ (tx s)) as [n|] eqn:En; cbn;
    unfold buf; cbn; rewrite ?Ec, ?En; apply list_elem_of_In; cbn; auto.
Qed.

(** Changes of one queue of the link. *)
Lemma link_ok_lmp l q : link_ok l -> Forall fresh q -> link_ok (l <| _lmpQ := q |>).
Proof. intros [[H1 H2 H3 H4 H5] H6] Hq. split; [by split|done]. Qed.
Lemma link_ok_l2cap l q : link_ok l -> Forall whole q -> link_ok (l <| _l2capQ := q |>).
Proof. intros [[H1 H2 H3 H4 H5] H6] Hq. split; [by split|done]. Qed.
Lemma link_ok_channels l q : link_ok l -> Forall (fun c => Forall whole (queue c)) q -> link_ok (l <| channels := q |>).
Proof. intros [[H1 H2 H3 H4 H5] H6] Hq. split; [by split|done]. Qed.

Lemma fills_on_link s l : shape s -> link_ok (link s) -> link_ok l -> fills s (s <| link := l |>).
Proof. intros H1 H2 H3. apply fills_link; [by apply fills_refl|done]. Qed.

Lemma enqueue_ok p s : shape s -> link_ok (link s) -> (if l_ch p =? L_CH_LM then fresh p else whole p) ->
  returns (enqueue p s) (fills s).
Proof.
  intros Hs Hl Hp. unfold enqueue. pose proof (lo_queues _ Hl) as [H1 H2 H3 H4 H5].
  set (s0 := if l_ch p =? L_CH_LM then _ else _).
  assert (Hf : fills s s0).
  { unfold s0. destruct (l_ch p =? L_CH_LM); apply fills_on_link; try done; [apply link_ok_lmp|apply link_ok_l2cap]; try done;
      apply Forall_app; (split; [done|by constructor]). }
  clearbody s0. clear H1 H2 H3 H4 H5. pose proof (fi_link _ _ Hf) as Hl0. destruct (available (tx s0)); [|by apply returns_Ok].
  pose proof (fi_shape _ _ Hf) as Hs0. destruct (_lmpQ (link s0)) as [|q rest] eqn:Eq.
  - rewrite (lo_type _ (lo_queues _ Hl0)). change (ACL =? ACL) with true. cbv iota.
    eapply returns_bind; [by apply take_fragment_ok|]. intros [o l] [Hl' Hq]. apply returns_Ok.
    pose proof (fills_link s s0 l Hf Hl') as Hf'. destruct o as [q|]; [|done].
    eapply fills_trans; [exact Hf'|]. apply push_fills; [apply Hf'|done|by apply Hq].
  - apply returns_Ok. pose proof (lo_lmp _ (lo_queues _ Hl0)) as H3. rewrite Eq in H3. apply Forall_cons in H3 as [Hq H3].
    assert (Hf' : fills s (on_link (fun l => l <| _lmpQ := rest |>) s0)) by (apply (fills_link s s0); [done|by apply link_ok_lmp]).
    eapply fills_trans; [exact Hf'|]. apply push_fills; [apply Hf'|apply Hf'|done].
Qed.

Lemma chan_send_ok i s : shape s -> link_ok (link s) -> returns (chan_send i s) (fills s).
Proof.
  intros Hs Hl. unfold chan_send. destruct (channels (link s) !! i) as [c|] eqn:Ei; [|by apply returns_Ok, fills_refl].
  case_cond; [by apply returns_Ok, fills_refl|]. destruct (queue c) as [|p q] eqn:Eq; [by apply returns_Ok, fills_refl|].
  pose proof (lo_chan _ (lo_queues _ Hl)) as H5. pose proof (Forall_lookup_1 _ _ _ _ H5 Ei) as Hw. cbv beta in Hw. rewrite Eq in Hw.
  apply Forall_cons in Hw as [[Hp1 Hp2] Hw].
  set (s0 := on_link _ s). assert (Hf : fills s s0).
  { apply fills_on_link; [done..|]. apply link_ok_channels; [done|]. by apply Forall_insert. }
  eapply returns_mono; [apply (enqueue_ok _ s0); [apply Hf|apply Hf|]|].
  - cbn. split; cbn; [done|lia].
  - intros s'. by apply fills_trans.
Qed.

Lemma poll_channels_ok n i s : shape s -> link_ok (link s) -> returns (poll_channels n i s) (fills s).
Proof.
  revert i s. induction n as [|n IH]; intros i s Hs Hl; cbn [poll_channels]; [by apply returns_Ok, fills_refl|].
  eapply returns_bind; [by apply chan_send_ok|]. intros s' Hf. destruct (_l2capQ (link s')); [|by apply returns_Ok].
  eapply returns_mono; [apply IH; apply Hf|]. intros s2. by apply fills_trans.
Qed.

Lemma getFragment_ok s : shape s -> link_ok (link s) ->
  returns (getAL2capPktFragment s) (fun '(o, s') => fills s s' /\ forall p, o = Some p -> fresh p).
Proof.
  intros Hs Hl. unfold getAL2capPktFragment. destruct (_curL2capPkt (link s)).
  - eapply returns_bind; [by apply take_fragment_ok|]. intros [o l] [Hl' Hp]. split; [|done].
    apply (fills_link s s); [by apply fills_refl|done].
  - eapply (returns_bind _ _ (fills s)).
    { destruct (_l2capQ (link s)); [by apply poll_channels_ok|by apply returns_Ok, fills_refl]. }
    intros s' Hf. destruct (available (tx s')); [|by split].
    eapply returns_bind; [apply take_fragment_ok, Hf|]. intros [o l] [Hl' Hp]. split; [|done]. by apply fills_link.
Qed.

Lemma callback_ok s : shape s -> link_ok (link s) ->
  returns (callback s) (fun '(r, s') => fills s s' /\ (r <> 0 -> answers s')).
Proof.
  intros Hs Hl. unfold callback. case_cond; [by split; [apply fills_refl|]|]. case_cond; [by split; [apply fills_refl|]|].
  eapply (returns_bind _ _ (fun '(o, s') => fills s s' /\ forall p, o = Some p -> fresh p)).
  - destruct (_lmpQ (link s)) as [|q rest] eqn:Eq.
    + rewrite (lo_type _ (lo_queues _ Hl)). by apply getFragment_ok.
    + pose proof (lo_lmp _ (lo_queues _ Hl)) as H3. rewrite Eq in H3. apply Forall_cons in H3 as [Hq H3].
      split; [|by intros p [= <-]]. apply fills_on_link; [done..|]. by apply link_ok_lmp.
  - intros [o s'] [Hf Hp]. destruct o as [p|]; [|by split]. apply returns_Ok.
    pose proof (push_fills p s' (fi_shape _ _ Hf) (fi_link _ _ Hf) (Hp p eq_refl)) as H.
    pose proof (push_pushed p s' (fi_shape _ _ Hf) (Hp p eq_refl)) as H'. destruct (push p s') as [r s2].
    split; [by eapply fills_trans|done].
Qed.

Lemma sendACK_ok s : shape s -> link_ok (link s) -> returns (sendACK s) (fun s' => fills s s' /\ answers s').
Proof.
  intros Hs Hl. unfold sendACK. eapply returns_bind; [by apply callback_ok|]. intros [r s'] [Hf Ha]. apply returns_Ok.
  destruct (Z.eqb_spec r 0) as [|E]; [|split; [done|by apply Ha]]. destruct Hf as [H1 H2 H3 H4 H5]. split; [by split|by left].
Qed.

Lemma fresh_control t ack sz : isCRCPkt t = isCRCAclPkt t -> fresh (((((alloc 0) <| type := t |>) <| arqn := ack |>) <| size := sz |>) <| l_ch := L_CH_LM |>).
Proof. intros H. by repeat split. Qed.

Lemma sendPoll_ok a s : shape s -> link_ok (link s) -> returns (sendPoll a s) (fills s).
Proof.
  intros Hs Hl. unfold sendPoll. case_cond; [|by apply returns_Ok, fills_refl]. apply returns_Ok, push_fills; [done..|].
  by apply fresh_control.
Qed.
Lemma sendNull_ok s : shape s -> link_ok (link s) -> returns (sendNull s) (fills s).
Proof.
  intros Hs Hl. unfold sendNull. case_cond; [|by apply returns_Ok, fills_refl]. apply returns_Ok, push_fills; [done..|].
  by apply fresh_control.
Qed.

(** ** One direction *)

Lemma data_app l k : data (l ++ k) = data l ++ data k.
Proof. unfold data. by rewrite List.filter_app, fmap_app. Qed.

Lemma data_cons p l : data (p :: l) = (if crc p then [body p] else []) ++ data l.
Proof. unfold data. cbn. by destruct (crc p). Qed.

Lemma body_crc p p' : body p = body p' -> crc p = crc p'.
Proof. intros E. apply (f_equal type) in E. unfold crc. by cbn in E; rewrite E. Qed.

Lemma fresh_not_sent b : Forall fresh b -> in_flight b = false.
Proof. intros H. destruct H as [|p b [_ Hp] _]; [done|]. cbn. rewrite Hp. by destruct (crc p). Qed.

Lemma dir_fill b acc up t r new : dir b acc up t r -> Forall fresh new -> dir (b ++ new) (acc ++ new) up t r.
Proof.
  intros [H1 H2 H3 H4 H5] Hn. pose proof (fresh_not_sent _ Hn) as Hf.
  destruct b as [|p b].
  - split; try done; cbn [app]; [by rewrite Hf|by intros _; apply H4|].
    unfold waiting. rewrite Hf. cbn [andb]. rewrite data_app, H5. unfold waiting. cbn. by rewrite app_nil_r.
  - split; try done. rewrite data_app, H5, <- app_assoc. f_equal. rewrite <- data_app. f_equal. unfold waiting.
    change (in_flight ((p :: b) ++ new)) with (in_flight (p :: b)). by destruct (_ && _).
Qed.

Lemma dir_acked b acc up t r : dir b acc up t r -> in_flight b = true -> r = t -> Forall fresh (tail b) -> dir (tail b) acc up t r.
Proof.
  intros [H1 H2 H3 H4 H5] Hb Hr Hf. apply fresh_not_sent in Hf. split; try done; [by rewrite Hf|].
  rewrite H5. unfold waiting. by rewrite Hb, Hf, (proj2 (Z.eqb_eq r t) Hr).
Qed.

Lemma dir_dropped p b acc up t r : dir (p :: b) acc up t r -> crc p = false -> Forall fresh b -> dir b acc up t r.
Proof.
  intros [H1 H2 H3 H4 H5] Hp Hf. apply fresh_not_sent in Hf. assert (Hi : in_flight (p :: b) = false) by (cbn; by rewrite Hp).
  split; try done; [by rewrite Hf|by intros _; apply H4|]. rewrite H5. unfold waiting. rewrite Hi, Hf. cbn [andb].
  by rewrite data_cons, Hp.
Qed.

(** The first packet is sent again, or is not a CRC packet. *)
Lemma dir_again p p' b acc up t r : dir (p :: b) acc up t r -> body p' = body p ->
  (crc p = true -> 0 < transmitCount p /\ 0 < transmitCount p' /\ seqn p' = seqn p) -> dir (p' :: b) acc up t r.
Proof.
  intros [H1 H2 H3 H4 H5] Hb Hc. pose proof (body_crc _ _ Hb) as Ec.
  assert (Ei : in_flight (p' :: b) = in_flight (p :: b)).
  { cbn. rewrite Ec. destruct (crc p); [|done]. destruct Hc as (A & B & _); [done|]. cbn. by rewrite !(proj2 (Z.ltb_lt _ _)). }
  split; try done.
  - rewrite Ei. intros Hi q [= <-]. pose proof (H3 Hi p eq_refl) as Es. cbn in Hi. destruct (crc p); [|done].
    by destruct Hc as (_ & _ & ->).
  - by rewrite Ei.
  - rewrite H5. f_equal. unfold waiting. rewrite Ei. destruct (_ && _); [done|]. by rewrite !data_cons, Ec, Hb.
Qed.

(** A CRC packet is sent for the first time, with the other number. *)
Lemma dir_first p p' b acc up t r t' : dir (p :: b) acc up t r -> body p' = body p -> crc p = true -> transmitCount p = 0 ->
  0 < transmitCount p' -> t' = (if nz t then 0 else 1) -> seqn p' = t' -> dir (p' :: b) acc up t' r.
Proof.
  intros [H1 H2 H3 H4 H5] Hb Hc H0 Hp Ht Hs. pose proof (body_crc _ _ Hb) as Ec.
  assert (Hi : in_flight (p :: b) = false) by (cbn; by rewrite H0, Hc). assert (Hi' : in_flight (p' :: b) = true) by (cbn; rewrite Ec, Hc; cbn; lia).
  specialize (H4 Hi). assert (Hne : r <> t' /\ (t' = 0 \/ t' = 1)) by (destruct H1 as [-> | ->]; cbn in Ht; lia).
  destruct Hne as [Hne Ht']. split; try done.
  - by intros _ q [= <-].
  - by rewrite Hi'.
  - rewrite H5. f_equal. unfold waiting. rewrite Hi, Hi', (proj2 (Z.eqb_neq r t') Hne). cbn [andb]. by rewrite !data_cons, Ec, Hb.
Qed.

(** The packet on the air arrives: again, or for the first time. *)
Lemma dir_arrive p b acc up t r : dir b acc up t r -> head b = Some p -> in_flight b = true ->
  seqn p = t /\ dir b acc (goes_up (negb (seqn p =? r)) p up) t (seqn p).
Proof.
  intros [H1 H2 H3 H4 H5] Hh Hi. destruct b as [|q b]; [done|]. injection Hh as ->. pose proof (H3 Hi p eq_refl) as Es. split; [done|].
  assert (Hc : crc p = true) by (cbn in Hi; by destruct (crc p)).
  split; [done|by rewrite Es|done|done|]. unfold waiting in *. rewrite Hi in *. cbn [andb tail] in *.
  rewrite Es, Z.eqb_refl. rewrite Z.eqb_sym. destruct (Z.eqb_spec r t); cbn [negb goes_up]; rewrite H5; cbn [tail]; [done|].
  rewrite data_app, !data_cons, Hc, <- app_assoc. done.
Qed.

(** ** A station sends *)

Lemma regs_eq s s' : regs s' = regs s ->
  seqn_rx_ (tx s') = seqn_rx_ (tx s) /\ seqn_tx_ (tx s') = seqn_tx_ (tx s) /\ arqn_ (tx s') = arqn_ (tx s) /\
  fails_ (tx s') = fails_ (tx s) /\ isMaster s' = isMaster s /\ suspended_ (tx s') = suspended_ (tx s).
Proof. unfold regs. intros E. by simplify_eq. Qed.

Lemma buf_current s p : current_ (tx s) = Some p -> buf s = p :: option_list (next_ (tx s)).
Proof. unfold buf. by intros ->. Qed.

Lemma buf_empty s : shape s -> current_ (tx s) = None -> buf s = [].
Proof. unfold buf, shape. intros H E. by rewrite E, (H E). Qed.

Lemma ok_fills n s s' : 0 <= n -> station_ok n s -> fills s s' -> station_ok n s'.
Proof.
  intros Hn [H1 H2 H3 H4 H5 H6 H7] [(new & F & B & A) R S L O]. unfold regs in R. simplify_eq.
  assert (Hf : Forall (fun p => usable p /\ 0 <= transmitCount p <= n) new).
  { eapply Forall_impl; [exact F|]. intros p [Hp Ht]. split; [done|lia]. }
  split; try done; try congruence.
  - rewrite B. by apply Forall_app.
  - rewrite B. destruct (buf s) as [|p b]; cbn in *; [by inversion F|by apply Forall_app].
Qed.

Lemma sends_fills s s' y up : sends s y up -> fills s s' -> sends s' y up.
Proof.
  intros H [(new & F & B & A) R _ _ _]. apply regs_eq in R as (_ & Et & _). unfold sends in *. rewrite B, A, Et. by apply dir_fill.
Qed.

(** Only new packets have entered the buffer. *)
Definition grown (s s' : station) : Prop :=
  exists new, Forall fresh new /\ buf s' = buf s ++ new /\ accepted s' = accepted s ++ new.

Lemma grown_refl s : grown s s.
Proof. exists []. by rewrite !app_nil_r. Qed.

Lemma flight_grown s s' : in_flight (buf s) = true -> grown s s' -> in_flight (buf s') = true /\ head (buf s') = head (buf s).
Proof. intros H (new & F & B & A). rewrite B. by destruct (buf s). Qed.

Lemma flight_fills s s' : in_flight (buf s) = true -> fills s s' -> in_flight (buf s') = true /\ head (buf s') = head (buf s).
Proof. intros H Hf. apply flight_grown; [done|apply Hf]. Qed.

Lemma ok_weaken n m s : n <= m -> station_ok n s -> station_ok m s.
Proof.
  intros Hn [H1 H2 H3 H4 H5 H6 H7]. split; try done. eapply Forall_impl; [exact H3|]. intros p [Hp Ht]. split; [done|lia].
Qed.

(** The buffer without its first packet. *)
Definition shifted (s : station) : station := on_tx (fun t => (t <| current_ := next_ t |>) <| next_ := None |>) s.

(** The first packet has left the buffer, others may have entered. *)
Definition acked (s s' : station) : Prop :=
  exists new, Forall fresh new /\ buf s' = tail (buf s) ++ new /\ accepted s' = accepted s ++ new.

Lemma shifted_buf n s : station_ok n s -> buf (shifted s) = tail (buf s).
Proof.
  intros H. unfold buf, shifted. cbn. destruct (current_ (tx s)) as [p|] eqn:E; cbn; [by rewrite app_nil_r|].
  by rewrite (st_shape _ _ H E).
Qed.

Lemma shifted_ok n s : station_ok n s -> station_ok n (shifted s).
Proof.
  intros H. pose proof (shifted_buf n s H) as Hb. destruct H as [H1 H2 H3 H4 H5 H6 H7]. split; try done; rewrite Hb.
  - destruct (buf s); [done|]. by apply Forall_cons in H3 as [_ H3].
  - destruct (buf s) as [|p [|q b]]; try done. cbn in *. by apply Forall_cons in H4 as [_ H4].
Qed.

Lemma switch_reg_ok n s : station_ok n s -> returns (switch_reg s) (fills (shifted s)).
Proof.
  intros H. unfold switch_reg. change (on_tx _ s) with (shifted s). cbv zeta.
  eapply returns_bind; [apply callback_ok; [by intros ?|apply (shifted_ok n s H)]|]. by intros [r s'] [Hf _].
Qed.

(** What a handler of a station [s] may do while it sends to [y]. *)
Record keeps (n : Z) (y : station) (up : list bt_packet) (s s' : station) : Prop := mkKeeps {
  kp_ok : station_ok n s';
  kp_sends : sends s' y up;
  kp_regs : regs s' = regs s }.

Lemma keeps_fills n y up s s' : 0 <= n -> station_ok n s -> sends s y up -> fills s s' -> keeps n y up s s'.
Proof. intros Hn H1 H2 Hf. split; [by eapply ok_fills|by eapply sends_fills|apply Hf]. Qed.

Lemma keeps_refl n y up s : station_ok n s -> sends s y up -> keeps n y up s s.
Proof. by split. Qed.

Lemma keeps_trans n y up s1 s2 s3 : keeps n y up s1 s2 -> keeps n y up s2 s3 -> keeps n y up s1 s3.
Proof. intros [_ _ R1] [A B R2]. split; try done. congruence. Qed.

(** The first packet leaves the buffer: it has been acknowledged, or was not data. *)
Lemma shifted_keeps n y up s s' : 0 <= n -> station_ok n s -> sends (shifted s) y up -> fills (shifted s) s' -> keeps n y up s s'.
Proof.
  intros Hn H1 H2 Hf. pose proof (fi_regs _ _ Hf) as Er. destruct (keeps_fills n y up (shifted s) s' Hn (shifted_ok _ _ H1) H2 Hf) as [A B C].
  split; [done|done|]. by rewrite C.
Qed.

Lemma sends_acked n s y up : station_ok n s -> sends s y up -> arrived s y -> sends (shifted s) y up.
Proof.
  intros H1 H2 [Ha Hb]. unfold sends in *. rewrite (shifted_buf n s H1). change (accepted (shifted s)) with (accepted s).
  change (seqn_tx_ (tx (shifted s))) with (seqn_tx_ (tx s)). apply dir_acked; try done. apply H1.
Qed.

Lemma shifted_answers n s s' : station_ok n s -> fills (shifted s) s' -> answers s ->
  (forall p, head (buf s) = Some p -> transmitCount p <> 0) -> answers s'.
Proof.
  intros H [(new & F & B & A) _ _ _ O] Ha Hh. rewrite (shifted_buf n s H) in B. pose proof (st_next _ _ H) as Hn.
  destruct (buf s') as [|q b] eqn:Eb.
  - symmetry in B. apply app_eq_nil in B as [B _]. destruct Ha as [Ha|(p & Hp & Hp')]; [left; by apply O|].
    destruct (buf s) as [|x l]; [by apply elem_of_nil in Hp|]. cbn in B. subst l. apply list_elem_of_singleton in Hp as ->.
    by destruct (Hh x eq_refl).
  - right. exists q. split; [rewrite Eb; apply list_elem_of_In; by left|].
    assert (Hf : Forall fresh (q :: b)) by (rewrite B; by apply Forall_app). apply Forall_cons in Hf as [Hf _]. apply Hf.
Qed.

Lemma ack_ok n a s y up : 0 <= n -> station_ok n s -> sends s y up -> (nz a = true -> arrived s y) ->
  returns (ack a s) (fun s' => keeps n y up s s' /\ (nz a = false -> s' = s) /\ (nz a = true -> acked s s' /\ (answers s -> answers s'))).
Proof.
  intros Hn H1 H2 Ha. unfold ack. destruct (nz a).
  - set (s0 := match current_ (tx s) with Some _ => _ | None => _ end).
    assert (E : station_ok n s0 /\ sends s0 y up /\ regs s0 = regs s /\ arrived s0 y /\ buf s0 = buf s /\ accepted s0 = accepted s /\ (answers s -> answers s0)).
    { unfold s0. specialize (Ha eq_refl). destruct (current_ (tx s)) as [p|]; [|done]. destruct (opcode p =? LMP_DETACH); [|done].
      destruct H1 as [A1 A2 A3 A4 A5 A6 A7]. split; [by split|]; split; [exact H2|]; split; [done|]; split; [exact Ha|done]. }
    destruct E as (E1 & E2 & E3 & E4 & E5 & E6 & E7). eapply returns_mono; [by apply (switch_reg_ok n)|]. intros s' Hf.
    pose proof (shifted_keeps n y up s0 s' Hn E1 (sends_acked n s0 y up E1 E2 E4) Hf) as [A B C]. split; [by split; [..|congruence]|]. split; [done|]. intros _.
    pose proof (fi_new _ _ Hf) as (new & F & Eb & Ea). rewrite (shifted_buf n s0 E1), E5 in Eb. split; [exists new; by rewrite <- E6|].
    intros Hs. apply (shifted_answers n s0); [done..|by apply E7|]. intros p Hp. destruct E4 as [E4 _].
    destruct (buf s0) as [|x l]; [done|]. injection Hp as ->. cbn in E4. lia.
  - apply returns_Ok. split; [by split|done].
Qed.

Lemma count_failures_ok p s : bcast p = false ->
  let s' := count_failures p s in
  (current_ (tx s') = current_ (tx s) /\ next_ (tx s') = next_ (tx s) /\ link s' = link s /\ accepted s' = accepted s) /\
  (seqn_rx_ (tx s') = seqn_rx_ (tx s) /\ seqn_tx_ (tx s') = seqn_tx_ (tx s) /\ arqn_ (tx s') = arqn_ (tx s) /\
   fails_ (tx s') = fails_ (tx s) + 1) /\
  (T_ (tx s') = T_ (tx s) /\ t_index_ (tx s') = t_index_ (tx s) /\ t_cntr_ (tx s') = t_cntr_ (tx s)) /\
  isMaster s' = isMaster s /\ _max_num_retran s' = _max_num_retran s.
Proof. intros Hb. cbv zeta. unfold count_failures, failTrigger. rewrite Hb. repeat case_cond; cbn; tauto. Qed.

(** The number of a packet [p] with its count increased: the state changes only
    for a CRC packet that is sent for the first time. *)
Lemma number_ok p s : usable p ->
  let first := crc p && (transmitCount p =? 1) in
  let t' := if first then (if nz (seqn_tx_ (tx s)) then 0 else 1) else seqn_tx_ (tx s) in
  exists q, number p s = (q, on_tx (fun t => t <| seqn_tx_ := t' |>) s) /\ body q = body p /\ transmitCount q = transmitCount p /\
    (crc p = true -> seqn q = if first then t' else seqn p).
Proof.
  intros [H1 H2 H3]. cbv zeta. unfold number. fold (crc p).
  assert (Es : on_tx (fun t => t <| seqn_tx_ := seqn_tx_ (tx s) |>) s = s) by (by destruct s as [[] []]).
  destruct (transmitCount p =? 1); cbn [andb]; [|rewrite andb_false_r, Es; by exists p].
  destruct (crc p) eqn:Ec; cbn [andb].
  - rewrite (H3 eq_refl). eexists. split; [reflexivity|]. done.
  - rewrite Es. destruct (_ && _); eexists; (split; [reflexivity|]); done.
Qed.

Lemma usable_body p q : body p = body q -> usable p -> usable q.
Proof.
  intros E [H1 H2 H3]. pose proof (f_equal bcast E) as E1. pose proof (f_equal type E) as E2. pose proof (f_equal l_ch E) as E3.
  pose proof (f_equal ph_length E) as E4. pose proof (body_crc _ _ E) as E5. cbn in E1, E2, E3, E4. split; [congruence|congruence|]. intros Hq. rewrite <- E3, <- E4. apply H3. congruence.
Qed.

(** What a transmission does to the registers. *)
Record sent_as (s s' : station) (p : bt_packet) : Prop := mkSentAs {
  sa_usable : usable p;
  sa_head : crc p = true -> head (buf s') = Some p /\ in_flight (buf s') = true;
  sa_arqn : arqn p = arqn_ (tx s') \/ arqn p = 0;
  sa_regs : (arqn p = 0 /\ arqn_ (tx s') = arqn_ (tx s) /\ fails_ (tx s') = fails_ (tx s)) \/
            (arqn_ (tx s') = (if isMaster s && (0 <? fails_ (tx s)) then 0 else arqn_ (tx s)) /\ fails_ (tx s') = fails_ (tx s) + 1) }.

Lemma buf_tail_fresh n s : station_ok n s -> Forall fresh (tail (buf s)).
Proof. intros H. apply H. Qed.

Lemma send_current_ok n s y up p : 0 <= n -> n + 1 < 32768 -> station_ok n s -> sends s y up -> current_ (tx s) = Some p ->
  let '(q, s') := send_current p s in
  station_ok (n + 1) s' /\ sends s' y up /\ sent_as s s' q /\ seqn_rx_ (tx s') = seqn_rx_ (tx s) /\ isMaster s' = isMaster s /\
  (in_flight (buf s) = true -> in_flight (buf s') = true /\ seqn_tx_ (tx s') = seqn_tx_ (tx s)).
Proof.
  intros Hn Hn1 H Hs Ec. pose proof (buf_current s p Ec) as Eb. pose proof (st_buf _ _ H) as Hb. rewrite Eb in Hb.
  apply Forall_cons in Hb as [[Hu Ht] Hb]. unfold send_current.
  assert (Hu' : usable (stamp p s)) by by apply (usable_body p).
  destruct (number_ok (stamp p s) s Hu') as (q & -> & Eq & Etc & Esq).
  assert (Etc' : transmitCount q = transmitCount p + 1) by (rewrite Etc; cbn; by rewrite int16_id by lia). clear Etc.
  assert (Ecr : crc (stamp p s) = crc p) by done. rewrite Ecr in *. change (body (stamp p s)) with (body p) in Eq.
  change (transmitCount (stamp p s)) with (int16 (transmitCount p + 1)) in *. rewrite (int16_id (transmitCount p + 1)) in * by lia.
  set (t' := if crc p && _ then _ else seqn_tx_ (tx s)) in *.
  set (s1 := on_tx _ s). set (s2 := if isMaster s1 && _ then _ else s1). set (r := q <| arqn := arqn_ (tx s2) |>).
  set (s3 := on_tx _ s2). assert (Hr : usable r) by (apply (usable_body p); [by rewrite <- Eq|done]).
  pose proof (count_failures_ok r s3 (us_bcast _ Hr)) as Hc. cbv zeta in Hc. set (s' := count_failures r s3) in *. clearbody s'.
  assert (E2 : seqn_rx_ (tx s2) = seqn_rx_ (tx s) /\ seqn_tx_ (tx s2) = t' /\ fails_ (tx s2) = fails_ (tx s) /\
    arqn_ (tx s2) = (if isMaster s && (0 <? fails_ (tx s)) then 0 else arqn_ (tx s)) /\ next_ (tx s2) = next_ (tx s) /\ link s2 = link s /\
    accepted s2 = accepted s /\ isMaster s2 = isMaster s /\ _max_num_retran s2 = _max_num_retran s /\
    T_ (tx s2) = T_ (tx s) /\ t_index_ (tx s2) = t_index_ (tx s) /\ t_cntr_ (tx s2) = t_cntr_ (tx s)).
  { unfold s2, s1. cbn. by destruct (isMaster s && _). }
  destruct E2 as (R1 & R2 & R3 & R4 & R5 & R6 & R7 & R8 & R9 & R10 & R11 & R12).
  destruct Hc as ((C1 & C2 & C3 & C4) & (C5 & C6 & C7 & C8) & (C9 & C10 & C11) & C12 & C13). cbn in C1, C2, C3, C4, C5, C6, C7, C8, C9, C10, C11, C12, C13.
  assert (Eb' : buf s' = r :: tail (buf s)) by (rewrite Eb; unfold buf; by rewrite C1, C2, R5).
  assert (Ebr : body r = body p) by (by rewrite <- Eq). pose proof (body_crc _ _ Ebr) as Ecr'.
  assert (Ef : crc p = true -> in_flight (buf s') = true).
  { intros Hc. rewrite Eb'. cbn. rewrite Ecr', Hc. change (transmitCount r) with (transmitCount q). cbn. lia. }
  pose proof (buf_tail_fresh n s H) as Hfr. rewrite Eb in Hfr, Eb'. cbn [tail] in Hfr, Eb'.
  split; [|split; [|split; [|split; [congruence|split; [congruence|]]]]].
  - destruct H as [A1 A2 A3 A4 A5 A6 A7]. split.
    + change (link s3) with (link s2) in C3. rewrite C3, R6. exact A1.
    + rewrite C1. discriminate.
    + rewrite Eb'. constructor; [split; [done|change (transmitCount r) with (transmitCount q); lia]|].
      eapply Forall_impl; [exact Hb|]. intros x [Hx Hx']. split; [done|lia].
    + by rewrite Eb'.
    + rewrite C9, C10, C11, R10, R11, R12. exact A5.
    + rewrite C8, R3. lia.
    + rewrite C13, R9. exact A7.
  - unfold sends in *. rewrite Eb', C4, R7, C6, R2, Eb in *. destruct (crc p) eqn:Hc.
    + destruct (Z.eqb_spec (transmitCount p + 1) 1) as [E1|E1].
      * apply (dir_first p r _ _ _ (seqn_tx_ (tx s))); try done; try (change (transmitCount r) with (transmitCount q)); try lia.
        by apply Esq.
      * apply (dir_again p r); try done. intros _. change (transmitCount r) with (transmitCount q). change (seqn r) with (seqn q).
        rewrite (Esq eq_refl). repeat split; lia.
    + apply (dir_again p r); [done|done|]. rewrite Hc. discriminate.
  - split; [done| | |].
    + rewrite Ecr'. intros Hc. split; [by rewrite Eb'|by apply Ef].
    + left. rewrite C7, R4. change (arqn r) with (arqn_ (tx s2)). by rewrite R4.
    + right. rewrite C7, R4, C8, R3. done.
  - rewrite Eb. cbn. intros Hi. apply andb_prop in Hi as [Hc Hp]. split; [by apply Ef|]. rewrite C6, R2. unfold t'. rewrite Hc.
    destruct (Z.eqb_spec (transmitCount p + 1) 1); [lia|done].
Qed.

(** Only a packet without CRC that has been sent leaves the buffer here; the limit
    on retransmissions is never reached. *)
Lemma retire_ok n s y up : 0 <= n -> n < 32768 -> station_ok n s -> sends s y up ->
  returns (retire s) (fun s' => keeps n y up s s' /\ (in_flight (buf s) = true -> s' = s)).
Proof.
  intros Hn Hn1 H Hs. unfold retire. destruct (current_ (tx s)) as [p|] eqn:Ec; [|split; [by apply keeps_refl|done]].
  pose proof (buf_current s p Ec) as Eb. pose proof (st_buf _ _ H) as Hb. rewrite Eb in Hb. apply Forall_cons in Hb as [[Hu Ht] _].
  rewrite (us_bcast _ Hu). cbn [andb]. fold (crc p). destruct ((0 <? transmitCount p) && negb (crc p)) eqn:Er.
  - apply andb_prop in Er as [E1 E2]. apply negb_true_iff in E2. eapply returns_mono; [by apply (switch_reg_ok n)|].
    intros s' Hf. split; [|rewrite Eb; cbn; rewrite E2; discriminate]. apply (shifted_keeps n y up s s' Hn H); [|done].
    unfold sends in *. rewrite (shifted_buf n s H). pose proof (st_next _ _ H) as Hfr. rewrite Eb in *. by apply (dir_dropped p).
  - rewrite (proj2 (Z.leb_gt _ _)); [split; [by apply keeps_refl|done]|]. pose proof (st_retran _ _ H). lia.
Qed.

Lemma push_send_ack p s : send_ack_ (tx (push p s).2) = send_ack_ (tx s).
Proof. unfold push. destruct (available (tx s)); [|done]. cbn. destruct (current_ (tx s)), (next_ (tx s)); done. Qed.

(** On an empty buffer they do push. *)
Lemma push_full p s : current_ (tx s) = None -> next_ (tx s) = None -> buf (push p s).2 = [p].
Proof. intros Ec En. unfold push, available, buf. rewrite Ec, En. cbn. by rewrite En. Qed.

Lemma sendPoll_full a s : current_ (tx s) = None -> shape s -> link_ok (link s) ->
  returns (sendPoll a s) (fun s' => fills s s' /\ buf s' <> []).
Proof.
  intros Ec Hs Hl. pose proof (sendPoll_ok a s Hs Hl) as H. unfold sendPoll, available in *. rewrite Ec, orb_true_r in *.
  apply returns_Ok. split; [exact H|]. rewrite push_full; [done|done|by apply Hs].
Qed.
Lemma sendNull_full s : current_ (tx s) = None -> shape s -> link_ok (link s) ->
  returns (sendNull s) (fun s' => fills s s' /\ buf s' <> []).
Proof.
  intros Ec Hs Hl. pose proof (sendNull_ok s Hs Hl) as H. unfold sendNull, available in *. rewrite Ec, orb_true_r in *.
  apply returns_Ok. split; [exact H|]. rewrite push_full; [done|done|by apply Hs].
Qed.

Lemma refill_ok s : shape s -> link_ok (link s) -> returns (refill s) (fun s' => fills s s' /\ send_ack_ (tx s') = false).
Proof.
  intros Hs Hl. unfold refill.
  eapply (returns_bind _ _ (fills s)).
  { destruct (current_ (tx s)) as [p|] eqn:Ec; cbn [is_null]; [by apply returns_Ok, fills_refl|].
    set (s0 := on_tx _ s). assert (Hf : fills s s0).
    { split; try done; [exists []; rewrite !app_nil_r; repeat split; [constructor|]|by unfold shape, s0; cbn; rewrite (Hs Ec)].
      unfold buf, s0. cbn. by rewrite Ec, (Hs Ec). }
    eapply returns_bind; [apply callback_ok; apply Hf|]. intros [r s'] [Hf' _]. by apply (fills_trans s s0). }
  intros s1 Hf1. eapply (returns_bind _ _ (fun s2 => fills s s2 /\ (buf s2 = [] -> send_ack_ (tx s2) = false))).
  { destruct (current_ (tx s1)) as [p|] eqn:Ec; cbn [is_null andb]; [by apply returns_Ok; split; [|rewrite (buf_current s1 p Ec)]|].
    destruct (send_ack_ (tx s1)) eqn:Ea; [|by split].
    case_cond; (eapply returns_mono; [first [apply sendPoll_full|apply sendNull_full]; (exact Ec || apply Hf1)|];
      intros s' [F1 F2]; split; [by apply (fills_trans s s1)|done]). }
  intros s2 [[F1 F2 F3 F4 F5] Hs2]. set (s3 := on_tx _ s2).
  assert (Hf3 : fills s s3) by (split; try done; intros E1 E2; specialize (F5 E1 E2); by rewrite (Hs2 E1) in F5). cbv zeta. case_cond; [|by apply returns_Ok].
  pose proof (sendPoll_ok 0 s3 (fi_shape _ _ Hf3) (fi_link _ _ Hf3)) as Hp. unfold sendPoll in *. destruct (available (tx s3)); [|by apply returns_Ok].
  cbn [genPollPkt packet_size_max packet_size] in *. apply returns_Ok. split; [by apply (fills_trans s s3)|]. by rewrite push_send_ack.
Qed.

Lemma regs_seqn s s' : regs s' = regs s -> seqn_tx_ (tx s') = seqn_tx_ (tx s).
Proof. intros E. by apply regs_eq in E as (_ & E & _). Qed.

Lemma transmit_ok n s y up : 0 <= n -> n + 1 < 32768 -> station_ok n s -> sends s y up ->
  returns (transmit s) (fun '(o, s') =>
    station_ok (n + 1) s' /\ sends s' y up /\ seqn_rx_ (tx s') = seqn_rx_ (tx s) /\ isMaster s' = isMaster s /\
    (in_flight (buf s) = true -> in_flight (buf s') = true /\ seqn_tx_ (tx s') = seqn_tx_ (tx s)) /\
    match o with
    | Some p => sent_as s s' p
    | None => arqn_ (tx s') = arqn_ (tx s) /\ fails_ (tx s') = fails_ (tx s)
    end).
Proof.
  intros Hn Hn1 H Hs. unfold transmit. case_cond.
  { assert (Hok : station_ok (n + 1) s) by (apply (ok_weaken n); [lia|done]).
    split; [exact Hok|]. split; [exact Hs|]. split; [done|]. split; [done|]. split; [done|].
    split; [by repeat split|discriminate|by right|by left]. }
  eapply returns_bind; [apply (retire_ok n s y up); done || lia|]. intros s1 [[K1 K2 K3] Ks].
  eapply returns_bind; [apply refill_ok; [exact (st_shape _ _ K1)|apply K1]|]. intros s2 [Hf _].
  pose proof (ok_fills n s1 s2 Hn K1 Hf) as H2. pose proof (sends_fills s1 s2 y up K2 Hf) as S2.
  assert (Er : regs s2 = regs s) by (rewrite (fi_regs _ _ Hf); exact K3). apply regs_eq in Er as (R1 & R2 & R3 & R4 & R5 & _).
  assert (Hi : in_flight (buf s) = true -> in_flight (buf s2) = true).
  { intros Hi. rewrite <- (Ks Hi) in Hi. by apply (flight_fills s1 s2 Hi Hf). }
  destruct (current_ (tx s2)) as [p|] eqn:Ec.
  - pose proof (send_current_ok n s2 y up p Hn Hn1 H2 S2 Ec) as Hsc. destruct (send_current p s2) as [q s3].
    destruct Hsc as (A & B & [C1 C2 C3 C4] & D & E & F). split; [done|]. split; [done|]. split; [congruence|]. split; [congruence|]. split.
    + intros Hi'. destruct (F (Hi Hi')) as [F1 F2]. split; [done|congruence].
    + split; try done. by rewrite R3, R4, R5 in C4.
  - split; [by apply (ok_weaken n); [lia|]|]. split; [done|]. split; [done|]. split; [done|]. split; [|done].
    intros Hi'. specialize (Hi Hi'). by rewrite (buf_empty s2 (st_shape _ _ H2) Ec) in Hi.
Qed.

(** ** A station receives *)

(** Changes that the ARQ does not see. *)
Record quiet (s s' : station) : Prop := mkQuiet {
  q_buf : current_ (tx s') = current_ (tx s) /\ next_ (tx s') = next_ (tx s) /\ accepted s' = accepted s;
  q_seqn : seqn_rx_ (tx s') = seqn_rx_ (tx s) /\ seqn_tx_ (tx s') = seqn_tx_ (tx s);
  q_conf : isMaster s' = isMaster s /\ _max_num_retran s' = _max_num_retran s;
  q_fails : 0 <= fails_ (tx s) -> 0 <= fails_ (tx s');
  q_ring : length (T_ (tx s)) = 8%nat /\ -1 <= t_index_ (tx s) <= 7 /\ 0 <= t_cntr_ (tx s) <= 7 ->
    length (T_ (tx s')) = 8%nat /\ -1 <= t_index_ (tx s') <= 7 /\ 0 <= t_cntr_ (tx s') <= 7;
  q_link : link_ok (link s) -> link_ok (link s');
  q_awake : suspended_ (tx s) = false -> suspended_ (tx s') = false }.

Lemma quiet_refl s : quiet s s.
Proof. split; done. Qed.

Lemma quiet_trans s1 s2 s3 : quiet s1 s2 -> quiet s2 s3 -> quiet s1 s3.
Proof.
  intros [(A1 & A2 & A3) (A4 & A5) (A6 & A7) A8 A9 A10 A11] [(B1 & B2 & B3) (B4 & B5) (B6 & B7) B8 B9 B10 B11].
  split; [repeat split; congruence|split; congruence|split; congruence|auto..].
Qed.

Lemma quiet_ok n s s' : station_ok n s -> quiet s s' -> station_ok n s'.
Proof.
  intros [H1 H2 H3 H4 H5 H6 H7] [(A1 & A2 & A3) _ (_ & A4) A5 A6 A7 _]. assert (Eb : buf s' = buf s) by (unfold buf; by rewrite A1, A2).
  split; [auto|by rewrite A1, A2|by rewrite Eb|by rewrite Eb|auto|auto|by rewrite A4].
Qed.

Lemma quiet_buf s s' : quiet s s' -> buf s' = buf s.
Proof. intros [(A1 & A2 & A3) _ _ _ _ _ _]. unfold buf. by rewrite A1, A2. Qed.

Lemma quiet_sends s s' y up : sends s y up -> quiet s s' -> sends s' y up.
Proof.
  intros H Hq. pose proof (quiet_buf _ _ Hq) as Eb. destruct Hq as [(_ & _ & A3) (_ & A5) _ _ _ _ _]. unfold sends in *. by rewrite Eb, A3, A5.
Qed.

Lemma quiet_arrived s s' y : arrived s y -> quiet s s' -> arrived s' y.
Proof.
  intros [H1 H2] Hq. pose proof (quiet_buf _ _ Hq) as Eb. destruct Hq as [_ (_ & A5) _ _ _ _ _]. unfold arrived. by rewrite Eb, A5.
Qed.

Lemma link_ok_poll l v : link_ok l -> link_ok (l <| link_T_poll_ := v |>).
Proof. intros [[H1 H2 H3 H4 H5] H6]. split; [by split|done]. Qed.

Lemma sum_first_ok n i T : length T = 8%nat -> 0 <= i -> i + Z.of_nat n <= 7 -> exists r, sum_first n i T = Ok r.
Proof.
  intros HT. revert i. induction n as [|n IH]; intros i Hi Hn; [by eexists|]. cbn [sum_first].
  destruct (aread_in T (i + 1)) as (a & -> & _); [lia|]. destruct (aread_in T i) as (b & -> & _); [lia|]. rewrite !bind_Ok.
  destruct (IH (i + 1)) as (r & ->); [lia..|]. by eexists.
Qed.

Lemma sum_back_ok n j T : length T = 8%nat -> 0 <= j <= 7 -> exists r, sum_back n j T = Ok r.
Proof.
  intros HT. revert j. induction n as [|n IH]; intros j Hj; [by eexists|]. cbn [sum_back]. unfold TPOLLUPDATE_PKTNUM.
  destruct (Z.eqb_spec j 0) as [->|E].
  - destruct (aread_in T 0) as (a & -> & _); [lia|]. destruct (aread_in T (8 - 1)) as (b & -> & _); [lia|]. rewrite !bind_Ok.
    destruct (IH 7) as (r & ->); [lia|]. by eexists.
  - destruct (aread_in T j) as (a & -> & _); [lia|]. destruct (aread_in T (j - 1)) as (b & -> & _); [lia|]. rewrite !bind_Ok.
    destruct (IH (j - 1)) as (r & ->); [lia|]. by eexists.
Qed.

Lemma update_T_poll_ok s : length (T_ (tx s)) = 8%nat /\ -1 <= t_index_ (tx s) <= 7 /\ 0 <= t_cntr_ (tx s) <= 7 ->
  returns (update_T_poll s) (quiet s).
Proof.
  intros (HT & Hi & Hc). unfold update_T_poll, TPOLLUPDATE_PKTNUM. set (i := if _ =? 8 then 0 else _).
  assert (Hi' : 0 <= i <= 7) by (unfold i; destruct (Z.eqb_spec (t_index_ (tx s) + 1) 8); lia). clearbody i.
  rewrite awrite_ok, bind_Ok by lia. set (T := <[_ := _]> _). assert (HT' : length T = 8%nat) by (unfold T; by rewrite length_insert).
  clearbody T. cbn. destruct (Z.ltb_spec (t_cntr_ (tx s)) (8 - 1)) as [Hlt|Hge].
  - eapply (returns_bind _ _ (fun s' => exists l, s' = on_link l s /\ (link_ok (link s) -> link_ok (link s')))).
    + destruct (0 <? t_cntr_ (tx s)).
      * destruct (sum_first_ok (Z.to_nat (t_cntr_ (tx s))) 0 T HT') as (r & ->); [lia..|]. rewrite bind_Ok. apply returns_Ok.
        eexists. split; [reflexivity|]. apply link_ok_poll.
      * apply returns_Ok. exists (fun l => l). split; [by destruct s|done].
    + intros s' (l & -> & Hl). apply returns_Ok. split; cbn; try done; try lia.
  - destruct (sum_back_ok (Z.to_nat (t_cntr_ (tx s))) i T HT' Hi') as (r & ->). rewrite bind_Ok. apply returns_Ok.
    split; cbn; try done; [lia|]. apply link_ok_poll.
Qed.

(** The counters of a reception. *)
Lemma note_recv_ok n p s : station_ok n s -> returns (note_recv p s) (fun s' => quiet s s' /\ fails_ (tx s') = 0 /\ suspended_ (tx s') = false).
Proof.
  intros H. unfold note_recv. set (s0 := on_tx _ s). assert (H0 : quiet s s0) by (split; done).
  assert (Ha : suspended_ (tx s0) = false) by done. clearbody s0.
  eapply (returns_bind _ _ (quiet s0)).
  - destruct (isMaster s0).
    + destruct (slot_num_ok (type p)) as (k & ->). rewrite bind_Ok. apply returns_Ok. split; done.
    + pose proof (st_ring _ _ (quiet_ok _ _ _ H H0)) as Hr.
      eapply returns_mono; [by apply update_T_poll_ok|]. intros s1 Hq. eapply quiet_trans; [|exact Hq]. split; done.
  - intros s1 H1. pose proof (q_awake _ _ H1 Ha) as Ha1. pose proof (quiet_trans _ _ _ H0 H1) as H2. clear H0 H1 Ha.
    case_cond; [|case_cond]; apply returns_Ok; (split; [|by split]); apply (quiet_trans s s1); try done; split; done || (cbn; lia).
Qed.

(** A station takes in a packet [p] that is not a broadcast. *)
Record took (n : Z) (y : station) (up : list bt_packet) (p : bt_packet) (s s' : station) (b : bool) : Prop := mkTook {
  tk_ok : station_ok n s';
  tk_sends : sends s' y up;
  tk_up : b = (if crc p then negb (seqn p =? seqn_rx_ (tx s)) else is_type (type p) AUX1);
  tk_rx : seqn_rx_ (tx s') = (if crc p then seqn p else seqn_rx_ (tx s));
  tk_arqn : arqn_ (tx s') = (if crc p then 1 else 0);
  tk_fails : fails_ (tx s') = 0;
  tk_master : isMaster s' = isMaster s;
  tk_tx : seqn_tx_ (tx s') = seqn_tx_ (tx s);
  tk_grown : nz (arqn p) = false -> grown s s';
  tk_acked : nz (arqn p) = true -> acked s s';
  tk_answers : crc p || is_type (type p) Poll = true -> answers s';
  tk_awake : suspended_ (tx s') = false }.

(** What the acknowledgement [a] has done, and, when [w], the packet that asks for
    an answer. *)
Record handled (n : Z) (y : station) (up : list bt_packet) (a : Z) (w : bool) (s s' : station) : Prop := mkHandled {
  hd_keeps : keeps n y up s s';
  hd_grown : nz a = false -> grown s s';
  hd_acked : nz a = true -> acked s s';
  hd_answers : w = true -> answers s' }.

Lemma acked_fills s s1 s2 : acked s s1 -> fills s1 s2 -> acked s s2.
Proof.
  intros (n1 & F1 & B1 & A1) [(n2 & F2 & B2 & A2) _ _ _ _]. exists (n1 ++ n2). split; [by apply Forall_app|].
  by rewrite B2, B1, A2, A1, !app_assoc.
Qed.

Lemma grown_acked s s1 s2 : buf s <> [] -> grown s s1 -> acked s1 s2 -> acked s s2.
Proof.
  intros Hb (n1 & F1 & B1 & A1) (n2 & F2 & B2 & A2). exists (n1 ++ n2). split; [by apply Forall_app|].
  rewrite B2, B1, A2, A1. destruct (buf s); [done|]. cbn. by rewrite !app_assoc.
Qed.

Lemma ack_sendACK_ok n a (w : bool) s y up : 0 <= n -> station_ok n s -> sends s y up -> (nz a = true -> arrived s y) ->
  returns (s ← ack a s; if w then sendACK s else Ok s) (handled n y up a w s).
Proof.
  intros Hn H1 H2 Ha. eapply returns_bind; [by apply (ack_ok n a s y up)|]. intros s1 (K1 & E1 & G1). pose proof (kp_ok _ _ _ _ _ K1) as O1.
  destruct w.
  - eapply returns_mono; [apply sendACK_ok; [exact (st_shape _ _ O1)|apply O1]|]. intros s2 [Hf Hs].
    split; [|intros Hz; rewrite <- (E1 Hz); apply Hf| |done].
    + eapply keeps_trans; [exact K1|]. apply keeps_fills; [done|apply K1..|done].
    + intros Hz. eapply acked_fills; [by apply G1|done].
  - apply returns_Ok. split; [done|intros Hz; rewrite (E1 Hz); apply grown_refl|intros Hz; by apply G1|done].
Qed.

Lemma sendACK_ack_ok n a s y up : 0 <= n -> station_ok n s -> sends s y up -> (nz a = true -> arrived s y) ->
  returns (s ← sendACK s; ack a s) (handled n y up a true s).
Proof.
  intros Hn H1 H2 Ha. eapply returns_bind; [apply sendACK_ok; [exact (st_shape _ _ H1)|apply H1]|]. intros s1 [Hf Hs].
  pose proof (keeps_fills n y up s s1 Hn H1 H2 Hf) as K1.
  eapply returns_mono; [apply (ack_ok n a s1 y up); [done|apply K1..|]|].
  - intros Hz. destruct (Ha Hz) as [A1 A2]. destruct (flight_fills _ _ A1 Hf) as [B1 _]. pose proof (kp_regs _ _ _ _ _ K1) as Er.
    split; [done|]. rewrite A2. apply regs_eq in Er as (_ & -> & _). done.
  - intros s2 (K2 & E2 & G2). split; [by eapply keeps_trans| | |].
    + intros Hz. rewrite (E2 Hz). apply Hf.
    + intros Hz. apply (grown_acked s s1); [|apply Hf|by apply G2]. destruct (Ha Hz) as [A1 _]. by destruct (buf s).
    + intros _. destruct (nz a) eqn:Ez; [by apply G2|]. by rewrite (E2 eq_refl).
Qed.

(** A change of the acknowledgement to send, and of the last number received. *)
Lemma on_regs_ok n a r s : station_ok n s -> station_ok n (on_tx (fun t => t <| arqn_ := a |> <| seqn_rx_ := r |>) s).
Proof. intros [H1 H2 H3 H4 H5 H6 H7]. by split. Qed.

Definition regs_set (a r : Z) (s : station) : station := on_tx (fun t => t <| arqn_ := a |> <| seqn_rx_ := r |>) s.

Lemma took_handled n y up p s s1 s2 b w : handled n y up (arqn p) w s1 s2 ->
  s1 = regs_set (if crc p then 1 else 0) (if crc p then seqn p else seqn_rx_ (tx s)) s ->
  fails_ (tx s) = 0 -> suspended_ (tx s) = false ->
  (crc p || is_type (type p) Poll = true -> w = true) -> b = (if crc p then negb (seqn p =? seqn_rx_ (tx s)) else is_type (type p) AUX1) ->
  took n y up p s s2 b.
Proof.
  intros [[K1 K2 K3] Hk Ha Hw] -> Hf Hs Hc Hb. apply regs_eq in K3 as (R1 & R2 & R3 & R4 & R5 & R6). cbn in R1, R2, R3, R4, R5, R6.
  split; try done; try congruence. intros Hp. by apply Hw, Hc.
Qed.

Lemma regs_set_same a s : regs_set a (seqn_rx_ (tx s)) s = on_tx (fun t => t <| arqn_ := a |>) s.
Proof. by destruct s as [[] []]. Qed.

Lemma arq_recv_eq p s : arq_recv p s =
  let c := isCRCAclPkt (type p) in
  let s1 := regs_set (if c then 1 else 0) (if c then seqn p else seqn_rx_ (tx s)) s in
  if c && (seqn p =? seqn_rx_ (tx s)) then s ← (s ← sendACK s1; ack (arqn p) s); Ok (false, s)
  else s ← (s ← ack (arqn p) s1; if c || is_type (type p) Poll then sendACK s else Ok s); Ok (c || is_type (type p) AUX1, s).
Proof.
  unfold arq_recv. cbv zeta. destruct (isCRCAclPkt (type p)); cbn [andb orb].
  - rewrite <- regs_set_same. change (seqn_rx_ (tx (regs_set _ _ s))) with (seqn_rx_ (tx s)). destruct (Z.eqb_spec (seqn p) (seqn_rx_ (tx s))) as [->|E].
    + by destruct (sendACK _).
    + rewrite regs_set_same. change (on_tx _ (on_tx _ s)) with (regs_set 1 (seqn p) s). by destruct (ack _ _).
  - rewrite regs_set_same. by destruct (ack _ _).
Qed.

Lemma arq_recv_ok n y up p s : 0 <= n -> station_ok n s -> sends s y up -> usable p -> fails_ (tx s) = 0 ->
  suspended_ (tx s) = false -> (nz (arqn p) = true -> arrived s y) ->
  returns (arq_recv p s) (fun '(b, s') => took n y up p s s' b).
Proof.
  intros Hn H1 H2 Hu Hf Hw Ha. rewrite arq_recv_eq. rewrite <- (us_type _ Hu). fold (crc p). cbv zeta.
  remember (regs_set _ _ s) as s1 eqn:E1.
  assert (Hok : station_ok n s1) by (rewrite E1; by apply on_regs_ok).
  assert (Hs : sends s1 y up) by (rewrite E1; exact H2). assert (Ha' : nz (arqn p) = true -> arrived s1 y) by (rewrite E1; exact Ha).
  assert (Hz : is_type (type p) AUX1 = true -> crc p = false) by (unfold crc; by destruct (type p)).
  destruct (crc p && (seqn p =? seqn_rx_ (tx s))) eqn:Ed.
  - eapply returns_bind; [by apply (sendACK_ack_ok n (arqn p) s1 y up)|]. intros s2 K. apply returns_Ok.
    apply (took_handled n y up p s s1 s2 _ true); try done. apply andb_prop in Ed as [-> ->]. done.
  - eapply returns_bind; [by apply (ack_sendACK_ok n (arqn p) _ s1 y up)|]. intros s2 K. apply returns_Ok.
    apply (took_handled n y up p s s1 s2 _ _ K); try done. destruct (crc p); [|done]. cbn in Ed. by rewrite Ed.
Qed.

(** A packet for the station. *)
Lemma receive_ok n c y up p s : 0 <= n -> station_ok n s -> sends s y up -> usable p ->
  (nz (arqn p) = true -> arrived s y) ->
  returns (receive c p s) (fun '(b, s') => took n y up p s s' b).
Proof.
  intros Hn H1 H2 Hu Ha. unfold receive, handle_recv. set (s0 := s <| clk_ := c |>). set (s1 := on_tx _ s0). set (s2 := on_tx _ s1).
  assert (Hq : quiet s s2).
  { apply (quiet_trans s s0); [split; done|]. apply (quiet_trans s0 s1); [|split; done].
    unfold s1, on_tx. destruct (_ <? _); split; done. }
  clearbody s2. clear s0 s1.
  pose proof (quiet_ok _ _ _ H1 Hq) as Hok. rewrite (lo_type _ (lo_queues _ (st_link _ _ Hok))). change (ACL =? SCO) with false.
  change (ACL =? ACL) with true. cbn [negb]. cbv iota.
  eapply returns_bind; [by apply (note_recv_ok n)|]. intros s3 (Hq3 & Hf & Hw). pose proof (quiet_trans _ _ _ Hq Hq3) as Hq'.
  eapply returns_mono; [apply (arq_recv_ok n y up p s3); try done; [by eapply quiet_ok|by eapply quiet_sends|]|].
  - intros Hz. by apply (quiet_arrived s); [apply Ha|].
  - intros [b s'] [T1 T2 T3 T4 T5 T6 T7 T8 T9 T10 T11 T12]. pose proof (quiet_buf _ _ Hq') as Eb.
    destruct Hq' as [(_ & _ & Q0) [Q1 Q2] [Q3 _] _ _ _ _]. unfold acked, grown in *.
    rewrite Q1 in T3, T4. rewrite Eb, Q0 in T9, T10. split; try done; congruence.
Qed.

(** ** The system *)

(** A change of a station that the other end does not see. *)
Record adds (n : Z) (s s' : station) : Prop := mkAdds {
  ad_ok : station_ok n s';
  ad_sends : forall y up, sends s y up -> sends s' y up;
  ad_regs : seqn_rx_ (tx s') = seqn_rx_ (tx s) /\ seqn_tx_ (tx s') = seqn_tx_ (tx s) /\ arqn_ (tx s') = arqn_ (tx s) /\
            fails_ (tx s') = fails_ (tx s) /\ isMaster s' = isMaster s;
  ad_flight : in_flight (buf s) = true -> in_flight (buf s') = true /\ head (buf s') = head (buf s) }.

Lemma adds_fills n s s' : 0 <= n -> station_ok n s -> fills s s' -> adds n s s'.
Proof.
  intros Hn H Hf. pose proof (regs_eq _ _ (fi_regs _ _ Hf)) as (R1 & R2 & R3 & R4 & R5 & _). split; [by eapply ok_fills| |done|].
  - intros y up Hs. by eapply sends_fills.
  - intros Hi. by apply flight_fills.
Qed.

Lemma adds_quiet n s s' : station_ok n s -> quiet s s' -> arqn_ (tx s') = arqn_ (tx s) -> fails_ (tx s') = fails_ (tx s) -> adds n s s'.
Proof.
  intros H Hq Ea Ef. pose proof Hq as [_ [Q1 Q2] [Q3 _] _ _ _ _]. split; [by eapply quiet_ok| |done|].
  - intros y up Hs. by eapply quiet_sends.
  - by rewrite (quiet_buf _ _ Hq).
Qed.

(** The link after [n] events. *)
Record sys_ok (n : Z) (y : system) : Prop := mkSysOk {
  so_master : station_ok n (master y) /\ isMaster (master y) = true;
  so_slave : station_ok n (slave y) /\ isMaster (slave y) = false;
  so_down : sends (master y) (slave y) (up_slave y);
  so_up : sends (slave y) (master y) (up_master y);
  so_ack : nz (arqn_ (tx (master y))) = true -> fails_ (tx (master y)) <= 0 -> arrived (slave y) (master y);
  so_air : match on_air y with
           | Idle => True
           | Down p => usable p /\ (crc p = true -> head (buf (master y)) = Some p /\ in_flight (buf (master y)) = true) /\
               (nz (arqn p) = true -> arrived (slave y) (master y) /\ 0 < fails_ (tx (master y)))
           | Polled => nz (arqn_ (tx (slave y))) = true -> arrived (master y) (slave y)
           | Up p => usable p /\ (crc p = true -> head (buf (slave y)) = Some p /\ in_flight (buf (slave y)) = true) /\
               (nz (arqn p) = true -> arrived (master y) (slave y))
           end }.

Lemma arrived_from s s' x : in_flight (buf s') = true -> seqn_tx_ (tx s') = seqn_tx_ (tx s) -> arrived s x -> arrived s' x.
Proof. intros H1 H2 [A B]. split; [done|]. by rewrite H2. Qed.

Lemma arrived_to s x x' : seqn_rx_ (tx x') = seqn_rx_ (tx x) -> arrived s x -> arrived s x'.
Proof. intros H1 [A B]. split; [done|]. by rewrite H1. Qed.

Lemma sends_to s x x' up : seqn_rx_ (tx x') = seqn_rx_ (tx x) -> sends s x up -> sends s x' up.
Proof. unfold sends. by intros ->. Qed.

Lemma adds_from n s s' x : adds n s s' -> arrived s x -> arrived s' x.
Proof. intros [_ _ (_ & Et & _) Hf] Ha. apply (arrived_from s); [by apply Hf, Ha|done|done]. Qed.

Lemma master_adds n y s' : sys_ok n y -> adds n (master y) s' -> sys_ok n (y <| master := s' |>).
Proof.
  intros [[H1 H1'] [H2 H2'] H3 H4 H5 H6] Ha. pose proof Ha as [A1 A2 (A3 & A4 & A5 & A6 & A7) A8].
  split; cbn; [split; [done|congruence]|done|by apply A2|by eapply sends_to| |].
  - rewrite A5, A6. intros X Y. by eapply arrived_to, H5.
  - destruct (on_air y) as [|p| |p]; [done| | |].
    + destruct H6 as (B1 & B2 & B3). split; [done|]. split.
      * intros Hc. destruct (B2 Hc) as [C1 C2]. destruct (A8 C2) as [D1 D2]. by rewrite D2.
      * rewrite A6. intros Hz. destruct (B3 Hz). split; [by eapply arrived_to|done].
    + intros Hz. by eapply adds_from, H6.
    + destruct H6 as (B1 & B2 & B3). split; [done|]. split; [done|]. intros Hz. by eapply adds_from, B3.
Qed.

Lemma slave_adds n y s' : sys_ok n y -> adds n (slave y) s' -> sys_ok n (y <| slave := s' |>).
Proof.
  intros [[H1 H1'] [H2 H2'] H3 H4 H5 H6] Ha. pose proof Ha as [A1 A2 (A3 & A4 & A5 & A6 & A7) A8].
  split; cbn; [done|split; [done|congruence]|by eapply sends_to|by apply A2| |].
  - intros X Y. by eapply adds_from, H5.
  - destruct (on_air y) as [|p| |p]; [done| | |].
    + destruct H6 as (B1 & B2 & B3). split; [done|]. split; [done|].
      intros Hz. destruct (B3 Hz). split; [by eapply adds_from|done].
    + rewrite A5. intros Hz. by eapply arrived_to, H6.
    + destruct H6 as (B1 & B2 & B3). split; [done|]. split.
      * intros Hc. destruct (B2 Hc) as [C1 C2]. destruct (A8 C2) as [D1 D2]. by rewrite D2.
      * intros Hz. by eapply arrived_to, B3.
Qed.

Lemma sys_weaken n m y : n <= m -> sys_ok n y -> sys_ok m y.
Proof.
  intros Hn [[H1 H1'] [H2 H2'] H3 H4 H5 H6]. split; try done; (split; [by apply (ok_weaken n)|done]).
Qed.

Lemma quiet_clk c s : quiet s (s <| clk_ := c |>).
Proof. split; done. Qed.

(** What a station may be given, and the events that an upper layer makes. *)
Definition given (p : bt_packet) : Prop := if l_ch p =? L_CH_LM then fresh p else whole p.
Definition event_ok (e : arq_event) : Prop :=
  match e with
  | EPush _ p => given p
  | EQueue _ _ p => whole p
  | _ => True
  end.

Lemma at_station_ok n (m : bool) f y : sys_ok n y ->
  (forall s, station_ok n s -> returns (f s) (adds n s)) -> returns (at_station m f y) (sys_ok n).
Proof.
  intros H Hf. unfold at_station. destruct m.
  - eapply returns_bind; [apply Hf, H|]. intros s' Ha. apply returns_Ok. by apply master_adds.
  - eapply returns_bind; [apply Hf, H|]. intros s' Ha. apply returns_Ok. by apply slave_adds.
Qed.

Lemma queue_packet_ok i p l : link_ok l -> whole p ->
  link_ok (l <| channels := alter (fun c => mkChannel (ready_ c) (queue c ++ [p])) i (channels l) |>).
Proof.
  intros Hl Hp. apply link_ok_channels; [done|]. apply Forall_alter; [apply Hl|]. intros c Ei Hc. cbn. apply Forall_app.
  split; [done|by constructor].
Qed.

Lemma master_sent_ok p s : returns (master_sent p s) (fun s' => quiet s s' /\ arqn_ (tx s') = arqn_ (tx s) /\ fails_ (tx s') = fails_ (tx s)).
Proof.
  unfold master_sent. destruct (isMaster s); [|split; [apply quiet_refl|done]]. destruct (slot_num_ok (type p)) as (k & ->).
  rewrite bind_Ok. apply returns_Ok. split; [split; done|done].
Qed.

(** The master's slot. *)
Lemma master_slot_ok n c y : 0 <= n -> n + 1 < 32768 -> sys_ok n y -> on_air y = Idle ->
  returns (arq_step (ESlot c) y) (sys_ok (n + 1)).
Proof.
  intros Hn Hn1 H Hi. pose proof (master_adds n y _ H (adds_quiet n _ _ (proj1 (so_master _ _ H)) (quiet_clk c _) eq_refl eq_refl)) as H0.
  unfold arq_step. rewrite Hi. remember (y <| master := (master y) <| clk_ := c |> |>) as y0 eqn:E0.
  assert (Em : (master y) <| clk_ := c |> = master y0) by (by subst). rewrite Em.
  assert (Ey : forall s a, (y <| master := s |>) <| on_air := a |> = (y0 <| master := s |>) <| on_air := a |>) by (by subst).
  assert (Ey' : forall s, y <| master := s |> = (y0 <| master := s |>) <| on_air := Idle |>) by (subst; destruct y; cbn in *; by subst).
  assert (Hi' : on_air y0 = Idle) by (by subst). clear E0 Em H.
  destruct H0 as [[H1 H1'] [H2 H2'] H3 H4 H5 _].
  eapply returns_bind; [by apply (transmit_ok n (master y0) (slave y0) (up_slave y0))|].
  intros [[p|] s] (A & B & C & D & E & F).
  - destruct F as [F1 F2 F3 F4]. eapply returns_bind; [apply master_sent_ok|]. intros s' (Q & Qa & Qf). apply returns_Ok.
    rewrite Ey. pose proof (st_fails _ _ H1) as Hf0. rewrite H1' in F4. cbn [andb] in F4.
    pose proof (quiet_buf _ _ Q) as Eb. pose proof Q as [_ [Q1 Q2] [Q3 _] _ _ _ _].
    assert (Er : seqn_rx_ (tx s') = seqn_rx_ (tx (master y0))) by congruence.
    split; cbn.
    + split; [by eapply quiet_ok|congruence].
    + split; [by apply (ok_weaken n); [lia|]|done].
    + by eapply quiet_sends.
    + by eapply sends_to.
    + rewrite Qa, Qf. destruct F4 as [(_ & -> & ->)|(_ & ->)]; [|lia]. intros X Y. by eapply arrived_to, H5.
    + rewrite Eb. split; [done|]. split; [done|]. rewrite Qf. intros Hz.
      destruct F4 as [(Z0 & _ & _)|(Z1 & Z2)]; [by rewrite Z0 in Hz|]. destruct F3 as [Z3|Z3]; [|by rewrite Z3 in Hz].
      rewrite Z3, Z1 in Hz. destruct (Z.ltb_spec 0 (fails_ (tx (master y0)))) as [|Hle]; [done|].
      split; [by eapply arrived_to, H5|lia].
  - destruct F as [F1 F2]. apply returns_Ok. rewrite Ey'. split; cbn; try done.
    + split; [done|congruence].
    + split; [by apply (ok_weaken n); [lia|]|done].
    + by eapply sends_to.
    + rewrite F1, F2. intros X Y. by eapply arrived_to, H5.
Qed.

(** The slave's slot. *)
Lemma slave_slot_ok n c y : 0 <= n -> n + 1 < 32768 -> sys_ok n y -> on_air y = Polled ->
  returns (arq_step (ESlot c) y) (sys_ok (n + 1)).
Proof.
  intros Hn Hn1 H Hi. pose proof (slave_adds n y _ H (adds_quiet n _ _ (proj1 (so_slave _ _ H)) (quiet_clk c _) eq_refl eq_refl)) as H0.
  unfold arq_step. rewrite Hi. remember (y <| slave := (slave y) <| clk_ := c |> |>) as y0 eqn:E0.
  assert (Em : (slave y) <| clk_ := c |> = slave y0) by (by subst). rewrite Em.
  assert (Ey : forall s a, (y <| slave := s |>) <| on_air := a |> = (y0 <| slave := s |>) <| on_air := a |>) by (by subst).
  assert (Hi' : on_air y0 = Polled) by (by subst). clear E0 Em H.
  destruct H0 as [[H1 H1'] [H2 H2'] H3 H4 H5 H6]. rewrite Hi' in H6.
  eapply returns_bind; [by apply (transmit_ok n (slave y0) (master y0) (up_master y0))|].
  intros [o s] (A & B & C & D & E & F). apply returns_Ok. rewrite Ey. split; cbn.
  - split; [by apply (ok_weaken n); [lia|]|done].
  - split; [done|congruence].
  - by eapply sends_to.
  - done.
  - intros X Y. pose proof (H5 X Y) as Ha. destruct (E (proj1 Ha)). by eapply arrived_from.
  - destruct o as [p|]; [|done]. destruct F as [F1 F2 F3 F4]. split; [done|]. split; [done|]. rewrite H2' in F4. cbn [andb] in F4.
    intros Hz. destruct F4 as [(Z0 & _ & _)|(Z1 & Z2)]; [by rewrite Z0 in Hz|]. destruct F3 as [Z3|Z3]; [|by rewrite Z3 in Hz].
    rewrite Z3, Z1 in Hz. by eapply arrived_to, H6.
Qed.

(** What arrives has come through the direction it belongs to. *)
Lemma dir_up_other b acc up t r p (u : bool) : dir b acc up t r -> crc p = false -> dir b acc (goes_up u p up) t r.
Proof.
  intros [H1 H2 H3 H4 H5] Hc. split; try done. rewrite H5. f_equal. destruct u; [|done]. unfold goes_up. by rewrite data_app, data_cons, Hc, app_nil_r.
Qed.

Lemma took_dir n x y y' p up s b : sends x y up -> took n x s p y y' b ->
  (crc p = true -> head (buf x) = Some p /\ in_flight (buf x) = true) ->
  sends x y' (goes_up b p up) /\ (nz (arqn_ (tx y')) = true -> arrived x y').
Proof.
  intros Hs [T1 T2 T3 T4 T5 T6 T7 T8 T9 T10 T11 T12] Hc. unfold sends, arrived in *. rewrite T4, T5, T3. destruct (crc p) eqn:Ec.
  - destruct (Hc eq_refl) as [C1 C2]. destruct (dir_arrive p _ _ _ _ _ Hs C1 C2) as [E Hd]. done.
  - split; [by apply dir_up_other|done].
Qed.

Lemma slave_hears_ok n c p y : 0 <= n -> sys_ok n y -> on_air y = Down p -> returns (arq_step (EArrive c) y) (sys_ok n).
Proof.
  intros Hn [[H1 H1'] [H2 H2'] H3 H4 H5 H6] Hi. unfold arq_step. rewrite Hi in *. destruct H6 as (B1 & B2 & B3).
  eapply returns_bind; [apply (receive_ok n c (master y) (up_master y)); try done; intros Hz; by apply B3|].
  intros [b s] Ht. apply returns_Ok. destruct (took_dir n (master y) (slave y) s p (up_slave y) (up_master y) b H3 Ht B2) as [D1 D2].
  destruct Ht as [T1 T2 T3 T4 T5 T6 T7 T8 T9 T10 T11 T12]. split; cbn; try done.
  - split; [done|congruence].
  - intros X Y. pose proof (H5 X Y) as Ha. destruct (nz (arqn p)) eqn:Ez; [destruct (B3 eq_refl); lia|].
    destruct (flight_grown _ _ (proj1 Ha) (T9 eq_refl)). by eapply arrived_from.
Qed.

Lemma master_hears_ok n c p y : 0 <= n -> sys_ok n y -> on_air y = Up p -> returns (arq_step (EArrive c) y) (sys_ok n).
Proof.
  intros Hn [[H1 H1'] [H2 H2'] H3 H4 H5 H6] Hi. unfold arq_step. rewrite Hi in *. destruct H6 as (B1 & B2 & B3).
  eapply returns_bind; [by apply (receive_ok n c (slave y) (up_slave y))|].
  intros [b s] Ht. apply returns_Ok. destruct (took_dir n (slave y) (master y) s p (up_master y) (up_slave y) b H4 Ht B2) as [D1 D2].
  destruct Ht as [T1 T2 T3 T4 T5 T6 T7 T8 T9 T10 T11 T12]. split; cbn; try done.
  - split; [done|congruence].
  - intros X _. by apply D2.
Qed.

Lemma arq_step_ok n e y : 0 <= n -> n + 1 < 32768 -> event_ok e -> sys_ok n y -> returns (arq_step e y) (sys_ok (n + 1)).
Proof.
  intros Hn Hn1 He H. assert (Hw : forall y', sys_ok n y' -> sys_ok (n + 1) y') by (intros y'; apply sys_weaken; lia).
  destruct e as [m p|m i p|m|c| |c].
  - eapply returns_mono; [|exact Hw]. destruct y as [M S a u v]; cbn [arq_step on_air]; apply at_station_ok; [done|].
    intros s Hs. eapply returns_mono; [apply enqueue_ok; [exact (st_shape _ _ Hs)|apply Hs|exact He]|]. intros s'. by apply adds_fills.
  - eapply returns_mono; [|exact Hw]. cbn [arq_step]. apply at_station_ok; [done|]. intros s Hs. apply returns_Ok.
    apply adds_fills; [done..|]. apply fills_on_link; [exact (st_shape _ _ Hs)|apply Hs|]. apply queue_packet_ok; [apply Hs|done].
  - eapply returns_mono; [|exact Hw]. cbn [arq_step]. apply at_station_ok; [done|]. intros s Hs. apply returns_Ok.
    split; try done. destruct Hs; by split.
  - destruct (on_air y) as [|p| |p] eqn:Ea; [by apply master_slot_ok| |by apply slave_slot_ok|];
      cbn [arq_step]; rewrite Ea; apply returns_Ok; by apply Hw.
  - eapply returns_mono; [|exact Hw]. cbn [arq_step]. destruct (on_air y) as [|p| |p] eqn:Ea; try done; apply returns_Ok;
      destruct H as [H1 H2 H3 H4 H5 H6]; by split.
  - eapply returns_mono; [|exact Hw]. destruct (on_air y) as [|p| |p] eqn:Ea; [| by eapply slave_hears_ok| |by eapply master_hears_ok];
      cbn [arq_step]; rewrite Ea; done.
Qed.

Lemma arq_run_ok es : forall n y, 0 <= n -> n + Z.of_nat (length es) < 32768 -> Forall event_ok es -> sys_ok n y ->
  returns (arq_run es y) (sys_ok (n + Z.of_nat (length es))).
Proof.
  induction es as [|e es IH]; intros n y Hn Hl He H; cbn [arq_run length] in *.
  - apply returns_Ok. by replace (n + Z.of_nat 0) with n by lia.
  - apply Forall_cons in He as [He He']. eapply returns_bind; [apply (arq_step_ok n); done || lia|]. intros y' H'.
    eapply returns_mono; [apply (IH (n + 1)); done || lia|]. intros y2. replace (n + 1 + _) with (n + Z.of_nat (S (length es))) by lia. done.
Qed.

Lemma station_new_ok m i T t poll chs : length T = 8%nat -> isCRCAclPkt t = true -> station_ok 0 (station_new m i T (LMPLink_init t poll chs)).
Proof.
  intros HT Ht. split; cbn; try done; try lia.
  - split; [split; cbn; try done|done]. apply Forall_fmap. apply Forall_true. by constructor.
Qed.

Lemma new_link_ok im is_ Tm Ts tm ts pm ps cm cs :
  length Tm = 8%nat -> length Ts = 8%nat -> isCRCAclPkt tm = true -> isCRCAclPkt ts = true ->
  sys_ok 0 (new_link im is_ Tm Ts tm ts pm ps cm cs).
Proof.
  intros H1 H2 H3 H4. split; cbn; try done; try (split; [by apply station_new_ok|done]); split; cbn; auto; done.
Qed.

(** C10: a new ACL link, whatever the upper layers hand to its two ends, whatever
    the buffers are suspended, whatever slots pass and whichever packets are
    lost (fewer than 2^15 events): no handler fails, and in both directions the
    CRC packets that the receiver has passed up are the ones that entered the
    sender's buffer, each once and in order, except those at the end that are
    still in the buffer, two at most. *)
Theorem arq_exactly_once im is_ Tm Ts tm ts pm ps cm cs es :
  length Tm = 8%nat -> length Ts = 8%nat -> isCRCAclPkt tm = true -> isCRCAclPkt ts = true ->
  Z.of_nat (length es) < 32768 -> Forall event_ok es ->
  returns (arq_run es (new_link im is_ Tm Ts tm ts pm ps cm cs)) (fun y =>
    (exists rest, suffix rest (buf (master y)) /\ data (accepted (master y)) = data (up_slave y) ++ data rest) /\
    (exists rest, suffix rest (buf (slave y)) /\ data (accepted (slave y)) = data (up_master y) ++ data rest)).
Proof.
  intros H1 H2 H3 H4 Hl He. assert (Hw : forall b t r, suffix (waiting b t r) b).
  { intros b t r. unfold waiting. destruct (_ && _); [|done]. destruct b as [|p b]; [done|]. by exists [p]. }
  eapply returns_mono; [apply (arq_run_ok es 0); [done|lia|done|by apply new_link_ok]|].
  intros y H. split; eexists; (split; [apply Hw|]); [apply (d_data _ _ _ _ _ (so_down _ _ H))|apply (d_data _ _ _ _ _ (so_up _ _ H))].
Qed.

(** A link with one channel at each end; the master's packet is lost, then the
    slave's answer, then all goes well. *)
Definition L2CAP_packet (n : Z) : bt_packet := (alloc n) <| ch_size := n |>.
Definition demo_T : list Z := [0; 0; 0; 0; 0; 0; 0; 0].
Definition demo_link : system := new_link 10 11 demo_T demo_T DH1 DH1 0 0 [true] [true].
Definition demo_events : list arq_event :=
  [EQueue true 0 (L2CAP_packet 40); EPush false (L2CAP_packet 20); ESlot 0; ELose; ESlot 2; EArrive 2; ESlot 3; ELose;
   ESlot 4; EArrive 4; ESlot 5; EArrive 5; ESlot 6; EArrive 6; ESlot 7; EArrive 7; ESlot 8].

Lemma arq_exactly_once_witness : 
  returns (arq_run demo_events demo_link) (fun y =>
    (exists rest, suffix rest (buf (master y)) /\ data (accepted (master y)) = data (up_slave y) ++ data rest) /\
    (exists rest, suffix rest (buf (slave y)) /\ data (accepted (slave y)) = data (up_master y) ++ data rest)).
Proof.
  apply (arq_exactly_once 10 11 demo_T demo_T DH1 DH1 0 0 [true] [true]); try reflexivity.
  repeat constructor; cbn; try done; try lia.
Defined.

(** Both fragments arrive, once, although the first one was sent three times. *)
Example lossy_run : returns (arq_run demo_events demo_link) (fun y =>
  (ph_length <$> up_slave y) = [27; 17] /\ (ph_length <$> up_master y) = [20] /\ (transmitCount <$> up_slave y) = [2; 1]).
Proof. vm_compute. auto. Qed.

(** Three channels that always have packets: the third one gets the slots that the
    first two leave, since the place to start polling from never moves. *)
Definition busy_channel (k : nat) (n : nat) (s : station) : station :=
  Nat.iter n (queue_packet k (L2CAP_packet (10 + Z.of_nat k))) s.
Definition busy_link : system :=
  let y := new_link 10 11 demo_T demo_T DH1 DH1 0 0 [true; true; true] [] in
  y <| master := busy_channel 0 6 (busy_channel 1 6 (busy_channel 2 6 (master y))) |>.

Example third_channel_waits : returns (arq_run (concat (repeat [ESlot 0; EArrive 0; ESlot 1; EArrive 1] 10)) busy_link) (fun y =>
  (content <$> up_slave y) = [10; 11; 12; 10; 11; 10; 11; 10; 11; 10]).
Proof. by vm_compute. Qed.
