(* ===== verification/BtProgress.v ===== *)
(** * Progress of the 1-bit ARQ

    One exchange in which nothing is lost (the master's slot, its packet arrives,
    the slave's slot, its packet arrives) carries the CRC packet that the master is
    sending across and acknowledges it, from any state that a link can reach; when
    the losses have suspended the master's buffer, an exchange with a POLL lifts
    the suspension first. *)
From S2P Require Import Prelude BtPacket BtLink BtArq.

(** * Definitions *)

Definition exchange (c1 c2 c3 c4 : Z) : list arq_event := [ESlot c1; EArrive c2; ESlot c3; EArrive c4].

(** * Lemmas *)

(** ** What is sent *)

Lemma send_current_sent p s : usable p -> let '(q, s') := send_current p s in
  body q = body p /\ current_ (tx s') = Some q /\ next_ (tx s') = next_ (tx s) /\ accepted s' = accepted s /\ arqn q = arqn_ (tx s').
Proof.
  intros Hu. unfold send_current. assert (Hu' : usable (stamp p s)) by by apply (usable_body p).
  destruct (number_ok (stamp p s) s Hu') as (q & -> & Eq & _ & _). set (s1 := on_tx _ s). set (s2 := if isMaster s1 && _ then _ else s1).
  set (r := q <| arqn := arqn_ (tx s2) |>). assert (Er : body r = body p) by (change (body q = body (stamp p s)); done).
  assert (Hr : usable r) by (by apply (usable_body p)).
  set (s3 := on_tx _ s2). pose proof (count_failures_ok r s3 (us_bcast _ Hr)) as Hc. cbv zeta in Hc.
  destruct Hc as ((C1 & C2 & C3 & C4) & (_ & _ & C5 & _) & _). split; [exact Er|].
  assert (E : next_ (tx s2) = next_ (tx s) /\ accepted s2 = accepted s) by (unfold s2; by destruct (isMaster s1 && _)).
  destruct E as [E1 E2]. split; [exact C1|]. split; [rewrite C2; exact E1|]. split; [rewrite C4; exact E2|]. by rewrite C5.
Qed.

(** A CRC packet in the buffer is what is sent. *)
Lemma transmit_crc n s p : 0 <= n < 32768 -> station_ok n s -> suspended_ (tx s) = false -> current_ (tx s) = Some p -> crc p = true ->
  exists q s', transmit s = Ok (Some q, s') /\ body q = body p /\ buf s' = q :: tail (buf s) /\ accepted s' = accepted s.
Proof.
  intros Hn H Hs Ec Hp. pose proof (buf_current s p Ec) as Eb. pose proof (st_buf _ _ H) as Hb. rewrite Eb in Hb.
  apply Forall_cons in Hb as [[Hu Ht] _]. unfold transmit. rewrite Hs.
  assert (Er : retire s = Ok s).
  { unfold retire. rewrite Ec, (us_bcast _ Hu). unfold crc in Hp. rewrite Hp, andb_false_r. cbn [andb].
    rewrite (proj2 (Z.leb_gt _ _)); [done|]. pose proof (st_retran _ _ H). lia. }
  rewrite Er, bind_Ok. set (s1 := on_tx (fun t => t <| send_ack_ := false |>) s).
  assert (Ef : refill s = Ok s1).
  { unfold refill. rewrite Ec. cbn [is_null andb]. rewrite bind_Ok, Ec. cbn [is_null andb]. rewrite bind_Ok.
    change (current_ (tx (on_tx _ s))) with (current_ (tx s)). by rewrite Ec. }
  rewrite Ef, bind_Ok. change (current_ (tx s1)) with (current_ (tx s)). rewrite Ec.
  pose proof (send_current_sent p s1 Hu) as Hc. destruct (send_current p s1) as [q s']. destruct Hc as (C1 & C2 & C3 & C4 & C5).
  exists q, s'. split; [done|]. split; [done|]. split; [|done]. unfold buf at 1. by rewrite C2, C3, Eb.
Qed.

(** A station that has something to answer with does not run out of it. *)
Lemma retire_owes n s : 0 <= n < 32768 -> station_ok n s -> answers s ->
  returns (retire s) (fun s' => buf s' = [] -> send_ack_ (tx s') = true).
Proof.
  intros Hn H Ha. assert (H0 : buf s = [] -> send_ack_ (tx s) = true).
  { intros E. destruct Ha as [Ha|(p & Hp & _)]; [done|]. rewrite E in Hp. by apply elem_of_nil in Hp. }
  unfold retire. destruct (current_ (tx s)) as [p|] eqn:Ec; [|exact H0].
  pose proof (buf_current s p Ec) as Eb. pose proof (st_buf _ _ H) as Hb. rewrite Eb in Hb. apply Forall_cons in Hb as [[Hu Ht] _].
  rewrite (us_bcast _ Hu). cbn [andb]. destruct ((0 <? transmitCount p) && _) eqn:Er.
  - eapply returns_mono; [by apply (switch_reg_ok n)|]. intros s' Hf E.
    assert (Ha' : answers s') by (apply (shifted_answers n s); try done; rewrite Eb; intros q [= <-]; lia).
    destruct Ha' as [Hs|(q & Hq & _)]; [done|]. rewrite E in Hq. by apply elem_of_nil in Hq.
  - rewrite (proj2 (Z.leb_gt _ _)); [exact H0|]. pose proof (st_retran _ _ H). lia.
Qed.

Lemma transmit_answers n s y up : 0 <= n -> n + 1 < 32768 -> station_ok n s -> sends s y up -> suspended_ (tx s) = false -> answers s ->
  returns (transmit s) (fun '(o, s') => exists q, o = Some q /\ arqn q = arqn_ (tx s')).
Proof.
  intros Hn Hn1 H Hs Hw Ha. unfold transmit. rewrite Hw.
  eapply returns_bind; [apply returns_and; [apply (retire_ok n s y up); done || lia|apply (retire_owes n); done || lia]|].
  intros s1 [[[K1 K2 K3] _] Ho].
  eapply returns_bind; [apply refill_ok; [exact (st_shape _ _ K1)|apply K1]|]. intros s2 [Hf Hz].
  pose proof (ok_fills n s1 s2 Hn K1 Hf) as H2. destruct (current_ (tx s2)) as [p|] eqn:Ec.
  - pose proof (st_buf _ _ H2) as Hb. rewrite (buf_current s2 p Ec) in Hb. apply Forall_cons in Hb as [[Hu _] _].
    pose proof (send_current_sent p s2 Hu) as Hc. destruct (send_current p s2) as [q s3]. exists q. split; [done|apply Hc].
  - pose proof (buf_empty s2 (st_shape _ _ H2) Ec) as Eb. pose proof (fi_new _ _ Hf) as (new & _ & Eb' & _).
    rewrite Eb in Eb'. symmetry in Eb'. apply app_eq_nil in Eb' as [Eb' _]. pose proof (fi_owes _ _ Hf Eb (Ho Eb')) as Hc. congruence.
Qed.

(** ** The exchange *)

(** The slave answers, with the acknowledgement that it has noted. *)
Lemma slave_answers n y : 0 <= n -> n + 1 < 32768 -> sys_ok n y -> on_air y = Polled ->
  suspended_ (tx (slave y)) = false -> answers (slave y) -> forall c,
  returns (arq_step (ESlot c) y) (fun y' => sys_ok (n + 1) y' /\ (exists q, on_air y' = Up q /\ arqn q = arqn_ (tx (slave y))) /\
    master y' = master y /\ up_slave y' = up_slave y).
Proof.
  intros Hn Hn1 H Hi Hw Hs c. apply (returns_and _ (sys_ok (n + 1))); [by apply slave_slot_ok|].
  unfold arq_step. rewrite Hi. set (s := (slave y) <| clk_ := c |>). pose proof (so_slave _ _ H) as [H1 H2].
  assert (H3 : station_ok n s) by (apply (quiet_ok _ (slave y)); [done|apply quiet_clk]).
  assert (H4 : sends s (master y) (up_master y)) by (apply (quiet_sends (slave y)); [apply H|apply quiet_clk]).
  eapply returns_bind; [apply returns_and; [by apply (transmit_ok n s (master y) (up_master y))|by apply (transmit_answers n s (master y) (up_master y))]|].
  intros [o s'] ((_ & _ & _ & _ & _ & F) & q & -> & Hq). apply returns_Ok. cbn. split; [|done]. exists q. split; [done|].
  destruct F as [_ _ _ F]. change (isMaster s) with (isMaster (slave y)) in F. rewrite H2 in F. cbn [andb] in F.
  rewrite Hq. change (arqn_ (tx s)) with (arqn_ (tx (slave y))) in F. by destruct F as [(_ & F & _)|(F & _)].
Qed.

Lemma master_sends n c y p : 0 <= n -> n + 1 < 32768 -> sys_ok n y -> on_air y = Idle -> suspended_ (tx (master y)) = false ->
  current_ (tx (master y)) = Some p -> crc p = true ->
  returns (arq_step (ESlot c) y) (fun y' => sys_ok (n + 1) y' /\ (exists q, on_air y' = Down q /\ crc q = true) /\
    tail (buf (master y')) = tail (buf (master y)) /\ accepted (master y') = accepted (master y)).
Proof.
  intros Hn Hn1 H Hi Hw Ec Hp. apply (returns_and _ (sys_ok (n + 1))); [by apply master_slot_ok|].
  unfold arq_step. rewrite Hi. set (s := (master y) <| clk_ := c |>).
  assert (H1 : station_ok n s) by (apply (quiet_ok _ (master y)); [apply H|apply quiet_clk]).
  destruct (transmit_crc n s p) as (q & s' & -> & Eq & Eb & Ea); [lia|done|done|done|done|]. rewrite bind_Ok.
  eapply returns_bind; [apply master_sent_ok|]. intros s2 (Q & _ & _). apply returns_Ok. cbn. rewrite (quiet_buf _ _ Q), Eb.
  split; [exists q; split; [done|by rewrite (body_crc _ _ Eq)]|]. split; [done|]. destruct Q as [(_ & _ & Q) _ _ _ _ _ _]. by rewrite Q, Ea.
Qed.

(** A suspended buffer sends a POLL, and keeps what it has. *)
Lemma master_polls n c y : 0 <= n -> n + 1 < 32768 -> sys_ok n y -> on_air y = Idle -> suspended_ (tx (master y)) = true ->
  returns (arq_step (ESlot c) y) (fun y' => sys_ok (n + 1) y' /\ (exists q, on_air y' = Down q /\ type q = Poll) /\
    buf (master y') = buf (master y) /\ accepted (master y') = accepted (master y)).
Proof.
  intros Hn Hn1 H Hi Hw. apply (returns_and _ (sys_ok (n + 1))); [by apply master_slot_ok|].
  unfold arq_step. rewrite Hi. set (s := (master y) <| clk_ := c |>). unfold transmit.
  change (suspended_ (tx s)) with (suspended_ (tx (master y))). rewrite Hw. unfold genPollPkt. destruct (packet_size_max Poll) as [sz|] eqn:Esz; [|discriminate Esz]. rewrite !bind_Ok.
  eapply returns_bind; [apply master_sent_ok|]. intros s2 (Q & _ & _). apply returns_Ok. cbn. rewrite (quiet_buf _ _ Q).
  split; [by eexists|]. split; [done|]. by destruct Q as [(_ & _ & ->) _ _ _ _ _ _].
Qed.

(** A CRC packet or a POLL makes the slave answer: 1 to the first, 0 to the second. *)
Lemma slave_hears n c p y : 0 <= n -> sys_ok n y -> on_air y = Down p -> crc p || is_type (type p) Poll = true ->
  returns (arq_step (EArrive c) y) (fun y' => sys_ok n y' /\ on_air y' = Polled /\ master y' = master y /\
    arqn_ (tx (slave y')) = (if crc p then 1 else 0) /\ suspended_ (tx (slave y')) = false /\ answers (slave y')).
Proof.
  intros Hn H Hi Hp. apply (returns_and _ (sys_ok n)); [by eapply slave_hears_ok|].
  unfold arq_step. rewrite Hi. pose proof (so_air _ _ H) as Ha. rewrite Hi in Ha. destruct Ha as (B1 & B2 & B3).
  eapply returns_bind; [apply (receive_ok n c (master y) (up_master y)); try done; [apply H|apply H|intros Hz; by apply B3]|].
  intros [b s] [T1 T2 T3 T4 T5 T6 T7 T8 T9 T10 T11 T12]. apply returns_Ok. repeat split; auto.
Qed.

Lemma master_hears n c q y : 0 <= n -> sys_ok n y -> on_air y = Up q ->
  returns (arq_step (EArrive c) y) (fun y' => sys_ok n y' /\ on_air y' = Idle /\ suspended_ (tx (master y')) = false /\
    if nz (arqn q) then acked (master y) (master y') else grown (master y) (master y')).
Proof.
  intros Hn H Hi. apply (returns_and _ (sys_ok n)); [by eapply master_hears_ok|].
  unfold arq_step. rewrite Hi. pose proof (so_air _ _ H) as Ha. rewrite Hi in Ha. destruct Ha as (B1 & B2 & B3).
  eapply returns_bind; [apply (receive_ok n c (slave y) (up_slave y)); try done; [apply H|apply H]|].
  intros [b s] [T1 T2 T3 T4 T5 T6 T7 T8 T9 T10 T11 T12]. apply returns_Ok. split; [done|]. split; [done|]. destruct (nz (arqn q)); auto.
Qed.

(** The slot of the slave and the arrival of its answer. *)
Lemma answer_ok n c3 c4 a y : 0 <= n -> n + 1 < 32768 -> sys_ok n y -> on_air y = Polled -> arqn_ (tx (slave y)) = a ->
  suspended_ (tx (slave y)) = false -> answers (slave y) ->
  returns (arq_run [ESlot c3; EArrive c4] y) (fun y' => sys_ok (n + 1) y' /\ on_air y' = Idle /\ suspended_ (tx (master y')) = false /\
    if nz a then acked (master y) (master y') else grown (master y) (master y')).
Proof.
  intros Hn Hn1 H Hi Ha Hw Hs. cbn [arq_run].
  eapply returns_bind; [by apply (slave_answers n y)|]. intros y3 (H3 & (r & A3 & Hr) & M3 & _).
  eapply returns_bind; [by apply (master_hears (n + 1) c4 r y3); try lia|]. intros y4 (H4 & A4 & W4 & M4). apply returns_Ok.
  rewrite Hr, Ha, M3 in M4. done.
Qed.

Lemma exchange_split c1 c2 c3 c4 : exchange c1 c2 c3 c4 = [ESlot c1; EArrive c2] ++ [ESlot c3; EArrive c4].
Proof. done. Qed.

Lemma arq_run_app es1 es2 y : arq_run (es1 ++ es2) y = (y ← arq_run es1 y; arq_run es2 y).
Proof.
  revert y. induction es1 as [|e es1 IH]; intros y; [done|]. cbn [app arq_run].
  destruct (arq_step e y) as [y1|]; [|done]. rewrite !bind_Ok. apply IH.
Qed.

(** From an idle link after [n] events. *)
Lemma exchange_ok n c1 c2 c3 c4 y p : 0 <= n -> n + 2 < 32768 -> sys_ok n y -> on_air y = Idle ->
  suspended_ (tx (master y)) = false -> current_ (tx (master y)) = Some p -> crc p = true ->
  returns (arq_run (exchange c1 c2 c3 c4) y) (fun y' => sys_ok (n + 2) y' /\ on_air y' = Idle /\ acked (master y) (master y')).
Proof.
  intros Hn Hn1 H Hi Hw Ec Hp. rewrite exchange_split, arq_run_app.
  eapply (returns_bind _ _ (fun y2 => sys_ok (n + 1) y2 /\ on_air y2 = Polled /\ arqn_ (tx (slave y2)) = 1 /\ suspended_ (tx (slave y2)) = false /\
    answers (slave y2) /\ tail (buf (master y2)) = tail (buf (master y)) /\ accepted (master y2) = accepted (master y))).
  - cbn [arq_run]. eapply returns_bind; [by apply (master_sends n c1 y p); try lia|]. intros y1 (H1 & (q & A1 & Hq) & Eb & Ea).
    eapply returns_bind; [apply (slave_hears (n + 1) c2 q y1); try done; [lia|by rewrite Hq]|]. intros y2 (H2 & A2 & M2 & R2 & S2 & W2).
    apply returns_Ok. rewrite Hq in R2. by rewrite M2.
  - intros y2 (H2 & A2 & R2 & S2 & W2 & Eb & Ea). eapply returns_mono; [apply (answer_ok (n + 1) c3 c4 1 y2); done || lia|].
    intros y4 (H4 & A4 & _ & M4). replace (n + 2) with (n + 1 + 1) by lia. split; [done|]. split; [done|].
    unfold acked in *. by rewrite <- Eb, <- Ea.
Qed.

(** One that is suspended wakes up. *)
Lemma wake_ok n c1 c2 c3 c4 y : 0 <= n -> n + 2 < 32768 -> sys_ok n y -> on_air y = Idle -> suspended_ (tx (master y)) = true ->
  returns (arq_run (exchange c1 c2 c3 c4) y) (fun y' => sys_ok (n + 2) y' /\ on_air y' = Idle /\ suspended_ (tx (master y')) = false /\
    grown (master y) (master y')).
Proof.
  intros Hn Hn1 H Hi Hw. rewrite exchange_split, arq_run_app.
  eapply (returns_bind _ _ (fun y2 => sys_ok (n + 1) y2 /\ on_air y2 = Polled /\ arqn_ (tx (slave y2)) = 0 /\ suspended_ (tx (slave y2)) = false /\
    answers (slave y2) /\ buf (master y2) = buf (master y) /\ accepted (master y2) = accepted (master y))).
  - cbn [arq_run]. eapply returns_bind; [apply (master_polls n c1 y); done || lia|]. intros y1 (H1 & (q & A1 & Hq) & Eb & Ea).
    assert (Ec : crc q = false) by (unfold crc; by rewrite Hq).
    eapply returns_bind; [apply (slave_hears (n + 1) c2 q y1); try done; [lia|by rewrite Hq, orb_true_r]|].
    intros y2 (H2 & A2 & M2 & R2 & S2 & W2). apply returns_Ok. rewrite Ec in R2. by rewrite M2.
  - intros y2 (H2 & A2 & R2 & S2 & W2 & Eb & Ea). eapply returns_mono; [apply (answer_ok (n + 1) c3 c4 0 y2); done || lia|].
    intros y4 (H4 & A4 & W4 & M4). replace (n + 2) with (n + 1 + 1) by lia. do 3 (split; [done|]).
    unfold grown in *. by rewrite <- Eb, <- Ea.
Qed.

(** The packet in the buffer stays the first. *)
Lemma grown_current s s' p : grown s s' -> current_ (tx s) = Some p -> shape s' -> current_ (tx s') = Some p.
Proof.
  intros (new & _ & B & _) Ec Hs. rewrite (buf_current s p Ec) in B. unfold buf in B.
  destruct (current_ (tx s')) as [q|] eqn:E; [by injection B as -> _|]. by rewrite (Hs E) in B.
Qed.

(** Suspended or not: the exchanges that bring the packet across. *)
Definition exchanges (w : bool) (c1 c2 c3 c4 d1 d2 d3 d4 : Z) : list arq_event :=
  (if w then exchange d1 d2 d3 d4 else []) ++ exchange c1 c2 c3 c4.

Lemma exchanges_ok n c1 c2 c3 c4 d1 d2 d3 d4 y p : 0 <= n -> n + 4 < 32768 -> sys_ok n y -> on_air y = Idle ->
  current_ (tx (master y)) = Some p -> crc p = true ->
  returns (arq_run (exchanges (suspended_ (tx (master y))) c1 c2 c3 c4 d1 d2 d3 d4) y) (fun y' =>
    sys_ok (n + 4) y' /\ on_air y' = Idle /\ acked (master y) (master y')).
Proof.
  intros Hn Hn1 H Hi Ec Hp. unfold exchanges. rewrite arq_run_app. destruct (suspended_ (tx (master y))) eqn:Hw.
  - eapply returns_bind; [by apply (wake_ok n d1 d2 d3 d4 y); try lia|]. intros y1 (H1 & A1 & W1 & G1).
    pose proof (grown_current _ _ p G1 Ec (st_shape _ _ (proj1 (so_master _ _ H1)))) as Ec1.
    eapply returns_mono; [by apply (exchange_ok (n + 2) c1 c2 c3 c4 y1 p); try lia|]. intros y2 (H2 & A2 & M2).
    replace (n + 4) with (n + 2 + 2) by lia. split; [done|]. split; [done|]. apply (grown_acked _ (master y1)); [|done|done].
    by rewrite (buf_current _ p Ec).
  - cbn [arq_run]. rewrite bind_Ok. eapply returns_mono; [by apply (exchange_ok n c1 c2 c3 c4 y p); try lia|].
    intros y2 (H2 & A2 & M2). split; [by apply (sys_weaken (n + 2)); [lia|]|done].
Qed.

(** * Properties *)

(** C11: from every state that a new ACL link can reach with nothing on the air and
    a CRC packet in transmission by the master, whatever was lost before: one
    exchange without a loss, or two when the losses have suspended the master's
    buffer (the first is a POLL and its answer), completes, takes that packet out
    of the buffer, and with it the slave has passed up all the data that had
    entered the buffer up to that packet. *)
Theorem arq_progress im is_ Tm Ts tm ts pm ps cm cs es y p c1 c2 c3 c4 d1 d2 d3 d4 :
  length Tm = 8%nat -> length Ts = 8%nat -> isCRCAclPkt tm = true -> isCRCAclPkt ts = true ->
  Z.of_nat (length es) + 4 < 32768 -> Forall event_ok es ->
  arq_run es (new_link im is_ Tm Ts tm ts pm ps cm cs) = Ok y ->
  on_air y = Idle -> current_ (tx (master y)) = Some p -> crc p = true ->
  returns (arq_run (exchanges (suspended_ (tx (master y))) c1 c2 c3 c4 d1 d2 d3 d4) y) (fun y' => on_air y' = Idle /\
    (exists new, buf (master y') = tail (buf (master y)) ++ new /\ accepted (master y') = accepted (master y) ++ new) /\
    data (accepted (master y)) = data (up_slave y') ++ data (tail (buf (master y)))).
Proof.
  intros H1 H2 H3 H4 Hl He Er Hi Ec Hp.
  pose proof (arq_run_ok es 0 _ ltac:(lia) ltac:(lia) He (new_link_ok im is_ Tm Ts tm ts pm ps cm cs H1 H2 H3 H4)) as H. rewrite Er in H. cbn [returns] in H.
  eapply returns_mono; [apply (exchanges_ok (0 + Z.of_nat (length es)) c1 c2 c3 c4 d1 d2 d3 d4 y p); done || lia|].
  intros y' (H' & Hi' & new & F & B & A). split; [done|]. split; [by exists new|].
  pose proof (d_data _ _ _ _ _ (so_down _ _ H')) as Hd. rewrite A, data_app in Hd. apply (app_inv_tail (data new)). rewrite Hd, <- app_assoc. f_equal.
  rewrite <- data_app, <- B. unfold waiting. rewrite fresh_not_sent; [done|]. rewrite B. apply Forall_app. split; [apply H|done].
Qed.

(** The first fragment has been sent and lost four times: the buffer is suspended. *)
Definition lost_events : list arq_event :=
  [EQueue true 0 (L2CAP_packet 40); ESlot 0; ELose; ESlot 2; ELose; ESlot 4; ELose; ESlot 6; ELose].
Definition lost_state : system := Eval vm_compute in match arq_run lost_events demo_link with Ok y => y | _ => demo_link end.
Definition lost_packet : bt_packet := Eval vm_compute in match current_ (tx (master lost_state)) with Some p => p | None => alloc 0 end.

Lemma arq_progress_witness :
  suspended_ (tx (master lost_state)) = true /\
  returns (arq_run (exchange 8 8 9 9 ++ exchange 10 10 11 11) lost_state) (fun y' => on_air y' = Idle /\
    (exists new, buf (master y') = tail (buf (master lost_state)) ++ new /\ accepted (master y') = accepted (master lost_state) ++ new) /\
    data (accepted (master lost_state)) = data (up_slave y') ++ data (tail (buf (master lost_state)))).
Proof.
  split; [reflexivity|].
  apply (arq_progress 10 11 demo_T demo_T DH1 DH1 0 0 [true] [true] lost_events lost_state lost_packet 10 10 11 11 8 8 9 9); try reflexivity.
  repeat constructor; cbn; try done; try lia.
Defined.
