(* ===== verification/BtFragment.v ===== *)
(** * Fragments of an L2CAP packet, and their reassembly

    LMPLink cuts an L2CAP packet into baseband packets (getAL2capPktFragment, in
    BtLink), each of a type that is chosen for its length; L2CAP::_reassemble
    (bluetooth/l2cap.cc) counts their bytes at the other end and passes the last
    one up with the length of the whole. *)
From S2P Require Import Prelude BtPacket BtLink BtArq.

(** * Definitions *)

(** The two fields of ConnectionHandle that reassembly keeps. *)
Record reassembly : Type := mkReassembly { pktLen : Z; pktRecvedLen : Z }.

(** _reassemble.  On the packet that flush() sends it frees what it returns, and
    sendUp goes on with it. *)
Definition _reassemble (p : bt_packet) (c : reassembly) : outcome (option bt_packet * reassembly) :=
  if l_ch p =? L_CH_L2CAP_START then
    if lh_length p + 4 <=? ph_length p then Ok (Some (p <| ch_size := lh_length p |>), mkReassembly (lh_length p) 0)
    else Ok (None, mkReassembly (lh_length p) (ph_length p))
  else if ph_length p =? 0 then Trap UseAfterFree
  else
    let n := pktRecvedLen c + ph_length p in
    if pktLen c + 4 <=? n then Ok (Some (p <| ch_size := pktLen c |>), mkReassembly (pktLen c) 0)
    else Ok (None, mkReassembly (pktLen c) n).

Fixpoint reassemble_all (l : list bt_packet) (c : reassembly) : outcome (list bt_packet * reassembly) :=
  match l with
  | [] => Ok ([], c)
  | p :: l => '(o, c) ← _reassemble p c; '(r, c) ← reassemble_all l c; Ok (option_list o ++ r, c)
  end.

(** The fragments that the link hands to the buffer until the packet that is being
    cut is done with, [n] at most. *)
Fixpoint cut (n : nat) (l : LMPLink) : outcome (list bt_packet * LMPLink) :=
  match n with
  | O => Ok ([], l)
  | S n =>
      '(o, l) ← take_fragment l;
      match o, _curL2capPkt l with
      | Some p, Some _ => '(r, l) ← cut n l; Ok (p :: r, l)
      | Some p, None => Ok ([p], l)
      | None, _ => Ok ([], l)
      end
  end.

(** What the packet carries. *)
Definition carries (p : bt_packet) : Z * Z * Z := (content p, lh_length p, opcode p).

(** The type of a fragment has room for its bytes. *)
Definition fits (p : bt_packet) : Prop := exists k, payload_size (type p) = Ok k /\ 0 < ph_length p <= k.

(** * Lemmas *)

(** The type that is chosen for [n] bytes has room for them, if the type of the
    link has. *)
Lemma variable_type_fits t n k : payload_size t = Ok k -> 0 < n <= k -> isCRCAclPkt t = true ->
  exists k', payload_size (variable_type t n) = Ok k' /\ n <= k'.
Proof.
  intros Hk Hn Ht. destruct t; try discriminate Ht; vm_compute in Hk; injection Hk as <-; unfold variable_type; cbn [is_type andb];
    repeat case_cond; (eexists; split; [vm_compute; reflexivity|lia]).
Qed.

(** One fragment. *)
Lemma fragment_next p l : isCRCAclPkt (pt l) = true -> 0 < _curL2capPkt_remain_len l -> 0 <= _fragno l ->
  exists f l', fragment p l = Ok (Some f, l') /\ carries f = carries p /\ fits f /\
    l_ch f = (if _fragno l =? 0 then L_CH_L2CAP_START else L_CH_L2CAP_CONT) /\ seqno f = _fragno l /\
    ph_length f <= _curL2capPkt_remain_len l /\
    l' = l <| _fragno := _fragno l + 1 |> <| _curL2capPkt_remain_len := _curL2capPkt_remain_len l - ph_length f |>
           <| _curL2capPkt := if ph_length f <? _curL2capPkt_remain_len l then Some f else None |>.
Proof.
  intros Ht Hr Hf. unfold fragment. destruct (payload_ok _ Ht) as (k & Ek & Hk). rewrite Ek, bind_Ok.
  set (n := if k <? _curL2capPkt_remain_len l then k else _curL2capPkt_remain_len l).
  assert (Hn : 0 < n <= k /\ n <= _curL2capPkt_remain_len l) by (unfold n; destruct (Z.ltb_spec k (_curL2capPkt_remain_len l)); lia).
  rewrite (int16_id n) by lia. clearbody n. destruct (size_ok _ n (variable_type_acl _ n Ht)) as (sz & ->). rewrite bind_Ok.
  destruct (variable_type_fits _ n k Ek ltac:(lia) Ht) as (k' & Ek' & Hk').
  assert (E : (_fragno l + 1 =? 1) = (_fragno l =? 0)) by lia.
  eexists _, _. split; [reflexivity|]. cbn. rewrite E.
  assert (E' : (0 <? _curL2capPkt_remain_len l - n) = (n <? _curL2capPkt_remain_len l)) by lia.
  destruct (_fragno l =? 0); cbn; rewrite E'; repeat (split; [done || lia || (exists k'; split; [done|cbn; lia])|]); done.
Qed.

(** The rest of a packet of which [recvd] bytes have been received. *)
Lemma cut_rest n : forall p l c, _curL2capPkt l = Some p -> isCRCAclPkt (pt l) = true -> 0 < _curL2capPkt_remain_len l ->
  1 <= _fragno l -> _curL2capPkt_remain_len l <= Z.of_nat n -> pktLen c = lh_length p ->
  pktRecvedLen c + _curL2capPkt_remain_len l = lh_length p + 4 ->
  exists fs l' r, cut n l = Ok (fs, l') /\ _curL2capPkt l' = None /\ _l2capQ l' = _l2capQ l /\ Forall fits fs /\
    reassemble_all fs c = Ok ([r], mkReassembly (lh_length p) 0) /\ carries r = carries p /\ ch_size r = lh_length p.
Proof.
  induction n as [|n IH]; intros p l c Ep Ht Hr Hf Hn Hc Hs; [lia|]. cbn [cut]. unfold take_fragment. rewrite Ep, Ep.
  destruct (fragment_next p l Ht Hr ltac:(lia)) as (f & l' & -> & Ec & Hfit & Ech & Eno & Hlen & El). rewrite bind_Ok.
  rewrite (proj2 (Z.eqb_neq (_fragno l) 0)) in Ech by lia.
  assert (Eh : lh_length f = lh_length p) by (by injection Ec). pose proof Hfit as (k & _ & Hk).
  destruct (ph_length f <? _curL2capPkt_remain_len l) eqn:Hlt; [apply Z.ltb_lt in Hlt|apply Z.ltb_ge in Hlt].
  - assert (Er : _reassemble f c = Ok (None, mkReassembly (pktLen c) (pktRecvedLen c + ph_length f))).
    { unfold _reassemble. rewrite Ech. cbn. rewrite (proj2 (Z.eqb_neq (ph_length f) 0)), (proj2 (Z.leb_gt _ _)) by lia. done. }
    destruct (IH f l' (mkReassembly (pktLen c) (pktRecvedLen c + ph_length f))) as (fs & l2 & r & E1 & E2 & E3 & E4 & E5 & E6 & E7);
      try solve [rewrite El; cbn; rewrite ?Eh; done || lia | cbn; congruence].
    assert (Ec' : _curL2capPkt l' = Some f) by (by rewrite El). rewrite Ec', E1. exists (f :: fs), l2, r. split; [done|]. split; [done|].
    split; [rewrite E3, El; done|]. split; [by constructor|]. cbn [reassemble_all]. rewrite Er, bind_Ok, E5. split; [cbn; by rewrite Eh|].
    by rewrite E6, E7.
  - assert (Ec' : _curL2capPkt l' = None) by (by rewrite El). rewrite Ec'. exists [f], l'. 
    exists (f <| ch_size := pktLen c |>). split; [done|]. split; [done|]. split; [by rewrite El|]. split; [by constructor|].
    split; [|by cbn; rewrite Hc]. cbn [reassemble_all]. unfold _reassemble. rewrite Ech. cbn.
    rewrite (proj2 (Z.eqb_neq (ph_length f) 0)), (proj2 (Z.leb_le _ _)) by lia. cbn. by rewrite Hc.
Qed.

(** * Properties *)

(** C16: an L2CAP packet [p] of any length, as L2CAPChannel::send leaves it (four
    bytes of header, and the length without them in the header), that is first in
    the queue of an ACL link of any packet type: the link cuts it into fragments
    that fit their types and takes it off the queue, and the other end, whatever it
    reassembled before, puts the fragments together into one packet with the same
    contents and the original length. *)
Theorem fragment_reassemble p q l c : isCRCAclPkt (pt l) = true -> _curL2capPkt l = None -> _l2capQ l = p :: q ->
  0 <= lh_length p -> ch_size p = lh_length p + 4 ->
  exists n fs l' r, cut n l = Ok (fs, l') /\ _curL2capPkt l' = None /\ _l2capQ l' = q /\ Forall fits fs /\
    reassemble_all fs c = Ok ([r], mkReassembly (lh_length p) 0) /\ carries r = carries p /\ ch_size r = lh_length p.
Proof.
  intros Ht Ec Eq Hl Hs. exists (S (Z.to_nat (ch_size p))). cbn [cut].
  set (l0 := l <| _l2capQ := q |> <| _curL2capPkt := Some p |> <| _curL2capPkt_remain_len := ch_size p |> <| _fragno := 0 |>).
  assert (E0 : take_fragment l = fragment p l0) by (unfold take_fragment; by rewrite Ec, Eq). rewrite E0.
  destruct (fragment_next p l0) as (f & l' & -> & Ecr & Hfit & Ech & Eno & Hlen & El); [done|cbn; lia|cbn; lia|]. rewrite bind_Ok.
  change (_fragno l0) with 0 in *. cbn in Ech. change (_curL2capPkt_remain_len l0) with (ch_size p) in *.
  assert (Eh : lh_length f = lh_length p) by (by injection Ecr). pose proof Hfit as (k & _ & Hk).
  destruct (ph_length f <? ch_size p) eqn:Hlt; [apply Z.ltb_lt in Hlt|apply Z.ltb_ge in Hlt].
  - assert (Er : _reassemble f c = Ok (None, mkReassembly (lh_length p) (ph_length f))).
    { unfold _reassemble. rewrite Ech. cbn. rewrite Eh, (proj2 (Z.leb_gt _ _)) by lia. done. }
    destruct (cut_rest (Z.to_nat (ch_size p)) f l' (mkReassembly (lh_length p) (ph_length f))) as (fs & l2 & r & E1 & E2 & E3 & E4 & E5 & E6 & E7);
      try solve [rewrite El; cbn; rewrite ?Eh; done || lia | cbn; congruence].
    assert (Ec' : _curL2capPkt l' = Some f) by (by rewrite El). rewrite Ec', E1. exists (f :: fs), l2, r. split; [done|]. split; [done|].
    split; [rewrite E3, El; done|]. split; [by constructor|]. cbn [reassemble_all]. rewrite Er, bind_Ok, E5. split; [cbn; by rewrite Eh|].
    by rewrite E6, E7.
  - assert (Ec' : _curL2capPkt l' = None) by (by rewrite El). rewrite Ec'. exists [f], l', (f <| ch_size := lh_length p |>).
    split; [done|]. split; [done|]. split; [by rewrite El|]. split; [by constructor|]. split; [|done].
    cbn [reassemble_all]. unfold _reassemble. rewrite Ech. cbn. rewrite Eh, (proj2 (Z.leb_le _ _)) by lia. done.
Qed.

(** 1000 bytes in DH5 packets: three fragments. *)
Definition demo_packet : bt_packet := (alloc 7) <| lh_length := 1000 |> <| ch_size := 1004 |>.
Definition demo_cut : LMPLink := (LMPLink_init DH5 0 []) <| _l2capQ := [demo_packet] |>.

Lemma fragment_reassemble_witness :
  exists n fs l' r, cut n demo_cut = Ok (fs, l') /\ _curL2capPkt l' = None /\ _l2capQ l' = [] /\ Forall fits fs /\
    reassemble_all fs (mkReassembly 0 0) = Ok ([r], mkReassembly 1000 0) /\ carries r = carries demo_packet /\ ch_size r = 1000.
Proof. apply (fragment_reassemble demo_packet [] demo_cut (mkReassembly 0 0)); done. Defined.

Example demo_cut_types : returns (cut 3 demo_cut) (fun '(fs, _) =>
  (fun f => (type f, ph_length f)) <$> fs = [(DH5, 339); (DH5, 339); (DH5, 326)]).
Proof. by vm_compute. Qed.

(** When flush() gives up a fragment, what follows of the packet is taken for
    a part of it, and the flush packet itself is used after it has been freed. *)
Example flush_packet_freed : (p ← flush_pkt; _reassemble p (mkReassembly 1000 339)) = Trap UseAfterFree.
Proof. by vm_compute. Qed.
