(* ===== verification/Arq16.v ===== *)
(** * The ARQ of an 802.16 connection

    wimax/arqstatus.cc, class Arqstatus (the sender's and the receiver's side of
    selective repeat), with what the MAC of a subscriber station does around it
    (wimax/mac802_16SS.cc): an SDU is cut into blocks (sendDown), blocks that
    arrive are put in order and made into SDUs again
    (process_mac_pdu_witharqfragpack, MAC PDUs with packing).  The base station
    has the same code.

    Sizes are those of the blocks: what a PDU adds to its first block for headers and
    takes off again at the receiver is left out, and so are an SDU that is refused
    because the queue is full, and the test that ARQ is enabled (it is).  A PDU that
    the receiver drops at random is one that does not arrive.

    A packet is copied whenever it is queued or sent, so packets are values, and a
    PacketQueue is a list (see PacketQueue for the linked list).  One connection:
    the list of packets [conn_q] is its queue. *)
From S2P Require Import Prelude.

(** * Definitions *)

Definition MAX_SEQ : Z := 2048.
Definition MAX_NUM_ACK : Z := 100.

(** enum fragment_status; the field [fc] of two bits holds its code. *)
Inductive fragment_status : Set := FRAG_NOFRAG | FRAG_LAST | FRAG_FIRST | FRAG_CONT.
Definition fc_code (f : fragment_status) : Z :=
  match f with FRAG_NOFRAG => 0 | FRAG_LAST => 1 | FRAG_FIRST => 2 | FRAG_CONT => 3 end.

(** A packet: the packing and the fragmentation subheaders, the size in the common
    header, and [uid] for the rest. *)
Record block : Type := mkBlock {
  pack_sn : Z;
  pack_fc : Z;
  frag_sn : Z;
  frag_fc : Z;
  b_size : Z;
  uid : Z }.

#[global] Instance eta_block : Eta block := fun p =>
  mkBlock (pack_sn p) (pack_fc p) (frag_sn p) (frag_fc p) (b_size p) (uid p).

(** The number of a block on a connection, with packing ([pk]) or without. *)
Definition seq_of (pk : bool) (p : block) : Z := if pk then pack_sn p else frag_sn p.

(** struct arq_fb_ie, and a packet with acknowledgements ([cid]: the one of the
    model's connection). *)
Record arq_fb_ie : Type := mkIe { ie_cid : Z; last : Z; ack_type : Z; fsn : Z }.
Record feedback : Type := mkFeedback { arq_ie : list arq_fb_ie; num_of_acks : Z }.

Record Arqstatus : Type := mkArq {
  ack_seq_ : Z;               (* u_int32_t *)
  ack_counter_ : Z;           (* u_int8_t *)
  arq_curr_seq_ : Z;          (* u_int32_t *)
  ack_period_ : Z;            (* u_int8_t *)
  arq_max_seq_ : Z;           (* u_int32_t *)
  arq_max_window_ : Z;        (* u_int32_t *)
  last_ack_sent_ : Z;         (* u_int32_t *)
  arq_trans_queue_ : list block;
  arq_retrans_queue_ : list block;
  arq_feedback_queue_ : list feedback }.

#[global] Instance eta_arq : Eta Arqstatus := fun a =>
  mkArq (ack_seq_ a) (ack_counter_ a) (arq_curr_seq_ a) (ack_period_ a) (arq_max_seq_ a) (arq_max_window_ a)
    (last_ack_sent_ a) (arq_trans_queue_ a) (arq_retrans_queue_ a) (arq_feedback_queue_ a).

(** The constructor, then setAckPeriod and setMaxWindow. *)
Definition Arqstatus_new (period window : Z) : Arqstatus := mkArq 0 0 0 period MAX_SEQ window 0 [] [] [].

(** ** The sender *)

Definition arqSend (pk : bool) (status : fragment_status) (p : block) (a : Arqstatus) : block * Arqstatus :=
  let p :=
    if pk then p <| pack_sn := arq_curr_seq_ a mod 2048 |> <| pack_fc := fc_code status |>
    else p <| frag_sn := arq_curr_seq_ a mod 2048 |> <| frag_fc := (fc_code status + 2) mod 4 - 2 |> in
  let n := arq_curr_seq_ a ⊕ 1 in
  let a := a <| arq_curr_seq_ := if n =? arq_max_seq_ a then 0 else n |> in
  (p, a <| arq_trans_queue_ := arq_trans_queue_ a ++ [p] |>).

(** Is a packet with the number of [ph] in the queue? *)
Definition queued (pk : bool) (ph : block) (q : list block) : bool :=
  existsb (fun p => seq_of pk p =? seq_of pk ph) q.

(** The loop of arqTimerHandler over the transmission queue. *)
Fixpoint requeue (pk : bool) (q : list block) (l : list block) (retrans : list block) : list block :=
  match l with
  | [] => retrans
  | ph :: l =>
      let dont_queue := queued pk ph q in
      let dont_queue_retrans := queued pk ph retrans in
      requeue pk q l (if negb dont_queue && negb dont_queue_retrans then retrans ++ [ph] else retrans)
  end.

Definition arqTimerHandler (pk : bool) (q : list block) (a : Arqstatus) : Arqstatus :=
  a <| arq_retrans_queue_ := requeue pk q (arq_trans_queue_ a) (arq_retrans_queue_ a) |>.

(** Does the element with the type [ty] and the number [recd] acknowledge [sn]?
    All of it is unsigned: the second disjunct never holds. *)
Definition acknowledges (ty recd sn window : Z) : bool :=
  (ty =? 1) && (((0 <=? recd ⊖ sn) && (recd ⊖ sn <? window)) || ((recd ⊖ sn <? 0) && ((recd ⊕ MAX_SEQ) ⊖ sn <? window)))
  || (ty =? 2) && (recd =? sn).

(** The loop of arqRecvFeedback over a queue. *)
Fixpoint release (pk : bool) (ty recd window : Z) (q : list block) : list block :=
  match q with
  | [] => []
  | ph :: q => if acknowledges ty recd (seq_of pk ph) window then release pk ty recd window q else ph :: release pk ty recd window q
  end.

Definition arqRecvFeedback (pk : bool) (ie : arq_fb_ie) (a : Arqstatus) : Arqstatus :=
  let recd := fsn ie in
  let a := if ack_type ie =? 1 then a <| ack_seq_ := recd |> else a in
  let a := a <| arq_trans_queue_ := release pk (ack_type ie) recd (arq_max_window_ a) (arq_trans_queue_ a) |> in
  a <| arq_retrans_queue_ := release pk (ack_type ie) recd (arq_max_window_ a) (arq_retrans_queue_ a) |>.

(** ** The receiver *)

(** [x] is ahead of [y], in the window; unsigned, as above. *)
Definition ahead (x y window : Z) : bool :=
  ((0 <? x ⊖ y) && (x ⊖ y <=? window)) || ((x ⊖ y <? 0) && ((x ⊕ MAX_SEQ) ⊖ y <=? window)).

(** Both receive functions: what [*inOrder], 1 at first, becomes. *)
Definition classify (s : Z) (a : Arqstatus) : Z * Arqstatus :=
  if negb (ack_seq_ a =? s) then (if ahead s (ack_seq_ a) (arq_max_window_ a) then 0 else 2, a)
  else
    let n := ack_seq_ a ⊕ 1 in
    (1, a <| ack_seq_ := if n =? arq_max_seq_ a then 0 else n |>).

Definition ie_of (cid ty seq : Z) : arq_fb_ie := mkIe cid 0 ty (seq mod 2048).
Definition empty_feedback : feedback := mkFeedback (replicate 100 (mkIe 0 0 0 0)) 0.

(** [gh->arq_ie[i] = ...]; past the end of the array it is a trap. *)
Definition put_ie (i : Z) (ie : arq_fb_ie) (f : feedback) : outcome feedback :=
  l ← awrite (arq_ie f) i ie; Ok (mkFeedback l (num_of_acks f)).

(** The last feedback packet, if there is room for [MAX_NUM_ACK] in it, and the
    packets before it. *)
Definition tail_feedback (q : list feedback) : option (list feedback * feedback) :=
  match reverse q with
  | f :: l => if num_of_acks f <=? MAX_NUM_ACK then Some (reverse l, f) else None
  | [] => None
  end.

Definition cumulative (cid : Z) (a : Arqstatus) : outcome Arqstatus :=
  let ie := ie_of cid 1 (ack_seq_ a ⊖ 1) in
  match tail_feedback (arq_feedback_queue_ a) with
  | Some (l, f) => f ← put_ie 0 ie f; Ok (a <| arq_feedback_queue_ := l ++ [f] |>)
  | None =>
      f ← put_ie 0 ie empty_feedback;
      Ok (a <| arq_feedback_queue_ := arq_feedback_queue_ a ++ [mkFeedback (arq_ie f) 1] |>)
  end.

(** The acknowledgement of a block that is out of order. *)
Definition add_selective (cid s : Z) (f : feedback) : outcome feedback :=
  f ← put_ie (num_of_acks f) (ie_of cid 2 s) f; Ok (mkFeedback (arq_ie f) (num_of_acks f + 1)).

Definition selective (cid s : Z) (a : Arqstatus) : outcome Arqstatus :=
  let a := a <| last_ack_sent_ := s |> in
  match tail_feedback (arq_feedback_queue_ a) with
  | Some (l, f) => f ← add_selective cid s f; Ok (a <| arq_feedback_queue_ := l ++ [f] |>)
  | None =>
      f ← put_ie 0 (ie_of cid 1 (ack_seq_ a ⊖ 1)) empty_feedback;
      f ← add_selective cid s (mkFeedback (arq_ie f) 1);
      Ok (a <| arq_feedback_queue_ := arq_feedback_queue_ a ++ [f] |>)
  end.

Definition arqReceive (pk : bool) (cid : Z) (p : block) (a : Arqstatus) : outcome (Z * Arqstatus) :=
  let s := seq_of pk p in
  let '(inOrder, a) := classify s a in
  let a := a <| ack_counter_ := u8 (ack_counter_ a + 1) |> in
  if ack_counter_ a =? ack_period_ a then
    let a := a <| ack_counter_ := 0 |> in
    if inOrder =? 1 then
      if ahead (ack_seq_ a) s (arq_max_window_ a) then a ← cumulative cid a; Ok (inOrder, a) else Ok (inOrder, a)
    else if inOrder =? 0 then a ← selective cid s a; Ok (inOrder, a)
    else Ok (inOrder, a)
  else Ok (inOrder, a).

Definition arqReceiveBufferTransfer (pk : bool) (cid : Z) (p : block) (a : Arqstatus) : outcome (Z * Arqstatus) :=
  let s := seq_of pk p in
  let '(inOrder, a) := classify s a in
  let a := a <| ack_counter_ := u8 (ack_counter_ a + 1) |> in
  if ack_counter_ a =? ack_period_ a then
    let a := a <| ack_counter_ := 0 |> in
    if (inOrder =? 1) && ahead (ack_seq_ a) s (arq_max_window_ a) then a ← cumulative cid a; Ok (inOrder, a)
    else Ok (inOrder, a)
  else Ok (inOrder, a).

(** A block of a PDU: in order, to be kept for later, or dropped. *)
Definition take_block (pk : bool) (cid : Z) (p : block) (a : Arqstatus) : outcome Arqstatus :=
  '(inOrder, a) ← arqReceive pk cid p a;
  Ok (if inOrder =? 0 then a <| arq_retrans_queue_ := arq_retrans_queue_ a ++ [p] |>
      else if inOrder =? 1 then a <| arq_trans_queue_ := arq_trans_queue_ a ++ [p] |>
      else a).

Fixpoint take_blocks (pk : bool) (cid : Z) (l : list block) (a : Arqstatus) : outcome Arqstatus :=
  match l with
  | [] => Ok a
  | p :: l => a ← take_block pk cid p a; take_blocks pk cid l a
  end.

(** The inner loop: blocks that follow one that was in order.  The iterator has
    passed [kept] and stands before [l]; the result is the queue. *)
Fixpoint transfer_run (pk : bool) (cid : Z) (kept l : list block) (a : Arqstatus) : outcome Arqstatus :=
  match l with
  | [] => Ok (a <| arq_retrans_queue_ := kept |>)
  | p :: l =>
      '(inOrder, a) ← arqReceiveBufferTransfer pk cid p a;
      if inOrder =? 2 then Ok (a <| arq_retrans_queue_ := kept ++ l |>)
      else if inOrder =? 0 then Ok (a <| arq_retrans_queue_ := kept ++ p :: l |>)
      else transfer_run pk cid kept l (a <| arq_trans_queue_ := arq_trans_queue_ a ++ [p] |>)
  end.

(** The loop from [secondary]; [true]: go to [primary], and start over. *)
Fixpoint transfer_pass (pk : bool) (cid : Z) (kept l : list block) (a : Arqstatus) : outcome (bool * Arqstatus) :=
  match l with
  | [] => Ok (false, a <| arq_retrans_queue_ := kept |>)
  | p :: l =>
      '(inOrder, a) ← arqReceiveBufferTransfer pk cid p a;
      if inOrder =? 2 then transfer_pass pk cid kept l a
      else if inOrder =? 0 then transfer_pass pk cid (kept ++ [p]) l a
      else
        a ← transfer_run pk cid kept l (a <| arq_trans_queue_ := arq_trans_queue_ a ++ [p] |>);
        Ok (true, a)
  end.

Definition transfer (pk : bool) (cid : Z) (a : Arqstatus) : outcome Arqstatus :=
  '(_, a) ← c_while fst (fun '(_, a) => transfer_pass pk cid [] (arq_retrans_queue_ a) a) (true, a);
  Ok a.

(** ** SDUs *)

(** sendDown: [n] blocks of the full size; [p] is the packet itself, whose
    subheader every call of arqSend overwrites. *)
Fixpoint send_full (pk : bool) (n : nat) (status : fragment_status) (p : block) (q : list block) (a : Arqstatus) : block * list block * Arqstatus :=
  match n with
  | O => (p, q, a)
  | S n => let '(p, a) := arqSend pk status p a in send_full pk n FRAG_CONT p (q ++ [p]) a
  end.

(** An SDU is cut into blocks of [arq_block_size_], [bs], that enter the queue [q] of
    the connection. *)
Definition send_sdu (pk : bool) (bs : Z) (p : block) (q : list block) (a : Arqstatus) : outcome (list block * Arqstatus) :=
  if bs =? 0 then Trap DivByZero else
  let packet_size := b_size p in
  let number_of_packs := Z.quot packet_size bs in
  let '(p, q, a) := send_full pk (Z.to_nat number_of_packs) FRAG_FIRST (p <| b_size := bs |>) q a in
  let p := p <| b_size := packet_size - number_of_packs * bs |> in
  let '(p, a) := arqSend pk (if nz number_of_packs then FRAG_LAST else FRAG_NOFRAG) p a in
  Ok (q ++ [p], a).

(** The inner loop that looks for the rest of an SDU: its size, if it is all there. *)
Fixpoint gather (seqno size : Z) (q : list block) : option Z :=
  match q with
  | [] => None
  | p :: q =>
      let next := Z.land (pack_sn p - seqno) 2047 =? 1 in
      if (pack_fc p =? fc_code FRAG_CONT) && next then gather (seqno + 1) (size + b_size p) q
      else if (pack_fc p =? fc_code FRAG_LAST) && next then Some (size + b_size p)
      else None
  end.

(** The do-while loop that takes the blocks of an SDU off the queue. *)
Fixpoint drop_sdu (q : list block) : list block :=
  match q with
  | [] => []
  | _ :: q => match q with
              | [] => []
              | p :: _ => if negb (pack_fc p =? fc_code FRAG_FIRST) then drop_sdu q else q
              end
  end.

(** One turn of the loop over the blocks in order; [up] is what has been handed to
    the upper target. *)
Definition sdu_step (s : bool * (list block * list block)) : outcome (bool * (list block * list block)) :=
  let '(q, up) := s.2 in
  match q with
  | [] => Ok (false, (q, up))
  | p :: rest =>
      if pack_fc p =? fc_code FRAG_FIRST then
        match gather (pack_sn p) (b_size p) rest with
        | Some size => let q := drop_sdu q in Ok (negb (match q with [] => true | _ => false end), (q, up ++ [p <| b_size := size |>]))
        | None => Ok (false, (q, up))
        end
      else if pack_fc p =? fc_code FRAG_NOFRAG then Ok (true, (rest, up ++ [p]))
      else Trap AssertFail
  end.

Definition reassemble (q up : list block) : outcome (list block * list block) :=
  '(_, r) ← c_while fst sdu_step (true, (q, up)); Ok r.

(** process_mac_pdu_witharqfragpack on the blocks of a PDU. *)
Definition receive_pdu (cid : Z) (l : list block) (a : Arqstatus) (up : list block) : outcome (Arqstatus * list block) :=
  a ← take_blocks true cid l a;
  a ← transfer true cid a;
  '(q, up) ← reassemble (arq_trans_queue_ a) up;
  Ok (a <| arq_trans_queue_ := q |>, up).

(** The acknowledgements of a packet, for this connection. *)
Fixpoint take_acks (cid : Z) (n : nat) (i : Z) (f : feedback) (a : Arqstatus) : outcome Arqstatus :=
  match n with
  | O => Ok a
  | S n =>
      ie ← aread (arq_ie f) i;
      take_acks cid n (i + 1) f (if ie_cid ie =? cid then arqRecvFeedback true ie a else a)
  end.

(** ** A connection *)

(** The two ends, and all that was ever transmitted; [sdus] records the SDUs. *)
Record connection : Type := mkConnection {
  conn_q : list block;
  snd_ : Arqstatus;
  rcv_ : Arqstatus;
  air : list block;
  acks : list feedback;
  up : list block;
  sdus : list block }.

#[global] Instance eta_connection : Eta connection := fun y =>
  mkConnection (conn_q y) (snd_ y) (rcv_ y) (air y) (acks y) (up y) (sdus y).

(** ** The scheduler

    WimaxScheduler::transfer_packets_with_fragpackarq: a PDU holds the
    block it has looked at first, retransmissions before the others, and those that
    follow as long as they fit. *)

(** The tests for a block outside the sender's window: the one on the first block of
    a PDU, and the one on the others.  The operands are of type int. *)
Definition first_outside (seqno : Z) (a : Arqstatus) : bool :=
  (0 <? seqno - ack_seq_ a) && (arq_max_window_ a <=? seqno - ack_seq_ a)
  || (seqno - ack_seq_ a <? 0) && (arq_max_window_ a <=? seqno + arq_max_seq_ a - ack_seq_ a).
Definition next_outside (seqno : Z) (a : Arqstatus) : bool :=
  (0 <? seqno - ack_seq_ a) && (arq_max_window_ a <? seqno - ack_seq_ a)
  || (seqno - ack_seq_ a <? 0) && (arq_max_window_ a <? seqno + arq_max_seq_ a - ack_seq_ a).

(** The next block, and the connection when it has been taken and sent. *)
Definition next_block (y : connection) : option (block * connection) :=
  match arq_retrans_queue_ (snd_ y), conn_q y with
  | p :: l, _ => Some (p, y <| snd_ := (snd_ y) <| arq_retrans_queue_ := l |> |> <| air := air y ++ [p] |>)
  | [], p :: q => Some (p, y <| conn_q := q |> <| air := air y ++ [p] |>)
  | [], [] => None
  end.

(** The loop over the blocks that follow the first, [n] of which fit. *)
Fixpoint xmit_next (n : nat) (y : connection) : connection :=
  match n, next_block y with
  | S n, Some (p, y') => if next_outside (pack_sn p) (snd_ y) then y else xmit_next n y'
  | _, _ => y
  end.

(** A PDU: nothing is sent when the first block is outside the window. *)
Definition xmit_pdu (n : nat) (y : connection) : connection :=
  match next_block y with
  | Some (p, y') => if first_outside (pack_sn p) (snd_ y) then y else xmit_next n y'
  | None => y
  end.

(** An SDU is sent; the timer; the scheduler sends a PDU that has room for [n] blocks
    after the first; a PDU with some of the blocks that were transmitted arrives;
    the scheduler takes a packet with acknowledgements; one arrives.  What was
    transmitted may arrive never, several times, in any order. *)
Inductive warq_event : Type :=
  | ESdu (p : block)
  | ETimer
  | EXmit (n : nat)
  | ERecv (is_ : list nat)
  | ESendFb
  | EFb (i : nat).

Definition warq_step (cid bs : Z) (e : warq_event) (y : connection) : outcome connection :=
  match e with
  | ESdu p =>
      '(q, a) ← send_sdu true bs p (conn_q y) (snd_ y);
      Ok (y <| conn_q := q |> <| snd_ := a |> <| sdus := sdus y ++ [p] |>)
  | ETimer => Ok (y <| snd_ := arqTimerHandler true (conn_q y) (snd_ y) |>)
  | EXmit n => Ok (xmit_pdu n y)
  | ERecv is_ =>
      '(a, u) ← receive_pdu cid (omap (fun i => air y !! i) is_) (rcv_ y) (up y);
      Ok (y <| rcv_ := a |> <| up := u |>)
  | ESendFb =>
      match arq_feedback_queue_ (rcv_ y) with
      | [] => Ok y
      | f :: l => Ok (y <| rcv_ := (rcv_ y) <| arq_feedback_queue_ := l |> |> <| acks := acks y ++ [f] |>)
      end
  | EFb i =>
      match acks y !! i with
      | None => Ok y
      | Some f => a ← take_acks cid (Z.to_nat (num_of_acks f)) 0 f (snd_ y); Ok (y <| snd_ := a |>)
      end
  end.

Fixpoint warq_run (cid bs : Z) (es : list warq_event) (y : connection) : outcome connection :=
  match es with
  | [] => Ok y
  | e :: es => y ← warq_step cid bs e y; warq_run cid bs es y
  end.

Definition new_connection (period window : Z) : connection :=
  mkConnection [] (Arqstatus_new period window) (Arqstatus_new period window) [] [] [] [].
