(* ===== verification/Arq16Ok.v ===== *)
(** * The blocks of SDUs, and the receiver of 802.16 ARQ

    As long as the numbers of the blocks do not wrap: how SDUs are cut into blocks,
    and what the receiver holds after any blocks have arrived, lost, repeated or
    reordered as they may be. *)
From S2P Require Import Prelude Arq16.

(** * Definitions *)

(** The SDUs that are cut into two blocks or more: reassembly drops the others when
    they follow one of these. *)
Definition large (bs : Z) (p : block) : Prop := bs <= b_size p.

(** The block of an SDU with the number [n], the status [f] and [s] bytes. *)
Definition piece (p : block) (n s : Z) (f : fragment_status) : block :=
  p <| b_size := s |> <| pack_sn := n |> <| pack_fc := fc_code f |>.

(** The blocks of an SDU, and of a list of SDUs, from the number [n] on. *)
Definition full_blocks (bs : Z) (p : block) : Z := Z.quot (b_size p) bs.
Definition middle (bs : Z) (p : block) (n : Z) : list block :=
  (fun i => piece p (n + i) bs FRAG_CONT) <$> seqZ 1 (full_blocks bs p - 1).
Definition pieces (bs : Z) (p : block) (n : Z) : list block :=
  piece p n bs FRAG_FIRST :: middle bs p n ++ [piece p (n + full_blocks bs p) (b_size p - full_blocks bs p * bs) FRAG_LAST].
Fixpoint stream (bs : Z) (n : Z) (ps : list block) : list block :=
  match ps with
  | [] => []
  | p :: ps => pieces bs p n ++ stream bs (n + full_blocks bs p + 1) ps
  end.

(** What the upper layers see of an SDU. *)
Definition sdu_data (p : block) : Z * Z := (uid p, b_size p).

(** * Lemmas *)

(** ** Numbers *)

Lemma ahead_eq x y w : 0 <= x < 4096 -> 0 <= y < 4096 -> 0 <= w < 4096 -> ahead x y w = (y <? x) && (x - y <=? w).
Proof.
  intros Hx Hy Hw. unfold ahead, u32, MAX_SEQ. destruct (Z.ltb_spec y x) as [H|H].
  - rewrite Z.mod_small by lia. rewrite (proj2 (Z.ltb_lt 0 (x - y))), (proj2 (Z.ltb_ge (x - y) 0)) by lia. cbn. by rewrite orb_false_r.
  - pose proof (Z.mod_pos_bound (x - y) 4294967296 ltac:(lia)) as Hm. rewrite (proj2 (Z.ltb_ge ((x - y) mod 4294967296) 0)) by lia.
    cbn [andb orb]. rewrite orb_false_r. destruct (Z.eq_dec x y) as [->|E]; [by rewrite Z.sub_diag|].
    replace ((x - y) mod 4294967296) with (x - y + 4294967296) by (apply (Z.mod_unique _ _ (-1)); lia).
    rewrite (proj2 (Z.leb_gt _ w)) by lia. by rewrite andb_false_r.
Qed.

Lemma acknowledges_inv ty recd sn w : 0 <= recd < 4096 -> 0 <= sn < 4096 -> 0 <= w < 4096 ->
  acknowledges ty recd sn w = true -> (ty = 1 /\ sn <= recd /\ recd - sn < w) \/ (ty = 2 /\ recd = sn).
Proof.
  intros Hr Hs Hw. unfold acknowledges, u32. intros H. apply orb_prop in H as [H|H]; apply andb_prop in H as [H1 H2]; [left|right; lia].
  split; [lia|]. pose proof (Z.mod_pos_bound (recd - sn) 4294967296 ltac:(lia)) as Hm.
  rewrite (proj2 (Z.ltb_ge ((recd - sn) mod 4294967296) 0)) in H2 by lia. rewrite orb_false_r in H2. apply andb_prop in H2 as [_ H2].
  destruct (Z.le_gt_cases sn recd) as [H|H]; [rewrite Z.mod_small in H2 by lia; lia|].
  replace ((recd - sn) mod 4294967296) with (recd - sn + 4294967296) in H2 by (apply (Z.mod_unique _ _ (-1)); lia). lia.
Qed.

(** ** The blocks of the SDUs *)

Section Stream.
Context (bs : Z) (Hbs : 0 < bs).

Lemma full_pos p : large bs p -> 1 <= full_blocks bs p.
Proof. intros H. unfold large, full_blocks in *. rewrite Z.quot_div_nonneg by lia. apply Z.div_le_lower_bound; lia. Qed.

Lemma pieces_length p n : large bs p -> Z.of_nat (length (pieces bs p n)) = full_blocks bs p + 1.
Proof.
  intros H. pose proof (full_pos p H). unfold pieces, middle. cbn [length]. rewrite length_app, length_fmap, length_seqZ. cbn [length]. lia.
Qed.

Lemma pieces_sn p n i q : large bs p -> pieces bs p n !! i = Some q -> pack_sn q = n + Z.of_nat i.
Proof.
  intros H Hi. pose proof (full_pos p H) as Hf. unfold pieces in Hi. destruct i as [|i]; [injection Hi as <-; cbn; lia|].
  cbn [lookup list_lookup] in Hi. change ((middle bs p n ++ [piece p (n + full_blocks bs p) (b_size p - full_blocks bs p * bs) FRAG_LAST]) !! i = Some q) in Hi.
  assert (Hm : length (middle bs p n) = Z.to_nat (full_blocks bs p - 1)) by (unfold middle; by rewrite length_fmap, length_seqZ).
  apply lookup_app_Some in Hi as [Hi|[Hl Hi]].
  - unfold middle in Hi. apply list_lookup_fmap_Some in Hi as (k & -> & Hk). apply lookup_seqZ in Hk as [-> Hk]. cbn. lia.
  - apply list_lookup_singleton_Some in Hi as [Hi <-]. cbn. lia.
Qed.

Lemma stream_app n ps qs : Forall (large bs) ps ->
  stream bs n (ps ++ qs) = stream bs n ps ++ stream bs (n + Z.of_nat (length (stream bs n ps))) qs.
Proof.
  intros H. revert n. induction H as [|p ps Hp _ IH]; intros n; cbn [app stream].
  { cbn [length]. by replace (n + Z.of_nat 0) with n by lia. }
  rewrite IH, <- app_assoc. do 2 f_equal. f_equal. rewrite length_app, Nat2Z.inj_add, (pieces_length p n Hp). lia.
Qed.

Lemma stream_sn ps n i q : Forall (large bs) ps -> stream bs n ps !! i = Some q -> pack_sn q = n + Z.of_nat i.
Proof.
  intros H. revert n i. induction H as [|p ps Hp _ IH]; intros n i Hi; [done|]. cbn [stream] in Hi.
  apply lookup_app_Some in Hi as [Hi|[Hl Hi]]; [by apply (pieces_sn p)|]. pose proof (pieces_length p n Hp). apply IH in Hi. lia.
Qed.

(** The block with a number is the one at its place. *)
Lemma stream_at ps q : Forall (large bs) ps -> q ∈ stream bs 0 ps ->
  0 <= pack_sn q < Z.of_nat (length (stream bs 0 ps)) /\ stream bs 0 ps !! Z.to_nat (pack_sn q) = Some q.
Proof.
  intros H Hq. apply list_elem_of_lookup in Hq as [i Hi]. pose proof (stream_sn ps 0 i q H Hi) as E. apply lookup_lt_Some in Hi as Hl.
  split; [lia|]. by replace (Z.to_nat (pack_sn q)) with i by lia.
Qed.

(** ** Sending *)

Definition numbered (p : block) (n : Z) (f : fragment_status) : block := p <| pack_sn := n |> <| pack_fc := fc_code f |>.

Lemma arqSend_ok st p a : arq_max_seq_ a = 2048 -> 0 <= arq_curr_seq_ a < 2047 ->
  arqSend true st p a = (numbered p (arq_curr_seq_ a) st,
    a <| arq_curr_seq_ := arq_curr_seq_ a + 1 |> <| arq_trans_queue_ := arq_trans_queue_ a ++ [numbered p (arq_curr_seq_ a) st] |>).
Proof.
  intros Hm Hc. unfold arqSend, numbered. rewrite (Z.mod_small (arq_curr_seq_ a) 2048) by lia. rewrite u32_id by lia.
  rewrite Hm, (proj2 (Z.eqb_neq _ 2048)) by lia. done.
Qed.

Lemma numbered_twice p n f m g : numbered (numbered p n f) m g = numbered p m g.
Proof. done. Qed.

Definition sent (l : list block) (a : Arqstatus) : Arqstatus :=
  a <| arq_curr_seq_ := arq_curr_seq_ a + Z.of_nat (length l) |> <| arq_trans_queue_ := arq_trans_queue_ a ++ l |>.

Lemma sent_app l k a : sent k (sent l a) = sent (l ++ k) a.
Proof. unfold sent. cbn. rewrite length_app, app_assoc. f_equal. lia. Qed.

Lemma sent_nil a : sent [] a = a.
Proof. unfold sent. cbn [length]. rewrite app_nil_r, Z.add_0_r. by destruct a. Qed.

(** [q] is [p] up to the subheader. *)
Definition renumbered (p q : block) : Prop := q = p \/ exists n f, q = numbered p n f.

Lemma renumbered_eq p q n f : renumbered p q -> numbered q n f = numbered p n f.
Proof. intros [E|(m & g & E)]; subst q; reflexivity. Qed.

Lemma renumbered_trans p n f q : renumbered (numbered p n f) q -> renumbered p q.
Proof. intros [E|(m & g & E)]; subst q; right; eauto. Qed.

Lemma send_conts n : forall p q a, arq_max_seq_ a = 2048 -> 0 <= arq_curr_seq_ a -> arq_curr_seq_ a + Z.of_nat n < 2048 ->
  let l := (fun i => numbered p i FRAG_CONT) <$> seqZ (arq_curr_seq_ a) (Z.of_nat n) in
  exists p', send_full true n FRAG_CONT p q a = (p', q ++ l, sent l a) /\ renumbered p p'.
Proof.
  induction n as [|n IH]; intros p q a Hm Hc Hn; cbv zeta; cbn [send_full].
  - exists p. split; [|by left]. change (seqZ _ (Z.of_nat 0)) with (@nil Z). cbn [fmap list_fmap]. by rewrite app_nil_r, sent_nil.
  - rewrite arqSend_ok by (done || lia). change (a <| arq_curr_seq_ := _ |> <| arq_trans_queue_ := _ |>) with (sent [numbered p (arq_curr_seq_ a) FRAG_CONT] a).
    destruct (IH (numbered p (arq_curr_seq_ a) FRAG_CONT) (q ++ [numbered p (arq_curr_seq_ a) FRAG_CONT]) (sent [numbered p (arq_curr_seq_ a) FRAG_CONT] a))
      as (p' & E & Hp'); [done|cbn; lia|cbn; lia|].
    exists p'. split; [|by eapply renumbered_trans]. rewrite E. rewrite (seqZ_cons (arq_curr_seq_ a)) by lia. cbn [fmap list_fmap].
    rewrite <- app_assoc, sent_app. cbn [app]. change (arq_curr_seq_ (sent _ a)) with (arq_curr_seq_ a + 1).
    replace (Z.pred (Z.of_nat (S n))) with (Z.of_nat n) by lia. done.
Qed.

Lemma send_sdu_ok p q a : large bs p -> arq_max_seq_ a = 2048 -> 0 <= arq_curr_seq_ a ->
  arq_curr_seq_ a + full_blocks bs p + 1 < 2048 ->
  send_sdu true bs p q a = Ok (q ++ pieces bs p (arq_curr_seq_ a), sent (pieces bs p (arq_curr_seq_ a)) a).
Proof.
  intros Hp Hm Hc Hn. pose proof (full_pos p Hp) as Hf. unfold send_sdu. rewrite (proj2 (Z.eqb_neq bs 0)) by lia.
  fold (full_blocks bs p). cbv zeta.
  destruct (Z.to_nat (full_blocks bs p)) as [|n] eqn:En; [lia|]. cbn [send_full].
  rewrite arqSend_ok by (done || lia). change (a <| arq_curr_seq_ := _ |> <| arq_trans_queue_ := _ |>) with (sent [numbered (p <| b_size := bs |>) (arq_curr_seq_ a) FRAG_FIRST] a).
  set (p0 := numbered (p <| b_size := bs |>) (arq_curr_seq_ a) FRAG_FIRST).
  destruct (send_conts n p0 (q ++ [p0]) (sent [p0] a)) as (p' & -> & Hp'); [done|cbn; lia|cbn; lia|].
  set (l := (fun i => numbered p0 i FRAG_CONT) <$> _).
  assert (El : l = middle bs p (arq_curr_seq_ a)).
  { unfold l, middle. change (arq_curr_seq_ (sent [p0] a)) with (arq_curr_seq_ a + 1). replace (full_blocks bs p - 1) with (Z.of_nat n) by lia.
    apply list_eq. intros i. rewrite !list_lookup_fmap. destruct (decide (i < n)%nat).
    - rewrite !lookup_seqZ_lt by lia. replace (arq_curr_seq_ a + 1 + Z.of_nat i) with (arq_curr_seq_ a + (1 + Z.of_nat i)) by lia. reflexivity.
    - rewrite !lookup_seqZ_ge by lia. done. }
  assert (Hll : Z.of_nat (length l) = full_blocks bs p - 1) by (rewrite El; unfold middle; rewrite length_fmap, length_seqZ; lia).
  rewrite sent_app. set (b := sent ([p0] ++ l) a).
  assert (Hb : arq_curr_seq_ b = arq_curr_seq_ a + full_blocks bs p).
  { unfold b, sent. cbn [arq_curr_seq_ set_field]. rewrite length_app. cbn [length]. lia. }
  rewrite arqSend_ok; [|done|lia]. rewrite Hb. unfold nz. rewrite (proj2 (Z.eqb_neq (full_blocks bs p) 0)) by lia. cbn [negb].
  set (e := numbered _ _ FRAG_LAST).
  assert (Ee : e = piece p (arq_curr_seq_ a + full_blocks bs p) (b_size p - full_blocks bs p * bs) FRAG_LAST).
  { unfold e. destruct Hp' as [E|(m & g & E)]; subst p'; reflexivity. }
  assert (Es : forall x, x = e -> b <| arq_curr_seq_ := arq_curr_seq_ a + full_blocks bs p + 1 |> <| arq_trans_queue_ := arq_trans_queue_ b ++ [x] |> = sent [x] b).
  { intros x _. unfold sent. cbn [length]. by rewrite Hb. }
  rewrite (Es e eq_refl). unfold b. rewrite sent_app. unfold pieces. rewrite <- El, <- Ee, <- !app_assoc.
  reflexivity.
Qed.
End Stream.

(** ** Receiving *)

(** [i] has arrived at a receiver that expects [k] and keeps the blocks [R]. *)
Definition got (R : list block) (k i : Z) : Prop := i < k \/ exists p, p ∈ R /\ pack_sn p = i.

(** An acknowledgement that is true.  2047 is what a cumulative one holds before the
    first block is in order. *)
Definition ie_ok (R : list block) (k : Z) (ie : arq_fb_ie) : Prop :=
  0 <= fsn ie < 2048 /\ ((ack_type ie = 1 /\ (fsn ie < k \/ fsn ie = 2047)) \/ (ack_type ie = 2 /\ got R k (fsn ie))).

Definition fb_ok (R : list block) (k n : Z) (f : feedback) : Prop :=
  length (arq_ie f) = 100%nat /\ 0 <= num_of_acks f <= n /\
  forall j ie, Z.of_nat j < num_of_acks f -> arq_ie f !! j = Some ie -> ie_ok R k ie.

(** The blocks of [S] are numbered from 0. *)
Definition in_place (S : list block) : Prop :=
  forall p, p ∈ S -> 0 <= pack_sn p < Z.of_nat (length S) /\ S !! Z.to_nat (pack_sn p) = Some p.

(** The receiver: [log] has left its queue of blocks in order, [R] is what it keeps
    for later, and it has had [n] blocks since its feedback was sent. *)
Record rcv_ok (S : list block) (w : Z) (log R : list block) (n : Z) (a : Arqstatus) : Prop := mkRcvOk {
  rc_place : in_place S;
  rc_room : 0 < w /\ Z.of_nat (length S) + w <= 2048;
  rc_conf : arq_max_seq_ a = 2048 /\ arq_max_window_ a = w;
  rc_seq : 0 <= ack_seq_ a <= Z.of_nat (length S);
  rc_log : log ++ arq_trans_queue_ a = take (Z.to_nat (ack_seq_ a)) S;
  rc_buf : Forall (fun p => p ∈ S /\ pack_sn p <= ack_seq_ a + w) R;
  rc_fb : arq_feedback_queue_ a = [] \/ exists f, arq_feedback_queue_ a = [f] /\ fb_ok R (ack_seq_ a) n f }.

(** What has arrived stays so. *)
Definition grows (R : list block) (k : Z) (R' : list block) (k' : Z) : Prop :=
  k <= k' /\ forall i, got R k i -> got R' k' i.

Lemma grows_refl R k : grows R k R k.
Proof. by split. Qed.
Lemma grows_trans R1 k1 R2 k2 R3 k3 : grows R1 k1 R2 k2 -> grows R2 k2 R3 k3 -> grows R1 k1 R3 k3.
Proof. intros [H1 H2] [H3 H4]. split; [lia|auto]. Qed.
Lemma grows_add R k p : grows R k (R ++ [p]) k.
Proof.
  split; [done|]. intros i [H|(q & H & E)]; [by left|right]. exists q. split; [|done]. apply elem_of_app. by left.
Qed.
Lemma grows_seq R k : grows R k R (k + 1).
Proof. split; [lia|]. intros i [H|H]; [left; lia|by right]. Qed.
Lemma grows_drop l1 l2 p k : pack_sn p < k -> grows (l1 ++ p :: l2) k (l1 ++ l2) k.
Proof.
  intros Hp. split; [done|]. intros i [H|(q & H & E)]; [by left|]. apply elem_of_app in H as [H|H].
  - right. exists q. split; [|done]. apply elem_of_app. by left.
  - apply elem_of_cons in H as [->|H]; [left; lia|]. right. exists q. split; [|done]. apply elem_of_app. by right.
Qed.

Lemma ie_ok_grows R k R' k' ie : grows R k R' k' -> ie_ok R k ie -> ie_ok R' k' ie.
Proof.
  intros [H1 H2] [Hf H]. split; [done|]. destruct H as [[Ht [H|H]]|[Ht H]]; [left; split; [done|left; lia]|left; by split; [|right]|right; auto].
Qed.
Lemma fb_ok_grows R k R' k' n m f : grows R k R' k' -> n <= m -> fb_ok R k n f -> fb_ok R' k' m f.
Proof. intros Hg Hn (H1 & H2 & H3). split; [done|]. split; [lia|]. intros j ie Hj Hi. eapply ie_ok_grows; eauto. Qed.

Definition fbs_ok (R : list block) (k n : Z) (q : list feedback) : Prop := q = [] \/ exists f, q = [f] /\ fb_ok R k n f.
Lemma fbs_ok_grows R k R' k' n m q : grows R k R' k' -> n <= m -> fbs_ok R k n q -> fbs_ok R' k' m q.
Proof. intros Hg Hn [H|(f & H & Hf)]; [by left|right]. exists f. split; [done|]. eapply fb_ok_grows; eauto. Qed.

(** Writing an acknowledgement. *)
Lemma put_ie_ok R k n f i ie : fb_ok R k n f -> 0 <= i <= num_of_acks f -> i < 100 -> ie_ok R k ie ->
  exists f', put_ie i ie f = Ok f' /\ length (arq_ie f') = 100%nat /\ num_of_acks f' = num_of_acks f /\
    forall j ie', Z.of_nat j < num_of_acks f \/ Z.of_nat j = i -> arq_ie f' !! j = Some ie' -> ie_ok R k ie'.
Proof.
  intros (H1 & H2 & H3) Hi Hi' Hie. unfold put_ie. rewrite awrite_ok by lia. rewrite bind_Ok. eexists. split; [reflexivity|]. cbn.
  split; [by rewrite length_insert|]. split; [done|]. intros j ie' Hj Hl. apply list_lookup_insert_Some in Hl as [(Ej & Ev & _)|[Hne Hl]]; [by subst ie'|].
  destruct Hj as [Hj|Hj]; [by eapply H3|lia].
Qed.

Lemma empty_feedback_ok R k : fb_ok R k 0 empty_feedback.
Proof. split; [done|]. split; [done|]. intros j ie Hj. cbn in Hj. lia. Qed.

Lemma tail_feedback_one f n R k : fb_ok R k n f -> n <= 100 -> tail_feedback [f] = Some ([], f).
Proof. intros (_ & H & _) Hn. unfold tail_feedback, MAX_NUM_ACK. cbn. by rewrite (proj2 (Z.leb_le _ _)) by lia. Qed.

(** The sequence number of the last block in order, or 2047. *)
Lemma cumulative_ie R k cid : 0 <= k < 2048 -> ie_ok R k (ie_of cid 1 (k ⊖ 1)).
Proof.
  intros Hk. unfold ie_of, ie_ok. cbn. split; [apply Z.mod_pos_bound; lia|]. left. split; [done|].
  destruct (Z.eq_dec k 0) as [->|E]; [by right|left]. rewrite u32_id by lia. rewrite Z.mod_small by lia. lia.
Qed.

Lemma cumulative_ok R n cid a : 0 <= ack_seq_ a < 2048 -> 1 <= n <= 100 -> fbs_ok R (ack_seq_ a) n (arq_feedback_queue_ a) ->
  returns (cumulative cid a) (fun a' => exists q, a' = a <| arq_feedback_queue_ := q |> /\ fbs_ok R (ack_seq_ a) n q).
Proof.
  intros Hk Hn H. unfold cumulative. pose proof (cumulative_ie R (ack_seq_ a) cid Hk) as Hie. destruct H as [->|(f & -> & Hf)].
  - cbn [tail_feedback reverse rev_append]. destruct (put_ie_ok R (ack_seq_ a) 0 empty_feedback 0 _ (empty_feedback_ok R _) ltac:(cbn; lia) ltac:(lia) Hie) as (f & E & H1 & H2 & H3).
    change (tail_feedback []) with (@None (list feedback * feedback)). cbv iota. rewrite E, bind_Ok. apply returns_Ok. eexists. split; [reflexivity|]. right. eexists. split; [reflexivity|].
    split; [done|]. split; [cbn; lia|]. cbn. intros j ie Hj. apply H3. right. lia.
  - rewrite (tail_feedback_one f n R (ack_seq_ a)) by (done || lia). pose proof Hf as (_ & Hn0 & _).
    destruct (put_ie_ok R (ack_seq_ a) n f 0 _ Hf ltac:(lia) ltac:(lia) Hie) as (f' & E & H1 & H2 & H3).
    rewrite E, bind_Ok. apply returns_Ok. eexists. split; [reflexivity|]. right. eexists. split; [reflexivity|].
    split; [done|]. split; [lia|]. intros j ie Hj. apply H3. left. lia.
Qed.

(** The number of the block itself is acknowledged next. *)
Lemma add_selective_ok R k n cid s f : fb_ok R k n f -> n < 100 -> 0 <= s < 2048 -> got R k s ->
  returns (add_selective cid s f) (fb_ok R k (n + 1)).
Proof.
  intros Hf Hn Hs Hg. unfold add_selective. pose proof Hf as (_ & Hn0 & _).
  assert (Hie : ie_ok R k (ie_of cid 2 s)).
  { unfold ie_of, ie_ok. cbn. rewrite Z.mod_small by lia. split; [done|]. by right. }
  destruct (put_ie_ok R k n f (num_of_acks f) _ Hf ltac:(lia) ltac:(lia) Hie) as (f' & E & H1 & H2 & H3).
  rewrite E, bind_Ok. apply returns_Ok. split; [done|]. split; [cbn; lia|]. cbn. intros j ie Hj. apply H3. lia.
Qed.

Lemma selective_ok R n cid s a : 0 <= ack_seq_ a < 2048 -> 1 <= n < 100 -> fbs_ok R (ack_seq_ a) n (arq_feedback_queue_ a) ->
  0 <= s < 2048 -> got R (ack_seq_ a) s ->
  returns (selective cid s a) (fun a' => exists q, a' = a <| last_ack_sent_ := s |> <| arq_feedback_queue_ := q |> /\ fbs_ok R (ack_seq_ a) (n + 1) q).
Proof.
  intros Hk Hn H Hs Hg. unfold selective. cbn [arq_feedback_queue_ ack_seq_ set_field].
  pose proof (cumulative_ie R (ack_seq_ a) cid Hk) as Hie. destruct H as [->|(f & -> & Hf)].
  - change (tail_feedback []) with (@None (list feedback * feedback)). cbv iota.
    destruct (put_ie_ok R (ack_seq_ a) 0 empty_feedback 0 _ (empty_feedback_ok R _) ltac:(cbn; lia) ltac:(lia) Hie) as (f & E & H1 & H2 & H3).
    rewrite E, bind_Ok. assert (Hf : fb_ok R (ack_seq_ a) n (mkFeedback (arq_ie f) 1)).
    { split; [done|]. split; [cbn; lia|]. cbn. intros j ie Hj. apply H3. right. lia. }
    eapply returns_bind; [by apply (add_selective_ok R (ack_seq_ a) n); try lia|]. intros f' Hf'. apply returns_Ok.
    eexists. split; [reflexivity|]. right. by exists f'.
  - rewrite (tail_feedback_one f n R (ack_seq_ a)) by (done || lia).
    eapply returns_bind; [by apply (add_selective_ok R (ack_seq_ a) n); try lia|]. intros f' Hf'. apply returns_Ok.
    eexists. split; [reflexivity|]. right. by exists f'.
Qed.

(** ** The steps of the receiver *)

Lemma place_app S l : in_place S -> forall p, p ∈ S -> (S ++ l) !! Z.to_nat (pack_sn p) = Some p.
Proof. intros H p Hp. destruct (H p Hp) as [_ E]. by apply lookup_app_l_Some. Qed.

(** The receiver with another counter, feedback queue and note of the last
    selective acknowledgement. *)
Definition retouched (a a' : Arqstatus) : Prop :=
  exists c s q, a' = a <| ack_counter_ := c |> <| last_ack_sent_ := s |> <| arq_feedback_queue_ := q |>.

Lemma retouched_refl a : retouched a a.
Proof. exists (ack_counter_ a), (last_ack_sent_ a), (arq_feedback_queue_ a). by destruct a. Qed.
Lemma retouched_trans a1 a2 a3 : retouched a1 a2 -> retouched a2 a3 -> retouched a1 a3.
Proof. intros (c & s & q & ->) (c' & s' & q' & ->). by exists c', s', q'. Qed.

Lemma rcv_retouched S w log R n m a a' : rcv_ok S w log R n a -> retouched a a' -> fbs_ok R (ack_seq_ a) m (arq_feedback_queue_ a') ->
  rcv_ok S w log R m a'.
Proof. intros [H1 H2 H3 H4 H5 H6 H7] (c & s & q & ->) Hf. by split. Qed.

Lemma rcv_more S w log R n m a : n <= m -> rcv_ok S w log R n a -> rcv_ok S w log R m a.
Proof. intros Hn [H1 H2 H3 H4 H5 H6 H7]. split; try done. eapply fbs_ok_grows; [apply grows_refl|exact Hn|exact H7]. Qed.

(** A block that is kept, and one that is not needed any more. *)
Lemma rcv_keep S w log R n a p : rcv_ok S w log R n a -> p ∈ S -> pack_sn p <= ack_seq_ a + w -> rcv_ok S w log (R ++ [p]) n a.
Proof.
  intros [H1 H2 H3 H4 H5 H6 H7] Hp Hw. split; try done.
  - apply Forall_app. split; [done|]. by constructor.
  - eapply fbs_ok_grows; [apply grows_add|reflexivity|exact H7].
Qed.

Lemma rcv_drop S w log l1 l2 n a p : rcv_ok S w log (l1 ++ p :: l2) n a -> pack_sn p < ack_seq_ a -> rcv_ok S w log (l1 ++ l2) n a.
Proof.
  intros [H1 H2 H3 H4 H5 H6 H7] Hp. split; try done.
  - apply Forall_app in H6 as [H6 H6']. apply Forall_cons in H6' as [_ H6']. by apply Forall_app.
  - eapply fbs_ok_grows; [by apply (grows_drop _ _ p)|reflexivity|exact H7].
Qed.

(** The block that the receiver expects. *)
Definition advance (a : Arqstatus) : Arqstatus := a <| ack_seq_ := ack_seq_ a + 1 |>.
Definition enqueue_trans (p : block) (a : Arqstatus) : Arqstatus := a <| arq_trans_queue_ := arq_trans_queue_ a ++ [p] |>.

Lemma classify_ok S w log R n a p : rcv_ok S w log R n a -> p ∈ S ->
  let s := pack_sn p in
  classify s a = (if s =? ack_seq_ a then (1, advance a) else ((if (ack_seq_ a <? s) && (s <=? ack_seq_ a + w) then 0 else 2), a)) /\
  0 <= s < 2047.
Proof.
  intros [H1 H2 [H3 H3'] H4 H5 H6 H7] Hp. cbv zeta. destruct (H1 p Hp) as [Hs _]. split; [|lia]. unfold classify. rewrite H3', H3.
  rewrite Z.eqb_sym. destruct (Z.eqb_spec (pack_sn p) (ack_seq_ a)) as [E|E]; cbn [negb].
  - rewrite u32_id by lia. rewrite (proj2 (Z.eqb_neq (ack_seq_ a + 1) 2048)) by lia. done.
  - rewrite ahead_eq by lia. by replace (pack_sn p - ack_seq_ a <=? w) with (pack_sn p <=? ack_seq_ a + w) by lia.
Qed.

Lemma rcv_advance S w log R n a p : rcv_ok S w log R n a -> p ∈ S -> pack_sn p = ack_seq_ a ->
  rcv_ok S w log R n (enqueue_trans p (advance a)).
Proof.
  intros [H1 H2 H3 H4 H5 H6 H7] Hp E. destruct (H1 p Hp) as [Hs Hl]. split; try done.
  - cbn. lia.
  - cbn. rewrite app_assoc, H5. replace (Z.to_nat (ack_seq_ a + 1)) with (Datatypes.S (Z.to_nat (ack_seq_ a))) by lia.
    symmetry. apply take_S_r. by rewrite <- E.
  - eapply Forall_impl; [exact H6|]. intros q [Hq Hq']. split; [done|]. cbn. lia.
  - cbn. eapply fbs_ok_grows; [apply grows_seq|reflexivity|exact H7].
Qed.

(** What a block did: [o] is *inOrder. *)
Record heard (S : list block) (w : Z) (log R R' : list block) (n : Z) (p : block) (a a' : Arqstatus) (o : Z) : Prop := mkHeard {
  he_case : (o = 1 /\ pack_sn p = ack_seq_ a /\ retouched (advance a) a') \/
            (o = 0 /\ ack_seq_ a < pack_sn p <= ack_seq_ a + w /\ retouched a a') \/
            (o = 2 /\ (pack_sn p < ack_seq_ a \/ ack_seq_ a + w < pack_sn p) /\ retouched a a');
  he_ok : rcv_ok S w log (if o =? 0 then R' else R) n (if o =? 1 then enqueue_trans p a' else a') }.

Lemma counted_retouched a c : retouched a (a <| ack_counter_ := c |>).
Proof. by exists c, (last_ack_sent_ a), (arq_feedback_queue_ a). Qed.

Lemma retouched_seq a a' : retouched a a' -> ack_seq_ a' = ack_seq_ a /\ arq_trans_queue_ a' = arq_trans_queue_ a /\
  arq_retrans_queue_ a' = arq_retrans_queue_ a /\ arq_max_window_ a' = arq_max_window_ a.
Proof. by intros (c & s & q & ->). Qed.

Lemma enqueue_retouched p a a' : retouched a a' -> retouched (enqueue_trans p a) (enqueue_trans p a').
Proof. intros (c & s & q & ->). by exists c, s, q. Qed.

(** A cumulative acknowledgement, or none, after the block that was expected. *)
Lemma in_order_ok S w log R R' n cid a a1 p : rcv_ok S w log R n a -> 1 <= n <= 100 -> p ∈ S -> pack_sn p = ack_seq_ a -> retouched (advance a) a1 ->
  arq_feedback_queue_ a1 = arq_feedback_queue_ a ->
  forall (b : bool), returns (if b then a' ← cumulative cid a1; Ok (1, a') else Ok (1, a1)) (fun '(o, a') => heard S w log R R' n p a a' o).
Proof.
  intros H Hn Hp E Ht Hq b. pose proof (rcv_advance S w log R n a p H Hp E) as Ha. destruct (retouched_seq _ _ Ht) as (Es & Et & _).
  pose proof (rc_place _ _ _ _ _ _ H p Hp) as [Hr _]. pose proof (rc_room _ _ _ _ _ _ H) as Hw.
  assert (Hf : fbs_ok R (ack_seq_ (advance a)) n (arq_feedback_queue_ a1)) by (rewrite Hq; exact (rc_fb _ _ _ _ _ _ Ha)).
  destruct b.
  - eapply returns_bind; [apply (cumulative_ok R n); [rewrite Es; cbn; lia|done|by rewrite Es]|].
    intros a' (q & -> & Hf'). apply returns_Ok.
    assert (Ht' : retouched (advance a) (a1 <| arq_feedback_queue_ := q |>)).
    { eapply retouched_trans; [exact Ht|]. by exists (ack_counter_ a1), (last_ack_sent_ a1), q. }
    split; [by left|]. cbn [Z.eqb Pos.eqb]. eapply rcv_retouched; [exact Ha|by apply enqueue_retouched|]. rewrite Es in Hf'. exact Hf'.
  - apply returns_Ok. split; [by left|]. cbn [Z.eqb Pos.eqb]. eapply rcv_retouched; [exact Ha|by apply enqueue_retouched|]. exact Hf.
Qed.

(** A block that is not expected. *)
Lemma out_of_order_ok S w log R n a a' p : rcv_ok S w log R n a -> p ∈ S -> pack_sn p <> ack_seq_ a -> retouched a a' ->
  let o := if (ack_seq_ a <? pack_sn p) && (pack_sn p <=? ack_seq_ a + w) then 0 else 2 in
  fbs_ok (if o =? 0 then R ++ [p] else R) (ack_seq_ a) n (arq_feedback_queue_ a') ->
  heard S w log R (R ++ [p]) n p a a' o.
Proof.
  intros H Hp Hne Ht. cbv zeta. destruct ((ack_seq_ a <? pack_sn p) && _) eqn:Ew; intros Hf; split; cbn [Z.eqb Pos.eqb].
  - right. left. split; [done|]. split; [lia|done].
  - eapply rcv_retouched; [apply rcv_keep; [exact H|done|lia]|done|done].
  - right. right. split; [done|]. split; [lia|done].
  - by eapply rcv_retouched.
Qed.

(** A block of a PDU. *)
Lemma arqReceive_ok S w log R n cid a p : rcv_ok S w log R n a -> 1 <= n < 100 -> p ∈ S ->
  returns (arqReceive true cid p a) (fun '(o, a') => heard S w log R (R ++ [p]) (n + 1) p a a' o).
Proof.
  intros H Hn Hp. pose proof (rcv_more S w log R n (n + 1) a ltac:(lia) H) as H'. unfold arqReceive. change (seq_of true p) with (pack_sn p).
  destruct (classify_ok S w log R n a p H Hp) as [-> Hs].
  destruct (Z.eqb_spec (pack_sn p) (ack_seq_ a)) as [E|E].
  - cbv zeta. set (a1 := (advance a) <| ack_counter_ := _ |>). destruct (ack_counter_ a1 =? ack_period_ a1).
    + change (1 =? 1) with true. cbv iota. apply (in_order_ok S w log R (R ++ [p]) (n + 1) cid a _ p H' ltac:(lia) Hp E); [|done].
      eapply retouched_trans; apply counted_retouched.
    + apply (in_order_ok S w log R (R ++ [p]) (n + 1) cid a _ p H' ltac:(lia) Hp E) with (b := false); [|done]. apply counted_retouched.
  - pose proof (out_of_order_ok S w log R (n + 1) a) as Ho. cbv zeta in Ho |- *. set (a1 := a <| ack_counter_ := _ |>).
    assert (H1 : retouched a a1) by apply counted_retouched. assert (Hq : arq_feedback_queue_ a1 = arq_feedback_queue_ a) by done.
    assert (Es1 : ack_seq_ a1 = ack_seq_ a) by done.
    assert (Hf : fbs_ok R (ack_seq_ a) (n + 1) (arq_feedback_queue_ a)) by exact (rc_fb _ _ _ _ _ _ H'). clearbody a1.
    pose proof (grows_add R (ack_seq_ a) p) as Hg. pose proof (rc_room _ _ _ _ _ _ H) as Hw. pose proof (rc_seq _ _ _ _ _ _ H) as Hk.
    specialize (Ho) as Ho. assert (Hnone : forall a', retouched a a' -> arq_feedback_queue_ a' = arq_feedback_queue_ a ->
      returns (Ok (if (ack_seq_ a <? pack_sn p) && (pack_sn p <=? ack_seq_ a + w) then 0 else 2, a')) (fun '(o, a') => heard S w log R (R ++ [p]) (n + 1) p a a' o)).
    { intros a' Ht' Hq'. apply returns_Ok. apply Ho; try done. rewrite Hq'. destruct (_ =? 0); [|done]. by eapply fbs_ok_grows; [exact Hg|reflexivity|]. }
    destruct (ack_counter_ a1 =? ack_period_ a1); [|by apply Hnone].
    set (a2 := a1 <| ack_counter_ := 0 |>). assert (H2 : retouched a a2) by (eapply retouched_trans; [exact H1|apply counted_retouched]).
    assert (Es2 : ack_seq_ a2 = ack_seq_ a) by done. assert (Hq2 : arq_feedback_queue_ a2 = arq_feedback_queue_ a) by done. clearbody a2.
    specialize (Ho) as Ho. destruct ((ack_seq_ a <? pack_sn p) && (pack_sn p <=? ack_seq_ a + w)) eqn:Ew.
    + change (0 =? 1) with false. change (0 =? 0) with true. cbv iota.
      eapply returns_bind; [apply (selective_ok (R ++ [p]) n cid (pack_sn p) a2); try lia|].
      * rewrite Es2, Hq2. eapply fbs_ok_grows; [exact Hg|reflexivity|exact (rc_fb _ _ _ _ _ _ H)].
      * rewrite Es2. right. exists p. split; [|done]. apply elem_of_app. right. apply list_elem_of_singleton. done.
      * intros a' (q & -> & Hf'). apply returns_Ok. specialize (Ho (a2 <| last_ack_sent_ := pack_sn p |> <| arq_feedback_queue_ := q |>) p H' Hp E).
        rewrite Ew in Ho. apply Ho; [|by rewrite Es2 in Hf'].
        eapply retouched_trans; [exact H2|]. by exists (ack_counter_ a2), (pack_sn p), q.
    + by apply Hnone.
Qed.

(** A block that was kept; it is still one of [R]. *)
Lemma transfer_ok S w log R n cid a p : rcv_ok S w log R n a -> 1 <= n <= 100 -> p ∈ S ->
  returns (arqReceiveBufferTransfer true cid p a) (fun '(o, a') => heard S w log R R n p a a' o).
Proof.
  intros H Hn Hp. unfold arqReceiveBufferTransfer. change (seq_of true p) with (pack_sn p).
  destruct (classify_ok S w log R n a p H Hp) as [-> Hs].
  destruct (Z.eqb_spec (pack_sn p) (ack_seq_ a)) as [E|E].
  - cbv zeta. set (a1 := (advance a) <| ack_counter_ := _ |>). change (1 =? 1) with true. cbn [andb]. destruct (ack_counter_ a1 =? ack_period_ a1).
    + apply (in_order_ok S w log R R n cid a _ p H Hn Hp E); [|done]. eapply retouched_trans; apply counted_retouched.
    + apply (in_order_ok S w log R R n cid a _ p H Hn Hp E) with (b := false); [|done]. apply counted_retouched.
  - cbv zeta. set (a1 := a <| ack_counter_ := _ |>). set (o := if (ack_seq_ a <? pack_sn p) && _ then 0 else 2).
    assert (Ho : forall a', retouched a a' -> arq_feedback_queue_ a' = arq_feedback_queue_ a -> heard S w log R R n p a a' o).
    { intros a' Ht Hq. assert (Hok : rcv_ok S w log R n a') by (eapply rcv_retouched; [exact H|done|]; rewrite Hq; exact (rc_fb _ _ _ _ _ _ H)).
      unfold o. destruct ((ack_seq_ a <? pack_sn p) && _) eqn:Ew; (split; [|done]); right; [left|right]; (split; [done|]; split; [lia|done]). }
    assert (E1 : (o =? 1) = false) by (unfold o; by destruct (_ && _)). rewrite E1. cbn [andb].
    destruct (ack_counter_ a1 =? ack_period_ a1); apply returns_Ok, Ho; try done; [|apply counted_retouched].
    eapply retouched_trans; apply counted_retouched.
Qed.

(** ** The loops of the receiver *)

Abbreviation keeps_of a := (arq_retrans_queue_ a).
Definition rcv (S : list block) (w : Z) (log : list block) (n : Z) (a : Arqstatus) : Prop := rcv_ok S w log (keeps_of a) n a.
Definition further (a a' : Arqstatus) : Prop := grows (keeps_of a) (ack_seq_ a) (keeps_of a') (ack_seq_ a').

Lemma rcv_ok_queue S w log R n a q : rcv_ok S w log R n a -> rcv_ok S w log R n (a <| arq_retrans_queue_ := q |>).
Proof. intros [H1 H2 H3 H4 H5 H6 H7]. by split. Qed.

Lemma rcv_set S w log R n a : rcv_ok S w log R n a -> rcv S w log n (a <| arq_retrans_queue_ := R |>).
Proof. unfold rcv. cbn. apply rcv_ok_queue. Qed.

Lemma rcv_elem S w log l1 l2 n a p : rcv_ok S w log (l1 ++ p :: l2) n a -> p ∈ S /\ pack_sn p <= ack_seq_ a + w.
Proof. intros H. pose proof (rc_buf _ _ _ _ _ _ H) as Hf. apply Forall_app in Hf as [_ Hf]. by apply Forall_cons in Hf as [Hf _]. Qed.

(** The number of the next block after a block was heard. *)
Lemma heard_seq S w log R R' n p a a' o : heard S w log R R' n p a a' o ->
  ack_seq_ a' = (if o =? 1 then ack_seq_ a + 1 else ack_seq_ a) /\ keeps_of a' = keeps_of a /\ (o = 0 \/ o = 1 \/ o = 2).
Proof.
  intros [[(-> & _ & Ht)|[(-> & _ & Ht)|(-> & _ & Ht)]] _]; destruct (retouched_seq _ _ Ht) as (E1 & _ & E2 & _); rewrite E1, E2; auto.
Qed.

Lemma take_block_ok S w log n cid a p : rcv S w log n a -> 1 <= n < 100 -> p ∈ S ->
  returns (take_block true cid p a) (fun a' => rcv S w log (n + 1) a' /\ further a a' /\
    (pack_sn p <= ack_seq_ a + w -> got (keeps_of a') (ack_seq_ a') (pack_sn p)) /\
    (length (keeps_of a') <= length (keeps_of a) + 1)%nat).
Proof.
  intros H Hn Hp. unfold take_block. eapply returns_bind; [by apply (arqReceive_ok S w log (keeps_of a) n)|]. intros [o a'] Hh. apply returns_Ok.
  destruct (heard_seq _ _ _ _ _ _ _ _ _ _ Hh) as (Es & Eq & _). destruct Hh as [Hc Hok]. unfold further.
  destruct Hc as [(-> & E & _)|[(-> & E & _)|(-> & E & _)]]; cbn [Z.eqb Pos.eqb] in *.
  - change (a' <| arq_trans_queue_ := arq_trans_queue_ a' ++ [p] |>) with (enqueue_trans p a').
    assert (Ek : keeps_of (enqueue_trans p a') = keeps_of a) by done. assert (Es' : ack_seq_ (enqueue_trans p a') = ack_seq_ a + 1) by done.
    unfold rcv. rewrite Ek, Es'. split; [exact Hok|]. split; [apply grows_seq|]. split; [left; lia|lia].
  - set (a2 := a' <| arq_retrans_queue_ := _ |>). assert (Ek : keeps_of a2 = keeps_of a ++ [p]) by (unfold a2; cbn; by rewrite Eq).
    assert (Es' : ack_seq_ a2 = ack_seq_ a) by done. unfold rcv. rewrite Ek, Es'.
    split; [by apply rcv_ok_queue|]. split; [apply grows_add|]. split; [|rewrite length_app; cbn; lia].
    intros _. right. exists p. split; [|done]. apply elem_of_app. right. by apply list_elem_of_singleton.
  - unfold rcv. rewrite Eq, Es. split; [done|]. split; [apply grows_refl|]. split; [left; lia|lia].
Qed.

Lemma take_blocks_ok S w log cid l : forall n a, rcv S w log n a -> 1 <= n -> n + Z.of_nat (length l) <= 100 -> Forall (fun p => p ∈ S) l ->
  returns (take_blocks true cid l a) (fun a' => rcv S w log (n + Z.of_nat (length l)) a' /\ further a a' /\
    (forall p, p ∈ l -> pack_sn p <= ack_seq_ a + w -> got (keeps_of a') (ack_seq_ a') (pack_sn p)) /\
    (length (keeps_of a') <= length (keeps_of a) + length l)%nat).
Proof.
  induction l as [|p l IH]; intros n a H Hn Hl Hf; cbn [take_blocks length] in *.
  - apply returns_Ok. replace (n + Z.of_nat 0) with n by lia. split; [done|]. split; [apply grows_refl|]. split; [|lia].
    intros p Hp. by apply elem_of_nil in Hp.
  - apply Forall_cons in Hf as [Hp Hf]. eapply returns_bind; [apply (take_block_ok S w log n); done || lia|]. intros a1 (H1 & G1 & T1 & L1).
    eapply returns_mono; [apply (IH (n + 1) a1 H1); done || lia|]. intros a2 (H2 & G2 & T2 & L2).
    replace (n + Z.of_nat (Datatypes.S (length l))) with (n + 1 + Z.of_nat (length l)) by lia. split; [done|].
    split; [by eapply grows_trans|]. split; [|lia]. intros q Hq Hw. apply elem_of_cons in Hq as [->|Hq]; [by apply G2, T1|].
    apply T2; [done|]. destruct G1 as [G1 _]. lia.
Qed.

Lemma transfer_run_ok S w log cid n l : 1 <= n <= 100 -> forall kept a, rcv_ok S w log (kept ++ l) n a ->
  returns (transfer_run true cid kept l a) (fun a' => rcv S w log n a' /\ grows (kept ++ l) (ack_seq_ a) (keeps_of a') (ack_seq_ a') /\
    (length (keeps_of a') <= length (kept ++ l))%nat).
Proof.
  intros Hn. induction l as [|p l IH]; intros kept a H; cbn [transfer_run].
  - apply returns_Ok. rewrite app_nil_r in *. split; [by apply rcv_set|]. split; [apply grows_refl|done].
  - destruct (rcv_elem _ _ _ _ _ _ _ _ H) as [Hp Hw].
    eapply returns_bind; [by apply (transfer_ok S w log (kept ++ p :: l) n)|]. intros [o a'] Hh.
    destruct (heard_seq _ _ _ _ _ _ _ _ _ _ Hh) as (Es & _). destruct Hh as [Hc Hok].
    destruct Hc as [(-> & E & _)|[(-> & E & _)|(-> & E & _)]]; cbn [Z.eqb Pos.eqb] in *.
    + assert (Hd : rcv_ok S w log (kept ++ l) n (enqueue_trans p a')) by (apply (rcv_drop _ _ _ _ _ _ _ p); [exact Hok|change (ack_seq_ (enqueue_trans p a')) with (ack_seq_ a'); lia]).
      eapply returns_mono; [apply IH, Hd|]. intros a2 (H2 & G2 & L2). split; [done|].
      split; [|rewrite length_app in *; cbn [length]; lia].
      eapply grows_trans; [|exact G2]. cbn. rewrite Es. eapply grows_trans; [apply grows_seq|]. apply grows_drop. lia.
    + apply returns_Ok. split; [by apply rcv_set|]. split; [|cbn; lia]. cbn. rewrite Es. apply grows_refl.
    + apply returns_Ok. split; [apply rcv_set, (rcv_drop _ _ _ _ _ _ _ p); [done|lia]|]. split; [|cbn; rewrite !length_app; cbn; lia].
      cbn. rewrite Es. apply grows_drop. lia.
Qed.

Lemma transfer_pass_ok S w log cid n l : 1 <= n <= 100 -> forall kept a, rcv_ok S w log (kept ++ l) n a ->
  Forall (fun p => pack_sn p <> ack_seq_ a) kept ->
  returns (transfer_pass true cid kept l a) (fun '(b, a') => rcv S w log n a' /\ grows (kept ++ l) (ack_seq_ a) (keeps_of a') (ack_seq_ a') /\
    (length (keeps_of a') + (if b then 1 else 0) <= length (kept ++ l))%nat /\
    (b = false -> Forall (fun p => pack_sn p <> ack_seq_ a') (keeps_of a'))).
Proof.
  intros Hn. induction l as [|p l IH]; intros kept a H Hk; cbn [transfer_pass].
  - apply returns_Ok. rewrite app_nil_r in *. split; [by apply rcv_set|]. split; [apply grows_refl|]. split; [cbn; lia|done].
  - destruct (rcv_elem _ _ _ _ _ _ _ _ H) as [Hp Hw].
    eapply returns_bind; [by apply (transfer_ok S w log (kept ++ p :: l) n)|]. intros [o a'] Hh.
    destruct (heard_seq _ _ _ _ _ _ _ _ _ _ Hh) as (Es & _). destruct Hh as [Hc Hok].
    destruct Hc as [(-> & E & _)|[(-> & E & _)|(-> & E & _)]]; cbn [Z.eqb Pos.eqb] in *.
    + assert (Hd : rcv_ok S w log (kept ++ l) n (enqueue_trans p a')) by (apply (rcv_drop _ _ _ _ _ _ _ p); [exact Hok|change (ack_seq_ (enqueue_trans p a')) with (ack_seq_ a'); lia]).
      eapply returns_bind; [by apply (transfer_run_ok S w log cid n l Hn kept)|]. intros a2 (H2 & G2 & L2). apply returns_Ok.
      split; [done|]. split; [|split; [rewrite length_app in *; cbn [length]; lia|done]].
      eapply grows_trans; [|exact G2]. cbn. rewrite Es. eapply grows_trans; [apply grows_seq|]. apply grows_drop. lia.
    + assert (Eapp : kept ++ p :: l = (kept ++ [p]) ++ l) by (by rewrite <- app_assoc). rewrite Eapp in *.
      eapply returns_mono; [apply IH; [done|]|].
      * rewrite Es. apply Forall_app. split; [done|]. constructor; [lia|constructor].
      * intros [b a2] (H2 & G2 & L2 & N2). by rewrite Es in G2.
    + eapply returns_mono; [apply IH; [apply (rcv_drop _ _ _ _ _ _ _ p); [done|lia]|by rewrite Es]|].
      intros [b a2] (H2 & G2 & L2 & N2). split; [done|]. rewrite Es in G2. split; [|split; [|done]].
      * eapply grows_trans; [|exact G2]. apply grows_drop. lia.
      * rewrite length_app in *. cbn [length]. lia.
Qed.

(** The loop ends, with no kept block that is expected. *)
Lemma transfers_ok S w log cid n a : 1 <= n <= 100 -> rcv S w log n a -> Z.of_nat (length (keeps_of a)) < 1000000000000 ->
  returns (transfer true cid a) (fun a' => rcv S w log n a' /\ further a a' /\ (length (keeps_of a') <= length (keeps_of a))%nat /\
    Forall (fun p => pack_sn p <> ack_seq_ a') (keeps_of a')).
Proof.
  intros Hn H Hl. unfold transfer.
  set (I := fun '((b, a') : bool * Arqstatus) => rcv S w log n a' /\ further a a' /\ (length (keeps_of a') <= length (keeps_of a))%nat /\
    (b = false -> Forall (fun p => pack_sn p <> ack_seq_ a') (keeps_of a'))).
  set (m := fun '((b, a') : bool * Arqstatus) => Z.of_nat (length (keeps_of a')) + (if b then 1 else 0)).
  eapply returns_bind; [apply (c_while_rule I m)|].
  - intros [b a1] (H1 & G1 & L1 & _) Hb. cbn in Hb. subst b.
    eapply returns_mono; [apply (transfer_pass_ok S w log cid n _ Hn [] a1 H1); constructor|]. intros [b a2] (H2 & G2 & L2 & N2).
    cbn [app] in *. split; [|unfold m; destruct b; lia]. split; [done|]. split; [by eapply grows_trans|]. split; [lia|done].
  - split; [done|]. split; [apply grows_refl|]. by split.
  - unfold m. lia.
  - intros [b a'] [(H1 & G1 & L1 & N1) Hb]. cbn in Hb. apply returns_Ok. auto.
Qed.
