(* ===== verification/Arq16Sdu.v ===== *)
(** * SDUs are made of their blocks again

    The loop over the blocks in order of process_mac_pdu_witharqfragpack: it hands
    up the SDUs that are complete, and leaves the start of one that is not. *)
From S2P Require Import Prelude Arq16 Arq16Ok.

(** * Definitions *)

(** After [m] of the SDUs [ps], with [k] blocks in order and the queue [q]. *)
Record handed (bs : Z) (ps : list block) (k m : nat) (q up : list block) : Prop := mkHanded {
  hd_count : (m <= length ps)%nat;
  hd_queue : stream bs 0 (take m ps) ++ q = take k (stream bs 0 ps);
  hd_up : sdu_data <$> up = sdu_data <$> take m ps }.

(** The SDU that is next is not complete. *)
Definition waiting (bs : Z) (ps : list block) (k m : nat) : Prop :=
  (m < length ps)%nat -> (k < length (stream bs 0 (take (S m) ps)))%nat.

(** * Lemmas *)

Section Sdu.
Context (bs : Z) (Hbs : 0 < bs).

(** The blocks of the middle are counted. *)
Lemma gather_middle p n cnt q : forall j size, 1 <= j ->
  gather (n + j - 1) size (((fun i => piece p (n + i) bs FRAG_CONT) <$> seqZ j (Z.of_nat cnt)) ++ q) =
  gather (n + j - 1 + Z.of_nat cnt) (size + Z.of_nat cnt * bs) q.
Proof.
  induction cnt as [|cnt IH]; intros j size Hj.
  - change (seqZ j (Z.of_nat 0)) with (@nil Z). cbn [fmap list_fmap app]. change (Z.of_nat 0) with 0. f_equal; lia.
  - rewrite seqZ_cons by lia. cbn [fmap list_fmap app gather]. change (pack_fc (piece p (n + j) bs FRAG_CONT)) with 3.
    change (pack_sn (piece p (n + j) bs FRAG_CONT)) with (n + j). change (b_size (piece p (n + j) bs FRAG_CONT)) with bs.
    replace (n + j - (n + j - 1)) with 1 by lia. change ((3 =? fc_code FRAG_CONT) && (Z.land 1 2047 =? 1)) with true. cbv iota.
    replace (Z.pred (Z.of_nat (S cnt))) with (Z.of_nat cnt) by lia. replace (n + j - 1 + 1) with (n + Z.succ j - 1) by lia.
    change (list_fmap Z block ?f ?l) with (f <$> l). rewrite IH, Nat2Z.inj_succ by lia. f_equal; [lia|ring].
Qed.

Lemma gather_whole p n q : large bs p ->
  gather n bs (middle bs p n ++ [piece p (n + full_blocks bs p) (b_size p - full_blocks bs p * bs) FRAG_LAST] ++ q) = Some (b_size p).
Proof.
  intros Hp. pose proof (full_pos bs Hbs p Hp) as Hf. unfold middle.
  replace (full_blocks bs p - 1) with (Z.of_nat (Z.to_nat (full_blocks bs p - 1))) by lia.
  pose proof (gather_middle p n (Z.to_nat (full_blocks bs p - 1)) ([piece p (n + full_blocks bs p) (b_size p - full_blocks bs p * bs) FRAG_LAST] ++ q) 1 bs ltac:(lia)) as E.
  replace (n + 1 - 1) with n in E by lia. rewrite E. cbn [app gather].
  change (pack_fc (piece _ _ _ FRAG_LAST)) with 1. change (pack_sn (piece p ?n _ FRAG_LAST)) with n. change (b_size (piece p _ ?s FRAG_LAST)) with s.
  replace (n + full_blocks bs p - (n + Z.of_nat (Z.to_nat (full_blocks bs p - 1)))) with 1 by lia.
  change ((1 =? fc_code FRAG_CONT) && (Z.land 1 2047 =? 1)) with false. change ((1 =? fc_code FRAG_LAST) && (Z.land 1 2047 =? 1)) with true. cbv iota.
  f_equal. rewrite Z2Nat.id by lia. ring.
Qed.

Lemma gather_part p n j : gather n bs (take j (middle bs p n)) = None.
Proof.
  unfold middle. rewrite <- fmap_take. assert (exists c, take j (seqZ 1 (full_blocks bs p - 1)) = seqZ 1 (Z.of_nat c)) as [c ->].
  { exists (j `min` Z.to_nat (full_blocks bs p - 1))%nat. apply list_eq. intros i.
    destruct (decide (i < j `min` Z.to_nat (full_blocks bs p - 1))%nat).
    - rewrite lookup_take_lt by lia. by rewrite !lookup_seqZ_lt by lia.
    - rewrite (lookup_seqZ_ge _ (Z.of_nat _)) by lia. destruct (decide (i < j)%nat); [rewrite lookup_take_lt by lia; apply lookup_seqZ_ge; lia|by apply lookup_take_ge; lia]. }
  pose proof (gather_middle p n c [] 1 bs ltac:(lia)) as E. rewrite app_nil_r in E. by replace (n + 1 - 1) with n in E by lia; rewrite E.
Qed.

(** A queue that is empty, or starts with an SDU. *)
Definition at_first (q : list block) : Prop := match q with [] => True | p :: _ => pack_fc p = fc_code FRAG_FIRST end.

Lemma drop_sdu_cons x y q : pack_fc y <> fc_code FRAG_FIRST -> drop_sdu (x :: y :: q) = drop_sdu (y :: q).
Proof. intros H. cbn [drop_sdu]. by rewrite (proj2 (Z.eqb_neq _ _) H). Qed.

Lemma drop_sdu_ok x l q : Forall (fun p => pack_fc p <> fc_code FRAG_FIRST) l -> at_first q -> drop_sdu (x :: l ++ q) = q.
Proof.
  intros Hl Hq. revert x. induction Hl as [|y l Hy _ IH]; intros x; cbn [app]; [|by rewrite drop_sdu_cons].
  destruct q as [|p q]; [done|]. cbn in Hq |- *. by rewrite Hq.
Qed.

Lemma stream_first n ps j : at_first (take j (stream bs n ps)).
Proof. destruct j; [done|]. by destruct ps. Qed.

Lemma stream_take_S m p ps : Forall (large bs) ps -> ps !! m = Some p ->
  stream bs 0 (take (S m) ps) = stream bs 0 (take m ps) ++ pieces bs p (Z.of_nat (length (stream bs 0 (take m ps)))).
Proof.
  intros Hl Hp. rewrite (take_S_r _ _ _ Hp), stream_app; [|done|by apply Forall_take]. cbn [stream]. by rewrite app_nil_r.
Qed.

Lemma stream_split m p ps : Forall (large bs) ps -> ps !! m = Some p ->
  let n := Z.of_nat (length (stream bs 0 (take m ps))) in
  stream bs 0 ps = stream bs 0 (take m ps) ++ pieces bs p n ++ stream bs (n + full_blocks bs p + 1) (drop (S m) ps).
Proof.
  intros Hl Hp. cbv zeta. rewrite <- (take_drop_middle ps m p Hp) at 1. rewrite stream_app; [done|done|by apply Forall_take].
Qed.

(** One turn of the loop. *)
Lemma sdu_step_ok ps k m q up : Forall (large bs) ps -> (k <= length (stream bs 0 ps))%nat -> handed bs ps k m q up ->
  returns (sdu_step (true, (q, up))) (fun '(b, (q', up')) => exists m', handed bs ps k m' q' up' /\ (m <= m')%nat /\
    (length q' <= length q)%nat /\ (b = true -> (length q' < length q)%nat) /\ (b = false -> waiting bs ps k m')).
Proof.
  intros Hl Hk [Hm Hq Hu]. unfold sdu_step. cbn [snd].
  assert (Hlen : (length (stream bs 0 (take m ps)) + length q = k)%nat) by (rewrite <- length_app, Hq, length_take; lia).
  destruct (ps !! m) as [p|] eqn:Ep.
  2: { apply lookup_ge_None in Ep. assert (Em : take m ps = ps) by (apply take_ge; lia). rewrite Em in Hlen.
       assert (q = []) as -> by (apply length_zero_iff_nil; lia). apply returns_Ok. exists m. split; [by split|]. split; [done|]. split; [done|]. split; [done|]. intros _ H. lia. }
  pose proof (stream_split m p ps Hl Ep) as Es. pose proof (stream_take_S m p ps Hl Ep) as Et. cbv zeta in Es.
  set (n := Z.of_nat (length (stream bs 0 (take m ps)))) in *.
  assert (Hp : large bs p) by (rewrite Forall_lookup in Hl; by apply (Hl m)).
  pose proof (pieces_length bs Hbs p n Hp) as Hpl. pose proof (full_pos bs Hbs p Hp) as Hf.
  assert (Eq : q = take (length q) (pieces bs p n ++ stream bs (n + full_blocks bs p + 1) (drop (S m) ps))).
  { rewrite Es, take_app_ge in Hq by lia. apply app_inv_head in Hq. rewrite Hq at 1. f_equal. lia. }
  assert (Hw : (length q < length (pieces bs p n))%nat -> waiting bs ps k m) by (intros H _; rewrite Et, length_app; lia).
  destruct q as [|h rest].
  { apply returns_Ok. exists m. split; [by split|]. split; [done|]. split; [done|]. split; [done|]. intros _. apply Hw. cbn [length]. lia. }
  set (tl := middle bs p n ++ [piece p (n + full_blocks bs p) (b_size p - full_blocks bs p * bs) FRAG_LAST]) in *.
  change (pieces bs p n) with (piece p n bs FRAG_FIRST :: tl) in *. cbn [length take app] in Eq. injection Eq as Eh Er. subst h.
  change (pack_fc (piece p n bs FRAG_FIRST)) with 2. change (2 =? fc_code FRAG_FIRST) with true. cbv iota.
  change (pack_sn (piece p n bs FRAG_FIRST)) with n. change (b_size (piece p n bs FRAG_FIRST)) with bs.
  cbn [length] in Hpl, Hw, Hlen |- *.
  assert (Htl : length tl = S (length (middle bs p n))) by (unfold tl; rewrite length_app; cbn; lia).
  destruct (decide (length rest < length tl)%nat) as [Hlt|Hge].
  - rewrite take_app_le in Er by lia. unfold tl in Er. rewrite take_app_le in Er by lia. rewrite Er, gather_part. apply returns_Ok.
    rewrite <- Er. exists m. split; [by split|]. split; [done|]. split; [done|]. split; [done|]. intros _. apply Hw. lia.
  - rewrite take_app_ge in Er by lia. set (q' := take _ _) in Er. assert (Hq' : at_first q') by apply stream_first.
    rewrite Er at 1. unfold tl at 1. rewrite <- app_assoc, gather_whole by done.
    assert (Ed : drop_sdu (piece p n bs FRAG_FIRST :: rest) = q').
    { rewrite Er. apply drop_sdu_ok; [|done]. unfold tl, middle. apply Forall_app. split; [|by constructor; [done|constructor]].
      apply Forall_fmap, Forall_true. done. }
    cbv zeta. rewrite Ed. apply returns_Ok. exists (S m). apply lookup_lt_Some in Ep as Hlt.
    assert (Hh : handed bs ps k (S m) q' (up ++ [(piece p n bs FRAG_FIRST) <| b_size := b_size p |>])).
    { split; [lia| |].
      - rewrite Et, <- Hq, <- app_assoc. f_equal. cbn [app]. f_equal. by rewrite Er.
      - rewrite fmap_app, Hu, (take_S_r _ _ _ Ep), fmap_app. done. }
    assert (Hl' : (length rest = length tl + length q')%nat) by (rewrite Er; apply length_app).
    split; [exact Hh|]. split; [lia|]. split; [lia|]. split; [lia|].
    intros Hb Hm'. destruct q' as [|]; [|done]. destruct (lookup_lt_is_Some_2 ps (S m) Hm') as [p' Ep'].
    rewrite (stream_take_S (S m) p' ps Hl Ep'), length_app. pose proof (hd_queue _ _ _ _ _ _ Hh) as E. rewrite app_nil_r in E.
    rewrite E, length_take. unfold pieces. cbn [length]. lia.
Qed.

Lemma reassemble_ok ps k m q up : Forall (large bs) ps -> (k <= length (stream bs 0 ps))%nat -> handed bs ps k m q up ->
  Z.of_nat (length q) < 1000000000000 ->
  returns (reassemble q up) (fun '(q', up') => exists m', handed bs ps k m' q' up' /\ (m <= m')%nat /\ waiting bs ps k m').
Proof.
  intros Hl Hk H Hlen. unfold reassemble.
  set (I := fun '((b, (q', up')) : bool * (list block * list block)) =>
    exists m', handed bs ps k m' q' up' /\ (m <= m')%nat /\ (b = false -> waiting bs ps k m')).
  set (f := fun '((b, (q', up')) : bool * (list block * list block)) => Z.of_nat (length q') + (if b then 1 else 0)).
  eapply returns_bind; [apply (c_while_rule I f)|].
  - intros [b [q1 up1]] (m1 & H1 & L1 & _) Hb. cbn in Hb. subst b.
    eapply returns_mono; [by apply (sdu_step_ok ps k m1 q1 up1)|]. intros [b [q2 up2]] (m2 & H2 & L2 & L & L' & W).
    split; [|unfold f; destruct b; [specialize (L' eq_refl)|]; lia]. exists m2. split; [done|]. split; [lia|done].
  - exists m. by split.
  - unfold f. lia.
  - intros [b [q' up']] [(m' & H' & L & W) Hb]. cbn in Hb. apply returns_Ok. exists m'. auto.
Qed.

(** All the blocks make all the SDUs. *)
Lemma handed_all ps k m q up : Forall (large bs) ps -> handed bs ps k m q up -> waiting bs ps k m -> (length (stream bs 0 ps) <= k)%nat ->
  sdu_data <$> up = sdu_data <$> ps.
Proof.
  intros Hl [Hm Hq Hu] Hw Hk. destruct (decide (m < length ps)%nat) as [H|H].
  - specialize (Hw H). destruct (lookup_lt_is_Some_2 ps m H) as [p Ep].
    assert (Hs : (length (stream bs 0 (take (S m) ps)) <= length (stream bs 0 ps))%nat); [|lia].
    rewrite <- (take_drop (S m) ps) at 2. rewrite stream_app, length_app by (done || by apply Forall_take). lia.
  - rewrite Hu. f_equal. apply take_ge. lia.
Qed.
End Sdu.
