(* ===== verification/Arq16Conn.v ===== *)
(** * An 802.16 connection with ARQ delivers its SDUs

    The sender's queues, the receiver (Arq16Ok) and its reassembly (Arq16Sdu) put
    together: what holds after any sequence of events, and what a round of
    retransmissions achieves when the blocks are fewer than the window. *)
From S2P Require Import Prelude Arq16 Arq16Ok Arq16Sdu.

(** * Definitions *)

(** The SDUs that are sent, and the number of blocks of a list of SDUs. *)
Definition sdus_of (es : list warq_event) : list block := omap (fun e => match e with ESdu p => Some p | _ => None end) es.
Fixpoint blocks_of (bs : Z) (ps : list block) : Z :=
  match ps with [] => 0 | p :: ps => full_blocks bs p + 1 + blocks_of bs ps end.

(** Fewer than 100 blocks arrive between two packets with acknowledgements; [n] is
    the number since the last one, plus 1. *)
Fixpoint spaced (n : Z) (es : list warq_event) : bool :=
  match es with
  | [] => true
  | ERecv is_ :: es => (n + Z.of_nat (length is_) <=? 100) && spaced (n + Z.of_nat (length is_)) es
  | ESendFb :: es => spaced 1 es
  | _ :: es => spaced n es
  end.

(** The blocks that arrive. *)
Definition arrivals (es : list warq_event) : Z :=
  foldr (fun e n => match e with ERecv is_ => Z.of_nat (length is_) + n | _ => n end) 0 es.

(** The timer, then everything that the sender has to send arrives. *)
Definition to_send (y : connection) : nat :=
  (length (arq_retrans_queue_ (arqTimerHandler true (conn_q y) (snd_ y))) + length (conn_q y))%nat.
Definition round (y : connection) : list warq_event :=
  ETimer :: replicate (to_send y) (EXmit 0) ++ mjoin ((fun i => [ESendFb; ERecv [i]]) <$> seq (length (air y)) (to_send y)).

(** ** Connections that are run below *)

Definition sdu (u s : Z) : block := mkBlock 0 0 0 0 s u.

(** Three SDUs, 3 + 2 + 4 blocks.  The blocks 3 and 1 arrive, then 3 again; two
    acknowledgements are sent, and only the second arrives. *)
Definition demo : list warq_event :=
  [ESdu (sdu 1 250); ESdu (sdu 2 100)] ++ replicate 5 (EXmit 0) ++ [ERecv [3%nat; 1%nat]; ESendFb; ERecv [3%nat; 0%nat]; ESendFb; EFb 1; ESdu (sdu 3 320)].

(** What was sent and what was handed up, without the first [n]. *)
Definition data_of (n : nat) (o : outcome connection) : option (list (Z * Z) * list (Z * Z)) :=
  match o with Ok y => Some (sdu_data <$> drop n (sdus y), sdu_data <$> drop n (up y)) | Trap _ => None end.

(** An SDU of 64 blocks, of which [n] arrive at once and are acknowledged. *)
Definition group (g n : nat) (s : Z) : list warq_event :=
  ESdu (sdu (Z.of_nat g) s) :: replicate 64 (EXmit 0) ++ [ERecv (seq (64 * g) n); ESendFb; EFb g].

(** Twice 32 of them, 2048 blocks: the last block comes without an acknowledgement
    the first time, and is lost the second time; the timer, and the sender's next
    block arrives. *)
Definition two_laps : list warq_event :=
  mjoin ((fun g => group g 64 6350) <$> seq 0 31) ++ group 31 63 6350 ++ [ERecv [2047%nat]] ++
  mjoin ((fun g => group g 64 6350) <$> seq 32 31) ++ group 63 63 6320 ++ [ETimer; EXmit 0; ERecv [4096%nat]].

(** * Lemmas *)

Section Conn.
Context (cid bs : Z) (Hbs : 0 < bs).

Lemma blocks_of_length n ps : Forall (large bs) ps -> blocks_of bs ps = Z.of_nat (length (stream bs n ps)).
Proof.
  intros H. revert n. induction H as [|p ps Hp _ IH]; intros n; [done|]. cbn [blocks_of stream].
  rewrite length_app, Nat2Z.inj_add, (pieces_length bs Hbs p n Hp). by rewrite <- IH.
Qed.

(** ** The sender *)

(** The sender's queues hold blocks of [S] only, and those that have not arrived. *)
Record snd_ok (S : list block) (w : Z) (c : Z) (a : Arqstatus) : Prop := mkSndOk {
  sn_conf : arq_max_seq_ a = 2048 /\ arq_max_window_ a = w;
  sn_seq : arq_curr_seq_ a = c;
  sn_trans : Forall (fun p => p ∈ S) (arq_trans_queue_ a);
  sn_retrans : Forall (fun p => p ∈ S) (arq_retrans_queue_ a);
  sn_once : NoDup (pack_sn <$> arq_retrans_queue_ a) }.

Lemma queued_true ph q : queued true ph q = true <-> exists p, p ∈ q /\ pack_sn p = pack_sn ph.
Proof.
  unfold queued. rewrite existsb_exists. split; intros (p & H & E); exists p; (split; [by apply list_elem_of_In|cbn in *; lia]).
Qed.

Lemma queued_false ph q : queued true ph q = false -> pack_sn ph ∉ pack_sn <$> q.
Proof.
  intros H Hin. apply list_elem_of_fmap in Hin as (p & E & Hp). apply not_true_iff_false in H. apply H, queued_true. by exists p.
Qed.

(** What the timer queues again: the blocks of the transmission queue that are in no
    other queue. *)
Lemma requeue_ok P q l : forall r, Forall (fun p => queued true p q = false -> P p) l -> Forall P r -> NoDup (pack_sn <$> r) ->
  let r' := requeue true q l r in
  Forall P r' /\ NoDup (pack_sn <$> r') /\ (forall p, p ∈ r -> p ∈ r') /\
  (forall p, p ∈ l -> exists p', (p' ∈ q \/ p' ∈ r') /\ pack_sn p' = pack_sn p).
Proof.
  induction l as [|ph l IH]; intros r Hl Hr Hn; cbv zeta; cbn [requeue].
  { split; [done|]. split; [done|]. split; [done|]. intros p Hp. by apply elem_of_nil in Hp. }
  apply Forall_cons in Hl as [Hp Hl]. cbv zeta in *. destruct (queued true ph q) eqn:Eq; cbn [negb andb].
  - destruct (IH r Hl Hr Hn) as (H1 & H2 & H3 & H4). split; [done|]. split; [done|]. split; [done|]. intros p Hin.
    apply elem_of_cons in Hin as [->|Hin]; [|by apply H4]. apply queued_true in Eq as (p' & H & E). exists p'. auto.
  - destruct (queued true ph r) eqn:Er; cbn [negb].
    + destruct (IH r Hl Hr Hn) as (H1 & H2 & H3 & H4). split; [done|]. split; [done|]. split; [done|]. intros p Hin.
      apply elem_of_cons in Hin as [->|Hin]; [|by apply H4]. apply queued_true in Er as (p' & H & E). exists p'. auto.
    + destruct (IH (r ++ [ph]) Hl) as (H1 & H2 & H3 & H4).
      * apply Forall_app. split; [done|]. constructor; [by apply Hp|constructor].
      * rewrite fmap_app. apply NoDup_app. split; [done|]. split; [|apply NoDup_singleton]. intros x Hx Hx'.
        apply list_elem_of_singleton in Hx'. subst x. by apply queued_false in Er.
      * split; [done|]. split; [done|]. split; [intros p Hin; apply H3, elem_of_app; by left|]. intros p Hin.
        apply elem_of_cons in Hin as [->|Hin]; [|by apply H4]. exists ph. split; [right; apply H3, elem_of_app; right; by apply list_elem_of_singleton|done].
Qed.

Lemma release_elem ty recd w q p : p ∈ release true ty recd w q <-> p ∈ q /\ acknowledges ty recd (pack_sn p) w = false.
Proof.
  induction q as [|ph q IH]; cbn [release]; [rewrite !elem_of_nil; tauto|]. change (seq_of true ph) with (pack_sn ph).
  destruct (acknowledges ty recd (pack_sn ph) w) eqn:E; rewrite ?elem_of_cons, IH; (split; [intros H; intuition congruence|]);
    intros [[->|H] H']; intuition congruence.
Qed.

Lemma release_sub ty recd w q : sublist (release true ty recd w q) q.
Proof. induction q as [|ph q IH]; cbn [release]; [constructor|]. case_match; by constructor. Qed.

Lemma release_all P ty recd w q : Forall P q -> Forall P (release true ty recd w q).
Proof. rewrite !Forall_forall. intros H p Hp. apply release_elem in Hp as [Hp _]. auto. Qed.

Lemma fmap_sublist {A B} (f : A -> B) l k : sublist l k -> sublist (f <$> l) (f <$> k).
Proof. induction 1; cbn; by constructor. Qed.

(** No block that the sender holds is before its window: what it has been told is
    not above them. *)
Definition ahead_of_acks (q : list block) (a : Arqstatus) : Prop :=
  ack_seq_ a = 2047 \/ 0 <= ack_seq_ a <= arq_curr_seq_ a /\
    Forall (fun p => ack_seq_ a <= pack_sn p) (arq_trans_queue_ a) /\ Forall (fun p => ack_seq_ a <= pack_sn p) (arq_retrans_queue_ a) /\
    Forall (fun p => ack_seq_ a <= pack_sn p) q.

(** What an acknowledgement leaves, when the blocks are fewer than the window has. *)
Lemma release_ahead S w R k ie l : in_place S -> Z.of_nat (length S) < w -> w < 4096 -> ie_ok R k ie -> fsn ie <> 2047 ->
  ack_type ie = 1 -> k <= Z.of_nat (length S) -> Forall (fun p => p ∈ S) l ->
  Forall (fun p => fsn ie <= pack_sn p) (release true 1 (fsn ie) w l).
Proof.
  intros Hpl Hw Hw' [Hf Hie] Hne Ht Hk Hl. apply Forall_forall. intros p Hp. apply release_elem in Hp as [Hp Hn].
  rewrite Forall_forall in Hl. destruct (Hpl p (Hl p Hp)) as [Hr _]. destruct (Z.le_gt_cases (fsn ie) (pack_sn p)) as [|Hlt]; [done|].
  exfalso. unfold acknowledges in Hn. rewrite u32_id in Hn by lia. change (1 =? 1) with true in Hn. cbn [andb] in Hn. lia.
Qed.

(** A true acknowledgement releases only blocks that have arrived. *)
Lemma arqRecvFeedback_ok S w c R k q ie a : in_place S -> 0 < w -> Z.of_nat (length S) + w <= 2048 -> snd_ok S w c a -> ie_ok R k ie ->
  Forall (fun p => k <= pack_sn p) q -> k <= Z.of_nat (length S) <= c ->
  let a' := arqRecvFeedback true ie a in
  snd_ok S w c a' /\ (forall p, p ∈ arq_trans_queue_ a -> p ∈ arq_trans_queue_ a' \/ got R k (pack_sn p)) /\
  sublist (arq_retrans_queue_ a') (arq_retrans_queue_ a) /\
  (Z.of_nat (length S) < w -> ahead_of_acks q a -> ahead_of_acks q a').
Proof.
  intros Hpl Hw Hroom [H1 H2 H3 H4 H5] Hok Hq Hk. pose proof Hok as [Hf Hie]. cbv zeta.
  assert (E : exists s, (arqRecvFeedback true ie a = a <| ack_seq_ := s |> <| arq_trans_queue_ := release true (ack_type ie) (fsn ie) w (arq_trans_queue_ a) |>
      <| arq_retrans_queue_ := release true (ack_type ie) (fsn ie) w (arq_retrans_queue_ a) |>) /\
      (ack_type ie = 1 /\ s = fsn ie \/ s = ack_seq_ a)).
  { unfold arqRecvFeedback. destruct (Z.eqb_spec (ack_type ie) 1) as [E1|E1]; cbn [arq_max_window_ set_field]; rewrite (proj2 H1);
      [exists (fsn ie); auto|exists (ack_seq_ a)]. split; [by destruct a|by right]. }
  destruct E as (s & -> & Hs). split; [|split; [|split]].
  - split; cbn; [done|done|by apply release_all|by apply release_all|].
    eapply sublist_NoDup; [exact H5|apply fmap_sublist, release_sub].
  - intros p Hp. cbn. destruct (acknowledges (ack_type ie) (fsn ie) (pack_sn p) w) eqn:Ea; [right|left; by apply release_elem].
    rewrite Forall_forall in H3. destruct (Hpl p (H3 p Hp)) as [Hr _].
    apply acknowledges_inv in Ea; [|lia..]. destruct Ea as [(Et & E1 & E2)|(Et & E1)]; destruct Hie as [[Ht Hi]|[Ht Hi]]; try lia.
    + left. lia.
    + by rewrite <- E1.
  - apply release_sub.
  - intros Hlt Ha. unfold ahead_of_acks. cbn. destruct Hs as [[Ht ->]| ->].
    + destruct (Z.eq_dec (fsn ie) 2047) as [|Hne]; [by left|right]. rewrite Ht. split; [lia|].
      pose proof (fun l => release_ahead S w R k ie l Hpl Hlt ltac:(lia) Hok Hne Ht ltac:(lia)) as Hl.
      split; [by apply Hl|]. split; [by apply Hl|]. eapply Forall_impl; [exact Hq|]. cbn. intros p Hp. lia.
    + destruct Ha as [?|(A1 & A2 & A3 & A4)]; [by left|right]. split; [done|]. split; [by apply release_all|]. split; [by apply release_all|done].
Qed.

Lemma take_acks_ok S w c R k q f : in_place S -> 0 < w -> Z.of_nat (length S) + w <= 2048 ->
  Forall (fun p => k <= pack_sn p) q -> k <= Z.of_nat (length S) <= c ->
  length (arq_ie f) = 100%nat -> forall n i a, 0 <= i -> i + Z.of_nat n <= 100 ->
  (forall j ie, Z.of_nat j < i + Z.of_nat n -> arq_ie f !! j = Some ie -> ie_ok R k ie) -> snd_ok S w c a ->
  returns (take_acks cid n i f a) (fun a' => snd_ok S w c a' /\
    (forall p, p ∈ arq_trans_queue_ a -> p ∈ arq_trans_queue_ a' \/ got R k (pack_sn p)) /\
    sublist (arq_retrans_queue_ a') (arq_retrans_queue_ a) /\
    (Z.of_nat (length S) < w -> ahead_of_acks q a -> ahead_of_acks q a')).
Proof.
  intros Hpl Hw Hroom Hq Hk Hlen. induction n as [|n IH]; intros i a Hi Hn Hies Ha; cbn [take_acks]; [apply returns_Ok; auto|].
  destruct (lookup_lt_is_Some_2 (arq_ie f) (Z.to_nat i)) as [ie Ei]; [lia|].
  rewrite (aread_ok _ _ ie) by (done || lia). rewrite bind_Ok. assert (Hie : ie_ok R k ie) by (apply (Hies (Z.to_nat i)); [lia|done]).
  set (a1 := if ie_cid ie =? cid then _ else _).
  assert (H1 : snd_ok S w c a1 /\ (forall p, p ∈ arq_trans_queue_ a -> p ∈ arq_trans_queue_ a1 \/ got R k (pack_sn p)) /\
    sublist (arq_retrans_queue_ a1) (arq_retrans_queue_ a) /\ (Z.of_nat (length S) < w -> ahead_of_acks q a -> ahead_of_acks q a1)).
  { unfold a1. destruct (ie_cid ie =? cid); [by apply arqRecvFeedback_ok|auto]. }
  destruct H1 as (H1 & T1 & S1 & W1). eapply returns_mono; [apply IH; [lia|lia| |exact H1]|].
  - intros j ie' Hj. apply Hies. lia.
  - intros a2 (H2 & T2 & S2 & W2). split; [done|]. split; [|split; [by etrans|auto]]. intros p Hp. destruct (T1 p Hp); auto.
Qed.

(** ** The two ends *)

Section Ends.
Context (ps : list block) (w : Z) (Hps : Forall (large bs) ps) (Hw : 0 < w) (Hroom : blocks_of bs ps + w <= 2048).
Local Notation S := (stream bs 0 ps).

(** The receiver, when the blocks [T] have been taken from the connection's queue. *)
Definition rcv_up (T : list block) (n : Z) (a : Arqstatus) (u : list block) : Prop :=
  exists m, rcv T w (stream bs 0 (take m ps)) n a /\ waiting bs ps (Z.to_nat (ack_seq_ a)) m /\
    (m <= length ps)%nat /\ sdu_data <$> u = sdu_data <$> take m ps.

(** What holds between two events: [rest] is not sent yet, [n] is the number of
    [spaced], and [t] blocks have arrived. *)
Record conn_ok (rest : list block) (n t : Z) (y : connection) : Prop := mkConnOk {
  co_sdus : sdus y ++ rest = ps;
  co_snd : snd_ok (stream bs 0 (sdus y)) w (blocks_of bs (sdus y)) (snd_ y);
  co_taken : exists T, stream bs 0 (sdus y) = T ++ conn_q y /\ Forall (fun p => p ∈ T) (air y) /\
    Forall (fun p => p ∈ T) (arq_retrans_queue_ (snd_ y)) /\ rcv_up T n (rcv_ y) (up y);
  co_next : Forall (fun p => pack_sn p <> ack_seq_ (rcv_ y)) (arq_retrans_queue_ (rcv_ y));
  co_keep : forall i, 0 <= i < blocks_of bs (sdus y) ->
    got (arq_retrans_queue_ (rcv_ y)) (ack_seq_ (rcv_ y)) i \/ exists p, p ∈ arq_trans_queue_ (snd_ y) /\ pack_sn p = i;
  co_acks : Forall (fb_ok (arq_retrans_queue_ (rcv_ y)) (ack_seq_ (rcv_ y)) 100) (acks y);
  co_size : Z.of_nat (length (arq_retrans_queue_ (rcv_ y))) <= t;
  co_ahead : blocks_of bs ps < w -> ahead_of_acks (conn_q y) (snd_ y) }.

Lemma S_length : Z.of_nat (length S) = blocks_of bs ps.
Proof. symmetry. by apply blocks_of_length. Qed.

Lemma S_place : in_place S.
Proof. intros p Hp. by apply stream_at. Qed.

Lemma S_same p q : p ∈ S -> q ∈ S -> pack_sn p = pack_sn q -> p = q.
Proof. intros Hp Hq E. destruct (S_place p Hp) as [_ Ep], (S_place q Hq) as [_ Eq]. rewrite E in Ep. congruence. Qed.

(** The blocks of the next SDU. *)
Lemma S_next rest y p : sdus y ++ p :: rest = ps ->
  Forall (fun q => q ∈ S) (pieces bs p (blocks_of bs (sdus y))) /\ large bs p /\
  blocks_of bs (sdus y) + full_blocks bs p + 1 <= blocks_of bs ps /\
  blocks_of bs (sdus y ++ [p]) = blocks_of bs (sdus y) + full_blocks bs p + 1 /\ 0 <= blocks_of bs (sdus y) /\
  stream bs 0 (sdus y ++ [p]) = stream bs 0 (sdus y) ++ pieces bs p (blocks_of bs (sdus y)).
Proof.
  intros E. assert (Hl : Forall (large bs) (sdus y ++ p :: rest)) by by rewrite E. apply Forall_app in Hl as [H1 H2].
  apply Forall_cons in H2 as [Hp H2]. pose proof (pieces_length bs Hbs p (blocks_of bs (sdus y)) Hp) as Hl.
  pose proof (blocks_of_length 0 _ H1) as E1. assert (E2 : S = stream bs 0 (sdus y) ++ pieces bs p (blocks_of bs (sdus y)) ++ stream bs (blocks_of bs (sdus y) + full_blocks bs p + 1) rest).
  { rewrite <- E, stream_app by done. by rewrite <- E1. }
  split; [|split; [done|]].
  - apply Forall_forall. intros q Hq. rewrite E2. rewrite !elem_of_app. auto.
  - rewrite <- S_length, E2, !length_app, !Nat2Z.inj_add, Hl, <- E1. split; [lia|]. split; [|split; [lia|]].
    2: { rewrite stream_app by done. cbn [stream]. by rewrite app_nil_r, <- E1. }
    rewrite (blocks_of_length 0); [|apply Forall_app; split; [done|by constructor]]. rewrite stream_app by done. cbn [stream].
    rewrite app_nil_r, length_app, Nat2Z.inj_add, <- E1, (pieces_length bs Hbs p _ Hp). lia.
Qed.

(** The blocks that are sent so far. *)
Lemma sent_place rest y : sdus y ++ rest = ps -> in_place (stream bs 0 (sdus y)) /\ stream bs 0 (sdus y) `prefix_of` S /\
  Z.of_nat (length (stream bs 0 (sdus y))) = blocks_of bs (sdus y) /\ blocks_of bs (sdus y) <= blocks_of bs ps.
Proof.
  intros E. assert (Hl : Forall (large bs) (sdus y ++ rest)) by by rewrite E. apply Forall_app in Hl as [H1 _].
  pose proof (blocks_of_length 0 _ H1) as E1. split; [intros p Hp; by apply stream_at|].
  assert (Hpre : stream bs 0 (sdus y) `prefix_of` S) by (eexists; rewrite <- E, stream_app by done; reflexivity).
  split; [done|]. split; [done|]. apply prefix_length in Hpre. pose proof S_length. lia.
Qed.

Lemma prefix_sn T i p : T `prefix_of` S -> T !! i = Some p -> pack_sn p = Z.of_nat i.
Proof.
  intros [K E] Hi. assert (Hs : S !! i = Some p) by (rewrite E; by apply lookup_app_l_Some). by apply stream_sn in Hs.
Qed.

Lemma prefix_place T : T `prefix_of` S -> in_place T.
Proof.
  intros Hpre p Hp. apply list_elem_of_lookup in Hp as [i Hi]. pose proof (prefix_sn T i p Hpre Hi) as ->. rewrite Nat2Z.id.
  apply lookup_lt_Some in Hi as Hl. split; [lia|done].
Qed.

(** The receiver's view when another block is taken. *)
Lemma rcv_up_longer T T' n a u : T `prefix_of` T' -> T' `prefix_of` S -> rcv_up T n a u -> rcv_up T' n a u.
Proof.
  intros Hpre Hpre' (m & [R1 R2 R3 R4 R5 R6 R7] & H). exists m. split; [|done].
  pose proof (prefix_length _ _ Hpre) as L1. pose proof (prefix_length _ _ Hpre') as L2. pose proof S_length as L3. split; try done.
  - by apply prefix_place.
  - lia.
  - lia.
  - rewrite R5. destruct Hpre as [K ->]. rewrite take_app_le; [done|lia].
  - eapply Forall_impl; [exact R6|]. intros p [Hp Hr]. split; [|done]. destruct Hpre as [K ->]. apply elem_of_app. by left.
Qed.

Lemma ahead_shorter q q' a : sublist q' q -> ahead_of_acks q a -> ahead_of_acks q' a.
Proof.
  intros Hs [?|(A1 & A2 & A3 & A4)]; [by left|right]. split; [done|]. split; [done|]. split; [done|].
  rewrite Forall_forall in *. intros p Hp. apply A4. by eapply elem_of_sublist.
Qed.

Lemma sdu_ok rest n t y p : conn_ok (p :: rest) n t y -> returns (warq_step cid bs (ESdu p) y) (conn_ok rest n t).
Proof.
  intros [H1 [C1 C2 C3 C4 C5] (T & H3 & H4 & H4' & H5) H6 H7 H8 H9 H10]. cbn [warq_step]. destruct (S_next rest y p H1) as (Hin & Hp & Hle & Eb & H0 & Est).
  rewrite send_sdu_ok by (done || lia || (rewrite C2; lia)). rewrite bind_Ok. apply returns_Ok. rewrite C2.
  pose proof (pieces_length bs Hbs p (blocks_of bs (sdus y)) Hp) as El.
  split; cbn [sdus snd_ conn_q air rcv_ up acks set_field]; try done.
  - by rewrite <- app_assoc.
  - rewrite Est. split; [done| | | |done].
    + change (arq_curr_seq_ (snd_ y) + Z.of_nat (length (pieces bs p (blocks_of bs (sdus y)))) = blocks_of bs (sdus y ++ [p])). rewrite Eb, C2, El. lia.
    + apply Forall_app. split; [|by apply Forall_forall; intros q Hq; apply elem_of_app; right].
      eapply Forall_impl; [exact C3|]. intros q Hq. apply elem_of_app. by left.
    + eapply Forall_impl; [exact C4|]. intros q Hq. apply elem_of_app. by left.
  - exists T. split; [by rewrite Est, H3, app_assoc|done].
  - intros i Hi. cbn. destruct (decide (i < blocks_of bs (sdus y))) as [Hlt|Hge].
    + destruct (H7 i ltac:(lia)) as [?|(q & Hq & Eq)]; [by left|right]. exists q. split; [apply elem_of_app; by left|done].
    + right. rewrite Eb in Hi.
      destruct (lookup_lt_is_Some_2 (pieces bs p (blocks_of bs (sdus y))) (Z.to_nat (i - blocks_of bs (sdus y)))) as [q Eq]; [lia|].
      exists q. split; [apply elem_of_app; right; by eapply list_elem_of_lookup_2|]. apply pieces_sn in Eq; [lia|done..].
  - intros Hlt. destruct (H10 Hlt) as [?|(A1 & A2 & A3 & A4)]; [by left|right]. cbn.
    assert (Hn : Forall (fun q => ack_seq_ (snd_ y) <= pack_sn q) (pieces bs p (blocks_of bs (sdus y)))).
    { apply Forall_lookup. intros i q Hi. apply pieces_sn in Hi; [lia|done..]. }
    split; [lia|]. split; [by apply Forall_app|]. split; [done|by apply Forall_app].
Qed.

Lemma timer_ok rest n t y : conn_ok rest n t y -> conn_ok rest n t (y <| snd_ := arqTimerHandler true (conn_q y) (snd_ y) |>).
Proof.
  intros [H1 [C1 C2 C3 C4 C5] (T & H3 & H4 & H4' & H5) H6 H7 H8 H9 H10].
  assert (Hq : forall P : block -> Prop, (forall p, p ∈ T -> P p) -> Forall (fun p => queued true p (conn_q y) = false -> P p) (arq_trans_queue_ (snd_ y))).
  { intros P HP. eapply Forall_impl; [exact C3|]. intros p Hp Hf. rewrite H3 in Hp. apply elem_of_app in Hp as [Hp|Hp]; [auto|].
    exfalso. apply queued_false in Hf. apply Hf, list_elem_of_fmap. by exists p. }
  destruct (requeue_ok (fun p => p ∈ T) (conn_q y) (arq_trans_queue_ (snd_ y)) _ (Hq _ (fun p Hp => Hp)) H4' C5) as (R1 & R2 & _).
  split; try done.
  - split; try done. cbn. eapply Forall_impl; [exact R1|]. intros p Hp. rewrite H3. apply elem_of_app. by left.
  - by exists T.
  - intros Hlt. destruct (H10 Hlt) as [?|(A1 & A2 & A3 & A4)]; [by left|right]. split; [done|]. split; [done|]. split; [|done].
    apply (requeue_ok (fun p => ack_seq_ (snd_ y) <= pack_sn p)); [|done..]. eapply Forall_impl; [exact A2|]. done.
Qed.

(** A block is taken. *)
Lemma next_block_ok rest n t y p y' : conn_ok rest n t y -> next_block y = Some (p, y') -> conn_ok rest n t y'.
Proof.
  intros [H1 [C1 C2 C3 C4 C5] (T & H3 & H4 & H4' & H5) H6 H7 H8 H9 H10]. unfold next_block.
  destruct (arq_retrans_queue_ (snd_ y)) as [|p' l] eqn:E.
  - destruct (conn_q y) as [|p' q] eqn:Eq; [done|]. intros [= -> <-]. destruct (sent_place rest y H1) as (Hpl & Hpre & _).
    split; try done; cbn.
    + split; try done; by rewrite E.
    + exists (T ++ [p]). split; [by rewrite H3, <- app_assoc|].
      split; [apply Forall_app; split; [|constructor; [apply elem_of_app; right; by apply list_elem_of_singleton|constructor]];
        eapply Forall_impl; [exact H4|]; intros r Hr; apply elem_of_app; by left|].
      split; [by rewrite E|]. eapply rcv_up_longer; [by eexists| |exact H5]. etrans; [|exact Hpre]. exists q. by rewrite H3, <- app_assoc.
    + intros Hlt. eapply ahead_shorter; [|exact (H10 Hlt)]. by apply sublist_cons.
  - intros [= -> <-]. apply Forall_cons in C4 as [Hp C4]. cbn in C5. apply NoDup_cons in C5 as [_ C5]. apply Forall_cons in H4' as [Ht H4'].
    split; try done; cbn.
    + exists T. split; [done|]. split; [|done]. apply Forall_app. split; [done|]. by constructor.
    + intros Hlt. destruct (H10 Hlt) as [?|(A1 & A2 & A3 & A4)]; [by left|right]. rewrite E in A3. apply Forall_cons in A3 as [_ A3]. done.
Qed.

Lemma xmit_pdu_ok rest n t c y : conn_ok rest n t y -> conn_ok rest n t (xmit_pdu c y).
Proof.
  assert (Hn : forall c y, conn_ok rest n t y -> conn_ok rest n t (xmit_next c y)).
  { clear c y. intros c. induction c as [|c IH]; intros y H; cbn [xmit_next]; [done|]. destruct (next_block y) as [[p y']|] eqn:E; [|done].
    destruct (next_outside _ _); [done|]. apply IH. by eapply next_block_ok. }
  intros H. unfold xmit_pdu. destruct (next_block y) as [[p y']|] eqn:E; [|done]. destruct (first_outside _ _); [done|].
  apply Hn. by eapply next_block_ok.
Qed.

Lemma send_fb_ok rest n t y : 1 <= n <= 100 -> conn_ok rest n t y -> returns (warq_step cid bs ESendFb y) (conn_ok rest 1 t).
Proof.
  intros Hn [H1 H2 (T & H3 & H4 & H4' & (m & Hr & Hwt & Hm & Hu)) H6 H7 H8 H9 H10]. cbn [warq_step].
  assert (Hr' : forall a, (exists q, a = (rcv_ y) <| arq_feedback_queue_ := q |>) -> arq_feedback_queue_ a = [] -> rcv T w (stream bs 0 (take m ps)) 1 a).
  { intros a [q ->] E. destruct Hr as [R1 R2 R3 R4 R5 R6 R7]. split; try done. left. exact E. }
  pose proof (rc_fb _ _ _ _ _ _ Hr) as Hf. destruct (arq_feedback_queue_ (rcv_ y)) as [|f l] eqn:E.
  - apply returns_Ok. split; try done. exists T. split; [done|]. split; [done|]. split; [done|]. exists m. split; [|done].
    apply Hr'; [|done]. exists []. rewrite <- E. by destruct (rcv_ y).
  - destruct Hf as [Hf|(f' & Hf & Hok)]; [done|]. injection Hf as -> ->. apply returns_Ok. split; try done; cbn.
    + exists T. split; [done|]. split; [done|]. split; [done|]. exists m. split; [|done]. apply Hr'; [by exists []|done].
    + apply Forall_app. split; [done|]. constructor; [|constructor]. eapply fb_ok_grows; [apply grows_refl| |exact Hok]. lia.
Qed.

(** The blocks that have not been taken have not arrived. *)
Lemma queue_ahead rest n t y : conn_ok rest n t y -> Forall (fun p => ack_seq_ (rcv_ y) <= pack_sn p) (conn_q y) /\ 0 <= ack_seq_ (rcv_ y) <= blocks_of bs (sdus y).
Proof.
  intros H. destruct (co_taken _ _ _ _ H) as (T & H3 & _ & _ & m & R & _). destruct (sent_place rest y (co_sdus _ _ _ _ H)) as (Hpl & Hpre & L & _).
  pose proof (rc_seq _ _ _ _ _ _ R) as Hk. rewrite H3, length_app in L. split; [|lia].
  apply Forall_lookup. intros i p Hi. rewrite (prefix_sn (stream bs 0 (sdus y)) (length T + i) p Hpre); [lia|].
  rewrite H3, lookup_app_r by lia. by replace (length T + i - length T)%nat with i by lia.
Qed.

Lemma fb_event_ok rest n t y i : conn_ok rest n t y -> returns (warq_step cid bs (EFb i) y) (conn_ok rest n t).
Proof.
  intros H. destruct (queue_ahead _ _ _ _ H) as [Hq Hk]. pose proof H as [H1 H2 (T & H3 & H4 & H4' & H5) H6 H7 H8 H9 H10].
  cbn [warq_step]. destruct (acks y !! i) as [f|] eqn:E; [|done]. destruct (sent_place rest y H1) as (Hpl & Hpre & L & L').
  rewrite Forall_lookup in H8. pose proof (H8 i f E) as (F1 & F2 & F3).
  eapply returns_bind; [eapply (take_acks_ok (stream bs 0 (sdus y)) w (blocks_of bs (sdus y)) _ (ack_seq_ (rcv_ y)) (conn_q y) f Hpl Hw); [lia|exact Hq|lia|done|lia|lia| |exact H2]|].
  - intros j ie Hj. apply F3. lia.
  - intros a (Ha & Hkeep & Hsub & Hah). apply returns_Ok. split; try done; cbn.
    + exists T. split; [done|]. split; [done|]. split; [|done]. rewrite Forall_forall in *. intros p Hp. apply H4'. by eapply elem_of_sublist.
    + intros j Hj. destruct (H7 j Hj) as [?|(p & Hp & Ep)]; [by left|]. destruct (Hkeep p Hp) as [?|Hg]; [right; by exists p|left]. by rewrite <- Ep.
    + by apply Forall_lookup.
    + intros Hlt. apply Hah; [lia|auto].
Qed.

(** A PDU arrives. *)
Lemma receive_pdu_ok T n l a u : T `prefix_of` S -> 1 <= n -> n + Z.of_nat (length l) <= 100 -> Forall (fun p => p ∈ T) l ->
  Z.of_nat (length (arq_retrans_queue_ a)) + Z.of_nat (length l) < 1000000000000 -> rcv_up T n a u ->
  returns (receive_pdu cid l a u) (fun '(a', u') => rcv_up T (n + Z.of_nat (length l)) a' u' /\ further a a' /\ Forall (fun p => pack_sn p <> ack_seq_ a') (arq_retrans_queue_ a') /\
    (length (arq_retrans_queue_ a') <= length (arq_retrans_queue_ a) + length l)%nat /\
    forall p, p ∈ l -> pack_sn p <= ack_seq_ a + w -> got (arq_retrans_queue_ a') (ack_seq_ a') (pack_sn p)).
Proof.
  intros Hpre Hn Hl Hf Ht (m & Hr & Hwt & Hm & Hu). unfold receive_pdu. pose proof (prefix_length _ _ Hpre) as Lp. pose proof S_length as Ls.
  eapply returns_bind; [by apply (take_blocks_ok T w (stream bs 0 (take m ps)) cid l n)|]. intros a1 (R1 & G1 & T1 & L1).
  eapply returns_bind; [apply (transfers_ok T w (stream bs 0 (take m ps)) cid (n + Z.of_nat (length l)) a1); [lia|done|lia]|]. intros a2 (R2 & G2 & L2 & N2).
  pose proof (rc_seq _ _ _ _ _ _ R2) as Hk2.
  assert (Hh : handed bs ps (Z.to_nat (ack_seq_ a2)) m (arq_trans_queue_ a2) u).
  { split; [done| |done]. rewrite (rc_log _ _ _ _ _ _ R2). destruct Hpre as [K ->]. rewrite take_app_le; [done|lia]. }
  eapply returns_bind; [apply (reassemble_ok bs Hbs ps (Z.to_nat (ack_seq_ a2)) m _ _ Hps ltac:(lia) Hh)|].
  - pose proof (f_equal length (hd_queue _ _ _ _ _ _ Hh)) as E. rewrite length_app, length_take in E. lia.
  - intros [q u'] (m' & [D1 D2 D3] & _ & W). apply returns_Ok. split; [exists m'; split; [|done]|].
    + destruct R2 as [Q1 Q2 Q3 Q4 Q5 Q6 Q7]. split; try done. cbn. rewrite D2. destruct Hpre as [K ->]. rewrite take_app_le; [done|lia].
    + split; [by eapply grows_trans|]. split; [done|]. split; [cbn; lia|]. intros p Hp Hpw. apply G2, T1; [done|]. exact Hpw.
Qed.

Lemma recv_ok rest n t y is_ : 1 <= n -> n + Z.of_nat (length is_) <= 100 -> t + Z.of_nat (length is_) < 1000000000000 -> conn_ok rest n t y ->
  returns (warq_step cid bs (ERecv is_) y) (fun y' => conn_ok rest (n + Z.of_nat (length is_)) (t + Z.of_nat (length is_)) y' /\ further (rcv_ y) (rcv_ y') /\ (exists a u, y' = y <| rcv_ := a |> <| up := u |>) /\
    forall i p, i ∈ is_ -> air y !! i = Some p -> pack_sn p <= ack_seq_ (rcv_ y) + w ->
      got (arq_retrans_queue_ (rcv_ y')) (ack_seq_ (rcv_ y')) (pack_sn p)).
Proof.
  intros Hn Hl Ht [H1 H2 (T & H3 & H4 & H4' & H5) H6 H7 H8 H9 H10]. cbn [warq_step]. set (l := omap (fun i => air y !! i) is_).
  assert (Hll : (length l <= length is_)%nat).
  { unfold l. clear. induction is_ as [|i is_ IH]; cbn; [done|]. destruct (air y !! i); cbn in *; lia. }
  assert (Hlf : Forall (fun p => p ∈ T) l).
  { apply Forall_forall. intros p Hp. apply list_elem_of_omap in Hp as (i & _ & Ei). rewrite Forall_lookup in H4. by apply (H4 i). }
  destruct (sent_place rest y H1) as (_ & Hpre & _). assert (HT : T `prefix_of` S) by (etrans; [|exact Hpre]; rewrite H3; by eexists).
  eapply returns_bind; [apply (receive_pdu_ok T n l (rcv_ y) (up y)); done || lia|].
  intros [a u] ((m & R & W & Hm & Hu) & G & N & L & Hgot). apply returns_Ok. split; [|split; [exact G|split; [by exists a, u|]]].
  - split; try done; cbn.
    + exists T. split; [done|]. split; [done|]. split; [done|]. exists m. split; [|done]. apply (rcv_more _ _ _ _ (n + Z.of_nat (length l))); [lia|exact R].
    + intros i Hi. destruct (H7 i Hi) as [Hg|?]; [left; by apply G|by right].
    + eapply Forall_impl; [exact H8|]. intros f Hf. eapply (fb_ok_grows _ _ _ _ 100); [exact G|lia|exact Hf].
    + lia.
  - intros i p Hi Ei Hpw. apply Hgot; [|done]. apply list_elem_of_omap. by exists i.
Qed.

(** ** Runs *)

Lemma conn_ok_more rest n t t' y : t <= t' -> conn_ok rest n t y -> conn_ok rest n t' y.
Proof. intros Ht [H1 H2 H3 H4 H5 H6 H7 H8]. split; try done. lia. Qed.

Lemma new_ok period : conn_ok ps 1 0 (new_connection period w).
Proof.
  pose proof S_length as Hl. split; try done; cbn.
  - split; try done. constructor.
  - exists []. split; [done|]. split; [done|]. split; [done|]. exists O. split; [|split; [|split; [lia|done]]].
    + split; try done; cbn; [intros p Hp; by apply elem_of_nil in Hp|lia|by left].
    + intros H. destruct ps as [|p qs]; [cbn in H; lia|]. cbn. lia.
  - intros i Hi. lia.
  - intros _. right. by split.
Qed.

Lemma arrivals_nonneg es : 0 <= arrivals es.
Proof. induction es as [|e es IH]; [done|]. cbn. destruct e; fold (arrivals es); lia. Qed.

Lemma run_ok es : forall rest n t y, 1 <= n <= 100 -> conn_ok (sdus_of es ++ rest) n t y -> spaced n es = true ->
  t + arrivals es < 1000000000000 ->
  returns (warq_run cid bs es y) (fun y' => exists n', 1 <= n' <= 100 /\ conn_ok rest n' (t + arrivals es) y').
Proof.
  induction es as [|e es IH]; intros rest n t y Hn H Hs Ht; cbn [warq_run].
  { apply returns_Ok. exists n. split; [done|]. by replace (t + arrivals []) with t by (cbn; lia). }
  pose proof (arrivals_nonneg es) as Ha.
  destruct e as [p| |c|is_| |i]; cbn in H, Hs; fold (sdus_of es) in H; try change (arrivals (_ :: es)) with (arrivals es) in *.
  - eapply returns_bind; [apply (sdu_ok _ _ _ _ _ H)|]. intros y1 H1. by apply (IH rest n t y1).
  - cbn [warq_step]. rewrite bind_Ok. apply (IH rest n t); try done. by apply timer_ok.
  - cbn [warq_step]. rewrite bind_Ok. apply (IH rest n t); try done. by apply xmit_pdu_ok.
  - change (arrivals (ERecv is_ :: es)) with (Z.of_nat (length is_) + arrivals es) in *. apply andb_prop in Hs as [Hs1 Hs2].
    eapply returns_bind; [apply (recv_ok (sdus_of es ++ rest) n t y is_); try done; lia|]. intros y1 [H1 _].
    rewrite Z.add_assoc in Ht |- *. apply (IH rest (n + Z.of_nat (length is_)) (t + Z.of_nat (length is_)) y1); try done; lia.
  - eapply returns_bind; [apply (send_fb_ok _ n _ _ Hn H)|]. intros y1 H1. apply (IH rest 1 t y1); try done.
  - eapply returns_bind; [apply (fb_event_ok _ _ _ _ i H)|]. intros y1 H1. by apply (IH rest n t y1).
Qed.

(** The parts of the invariant that the theorems show. *)
Lemma conn_up n t y : conn_ok [] n t y -> sdus y = ps /\ exists m, sdu_data <$> up y = sdu_data <$> take m ps.
Proof. intros [H1 _ (T & _ & _ & _ & m & _ & _ & _ & Hu) _ _ _ _ _]. rewrite app_nil_r in H1. split; [done|]. by exists m. Qed.

Lemma conn_kept n t y p : conn_ok [] n t y -> p ∈ S ->
  pack_sn p < ack_seq_ (rcv_ y) \/ p ∈ arq_retrans_queue_ (rcv_ y) \/ p ∈ arq_trans_queue_ (snd_ y).
Proof.
  intros H Hp. destruct (conn_up _ _ _ H) as [E _]. destruct (S_place p Hp) as [Hr _]. rewrite S_length in Hr.
  destruct (sent_place [] y (co_sdus _ _ _ _ H)) as (_ & [K EK] & _).
  destruct (co_keep _ _ _ _ H (pack_sn p) ltac:(by rewrite E)) as [[Hg|(q & Hq & Eq)]|(q & Hq & Eq)]; [by left| |]; right; [left|right].
  - destruct (co_taken _ _ _ _ H) as (T & ET & _ & _ & m & R & _). pose proof (rc_buf _ _ _ _ _ _ R) as Hb. rewrite Forall_forall in Hb.
    destruct (Hb q Hq) as [Hin _]. rewrite <- (S_same q p); [done| |done|done]. rewrite EK, ET, !elem_of_app. auto.
  - pose proof (sn_trans _ _ _ _ (co_snd _ _ _ _ H)) as Hb. rewrite Forall_forall in Hb.
    rewrite <- (S_same q p); [done| |done|done]. rewrite EK, elem_of_app. auto.
Qed.

(** ** A round *)

Lemma first_inside a p : arq_max_seq_ a = 2048 -> arq_max_window_ a = w -> w <= 2048 ->
  ack_seq_ a = 2047 /\ 0 <= pack_sn p < w - 1 \/ 0 <= ack_seq_ a <= pack_sn p /\ pack_sn p < ack_seq_ a + w -> first_outside (pack_sn p) a = false.
Proof. intros E1 E2 Hw2 H. unfold first_outside. rewrite E1, E2. lia. Qed.

(** The scheduler takes all that is queued, when all of it is in the window. *)
Lemma xmit_all c : forall y, c = (length (arq_retrans_queue_ (snd_ y)) + length (conn_q y))%nat ->
  Forall (fun p => first_outside (pack_sn p) (snd_ y) = false) (arq_retrans_queue_ (snd_ y) ++ conn_q y) ->
  warq_run cid bs (replicate c (EXmit 0)) y = Ok (y <| conn_q := [] |> <| snd_ := (snd_ y) <| arq_retrans_queue_ := [] |> |>
    <| air := air y ++ arq_retrans_queue_ (snd_ y) ++ conn_q y |>).
Proof.
  induction c as [|c IH]; intros y Hc Hin; cbn [replicate warq_run warq_step].
  - destruct y as [q [k1 k2 k3 k4 k5 k6 k7 tq rq fq] r ai ak u sd]. cbn in Hc |- *. destruct rq; [|cbn in Hc; lia]. destruct q; [|cbn in Hc; lia].
    by rewrite app_nil_r.
  - rewrite bind_Ok. unfold xmit_pdu, next_block. destruct (arq_retrans_queue_ (snd_ y)) as [|p l] eqn:E.
    + destruct (conn_q y) as [|p q] eqn:Eq; [cbn in Hc; lia|]. apply Forall_cons in Hin as [-> Hin]. cbn [xmit_next].
      rewrite IH; [|cbn in *; rewrite ?E; cbn; lia|cbn; by rewrite E]. cbn. rewrite E. cbn. by rewrite <- app_assoc.
    + apply Forall_cons in Hin as [-> Hin]. cbn [xmit_next]. rewrite IH; [|cbn in *; lia|done]. cbn. by rewrite <- app_assoc.
Qed.

Lemma warq_run_app es fs : forall y, warq_run cid bs (es ++ fs) y = (y ← warq_run cid bs es y; warq_run cid bs fs y).
Proof.
  induction es as [|e es IH]; intros y; [done|]. cbn [app warq_run]. destruct (warq_step cid bs e y) as [y1|u]; [|done]. by rewrite !bind_Ok.
Qed.

Lemma xmits_ok c rest n t : forall y, conn_ok rest n t y -> returns (warq_run cid bs (replicate c (EXmit 0)) y) (conn_ok rest n t).
Proof.
  induction c as [|c IH]; intros y H; cbn [replicate warq_run]; [done|]. cbn [warq_step]. rewrite bind_Ok. apply IH. by apply xmit_pdu_ok.
Qed.

Lemma send_fb_frame y : returns (warq_step cid bs ESendFb y) (fun y' =>
  exists q k, y' = y <| rcv_ := (rcv_ y) <| arq_feedback_queue_ := q |> |> <| acks := k |>).
Proof.
  cbn [warq_step]. destruct (arq_feedback_queue_ (rcv_ y)) as [|f l] eqn:E; apply returns_Ok.
  - exists [], (acks y). rewrite <- E. by destruct y as [? ? [] ? ? ? ?].
  - by exists l, (acks y ++ [f]).
Qed.

(** One block arrives after another. *)
Lemma recvs_ok rest js : forall n t y, 1 <= n <= 100 -> conn_ok rest n t y -> t + Z.of_nat (length js) < 1000000000000 ->
  returns (warq_run cid bs (mjoin ((fun i => [ESendFb; ERecv [i]]) <$> js)) y) (fun y' =>
    (exists n', 1 <= n' <= 100 /\ conn_ok rest n' (t + Z.of_nat (length js)) y') /\ further (rcv_ y) (rcv_ y') /\ air y' = air y /\
    forall i p, i ∈ js -> air y !! i = Some p -> pack_sn p <= ack_seq_ (rcv_ y) + w ->
      got (arq_retrans_queue_ (rcv_ y')) (ack_seq_ (rcv_ y')) (pack_sn p)).
Proof.
  induction js as [|j js IH]; intros n t y Hn H Ht.
  - apply returns_Ok. split; [exists n; split; [done|]; by replace (t + Z.of_nat (length [])) with t by (cbn; lia)|].
    split; [apply grows_refl|]. split; [done|]. intros i p Hi. by apply elem_of_nil in Hi.
  - change (mjoin _) with (ESendFb :: ERecv [j] :: mjoin ((fun i => [ESendFb; ERecv [i]]) <$> js)). cbn [warq_run length] in Ht |- *.
    eapply returns_bind; [apply returns_and; [apply (send_fb_ok _ n _ _ Hn H)|apply send_fb_frame]|]. intros y1 [H1 (q & k & E1)].
    assert (Ea : air y1 = air y) by by rewrite E1. assert (Es : ack_seq_ (rcv_ y1) = ack_seq_ (rcv_ y)) by by rewrite E1.
    assert (Er : arq_retrans_queue_ (rcv_ y1) = arq_retrans_queue_ (rcv_ y)) by by rewrite E1. clear E1 q k.
    eapply returns_bind; [apply (recv_ok rest 1 t y1 [j]); [lia|cbn; lia|cbn; lia|exact H1]|].
    intros y2 (H2 & G2 & (a & u & E2) & T2). assert (Ea2 : air y2 = air y) by by rewrite E2. clear a u E2. change (Z.of_nat (length [j])) with 1 in H2.
    eapply returns_mono; [apply (IH (1 + 1) (t + 1) y2); [lia|exact H2|lia]|]. intros y3 ((n3 & Hn3 & H3) & G3 & Ea3 & T3).
    replace (t + Z.of_nat (Datatypes.S (length js))) with (t + 1 + Z.of_nat (length js)) by lia.
    unfold further in *. rewrite Es, Er in G2. rewrite Es in T2. rewrite Ea in T2. rewrite Ea2 in T3.
    split; [by exists n3|]. split; [by eapply grows_trans|]. split; [by rewrite Ea3, Ea2|]. intros i p Hi Ei Hp.
    apply elem_of_cons in Hi as [->|Hi]; [apply G3, (T2 j p); [by apply list_elem_of_singleton|done|done]|].
    apply (T3 i p Hi Ei). destruct G2 as [G2 _]. lia.
Qed.

(** A queue without repetitions is not longer than [S]. *)
Lemma once_length l : NoDup (pack_sn <$> l) -> Forall (fun p => p ∈ S) l -> Z.of_nat (length l) <= blocks_of bs ps.
Proof.
  intros Hn Hl. rewrite <- S_length. apply inj_le. rewrite <- (length_fmap pack_sn l). rewrite <- (length_fmap pack_sn S).
  apply submseteq_length, NoDup_submseteq; [done|]. intros x Hx. apply list_elem_of_fmap in Hx as (p & -> & Hp). apply list_elem_of_fmap.
  rewrite Forall_forall in Hl. exists p. auto.
Qed.

(** What is queued after the timer is in the window. *)
Lemma queue_inside n t y : conn_ok [] n t y -> blocks_of bs ps < w ->
  Forall (fun p => first_outside (pack_sn p) (snd_ y) = false) (arq_retrans_queue_ (snd_ y) ++ conn_q y).
Proof.
  intros H Hlt. destruct (co_snd _ _ _ _ H) as [[E1 E2] _ _ Hr _]. destruct (sent_place [] y (co_sdus _ _ _ _ H)) as (Hpl & _ & L & L').
  destruct (co_taken _ _ _ _ H) as (T & ET & _).
  assert (Hin : Forall (fun p => p ∈ stream bs 0 (sdus y)) (arq_retrans_queue_ (snd_ y) ++ conn_q y)).
  { apply Forall_app. split; [done|]. apply Forall_forall. intros p Hp. rewrite ET, elem_of_app. by right. }
  rewrite Forall_forall in *. intros p Hp. destruct (Hpl p (Hin p Hp)) as [Hsn _]. apply first_inside; [done|done|lia|].
  destruct (co_ahead _ _ _ _ H Hlt) as [?|(A1 & _ & A3 & A4)]; [left; lia|right]. rewrite Forall_forall in A3, A4.
  assert (ack_seq_ (snd_ y) <= pack_sn p) by (apply elem_of_app in Hp as [Hp|Hp]; auto). lia.
Qed.

(** What the timer leaves to be sent: at most all blocks, and every block that has not
    arrived. *)
Lemma to_send_bound n t y : conn_ok [] n t y -> Z.of_nat (to_send y) <= 4096.
Proof.
  intros H. pose proof (timer_ok _ _ _ _ H) as H1. set (y1 := y <| snd_ := _ |>) in *. pose proof (co_snd _ _ _ _ H1) as Hs1.
  destruct (sent_place [] y1 (co_sdus _ _ _ _ H1)) as (_ & Hpre & Ls & Ls'). destruct (co_taken _ _ _ _ H1) as (T & ET & _).
  rewrite ET, length_app in Ls. assert (Lr : Z.of_nat (length (arq_retrans_queue_ (snd_ y1))) <= blocks_of bs ps).
  { apply once_length; [exact (sn_once _ _ _ _ Hs1)|]. eapply Forall_impl; [exact (sn_retrans _ _ _ _ Hs1)|]. intros p Hp.
    destruct Hpre as [K ->]. apply elem_of_app. by left. }
  change (to_send y) with (length (arq_retrans_queue_ (snd_ y1)) + length (conn_q y1))%nat. lia.
Qed.

Lemma timer_has n t y i : conn_ok [] n t y -> 0 <= i < blocks_of bs ps ->
  got (arq_retrans_queue_ (rcv_ y)) (ack_seq_ (rcv_ y)) i \/
  exists q, q ∈ arq_retrans_queue_ (arqTimerHandler true (conn_q y) (snd_ y)) ++ conn_q y /\ pack_sn q = i.
Proof.
  intros H Hi. destruct (conn_up _ _ _ H) as [Esd _]. destruct (co_keep _ _ _ _ H i) as [Hg|(p & Hp & Ep)]; [by rewrite Esd|by left|right].
  destruct (requeue_ok (fun _ => True) (conn_q y) (arq_trans_queue_ (snd_ y)) (arq_retrans_queue_ (snd_ y)))
    as (_ & _ & _ & Hq); [by apply Forall_true|by apply Forall_true|exact (sn_once _ _ _ _ (co_snd _ _ _ _ H))|].
  destruct (Hq p Hp) as (q & Hin & Eq). exists q. split; [|lia]. apply elem_of_app. by destruct Hin; [right|left].
Qed.

(** The receiver does not keep what it expects. *)
Lemma next_missing rest n t y : conn_ok rest n t y -> ~ got (arq_retrans_queue_ (rcv_ y)) (ack_seq_ (rcv_ y)) (ack_seq_ (rcv_ y)).
Proof.
  intros H [Hg|(p & Hp & Ep)]; [lia|]. pose proof (co_next _ _ _ _ H) as Hne. rewrite Forall_forall in Hne. by apply (Hne p Hp).
Qed.

(** A round brings everything. *)
Lemma round_ok n t y : 1 <= n <= 100 -> conn_ok [] n t y -> t + 4096 < 1000000000000 -> blocks_of bs ps < w ->
  returns (warq_run cid bs (round y) y) (fun y' => (exists n', 1 <= n' <= 100 /\ conn_ok [] n' (t + 4096) y') /\ blocks_of bs ps <= ack_seq_ (rcv_ y')).
Proof.
  intros Hn H Ht Hlt. unfold round. cbn [warq_run warq_step]. rewrite bind_Ok. pose proof (timer_ok _ _ _ _ H) as H1.
  set (y1 := y <| snd_ := _ |>) in *. pose proof (to_send_bound _ _ _ H) as Lts.
  assert (Hts : to_send y = (length (arq_retrans_queue_ (snd_ y1)) + length (conn_q y1))%nat) by done.
  pose proof (queue_inside _ _ _ H1 Hlt) as Hin. rewrite warq_run_app, Hts, xmit_all, bind_Ok by done. rewrite <- Hts.
  set (y2 := y1 <| conn_q := [] |> <| snd_ := _ |> <| air := _ |>).
  assert (H2 : conn_ok [] n t y2).
  { pose proof (xmits_ok (to_send y) [] n t y1 H1) as Hx. rewrite Hts, xmit_all in Hx by done. exact Hx. }
  assert (Ea : air y2 = air y ++ arq_retrans_queue_ (snd_ y1) ++ conn_q y1) by done. assert (Er : rcv_ y2 = rcv_ y) by done.
  clearbody y2. eapply returns_mono; [apply (recvs_ok [] (seq (length (air y)) (to_send y)) n t y2 Hn H2)|].
  { rewrite length_seq. lia. }
  intros y3 ((n3 & Hn3 & H3) & G3 & _ & T3). rewrite length_seq, Er in *.
  assert (H3' : conn_ok [] n3 (t + 4096) y3) by (eapply conn_ok_more; [|exact H3]; lia). split; [by exists n3|].
  destruct (Z.le_gt_cases (blocks_of bs ps) (ack_seq_ (rcv_ y3))) as [|Hgt]; [done|exfalso].
  set (k := ack_seq_ (rcv_ y3)) in *. destruct (queue_ahead _ _ _ _ H3) as [_ Hk]. fold k in Hk. destruct (queue_ahead _ _ _ _ H) as [_ Hk0].
  apply (next_missing _ _ _ _ H3). fold k. destruct (timer_has _ _ _ k H ltac:(lia)) as [Hg|(q & Hin2 & Eq)]; [by apply G3|].
  enough (Hx : got (arq_retrans_queue_ (rcv_ y3)) k (pack_sn q)) by (rewrite Eq in Hx; exact Hx).
  apply list_elem_of_lookup in Hin2 as [i Hi]. apply lookup_lt_Some in Hi as Hil. rewrite length_app in Hil.
  assert (Hil' : (i < to_send y)%nat) by exact Hil. change (_ ++ _ ++ _) with (air y ++ arq_retrans_queue_ (arqTimerHandler true (conn_q y) (snd_ y)) ++ conn_q y) in Ea.
  apply (T3 (length (air y) + i)%nat); [apply elem_of_seq; lia|rewrite Ea, lookup_app_r by lia; rewrite <- Hi; f_equal; lia|lia].
Qed.

Lemma conn_all n t y : conn_ok [] n t y -> blocks_of bs ps <= ack_seq_ (rcv_ y) -> sdu_data <$> up y = sdu_data <$> ps.
Proof.
  intros H Hk. destruct (co_taken _ _ _ _ H) as (T & ET & _ & _ & m & R & W & Hm & Hu). pose proof S_length.
  destruct (sent_place [] y (co_sdus _ _ _ _ H)) as (_ & [K EK] & _). pose proof (rc_seq _ _ _ _ _ _ R) as Hr.
  apply (handed_all bs Hbs ps (Z.to_nat (ack_seq_ (rcv_ y))) m (arq_trans_queue_ (rcv_ y))); [done| |done|lia].
  split; [done| |done]. rewrite (rc_log _ _ _ _ _ _ R), EK, ET, <- app_assoc, take_app_le; [done|lia].
Qed.
End Ends.
End Conn.

(** * The connection is correct *)

(** C12: An 802.16 connection with ARQ never hands up anything wrong.  SDUs of at
    least a block's size are sent, [blocks_of] of them and the window stay within
    the 2048 numbers, and the receiver sends its acknowledgements before 100 blocks
    have come.  Whatever then is lost, repeated or reordered, on the way there and
    back: nothing traps; the SDUs handed up are the first of those that were sent,
    each once, with their sizes; a block that has not arrived is still in the
    sender's transmission queue. *)
Theorem wimax_arq_safe cid bs period w es : 0 < bs -> 0 < w -> Forall (large bs) (sdus_of es) ->
  blocks_of bs (sdus_of es) + w <= 2048 -> spaced 1 es = true -> arrivals es < 1000000000000 ->
  returns (warq_run cid bs es (new_connection period w)) (fun y =>
    (exists m, sdu_data <$> up y = take m (sdu_data <$> sdus_of es)) /\
    forall p, p ∈ stream bs 0 (sdus_of es) ->
      pack_sn p < ack_seq_ (rcv_ y) \/ p ∈ arq_retrans_queue_ (rcv_ y) \/ p ∈ arq_trans_queue_ (snd_ y)).
Proof.
  intros Hbs Hw Hl Hroom Hs Ht.
  eapply returns_mono; [apply (run_ok cid bs Hbs (sdus_of es) w Hl Hw Hroom es [] 1 0); [lia| |done|lia]|].
  - rewrite app_nil_r. exact (new_ok bs Hbs (sdus_of es) w Hl Hw Hroom period).
  - intros y (n & Hn & H). split; [|intros p Hp; by apply (conn_kept bs Hbs (sdus_of es) w Hl n _ y p H)].
    destruct (conn_up bs (sdus_of es) w n _ y H) as (_ & m & E). exists m. by rewrite E, fmap_take.
Qed.

(** C13: What fits in the window is delivered, whatever was lost before, the
    acknowledgements included.  After such a run with fewer blocks than the window
    has, one round is enough, in which the timer expires and what the sender then
    sends arrives: the sender's window lets every block through that it has queued,
    and all SDUs have been handed up, in order and with their sizes. *)
Theorem wimax_arq_completes cid bs period w es : 0 < bs -> Forall (large bs) (sdus_of es) ->
  blocks_of bs (sdus_of es) < w -> blocks_of bs (sdus_of es) + w <= 2048 -> spaced 1 es = true -> arrivals es + 4096 < 1000000000000 ->
  returns (y ← warq_run cid bs es (new_connection period w); warq_run cid bs (round y) y) (fun y =>
    sdu_data <$> up y = sdu_data <$> sdus_of es).
Proof.
  intros Hbs Hl Hw Hroom Hs Ht.
  assert (Hw0 : 0 < w) by (pose proof (blocks_of_length bs Hbs 0 _ Hl); lia).
  eapply returns_bind; [apply (run_ok cid bs Hbs (sdus_of es) w Hl Hw0 Hroom es [] 1 0); [lia| |done|lia]|].
  - rewrite app_nil_r. exact (new_ok bs Hbs (sdus_of es) w Hl Hw0 Hroom period).
  - intros y (n & Hn & H). eapply returns_mono; [apply (round_ok cid bs Hbs (sdus_of es) w Hl Hw0 Hroom n _ y Hn H); lia|].
    intros y' [(n' & _ & H') L]. by apply (conn_all bs Hbs (sdus_of es) w Hl n' _ y' H').
Qed.

(** * The connection, run *)

Lemma wimax_arq_safe_witness : returns (warq_run 7 100 demo (new_connection 1 10)) (fun y =>
    (exists m, sdu_data <$> up y = take m (sdu_data <$> sdus_of demo)) /\
    forall p, p ∈ stream 100 0 (sdus_of demo) ->
      pack_sn p < ack_seq_ (rcv_ y) \/ p ∈ arq_retrans_queue_ (rcv_ y) \/ p ∈ arq_trans_queue_ (snd_ y)).
Proof. apply (wimax_arq_safe 7 100 1 10 demo); [lia|lia|repeat constructor; unfold large; cbn; lia|vm_compute; discriminate|reflexivity|reflexivity]. Defined.

Lemma wimax_arq_completes_witness : returns (y ← warq_run 7 100 demo (new_connection 1 10); warq_run 7 100 (round y) y) (fun y =>
    sdu_data <$> up y = sdu_data <$> sdus_of demo).
Proof. apply (wimax_arq_completes 7 100 1 10 demo); [lia|repeat constructor; unfold large; cbn; lia|reflexivity|vm_compute; discriminate|reflexivity|reflexivity]. Defined.

(** The blocks 0 to 4 are at the receiver after [demo], but for 2 and 4, and one
    round is enough here. *)
Example demo_state : (fun y => (ack_seq_ (rcv_ y), pack_sn <$> arq_retrans_queue_ (rcv_ y), pack_sn <$> arq_trans_queue_ (snd_ y))) <$>
    match warq_run 7 100 demo (new_connection 1 10) with Ok y => Some y | Trap _ => None end = Some (2, [3; 3], [2; 4; 5; 6; 7; 8]).
Proof. vm_compute. reflexivity. Qed.

(** ** Outside the hypotheses *)

(** After the numbers wrapped, a cumulative acknowledgement does not release the
    blocks before 0: the differences are unsigned, and are never below 0. *)
Theorem wrapped_not_released recd sn w : 0 <= recd < sn -> sn < 2048 -> 0 <= w < 2048 -> acknowledges 1 recd sn w = false.
Proof.
  intros H1 H2 H3. destruct (acknowledges 1 recd sn w) eqn:E; [|done]. apply acknowledges_inv in E; lia.
Qed.

(** Nor is a block after 0 kept while one before 0 is expected. *)
Theorem wrapped_not_kept s k w : 0 <= s < k -> k < 2048 -> 0 <= w < 2048 -> ahead s k w = false.
Proof. intros H1 H2 H3. rewrite ahead_eq by lia. lia. Qed.

(** So the block 2047 of the first 2048 stays with the sender, and is sent in place of
    the block 2047 of the next: the last SDU, of 6320 bytes, is handed up with 6350. *)
Example second_lap_corrupt : data_of 62 (warq_run 7 100 two_laps (new_connection 1 100)) =
  Some ([(62, 6350); (63, 6320)], [(62, 6350); (63, 6350)]).
Proof. vm_cast_no_check (@eq_refl _ (Some ([(62, 6350); (63, 6320)], [(62, 6350); (63, 6350)]))). Qed.

(** SDUs of one block that follow a larger one in the queue are dropped with it. *)
Example small_sdus_dropped :
  data_of 0 (warq_run 7 100 ([ESdu (sdu 1 250); ESdu (sdu 2 30); ESdu (sdu 3 40); ESdu (sdu 4 300)] ++
    replicate 9 (EXmit 0) ++ [ERecv (seq 0 9)]) (new_connection 1 64)) =
  Some ([(1, 250); (2, 30); (3, 40); (4, 300)], [(1, 250); (4, 300)]).
Proof. vm_compute. reflexivity. Qed.

(** 99 blocks that are out of order fill the array of acknowledgements, and the next
    one is written past its end. *)
Example acks_overflow :
  data_of 0 (warq_run 7 100 (ESdu (sdu 1 10100) :: replicate 102 (EXmit 0) ++ [ERecv (seq 1 99)]) (new_connection 1 200)) = Some ([(1, 10100)], []) /\
  warq_run 7 100 (ESdu (sdu 1 10100) :: replicate 102 (EXmit 0) ++ [ERecv (seq 1 100)]) (new_connection 1 200) = Trap OutOfBounds.
Proof. split; vm_compute; reflexivity. Qed.
