(* ===== verification/Arq16Acks.v ===== *)
(** * An 802.16 connection whose acknowledgements arrive

    The sender goes on after its first window of blocks only when it hears that they
    have arrived.  Here a packet with acknowledgements follows every PDU that
    arrives, and is not lost: then any SDUs, as long as the numbers do not wrap, are
    delivered.  And what happens otherwise: connections that stop. *)
From S2P Require Import Prelude Arq16 Arq16Ok Arq16Sdu Arq16Conn.

(** * Definitions *)

(** The events; the PDUs have one block. *)
Inductive acked_event : Type :=
  | ASdu (p : block)
  | ATimer
  | AXmit
  | ARecv (is_ : list nat).

(** What arrives is acknowledged at once. *)
Definition acked_step (cid bs : Z) (e : acked_event) (y : connection) : outcome connection :=
  match e with
  | ASdu p => warq_step cid bs (ESdu p) y
  | ATimer => warq_step cid bs ETimer y
  | AXmit => warq_step cid bs (EXmit 0) y
  | ARecv is_ => warq_run cid bs [ERecv is_; ESendFb; EFb (length (acks y))] y
  end.

Fixpoint acked_run (cid bs : Z) (es : list acked_event) (y : connection) : outcome connection :=
  match es with
  | [] => Ok y
  | e :: es => y ← acked_step cid bs e y; acked_run cid bs es y
  end.

(** The SDUs, the PDUs that are sent, and the blocks that arrive, at most 99 at once. *)
Definition asdus_of (es : list acked_event) : list block := omap (fun e => match e with ASdu p => Some p | _ => None end) es.
Definition xmits (es : list acked_event) : Z :=
  foldr (fun e n => match e with AXmit => 1 + n | _ => n end) 0 es.
Definition no_arrival (e : acked_event) : bool := match e with ARecv _ => false | _ => true end.
Definition short (e : acked_event) : bool := match e with ARecv is_ => Z.of_nat (length is_) <=? 99 | _ => true end.
Definition aarrivals (es : list acked_event) : Z :=
  foldr (fun e n => match e with ARecv is_ => Z.of_nat (length is_) + n | _ => n end) 0 es.

(** A round: the timer, what the sender may then send, and all of it arrives. *)
Definition acked_round (y : connection) : list acked_event :=
  ATimer :: replicate (to_send y) AXmit ++ ((fun i => ARecv [i]) <$> seq (length (air y)) (to_send y)).
Fixpoint acked_rounds (cid bs : Z) (r : nat) (y : connection) : outcome connection :=
  match r with
  | O => Ok y
  | S r => y ← acked_run cid bs (acked_round y) y; acked_rounds cid bs r y
  end.

(** A connection that has stopped: all that the sender may send has arrived, and the
    first block of its queue is outside its window; no acknowledgement is on its way. *)
Record stopped (y : connection) : Prop := mkStopped {
  st_range : 0 <= ack_seq_ (rcv_ y) < 4096 /\ 0 <= arq_max_window_ (rcv_ y) < 4096;
  st_rcv : arq_feedback_queue_ (rcv_ y) = [] /\ arq_retrans_queue_ (rcv_ y) = [] /\
    reassemble (arq_trans_queue_ (rcv_ y)) (up y) = Ok (arq_trans_queue_ (rcv_ y), up y);
  st_air : Forall (fun p => 0 <= pack_sn p < ack_seq_ (rcv_ y)) (air y);
  st_retrans : Forall (fun p => 0 <= pack_sn p < ack_seq_ (rcv_ y)) (arq_retrans_queue_ (snd_ y));
  st_trans : Forall (fun p => queued true p (conn_q y) = false -> 0 <= pack_sn p < ack_seq_ (rcv_ y)) (arq_trans_queue_ (snd_ y));
  st_next : exists p q, conn_q y = p :: q /\ next_outside (pack_sn p) (snd_ y) = true }.

(** Acknowledgements that were sent before do not arrive any more. *)
Definition no_feedback (e : warq_event) : bool := match e with EFb _ => false | _ => true end.

(** ** Connections that are run below *)

(** Five blocks arrive at once, and their acknowledgements are lost; there is another
    SDU. *)
Definition lost_acks : list warq_event :=
  [ESdu (sdu 1 450); ESdu (sdu 2 250); EXmit 4; ERecv (seq 0 5); ESendFb].
Definition lost_state : connection :=
  match warq_run 7 100 lost_acks (new_connection 1 4) with Ok y => y | Trap _ => new_connection 1 4 end.

(** What has been sent, and the sender's queues. *)
Definition sender_of (o : outcome connection) : option (list Z * list Z * list Z) :=
  match o with
  | Ok y => Some (pack_sn <$> air y, pack_sn <$> arq_retrans_queue_ (snd_ y), pack_sn <$> conn_q y)
  | Trap _ => None
  end.

(** The block 0 arrives and is acknowledged.  A PDU with the blocks 1 to 4 is lost; they
    are sent again in a smaller one, that is lost, too; the timer expires. *)
Definition refused_head : list warq_event :=
  [ESdu (sdu 1 650); EXmit 0; ERecv [0%nat]; ESendFb; EFb 0; EXmit 3; ETimer; EXmit 2; ETimer].

(** * Lemmas *)

(** ** What holds if a computation returns *)

Definition when {A} (m : outcome A) (Q : A -> Prop) : Prop := forall a, m = Ok a -> Q a.

Lemma when_Ok {A} (a : A) (Q : A -> Prop) : Q a -> when (Ok a) Q.
Proof. by intros H b [= <-]. Qed.

Lemma when_Trap {A} u (Q : A -> Prop) : when (Trap u) Q.
Proof. done. Qed.

Lemma when_bind {A B} (m : outcome A) (f : A -> outcome B) (P : A -> Prop) Q :
  when m P -> (forall a, P a -> when (f a) Q) -> when (m ≫= f) Q.
Proof. intros H Hf b E. destruct m as [a|]; [|done]. exact (Hf a (H a eq_refl) b E). Qed.

Lemma when_while {S} (I : S -> Prop) (cond : S -> bool) body s :
  (forall s, I s -> when (body s) I) -> I s -> when (c_while cond body s) I.
Proof.
  intros Hb HI. rewrite c_while_nat. revert s HI. induction (Pos.to_nat loop_fuel) as [|n IH]; intros s HI; cbn [iter_nat]; [done|].
  unfold while_step at 1. destruct (cond s); [|by apply when_Ok]. destruct (body s) as [s'|u] eqn:E; [|done]. apply IH. exact (Hb s HI s' E).
Qed.

Lemma returns_when {A} (m : outcome A) (P Q : A -> Prop) : returns m P -> when m Q -> returns m (fun a => P a /\ Q a).
Proof. intros H Hw. destruct m as [a|]; [|done]. split; [done|by apply Hw]. Qed.

Lemma put_ie_when i ie f : when (put_ie i ie f) (fun f' =>
  0 <= i < Z.of_nat (length (arq_ie f)) /\ f' = mkFeedback (<[Z.to_nat i := ie]> (arq_ie f)) (num_of_acks f)).
Proof.
  unfold put_ie, awrite. destruct ((0 <=? i) && _) eqn:E; [|done]. rewrite bind_Ok. apply when_Ok. split; [lia|done].
Qed.

(** ** The acknowledgements of a PDU *)

Section Told.
Context (cid w : Z) (Hw : 0 < w < 4096).

(** A packet with the cumulative acknowledgement for [k], and selective ones. *)
Record told_fb (k : Z) (f : feedback) : Prop := mkToldFb {
  tf_length : length (arq_ie f) = 100%nat;
  tf_num : 1 <= num_of_acks f <= 100;
  tf_first : arq_ie f !! 0%nat = Some (ie_of cid 1 (k ⊖ 1));
  tf_rest : forall j ie, (1 <= j)%nat -> Z.of_nat j < num_of_acks f -> arq_ie f !! j = Some ie -> ack_type ie = 2 }.

(** The receiver has queued such a packet since it expected [k0], unless it expects
    it still. *)
Record told (k0 : Z) (a : Arqstatus) : Prop := mkTold {
  to_conf : ack_period_ a = 1 /\ ack_counter_ a = 0 /\ arq_max_seq_ a = 2048 /\ arq_max_window_ a = w;
  to_seq : 0 <= ack_seq_ a <= 2047;
  to_fb : arq_feedback_queue_ a = [] /\ ack_seq_ a = k0 \/ exists f, arq_feedback_queue_ a = [f] /\ told_fb (ack_seq_ a) f }.

Lemma tail_told f k : told_fb k f -> tail_feedback [f] = Some ([], f).
Proof. intros [_ H _ _]. unfold tail_feedback, MAX_NUM_ACK. cbn. by rewrite (proj2 (Z.leb_le _ _)) by lia. Qed.

Lemma cumulative_told a : (arq_feedback_queue_ a = [] \/ exists f k, arq_feedback_queue_ a = [f] /\ told_fb k f) ->
  when (cumulative cid a) (fun a' => exists f, a' = a <| arq_feedback_queue_ := [f] |> /\ told_fb (ack_seq_ a) f).
Proof.
  intros H. unfold cumulative. destruct H as [->|(f & k & -> & Hf)].
  - change (tail_feedback []) with (@None (list feedback * feedback)). cbv iota. eapply when_bind; [apply put_ie_when|].
    intros f [_ ->]. apply when_Ok. eexists. split; [reflexivity|]. split; cbn; [done|lia|done|]. intros j ie H1 H2. lia.
  - rewrite (tail_told f k Hf). destruct Hf as [F1 F2 F3 F4]. eapply when_bind; [apply put_ie_when|].
    intros f' [_ ->]. apply when_Ok. eexists. split; [reflexivity|]. change (Z.to_nat 0) with 0%nat. split; cbn.
    + by rewrite length_insert.
    + done.
    + apply list_lookup_insert_eq. lia.
    + intros j ie H1 H2. rewrite list_lookup_insert_ne by lia. by apply F4.
Qed.

Lemma add_selective_told s k f : (length (arq_ie f) = 100%nat) -> told_fb k f ->
  when (add_selective cid s f) (told_fb k).
Proof.
  intros _ [F1 F2 F3 F4]. unfold add_selective. eapply when_bind; [apply put_ie_when|]. intros f' [Hi ->]. apply when_Ok. split; cbn.
  - by rewrite length_insert.
  - lia.
  - rewrite list_lookup_insert_ne by lia. done.
  - intros j ie H1 H2 E. apply list_lookup_insert_Some in E as [(_ & <- & _)|[Hne E]]; [done|]. apply (F4 j); [done|lia|done].
Qed.

Lemma selective_told s a : (arq_feedback_queue_ a = [] \/ exists f, arq_feedback_queue_ a = [f] /\ told_fb (ack_seq_ a) f) ->
  when (selective cid s a) (fun a' => exists f, a' = a <| last_ack_sent_ := s |> <| arq_feedback_queue_ := [f] |> /\ told_fb (ack_seq_ a) f).
Proof.
  intros H. unfold selective. cbn [arq_feedback_queue_ ack_seq_ set_field]. destruct H as [->|(f & -> & Hf)].
  - change (tail_feedback []) with (@None (list feedback * feedback)). cbv iota. eapply when_bind; [apply put_ie_when|].
    intros f [_ ->]. eapply when_bind; [apply (add_selective_told s (ack_seq_ a)); [done|]|].
    + split; cbn; [done|lia|done|]. intros j ie H1 H2. lia.
    + intros f' Hf'. apply when_Ok. by exists f'.
  - rewrite (tail_told f (ack_seq_ a) Hf). eapply when_bind; [apply (add_selective_told s (ack_seq_ a) f (tf_length _ _ Hf) Hf)|].
    intros f' Hf'. apply when_Ok. by exists f'.
Qed.

(** ** The receiver *)

Definition in_range (p : block) : Prop := 0 <= pack_sn p < 2047.

Lemma told_frame k0 a a' : told k0 a -> ack_period_ a' = ack_period_ a -> ack_counter_ a' = 0 -> arq_max_seq_ a' = arq_max_seq_ a ->
  arq_max_window_ a' = arq_max_window_ a -> ack_seq_ a' = ack_seq_ a -> arq_feedback_queue_ a' = arq_feedback_queue_ a -> told k0 a'.
Proof. intros [(C1 & C2 & C3 & C4) S F] E1 E2 E3 E4 E5 E6. split; rewrite ?E1, ?E2, ?E3, ?E4, ?E5, ?E6; done. Qed.

(** The block that is expected. *)
Lemma in_order_told k0 a p : told k0 a -> in_range p -> pack_sn p = ack_seq_ a ->
  when (cumulative cid ((advance a) <| ack_counter_ := 0 |>)) (fun a' => told k0 a' /\ arq_retrans_queue_ a' = arq_retrans_queue_ a).
Proof.
  intros [(C1 & C2 & C3 & C4) S F] Hp E. intros a' Ha'. apply cumulative_told in Ha' as (f & -> & Hf).
  - split; [|done]. split; cbn; [done|unfold in_range in Hp; lia|right; by exists f].
  - cbn. destruct F as [[F _]|(f & F & Hf)]; [by left|right; by exists f, (ack_seq_ a)].
Qed.

Lemma classify_told k0 a p : told k0 a -> in_range p ->
  classify (pack_sn p) a = (if pack_sn p =? ack_seq_ a then (1, advance a)
    else ((if (ack_seq_ a <? pack_sn p) && (pack_sn p <=? ack_seq_ a + w) then 0 else 2), a)).
Proof.
  intros [(C1 & C2 & C3 & C4) S F] Hp. unfold in_range in Hp. unfold classify. rewrite C4, C3, Z.eqb_sym.
  destruct (Z.eqb_spec (pack_sn p) (ack_seq_ a)) as [E|E]; cbn [negb].
  - rewrite u32_id by lia. by rewrite (proj2 (Z.eqb_neq (ack_seq_ a + 1) 2048)) by lia.
  - rewrite ahead_eq by lia. by replace (pack_sn p - ack_seq_ a <=? w) with (pack_sn p <=? ack_seq_ a + w) by lia.
Qed.

(** Every block is counted, and the count is one period. *)
Lemma counted k0 a (x : Arqstatus) : told k0 a -> ack_period_ x = ack_period_ a -> ack_counter_ x = ack_counter_ a ->
  (ack_counter_ (x <| ack_counter_ := u8 (ack_counter_ x + 1) |>) =? ack_period_ (x <| ack_counter_ := u8 (ack_counter_ x + 1) |>)) = true.
Proof. intros [(C1 & C2 & C3 & C4) _ _] E1 E2. cbn. by rewrite E1, E2, C1, C2. Qed.

Lemma arqReceive_told k0 a p : told k0 a -> in_range p -> when (arqReceive true cid p a) (fun '(_, a') => told k0 a' /\ arq_retrans_queue_ a' = arq_retrans_queue_ a).
Proof.
  intros H Hp. unfold arqReceive. change (seq_of true p) with (pack_sn p). rewrite (classify_told k0) by done.
  pose proof H as [(C1 & C2 & C3 & C4) Hs F]. unfold in_range in Hp.
  destruct (Z.eqb_spec (pack_sn p) (ack_seq_ a)) as [E|E]; cbv zeta.
  - rewrite (counted k0 a (advance a)) by done. change (1 =? 1) with true. cbv iota.
    change (ahead _ _ _) with (ahead (ack_seq_ a + 1) (pack_sn p) (arq_max_window_ a)). rewrite C4, ahead_eq by lia.
    replace ((pack_sn p <? ack_seq_ a + 1) && (ack_seq_ a + 1 - pack_sn p <=? w)) with true by lia.
    eapply when_bind; [exact (in_order_told k0 a p H Hp E)|]. intros a' Ha'. by apply when_Ok.
  - rewrite (counted k0 a a) by done. set (a1 := a <| ack_counter_ := _ |> <| ack_counter_ := 0 |>).
    assert (H1 : told k0 a1) by by apply (told_frame k0 a). destruct (_ && _).
    + change (0 =? 1) with false. change (0 =? 0) with true. cbv iota. eapply when_bind; [apply selective_told|].
      * destruct (to_fb _ _ H1) as [[F1 _]|F1]; [by left|by right].
      * intros a' (f & -> & Hf). apply when_Ok. destruct H1 as [D1 D2 D3]. split; [|done]. split; [done|done|]. right. by exists f.
    + by apply when_Ok.
Qed.

Lemma transfer_told k0 a p : told k0 a -> in_range p -> when (arqReceiveBufferTransfer true cid p a) (fun '(_, a') => told k0 a').
Proof.
  intros H Hp. unfold arqReceiveBufferTransfer. change (seq_of true p) with (pack_sn p). rewrite (classify_told k0) by done.
  pose proof H as [(C1 & C2 & C3 & C4) Hs F]. unfold in_range in Hp.
  destruct (Z.eqb_spec (pack_sn p) (ack_seq_ a)) as [E|E]; cbv zeta.
  - rewrite (counted k0 a (advance a)) by done. change (1 =? 1) with true. cbn [andb].
    change (ahead _ _ _) with (ahead (ack_seq_ a + 1) (pack_sn p) (arq_max_window_ a)). rewrite C4, ahead_eq by lia.
    replace ((pack_sn p <? ack_seq_ a + 1) && (ack_seq_ a + 1 - pack_sn p <=? w)) with true by lia.
    eapply when_bind; [exact (in_order_told k0 a p H Hp E)|]. intros a' [Ha' _]. by apply when_Ok.
  - rewrite (counted k0 a a) by done. assert (Ho : ((if (ack_seq_ a <? pack_sn p) && (pack_sn p <=? ack_seq_ a + w) then 0 else 2) =? 1) = false) by (by destruct (_ && _)).
    rewrite Ho. cbn [andb]. apply when_Ok. by apply (told_frame k0 a).
Qed.

Lemma told_queue k0 a q : told k0 a -> told k0 (a <| arq_trans_queue_ := q |>).
Proof. intros H. apply (told_frame k0 a); try done. apply H. Qed.
Lemma told_keeps k0 a q : told k0 a -> told k0 (a <| arq_retrans_queue_ := q |>).
Proof. intros H. apply (told_frame k0 a); try done. apply H. Qed.

(** ** The loops *)

Definition told_kept (k0 : Z) (a : Arqstatus) : Prop := told k0 a /\ Forall in_range (keeps_of a).

Lemma take_blocks_told k0 l : forall a, Forall in_range l -> told_kept k0 a -> when (take_blocks true cid l a) (told_kept k0).
Proof.
  induction l as [|p l IH]; intros a Hl H; cbn [take_blocks]; [by apply when_Ok|]. apply Forall_cons in Hl as [Hp Hl]. destruct H as [H Hk].
  eapply when_bind; [|intros a'; by apply IH]. unfold take_block. eapply when_bind; [by apply (arqReceive_told k0)|].
  intros [o a'] [H' E]. apply when_Ok. destruct (o =? 0); [|destruct (o =? 1)].
  - split; [by apply told_keeps|]. cbn. rewrite E. apply Forall_app. split; [done|by constructor].
  - split; [by apply told_queue|]. cbn. by rewrite E.
  - split; [done|]. by rewrite E.
Qed.

Lemma transfer_run_told k0 l : forall kept a, told k0 a -> Forall in_range (kept ++ l) -> when (transfer_run true cid kept l a) (told_kept k0).
Proof.
  induction l as [|p l IH]; intros kept a H Hl; cbn [transfer_run].
  - apply when_Ok. rewrite app_nil_r in Hl. split; [by apply told_keeps|done].
  - pose proof Hl as Hl'. apply Forall_app in Hl' as [Hk Hl']. apply Forall_cons in Hl' as [Hp Hl'].
    eapply when_bind; [by apply (transfer_told k0)|]. intros [o a'] H'. destruct (o =? 2); [|destruct (o =? 0)].
    + apply when_Ok. split; [by apply told_keeps|]. by apply Forall_app.
    + apply when_Ok. split; [by apply told_keeps|done].
    + apply IH; [by apply told_queue|]. by apply Forall_app.
Qed.

Lemma transfer_pass_told k0 l : forall kept a, told k0 a -> Forall in_range (kept ++ l) ->
  when (transfer_pass true cid kept l a) (fun '(_, a') => told_kept k0 a').
Proof.
  induction l as [|p l IH]; intros kept a H Hl; cbn [transfer_pass].
  - apply when_Ok. rewrite app_nil_r in Hl. split; [by apply told_keeps|done].
  - pose proof Hl as Hl'. apply Forall_app in Hl' as [Hk Hl']. apply Forall_cons in Hl' as [Hp Hl'].
    eapply when_bind; [by apply (transfer_told k0)|]. intros [o a'] H'. destruct (o =? 2); [|destruct (o =? 0)].
    + apply IH; [done|by apply Forall_app].
    + apply IH; [done|]. rewrite <- app_assoc. done.
    + eapply when_bind; [apply (transfer_run_told k0); [by apply told_queue|by apply Forall_app]|]. intros a2 H2. by apply when_Ok.
Qed.

Lemma receive_pdu_told k0 l a u : Forall in_range l -> told_kept k0 a ->
  when (receive_pdu cid l a u) (fun '(a', _) => told k0 a').
Proof.
  intros Hl H. unfold receive_pdu. eapply when_bind; [by apply take_blocks_told|]. intros a1 H1.
  eapply (when_bind _ _ (told_kept k0)); [|intros a2 H2; eapply (when_bind _ _ (fun _ => True)); [done|]; intros [q u'] _; apply when_Ok; apply told_queue; exact (proj1 H2)].
  unfold transfer. eapply when_bind; [apply (when_while (fun '((_, a') : bool * Arqstatus) => told_kept k0 a')); [|exact H1]|].
  - intros [b a2] [H2 K2]. by apply transfer_pass_told.
  - intros [b a2] H2. by apply when_Ok.
Qed.

(** ** The sender *)

Lemma take_acks_selective n : forall i f a, 0 <= i -> arq_max_window_ a = w ->
  (forall j ie, i <= Z.of_nat j < i + Z.of_nat n -> arq_ie f !! j = Some ie -> ack_type ie = 2) ->
  when (take_acks cid n i f a) (fun a' => ack_seq_ a' = ack_seq_ a /\
    sublist (arq_trans_queue_ a') (arq_trans_queue_ a) /\ sublist (arq_retrans_queue_ a') (arq_retrans_queue_ a)).
Proof.
  induction n as [|n IH]; intros i f a Hi Hc H; cbn [take_acks]; [by apply when_Ok|].
  eapply (when_bind _ _ (fun ie => arq_ie f !! Z.to_nat i = Some ie)).
  { unfold aread. destruct (i <? 0); [done|]. destruct (arq_ie f !! Z.to_nat i) as [ie|]; [|done]. by apply when_Ok. }
  intros ie E. assert (Ht : ack_type ie = 2) by (apply (H (Z.to_nat i)); [lia|done]).
  set (a1 := if ie_cid ie =? cid then _ else _).
  assert (H1 : ack_seq_ a1 = ack_seq_ a /\ arq_max_window_ a1 = w /\ sublist (arq_trans_queue_ a1) (arq_trans_queue_ a) /\
    sublist (arq_retrans_queue_ a1) (arq_retrans_queue_ a)).
  { unfold a1. destruct (_ =? _); [|done]. unfold arqRecvFeedback. rewrite Ht. split; [done|]. split; [done|]. split; apply release_sub. }
  destruct H1 as (E1 & E2 & S1 & S2). intros a' Ha'. apply (IH (i + 1) f a1) in Ha' as (E3 & S3 & S4); [|lia|done|].
  - split; [by rewrite E3|]. split; by etrans.
  - intros j ie' Hj. apply H. lia.
Qed.

Lemma take_acks_told k f a : told_fb k f -> arq_max_window_ a = w ->
  when (take_acks cid (Z.to_nat (num_of_acks f)) 0 f a) (fun a' => ack_seq_ a' = (k ⊖ 1) mod 2048 /\
    sublist (arq_trans_queue_ a') (release true 1 ((k ⊖ 1) mod 2048) w (arq_trans_queue_ a)) /\
    sublist (arq_retrans_queue_ a') (release true 1 ((k ⊖ 1) mod 2048) w (arq_retrans_queue_ a))).
Proof.
  intros [F1 F2 F3 F4] Hc. destruct (Z.to_nat (num_of_acks f)) as [|n] eqn:En; [lia|]. cbn [take_acks].
  rewrite (aread_ok _ _ (ie_of cid 1 (k ⊖ 1))) by done. rewrite bind_Ok. change (ie_cid (ie_of cid 1 (k ⊖ 1))) with cid. rewrite Z.eqb_refl.
  intros a' Ha'. apply take_acks_selective in Ha' as (E & S1 & S2); [|lia|done|].
  - unfold arqRecvFeedback, ie_of in E, S1, S2. cbn in E, S1, S2. rewrite Hc in S1, S2. done.
  - intros j ie Hj. apply F4; lia.
Qed.

(** What is left is not before the window. *)
Lemma release_told k k' q q' : 0 <= k' <= 2047 -> k' < k + w -> Forall in_range q -> Forall (fun p => k <= pack_sn p) q ->
  sublist q' (release true 1 ((k' ⊖ 1) mod 2048) w q) -> Forall (fun p => k' <= pack_sn p) q'.
Proof.
  intros Hk Hw' Hr Hq Hs. rewrite Forall_forall in *. intros p Hp. pose proof (elem_of_sublist _ _ _ Hp Hs) as Hp'.
  apply release_elem in Hp' as [Hp' Ha]. specialize (Hr p Hp'). specialize (Hq p Hp'). unfold in_range in Hr.
  destruct (Z.le_gt_cases k' (pack_sn p)) as [|Hlt]; [done|exfalso]. rewrite u32_id in Ha by lia. rewrite Z.mod_small in Ha by lia.
  unfold acknowledges in Ha. rewrite u32_id in Ha by lia. change (1 =? 1) with true in Ha. cbn [andb] in Ha. lia.
Qed.
End Told.

(** ** The two ends *)

(** The blocks that have been taken from the connection's queue. *)
Definition taken (bs : Z) (y : connection) : Z :=
  Z.of_nat (length (stream bs 0 (sdus y))) - Z.of_nat (length (conn_q y)).

(** The sender knows what the receiver expects. *)
Record synced (y : connection) : Prop := mkSynced {
  sy_rcv : ack_period_ (rcv_ y) = 1 /\ ack_counter_ (rcv_ y) = 0 /\ arq_feedback_queue_ (rcv_ y) = [];
  sy_trans : Forall (fun p => ack_seq_ (rcv_ y) <= pack_sn p) (arq_trans_queue_ (snd_ y));
  sy_retrans : Forall (fun p => ack_seq_ (rcv_ y) <= pack_sn p) (arq_retrans_queue_ (snd_ y));
  sy_ack : 1 <= ack_seq_ (rcv_ y) -> ack_seq_ (snd_ y) = ack_seq_ (rcv_ y) - 1 }.

Section Acked.
Context (cid bs : Z) (Hbs : 0 < bs) (ps : list block) (w : Z) (Hps : Forall (large bs) ps) (Hw : 1 < w) (Hroom : blocks_of bs ps + w <= 2048).
Local Abbreviation conn_ok := (Arq16Conn.conn_ok bs ps w).

Lemma window_pos : 0 < w < 4096.
Proof. pose proof (blocks_of_length bs Hbs 0 ps Hps). lia. Qed.

(** What the queues hold is numbered below 2047. *)
Lemma blocks_range rest n t y : conn_ok rest n t y -> Forall in_range (arq_retrans_queue_ (rcv_ y)) /\ Forall in_range (air y) /\
  Forall in_range (arq_trans_queue_ (snd_ y)) /\ Forall in_range (arq_retrans_queue_ (snd_ y)) /\
  0 <= ack_seq_ (rcv_ y) <= taken bs y /\ taken bs y <= 2046 /\ arq_max_seq_ (rcv_ y) = 2048 /\ arq_max_window_ (rcv_ y) = w.
Proof.
  intros H. destruct (sent_place bs Hbs ps Hps rest y (co_sdus _ _ _ _ _ _ _ H)) as (Hpl & _ & L & L').
  destruct (co_taken _ _ _ _ _ _ _ H) as (T & ET & Ha & Hr & m & R & _).
  assert (Hin : forall p, p ∈ stream bs 0 (sdus y) -> in_range p) by (intros p Hp; destruct (Hpl p Hp) as [Hs _]; unfold in_range; lia).
  assert (HT : forall p, p ∈ T -> in_range p) by (intros p Hp; apply Hin; rewrite ET, elem_of_app; by left).
  assert (ETl : taken bs y = Z.of_nat (length T)) by (unfold taken; rewrite ET, length_app; lia).
  split; [eapply Forall_impl; [exact (rc_buf _ _ _ _ _ _ R)|intros p [Hp _]; auto]|].
  split; [eapply Forall_impl; eauto|]. split; [eapply Forall_impl; [exact (sn_trans _ _ _ _ (co_snd _ _ _ _ _ _ _ H))|eauto]|].
  split; [eapply Forall_impl; eauto|]. rewrite ETl. split; [exact (rc_seq _ _ _ _ _ _ R)|]. split; [|exact (rc_conf _ _ _ _ _ _ R)].
  rewrite ET, length_app in L. lia.
Qed.

(** A PDU arrives, and is acknowledged. *)
Lemma arecv_ok rest t y is_ : conn_ok rest 1 t y -> synced y -> taken bs y < ack_seq_ (rcv_ y) + w ->
  Z.of_nat (length is_) <= 99 -> t + Z.of_nat (length is_) < 1000000000000 ->
  returns (acked_step cid bs (ARecv is_) y) (fun y' => conn_ok rest 1 (t + Z.of_nat (length is_)) y' /\ synced y' /\
    (conn_q y' = conn_q y /\ air y' = air y /\ sdus y' = sdus y) /\ further (rcv_ y) (rcv_ y') /\
    forall i p, i ∈ is_ -> air y !! i = Some p -> pack_sn p <= ack_seq_ (rcv_ y) + w ->
      got (arq_retrans_queue_ (rcv_ y')) (ack_seq_ (rcv_ y')) (pack_sn p)).
Proof.
  intros H Hs Hin Hl Ht. destruct (blocks_range _ _ _ _ H) as (B1 & B2 & _ & _ & Hk & Htk & C1 & C2).
  destruct Hs as [(D1 & D2 & D3) D4 D5 D6]. cbn [acked_step warq_run].
  assert (Hold : when (warq_step cid bs (ERecv is_) y) (fun y1 => told cid w (ack_seq_ (rcv_ y)) (rcv_ y1))).
  { cbn [warq_step]. eapply when_bind; [apply (receive_pdu_told cid w window_pos (ack_seq_ (rcv_ y)))|].
    - apply Forall_forall. intros p Hp. apply list_elem_of_omap in Hp as (i & _ & Ei). rewrite Forall_lookup in B2. by apply (B2 i).
    - split; [|done]. split; [done|lia|by left].
    - intros [a u] Ha. by apply when_Ok. }
  eapply returns_bind; [apply returns_when; [apply (recv_ok cid bs Hbs ps w Hps (proj1 window_pos) Hroom rest 1 t y is_); done || lia|exact Hold]|].
  intros y1 [(H1 & G & (a & u & E1) & Hgot) [(T1 & T1' & _) T2 T3]].
  assert (F1 : conn_q y1 = conn_q y /\ air y1 = air y /\ sdus y1 = sdus y) by by rewrite E1.
  assert (F2 : snd_ y1 = snd_ y /\ acks y1 = acks y) by by rewrite E1. clear E1 a u. destruct F2 as [F2 F3].
  destruct (blocks_range _ _ _ _ H1) as (_ & _ & B3 & B4 & Hk1 & _ & _).
  assert (Etk : taken bs y1 = taken bs y) by (unfold taken; destruct F1 as (-> & _ & ->); done). rewrite Etk in Hk1.
  assert (Hdone : forall y3, conn_ok rest 1 (t + Z.of_nat (length is_)) y3 -> synced y3 ->
    (conn_q y3 = conn_q y1 /\ air y3 = air y1 /\ sdus y3 = sdus y1) -> ack_seq_ (rcv_ y3) = ack_seq_ (rcv_ y1) ->
    arq_retrans_queue_ (rcv_ y3) = arq_retrans_queue_ (rcv_ y1) -> conn_ok rest 1 (t + Z.of_nat (length is_)) y3 /\ synced y3 /\
    (conn_q y3 = conn_q y /\ air y3 = air y /\ sdus y3 = sdus y) /\ further (rcv_ y) (rcv_ y3) /\
    forall i p, i ∈ is_ -> air y !! i = Some p -> pack_sn p <= ack_seq_ (rcv_ y) + w ->
      got (arq_retrans_queue_ (rcv_ y3)) (ack_seq_ (rcv_ y3)) (pack_sn p)).
  { intros y3 H3 S3 (E1 & E2 & E3) E4 E5. unfold further. rewrite E1, E2, E3, E4, E5. done. }
  pose proof (send_fb_ok cid bs ps w rest (1 + Z.of_nat (length is_)) _ y1 ltac:(lia) H1) as H2.
  cbn [warq_step] in H2 |- *. destruct T3 as [[T3 E3]|(f & T3 & Tf)]; rewrite T3 in *.
  - rewrite bind_Ok, F3, (proj2 (lookup_ge_None (acks y) _)) by lia. rewrite bind_Ok. apply returns_Ok, Hdone; try done.
    split; [done| | |]; rewrite F2, E3; done.
  - rewrite bind_Ok. set (y2 := y1 <| rcv_ := _ |> <| acks := _ |>) in *. cbn in H2. eapply returns_bind; [|intros y3 Hy3; apply returns_Ok; exact Hy3].
    eapply returns_mono; [apply returns_when; [apply (fb_event_ok cid bs Hbs ps w Hps (proj1 window_pos) Hroom rest 1 _ y2 (length (acks y)) H2)|]|].
    { instantiate (1 := fun y3 => exists a, y3 = y2 <| snd_ := a |> /\ ack_seq_ a = (ack_seq_ (rcv_ y1) ⊖ 1) mod 2048 /\
        sublist (arq_trans_queue_ a) (release true 1 ((ack_seq_ (rcv_ y1) ⊖ 1) mod 2048) w (arq_trans_queue_ (snd_ y))) /\
        sublist (arq_retrans_queue_ a) (release true 1 ((ack_seq_ (rcv_ y1) ⊖ 1) mod 2048) w (arq_retrans_queue_ (snd_ y)))).
      cbn [warq_step]. assert (Ef : acks y2 !! length (acks y) = Some f) by (change (acks y2) with (acks y1 ++ [f]); rewrite F3; by apply list_lookup_middle).
      rewrite Ef. eapply when_bind; [apply (take_acks_told cid w (ack_seq_ (rcv_ y1)) f); [exact Tf|]|].
      - change (snd_ y2) with (snd_ y1). exact (proj2 (sn_conf _ _ _ _ (co_snd _ _ _ _ _ _ _ H1))).
      - intros a (Ea & Sa & Sr). apply when_Ok. exists a. change (snd_ y2) with (snd_ y1) in Sa, Sr. rewrite F2 in Sa, Sr. done. }
    intros y3 (H3 & a & -> & Ea & Sa & Sr). apply Hdone; try done. rewrite F2 in B3, B4.
    split; cbn; [done| | |].
    + apply (release_told w (ack_seq_ (rcv_ y)) _ (arq_trans_queue_ (snd_ y))); done || lia.
    + apply (release_told w (ack_seq_ (rcv_ y)) _ (arq_retrans_queue_ (snd_ y))); done || lia.
    + intros Hk2. rewrite Ea, u32_id by lia. apply Z.mod_small. lia.
Qed.

(** The other steps leave the receiver alone. *)
Lemma asdu_ok rest t y p : conn_ok (p :: rest) 1 t y -> synced y ->
  returns (acked_step cid bs (ASdu p) y) (fun y' => conn_ok rest 1 t y' /\ synced y' /\ rcv_ y' = rcv_ y /\ air y' = air y /\ taken bs y' = taken bs y).
Proof.
  intros H [D1 D2 D3 D4]. pose proof (sdu_ok cid bs Hbs ps w Hps (proj1 window_pos) Hroom rest 1 t y p H) as Hs.
  destruct (S_next bs Hbs ps Hps rest y p (co_sdus _ _ _ _ _ _ _ H)) as (_ & Hp & Hle & _ & H0 & Est).
  pose proof (co_snd _ _ _ _ _ _ _ H) as [[C1 _] C2 _ _ _]. cbn [acked_step warq_step] in Hs |- *.
  rewrite send_sdu_ok, bind_Ok in Hs |- * by (done || lia || (rewrite C2; lia)). cbn in Hs. apply returns_Ok. rewrite C2 in Hs |- *.
  split; [exact Hs|]. split; [|split; [done|]; split; [done|]].
  - split; cbn; [done| |done|done]. apply Forall_app. split; [done|]. apply Forall_lookup. intros i q Hi. apply pieces_sn in Hi; [|done..].
    destruct (queue_ahead bs Hbs ps w Hps _ _ _ _ H) as [_ Hk]. lia.
  - unfold taken. cbn. rewrite Est, !length_app. lia.
Qed.

Lemma atimer_ok rest t y : conn_ok rest 1 t y -> synced y ->
  let y' := y <| snd_ := arqTimerHandler true (conn_q y) (snd_ y) |> in conn_ok rest 1 t y' /\ synced y'.
Proof.
  intros H [D1 D2 D3 D4]. split; [by apply timer_ok|]. split; try done. cbn.
  apply (requeue_ok (fun p => ack_seq_ (rcv_ y) <= pack_sn p)); [|done|exact (sn_once _ _ _ _ (co_snd _ _ _ _ _ _ _ H))].
  eapply Forall_impl; [exact D2|]. done.
Qed.

(** Blocks are taken in the order of their numbers. *)
Lemma queue_sn rest t y i p : conn_ok rest 1 t y -> conn_q y !! i = Some p -> pack_sn p = taken bs y + Z.of_nat i.
Proof.
  intros H Hi. destruct (co_taken _ _ _ _ _ _ _ H) as (T & ET & _). destruct (sent_place bs Hbs ps Hps rest y (co_sdus _ _ _ _ _ _ _ H)) as (_ & Hpre & _).
  rewrite (prefix_sn bs Hbs ps Hps (stream bs 0 (sdus y)) (length T + i) p Hpre).
  - unfold taken. rewrite ET, length_app. lia.
  - rewrite ET, lookup_app_r by lia. by replace (length T + i - length T)%nat with i by lia.
Qed.

Lemma retrans_sn rest t y p : conn_ok rest 1 t y -> p ∈ arq_retrans_queue_ (snd_ y) -> pack_sn p < taken bs y.
Proof.
  intros H Hp. destruct (co_taken _ _ _ _ _ _ _ H) as (T & ET & _ & Hr & _). destruct (sent_place bs Hbs ps Hps rest y (co_sdus _ _ _ _ _ _ _ H)) as (_ & Hpre & _).
  rewrite Forall_forall in Hr. specialize (Hr p Hp). apply list_elem_of_lookup in Hr as [i Hi]. apply lookup_lt_Some in Hi as Hl.
  rewrite (prefix_sn bs Hbs ps Hps (stream bs 0 (sdus y)) i p Hpre); [unfold taken; rewrite ET, length_app; lia|]. rewrite ET. by apply lookup_app_l_Some.
Qed.

(** A block is taken: [s] is what comes of the count. *)
Lemma next_synced rest t y p y' : conn_ok rest 1 t y -> synced y -> next_block y = Some (p, y') ->
  synced y' /\ rcv_ y' = rcv_ y /\ air y' = air y ++ [p] /\ ack_seq_ (snd_ y') = ack_seq_ (snd_ y) /\
  (length (arq_retrans_queue_ (snd_ y)) + length (conn_q y) = 1 + length (arq_retrans_queue_ (snd_ y')) + length (conn_q y'))%nat /\
  (forall q, q ∈ arq_retrans_queue_ (snd_ y) ++ conn_q y -> q = p \/ q ∈ arq_retrans_queue_ (snd_ y') ++ conn_q y') /\
  (taken bs y' = taken bs y /\ p ∈ arq_retrans_queue_ (snd_ y) \/
   taken bs y' = taken bs y + 1 /\ pack_sn p = taken bs y /\ arq_retrans_queue_ (snd_ y) = []).
Proof.
  intros H [D1 D2 D3 D4] E. unfold next_block in E. destruct (arq_retrans_queue_ (snd_ y)) as [|r l] eqn:Er.
  - destruct (conn_q y) as [|r q] eqn:Eq; [done|]. injection E as <- <-. split; [split; cbn; rewrite ?Er; done|].
    do 3 (split; [done|]). split; [cbn; by rewrite Er|]. split; [intros x Hx; cbn in *; rewrite Er; by apply elem_of_cons in Hx|].
    right. split; [unfold taken; cbn; rewrite Eq; cbn; lia|]. split; [|done]. rewrite (queue_sn rest t y 0 r H); [lia|by rewrite Eq].
  - injection E as <- <-. apply Forall_cons in D3 as [_ D3]. split; [by split|]. do 3 (split; [done|]). split; [done|].
    split; [intros x Hx; by apply elem_of_cons in Hx|]. left. split; [done|]. apply elem_of_cons. by left.
Qed.

(** A PDU of one block: in the sender's window. *)
Lemma axmit_ok rest t y : conn_ok rest 1 t y -> synced y ->
  let y' := xmit_pdu 0 y in conn_ok rest 1 t y' /\ synced y' /\ rcv_ y' = rcv_ y /\ (exists l, air y' = air y ++ l) /\
  taken bs y' <= taken bs y + 1 /\ (1 <= ack_seq_ (rcv_ y) -> taken bs y < ack_seq_ (rcv_ y) + w -> taken bs y' < ack_seq_ (rcv_ y) + w).
Proof.
  intros H Hs. cbv zeta. pose proof (xmit_pdu_ok bs Hbs ps w Hps (proj1 window_pos) Hroom rest 1 t 0 y H) as H'. unfold xmit_pdu in *.
  assert (Hid : exists l, air y = air y ++ l) by (exists []; by rewrite app_nil_r).
  destruct (next_block y) as [[p y']|] eqn:E; [|repeat (split; [done|]); split; [lia|done]].
  destruct (first_outside (pack_sn p) (snd_ y)) eqn:Eo; [repeat (split; [done|]); split; [lia|done]|]. cbn [xmit_next] in *.
  destruct (next_synced rest t y p y' H Hs E) as (S' & E1 & E2 & E3 & _ & _ & E4). split; [done|]. split; [done|]. split; [done|].
  split; [by eexists|]. split; [lia|]. intros Hk Hin. destruct E4 as [[-> _]|(-> & Ep & _)]; [done|].
  pose proof (sy_ack _ Hs Hk) as Ea. pose proof (co_snd _ _ _ _ _ _ _ H) as [[_ C2] _ _ _ _].
  destruct (blocks_range _ _ _ _ H) as (_ & _ & _ & _ & Hr & _). unfold first_outside in Eo. rewrite C2, Ea in Eo. lia.
Qed.

(** ** Runs *)

(** From the first block on: the blocks that are taken are in the window. *)
Record going (rest : list block) (t : Z) (y : connection) : Prop := mkGoing {
  go_ok : conn_ok rest 1 t y;
  go_synced : synced y;
  go_first : 1 <= ack_seq_ (rcv_ y);
  go_taken : taken bs y < ack_seq_ (rcv_ y) + w }.

Lemma further_seq y y' : further (rcv_ y) (rcv_ y') -> ack_seq_ (rcv_ y) <= ack_seq_ (rcv_ y').
Proof. by intros [H _]. Qed.

Lemma going_recv rest t y is_ : going rest t y -> Z.of_nat (length is_) <= 99 -> t + Z.of_nat (length is_) < 1000000000000 ->
  returns (acked_step cid bs (ARecv is_) y) (fun y' => going rest (t + Z.of_nat (length is_)) y' /\ air y' = air y /\ further (rcv_ y) (rcv_ y') /\
    forall i p, i ∈ is_ -> air y !! i = Some p -> pack_sn p <= ack_seq_ (rcv_ y) + w ->
      got (arq_retrans_queue_ (rcv_ y')) (ack_seq_ (rcv_ y')) (pack_sn p)).
Proof.
  intros [H1 H2 H3 H4] Hl Ht. eapply returns_mono; [by apply arecv_ok|]. intros y' (H' & S' & (E1 & E2 & E3) & G & Hgot).
  pose proof (further_seq _ _ G). split; [|done]. split; [done|done|lia|]. unfold taken in *. rewrite E1, E3. lia.
Qed.

Lemma going_xmit rest t y : going rest t y -> going rest t (xmit_pdu 0 y) /\ rcv_ (xmit_pdu 0 y) = rcv_ y.
Proof.
  intros [H1 H2 H3 H4]. destruct (axmit_ok rest t y H1 H2) as (H' & S' & E & _ & _ & Ht). split; [|done]. split; rewrite ?E; auto.
Qed.

Lemma aarrivals_nonneg es : 0 <= aarrivals es.
Proof. induction es as [|e es IH]; [done|]. cbn. destruct e; fold (aarrivals es); lia. Qed.

Lemma xmits_nonneg es : 0 <= xmits es.
Proof. induction es as [|e es IH]; [done|]. cbn. destruct e; fold (xmits es); lia. Qed.

Lemma going_run es : forall rest t y, going (asdus_of es ++ rest) t y -> forallb short es = true -> t + aarrivals es < 1000000000000 ->
  returns (acked_run cid bs es y) (going rest (t + aarrivals es)).
Proof.
  induction es as [|e es IH]; intros rest t y H Hs Ht; cbn [acked_run].
  { apply returns_Ok. by replace (t + aarrivals []) with t by (cbn; lia). }
  pose proof (aarrivals_nonneg es) as Ha. cbn [forallb] in Hs. apply andb_prop in Hs as [Hs1 Hs].
  destruct e as [p| | |is_]; try change (aarrivals (_ :: es)) with (aarrivals es) in *.
  - destruct H as [H1 H2 H3 H4]. eapply returns_bind; [by apply (asdu_ok (asdus_of es ++ rest) t y p)|]. intros y1 (H' & S' & E1 & _ & E2).
    apply IH; [|done|done]. split; rewrite ?E1, ?E2; done.
  - destruct H as [H1 H2 H3 H4]. cbn [acked_step warq_step]. rewrite bind_Ok. destruct (atimer_ok _ _ _ H1 H2) as [H' S']. apply IH; [|done|done]. by split.
  - cbn [acked_step warq_step]. rewrite bind_Ok. apply IH; [|done|done]. by apply going_xmit.
  - change (aarrivals (ARecv is_ :: es)) with (Z.of_nat (length is_) + aarrivals es) in *. cbn [short] in Hs1.
    eapply returns_bind; [apply (going_recv (asdus_of es ++ rest) t y is_ H); lia|]. intros y1 [H' _].
    rewrite Z.add_assoc in *. by apply IH.
Qed.

Lemma acked_run_app es fs : forall y, acked_run cid bs (es ++ fs) y = (y ← acked_run cid bs es y; acked_run cid bs fs y).
Proof.
  induction es as [|e es IH]; intros y; [done|]. cbn [app acked_run]. destruct (acked_step cid bs e y) as [y1|u]; [|done]. by rewrite !bind_Ok.
Qed.

(** ** Rounds *)

Lemma xmits_blocked c y : xmit_pdu 0 y = y -> acked_run cid bs (replicate c AXmit) y = Ok y.
Proof. intros E. induction c as [|c IH]; cbn [replicate acked_run acked_step warq_step]; [done|]. by rewrite bind_Ok, E. Qed.

(** When the next block is outside the window, so are all that are queued. *)
Lemma blocked_outside t y p y' q : going [] t y -> next_block y = Some (p, y') -> first_outside (pack_sn p) (snd_ y) = true ->
  q ∈ arq_retrans_queue_ (snd_ y) ++ conn_q y -> ack_seq_ (rcv_ y) + w - 1 <= pack_sn q.
Proof.
  intros [H1 H2 H3 H4] E Eo Hq. pose proof (sy_ack _ H2 H3) as Ea. pose proof (co_snd _ _ _ _ _ _ _ H1) as [[C1 C2] _ _ _ _].
  destruct (blocks_range _ _ _ _ H1) as (_ & _ & _ & _ & Hr & _). destruct (next_synced [] t y p y' H1 H2 E) as (_ & _ & _ & _ & _ & _ & Hn).
  unfold first_outside in Eo. rewrite C1, C2, Ea in Eo. destruct Hn as [[_ Hp]|(_ & Ep & E0)].
  - pose proof (retrans_sn _ _ _ _ H1 Hp). pose proof (sy_retrans _ H2) as Hf. rewrite Forall_forall in Hf. specialize (Hf p Hp). cbn in Hf. lia.
  - rewrite E0 in Hq. cbn [app] in Hq. apply list_elem_of_lookup in Hq as [i Hi]. rewrite (queue_sn _ _ _ i q H1 Hi). lia.
Qed.

(** What the sender sends when the timer has expired: all that is in the window. *)
Lemma going_xmits t c : forall y, going [] t y -> (length (arq_retrans_queue_ (snd_ y)) + length (conn_q y) <= c)%nat ->
  returns (acked_run cid bs (replicate c AXmit) y) (fun y' => going [] t y' /\ rcv_ y' = rcv_ y /\
    exists l, air y' = air y ++ l /\ (length l <= c)%nat /\
      forall q, q ∈ arq_retrans_queue_ (snd_ y) ++ conn_q y -> pack_sn q < ack_seq_ (rcv_ y) + w - 1 -> q ∈ l).
Proof.
  induction c as [|c IH]; intros y H Hc.
  { apply returns_Ok. split; [done|]. split; [done|]. exists []. rewrite app_nil_r. split; [done|]. split; [done|]. intros q Hq.
    destruct (arq_retrans_queue_ (snd_ y)); [|cbn in Hc; lia]. destruct (conn_q y); [done|cbn in Hc; lia]. }
  assert (Hstay : xmit_pdu 0 y = y -> (forall q, q ∈ arq_retrans_queue_ (snd_ y) ++ conn_q y -> ack_seq_ (rcv_ y) + w - 1 <= pack_sn q) ->
    returns (acked_run cid bs (replicate (S c) AXmit) y) (fun y' => going [] t y' /\ rcv_ y' = rcv_ y /\
    exists l, air y' = air y ++ l /\ (length l <= S c)%nat /\
      forall q, q ∈ arq_retrans_queue_ (snd_ y) ++ conn_q y -> pack_sn q < ack_seq_ (rcv_ y) + w - 1 -> q ∈ l)).
  { intros E Hout. rewrite xmits_blocked by done. apply returns_Ok. split; [done|]. split; [done|]. exists []. rewrite app_nil_r.
    split; [done|]. split; [cbn; lia|]. intros q Hq Hlt. specialize (Hout q Hq). lia. }
  destruct (going_xmit _ _ _ H) as [H' _]. destruct (next_block y) as [[p y']|] eqn:E.
  - destruct (first_outside (pack_sn p) (snd_ y)) eqn:Eo.
    + apply Hstay; [unfold xmit_pdu; by rewrite E, Eo|]. intros q. by eapply blocked_outside.
    + clear Hstay. assert (Ex : xmit_pdu 0 y = y') by (unfold xmit_pdu; by rewrite E, Eo). rewrite Ex in H'.
      cbn [replicate acked_run acked_step warq_step]. rewrite bind_Ok, Ex.
      destruct (next_synced [] t y p y' (go_ok _ _ _ H) (go_synced _ _ _ H) E) as (_ & E1 & E2 & _ & E3 & E4 & _).
      eapply returns_mono; [apply (IH y' H'); lia|]. intros y2 (H2 & R2 & l & A2 & L2 & T2). split; [done|]. split; [by rewrite R2|].
      exists (p :: l). split; [by rewrite A2, E2, <- app_assoc|]. split; [cbn; lia|]. intros q Hq Hlt. apply elem_of_cons.
      destruct (E4 q Hq) as [?|Hq']; [by left|right]. apply T2; [done|by rewrite E1].
  - apply Hstay; [unfold xmit_pdu; by rewrite E|]. intros q Hq. unfold next_block in E.
    destruct (arq_retrans_queue_ (snd_ y)); [|done]. destruct (conn_q y); [by apply elem_of_nil in Hq|done].
Qed.

(** The blocks arrive one after another. *)
Lemma going_recvs js : forall t y, going [] t y -> t + Z.of_nat (length js) < 1000000000000 ->
  returns (acked_run cid bs ((fun i => ARecv [i]) <$> js) y) (fun y' => going [] (t + Z.of_nat (length js)) y' /\ further (rcv_ y) (rcv_ y') /\
    forall i p, i ∈ js -> air y !! i = Some p -> pack_sn p <= ack_seq_ (rcv_ y) + w ->
      got (arq_retrans_queue_ (rcv_ y')) (ack_seq_ (rcv_ y')) (pack_sn p)).
Proof.
  induction js as [|j js IH]; intros t y H Ht; cbn [fmap list_fmap acked_run length] in *.
  - apply returns_Ok. replace (t + Z.of_nat 0) with t by lia. split; [done|]. split; [apply grows_refl|]. intros i p Hi. by apply elem_of_nil in Hi.
  - eapply returns_bind; [apply (going_recv [] t y [j] H); cbn; lia|]. intros y1 (H1 & A1 & G1 & T1). change (Z.of_nat (length [j])) with 1 in H1.
    eapply returns_mono; [apply (IH (t + 1) y1 H1); lia|]. intros y2 (H2 & G2 & T2).
    replace (t + Z.of_nat (S (length js))) with (t + 1 + Z.of_nat (length js)) by lia. split; [done|]. split; [by eapply grows_trans|].
    intros i p Hi Ei Hp. apply elem_of_cons in Hi as [->|Hi]; [apply G2, (T1 j p); [by apply list_elem_of_singleton|done|done]|].
    apply (T2 i p Hi); [by rewrite A1|]. pose proof (further_seq _ _ G1). lia.
Qed.

(** A round: the window has moved by its size, or everything has arrived. *)
Lemma acked_round_ok t y : going [] t y -> t + 4096 < 1000000000000 ->
  returns (acked_run cid bs (acked_round y) y) (fun y' => (exists t', t' <= t + 4096 /\ going [] t' y') /\
    Z.min (blocks_of bs ps) (ack_seq_ (rcv_ y) + w - 1) <= ack_seq_ (rcv_ y')).
Proof.
  intros H Ht. pose proof (go_ok _ _ _ H) as Hc. unfold acked_round. cbn [acked_run acked_step warq_step]. rewrite bind_Ok.
  destruct (atimer_ok _ _ _ Hc (go_synced _ _ _ H)) as [C1 S1]. set (y1 := y <| snd_ := _ |>) in *.
  assert (H1 : going [] t y1) by (destruct H; by split). rewrite acked_run_app.
  eapply returns_bind; [apply (going_xmits t (to_send y) y1 H1); done|]. intros y2 (H2 & R2 & l & A2 & L2 & T2).
  change (rcv_ y1) with (rcv_ y) in R2, T2. change (air y1) with (air y) in A2.
  pose proof (to_send_bound bs Hbs ps w Hps (proj1 window_pos) Hroom 1 t y Hc) as Lc.
  eapply returns_mono; [apply (going_recvs (seq (length (air y)) (to_send y)) t y2 H2); rewrite length_seq; lia|].
  intros y3 (H3 & G3 & T3). rewrite length_seq in H3. split; [exists (t + Z.of_nat (to_send y)); split; [lia|done]|].
  destruct (Z.le_gt_cases (Z.min (blocks_of bs ps) (ack_seq_ (rcv_ y) + w - 1)) (ack_seq_ (rcv_ y3))) as [|Hgt]; [done|exfalso].
  pose proof (further_seq _ _ G3) as Hge. rewrite R2 in Hge, G3, T3. pose proof (go_first _ _ _ H) as Hf.
  set (k := ack_seq_ (rcv_ y3)) in *. apply (next_missing bs ps w [] _ _ y3 (go_ok _ _ _ H3)). fold k.
  destruct (timer_has bs ps w _ _ y k Hc ltac:(lia)) as [Hg|(q & Hin & Eq)]; [by apply G3|].
  enough (Hx : got (arq_retrans_queue_ (rcv_ y3)) k (pack_sn q)) by (rewrite Eq in Hx; exact Hx).
  assert (Hl : q ∈ l) by (apply T2; [exact Hin|lia]). apply list_elem_of_lookup in Hl as [i Hi]. apply lookup_lt_Some in Hi as Hil.
  apply (T3 (length (air y) + i)%nat); [apply elem_of_seq; lia|rewrite A2, lookup_app_r by lia; rewrite <- Hi; f_equal; lia|lia].
Qed.

Lemma acked_rounds_ok r : forall t y, going [] t y -> t + Z.of_nat r * 4096 < 1000000000000 ->
  returns (acked_rounds cid bs r y) (fun y' => (exists t', conn_ok [] 1 t' y') /\
    Z.min (blocks_of bs ps) (ack_seq_ (rcv_ y) + Z.of_nat r * (w - 1)) <= ack_seq_ (rcv_ y')).
Proof.
  induction r as [|r IH]; intros t y H Ht; cbn [acked_rounds].
  - apply returns_Ok. split; [exists t; apply H|lia].
  - eapply returns_bind; [apply (acked_round_ok t y H); lia|]. intros y1 [(t1 & Ht1 & H1) L1].
    eapply returns_mono; [apply (IH t1 y1 H1); lia|]. intros y2 [H2 L2]. split; [done|]. rewrite Nat2Z.inj_succ. nia.
Qed.

(** ** Before the first block has arrived *)

Record early (rest : list block) (c : Z) (y : connection) : Prop := mkEarly {
  ea_ok : conn_ok rest 1 0 y;
  ea_synced : synced y;
  ea_none : ack_seq_ (rcv_ y) = 0;
  ea_taken : taken bs y <= c }.

Lemma early_run es : forall rest c y, early (asdus_of es ++ rest) c y -> forallb no_arrival es = true ->
  returns (acked_run cid bs es y) (fun y' => early rest (c + xmits es) y' /\ exists l, air y' = air y ++ l).
Proof.
  induction es as [|e es IH]; intros rest c y H Hs; cbn [acked_run].
  { apply returns_Ok. split; [by replace (c + xmits []) with c by (cbn; lia)|]. exists []. by rewrite app_nil_r. }
  cbn [forallb] in Hs. apply andb_prop in Hs as [Hs1 Hs]. destruct H as [H1 H2 H3 H4]. destruct e as [p| | |is_]; [| | |done].
  - eapply returns_bind; [by apply (asdu_ok (asdus_of es ++ rest) 0 y p)|]. intros y1 (H' & S' & E1 & E3 & E2). rewrite <- E3.
    change (xmits (ASdu p :: es)) with (xmits es). apply IH; [|done]. split; rewrite ?E1, ?E2; done.
  - cbn [acked_step warq_step]. rewrite bind_Ok. destruct (atimer_ok _ _ _ H1 H2) as [H' S']. change (xmits (ATimer :: es)) with (xmits es).
    eapply returns_mono; [apply (IH rest c); [|done]; by split|]. by intros y2 H2'.
  - cbn [acked_step warq_step]. rewrite bind_Ok. destruct (axmit_ok _ _ _ H1 H2) as (H' & S' & E1 & (l & E2) & E3 & _).
    change (xmits (AXmit :: es)) with (1 + xmits es). rewrite Z.add_assoc. eapply returns_mono; [apply (IH rest (c + 1)); [|done]|].
    + split; rewrite ?E1; done || lia.
    + intros y2 [Hy2 (l2 & E4)]. split; [done|]. exists (l ++ l2). by rewrite E4, E2, <- app_assoc.
Qed.

Lemma early_new : early ps 0 (new_connection 1 w).
Proof.
  split; [exact (new_ok bs Hbs ps w Hps (proj1 window_pos) Hroom 1)| |done|done]. split; cbn; [done|done|done|lia].
Qed.

(** The first block that is sent has the number 0. *)
Lemma first_block p rest : ps = p :: rest -> returns (acked_run cid bs [ASdu p; AXmit] (new_connection 1 w)) (fun y =>
  exists q l, air y = q :: l /\ pack_sn q = 0).
Proof.
  intros E. destruct (S_next bs Hbs ps Hps rest (new_connection 1 w) p ltac:(by rewrite E)) as (_ & Hp & Hle & _ & H0 & _).
  cbn [acked_run acked_step warq_step]. rewrite send_sdu_ok by (done || (cbn in *; lia)). rewrite !bind_Ok. apply returns_Ok. by eexists _, _.
Qed.

(** A run in which the block 0 arrives before the sender has sent a whole window. *)
Lemma started_run p es1 is_ es2 : let es := ASdu p :: AXmit :: es1 ++ ARecv is_ :: es2 in
  ps = asdus_of es -> forallb no_arrival es1 = true -> 1 + xmits es1 < w -> 0%nat ∈ is_ -> forallb short es = true ->
  aarrivals es < 1000000000000 ->
  returns (acked_run cid bs es (new_connection 1 w)) (going [] (aarrivals es)).
Proof.
  intros es Eps Hn Hx H0 Hs Ht. pose proof early_new as He.
  assert (Esd : asdus_of es = p :: asdus_of es1 ++ asdus_of es2) by (unfold es, asdus_of; cbn; by rewrite omap_app).
  change es with ([ASdu p; AXmit] ++ es1 ++ ARecv is_ :: es2) in *. rewrite acked_run_app.
  assert (Ea : aarrivals ([ASdu p; AXmit] ++ es1 ++ ARecv is_ :: es2) = Z.of_nat (length is_) + aarrivals es2).
  { cbn [app]. change (aarrivals (es1 ++ ARecv is_ :: es2) = Z.of_nat (length is_) + aarrivals es2). clear -Hn. induction es1 as [|e es1 IH]; [done|].
    cbn [forallb] in Hn. apply andb_prop in Hn as [He Hn]. rewrite <- IH by done. by destruct e. }
  rewrite Ea in *. rewrite !forallb_app in Hs. apply andb_prop in Hs as [_ Hs]. apply andb_prop in Hs as [_ Hs].
  cbn [forallb short] in Hs. apply andb_prop in Hs as [Hs1 Hs2].
  eapply returns_bind; [apply returns_and; [apply (early_run [ASdu p; AXmit] (asdus_of es1 ++ asdus_of es2) 0); [|done]|apply (first_block p (asdus_of es1 ++ asdus_of es2))]|].
  { by rewrite Eps, Esd in He. } { by rewrite Eps. }
  intros y1 [[H1 _] (q & l & A1 & Eq)]. rewrite acked_run_app. eapply returns_bind; [exact (early_run es1 (asdus_of es2) _ y1 H1 Hn)|].
  intros y2 [[C2 S2 N2 T2] (l2 & A2)]. cbn [acked_run]. change (xmits [ASdu p; AXmit]) with 1 in T2.
  pose proof (aarrivals_nonneg es2) as Hnn.
  eapply returns_bind; [apply (arecv_ok (asdus_of es2) 0 y2 is_ C2 S2); lia|]. intros y3 (C3 & S3 & (F1 & F2 & F3) & G3 & Hgot).
  assert (Hg : got (arq_retrans_queue_ (rcv_ y3)) (ack_seq_ (rcv_ y3)) 0).
  { rewrite <- Eq. apply (Hgot 0%nat); [done|by rewrite A2, A1|lia]. }
  pose proof (next_missing bs ps w _ _ _ y3 C3) as Hm. destruct (blocks_range _ _ _ _ C3) as (_ & _ & _ & _ & Hk & _).
  assert (Hk1 : 1 <= ack_seq_ (rcv_ y3)) by (destruct (Z.eq_dec (ack_seq_ (rcv_ y3)) 0) as [E|E]; [rewrite E in Hm, Hg; done|lia]).
  change (0 + Z.of_nat (length is_)) with (Z.of_nat (length is_)) in C3.
  apply (going_run es2 [] (Z.of_nat (length is_)) y3); [|done|done]. rewrite app_nil_r. split; [done|done|done|].
  unfold taken in *. rewrite F1, F3. lia.
Qed.
End Acked.

(** * The connection is live *)


(** * Connections that stop *)

Lemma outside_first s a : next_outside s a = true -> first_outside s a = true.
Proof. unfold next_outside, first_outside. lia. Qed.

Lemma queued_app p q l : queued true p q = true -> queued true p (q ++ l) = true.
Proof. rewrite !queued_true. intros (r & H & E). exists r. split; [|done]. apply elem_of_app. by left. Qed.

Lemma requeue_all (P : block -> Prop) q l : forall r, Forall (fun p => queued true p q = false -> P p) l -> Forall P r -> Forall P (requeue true q l r).
Proof.
  induction l as [|p l IH]; intros r Hl Hr; cbn [requeue]; [done|]. apply Forall_cons in Hl as [Hp Hl]. cbv zeta.
  apply IH; [done|]. destruct (queued true p q); cbn [negb andb]; [done|]. destruct (queued true p r); [done|]. apply Forall_app. split; [done|]. constructor; [by apply Hp|constructor].
Qed.

(** The blocks of an SDU enter both queues. *)
Definition both (l : list block) (q : list block) (a : Arqstatus) (q' : list block) (a' : Arqstatus) : Prop :=
  q' = q ++ l /\ arq_trans_queue_ a' = arq_trans_queue_ a ++ l /\ arq_retrans_queue_ a' = arq_retrans_queue_ a /\
  forall s, next_outside s a' = next_outside s a.

Lemma arqSend_both st p q a : let '(p', a') := arqSend true st p a in both [p'] q a (q ++ [p']) a'.
Proof. done. Qed.

Lemma send_full_both n : forall st p q a, let '(_, q', a') := send_full true n st p q a in exists l, both l q a q' a'.
Proof.
  induction n as [|n IH]; intros st p q a; cbn [send_full].
  - exists []. unfold both. by rewrite !app_nil_r.
  - pose proof (arqSend_both st p q a) as H1. destruct (arqSend true st p a) as [p' a1]. specialize (IH FRAG_CONT p' (q ++ [p']) a1).
    destruct (send_full true n FRAG_CONT p' (q ++ [p']) a1) as [[p2 q2] a2]. destruct IH as (l & L1 & L2 & L3 & L4), H1 as (_ & M2 & M3 & M4).
    exists (p' :: l). split; [by rewrite L1, <- app_assoc|]. split; [by rewrite L2, M2, <- app_assoc|]. split; [by rewrite L3|]. intros s. by rewrite L4.
Qed.

Lemma send_sdu_both bs p q a : bs <> 0 -> returns (send_sdu true bs p q a) (fun '(q', a') => exists l, both l q a q' a').
Proof.
  intros Hbs. unfold send_sdu. rewrite (proj2 (Z.eqb_neq bs 0)) by done. cbv zeta.
  pose proof (send_full_both (Z.to_nat (Z.quot (b_size p) bs)) FRAG_FIRST (p <| b_size := bs |>) q a) as H1.
  destruct (send_full _ _ _ _ _ _) as [[p1 q1] a1]. destruct H1 as (l & L1 & L2 & L3 & L4).
  set (p2 := p1 <| b_size := _ |>). set (st := if nz _ then FRAG_LAST else FRAG_NOFRAG).
  pose proof (arqSend_both st p2 q1 a1) as M. destruct (arqSend true st p2 a1) as [p3 a3]. destruct M as (M1 & M2 & M3 & M4). apply returns_Ok.
  exists (l ++ [p3]). split; [by rewrite L1, <- app_assoc|]. split; [by rewrite M2, L2, <- app_assoc|]. split; [by rewrite M3|]. intros s. by rewrite M4.
Qed.

(** Blocks that have arrived before change a count only: no acknowledgement. *)
Lemma take_blocks_old cid l : forall a, 0 <= ack_seq_ a < 4096 -> 0 <= arq_max_window_ a < 4096 ->
  Forall (fun p => 0 <= pack_sn p < ack_seq_ a) l -> exists c, take_blocks true cid l a = Ok (a <| ack_counter_ := c |>).
Proof.
  induction l as [|p l IH]; intros a Hk Hw Hl; cbn [take_blocks]; [exists (ack_counter_ a); by destruct a|].
  apply Forall_cons in Hl as [Hp Hl]. enough (exists c, take_block true cid p a = Ok (a <| ack_counter_ := c |>)) as [c ->].
  { rewrite bind_Ok. edestruct IH as [c' E]; [| | |exists c'; exact E]; done. }
  unfold take_block, arqReceive, classify. change (seq_of true p) with (pack_sn p). rewrite (proj2 (Z.eqb_neq (ack_seq_ a) (pack_sn p))) by lia.
  cbn [negb]. rewrite ahead_eq by lia. rewrite (proj2 (Z.ltb_ge _ _)) by lia. cbn [andb]. cbv zeta. change (2 =? 1) with false. change (2 =? 0) with false. cbv iota.
  destruct (_ =? _); rewrite bind_Ok; by eexists.
Qed.

Lemma transfer_none cid a : arq_retrans_queue_ a = [] -> returns (transfer true cid a) (fun a' => a' = a).
Proof.
  intros E. unfold transfer. eapply returns_bind; [apply (c_while_rule (fun '((_, a') : bool * Arqstatus) => a' = a) (fun '((b, _) : bool * Arqstatus) => if b then 1 else 0))|].
  - intros [b a'] -> Hb. cbn in Hb. subst b. rewrite E. cbn [transfer_pass]. apply returns_Ok. split; [rewrite <- E; by destruct a|lia].
  - done.
  - lia.
  - intros [b a'] [H _]. by apply returns_Ok.
Qed.

(** It still repeats blocks that have arrived. *)
Lemma stopped_xmit n y : stopped y -> stopped (xmit_pdu n y) /\ up (xmit_pdu n y) = up y.
Proof.
  assert (Hnext : forall y p y', stopped y -> next_outside (pack_sn p) (snd_ y) = false -> next_block y = Some (p, y') -> stopped y' /\ up y' = up y).
  { clear. intros y p y' [R Q A C D (p0 & q0 & N1 & N2)] Eo E. unfold next_block in E. destruct (arq_retrans_queue_ (snd_ y)) as [|r l] eqn:Er.
    - rewrite N1 in E. injection E as <- <-. congruence.
    - injection E as <- <-. apply Forall_cons in C as [Cr C]. split; [|done]. split; try done; cbn; [|by exists p0, q0].
      apply Forall_app. split; [done|by constructor]. }
  assert (Hxs : forall n y, stopped y -> stopped (xmit_next n y) /\ up (xmit_next n y) = up y).
  { clear n y. intros n. induction n as [|n IH]; intros y H; cbn [xmit_next]; [done|]. destruct (next_block y) as [[p y']|] eqn:E; [|done].
    destruct (next_outside _ _) eqn:Eo; [done|]. destruct (Hnext y p y' H Eo E) as [H' E']. rewrite <- E'. by apply IH. }
  intros H. unfold xmit_pdu. destruct (next_block y) as [[p y']|] eqn:E; [|done]. destruct (first_outside _ _) eqn:Eo; [done|].
  assert (Eo' : next_outside (pack_sn p) (snd_ y) = false) by (apply not_true_iff_false; intros Ht; apply outside_first in Ht; congruence).
  destruct (Hnext y p y' H Eo' E) as [H' <-]. by apply Hxs.
Qed.

(** Whatever happens to it then, a connection that has stopped stays so. *)
Lemma stopped_step cid bs e y : bs <> 0 -> no_feedback e = true -> stopped y ->
  returns (warq_step cid bs e y) (fun y' => stopped y' /\ up y' = up y).
Proof.
  intros Hbs He [[R1 R2] (Q1 & Q2 & Q3) A C D (p0 & q0 & N1 & N2)]. destruct e as [p| |n|is_| |i]; [| | | | |done]; cbn [warq_step].
  - eapply returns_bind; [by apply send_sdu_both|]. intros [q a] (l & -> & L2 & L3 & L4). apply returns_Ok. split; [|done].
    split; cbn; rewrite ?L2, ?L3; try done.
    + apply Forall_app. split; [|apply Forall_forall; intros r Hr Hq; exfalso; apply queued_false in Hq; apply Hq, list_elem_of_fmap;
        exists r; split; [done|]; apply elem_of_app; by right].
      eapply Forall_impl; [exact D|]. intros r Hr Hq. apply Hr. destruct (queued true r (conn_q y)) eqn:E; [|done].
      assert (Hq' : queued true r (conn_q y ++ l) = false) by exact Hq. by rewrite queued_app in Hq'.
    + rewrite N1. eexists _, _. split; [reflexivity|]. by rewrite L4.
  - apply returns_Ok. split; [|done]. split; try done; cbn; [by apply requeue_all|]. by exists p0, q0.
  - apply returns_Ok. apply stopped_xmit. by split; [| | | | |exists p0, q0].
  - destruct (take_blocks_old cid (omap (fun i => air y !! i) is_) (rcv_ y) R1 R2) as [c E].
    { apply Forall_forall. intros p Hp. apply list_elem_of_omap in Hp as (i & _ & Ei). rewrite Forall_lookup in A. by apply (A i). }
    unfold receive_pdu. rewrite E, bind_Ok. set (a := (rcv_ y) <| ack_counter_ := c |>).
    eapply returns_bind; [eapply returns_bind; [apply (transfer_none cid a Q2)|]|].
    { intros a' ->. change (arq_trans_queue_ a) with (arq_trans_queue_ (rcv_ y)). rewrite Q3, bind_Ok. apply returns_Ok.
      exact (@eq_refl _ (a <| arq_trans_queue_ := arq_trans_queue_ (rcv_ y) |>, up y)). }
    intros ? <-. apply returns_Ok. split; [|done]. by split; try done; cbn; exists p0, q0.
  - rewrite Q1. apply returns_Ok. split; [|done]. split; try done. by exists p0, q0.
Qed.

(** C15: Lost acknowledgements stop a connection for good.  When all that the sender may
    send has arrived, and the acknowledgements of it are lost, nothing more is
    handed up, whatever SDUs follow and however often the timer expires and blocks
    are repeated: a block that has arrived before is not acknowledged again, and the
    sender's window does not let the next one through. *)
Theorem wimax_arq_stops cid bs es : forall y, bs <> 0 -> forallb no_feedback es = true -> stopped y ->
  returns (warq_run cid bs es y) (fun y' => stopped y' /\ up y' = up y).
Proof.
  induction es as [|e es IH]; intros y Hbs He H; cbn [warq_run]; [by apply returns_Ok|]. cbn [forallb] in He. apply andb_prop in He as [He1 He].
  eapply returns_bind; [by apply stopped_step|]. intros y1 [H1 <-]. by apply IH.
Qed.

(** * The connections, run *)


Lemma wimax_arq_stops_witness : warq_run 7 100 lost_acks (new_connection 1 4) = Ok lost_state /\ length (up lost_state) = 1%nat /\
  returns (warq_run 7 100 [ETimer; EXmit 4; ERecv [5%nat; 7%nat]; ESendFb; ESdu (sdu 3 100); EXmit 0] lost_state) (fun y' => stopped y' /\ up y' = up lost_state).
Proof.
  split; [vm_compute; reflexivity|]. split; [vm_compute; reflexivity|].
  apply (wimax_arq_stops 7 100 [ETimer; EXmit 4; ERecv [5%nat; 7%nat]; ESendFb; ESdu (sdu 3 100); EXmit 0] lost_state); [done|reflexivity|].
  split; vm_compute; [split; split; discriminate || reflexivity|split; [reflexivity|split; reflexivity]| | | |].
  - repeat constructor; discriminate.
  - constructor.
  - repeat constructor; discriminate.
  - eexists _, _. split; reflexivity.
Defined.

(** The test on the blocks after the first of a PDU lets one more through than the test
    on the first.  That block is then refused at the head of the queue, and those
    behind it stay there, though no acknowledgement was lost. *)
Example refused_head_stays :
  sender_of (warq_run 7 100 refused_head (new_connection 1 4)) = Some ([0; 1; 2; 3; 4; 1; 2; 3], [4; 1; 2; 3], [5; 6]) /\
  sender_of (warq_run 7 100 (refused_head ++ [EXmit 0; EXmit 9; ETimer; EXmit 9]) (new_connection 1 4)) =
  sender_of (warq_run 7 100 refused_head (new_connection 1 4)).
Proof. split; vm_compute; reflexivity. Qed.
